(* ===== verification/_CoqProject ===== *)
-Q . S2P
Prelude.v
Heap.v
GoFloat.v
GoStrings.v
NetAddr.v
GoHash.v
Bloom.v
ContentIndex.v
StreamKeys.v
SlidingWindow.v
Manifest.v
EdgeCache.v
Fetcher.v
Deduper.v
Prefetch.v
Models.v
StreamStrategy.v
NodeCache.v
Scheduler.v
TunnelCodec.v
TunnelServer.v
NodeLifecycle.v
DNS.v
AdminAuth.v
Leader.v
Policy.v
Prober.v
RateLimiter.v
ResourceKeys.v
Api.v
GoJson.v
Tokens.v
EdgeServer.v
Gateway.v
TunnelClient.v
AdminTables.v
ConfigManager.v
TenantRateLimit.v
AdminApi.v
AdminSessions.v
WorkerPool.v
TaskExecutor.v
AdminConsole.v
AdminLists.v
EdgeHTTP.v
Origin.v
Config.v
SmartPrefetch.v
P2P.v
Reporter.v
LocalConfig.v
EdgeProxy.v
ApiRoutes.v
HeartbeatQueue.v
HeartbeatStore.v
Metrics.v
Agent.v
TunnelAccept.v
GatewayServer.v
ControlMain.v
DnsAdapter.v
StressStats.v
Stress.v
TunnelRun.v
StoreTasks.v
Quic.v
ApiHeaders.v
StoreRaces.v
OriginServer.v
AdminPages.v
