(* ===== verification/Prelude.v ===== *)
(** * Edge Dispatch Framework: a verification library

    The program distributes content from edge nodes.  A control plane
    ([internal/controlplane], [cmd/control-plane]) knows the nodes, probes them, receives
    their heartbeats and content summaries and answers a dispatch request with the best
    nodes; edge agents ([internal/edgeagent]) cache resources on disk and serve them; nodes
    behind a NAT keep a tunnel ([internal/tunnel]) to a gateway ([internal/gateway]); a DNS
    adapter ([internal/dns]) translates names into dispatches.  PostgreSQL and Redis
    ([internal/store]) hold the shared state.

    ** How the library is laid out

    This file holds what the others share: the outcomes of Go code ([result], with a panic
    as a value, and the notation [let! x := m in k]), fixed-width integers, byte slices,
    slice swaps, and the automation ([bool_to_prop], [split_ifs], the hint database
    [edge]).  Then come the models of the parts of Go's standard library the program relies
    on, and one file per component:

    - [Heap]: [container/heap] and the bounded heap on it ([scoredHeap]);
    - [GoFloat]: [float64] as IEEE-754 binary64, executable, with its order;
    - [GoStrings]: the used parts of [strings], [strconv] and [fmt];
    - [NetAddr]: addresses and networks of [net] (parsing, printing, masks) and the network
      prefix a token is bound to;
    - [GoHash]: MD5, SHA-256, HMAC and 128-bit FNV-1a, executable, with test vectors;
    - [Bloom], [ContentIndex]: [contentindex/bloom.go] and [store.go], the filters, the
      index of which node caches which key, and its two tables;
    - [StreamKeys], [SlidingWindow]: [streaming/window.go], the keys of chunks and the
      window of recent chunks;
    - [Manifest], [Prefetch]: [streaming/manifest.go], [prefetch.go] and [handler.go];
    - [EdgeCache]: [edgeagent/cache.go] and the content summary of [reporter.go];
    - [Fetcher], [Deduper]: [edgeagent/fetcher.go], the circuit breaker with its retries, and
      the goroutines that share a fetch;
    - [Models]: the shared data of [models/models.go];
    - [StreamStrategy]: [streaming/strategy.go];
    - [NodeCache]: [controlplane/nodecache.go], with its concurrent readers;
    - [Scheduler]: [controlplane/scheduler.go], the dispatch decision;
    - [TunnelCodec]: [tunnel/message.go], the wire format;
    - [TunnelServer]: [tunnel/tunnel.go] and [server.go], sessions and their goroutines;
    - [NodeLifecycle]: the node part of [store/pg.go], [registry.go] and [heartbeat.go];
    - [DNS]: [dns/server.go];
    - [AdminAuth]: [auth/admin.go] (signed requests) and [admin_internal.go];
    - [Leader]: [controlplane/leader.go], instances interleaved at Redis commands;
    - [Policy]: [controlplane/policy.go], the block lists;
    - [Prober]: [controlplane/prober.go] and the probe queries of [store/pg.go];
    - [RateLimiter]: the limiter of [controlplane/api.go];
    - [ResourceKeys]: key sanitizing and URL escaping ([scheduler.go], [api.go]);
    - [Api]: the handlers of [controlplane/api.go] and [admin_internal.go], which compose
      the scheduler, the node table, the block lists and the sanitizer;
    - [GoJson]: [encoding/json] for flat structs, and UTF-8;
    - [Tokens]: [auth/token.go] and the sessions of [auth/admin.go];
    - [EdgeServer]: the handlers of [edgeagent/server.go], which compose the cache, the
      fetcher, the streaming handler and the tokens;
    - [Gateway]: [gateway/resolver.go] and [gateway.go], which compose the dispatch handler
      of [Api] with [EdgeServer] or with a tunnel;
    - [TunnelClient]: [tunnel/client.go], the other end of [TunnelServer], with the request
      of the gateway handed on to [EdgeServer];
    - [AdminTables]: the admin tables of [store/pg.go] with the constraints of their schema;
    - [ConfigManager], [TenantRateLimit]: [controlplane/config_manager.go] and
      [tenant_ratelimit.go], the latter with its Lua script;
    - [AdminApi]: [controlplane/admin_api.go], all handlers of the console behind its router,
      over [AdminTables], [NodeLifecycle], [ConfigManager] and the sessions of [Tokens];
    - [AdminSessions], [AdminConsole], [AdminLists]: the theorems about it;
    - [WorkerPool], [TaskExecutor]: [controlplane/task_executor.go], the goroutines of a task
      and the polling of the task table, with [EdgeServer] at the other end;
    - [EdgeHTTP]: the middleware of [edgeagent/server.go], from a handler's answer to the
      bytes on the wire, compression included;
    - [Origin]: [cmd/origin/main.go], with [EdgeServer] as its client;
    - [Config]: [config/config.go], every variable of every process;
    - [SmartPrefetch], [P2P], [Reporter], [LocalConfig], [EdgeProxy]: the files of
      [edgeagent] for prefetching at night, peers, the reports to the control plane (with
      [Api] at the other end), the configuration page and the proxy to the origin;
    - [ApiRoutes], [ApiHeaders]: the router, the API key, the middlewares and the headers of
      [controlplane/api.go], around the handlers of [Api] and [ConfigManager], and the
      paths [cmd/control-plane] hands to it;
    - [HeartbeatQueue], [HeartbeatStore]: the batch queue of [heartbeat.go], and the
      heartbeats of [store/pg.go] in Redis, command by command and byte by byte, under the
      operations of [NodeLifecycle];
    - [Metrics]: [metrics/metrics.go] and what the four processes count and show;
    - [Agent]: [edgeagent/edge.go], [ratelimiter.go] and the listeners of [server.go], the
      start and stop of an agent with its loops;
    - [TunnelAccept], [TunnelRun]: the connections of [tunnel/server.go], and the loop of
      [tunnel/client.go] that makes them;
    - [GatewayServer]: the process of [gateway/gateway.go], its routes, its health page and
      the firewall of [waf/waf.go];
    - [ControlMain]: the leadership goroutine of [cmd/control-plane], over [Leader];
    - [DnsAdapter]: the process of [dns/server.go], over [DNS];
    - [StressStats], [Stress]: [cmd/stress/main.go], the figures of the load generator and
      its requests;
    - [StoreTasks]: the background loops and single queries of [contentindex/store.go] and
      [store/pg.go];
    - [Quic]: [internal/quic], [internal/autotls] and the start of HTTP/3;
    - [StoreRaces]: the operations of [NodeLifecycle] as goroutines, one access at a time;
    - [OriginServer]: the process of [cmd/origin/main.go] around the handler of [Origin];
    - [AdminPages]: [adminui/spa.go] and a browser, behind the routes of [ApiRoutes].

    A struct is a [Record] with the same name, a method [func (r *T) M] is the definition
    [T_M], a plain function keeps its name; parts of long functions that are definitions of
    their own are listed with their lines in the manifest.  The interfaces between
    components are classes: [ContentIndexLookup] with its law (what the scheduler asks of
    the content index, discharged in [ContentIndex]), [CacheAccessor] with [CacheLaws] (what
    the sliding window asks of a cache, discharged in [EdgeCache]), [TokenSigner] (what the
    scheduler asks of the signer, instantiated in [Tokens]); [PasswordHash] and [ParamsCodec]
    state what the console relies on of bcrypt and of the JSON of task parameters.

    ** What is explicit

    The clock, the outcome of a database or Redis statement, the failures of the file
    system and of the network, and the order in which [range] visits a map are arguments of
    the operations that meet them, so the theorems hold for all of them.  Concurrency is a
    step relation whose steps are the atomic sections of the code (a critical section, a
    channel operation, a Redis command): [dd_step] and [sb_step] in [Deduper], [pf_step] in [Prefetch],
    [nc_step] in [NodeCache], [sess_step] in [TunnelServer], [tc_step] in [TunnelClient],
    [resolver_step] in [Gateway], [le_step] in [Leader], [policy_step] in [Policy], [allow_step] in
    [RateLimiter], [pool_step] in [WorkerPool], [p2_step] in [P2P], [spm_step] in
    [SmartPrefetch], [queue_step] in [HeartbeatQueue], [accept_step] in [TunnelAccept],
    [run_step] in [TunnelRun], [sys_step] in [ControlMain], [rec_step] in [StressStats],
    [world_step] in [StoreRaces];
    [api_step] in [Api] and in [ApiRoutes] and [admin_step] in [AdminSessions] run whole
    requests one after the other, [db_step] in [AdminTables] whole statements.  A Redis or
    SQL command does what its documentation says; [SCAN] returns some batches that together
    hold every key, and what a command may leave open (the order of rows) is an argument.  Integers that may wrap keep their width.  Go's loops are structural recursions, or recursions on a fuel
    that is the length of the data they walk: the heap's [up] and [down] on the length of
    the slice (they halve or double an index below it), the DNS label loop on the length of
    the datagram (each turn advances), the JSON parser on the length of the text (each call
    consumes a character), the formatting of an integer on its number of digits, the polls of
    the task executor on their number.  In each case the theorems state the result, so the fuel suffices.

    ** What the theorems show

    - Dispatch ([Scheduler], [Heap], [StreamStrategy], [NodeCache]): the answer is exactly
      the best-scored eligible nodes in order; only eligible nodes are announced; batch
      lookups do not change a score; without an eligible node the origin is used; the node
      list is the current one if no change falls into a running read, and may be stale
      otherwise.
    - Content knowledge ([Bloom], [ContentIndex], [EdgeCache]): no false negatives; an
      upserted key is found, also after a restart; but the summary an edge node builds
      names no resource key.
    - Edge cache and streaming ([EdgeCache], [StreamKeys], [SlidingWindow]): the counters
      describe the disk after any run with faults; [Put] respects the limit; eviction is
      least recently used first; what was put is read back; the window holds the last
      chunks and no others stay cached; the key codec is invertible.
    - Serving at the edge ([EdgeServer], [Fetcher], [Deduper], [Manifest], [Prefetch]):
      nothing is served without a valid token for the client's network; ranges are exact;
      what was fetched completely is served from the cache afterwards; requests stay below
      the object directory of the origin; the circuit breaker is the three-state machine; a
      key is fetched by one goroutine at a time, which returns; playlists are read back as
      written; the prefetch queue is bounded.  But an incomplete transfer is cached as the
      object, a token opens every object, a second waiter of a fetch starves, those who
      share a fetch share its body, and chunks of different tracks are confused.
    - Tunnels ([TunnelCodec], [TunnelServer], [TunnelClient]): the codec is invertible on
      streams of messages; no interleaving closes a channel twice; the handshake admits only
      authenticated, unique nodes within the limit, and the client is connected exactly if
      it was admitted; the manager is a set; a response written without interruption is
      read back with its body.  But a response body is cut off after two messages, and
      responses written at the same time corrupt the stream.
    - From the client to the edge ([Gateway], [TunnelClient]): a forwarded request is served
      exactly if the address the gateway asked for and its peer's address share a network;
      a request through a tunnel carries no token and is refused by the edge.
    - Nodes ([NodeLifecycle], [StoreRaces], [Prober], [Leader], [Policy]): disabled nodes stay disabled,
      revoked ones are refused, degraded ones never recover, and asking for a heartbeat
      prolongs it; reads of the table settle under any interleaving ([StoreRaces]), but a
      heartbeat can overtake an administrator and a read revive an old row; a probe round updates exactly the probed nodes and risk is monotone; at
      most one leader under timely renewals, and two without; the block lists are sets.
    - Requests from outside ([Api], [RateLimiter], [Tokens], [AdminAuth], [DNS]): a disabled
      node is never dispatched again, through any sequence of requests; redirects name the
      sanitized key; calls are limited to the rate, until the clock product overflows;
      tokens and sessions give back what was signed until they expire, and the token of a
      dispatch answer verifies for its key; an accepted admin request cannot be replayed;
      the DNS parser is exact, the answer builder panics; the buckets of tenants are
      independent, but the name of the tenant is free.
    - The console ([AdminTables], [AdminApi], [AdminSessions], [AdminConsole], [AdminLists],
      [ConfigManager]): its tables stay consistent; nothing happens without a session, a
      login opens one until it expires, a refresh token works once; every version of a
      policy can be had back; the pages of a list end and are complete; the exported audit
      log can be read back.  But a session outlives its user, every start restores the first
      administrator, version numbers are used twice, the pages of the audit log need not
      end, and a node disabled on the console is dispatched until the node list expires.
    - Tasks ([WorkerPool], [TaskExecutor]): the goroutines of a task end without deadlock and
      can be taken one after the other; the queue drains; a purge reaches every edge that
      answers.  But a cancelled task runs, and blocking an object only purges it.
    - On the wire ([EdgeHTTP], [Origin]): a cached object arrives byte for byte whatever
      encodings the client accepts, the origin opens no file outside its directory, and both
      read ranges alike.  But a fetched object of a compressible type arrives unreadable, and
      requests for missing objects close the origin to all others.
    - Pages and the origin's start ([AdminPages], [OriginServer]): every path of the console
      ends at one of its pages, save "/admin" itself; a fresh origin serves its sample, but a
      first start that fails leaves one that never has it.
    - Agents ([Reporter], [Agent], [SmartPrefetch], [P2P], [LocalConfig], [EdgeProxy]): an
      agent that starts is an active node of the control plane, and its loops are exactly
      those its configuration asks for and all stopped by its shutdown; what was prefetched is
      served; peers are asked in order.  But the configuration page opens every object, a
      disabled node returns by a restart, and no WebSocket is ever established.
    - The API as a whole ([ApiRoutes], [ApiHeaders], [Config]): nothing is dispatched or
      registered without the API key; a registered edge serves what was dispatched to it; the
      signed routes cannot be reached; default secrets are refused, except by the agent.
    - Heartbeats on their way ([HeartbeatQueue], [HeartbeatStore]): each is answered after a
      bounded number of steps and as if processed alone; what is stored is read back; the
      hashes in Redis implement the map the node life cycle works on.  But an instance without
      the loop answers none, and a clean-up may delete a heartbeat that has just arrived.
    - Processes ([GatewayServer], [TunnelAccept], [TunnelRun], [ControlMain], [DnsAdapter],
      [StoreTasks], [Quic], [Metrics]): a tunnel belongs to one connection, the limit of
      tunnels is exceeded by as many connections as pass the check together, a stopped client
      ends; counters count; the maintenance changes no score.  But the firewall looks at no
      query, a lost connection locks its node out, a demoted leader keeps its tasks, and the
      DNS adapter answers no query.
    - The load generator ([StressStats], [Stress]): its figures are exact under any
      interleaving, its loops end, its tokens are accepted; it asks for one object per worker.

    ** What is not modelled

    JSON bodies of requests and JSON columns (a decoded value stands for its JSON, and a
    text for the value it denotes; only tokens are decoded from text).  Tracing, which only hands requests on; the set-up of TLS, HTTP/3 and
    connection pools, whose libraries are arguments; the rules engine of the firewall (Coraza),
    the text of metrics pages and the compressed formats, which are arguments; the creation of
    the tables and their indexes (their constraints are in [AdminTables]); the files of
    the console's pages; the rest of the [main] functions, which construct the
    components and log.  [xml.Unmarshal], [strconv.ParseFloat] and [url.Parse] of configured
    addresses are arguments.  The program never asks for
    a read replica, so that all queries go to the primary database; the slices the scheduler recycles through [sync.Pool] are taken to be private. *)

From stdpp Require Export base list gmap strings numbers sorting fin_maps.
From coqutil Require Export Byte Word.LittleEndianList.
From Stdlib Require Export ZArith Lia.
From Stdlib Require String Ascii Strings.Byte.

#[export] Set Warnings "-clear-no-such-hyp".
#[global] Open Scope Z_scope.

(** ** Outcomes of Go code

    A Go function that returns [(T, error)] and may panic is modelled by a
    function into [result T]: [Ok v] is a nil error, [Err msg] carries the error
    text and [Panic] is a run-time panic (index out of range, close of a closed
    channel, ...). *)
Inductive result (A : Type) : Type :=
| Ok (a : A)
| Err (msg : string)
| Panic.
Arguments Ok {A} a.
Arguments Err {A} msg.
Arguments Panic {A}.

#[export] Instance result_eq_dec {A : Type} `{EqDecision A} : EqDecision (result A).
Proof. solve_decision. Defined.

Declare Scope go_scope.
Delimit Scope go_scope with go.

Definition result_bind {A B : Type} (m : result A) (k : A → result B) : result B :=
  match m with
  | Ok a => k a
  | Err e => Err e
  | Panic => Panic
  end.

Notation "'let!' x := m 'in' k" := (result_bind m (λ x, k))
  (at level 10, x pattern, m at level 100, k at level 200) : go_scope.
#[global] Open Scope go_scope.

(** Did the call return without a panic? *)
Definition no_panic {A : Type} (m : result A) : Prop := m ≠ Panic.

(** ** Fixed-width integers *)
Definition u8 (z : Z) : Z := z mod 2 ^ 8.
Definition u16 (z : Z) : Z := z mod 2 ^ 16.
Definition u32 (z : Z) : Z := z mod 2 ^ 32.
Definition u64 (z : Z) : Z := z mod 2 ^ 64.
(** Two's complement reduction to [int64]. *)
Definition i64 (z : Z) : Z := (z + 2 ^ 63) mod 2 ^ 64 - 2 ^ 63.
Definition is_u32 (z : Z) : Prop := 0 ≤ z < 2 ^ 32.
Definition is_u64 (z : Z) : Prop := 0 ≤ z < 2 ^ 64.
Definition is_i64 (z : Z) : Prop := - 2 ^ 63 ≤ z < 2 ^ 63.

(** ** Byte slices *)
Abbreviation bytes := (list Init.Byte.byte).

#[export] Instance byte_eq_decision : EqDecision Init.Byte.byte := Stdlib.Strings.Byte.byte_eq_dec.

(** [[]byte(s)] and [string(b)]. *)
Definition bytes_of_string (s : string) : bytes := String.list_byte_of_string s.
Definition string_of_bytes (b : bytes) : string := String.string_of_list_byte b.

(** [binary.BigEndian]: the most significant byte first. *)
Definition be_split (n : nat) (z : Z) : bytes := rev (le_split n z).
Definition be_combine (b : bytes) : Z := le_combine (rev b).

(** ** Automation *)
Create HintDb edge.
Create Rewrite HintDb edge.

(** Turns the boolean comparisons of the modelled code into propositions. *)
Ltac bool_to_prop :=
  repeat match goal with
  | H : (_ && _)%bool = true |- _ => apply andb_prop in H as [? ?]
  | H : (_ || _)%bool = false |- _ => apply orb_false_elim in H as [? ?]
  | H : negb _ = true |- _ => apply negb_true_iff in H
  | H : negb _ = false |- _ => apply negb_false_iff in H
  | H : (_ <? _) = true |- _ => apply Z.ltb_lt in H
  | H : (_ <? _) = false |- _ => apply Z.ltb_ge in H
  | H : (_ <=? _) = true |- _ => apply Z.leb_le in H
  | H : (_ <=? _) = false |- _ => apply Z.leb_gt in H
  | H : (_ =? _) = true |- _ => apply Z.eqb_eq in H
  | H : (_ =? _) = false |- _ => apply Z.eqb_neq in H
  | H : (_ <? _)%nat = true |- _ => apply Nat.ltb_lt in H
  | H : (_ <? _)%nat = false |- _ => apply Nat.ltb_ge in H
  | H : (_ <=? _)%nat = true |- _ => apply Nat.leb_le in H
  | H : (_ <=? _)%nat = false |- _ => apply Nat.leb_gt in H
  | H : bool_decide _ = true |- _ => apply bool_decide_eq_true in H
  | H : bool_decide _ = false |- _ => apply bool_decide_eq_false in H
  | H : String.eqb _ _ = true |- _ => apply String.eqb_eq in H
  | H : String.eqb _ _ = false |- _ => apply String.eqb_neq in H
  end.

(** Splits every [if] and [match] of the goal that is not under a binder. *)
Ltac split_ifs :=
  repeat (case_match; simplify_eq/=; bool_to_prop); try done.

(** ** Lemmas on machine integers *)
Lemma u64_id z : is_u64 z → u64 z = z.
Proof. intros ?; by apply Z.mod_small. Qed.
Lemma u32_id z : is_u32 z → u32 z = z.
Proof. intros ?; by apply Z.mod_small. Qed.
Lemma u64_range z : is_u64 (u64 z).
Proof. apply Z.mod_pos_bound; lia. Qed.
Lemma u32_range z : is_u32 (u32 z).
Proof. apply Z.mod_pos_bound; lia. Qed.
Lemma i64_range z : is_i64 (i64 z).
Proof.
  unfold i64, is_i64. pose proof (Z.mod_pos_bound (z + 2 ^ 63) (2 ^ 64)). lia.
Qed.
Lemma i64_id z : is_i64 z → i64 z = z.
Proof. unfold is_i64, i64. intros ?. rewrite Z.mod_small; lia. Qed.
Lemma i64_add_l a b : i64 (i64 a + b) = i64 (a + b).
Proof.
  unfold i64. f_equal.
  replace ((a + 2 ^ 63) mod 2 ^ 64 - 2 ^ 63 + b + 2 ^ 63) with ((a + 2 ^ 63) mod 2 ^ 64 + b) by lia.
  rewrite Z.add_mod_idemp_l by lia. f_equal. lia.
Qed.
#[export] Hint Resolve u64_range u32_range i64_range : edge.
#[export] Hint Rewrite u64_id u32_id i64_id using (unfold is_u64, is_u32, is_i64; lia) : edge.

(** ** Lemmas on byte sequences *)
Lemma bytes_of_string_of_bytes b : bytes_of_string (string_of_bytes b) = b.
Proof. apply String.list_byte_of_string_of_list_byte. Qed.
Lemma string_of_bytes_of_string s : string_of_bytes (bytes_of_string s) = s.
Proof. apply String.string_of_list_byte_of_string. Qed.

Lemma length_be_split n z : length (be_split n z) = n.
Proof. unfold be_split. by rewrite List.length_rev, length_le_split. Qed.

Lemma be_combine_split n z : be_combine (be_split n z) = z mod 2 ^ (Z.of_nat n * 8).
Proof. unfold be_combine, be_split. by rewrite List.rev_involutive, le_combine_split. Qed.

Lemma be_split_combine n b : length b = n → be_split n (be_combine b) = b.
Proof.
  intros <-. unfold be_split, be_combine.
  rewrite <- (List.length_rev b), split_le_combine. apply List.rev_involutive.
Qed.
#[export] Hint Rewrite @length_be_split : edge.

(** ** Lists as Go slices *)

(** [s[i], s[j] = s[j], s[i]]; both indices are in range in every use. *)
Definition slice_swap {A : Type} `{Inhabited A} (l : list A) (i j : nat) : list A :=
  <[i := l !!! j]> (<[j := l !!! i]> l).

Section slice_swap.
Context {A : Type} `{Inhabited A}.
Implicit Types l : list A.

Lemma length_slice_swap l i j : length (slice_swap l i j) = length l.
Proof. unfold slice_swap. by rewrite !length_insert. Qed.

Lemma lookup_slice_swap l i j k :
  (i < length l)%nat → (j < length l)%nat →
  slice_swap l i j !!! k =
    if decide (k = i) then l !!! j else if decide (k = j) then l !!! i else l !!! k.
Proof.
  intros Hi Hj. unfold slice_swap. repeat case_decide; subst.
  - rewrite list_lookup_total_insert_eq; [done|by rewrite length_insert].
  - rewrite list_lookup_total_insert_ne, list_lookup_total_insert_eq by done. done.
  - rewrite !list_lookup_total_insert_ne by done. done.
Qed.

Lemma slice_swap_same l i : slice_swap l i i = l.
Proof.
  unfold slice_swap. rewrite list_insert_insert_eq. apply list_insert_id'.
  intros Hi. by apply list_lookup_lookup_total_lt.
Qed.

Lemma insert_swap_perm l i j x y :
  l !! i = Some x → l !! j = Some y → <[i := y]> (<[j := x]> l) ≡ₚ l.
Proof.
  intros Hi Hj.
  destruct (decide (i = j)) as [->|Hne].
  { simplify_eq. rewrite list_insert_insert_eq. by rewrite list_insert_id. }
  apply Permutation_inj. split; [by rewrite !length_insert|].
  exists (λ k, if decide (k = i) then j else if decide (k = j) then i else k).
  split.
  - intros a b. repeat case_decide; lia.
  - intros k. pose proof (lookup_lt_Some _ _ _ Hi). pose proof (lookup_lt_Some _ _ _ Hj).
    repeat case_decide; subst.
    + rewrite list_lookup_insert_eq; [done|by rewrite length_insert].
    + rewrite list_lookup_insert_ne, list_lookup_insert_eq by done. done.
    + by rewrite !list_lookup_insert_ne by done.
Qed.

Lemma slice_swap_perm l i j :
  (i < length l)%nat → (j < length l)%nat → slice_swap l i j ≡ₚ l.
Proof.
  intros Hi Hj. unfold slice_swap.
  apply insert_swap_perm; by apply list_lookup_lookup_total_lt.
Qed.
End slice_swap.

(** Reading a sorted slice backwards. *)
Lemma StronglySorted_rev {A : Type} (R : relation A) (l : list A) :
  StronglySorted R l → StronglySorted (flip R) (rev l).
Proof.
  induction 1 as [|x l Hl IH Hx]; simpl; [constructor|].
  apply StronglySorted_app. split_and!; [|done|by repeat constructor].
  intros a b Ha ->%list_elem_of_singleton. apply list_elem_of_In, List.in_rev, list_elem_of_In in Ha.
  by apply (proj1 (Forall_forall _ _) Hx).
Qed.
