(* ===== verification/Heap.v ===== *)
(** * Go's [container/heap] over a slice, and the bounded top-K heap on it

    [internal/controlplane/scheduler.go] keeps the best [max] nodes of a request
    in a [scoredHeap], a slice driven by the standard library's [container/heap].
    This file models the four heap operations the scheduler uses ([heap.Push],
    [heap.Pop], [heap.Fix] with their loops [up] and [down]) on the slice
    [h.nodes], and then [scoredHeap.push] and [scoredHeap.sorted].

    The comparison [less] is a parameter; the lemmas ask that on the elements
    selected by [P] it decides a total preorder [le] (float comparison does so
    away from NaN).  The loops of Go run on a fuel equal to the slice length,
    which bounds the height of the tree. *)

From S2P Require Import Prelude.

Section heap.
Context {A : Type} `{Inhabited A}.
Variable less : A → A → bool.

(** [for { i := (j-1)/2; if i == j || !h.Less(j, i) { break }; h.Swap(i, j); j = i }].
    Go's truncated division gives parent [0] to index [0], as [Nat.div] on
    truncated subtraction does. *)
Fixpoint up (fuel : nat) (l : list A) (j : nat) : list A :=
  match fuel with
  | O => l
  | S fuel' =>
      let i := ((j - 1) / 2)%nat in
      if (i =? j)%nat || negb (less (l !!! j) (l !!! i)) then l
      else up fuel' (slice_swap l i j) i
  end.

(** [j := j1; if j2 := j1 + 1; j2 < n && h.Less(j2, j1) { j = j2 }]. *)
Definition down_child (l : list A) (i n : nat) : nat :=
  let j1 := (2 * i + 1)%nat in
  let j2 := (j1 + 1)%nat in
  if (j2 <? n)%nat && less (l !!! j2) (l !!! j1) then j2 else j1.

(** The loop of [down]; returns the slice and the final index [i]. *)
Fixpoint down_loop (fuel : nat) (l : list A) (i n : nat) : list A * nat :=
  match fuel with
  | O => (l, i)
  | S fuel' =>
      if (n <=? 2 * i + 1)%nat then (l, i)
      else
        let j := down_child l i n in
        if negb (less (l !!! j) (l !!! i)) then (l, i)
        else down_loop fuel' (slice_swap l i j) j n
  end.

(** [down(h, i0, n)] returns [i > i0]. *)
Definition down (l : list A) (i0 n : nat) : list A * bool :=
  let '(l', i) := down_loop (length l) l i0 n in (l', (i0 <? i)%nat).

(** [heap.Push(h, x)]: append, then [up] from the last index. *)
Definition heap_Push (l : list A) (x : A) : list A :=
  let l' := l ++ [x] in up (length l') l' (length l' - 1).

(** [heap.Pop(h)]: swap the root with the last element, [down] on the rest, and
    cut the last element off ([scoredHeap.Pop]).  [None] when the slice is empty. *)
Definition heap_Pop (l : list A) : option (A * list A) :=
  match l with
  | [] => None
  | _ =>
      let n := (length l - 1)%nat in
      let l' := (down (slice_swap l 0 n) 0 n).1 in
      Some (l' !!! n, take n l')
  end.

(** [heap.Fix(h, i)]. *)
Definition heap_Fix (l : list A) (i : nat) : list A :=
  let '(l', moved) := down l i (length l) in
  if moved then l' else up (length l') l' i.

(** [scoredHeap.push] with bound [max]. *)
Definition bounded_push (max : Z) (l : list A) (x : A) : list A :=
  if (0 <? max) && (Z.of_nat (length l) <? max) then heap_Push l x
  else if (0 <? max) && less (l !!! 0%nat) x then heap_Fix (<[0%nat := x]> l) 0
  else l.

(** [scoredHeap.sorted]: pop until the slice is empty. *)
Fixpoint pop_all (fuel : nat) (l : list A) : list A :=
  match fuel with
  | O => []
  | S fuel' =>
      match heap_Pop l with
      | None => []
      | Some (x, l') => x :: pop_all fuel' l'
      end
  end.

Definition sorted (l : list A) : list A := pop_all (length l) l.

(** ** Correctness *)
Variable P : A → Prop.
Variable le : relation A.
Context `{!PreOrder le}.
Hypothesis less_le : ∀ x y, P x → P y → less x y = true → le x y.
Hypothesis not_less_le : ∀ x y, P x → P y → less x y = false → le y x.

Definition parent (j : nat) : nat := ((j - 1) / 2)%nat.

(** The first [n] elements are in heap order, except below the indices in [ex]. *)
Definition heap_upto (n : nat) (l : list A) : Prop :=
  ∀ j, (0 < j < n)%nat → le (l !!! parent j) (l !!! j).

(** Heap order broken only between [j] and its parent. *)
Definition heap_up_at (n : nat) (l : list A) (j : nat) : Prop :=
  (∀ k, (0 < k < n)%nat → k ≠ j → le (l !!! parent k) (l !!! k)) ∧
  (∀ k, (0 < k < n)%nat → parent k = j → (0 < j)%nat → le (l !!! parent j) (l !!! k)).

(** Heap order broken only between [i] and its children. *)
Definition heap_down_at (n : nat) (l : list A) (i : nat) : Prop :=
  (∀ k, (0 < k < n)%nat → parent k ≠ i → le (l !!! parent k) (l !!! k)) ∧
  (∀ k, (0 < k < n)%nat → parent k = i → (0 < i)%nat → le (l !!! parent i) (l !!! k)).

Lemma parent_lt j : (0 < j)%nat → (parent j < j)%nat.
Proof. intros. unfold parent. apply Nat.Div0.div_lt_upper_bound; lia. Qed.

Lemma parent_children k i : (0 < k)%nat → parent k = i ↔ k = (2 * i + 1)%nat ∨ k = (2 * i + 2)%nat.
Proof.
  intros Hk. unfold parent. split.
  - intros <-. pose proof (Nat.div_mod_eq (k - 1) 2).
    pose proof (Nat.mod_upper_bound (k - 1) 2). lia.
  - intros [->| ->].
    + replace (2 * i + 1 - 1)%nat with (i * 2)%nat by lia. apply Nat.div_mul; lia.
    + replace (2 * i + 2 - 1)%nat with (1 + i * 2)%nat by lia.
      rewrite Nat.div_add by lia. done.
Qed.

Lemma Forall_total l i : Forall P l → (i < length l)%nat → P (l !!! i).
Proof.
  intros HP Hi. eapply Forall_lookup_1; [done|]. by apply list_lookup_lookup_total_lt.
Qed.

Lemma up_perm fuel l j : (j < length l)%nat → up fuel l j ≡ₚ l.
Proof.
  revert l j. induction fuel as [|fuel IH]; intros l j Hj; cbn [up]; [done|].
  fold (parent j). case_match; [done|]. bool_to_prop.
  assert (parent j < length l)%nat.
  { apply Nat.le_lt_trans with j; [|done]. apply Nat.Div0.div_le_upper_bound; lia. }
  rewrite IH by (rewrite length_slice_swap; lia). by apply slice_swap_perm.
Qed.

(** [up] restores heap order when only the link above [j] is broken. *)
Lemma up_heap fuel l j :
  Forall P l → (j < length l)%nat → (j < fuel)%nat →
  heap_up_at (length l) l j → heap_upto (length l) (up fuel l j).
Proof.
  revert l j. induction fuel as [|fuel IH]; intros l j HP Hj Hf [H1 H2]; cbn [up]; [lia|].
  destruct (decide (j = 0%nat)) as [->|Hj0].
  { simpl. intros k Hk. apply H1; lia. }
  pose proof (parent_lt j ltac:(lia)) as Hlt.
  fold (parent j). destruct (Nat.eqb_spec (parent j) j); [lia|]. simpl.
  destruct (less (l !!! j) (l !!! parent j)) eqn:Hless; simpl.
  - apply less_le in Hless; [|apply Forall_total; [done|lia]..].
    rewrite <- (length_slice_swap l (parent j) j). apply IH;
      [by rewrite slice_swap_perm by lia|rewrite length_slice_swap; lia|lia|].
    rewrite length_slice_swap. split.
    + intros k Hk Hne. rewrite !lookup_slice_swap by lia.
      destruct (decide (k = parent j)); [done|].
      destruct (decide (parent k = parent j)) as [Hpk|Hpk].
      * destruct (decide (k = j)) as [->|]; [done|].
        transitivity (l !!! parent j); [done|]. rewrite <- Hpk. apply H1; lia.
      * destruct (decide (parent k = j)) as [Hpj|Hpj].
        -- destruct (decide (k = j)) as [->|]; [lia|]. apply H2; lia.
        -- destruct (decide (k = j)) as [->|]; [congruence|]. apply H1; lia.
    + intros k Hk Hpk Hpos. rewrite !lookup_slice_swap by lia.
      pose proof (parent_lt (parent j) ltac:(lia)).
      rewrite (decide_False (P := parent (parent j) = parent j)) by lia.
      rewrite (decide_False (P := parent (parent j) = j)) by lia.
      assert (Hgp : le (l !!! parent (parent j)) (l !!! parent j)) by (apply H1; lia).
      destruct (decide (k = parent j)) as [->|]; [lia|].
      destruct (decide (k = j)) as [->|]; [done|].
      transitivity (l !!! parent j); [done|]. rewrite <- Hpk. apply H1; lia.
  - apply not_less_le in Hless; [|apply Forall_total; [done|lia]..].
    intros k Hk. destruct (decide (k = j)) as [->|]; [done|]. apply H1; lia.
Qed.

Lemma down_child_range l i n :
  (2 * i + 1 < n)%nat → (down_child l i n < n)%nat ∧ (i < down_child l i n)%nat.
Proof. intros Hi. unfold down_child. case_match; bool_to_prop; lia. Qed.

Lemma down_child_parent l i n : parent (down_child l i n) = i.
Proof.
  unfold down_child. case_match; apply parent_children; lia.
Qed.

Lemma down_loop_perm fuel l i n :
  (n ≤ length l)%nat → (i < length l)%nat → (down_loop fuel l i n).1 ≡ₚ l.
Proof.
  revert l i. induction fuel as [|fuel IH]; intros l i Hn Hi; cbn [down_loop]; [done|].
  destruct (n <=? _)%nat eqn:E1; [done|].
  bool_to_prop. pose proof (down_child_range l i n ltac:(lia)) as [Hj Hij].
  case_match; [done|].
  rewrite IH by (rewrite ?length_slice_swap; lia). apply slice_swap_perm; lia.
Qed.

Lemma down_loop_tail fuel l i n k :
  (n ≤ length l)%nat → (i < n)%nat → (n ≤ k)%nat → (down_loop fuel l i n).1 !!! k = l !!! k.
Proof.
  revert l i. induction fuel as [|fuel IH]; intros l i Hn Hi Hk; cbn [down_loop]; [done|].
  destruct (n <=? _)%nat eqn:E1; [done|].
  bool_to_prop. pose proof (down_child_range l i n ltac:(lia)) as [Hj Hij].
  case_match; [done|].
  rewrite IH by (rewrite ?length_slice_swap; lia).
  rewrite lookup_slice_swap by lia. rewrite !decide_False by lia. done.
Qed.
(** The chosen child is the smaller one. *)
Lemma down_child_min l i n k :
  Forall P l → (n ≤ length l)%nat → (2 * i + 1 < n)%nat →
  (0 < k < n)%nat → parent k = i → le (l !!! down_child l i n) (l !!! k).
Proof.
  intros HP Hn Hi Hk Hpk. unfold down_child.
  apply parent_children in Hpk; [|lia].
  assert (P (l !!! (2 * i + 1)%nat)) by (apply Forall_total; [done|lia]).
  destruct (2 * i + 1 + 1 <? n)%nat eqn:E; simpl; bool_to_prop.
  - assert (P (l !!! (2 * i + 1 + 1)%nat)) by (apply Forall_total; [done|lia]).
    replace (2 * i + 2)%nat with (2 * i + 1 + 1)%nat in Hpk by lia.
    destruct (less _ _) eqn:El; destruct Hpk as [->| ->]; auto; reflexivity.
  - destruct Hpk as [->| ->]; [reflexivity|lia].
Qed.

(** [down] restores heap order on the first [n] elements when only the links
    below [i] are broken. *)
Lemma down_loop_heap fuel l i n :
  Forall P l → (n ≤ length l)%nat → (n ≤ i + fuel)%nat →
  heap_down_at n l i → heap_upto n (down_loop fuel l i n).1.
Proof.
  revert l i. induction fuel as [|fuel IH]; intros l i HP Hn Hf [H1 H2]; cbn [down_loop].
  { simpl. intros k Hk. apply H1; [lia|]. pose proof (parent_lt k). lia. }
  destruct (n <=? _)%nat eqn:E1; bool_to_prop; simpl.
  { intros k Hk. apply H1; [lia|]. rewrite parent_children; lia. }
  pose proof (down_child_range l i n ltac:(lia)) as [Hj Hij].
  pose proof (down_child_parent l i n) as Hpj.
  pose proof (λ k, down_child_min l i n k HP Hn ltac:(lia)) as Hmin.
  set (j := down_child l i n) in *.
  destruct (less (l !!! j) (l !!! i)) eqn:Hless; simpl.
  - apply less_le in Hless; [|apply Forall_total; [done|lia]..].
    apply IH; [by rewrite slice_swap_perm by lia|rewrite length_slice_swap; lia|lia|].
    split.
    + intros k Hk Hne. rewrite !lookup_slice_swap by lia.
      destruct (decide (parent k = i)) as [Hpi|Hpi].
      * destruct (decide (k = i)) as [->|]; [pose proof (parent_lt i); lia|].
        destruct (decide (k = j)) as [->|]; [done|]. apply Hmin; [lia|done].
      * destruct (decide (parent k = j)); [done|].
        destruct (decide (k = i)) as [->|].
        { apply H2; lia. }
        destruct (decide (k = j)) as [->|]; [done|]. apply H1; [lia|done].
    + intros k Hk Hpk Hj0. rewrite !lookup_slice_swap by lia. rewrite Hpj.
      rewrite (decide_True (P := i = i)) by done.
      pose proof (parent_lt k ltac:(lia)).
      rewrite (decide_False (P := k = i)), (decide_False (P := k = j)) by lia.
      rewrite <- Hpk. apply H1; lia.
  - apply not_less_le in Hless; [|apply Forall_total; [done|lia]..].
    intros k Hk. destruct (decide (parent k = i)) as [Hpi|Hpi].
    + rewrite Hpi. transitivity (l !!! j); [done|]. by apply Hmin.
    + by apply H1.
Qed.

Lemma heap_upto_root n l k : heap_upto n l → (k < n)%nat → le (l !!! 0%nat) (l !!! k).
Proof.
  intros Hh. induction (lt_wf k) as [k _ IH]. intros Hk.
  destruct (decide (k = 0%nat)) as [->|]; [reflexivity|].
  pose proof (parent_lt k ltac:(lia)).
  transitivity (l !!! parent k); [apply IH; lia|]. apply Hh; lia.
Qed.

Lemma heap_root_min l x : heap_upto (length l) l → x ∈ l → le (l !!! 0%nat) x.
Proof.
  intros Hh [k Hk]%list_elem_of_lookup.
  pose proof (lookup_lt_Some _ _ _ Hk).
  rewrite <- (list_lookup_total_correct _ _ _ Hk). by apply heap_upto_root with (length l).
Qed.

(** ** The operations *)
Lemma heap_Push_perm l x : heap_Push l x ≡ₚ x :: l.
Proof.
  unfold heap_Push. rewrite up_perm by (rewrite length_app; simpl; lia).
  by rewrite Permutation_app_comm.
Qed.

Lemma heap_Push_heap l x :
  Forall P (x :: l) → heap_upto (length l) l →
  heap_upto (S (length l)) (heap_Push l x).
Proof.
  intros [Hx HP]%Forall_cons Hh. unfold heap_Push.
  assert (Hlen : length (l ++ [x]) = S (length l)) by (rewrite length_app; simpl; lia).
  rewrite <- Hlen at 1. apply up_heap; [|lia..|].
  { apply Forall_app; split; [done|]. by apply Forall_singleton. }
  rewrite Hlen. split.
  - intros k Hk Hne. rewrite !lookup_total_app_l; [apply Hh; lia| |].
    + lia.
    + pose proof (parent_lt k). lia.
  - intros k Hk Hpk Hpos. apply parent_children in Hpk; lia.
Qed.

Lemma heap_Pop_spec l :
  Forall P l → heap_upto (length l) l → l ≠ [] →
  ∃ x l', heap_Pop l = Some (x, l') ∧ x :: l' ≡ₚ l ∧ heap_upto (length l') l' ∧
          S (length l') = length l ∧ ∀ y, y ∈ l' → le x y.
Proof.
  intros HP Hh Hne. unfold heap_Pop.
  destruct l as [|a l0] eqn:El; [done|]. rewrite <- El in *. clear Hne.
  assert (Hpos : (0 < length l)%nat) by (subst; simpl; lia).
  set (n := (length l - 1)%nat). set (s := slice_swap l 0 n).
  assert (Hs : length s = length l) by apply length_slice_swap.
  unfold down. rewrite Hs. destruct (down_loop (length l) s 0 n) as [l' i'] eqn:Ed. simpl.
  assert (El' : l' = (down_loop (length l) s 0 n).1) by by rewrite Ed.
  assert (Hperm : l' ≡ₚ l).
  { rewrite El'. rewrite down_loop_perm by lia. subst s. apply slice_swap_perm; lia. }
  assert (Hl' : length l' = length l) by by rewrite Hperm.
  assert (Hheap : heap_upto n l').
  { rewrite El'. apply down_loop_heap; [by subst s; rewrite slice_swap_perm by lia|lia|lia|].
    split; intros k Hk Hpk; [|lia].
    subst s. pose proof (parent_lt k ltac:(lia)).
    rewrite !lookup_slice_swap by lia. rewrite !decide_False by lia. apply Hh; lia. }
  assert (Hlast : l' !!! n = l !!! 0%nat).
  { destruct (decide (n = 0%nat)) as [Hn|Hn].
    - rewrite El', Hn. destruct (length l); [lia|]. cbn [down_loop].
      replace (0 <=? 2 * 0 + 1)%nat with true by done. simpl. subst s.
      rewrite Hn. by rewrite slice_swap_same.
    - rewrite El', down_loop_tail by lia. subst s.
      rewrite lookup_slice_swap by lia. rewrite decide_False, decide_True by lia. done. }
  assert (Hsplit : l' = take n l' ++ [l' !!! n]).
  { rewrite <- (take_drop n l') at 1. f_equal.
    rewrite (drop_S l' (l' !!! n) n) by (apply list_lookup_lookup_total_lt; lia).
    rewrite drop_ge by lia. done. }
  exists (l' !!! n), (take n l'). split_and!.
  - done.
  - rewrite <- Hperm. rewrite Hsplit at 3. apply Permutation_cons_append.
  - rewrite length_take, Nat.min_l by lia. intros k Hk. pose proof (parent_lt k ltac:(lia)).
    rewrite !lookup_total_take, !decide_True by lia. apply Hheap; lia.
  - rewrite length_take. lia.
  - intros y Hy. rewrite Hlast. apply heap_root_min; [done|].
    rewrite <- Hperm. eapply elem_of_take in Hy as (k & Hk & _). by eapply list_elem_of_lookup_2.
Qed.

(** Replacing the root by a larger element and fixing the heap. *)
Lemma heap_Fix_root l x :
  Forall P (x :: l) → heap_upto (length l) l → (0 < length l)%nat → le (l !!! 0%nat) x →
  heap_upto (length l) (heap_Fix (<[0%nat := x]> l) 0) ∧
  heap_Fix (<[0%nat := x]> l) 0 ≡ₚ <[0%nat := x]> l.
Proof.
  intros [Hx HP]%Forall_cons Hh Hpos Hle. unfold heap_Fix, down. rewrite !length_insert.
  set (s := <[0%nat := x]> l).
  assert (Hs : length s = length l) by apply length_insert.
  assert (HPs : Forall P s) by (apply Forall_insert; done).
  pose proof (down_loop_perm (length l) s 0 (length l) ltac:(lia) ltac:(lia)) as Hperm.
  assert (Hheap : heap_upto (length l) (down_loop (length l) s 0 (length l)).1).
  { apply down_loop_heap; [done|lia|lia|]. split; intros k Hk Hpk; [|lia].
    pose proof (parent_lt k ltac:(lia)). subst s.
    rewrite !list_lookup_total_insert_ne by lia. apply Hh; lia. }
  destruct (down_loop (length l) s 0 (length l)) as [l' i']. simpl in *.
  case_match; simpl in *; [done|].
  assert (Hl' : length l' = length l) by (by rewrite Hperm).
  split.
  - rewrite <- Hl'. rewrite <- Hl' in Hheap. apply up_heap; [by rewrite Hperm|lia|lia|].
    split; [intros k Hk _; by apply Hheap|lia].
  - rewrite up_perm by lia. done.
Qed.

(** ** [sorted] returns the heap in increasing order *)
Lemma pop_all_sorted fuel l :
  Forall P l → heap_upto (length l) l → (length l ≤ fuel)%nat →
  pop_all fuel l ≡ₚ l ∧ StronglySorted le (pop_all fuel l).
Proof.
  revert l. induction fuel as [|fuel IH]; intros l HP Hh Hf.
  { destruct l; simpl in *; [|lia]. split; [done|constructor]. }
  destruct (decide (l = [])) as [->|Hne]; [split; [done|constructor]|].
  destruct (heap_Pop_spec l HP Hh Hne) as (x & l' & Hpop & Hperm & Hh' & Hlen & Hmin).
  cbn [pop_all]. rewrite Hpop.
  assert (HP' : Forall P l') by (rewrite <- Hperm in HP; by apply Forall_cons_1 in HP as [_ ?]).
  destruct (IH l' HP' Hh') as [Hp Hs]; [lia|]. split.
  - by rewrite Hp.
  - constructor; [done|]. apply Forall_forall. intros y Hy. apply Hmin. by rewrite <- Hp.
Qed.

Lemma sorted_spec l :
  Forall P l → heap_upto (length l) l →
  sorted l ≡ₚ l ∧ StronglySorted le (sorted l).
Proof. intros. by apply pop_all_sorted. Qed.

(** ** The bounded heap holds the largest [max] elements pushed *)

(** [h] is a top-[max] selection of [l]: a heap, as long as allowed, and what was
    left out is not larger than anything kept. *)
Definition topk (max : Z) (h l : list A) : Prop :=
  heap_upto (length h) h ∧ Z.of_nat (length h) = Z.min max (Z.of_nat (length l)) ∧
  ∃ out, h ++ out ≡ₚ l ∧ ∀ x y, x ∈ h → y ∈ out → le y x.

Lemma topk_Forall max h l : topk max h l → Forall P l → Forall P h.
Proof.
  intros (_ & _ & out & Hperm & _) HP. rewrite <- Hperm in HP. by apply Forall_app in HP as [? _].
Qed.

Lemma bounded_push_topk max h l x :
  0 < max → Forall P (x :: l) → topk max h l → topk max (bounded_push max h x) (x :: l).
Proof.
  intros Hmax HPx Htk. pose proof HPx as [Hx HP]%Forall_cons.
  pose proof (topk_Forall _ _ _ Htk HP) as HPh.
  destruct Htk as (Hh & Hlen & out & Hperm & Hout).
  unfold bounded_push. destruct (0 <? max) eqn:E; bool_to_prop; [simpl|lia].
  destruct (Z.of_nat (length h) <? max) eqn:El; bool_to_prop.
  - assert (Hl : length h = length l) by (simpl in *; lia).
    assert (out = []) as ->.
    { apply length_zero_iff_nil. apply Permutation_length in Hperm.
      rewrite length_app in Hperm. lia. }
    rewrite app_nil_r in Hperm.
    assert (Hp : length (heap_Push h x) = S (length h)) by by rewrite heap_Push_perm.
    split_and!.
    + rewrite Hp. apply heap_Push_heap; [by constructor|done].
    + rewrite Hp. simpl. lia.
    + exists []. rewrite app_nil_r, heap_Push_perm, Hperm. split; [done|]. set_solver.
  - assert (0 < length h)%nat by lia.
    destruct h as [|r h0] eqn:Eh; [simpl in *; lia|]. simpl (_ !!! 0%nat).
    assert (Hr : P r) by (by apply Forall_cons_1 in HPh as [? _]).
    destruct (less r x) eqn:Hless.
    + apply less_le in Hless; [|done..].
      destruct (heap_Fix_root (r :: h0) x) as [Hheap Hp]; [by constructor|done|simpl; lia|done|].
      simpl (<[_:=_]> _) in *.
      assert (Hpl : length (heap_Fix (x :: h0) 0) = length (r :: h0)) by by rewrite Hp.
      split_and!.
      * by rewrite Hpl.
      * rewrite Hpl. simpl in *. lia.
      * exists (r :: out). split.
        -- rewrite Hp. simpl. rewrite <- Hperm. simpl. constructor.
           by rewrite Permutation_middle.
        -- intros a b Ha Hb. rewrite Hp in Ha.
           assert (Hra : le r a).
           { apply elem_of_cons in Ha as [->|Ha]; [done|].
             apply (heap_root_min (r :: h0)); [done|set_solver]. }
           apply elem_of_cons in Hb as [->|Hb]; [done|].
           transitivity r; [|done]. apply Hout; [set_solver|done].
    + apply not_less_le in Hless; [|done..]. split_and!.
      * done.
      * simpl in *. lia.
      * exists (x :: out). split.
        -- rewrite <- Permutation_middle. by rewrite Hperm.
        -- intros a b Ha [->|Hb]%elem_of_cons; [|by apply Hout].
           transitivity r; [done|]. by apply (heap_root_min (r :: h0)).
Qed.

Lemma topk_perm max h l l' : l ≡ₚ l' → topk max h l → topk max h l'.
Proof.
  intros Hl (Hh & Hlen & out & Hperm & Hout). split_and!; [done|by rewrite <- Hl|].
  exists out. by rewrite <- Hl.
Qed.

(** Pushing every element of [l] into an empty bounded heap. *)
Lemma bounded_push_all max l :
  0 < max → Forall P l → topk max (foldl (bounded_push max) [] l) l.
Proof.
  intros Hmax. induction l as [|x l IH] using rev_ind; intros HP.
  { split_and!; [intros j; simpl; lia|simpl; lia|]. exists []. split; [done|set_solver]. }
  rewrite foldl_app. simpl. apply Forall_app in HP as [HPl HPx].
  eapply topk_perm; [apply Permutation_cons_append|].
  apply bounded_push_topk; [done|constructor; [by inversion HPx|done]|by apply IH].
Qed.
End heap.
