(* ===== verification/GoFloat.v ===== *)
(** * Go's [float64]

    Scores, weights and rates of the program are IEEE-754 binary64 numbers.  The
    model uses the executable specification of the format in the standard
    library's [SpecFloat] (precision 53, maximal exponent 1024): every operation
    rounds to nearest even, infinities and NaN are values, and comparison with
    NaN is false.  Products and sums are rounded separately (no fused
    multiply-add), as the Go compiler does on amd64. *)

From S2P Require Import Prelude.
From Stdlib Require Import SpecFloat.

Abbreviation float64 := spec_float.

Definition fprec : Z := 53.
Definition femax : Z := 1024.

Definition fadd (x y : float64) : float64 := SFadd fprec femax x y.
Definition fsub (x y : float64) : float64 := SFsub fprec femax x y.
Definition fmul (x y : float64) : float64 := SFmul fprec femax x y.
Definition fdiv (x y : float64) : float64 := SFdiv fprec femax x y.
Definition fltb (x y : float64) : bool := SFltb x y.
Definition fleb (x y : float64) : bool := SFleb x y.

(** [float64(z)] for an integer [z]. *)
Definition float_of_Z (z : Z) : float64 := binary_normalize fprec femax z 0 false.

(** The constant [n/d] rounded to the nearest [float64], as Go converts an
    untyped constant. *)
Definition float_const (n d : Z) : float64 := fdiv (float_of_Z n) (float_of_Z d).

Definition fzero : float64 := S754_zero false.

Definition is_nan (x : float64) : bool :=
  match x with S754_nan => true | _ => false end.

(** Truncation of a finite float toward zero. *)
Definition ftrunc (x : float64) : option Z :=
  match x with
  | S754_zero _ => Some 0
  | S754_finite s m e =>
      let a := Z.shiftl (Z.pos m) e in Some (if s then - a else a)
  | _ => None
  end.

(** [int64(x)]: truncation; a value out of range gives the amd64 result. *)
Definition int_of_float (x : float64) : Z :=
  match ftrunc x with
  | Some z => if (- 2 ^ 63 <=? z) && (z <? 2 ^ 63) then z else - 2 ^ 63
  | None => - 2 ^ 63
  end.

(** ** The order of the floats that are not NaN *)

Definition float_key (x : float64) : Z * Z * Z :=
  match x with
  | S754_nan => (-3, 0, 0)
  | S754_infinity true => (-2, 0, 0)
  | S754_finite true m e => (-1, - e, - Z.pos m)
  | S754_zero _ => (0, 0, 0)
  | S754_finite false m e => (1, e, Z.pos m)
  | S754_infinity false => (2, 0, 0)
  end.

Definition key_le (a b : Z * Z * Z) : Prop :=
  let '(a1, a2, a3) := a in let '(b1, b2, b3) := b in
  a1 < b1 ∨ (a1 = b1 ∧ (a2 < b2 ∨ (a2 = b2 ∧ a3 ≤ b3))).

(** The total preorder on floats; the two zeros are equivalent. *)
Definition fle (x y : float64) : Prop := key_le (float_key x) (float_key y).

#[export] Instance fle_preorder : PreOrder fle.
Proof.
  split.
  - intros x. unfold fle, key_le. destruct (float_key x) as [[] ?]. lia.
  - intros x y z. unfold fle, key_le.
    destruct (float_key x) as [[] ?], (float_key y) as [[] ?], (float_key z) as [[] ?]. lia.
Qed.

#[export] Instance fle_dec x y : Decision (fle x y).
Proof.
  unfold fle, key_le. destruct (float_key x) as [[] ?], (float_key y) as [[] ?]. apply _.
Defined.

(** The comparison operator [<] decides the order away from NaN. *)
Lemma fltb_spec x y :
  is_nan x = false → is_nan y = false → fltb x y = true ↔ ¬ fle y x.
Proof.
  intros Hx Hy. unfold fltb, SFltb, fle, key_le.
  destruct x as [s|s| |s m e], y as [s'|s'| |s' m' e']; try discriminate;
    try (destruct s); try (destruct s'); simpl; try (split; [discriminate||lia|]; lia || done).
  - destruct (Z.compare_spec e e') as [->|He|He]; simpl.
    + fold (Pos.compare m m'). destruct (Pos.compare_spec m m') as [->|Hm|Hm]; simpl; split; try done; lia.
    + split; [discriminate|lia].
    + split; [lia|done].
  - destruct (Z.compare_spec e e') as [->|He|He]; simpl.
    + fold (Pos.compare m m'). destruct (Pos.compare_spec m m') as [->|Hm|Hm]; simpl; split; try done; lia.
    + split; [lia|done].
    + split; [discriminate|lia].
Qed.

Lemma fltb_le x y : is_nan x = false → is_nan y = false → fltb x y = true → fle x y.
Proof.
  intros Hx Hy H%fltb_spec; [|done..]. unfold fle, key_le in *.
  destruct (float_key x) as [[] ?], (float_key y) as [[] ?]. lia.
Qed.

Lemma fltb_ge x y : is_nan x = false → is_nan y = false → fltb x y = false → fle y x.
Proof.
  intros Hx Hy H. destruct (decide (fle y x)); [done|].
  rewrite <- fltb_spec in n by done. congruence.
Qed.

Lemma fltb_irrefl x : fltb x x = false.
Proof.
  destruct (is_nan x) eqn:E; [by destruct x|].
  destruct (fltb x x) eqn:E'; [|done]. apply fltb_spec in E'; [|done..].
  exfalso. apply E'. reflexivity.
Qed.

Lemma fltb_nan_l x : fltb S754_nan x = false.
Proof. by destruct x. Qed.
Lemma fltb_nan_r x : fltb x S754_nan = false.
Proof. by destruct x. Qed.

Lemma fle_total x y : fle x y ∨ fle y x.
Proof.
  unfold fle, key_le. destruct (float_key x) as [[] ?], (float_key y) as [[] ?]. lia.
Qed.
