(* ===== verification/GoStrings.v ===== *)
(** * The parts of Go's [strings], [strconv] and [fmt] the program uses

    A Go string is a sequence of bytes; it is a [string] of the model, and the
    functions below work on its list of characters.  [TrimSpace] removes the
    UTF-8 encodings of the Unicode white-space characters, as Go does; the search
    functions compare bytes. *)

From S2P Require Import Prelude.
From Stdlib Require Import Ascii.

Abbreviation chars := (list ascii).

Definition to_chars (s : string) : chars := String.list_ascii_of_string s.
Definition of_chars (l : chars) : string := String.string_of_list_ascii l.

(** ** Prefixes, suffixes, search *)
Fixpoint has_prefix (p l : chars) : bool :=
  match p, l with
  | [], _ => true
  | x :: p', y :: l' => bool_decide (x = y) && has_prefix p' l'
  | _ :: _, [] => false
  end.

Definition has_suffix (p l : chars) : bool := has_prefix (rev p) (rev l).

(** [strings.TrimPrefix] and [strings.TrimSuffix]. *)
Definition trim_prefix (p l : chars) : chars :=
  if has_prefix p l then drop (length p) l else l.
Definition trim_suffix (p l : chars) : chars :=
  if has_suffix p l then take (length l - length p) l else l.

(** [strings.LastIndex] with a non-empty pattern; [None] is [-1]. *)
Fixpoint last_index (p l : chars) : option nat :=
  match l with
  | [] => None
  | _ :: l' =>
      match last_index p l' with
      | Some i => Some (S i)
      | None => if has_prefix p l then Some 0%nat else None
      end
  end.

(** [strings.IndexByte]; [None] is [-1]. *)
Fixpoint index_byte (c : ascii) (l : chars) : option nat :=
  match l with
  | [] => None
  | x :: l' => if bool_decide (x = c) then Some 0%nat else S <$> index_byte c l'
  end.

(** [strings.Contains]. *)
Fixpoint contains (p l : chars) : bool :=
  has_prefix p l || match l with [] => false | _ :: l' => contains p l' end.

(** [strings.ReplaceAll] of one character by another. *)
Definition replace_char (a b : ascii) (l : chars) : chars :=
  (λ c, if bool_decide (c = a) then b else c) <$> l.

(** [strings.Split] and [strings.Join] with a one-character separator. *)
Fixpoint split_on (c : ascii) (l : chars) : list chars :=
  match l with
  | [] => [[]]
  | x :: l' =>
      if bool_decide (x = c) then [] :: split_on c l'
      else match split_on c l' with
           | p :: ps => (x :: p) :: ps
           | [] => [[x]]
           end
  end.

Fixpoint join_with (c : ascii) (ps : list chars) : chars :=
  match ps with
  | [] => []
  | [p] => p
  | p :: ps' => p ++ c :: join_with c ps'
  end.

(** ** [strings.TrimSpace] *)

(** The UTF-8 encodings of the runes [unicode.IsSpace] accepts: tab, newline,
    vertical tab, form feed, carriage return, space, U+0085, U+00A0, U+1680,
    U+2000 to U+200A, U+2028, U+2029, U+202F, U+205F and U+3000. *)
Definition space_encodings : list chars :=
  (map (map ascii_of_nat)
   [[9]; [10]; [11]; [12]; [13]; [32]; [194; 133]; [194; 160]; [225; 154; 128];
    [226; 128; 128]; [226; 128; 129]; [226; 128; 130]; [226; 128; 131];
    [226; 128; 132]; [226; 128; 133]; [226; 128; 134]; [226; 128; 135];
    [226; 128; 136]; [226; 128; 137]; [226; 128; 138]; [226; 128; 168];
    [226; 128; 169]; [226; 128; 175]; [226; 129; 159]; [227; 128; 128]])%nat.

(** One encoding of [encs] is a prefix: its length. *)
Fixpoint match_any (encs : list chars) (l : chars) : option nat :=
  match encs with
  | [] => None
  | e :: encs' => if has_prefix e l then Some (length e) else match_any encs' l
  end.

Fixpoint trim_left_with (encs : list chars) (fuel : nat) (l : chars) : chars :=
  match fuel with
  | O => l
  | S fuel' =>
      match match_any encs l with
      | Some n => trim_left_with encs fuel' (drop n l)
      | None => l
      end
  end.

Definition trim_left (l : chars) : chars := trim_left_with space_encodings (length l) l.
Definition trim_right (l : chars) : chars :=
  rev (trim_left_with (map (@rev ascii) space_encodings) (length l) (rev l)).
Definition trim_space (l : chars) : chars := trim_right (trim_left l).

(** ** Integers in text *)
Definition digit_char (d : Z) : ascii :=
  ascii_of_nat (Z.to_nat (if d <? 10 then 48 + d else 87 + d)).

(** Decimal digit value of a character. *)
Definition digit_val (c : ascii) : option Z :=
  let n := Z.of_nat (nat_of_ascii c) in
  if (48 <=? n) && (n <=? 57) then Some (n - 48) else None.

Fixpoint format_loop (base : Z) (fuel : nat) (n : Z) (acc : chars) : chars :=
  match fuel with
  | O => acc
  | S fuel' =>
      let acc' := digit_char (n mod base) :: acc in
      if n <? base then acc' else format_loop base fuel' (n / base) acc'
  end.

(** The digits of a non-negative integer; the fuel exceeds its bit length. *)
Definition format_uint (base : Z) (n : Z) : chars :=
  format_loop base (S (Z.to_nat (Z.log2 n))) n [].

(** [strconv.FormatInt(z, base)], which [strconv.Itoa] and the verbs [%d] and
    [%x] agree with. *)
Definition format_int (base : Z) (z : Z) : chars :=
  if z <? 0 then ascii_of_nat 45 :: format_uint base (- z) else format_uint base z.

(** The verb [%0<width>d]: the sign counts toward the width. *)
Definition format_int_pad (width : nat) (z : Z) : chars :=
  let pad w ds := replicate (w - length ds) (ascii_of_nat 48) ++ ds in
  if z <? 0 then ascii_of_nat 45 :: pad (width - 1)%nat (format_uint 10 (- z))
  else pad width (format_uint 10 z).

Fixpoint parse_digits (acc : Z) (l : chars) : option Z :=
  match l with
  | [] => Some acc
  | c :: l' => match digit_val c with
               | Some d => parse_digits (acc * 10 + d) l'
               | None => None
               end
  end.

(** [strconv.ParseInt(s, 10, 64)]; [None] stands for a syntax or range error. *)
Definition parse_int (l : chars) : option Z :=
  let body neg ds :=
    match ds with
    | [] => None
    | _ => match parse_digits 0 ds with
           | Some n =>
               let z := if neg : bool then - n else n in
               if bool_decide (- 2 ^ 63 ≤ z < 2 ^ 63) then Some z else None
           | None => None
           end
    end in
  match l with
  | [] => None
  | c :: l' =>
      if bool_decide (c = ascii_of_nat 45) then body true l'
      else if bool_decide (c = ascii_of_nat 43) then body false l'
      else body false l
  end.

(** ** Lemmas *)
Lemma of_to_chars s : of_chars (to_chars s) = s.
Proof. apply String.string_of_list_ascii_of_string. Qed.
Lemma to_chars_app a b : to_chars (String.append a b) = to_chars a ++ to_chars b.
Proof. unfold to_chars. induction a as [|c a IH]; [done|]. exact (f_equal (cons c) IH). Qed.
Lemma to_of_chars l : to_chars (of_chars l) = l.
Proof. apply String.list_ascii_of_string_of_list_ascii. Qed.

Lemma has_prefix_spec p l : has_prefix p l = true ↔ p `prefix_of` l.
Proof.
  revert l. induction p as [|x p IH]; intros l; simpl.
  { split; [intros _; apply prefix_nil|done]. }
  destruct l as [|y l].
  { split; [done|]. intros H. by apply prefix_nil_not in H. }
  rewrite andb_true_iff, bool_decide_eq_true, IH. split.
  - intros [-> ?]. by apply prefix_cons.
  - intros Hp. split; [by eapply prefix_cons_inv_1|by eapply prefix_cons_inv_2].
Qed.

Lemma has_prefix_app p l : has_prefix p (p ++ l) = true.
Proof. apply has_prefix_spec. by exists l. Qed.

Lemma trim_prefix_app p l : trim_prefix p (p ++ l) = l.
Proof. unfold trim_prefix. by rewrite has_prefix_app, drop_app_length. Qed.

Lemma last_index_none p c l : c ∉ l → last_index (c :: p) l = None.
Proof.
  induction l as [|x l IH]; intros Hc; simpl; [done|].
  rewrite IH by set_solver. rewrite bool_decide_eq_false_2 by set_solver. done.
Qed.

(** The pattern occurs last where its first character occurs last. *)
Lemma last_index_app p c a b :
  c ∉ p ++ b → last_index (c :: p) (a ++ c :: p ++ b) = Some (length a).
Proof.
  intros Hc. induction a as [|x a IH].
  - simpl. rewrite last_index_none by done.
    rewrite bool_decide_eq_true_2 by done. by rewrite has_prefix_app.
  - cbn [app last_index length]. by rewrite IH.
Qed.

Lemma split_on_nonempty c l : split_on c l ≠ [].
Proof. destruct l as [|x l]; simpl; [done|]. repeat case_match; done. Qed.

Lemma join_split c l : join_with c (split_on c l) = l.
Proof.
  induction l as [|x l IH]; [done|]. cbn [split_on].
  case_bool_decide as Hx.
  - subst x. destruct (split_on c l) eqn:E; [by apply split_on_nonempty in E|].
    simpl. by rewrite <- IH.
  - destruct (split_on c l) as [|p ps] eqn:E; [by apply split_on_nonempty in E|].
    rewrite <- IH. by destruct ps.
Qed.

Lemma split_on_no_sep c l p : p ∈ split_on c l → c ∉ p.
Proof.
  revert p. induction l as [|x l IH]; intros p; simpl.
  { intros ->%list_elem_of_singleton. apply not_elem_of_nil. }
  case_bool_decide as Hx.
  { intros [->|Hp]%elem_of_cons; [apply not_elem_of_nil|by apply IH]. }
  destruct (split_on c l) as [|q qs].
  { intros ->%list_elem_of_singleton. set_solver. }
  pose proof (IH q ltac:(left)). intros [->|Hp]%elem_of_cons; [set_solver|].
  apply IH. by right.
Qed.

Lemma split_on_sublist c l p x : p ∈ split_on c l → x ∈ p → x ∈ l.
Proof.
  revert p. induction l as [|y l IH]; intros p; simpl.
  { by intros ->%list_elem_of_singleton. }
  case_bool_decide as Hy.
  { intros [->|Hp]%elem_of_cons; [by intros ?%not_elem_of_nil|]. intros. right. by eapply IH. }
  destruct (split_on c l) as [|q qs].
  { intros ->%list_elem_of_singleton. set_solver. }
  pose proof (IH q ltac:(left)). intros [->|Hp]%elem_of_cons; [set_solver|].
  intros. right. eapply IH; [by right|done].
Qed.

Lemma split_on_app_no_sep c p l : c ∉ p → split_on c (p ++ c :: l) = p :: split_on c l.
Proof.
  induction p as [|x p IH]; intros Hc; simpl.
  - by rewrite bool_decide_eq_true_2.
  - rewrite bool_decide_eq_false_2 by set_solver. by rewrite IH by set_solver.
Qed.

Lemma split_on_no_occ c p : c ∉ p → split_on c p = [p].
Proof.
  induction p as [|x p IH]; intros Hc; simpl; [done|].
  rewrite bool_decide_eq_false_2 by set_solver. by rewrite IH by set_solver.
Qed.

Lemma split_join c ps : ps ≠ [] → Forall (λ p, c ∉ p) ps → split_on c (join_with c ps) = ps.
Proof.
  induction ps as [|p ps IH]; intros Hne Hps; [done|].
  apply Forall_cons in Hps as [Hp Hps]. destruct ps as [|q ps].
  - simpl. by apply split_on_no_occ.
  - cbn [join_with]. rewrite split_on_app_no_sep by done. f_equal. by apply IH.
Qed.

(** Trimming only removes characters at the ends. *)
Lemma trim_left_with_suffix encs fuel l :
  ∃ k, trim_left_with encs fuel l = drop k l.
Proof.
  revert l. induction fuel as [|fuel IH]; intros l; simpl; [by exists 0%nat|].
  destruct (match_any encs l) as [n|]; [|by exists 0%nat].
  destruct (IH (drop n l)) as [k ->]. exists (n + k)%nat. by rewrite drop_drop.
Qed.

Lemma elem_of_drop_1 {A : Type} (k : nat) (x : A) l : x ∈ drop k l → x ∈ l.
Proof. intros Hx. rewrite <- (take_drop k l). apply elem_of_app. by right. Qed.

Lemma elem_of_rev {A : Type} (x : A) l : x ∈ rev l ↔ x ∈ l.
Proof. by rewrite !list_elem_of_In, <- in_rev. Qed.

Lemma elem_of_trim_space x l : x ∈ trim_space l → x ∈ l.
Proof.
  unfold trim_space, trim_right, trim_left.
  destruct (trim_left_with_suffix space_encodings (length l) l) as [k ->].
  destruct (trim_left_with_suffix (map (@rev ascii) space_encodings)
              (length (drop k l)) (rev (drop k l))) as [k' ->].
  rewrite elem_of_rev. intros Hx%elem_of_drop_1. rewrite elem_of_rev in Hx.
  by eapply elem_of_drop_1.
Qed.

(** Where the characters of a joined text come from. *)
Lemma elem_of_join_with c x ps : x ∈ join_with c ps → x = c ∨ ∃ p, p ∈ ps ∧ x ∈ p.
Proof.
  induction ps as [|p ps IH]; cbn [join_with]; [by intros ?%elem_of_nil|].
  destruct ps as [|p' ps]; [intros; right; exists p; split; [left|done]|].
  rewrite elem_of_app, elem_of_cons. intros [?|[?|Hx]]; [right; exists p; split; [left|done]|by left|].
  destruct (IH Hx) as [?|(p2 & ? & ?)]; [by left|right; exists p2; split; [by right|done]].
Qed.

Lemma fmap_fixed {A : Type} (f : A → A) (l : list A) : (∀ x, x ∈ l → f x = x) → f <$> l = l.
Proof.
  induction l as [|x l IH]; intros Hf; [done|]. cbn [fmap list_fmap]. f_equal; [apply Hf; left|].
  apply IH. intros y Hy. apply Hf. by right.
Qed.

Lemma filter_all {A : Type} (P : A → Prop) `{∀ x, Decision (P x)} (l : list A) : (∀ x, x ∈ l → P x) → filter P l = l.
Proof.
  induction l as [|x l IH]; intros Hp; [done|]. rewrite filter_cons_True by (apply Hp; left).
  f_equal. apply IH. intros y Hy. apply Hp. by right.
Qed.

(** ** Round trip of decimal integers *)
Lemma digit_val_char d : 0 ≤ d < 10 → digit_val (digit_char d) = Some d.
Proof.
  intros Hd. unfold digit_val, digit_char.
  replace (d <? 10) with true by (symmetry; apply Z.ltb_lt; lia).
  rewrite nat_ascii_embedding by lia. rewrite Z2Nat.id by lia.
  replace (48 <=? 48 + d) with true by (symmetry; apply Z.leb_le; lia).
  replace (48 + d <=? 57) with true by (symmetry; apply Z.leb_le; lia).
  simpl. f_equal. lia.
Qed.

Lemma parse_format_loop fuel n acc :
  0 ≤ n < 2 ^ Z.of_nat fuel →
  parse_digits 0 (format_loop 10 fuel n acc) = parse_digits n acc.
Proof.
  revert n acc. induction fuel as [|fuel IH]; intros n acc Hn.
  { simpl in Hn. assert (n = 0) as -> by lia. done. }
  cbn [format_loop]. rewrite Nat2Z.inj_succ, Z.pow_succ_r in Hn by lia.
  pose proof (Z.mod_pos_bound n 10 ltac:(lia)).
  pose proof (Z.div_mod n 10 ltac:(lia)).
  destruct (n <? 10) eqn:E; bool_to_prop.
  - rewrite Z.mod_small by lia. cbn [parse_digits]. by rewrite digit_val_char by lia.
  - rewrite IH by lia. cbn [parse_digits]. rewrite digit_val_char by lia. f_equal. lia.
Qed.

Lemma parse_format_uint n : 0 ≤ n → parse_digits 0 (format_uint 10 n) = Some n.
Proof.
  intros Hn. unfold format_uint. rewrite parse_format_loop; [done|].
  split; [done|]. rewrite Nat2Z.inj_succ.
  rewrite Z2Nat.id by apply Z.log2_nonneg.
  destruct (decide (n = 0)) as [->|]; [done|]. apply Z.log2_spec; lia.
Qed.

Definition is_digit (c : ascii) : Prop := is_Some (digit_val c).

Lemma digit_char_is_digit d : 0 ≤ d < 10 → is_digit (digit_char d).
Proof. intros. unfold is_digit. by rewrite digit_val_char. Qed.

Lemma format_loop_digits fuel n acc :
  0 ≤ n → Forall is_digit acc → Forall is_digit (format_loop 10 fuel n acc).
Proof.
  revert n acc. induction fuel as [|fuel IH]; intros n acc Hn Hacc; [done|].
  cbn [format_loop]. pose proof (Z.mod_pos_bound n 10 ltac:(lia)).
  assert (Forall is_digit (digit_char (n mod 10) :: acc)).
  { constructor; [by apply digit_char_is_digit|done]. }
  case_match; [done|]. apply IH; [|done]. apply Z.div_pos; lia.
Qed.

Lemma format_loop_length base fuel n acc :
  (length acc < length (format_loop base (S fuel) n acc))%nat.
Proof.
  revert n acc. induction fuel as [|fuel IH]; intros n acc; cbn [format_loop].
  - case_match; simpl; lia.
  - case_match; [simpl; lia|].
    eapply Nat.lt_trans; [|apply IH]. simpl. lia.
Qed.

Lemma format_uint_digits n : 0 ≤ n → Forall is_digit (format_uint 10 n).
Proof. intros. by apply format_loop_digits. Qed.
Lemma format_uint_nonempty n : format_uint 10 n ≠ [].
Proof.
  intros E. pose proof (format_loop_length 10 (Z.to_nat (Z.log2 n)) n []) as Hl.
  unfold format_uint in E. rewrite E in Hl. simpl in Hl. lia.
Qed.

Lemma parse_digits_zeros k ds : parse_digits 0 (replicate k (ascii_of_nat 48) ++ ds) = parse_digits 0 ds.
Proof. induction k as [|k IH]; [done|]. cbn. apply IH. Qed.

Lemma parse_int_digits ds z :
  ds ≠ [] → Forall is_digit ds → parse_digits 0 ds = Some z → is_i64 z → parse_int ds = Some z.
Proof.
  intros Hne Hd Hp Hz. destruct ds as [|c ds]; [done|].
  apply Forall_cons in Hd as [[d Hc] _]. unfold parse_int.
  rewrite !bool_decide_eq_false_2 by (intros ->; discriminate Hc).
  rewrite Hp. by rewrite bool_decide_eq_true_2.
Qed.

Lemma parse_int_neg ds n :
  ds ≠ [] → parse_digits 0 ds = Some n → is_i64 (- n) →
  parse_int (ascii_of_nat 45 :: ds) = Some (- n).
Proof.
  intros Hne Hp Hz. destruct ds as [|c ds]; [done|]. unfold parse_int.
  rewrite bool_decide_eq_true_2 by done. rewrite Hp. by rewrite bool_decide_eq_true_2.
Qed.

Lemma pad_digits k n : 0 ≤ n → Forall is_digit (replicate k (ascii_of_nat 48) ++ format_uint 10 n).
Proof.
  intros Hn. apply Forall_app. split; [|by apply format_uint_digits].
  apply Forall_replicate. by exists 0.
Qed.

(** [strconv.ParseInt] reads back what the verb [%0<w>d] printed. *)
Lemma parse_format_int_pad w z : is_i64 z → parse_int (format_int_pad w z) = Some z.
Proof.
  intros Hz. unfold format_int_pad. destruct (z <? 0) eqn:E; bool_to_prop.
  - replace (Some z) with (Some (- - z)) by (f_equal; lia). apply parse_int_neg.
    + intros [_ Hf]%app_eq_nil. by eapply format_uint_nonempty.
    + rewrite parse_digits_zeros. apply parse_format_uint. lia.
    + by rewrite Z.opp_involutive.
  - apply parse_int_digits; [|by apply pad_digits| |done].
    + intros [_ Hf]%app_eq_nil. by eapply format_uint_nonempty.
    + rewrite parse_digits_zeros. by apply parse_format_uint.
Qed.

(** Every character printed by [%0<w>d] is a digit or the sign. *)
Lemma format_int_pad_chars w z c :
  c ∈ format_int_pad w z → c = ascii_of_nat 45 ∨ is_digit c.
Proof.
  unfold format_int_pad. destruct (z <? 0) eqn:E; bool_to_prop.
  - rewrite elem_of_cons. intros [->|Hc]; [by left|right].
    eapply Forall_forall in Hc; [done|]. apply pad_digits. lia.
  - intros Hc. right. eapply Forall_forall in Hc; [done|]. by apply pad_digits.
Qed.
