(* ===== verification/NetAddr.v ===== *)
(** * Network addresses: the parts of Go's [net] and [net/netip] the program uses, and the
      address prefixes of dispatch tokens ([internal/auth/token.go])

    Addresses are lists of bytes as in [net.IP]: 16 bytes, where an IPv4 address is mapped
    behind ten zero bytes and two bytes 255.  Parsing and printing work on text, with the
    compression of zero groups in IPv6.  All masks of the program are [net.CIDRMask]s, so a
    mask is its number of leading ones and its width.

    The theorem: the prefix computed from a client's address is a CIDR text that parses
    again and contains exactly the addresses of the same /24 (IPv4) or /64 (IPv6) network. *)

From S2P Require Import Prelude GoStrings.
From Stdlib Require Import Ascii.

Abbreviation IP := (list Z).

Definition char_dot : ascii := ascii_of_nat 46.
Definition char_colon : ascii := ascii_of_nat 58.
Definition char_percent : ascii := ascii_of_nat 37.
Definition char_slash : ascii := ascii_of_nat 47.
Definition char_lbracket : ascii := ascii_of_nat 91.
Definition char_rbracket : ascii := ascii_of_nat 93.

(** ** [netip.ParseAddr] *)

(** One field of a dotted quad: digits, no leading zero, at most 255. *)
Definition parse_octet (l : chars) : option Z :=
  match l with
  | [] => None
  | c :: l' =>
      if bool_decide (c = ascii_of_nat 48) && negb (bool_decide (l' = [])) then None
      else match parse_digits 0 l with
           | Some v => if v <=? 255 then Some v else None
           | None => None
           end
  end.

Definition parseIPv4 (l : chars) : option IP :=
  match split_on char_dot l with
  | [a; b; c; d] =>
      match parse_octet a, parse_octet b, parse_octet c, parse_octet d with
      | Some a, Some b, Some c, Some d => Some [a; b; c; d]
      | _, _, _, _ => None
      end
  | _ => None
  end.

Definition hex_digit (c : ascii) : option Z :=
  let n := Z.of_nat (nat_of_ascii c) in
  if (48 <=? n) && (n <=? 57) then Some (n - 48)
  else if (97 <=? n) && (n <=? 102) then Some (n - 87)
  else if (65 <=? n) && (n <=? 70) then Some (n - 55)
  else None.

(** The leading hexadecimal digits and what follows them. *)
Fixpoint span_hex (l : chars) : list Z * chars :=
  match l with
  | [] => ([], [])
  | c :: l' => match hex_digit c with
               | Some d => let '(ds, rest) := span_hex l' in (d :: ds, rest)
               | None => ([], l)
               end
  end.

Definition hex_num (ds : list Z) : Z := foldl (λ a d, a * 16 + d) 0 ds.

(** The loop of [parseIPv6], one turn per group; the fuel is the number of groups left, so
    that [length acc] is Go's [i].  The result: the bytes, where the ellipsis is, and the
    text that was not consumed. *)
Fixpoint parse6_loop (fuel : nat) (ell : option nat) (acc : IP) (s : chars)
    : option (IP * option nat * chars) :=
  match fuel with
  | O => Some (acc, ell, s)
  | S fuel' =>
      let '(ds, rest) := span_hex s in
      let i := length acc in
      if ((length ds =? 0) || (4 <? length ds))%nat then None
      else
        let acc' := acc ++ [hex_num ds / 256; hex_num ds mod 256] in
        match rest with
        | [] => Some (acc', ell, [])
        | c :: more =>
            if bool_decide (c = char_dot) then
              if bool_decide (ell = None) && negb (i =? 12)%nat then None
              else if (16 <? i + 4)%nat then None
              else match parseIPv4 s with Some q => Some (acc ++ q, ell, []) | None => None end
            else if negb (bool_decide (c = char_colon)) then None
            else
              match more with
              | [] => None
              | c' :: more' =>
                  if bool_decide (c' = char_colon) then
                    if bool_decide (ell ≠ None) then None
                    else match more' with
                         | [] => Some (acc', Some (length acc'), [])
                         | _ => parse6_loop fuel' (Some (length acc')) acc' more'
                         end
                  else parse6_loop fuel' ell acc' more
              end
        end
  end.

(** The ellipsis stands for at least one zero group. *)
Definition expand_ellipsis (acc : IP) (ell : option nat) : option IP :=
  match ell with
  | None => if (length acc <? 16)%nat then None else Some acc
  | Some e => if (length acc <? 16)%nat
              then Some (take e acc ++ replicate (16 - length acc) 0 ++ drop e acc)
              else None
  end.

Definition parseIPv6 (s : chars) : option IP :=
  let run ell s :=
    match parse6_loop 8 ell [] s with
    | Some (acc, ell', []) => expand_ellipsis acc ell'
    | _ => None
    end in
  match s with
  | c :: c' :: s' =>
      if bool_decide (c = char_colon) && bool_decide (c' = char_colon)
      then match s' with [] => Some (replicate 16 0) | _ => run (Some 0%nat) s' end
      else run None s
  | _ => run None s
  end.

(** [netip.ParseAddr], less the addresses with a zone, which no caller accepts: [inl] an
    IPv4 address, [inr] an IPv6 address. *)
Fixpoint first_sep (l : chars) : option ascii :=
  match l with
  | [] => None
  | c :: l' => if bool_decide (c ∈ [char_dot; char_colon; char_percent]) then Some c else first_sep l'
  end.

Definition ParseAddr (s : string) : option (IP + IP) :=
  let l := to_chars s in
  if bool_decide (char_percent ∈ l) then None
  else match first_sep l with
       | Some c => if bool_decide (c = char_dot) then inl <$> parseIPv4 l else inr <$> parseIPv6 l
       | None => None
       end.

Definition v4_mapped (q : IP) : IP := replicate 10 0 ++ [255; 255] ++ q.
Definition As16 (a : IP + IP) : IP := match a with inl q => v4_mapped q | inr b => b end.

Definition ParseIP (s : string) : option IP := As16 <$> ParseAddr s.

(** [ip.To4()]. *)
Definition To4 (ip : IP) : option IP :=
  if (length ip =? 4)%nat then Some ip
  else if (length ip =? 16)%nat && bool_decide (take 12 ip = v4_mapped []) then Some (drop 12 ip)
  else None.

(** ** Masks and networks *)
Record CIDRMask := mkCIDRMask { mask_ones : Z; mask_bits : Z }.

(** Byte [i] of a mask with [n] ones. *)
Definition mask_byte (n : Z) (i : nat) : Z :=
  let k := Z.min 8 (Z.max 0 (n - 8 * Z.of_nat i)) in 256 - 2 ^ (8 - k).

Definition masked (n : Z) (ip : IP) : IP := imap (λ i b, Z.land b (mask_byte n i)) ip.

(** [ip.Mask(m)]; [None] is [nil]. *)
Definition IP_Mask (ip : IP) (m : CIDRMask) : option IP :=
  let ip := if (mask_bits m =? 32) && (length ip =? 16)%nat && bool_decide (take 12 ip = v4_mapped [])
            then drop 12 ip else ip in
  let n := if (mask_bits m =? 128) && (length ip =? 4)%nat && (96 <=? mask_ones m)
           then mask_ones m - 96 else mask_ones m in
  if (Z.of_nat (length ip) * 8 =? mask_bits m) ||
     ((mask_bits m =? 128) && (length ip =? 4)%nat && (96 <=? mask_ones m))
  then Some (masked n ip) else None.

Record IPNet := mkIPNet { net_IP : IP; net_Mask : CIDRMask }.

(** [networkNumberAndMask], the mask as its number of ones. *)
Definition networkNumberAndMask (n : IPNet) : option (IP * Z) :=
  let ip := default (net_IP n) (To4 (net_IP n)) in
  if Z.of_nat (length ip) * 8 =? mask_bits (net_Mask n) then Some (ip, mask_ones (net_Mask n))
  else if (mask_bits (net_Mask n) =? 128) && (length ip =? 4)%nat
  then Some (ip, Z.max 0 (mask_ones (net_Mask n) - 96))
  else None.

Definition IPNet_Contains (n : IPNet) (ip : IP) : bool :=
  match networkNumberAndMask n with
  | None => false
  | Some (nn, ones) =>
      let ip := default ip (To4 ip) in
      (length ip =? length nn)%nat && bool_decide (masked ones nn = masked ones ip)
  end.

(** ** [IP.String] *)
Definition groups (ip : IP) : list Z :=
  (λ i, (ip !!! (2 * i)%nat) * 256 + ip !!! (2 * i + 1)%nat) <$> seq 0 8.

Fixpoint zero_run (l : list Z) : nat :=
  match l with g :: l' => if g =? 0 then S (zero_run l') else 0%nat | [] => 0%nat end.

(** The first longest run of at least two zero groups: its start and its end. *)
Fixpoint best_run (i : nat) (l : list Z) (best : option (nat * nat)) : option (nat * nat) :=
  match l with
  | [] => best
  | _ :: l' =>
      let len := zero_run l in
      let cur := match best with Some (s, e) => (e - s)%nat | None => 0%nat end in
      best_run (S i) l' (if (2 <=? len)%nat && (cur <? len)%nat then Some (i, (i + len)%nat) else best)
  end.

Definition hex_groups (l : list Z) : chars := join_with char_colon (format_uint 16 <$> l).

Definition IPv6_String (ip : IP) : chars :=
  let gs := groups ip in
  match best_run 0 gs None with
  | Some (s, e) => hex_groups (take s gs) ++ [char_colon; char_colon] ++ hex_groups (drop e gs)
  | None => hex_groups gs
  end.

Definition IPv4_String (q : IP) : chars := join_with char_dot (format_uint 10 <$> q).

Definition IP_String (ip : IP) : chars :=
  match To4 ip with Some q => IPv4_String q | None => IPv6_String ip end.

Definition IPNet_String (n : IPNet) : chars :=
  match networkNumberAndMask n with
  | None => to_chars "<nil>"
  | Some (nn, ones) => IP_String nn ++ char_slash :: format_uint 10 ones
  end.

(** [net.ParseCIDR], the network it returns. *)
Definition ParseCIDR (s : string) : option IPNet :=
  let l := to_chars s in
  match index_byte char_slash l with
  | None => None
  | Some i =>
      match ParseAddr (of_chars (take i l)) with
      | None => None
      | Some a =>
          let bits := match a with inl _ => 32 | inr _ => 128 end in
          let m := drop (S i) l in
          match (if (length m =? 0)%nat then None else parse_digits 0 m) with
          | None => None
          | Some n =>
              if bits <? n then None
              else match IP_Mask (As16 a) (mkCIDRMask n bits) with
                   | Some ip => Some (mkIPNet ip (mkCIDRMask n bits))
                   | None => None
                   end
          end
      end
  end.

(** [net.SplitHostPort], the host. *)
Definition SplitHost (hostport : string) : option string :=
  let l := to_chars hostport in
  match last_index [char_colon] l with
  | None => None
  | Some i =>
      let finish host j k :=
        if bool_decide (char_lbracket ∈ drop j l) || bool_decide (char_rbracket ∈ drop k l)
        then None else Some (of_chars host) in
      if bool_decide (head l = Some char_lbracket) then
        match index_byte char_rbracket l with
        | None => None
        | Some e => if (S e =? i)%nat then finish (take (e - 1) (drop 1 l)) 1%nat (S e) else None
        end
      else if bool_decide (char_colon ∈ take i l) then None else finish (take i l) 0%nat 0%nat
  end.

(** ** [ComputeIPPrefix] and [MatchesIP] *)
Definition ComputeIPPrefix (ip : string) : string :=
  match ParseIP ip with
  | None => ""
  | Some parsed =>
      match To4 parsed with
      | Some v4 =>
          let mask := mkCIDRMask 24 32 in
          of_chars (IPNet_String (mkIPNet (default [] (IP_Mask v4 mask)) mask))
      | None =>
          let mask := mkCIDRMask 64 128 in
          of_chars (IPNet_String (mkIPNet (default [] (IP_Mask parsed mask)) mask))
      end
  end.

Definition prefix_matches (prefix ip : string) : result bool :=
  if String.eqb prefix "" then Ok true
  else match ParseCIDR prefix with
       | None => Err "invalid ip_prefix in token"
       | Some cidr => match ParseIP ip with
                      | None => Err "invalid client ip"
                      | Some parsed => Ok (IPNet_Contains cidr parsed)
                      end
       end.

Example addresses :
  ComputeIPPrefix "10.20.30.40" = "10.20.30.0/24" ∧
  ComputeIPPrefix "::ffff:10.20.30.40" = "10.20.30.0/24" ∧
  ComputeIPPrefix "2001:db8:85a3::8a2e:370:7334" = "2001:db8:85a3::/64" ∧
  ComputeIPPrefix "::1" = "::/64" ∧
  ComputeIPPrefix "2001:0:0:1::" = "2001:0:0:1::/64" ∧
  ComputeIPPrefix "not-an-ip" = "" ∧ ComputeIPPrefix "1.2.3.04" = "" ∧
  prefix_matches "2001:db8:85a3::/64" "2001:db8:85a3::1" = Ok true ∧
  SplitHost "203.0.113.9:4711" = Some "203.0.113.9" ∧ SplitHost "[::1]:80" = Some "::1" ∧
  SplitHost "::1" = None ∧ SplitHost "localhost" = None.
Proof. vm_compute. done. Qed.

(** ** Addresses that were parsed *)
Definition byte_range (z : Z) : Prop := 0 ≤ z < 256.

Record ip_ok (ip : IP) : Prop := {
  ip_len : length ip = 16%nat;
  ip_bytes : Forall byte_range ip
}.

Lemma parse_digits_nonneg l acc z : 0 ≤ acc → parse_digits acc l = Some z → 0 ≤ z.
Proof.
  revert acc. induction l as [|c l IH]; intros acc Ha; cbn [parse_digits]; [by intros [= <-]|].
  unfold digit_val. destruct (_ && _) eqn:E; [|done]. bool_to_prop. apply IH. lia.
Qed.

Lemma parse_octet_range l z : parse_octet l = Some z → byte_range z.
Proof.
  unfold parse_octet. destruct l as [|c l]; [done|]. case_match; [done|].
  destruct (parse_digits 0 _) eqn:E; [|done]. apply parse_digits_nonneg in E; [|lia].
  case_match; [|done]. bool_to_prop. intros [= <-]. split; lia.
Qed.

Lemma parseIPv4_ok l q : parseIPv4 l = Some q → length q = 4%nat ∧ Forall byte_range q.
Proof.
  unfold parseIPv4. repeat case_match; try done. intros [= <-]. split; [done|].
  repeat constructor; eapply parse_octet_range; eassumption.
Qed.

Lemma hex_digit_range c d : hex_digit c = Some d → 0 ≤ d < 16.
Proof. unfold hex_digit. intros. repeat case_match; simplify_eq/=; bool_to_prop; lia. Qed.

Lemma span_hex_range l : Forall (λ d, 0 ≤ d < 16) (span_hex l).1.
Proof.
  induction l as [|c l IH]; cbn [span_hex]; [constructor|].
  destruct (hex_digit c) eqn:E; [|constructor]. destruct (span_hex l). constructor; [|done].
  by eapply hex_digit_range.
Qed.

Lemma hex_num_range ds : Forall (λ d, 0 ≤ d < 16) ds → 0 ≤ hex_num ds < 16 ^ Z.of_nat (length ds).
Proof.
  unfold hex_num. induction ds as [|d ds IH] using rev_ind; [done|].
  intros [Hds [Hd _]%Forall_cons]%Forall_app. rewrite foldl_app, length_app. cbn [foldl length].
  specialize (IH Hds). rewrite Nat.add_1_r, Nat2Z.inj_succ, Z.pow_succ_r by lia. lia.
Qed.

Lemma parse6_loop_ok fuel ell acc s acc' ell' s' :
  parse6_loop fuel ell acc s = Some (acc', ell', s') →
  Forall byte_range acc → (length acc + 2 * fuel = 16)%nat →
  Forall byte_range acc' ∧ (length acc' ≤ 16)%nat.
Proof.
  revert ell acc s. induction fuel as [|fuel IH]; intros ell acc s; cbn [parse6_loop].
  { intros [= <- _ _] Ha Hl. split; [done|lia]. }
  destruct (span_hex s) as [ds rest] eqn:Es. case_match eqn:En; [done|]. intros Hp Ha Hl.
  pose proof (span_hex_range s) as Hr. rewrite Es in Hr. cbn [fst] in Hr. apply hex_num_range in Hr.
  apply orb_false_elim in En as [_ En%Nat.ltb_ge].
  assert (hex_num ds < 65536).
  { eapply Z.lt_le_trans; [apply Hr|]. change 65536 with (16 ^ 4). apply Z.pow_le_mono_r; lia. }
  set (acc2 := acc ++ [hex_num ds / 256; hex_num ds mod 256]) in *.
  assert (Ha2 : Forall byte_range acc2).
  { apply Forall_app. split; [done|]. repeat constructor; try (apply Z.mod_pos_bound; lia).
    - apply Z.div_pos; lia.
    - apply Z.div_lt_upper_bound; lia. }
  assert (Hl2 : length acc2 = (length acc + 2)%nat) by (unfold acc2; by rewrite length_app).
  clearbody acc2.
  repeat (case_match; simplify_eq/=); try done; try (split; [done|lia]);
    try (by eapply IH; [eassumption|done|lia]).
  match goal with H : parseIPv4 _ = Some _ |- _ => apply parseIPv4_ok in H as [Hq4 Hq] end.
  rewrite length_app, Hq4. bool_to_prop. split; [by apply Forall_app|lia].
Qed.

Lemma expand_ellipsis_ok acc ell ip :
  expand_ellipsis acc ell = Some ip → Forall byte_range acc → (length acc ≤ 16)%nat → ip_ok ip.
Proof.
  unfold expand_ellipsis. intros He Ha Hl. repeat case_match; simplify_eq; bool_to_prop.
  - split.
    + rewrite !length_app, length_replicate, length_take, length_drop. lia.
    + apply Forall_app. split; [by apply Forall_take|]. apply Forall_app. split; [|by apply Forall_drop].
      apply Forall_replicate. split; lia.
  - split; [lia|done].
Qed.

Lemma parseIPv6_ok s ip : parseIPv6 s = Some ip → ip_ok ip.
Proof.
  assert (Hrun : ∀ ell s ip,
    match parse6_loop 8 ell [] s with Some (acc, ell', []) => expand_ellipsis acc ell' | _ => None end = Some ip →
    ip_ok ip).
  { intros ell s' ip' Hr. destruct (parse6_loop 8 ell [] s') as [[[acc ell'] []]|] eqn:E; try done.
    apply parse6_loop_ok in E as [Ha Hl]; [|constructor|done]. by eapply expand_ellipsis_ok. }
  unfold parseIPv6. destruct s as [|c [|c' s']]; [apply Hrun..|].
  destruct (_ && _); [|apply Hrun]. destruct s'; [|apply Hrun].
  intros [= <-]. split; [done|]. change (Forall byte_range (replicate 16 0)). apply Forall_replicate. split; lia.
Qed.

Lemma v4_mapped_ok q : length q = 4%nat → Forall byte_range q → ip_ok (v4_mapped q).
Proof.
  intros Hl Hq. split; [unfold v4_mapped; rewrite !length_app, Hl; done|].
  unfold v4_mapped. apply Forall_app. split; [apply Forall_replicate; split; lia|].
  repeat constructor; done.
Qed.

Lemma ParseIP_ok s ip : ParseIP s = Some ip → ip_ok ip.
Proof.
  unfold ParseIP, ParseAddr. case_match; [done|]. destruct (first_sep _); [|done]. case_match.
  - destruct (parseIPv4 _) as [q|] eqn:E; [|done]. intros [= <-]. apply parseIPv4_ok in E as [??].
    by apply v4_mapped_ok.
  - destruct (parseIPv6 _) as [b|] eqn:E; [|done]. intros [= <-]. by apply parseIPv6_ok in E.
Qed.

(** ** Printing and parsing *)
Lemma index_byte_app c a b : c ∉ a → index_byte c (a ++ c :: b) = Some (length a).
Proof.
  induction a as [|x a IH]; cbn [index_byte app length].
  - by rewrite bool_decide_eq_true_2.
  - intros [Hx Ha]%not_elem_of_cons. rewrite bool_decide_eq_false_2 by done. by rewrite IH.
Qed.

Definition separator (c : ascii) : Prop := c ∈ [char_dot; char_colon; char_percent].

Lemma first_sep_app p c l : Forall (λ c, ¬ separator c) p → separator c → first_sep (p ++ c :: l) = Some c.
Proof.
  intros Hp Hc. induction Hp as [|x p Hx Hp IH]; cbn [first_sep app].
  - by rewrite bool_decide_eq_true_2.
  - by rewrite bool_decide_eq_false_2.
Qed.

Lemma digit_not_special c : is_digit c → ¬ separator c ∧ c ≠ char_slash.
Proof. intros [d Hd]. split; [|intros ->; done]. unfold separator. rewrite !elem_of_cons, elem_of_nil. by intros [->|[->|[->|[]]]]. Qed.

(** A test on all integers below [n], by computation. *)
Fixpoint all_below (f : Z → bool) (n : nat) (z : Z) : bool :=
  match n with O => true | S n' => f z && all_below f n' (z + 1) end.

Lemma all_below_spec f n lo z : all_below f n lo = true → lo ≤ z < lo + Z.of_nat n → f z = true.
Proof.
  revert lo. induction n as [|n IH]; intros lo; cbn [all_below]; [lia|].
  intros [Hf Hn]%andb_prop Hz. destruct (decide (z = lo)) as [->|]; [done|]. apply (IH (lo + 1)); [done|lia].
Qed.

Lemma forallb_range (f : Z → bool) (n z : Z) :
  all_below f (Z.to_nat n) 0 = true → 0 ≤ z < n → f z = true.
Proof. intros Hf Hz. eapply all_below_spec; [exact Hf|]. lia. Qed.

Lemma parse_octet_format n : byte_range n → parse_octet (format_uint 10 n) = Some n.
Proof.
  intros Hn.
  pose proof (forallb_range (λ n, bool_decide (parse_octet (format_uint 10 n) = Some n)) 256 n) as Hf.
  apply bool_decide_eq_true in Hf; [done|vm_compute; reflexivity|exact Hn].
Qed.

Lemma format_octet_no_dot n : byte_range n → char_dot ∉ format_uint 10 n.
Proof.
  intros [Hn _] Hin. eapply Forall_forall in Hin; [|by apply format_uint_digits].
  by destruct Hin as [d Hd].
Qed.

Lemma parseIPv4_String q :
  length q = 4%nat → Forall byte_range q → parseIPv4 (IPv4_String q) = Some q.
Proof.
  intros Hl Hq. unfold parseIPv4, IPv4_String.
  rewrite split_join; [|by destruct q|].
  2:{ apply Forall_fmap. eapply Forall_impl; [exact Hq|]. intros n Hn. by apply format_octet_no_dot. }
  destruct q as [|a [|b [|c [|d [|]]]]]; try done.
  repeat (apply Forall_cons in Hq as [? Hq]). cbn [fmap list_fmap].
  by rewrite !parse_octet_format.
Qed.

(** What a formatted address is made of. *)
Lemma IPv4_String_chars q c : Forall byte_range q → c ∈ IPv4_String q → c = char_dot ∨ is_digit c.
Proof.
  intros Hq [?|(p & Hp & Hc)]%elem_of_join_with; [by left|right].
  apply list_elem_of_fmap in Hp as (n & -> & Hn). eapply Forall_forall in Hn; [|exact Hq].
  eapply Forall_forall in Hc; [exact Hc|]. apply format_uint_digits. apply Hn.
Qed.

Lemma ParseAddr_v4_String q :
  length q = 4%nat → Forall byte_range q → ParseAddr (of_chars (IPv4_String q)) = Some (inl q).
Proof.
  intros Hl Hq. unfold ParseAddr. rewrite to_of_chars.
  rewrite bool_decide_eq_false_2.
  2:{ intros [?|[d Hd]]%IPv4_String_chars; [discriminate| discriminate |done]. }
  rewrite parseIPv4_String by done.
  destruct q as [|a [|b q]]; [done..|]. unfold IPv4_String. cbn [fmap list_fmap join_with].
  rewrite first_sep_app; [done| |by left].
  apply Forall_cons in Hq as [[Ha _] _]. eapply Forall_impl; [by apply format_uint_digits|].
  intros c Hc. by apply digit_not_special.
Qed.

(** *** IPv6 *)
Definition is_hex (c : ascii) : Prop := is_Some (hex_digit c).

(** A group prints as one to four digits that denote it. *)
Lemma span_hex_group g c rest :
  0 ≤ g < 65536 → hex_digit c = None →
  ∃ ds, span_hex (format_uint 16 g ++ c :: rest) = (ds, c :: rest) ∧
        (1 ≤ length ds ≤ 4)%nat ∧ hex_num ds = g.
Proof.
  intros Hg Hc. exists (span_hex (format_uint 16 g)).1.
  pose proof (forallb_range (λ g, let '(ds, r) := span_hex (format_uint 16 g) in
    bool_decide (r = []) && (1 <=? length ds)%nat && (length ds <=? 4)%nat && (hex_num ds =? g)) 65536 g) as Hf.
  cbv beta in Hf. destruct (span_hex (format_uint 16 g)) as [ds r] eqn:E. cbn [fst].
  assert (Hb : bool_decide (r = []) && (1 <=? length ds)%nat && (length ds <=? 4)%nat && (hex_num ds =? g) = true).
  { apply Hf; [vm_compute; reflexivity|exact Hg]. }
  bool_to_prop. subst r. split_and!; [|done..].
  assert (Happ : ∀ l ds, span_hex l = (ds, []) → span_hex (l ++ c :: rest) = (ds, c :: rest)).
  { induction l as [|x l IH]; intros ds' Hs; cbn [span_hex app] in *; [rewrite Hc; by simplify_eq|].
    destruct (hex_digit x); [|done]. destruct (span_hex l) as [ds2 r2]. simplify_eq. by rewrite (IH ds2). }
  by apply Happ.
Qed.

Lemma span_hex_all l ds : span_hex l = (ds, []) → Forall is_hex l.
Proof.
  revert ds. induction l as [|c l IH]; intros ds; cbn [span_hex]; [constructor|].
  destruct (hex_digit c) eqn:E; [|done]. destruct (span_hex l) as [ds' r]. intros [= _ ->].
  constructor; [by eexists|by eapply IH].
Qed.

Lemma format_group_hex g : 0 ≤ g < 65536 → format_uint 16 g ≠ [] ∧ Forall is_hex (format_uint 16 g).
Proof.
  intros Hg. destruct (span_hex_group g char_colon [] Hg eq_refl) as (ds & Hs & Hl & _).
  split; [intros E; rewrite E in Hs; cbn in Hs; simplify_eq/=; lia|].
  assert (Hinv : ∀ l ds, span_hex (l ++ [char_colon]) = (ds, [char_colon]) → Forall is_hex l).
  { induction l as [|x l IH]; intros ds' Hs'; cbn [span_hex app] in *; [constructor|].
    destruct (hex_digit x) eqn:E; [|simplify_eq/=; by destruct l].
    destruct (span_hex (l ++ _)) as [ds2 r2] eqn:E2. simplify_eq. constructor; [by eexists|by eapply IH]. }
  by eapply Hinv.
Qed.

Definition group_bytes (gs : list Z) : IP := gs ≫= λ g, [g / 256; g mod 256].

Lemma length_group_bytes gs : length (group_bytes gs) = (2 * length gs)%nat.
Proof. induction gs as [|g gs IH]; [done|]. cbn -[Nat.mul]. unfold group_bytes in IH. rewrite IH. lia. Qed.

(** The loop reads groups that end in an ellipsis. *)
Lemma parse6_loop_groups gs fuel acc :
  gs ≠ [] → Forall (λ g, 0 ≤ g < 65536) gs → (length gs ≤ fuel)%nat →
  parse6_loop fuel None acc (hex_groups gs ++ [char_colon; char_colon])
    = Some (acc ++ group_bytes gs, Some (length acc + 2 * length gs)%nat, []).
Proof.
  revert fuel acc. induction gs as [|g gs IH]; intros fuel acc Hne Hgs Hf; [done|].
  apply Forall_cons in Hgs as [Hg Hgs]. destruct fuel as [|fuel]; [cbn in Hf; lia|].
  assert (Hstep : ∀ rest, parse6_loop (S fuel) None acc (format_uint 16 g ++ char_colon :: rest) =
    match rest with
    | [] => None
    | c' :: more' =>
        let acc' := acc ++ [g / 256; g mod 256] in
        if bool_decide (c' = char_colon) then
          match more' with [] => Some (acc', Some (length acc'), []) | _ => parse6_loop fuel (Some (length acc')) acc' more' end
        else parse6_loop fuel None acc' rest
    end).
  { intros rest. destruct (span_hex_group g char_colon rest Hg eq_refl) as (ds & Hs & Hl & Hn).
    cbn [parse6_loop]. rewrite Hs.
    replace ((length ds =? 0) || (4 <? length ds))%nat with false; [|symmetry; apply orb_false_intro; [apply Nat.eqb_neq|apply Nat.ltb_ge]; lia].
    rewrite Hn. rewrite (bool_decide_eq_false_2 (char_colon = char_dot)) by done.
    rewrite (bool_decide_eq_true_2 (char_colon = char_colon)) by done. cbn [negb].
    destruct rest as [|c' more']; [done|]. by case_match. }
  unfold hex_groups. cbn [fmap list_fmap join_with]. destruct gs as [|g' gs].
  - cbn [fmap list_fmap]. rewrite Hstep. cbn. rewrite length_app. cbn. do 2 f_equal.
  - cbn [fmap list_fmap] in *. rewrite <- app_assoc. cbn [app]. rewrite Hstep.
    assert (Hf' : (length (g' :: gs) ≤ fuel)%nat) by (cbn [length] in *; lia).
    specialize (IH fuel (acc ++ [g / 256; g mod 256]) ltac:(done) Hgs Hf').
    unfold hex_groups in IH. cbn [fmap list_fmap] in IH.
    apply Forall_cons in Hgs as [Hg' Hgs]. pose proof (format_group_hex g' Hg') as [Hn' Hx'].
    set (tail := join_with char_colon _ ++ _) in *.
    destruct tail as [|c' more'] eqn:Et.
    { unfold tail in Et. apply app_eq_nil in Et as [_ ?]. done. }
    assert (Hc' : c' ≠ char_colon).
    { destruct (format_uint 16 g') as [|x l]; [done|]. apply Forall_cons in Hx' as [[d Hd] _].
      unfold tail in Et. destruct (format_uint 16 <$> gs); cbn in Et; injection Et as <- _; by intros ->. }
    cbn zeta. rewrite bool_decide_eq_false_2 by done. rewrite IH.
    rewrite length_app. cbn [length].
    replace (length acc + 2 + 2 * S (length gs))%nat with (length acc + 2 * S (S (length gs)))%nat by lia.
    unfold group_bytes. cbn [mbind list_bind]. by rewrite <- app_assoc.
Qed.

Lemma hex_groups_chars gs c :
  Forall (λ g, 0 ≤ g < 65536) gs → c ∈ hex_groups gs → c = char_colon ∨ is_hex c.
Proof.
  intros Hgs [?|(p & Hp & Hc)]%elem_of_join_with; [by left|right].
  apply list_elem_of_fmap in Hp as (g & -> & Hg). eapply Forall_forall in Hg; [|exact Hgs].
  eapply Forall_forall in Hc; [exact Hc|]. by apply format_group_hex.
Qed.

Lemma hex_not_special c : is_hex c → ¬ separator c ∧ c ≠ char_slash.
Proof. intros [d Hd]. split; [|intros ->; done]. unfold separator. rewrite !elem_of_cons, elem_of_nil. by intros [->|[->|[->|[]]]]. Qed.

Lemma ParseAddr_v6_ellipsis gs :
  Forall (λ g, 0 ≤ g < 65536) gs → (length gs < 8)%nat →
  ParseAddr (of_chars (hex_groups gs ++ [char_colon; char_colon]))
    = Some (inr (group_bytes gs ++ replicate (16 - 2 * length gs) 0)).
Proof.
  intros Hgs Hl. destruct (decide (gs = [])) as [->|Hne]; [reflexivity|].
  unfold ParseAddr. rewrite to_of_chars. rewrite bool_decide_eq_false_2.
  2:{ rewrite elem_of_app. intros [[?|Hh]%hex_groups_chars|Hc]; [discriminate| |done|].
      - by apply hex_not_special in Hh as [[] _]; right; right; left.
      - rewrite !elem_of_cons, elem_of_nil in Hc. by destruct Hc as [?|[?|[]]]. }
  assert (Hfirst : ∃ x l r, hex_groups gs ++ [char_colon; char_colon] = (x :: l) ++ char_colon :: r ∧ Forall is_hex (x :: l)).
  { destruct gs as [|g gs]; [done|]. apply Forall_cons in Hgs as [Hg _].
    pose proof (format_group_hex g Hg) as [Hn Hx]. destruct (format_uint 16 g) as [|x l] eqn:E; [done|].
    exists x, l. unfold hex_groups. cbn [fmap list_fmap join_with]. rewrite E.
    destruct (format_uint 16 <$> gs); eexists; (split; [|exact Hx]); [reflexivity|].
    rewrite <- app_assoc. reflexivity. }
  destruct Hfirst as (x & l & r & Heq & Hx). rewrite Heq at 1. rewrite first_sep_app; [| |by right; left].
  2:{ eapply Forall_impl; [exact Hx|]. intros c Hc. by apply hex_not_special. }
  rewrite bool_decide_eq_false_2 by done. unfold parseIPv6.
  pose proof (parse6_loop_groups gs 8 [] Hne Hgs ltac:(lia)) as Hp. rewrite Heq in *. cbn [app] in *.
  apply Forall_cons in Hx as [[d Hd] _].
  assert (x ≠ char_colon) by (by intros ->).
  assert (Hrest : ∃ c' s', l ++ char_colon :: r = c' :: s') by (destruct l; by do 2 eexists).
  destruct Hrest as (c' & s' & Hs'). rewrite Hs' in *.
  rewrite (bool_decide_eq_false_2 (x = char_colon)) by done. cbn [andb]. rewrite Hp.
  cbn [length app Nat.add]. unfold expand_ellipsis. rewrite length_group_bytes.
  replace (2 * length gs <? 16)%nat with true by (symmetry; apply Nat.ltb_lt; lia). cbn [fmap option_fmap option_map].
  do 2 f_equal. rewrite take_ge by (rewrite length_group_bytes; lia).
  rewrite drop_ge by (rewrite length_group_bytes; lia). by rewrite app_nil_r.
Qed.

(** ** The computed prefix *)
Lemma land_255 b : byte_range b → Z.land b 255 = b.
Proof. intros Hb. change 255 with (Z.ones 8). rewrite Z.land_ones by lia. by apply Z.mod_small. Qed.

Ltac split_bytes :=
  repeat match goal with H : Forall byte_range (_ :: _) |- _ => apply Forall_cons in H as [? H] end.

Lemma masked_24 q : length q = 4%nat → Forall byte_range q → masked 24 q = take 3 q ++ [0].
Proof.
  intros Hl Hq. destruct q as [|a [|b [|c [|d [|]]]]]; try done. split_bytes.
  unfold masked. cbn. rewrite !land_255 by done. by rewrite Z.land_0_r.
Qed.

Lemma masked_64 ip : ip_ok ip → masked 64 ip = take 8 ip ++ replicate 8 0.
Proof.
  intros [Hl Hb]. do 17 (destruct ip as [|? ip]; try done). split_bytes.
  unfold masked. cbn. rewrite !land_255 by done. by rewrite !Z.land_0_r.
Qed.

Lemma To4_16 ip q : length ip = 16%nat → To4 ip = Some q → q = drop 12 ip ∧ take 12 ip = v4_mapped [].
Proof.
  intros Hl. unfold To4. rewrite Hl. cbn. case_bool_decide; [|done]. by intros [= <-].
Qed.

Lemma To4_ok ip q : ip_ok ip → To4 ip = Some q → length q = 4%nat ∧ Forall byte_range q.
Proof.
  intros [Hl Hb] [-> _]%To4_16; [|done]. rewrite length_drop, Hl. split; [done|by apply Forall_drop].
Qed.

Lemma To4_masked_64 ip : length ip = 16%nat → To4 (take 8 ip ++ replicate 8 0) = None.
Proof.
  intros Hl. unfold To4. do 17 (destruct ip as [|? ip]; try done). cbn.
  by rewrite bool_decide_eq_false_2 by done.
Qed.

(** The text of a network in CIDR notation, read back. *)
Lemma ParseCIDR_text addr (ones : Z) a :
  char_slash ∉ addr → 0 ≤ ones ≤ 32 ∨ (∃ b, a = inr b) ∧ 0 ≤ ones ≤ 128 →
  ParseAddr (of_chars addr) = Some a →
  ParseCIDR (of_chars (addr ++ char_slash :: format_uint 10 ones)) =
    let m := mkCIDRMask ones (match a with inl _ => 32 | inr _ => 128 end) in
    (λ ip, mkIPNet ip m) <$> IP_Mask (As16 a) m.
Proof.
  intros Hs Ho Ha. unfold ParseCIDR. rewrite to_of_chars, index_byte_app by done.
  rewrite take_app_length, Ha. rewrite cons_middle, app_assoc.
  rewrite (drop_app_length' _ _ (S (length addr))) by (rewrite length_app; cbn; lia).
  destruct (length (format_uint 10 ones) =? 0)%nat eqn:E.
  { apply Nat.eqb_eq, length_zero_iff_nil in E. by apply format_uint_nonempty in E. }
  rewrite parse_format_uint by (destruct Ho as [?|[_ ?]]; lia).
  destruct a as [q|b]; cbn zeta.
  - rewrite (proj2 (Z.ltb_ge _ _)); [by destruct (IP_Mask _ _)|].
    destruct Ho as [?|[[b ?] _]]; [lia|done].
  - rewrite (proj2 (Z.ltb_ge _ _)); [by destruct (IP_Mask _ _)|]. destruct Ho as [?|[_ ?]]; lia.
Qed.

Lemma net_number_v4 n ones : length n = 4%nat → networkNumberAndMask (mkIPNet n (mkCIDRMask ones 32)) = Some (n, ones).
Proof. by destruct n as [|a [|b [|c [|d [|]]]]]. Qed.

Lemma mask_mapped n ones :
  length n = 4%nat → IP_Mask (As16 (inl n)) (mkCIDRMask ones 32) = Some (masked ones n).
Proof. by destruct n as [|a [|b [|c [|d [|]]]]]. Qed.

Lemma prefix_v4 q :
  length q = 4%nat → Forall byte_range q →
  ParseCIDR (of_chars (IPNet_String (mkIPNet (take 3 q ++ [0]) (mkCIDRMask 24 32))))
    = Some (mkIPNet (take 3 q ++ [0]) (mkCIDRMask 24 32)).
Proof.
  intros Hl Hq. set (n := take 3 q ++ [0]).
  assert (Hn : length n = 4%nat) by (unfold n; rewrite length_app, length_take, Hl; done).
  assert (Hnb : Forall byte_range n).
  { apply Forall_app. split; [by apply Forall_take|]. by repeat constructor. }
  unfold IPNet_String. rewrite net_number_v4 by done.
  unfold IP_String, To4. rewrite Hn. cbn [Nat.eqb].
  rewrite (ParseCIDR_text _ 24 (inl n)).
  - cbn zeta. rewrite mask_mapped, masked_24 by done. unfold n. by destruct q as [|a [|b [|c [|d [|]]]]].
  - intros [?|Hd]%IPv4_String_chars; [done| |done]. by apply digit_not_special in Hd as [_ []].
  - left. lia.
  - by apply ParseAddr_v4_String.
Qed.

Lemma groups_bound ip : ip_ok ip → Forall (λ g, 0 ≤ g < 65536) (groups ip).
Proof.
  intros [Hl Hb]. do 17 (destruct ip as [|? ip]; try done). split_bytes. unfold byte_range in *.
  unfold groups. cbn. repeat constructor; lia.
Qed.

Lemma group_bytes_pair a b : byte_range a → byte_range b → (a * 256 + b) / 256 = a ∧ (a * 256 + b) mod 256 = b.
Proof.
  unfold byte_range. intros. rewrite Z.add_comm. rewrite Z.div_add by lia. rewrite Z.mod_add by lia.
  rewrite Z.div_small, Z.mod_small by lia. lia.
Qed.

(** The run of zeros of a masked address reaches its end, so its text ends in an ellipsis. *)
Lemma masked_text ip :
  ip_ok ip →
  ∃ gs, IPv6_String (take 8 ip ++ replicate 8 0) = hex_groups gs ++ [char_colon; char_colon] ∧
        Forall (λ g, 0 ≤ g < 65536) gs ∧ (length gs ≤ 4)%nat ∧
        group_bytes gs ++ replicate (16 - 2 * length gs) 0 = take 8 ip ++ replicate 8 0.
Proof.
  intros Hip. pose proof Hip as [Hl Hb].
  do 17 (destruct ip as [|? ip]; try done). cbn [take app]. split_bytes. clear Hip.
  set (bytes := z :: z0 :: z1 :: z2 :: z3 :: z4 :: z5 :: z6 :: replicate 8 0).
  assert (Hgs : groups bytes = [z * 256 + z0; z1 * 256 + z2; z3 * 256 + z4; z5 * 256 + z6; 0; 0; 0; 0]) by reflexivity.
  unfold IPv6_String. rewrite Hgs.
  pose proof (group_bytes_pair z z0). pose proof (group_bytes_pair z1 z2).
  pose proof (group_bytes_pair z3 z4). pose proof (group_bytes_pair z5 z6).
  unfold byte_range in *.
  exists (take (match best_run 0 (groups bytes) None with Some (s, _) => s | None => 0%nat end) (groups bytes)).
  rewrite Hgs. unfold best_run, zero_run. clear Hgs.
  destruct (z * 256 + z0 =? 0) eqn:?, (z1 * 256 + z2 =? 0) eqn:?, (z3 * 256 + z4 =? 0) eqn:?, (z5 * 256 + z6 =? 0) eqn:?;
    bool_to_prop; cbn -[format_uint Z.mul Z.div Z.modulo]; (split_and!; [reflexivity|repeat constructor; lia|lia|]);
    unfold bytes; cbn -[Z.mul Z.div Z.modulo]; repeat f_equal; try lia.
Qed.

Lemma net_number_v6 n ones :
  length n = 16%nat → To4 n = None → networkNumberAndMask (mkIPNet n (mkCIDRMask ones 128)) = Some (n, ones).
Proof. intros Hl H4. unfold networkNumberAndMask. cbn [net_IP net_Mask]. rewrite H4. cbn [from_option id]. by rewrite Hl. Qed.

Lemma mask_v6 n ones : length n = 16%nat → IP_Mask n (mkCIDRMask ones 128) = Some (masked ones n).
Proof. intros Hl. by do 17 (destruct n as [|? n]; try done). Qed.

Lemma prefix_v6 ip :
  ip_ok ip →
  ParseCIDR (of_chars (IPNet_String (mkIPNet (take 8 ip ++ replicate 8 0) (mkCIDRMask 64 128))))
    = Some (mkIPNet (take 8 ip ++ replicate 8 0) (mkCIDRMask 64 128)).
Proof.
  intros Hip. pose proof Hip as [Hl Hb]. destruct (masked_text ip Hip) as (gs & Htext & Hgs & Hlen & Hbytes).
  set (n := take 8 ip ++ replicate 8 0) in *.
  assert (Hn : length n = 16%nat) by (unfold n; rewrite length_app, length_take, Hl; done).
  assert (H4 : To4 n = None) by by apply To4_masked_64.
  assert (Hok : ip_ok n).
  { split; [done|]. apply Forall_app. split; [by apply Forall_take|]. apply Forall_replicate. done. }
  unfold IPNet_String. rewrite net_number_v6 by done. unfold IP_String. rewrite H4, Htext.
  rewrite (ParseCIDR_text _ 64 (inr n)).
  - cbn zeta. cbn [As16]. rewrite mask_v6, masked_64 by done. unfold n.
    by do 17 (destruct ip as [|? ip]; try done).
  - rewrite elem_of_app. intros [[?|Hh]%hex_groups_chars|Hc]; [done| |done|].
    + by apply hex_not_special in Hh as [_ []].
    + rewrite !elem_of_cons, elem_of_nil in Hc. by destruct Hc as [?|[?|[]]].
  - right. split; [by eexists|lia].
  - rewrite ParseAddr_v6_ellipsis by (try done; lia). by rewrite Hbytes.
Qed.

(** Two addresses of the same /24 (IPv4) or /64 (IPv6) network. *)
Definition same_network (a b : IP) : bool :=
  match To4 a, To4 b with
  | Some q, Some r => bool_decide (take 3 q = take 3 r)
  | None, None => bool_decide (take 8 a = take 8 b)
  | _, _ => false
  end.

Lemma of_chars_slash a b : of_chars (a ++ char_slash :: b) ≠ "".
Proof. intros E%(f_equal to_chars). rewrite to_of_chars in E. by destruct a. Qed.

Lemma IPNet_String_nonempty ip m : of_chars (IPNet_String (mkIPNet ip m)) ≠ "".
Proof. unfold IPNet_String. destruct (networkNumberAndMask _) as [[]|]; [apply of_chars_slash|done]. Qed.

Lemma compute_v4 ip a q : ParseIP ip = Some a → To4 a = Some q →
  ComputeIPPrefix ip = of_chars (IPNet_String (mkIPNet (take 3 q ++ [0]) (mkCIDRMask 24 32))).
Proof.
  intros Hp Hq. pose proof (ParseIP_ok _ _ Hp) as Hok. destruct (To4_ok _ _ Hok Hq) as [Hl Hb].
  unfold ComputeIPPrefix. rewrite Hp, Hq. cbn zeta.
  replace (IP_Mask q (mkCIDRMask 24 32)) with (Some (masked 24 q)).
  - cbn [from_option id]. by rewrite masked_24.
  - by destruct q as [|w [|x [|y [|z [|]]]]].
Qed.

Lemma compute_v6 ip a : ParseIP ip = Some a → To4 a = None →
  ComputeIPPrefix ip = of_chars (IPNet_String (mkIPNet (take 8 a ++ replicate 8 0) (mkCIDRMask 64 128))).
Proof.
  intros Hp H4. pose proof (ParseIP_ok _ _ Hp) as Hok. unfold ComputeIPPrefix. rewrite Hp, H4. cbn zeta.
  rewrite mask_v6 by apply Hok. cbn [from_option id]. by rewrite masked_64.
Qed.

Lemma contains_v4 q b :
  length q = 4%nat → Forall byte_range q → ip_ok b →
  IPNet_Contains (mkIPNet (take 3 q ++ [0]) (mkCIDRMask 24 32)) b =
    match To4 b with Some r => bool_decide (take 3 q = take 3 r) | None => false end.
Proof.
  intros Hl Hq Hb. unfold IPNet_Contains.
  assert (Hn : length (take 3 q ++ [0]) = 4%nat) by (rewrite length_app, length_take, Hl; done).
  rewrite net_number_v4 by done. rewrite Hn. destruct (To4 b) as [r|] eqn:Er; cbn [from_option id].
  - destruct (To4_ok _ _ Hb Er) as [Hr Hrb]. rewrite Hr. cbn [Nat.eqb andb]. apply bool_decide_ext.
    rewrite !masked_24; [|done..|].
    2:{ apply Forall_app. split; [by apply Forall_take|by repeat constructor]. }
    destruct q as [|q0 [|q1 [|q2 [|q3 [|]]]]], r as [|r0 [|r1 [|r2 [|r3 [|]]]]]; try done.
    cbn. split; [by intros [= -> -> ->]|by intros [= -> -> ->]].
  - by rewrite (ip_len b Hb).
Qed.

Lemma contains_v6 a b :
  ip_ok a → To4 a = None → ip_ok b →
  IPNet_Contains (mkIPNet (take 8 a ++ replicate 8 0) (mkCIDRMask 64 128)) b =
    match To4 b with Some r => false | None => bool_decide (take 8 a = take 8 b) end.
Proof.
  intros Ha H4 Hb. pose proof Ha as [Hl Hab]. unfold IPNet_Contains.
  assert (Hn : length (take 8 a ++ replicate 8 0) = 16%nat) by (rewrite length_app, length_take, Hl; done).
  rewrite net_number_v6 by (try done; by apply To4_masked_64).
  rewrite Hn. destruct (To4 b) as [r|] eqn:Er; cbn [from_option id].
  - destruct (To4_ok _ _ Hb Er) as [Hr Hrb]. by rewrite Hr.
  - rewrite (ip_len b Hb). cbn [Nat.eqb andb]. apply bool_decide_ext. rewrite !masked_64; [|done|].
    2:{ split; [done|]. apply Forall_app. split; [by apply Forall_take|by apply Forall_replicate]. }
    rewrite take_app_le by (rewrite length_take, Hl; lia). rewrite take_take. change (8 `min` 8)%nat with 8%nat.
    split; [by intros E%app_inv_tail|by intros ->].
Qed.

Lemma computed_prefix_matches ip a ip' b :
  ParseIP ip = Some a → ParseIP ip' = Some b →
  prefix_matches (ComputeIPPrefix ip) ip' = Ok (same_network a b).
Proof.
  intros Ha Hb. pose proof (ParseIP_ok _ _ Ha) as Hoka. pose proof (ParseIP_ok _ _ Hb) as Hokb.
  unfold prefix_matches, same_network. destruct (To4 a) as [q|] eqn:Hq.
  - destruct (To4_ok _ _ Hoka Hq) as [Hl Hqb]. rewrite (compute_v4 _ _ _ Ha Hq).
    rewrite (proj2 (String.eqb_neq _ _) (IPNet_String_nonempty _ _)). by rewrite prefix_v4, Hb, contains_v4.
  - rewrite (compute_v6 _ _ Ha Hq).
    rewrite (proj2 (String.eqb_neq _ _) (IPNet_String_nonempty _ _)). by rewrite prefix_v6, Hb, contains_v6.
Qed.

(** A prefix consists of digits, dots, colons and a slash. *)
Definition addr_char (c : ascii) : Prop :=
  is_hex c ∨ c = char_dot ∨ c = char_colon ∨ c = char_slash.

Lemma digit_is_hex c : is_digit c → is_hex c.
Proof. unfold is_digit, is_hex, digit_val, hex_digit. intros [d Hd]. case_match; [by eexists|done]. Qed.

Lemma computed_prefix_chars ip : Forall addr_char (to_chars (ComputeIPPrefix ip)).
Proof.
  destruct (ParseIP ip) as [a|] eqn:Ha.
  2:{ unfold ComputeIPPrefix. rewrite Ha. constructor. }
  pose proof (ParseIP_ok _ _ Ha) as Hok. pose proof Hok as [Hl Hb].
  assert (Htail : ∀ n, 0 ≤ n → Forall addr_char (char_slash :: format_uint 10 n)).
  { intros n Hn. constructor; [by right; right; right|].
    eapply Forall_impl; [by apply format_uint_digits|]. intros c Hc. left. by apply digit_is_hex. }
  destruct (To4 a) as [q|] eqn:H4.
  - destruct (To4_ok _ _ Hok H4) as [Hq Hqb]. rewrite (compute_v4 _ _ _ Ha H4), to_of_chars.
    set (n := take 3 q ++ [0]).
    assert (Hn : length n = 4%nat) by (unfold n; rewrite length_app, length_take, Hq; done).
    unfold IPNet_String. rewrite net_number_v4 by done. unfold IP_String, To4. rewrite Hn. cbn [Nat.eqb].
    apply Forall_app. split; [|by apply Htail]. apply Forall_forall. intros c [?|?]%IPv4_String_chars.
    + by right; left.
    + left. by apply digit_is_hex.
    + apply Forall_app. split; [by apply Forall_take|by repeat constructor].
  - rewrite (compute_v6 _ _ Ha H4), to_of_chars.
    destruct (masked_text a Hok) as (gs & Htext & Hgs & _).
    unfold IPNet_String. rewrite net_number_v6; [|by rewrite length_app, length_take, Hl|by apply To4_masked_64].
    unfold IP_String. rewrite To4_masked_64, Htext by done.
    apply Forall_app. split; [|by apply Htail]. apply Forall_app. split.
    + apply Forall_forall. intros c [?|?]%hex_groups_chars; [by right; right; left|by left|done].
    + repeat constructor; by right; right; left.
Qed.
