(* ===== verification/GoHash.v ===== *)
(** * The hash functions of Go's standard library the program uses

    [crypto/md5] names the directories of the edge cache, [hash/fnv] (128-bit
    FNV-1a) feeds the Bloom filters, and [crypto/hmac] over [crypto/sha256] signs
    tokens.  All are executable; the examples at the end evaluate the published
    test vectors. *)

From S2P Require Import Prelude GoStrings.
From Stdlib Require Import Ascii.

(** ** 32-bit words *)
Definition add32 (a b : Z) : Z := u32 (a + b).
Definition not32 (a : Z) : Z := 4294967295 - a.
Definition rotl32 (a s : Z) : Z := Z.lor (u32 (Z.shiftl a s)) (Z.shiftr a (32 - s)).
Definition rotr32 (a s : Z) : Z := rotl32 a (32 - s).

(** Cuts a list into pieces of [n] elements. *)
Fixpoint chunks_of {A : Type} (n : nat) (fuel : nat) (l : list A) : list (list A) :=
  match fuel with
  | O => []
  | S fuel' => match l with [] => [] | _ => take n l :: chunks_of n fuel' (drop n l) end
  end.

(** Message padding of the Merkle-Damgard hashes: 0x80, zeros, 64-bit length. *)
Definition md_pad (len_bytes : Z → bytes) (m : bytes) : bytes :=
  let z := Z.to_nat ((55 - Z.of_nat (length m)) mod 64) in
  m ++ [byte.of_Z 128] ++ replicate z (byte.of_Z 0) ++ len_bytes (8 * Z.of_nat (length m)).

(** ** MD5 *)
Definition md5_K : list Z :=
  [3614090360; 3905402710; 606105819; 3250441966; 4118548399; 1200080426;
   2821735955; 4249261313; 1770035416; 2336552879; 4294925233; 2304563134;
   1804603682; 4254626195; 2792965006; 1236535329; 4129170786; 3225465664;
   643717713; 3921069994; 3593408605; 38016083; 3634488961; 3889429448;
   568446438; 3275163606; 4107603335; 1163531501; 2850285829; 4243563512;
   1735328473; 2368359562; 4294588738; 2272392833; 1839030562; 4259657740;
   2763975236; 1272893353; 4139469664; 3200236656; 681279174; 3936430074;
   3572445317; 76029189; 3654602809; 3873151461; 530742520; 3299628645;
   4096336452; 1126891415; 2878612391; 4237533241; 1700485571; 2399980690;
   4293915773; 2240044497; 1873313359; 4264355552; 2734768916; 1309151649;
   4149444226; 3174756917; 718787259; 3951481745].
Definition md5_S : list Z :=
  [7; 12; 17; 22; 7; 12; 17; 22; 7; 12; 17; 22; 7; 12; 17; 22;
   5; 9; 14; 20; 5; 9; 14; 20; 5; 9; 14; 20; 5; 9; 14; 20;
   4; 11; 16; 23; 4; 11; 16; 23; 4; 11; 16; 23; 4; 11; 16; 23;
   6; 10; 15; 21; 6; 10; 15; 21; 6; 10; 15; 21; 6; 10; 15; 21].

Definition md5_state : Type := (Z * Z * Z * Z)%type.

Definition md5_round (w : list Z) (st : md5_state) (i : nat) : md5_state :=
  let '(a, b, c, d) := st in
  let '(f, g) :=
    if (i <? 16)%nat then (Z.lor (Z.land b c) (Z.land (not32 b) d), i)
    else if (i <? 32)%nat then (Z.lor (Z.land d b) (Z.land (not32 d) c), ((5 * i + 1) mod 16)%nat)
    else if (i <? 48)%nat then (Z.lxor b (Z.lxor c d), ((3 * i + 5) mod 16)%nat)
    else (Z.lxor c (Z.lor b (not32 d)), ((7 * i) mod 16)%nat) in
  let f' := add32 (add32 f a) (add32 (md5_K !!! i) (w !!! g)) in
  (d, add32 b (rotl32 f' (md5_S !!! i)), b, c).

Definition md5_block (st : md5_state) (blk : bytes) : md5_state :=
  let w := map le_combine (chunks_of 4 16 blk) in
  let '(a, b, c, d) := foldl (md5_round w) st (seq 0 64) in
  let '(a0, b0, c0, d0) := st in
  (add32 a0 a, add32 b0 b, add32 c0 c, add32 d0 d).

(** [md5.Sum]. *)
Definition md5_sum (m : bytes) : bytes :=
  let p := md_pad (le_split 8) m in
  let '(a, b, c, d) :=
    foldl md5_block (1732584193, 4023233417, 2562383102, 271733878)
      (chunks_of 64 (length p) p) in
  le_split 4 a ++ le_split 4 b ++ le_split 4 c ++ le_split 4 d.

(** ** SHA-256 and HMAC *)
Definition sha256_K : list Z :=
  [1116352408; 1899447441; 3049323471; 3921009573; 961987163; 1508970993;
   2453635748; 2870763221; 3624381080; 310598401; 607225278; 1426881987;
   1925078388; 2162078206; 2614888103; 3248222580; 3835390401; 4022224774;
   264347078; 604807628; 770255983; 1249150122; 1555081692; 1996064986;
   2554220882; 2821834349; 2952996808; 3210313671; 3336571891; 3584528711;
   113926993; 338241895; 666307205; 773529912; 1294757372; 1396182291;
   1695183700; 1986661051; 2177026350; 2456956037; 2730485921; 2820302411;
   3259730800; 3345764771; 3516065817; 3600352804; 4094571909; 275423344;
   430227734; 506948616; 659060556; 883997877; 958139571; 1322822218;
   1537002063; 1747873779; 1955562222; 2024104815; 2227730452; 2361852424;
   2428436474; 2756734187; 3204031479; 3329325298].
Definition sha256_H0 : list Z :=
  [1779033703; 3144134277; 1013904242; 2773480762; 1359893119; 2600822924;
   528734635; 1541459225].

(** The message schedule: 48 more words after the first 16. *)
Fixpoint sha256_schedule (fuel : nat) (w : list Z) : list Z :=
  match fuel with
  | O => w
  | S fuel' =>
      let t := length w in
      let w15 := w !!! (t - 15)%nat in
      let w2 := w !!! (t - 2)%nat in
      let s0 := Z.lxor (rotr32 w15 7) (Z.lxor (rotr32 w15 18) (Z.shiftr w15 3)) in
      let s1 := Z.lxor (rotr32 w2 17) (Z.lxor (rotr32 w2 19) (Z.shiftr w2 10)) in
      sha256_schedule fuel'
        (w ++ [add32 (add32 (w !!! (t - 16)%nat) s0) (add32 (w !!! (t - 7)%nat) s1)])
  end.

Definition sha256_round (w st : list Z) (i : nat) : list Z :=
  match st with
  | [a; b; c; d; e; f; g; h] =>
      let s1 := Z.lxor (rotr32 e 6) (Z.lxor (rotr32 e 11) (rotr32 e 25)) in
      let ch := Z.lxor (Z.land e f) (Z.land (not32 e) g) in
      let t1 := add32 (add32 h s1) (add32 ch (add32 (sha256_K !!! i) (w !!! i))) in
      let s0 := Z.lxor (rotr32 a 2) (Z.lxor (rotr32 a 13) (rotr32 a 22)) in
      let maj := Z.lxor (Z.land a b) (Z.lxor (Z.land a c) (Z.land b c)) in
      let t2 := add32 s0 maj in
      [add32 t1 t2; a; b; c; add32 d t1; e; f; g]
  | _ => st
  end.

Definition sha256_block (st : list Z) (blk : bytes) : list Z :=
  let w := sha256_schedule 48 (map be_combine (chunks_of 4 16 blk)) in
  zip_with add32 st (foldl (sha256_round w) st (seq 0 64)).

(** [sha256.Sum256]. *)
Definition sha256_sum (m : bytes) : bytes :=
  let p := md_pad (be_split 8) m in
  mjoin (map (be_split 4) (foldl sha256_block sha256_H0 (chunks_of 64 (length p) p))).

(** [hmac.New(sha256.New, key)] applied to one message. *)
Definition hmac_sha256 (key m : bytes) : bytes :=
  let k0 := if (64 <? length key)%nat then sha256_sum key else key in
  let k := k0 ++ replicate (64 - length k0) (byte.of_Z 0) in
  let xor_with x b := byte.of_Z (Z.lxor (byte.unsigned b) x) in
  sha256_sum (map (xor_with 92) k ++ sha256_sum (map (xor_with 54) k ++ m)).

(** ** FNV-1a, 128 bits *)
Definition fnv128a_step (h : Z) (b : Init.Byte.byte) : Z :=
  (Z.lxor h (byte.unsigned b) * 309485009821345068724781371) mod 2 ^ 128.

(** [fnv.New128a], [Write(m)], [Sum(nil)]. *)
Definition fnv128a_sum (m : bytes) : bytes :=
  be_split 16 (foldl fnv128a_step 144066263297769815596495629667062367629 m).

(** ** Lower-case hexadecimal text, the verb [%x] on bytes *)
Definition hex_byte (b : Init.Byte.byte) : chars :=
  let z := byte.unsigned b in [digit_char (z / 16); digit_char (z mod 16)].
Definition hex_encode (m : bytes) : string := of_chars (mjoin (map hex_byte m)).

(** ** Lemmas *)
Lemma length_md5_sum m : length (md5_sum m) = 16%nat.
Proof.
  unfold md5_sum. destruct (foldl _ _ _) as [[[a b] c] d].
  by rewrite !length_app, !length_le_split.
Qed.

Lemma length_fnv128a_sum m : length (fnv128a_sum m) = 16%nat.
Proof. apply length_be_split. Qed.

(** ** The length of a digest *)
Lemma sha256_rounds_length w st l : length st = 8%nat → length (foldl (sha256_round w) st l) = 8%nat.
Proof.
  revert st. induction l as [|i l IH]; intros st Hst; [done|]. cbn [foldl]. apply IH.
  do 9 (destruct st as [|? st]; try done).
Qed.

Lemma sha256_blocks_length st l : length st = 8%nat → length (foldl sha256_block st l) = 8%nat.
Proof.
  revert st. induction l as [|b l IH]; intros st Hst; [done|]. cbn [foldl]. apply IH. unfold sha256_block.
  rewrite length_zip_with, sha256_rounds_length; lia.
Qed.

Lemma length_sha256 m : length (sha256_sum m) = 32%nat.
Proof.
  unfold sha256_sum. cbv zeta. set (ws := foldl _ _ _). assert (Hws : length ws = 8%nat) by (by apply sha256_blocks_length).
  clearbody ws. do 9 (destruct ws as [|? ws]; try done).
Qed.

(** ** Published test vectors *)
Example md5_empty : hex_encode (md5_sum []) = "d41d8cd98f00b204e9800998ecf8427e".
Proof. vm_compute. reflexivity. Qed.
Example md5_abc :
  hex_encode (md5_sum (bytes_of_string "abc")) = "900150983cd24fb0d6963f7d28e17f72".
Proof. vm_compute. reflexivity. Qed.
Example sha256_abc :
  hex_encode (sha256_sum (bytes_of_string "abc"))
  = "ba7816bf8f01cfea414140de5dae2223b00361a396177a9cb410ff61f20015ad".
Proof. vm_compute. reflexivity. Qed.
Example hmac_jefe :
  hex_encode (hmac_sha256 (bytes_of_string "Jefe") (bytes_of_string "what do ya want for nothing?"))
  = "5bdcc146bf60754e6a042426089575c75a003f089d2739839dec58b964ec3843".
Proof. vm_compute. reflexivity. Qed.
Example fnv128a_a :
  hex_encode (fnv128a_sum (bytes_of_string "a")) = "d228cb696f1a8caf78912b704e4a8964".
Proof. vm_compute. reflexivity. Qed.
