(* ===== verification/Bloom.v ===== *)
(** * Bloom filters of the content index ([internal/contentindex/bloom.go])

    [BloomFilter] keeps its 64-bit words, the number [k] of probes and the number
    [m] of bits.  The loops over the probes are recursions on the number of
    remaining probes; an out-of-range word index or a zero modulus is [Panic].
    The theorems: the constructors establish the well-formedness invariant,
    [Add] preserves it, no operation panics on a well-formed filter, there are no
    false negatives, and [Bytes] followed by [NewBloomFilterFromBytes] is the
    identity for the [k] the wire format allows. *)

From S2P Require Import Prelude GoFloat GoHash.
From Stdlib Require Import SpecFloat.

Record BloomFilter := mkBloomFilter {
  bf_bits : list Z;
  bf_k : Z;
  bf_m : Z
}.

#[export] Instance BloomFilter_eq_dec : EqDecision BloomFilter.
Proof. solve_decision. Defined.

(** [math.Ceil] of a float that fits an integer: truncation, plus one when a
    positive fraction was cut; conversion to [uint32] keeps the low 32 bits. *)
Definition ceil_u32 (x : float64) : Z :=
  let t := int_of_float x in
  if fltb (float_of_Z t) x then u32 (t + 1) else u32 t.

(** [math.Ln2] rounded to a [float64]. *)
Definition fln2 : float64 := S754_finite false 6243314768165359 (-53).
(** [math.Ln2 * math.Ln2], a constant expression rounded once. *)
Definition fln2_sq : float64 := S754_finite false 8655072057804175 (-54).

Section sizing.
(** [math.Log], whose last bits depend on the platform. *)
Variable math_Log : float64 → float64.

Definition optimalM (capacity : Z) (fpRate : float64) : Z :=
  let n := float_of_Z capacity in
  let p := math_Log fpRate in
  let m := fdiv (fmul (SFopp n) p) fln2_sq in
  let m := if fltb m (float_of_Z 64) then float_of_Z 64 else m in
  ceil_u32 m.

Definition optimalK (capacity m : Z) : Z :=
  let k := fmul (fdiv (float_of_Z m) (float_of_Z capacity)) fln2 in
  let k := if fltb k (float_of_Z 1) then float_of_Z 1 else k in
  ceil_u32 k.

Definition NewBloomFilter (capacity : Z) (fpRate : float64) : BloomFilter :=
  let m := optimalM capacity fpRate in
  let k := optimalK capacity m in
  let words := u32 (m + 63) / 64 in
  let words := if words =? 0 then 1 else words in
  let m := u32 (words * 64) in
  mkBloomFilter (replicate (Z.to_nat words) 0) k m.
End sizing.

(** [padded]: eight bytes, zero after the end of the data. *)
Definition padded8 (b : bytes) : bytes := b ++ replicate (8 - length b) (byte.of_Z 0).

Definition NewBloomFilterFromBytes (data : bytes) (k : Z) : BloomFilter :=
  let k := if 100 <? k then 1 else k in
  let words := ((length data + 7) / 8)%nat in
  let words := if (words =? 0)%nat then 1%nat else words in
  let bits := (λ i, le_combine (padded8 (take 8 (drop (i * 8) data)))) <$> seq 0 words in
  mkBloomFilter bits k (u32 (Z.of_nat words * 64)).

(** [bf.hash]: the two halves of the FNV-128a sum, read little-endian. *)
Definition BloomFilter_hash (key : bytes) : Z * Z :=
  let sum := fnv128a_sum key in
  (le_combine (take 8 sum), le_combine (drop 8 sum)).

(** [(h1 + uint64(i)*h2) % uint64(bf.m)]. *)
Definition probe_pos (h1 h2 m i : Z) : Z := u64 (h1 + u64 (i * h2)) mod m.

Fixpoint add_probes (n : nat) (i h1 h2 m : Z) (bits : list Z) : result (list Z) :=
  match n with
  | O => Ok bits
  | S n' =>
      if m =? 0 then Panic
      else
        let pos := probe_pos h1 h2 m i in
        match bits !! Z.to_nat (pos / 64) with
        | None => Panic
        | Some w =>
            add_probes n' (i + 1) h1 h2 m
              (<[Z.to_nat (pos / 64) := Z.lor w (Z.shiftl 1 (pos mod 64))]> bits)
        end
  end.

Definition BloomFilter_Add (bf : BloomFilter) (key : bytes) : result BloomFilter :=
  let '(h1, h2) := BloomFilter_hash key in
  let! bits := add_probes (Z.to_nat (bf_k bf)) 0 h1 h2 (bf_m bf) (bf_bits bf) in
  Ok (mkBloomFilter bits (bf_k bf) (bf_m bf)).

Definition BloomFilter_AddString (bf : BloomFilter) (s : string) : result BloomFilter :=
  BloomFilter_Add bf (bytes_of_string s).

Fixpoint test_probes (n : nat) (i h1 h2 m : Z) (bits : list Z) : result bool :=
  match n with
  | O => Ok true
  | S n' =>
      if m =? 0 then Panic
      else
        let pos := probe_pos h1 h2 m i in
        match bits !! Z.to_nat (pos / 64) with
        | None => Panic
        | Some w =>
            if Z.land w (Z.shiftl 1 (pos mod 64)) =? 0 then Ok false
            else test_probes n' (i + 1) h1 h2 m bits
        end
  end.

Definition BloomFilter_Contains (bf : BloomFilter) (key : bytes) : result bool :=
  let '(h1, h2) := BloomFilter_hash key in
  test_probes (Z.to_nat (bf_k bf)) 0 h1 h2 (bf_m bf) (bf_bits bf).

Definition BloomFilter_ContainsString (bf : BloomFilter) (s : string) : result bool :=
  BloomFilter_Contains bf (bytes_of_string s).

Definition BloomFilter_Bytes (bf : BloomFilter) : bytes :=
  mjoin (le_split 8 <$> bf_bits bf).

Definition BloomFilter_K (bf : BloomFilter) : Z := bf_k bf.
Definition BloomFilter_M (bf : BloomFilter) : Z := bf_m bf.

(** A sequence of insertions. *)
Fixpoint add_all (bf : BloomFilter) (keys : list bytes) : result BloomFilter :=
  match keys with
  | [] => Ok bf
  | key :: keys' => let! bf' := BloomFilter_Add bf key in add_all bf' keys'
  end.

(** ** Invariant *)
Record bloom_wf (bf : BloomFilter) : Prop := {
  wf_words : (0 < length (bf_bits bf))%nat;
  wf_m : bf_m bf = 64 * Z.of_nat (length (bf_bits bf));
  wf_m_range : bf_m bf < 2 ^ 32;
  wf_bits : Forall is_u64 (bf_bits bf);
  wf_k : is_u32 (bf_k bf)
}.

(** Bit [p] of the filter. *)
Definition bit_set (bits : list Z) (p : Z) : Prop :=
  Z.testbit (bits !!! Z.to_nat (p / 64)) (p mod 64) = true.

Definition has_key (bf : BloomFilter) (key : bytes) : Prop :=
  let '(h1, h2) := BloomFilter_hash key in
  ∀ i, 0 ≤ i < bf_k bf → bit_set (bf_bits bf) (probe_pos h1 h2 (bf_m bf) i).

Lemma probe_pos_range h1 h2 m i : 0 < m → 0 ≤ probe_pos h1 h2 m i < m.
Proof. intros. by apply Z.mod_pos_bound. Qed.

Lemma probe_word_range h1 h2 (bits : list Z) i :
  (0 < length bits)%nat →
  (Z.to_nat (probe_pos h1 h2 (64 * Z.of_nat (length bits)) i / 64) < length bits)%nat.
Proof.
  intros Hl. pose proof (probe_pos_range h1 h2 (64 * Z.of_nat (length bits)) i ltac:(lia)) as Hp.
  set (p := probe_pos _ _ _ _) in *.
  pose proof (Z.div_pos p 64 ltac:(lia) ltac:(lia)).
  pose proof (Z.div_lt_upper_bound p 64 (Z.of_nat (length bits)) ltac:(lia) ltac:(lia)).
  lia.
Qed.

Lemma shiftl_1_testbit s i : 0 ≤ s → Z.testbit (Z.shiftl 1 s) i = bool_decide (i = s).
Proof.
  intros Hs. rewrite Z.shiftl_1_l. case_bool_decide as Hi; subst.
  - by apply Z.pow2_bits_true.
  - apply Z.pow2_bits_false. lia.
Qed.

Lemma land_bit_zero w s : 0 ≤ s → Z.land w (Z.shiftl 1 s) = 0 ↔ Z.testbit w s = false.
Proof.
  intros Hs. split.
  - intros Hl. apply (f_equal (λ z, Z.testbit z s)) in Hl.
    rewrite Z.land_spec, shiftl_1_testbit, bool_decide_eq_true_2, andb_true_r in Hl by done.
    by rewrite Z.bits_0 in Hl.
  - intros Hb. apply Z.bits_inj. intros i.
    rewrite Z.land_spec, Z.bits_0, shiftl_1_testbit by done.
    case_bool_decide; subst; [by rewrite Hb|by rewrite andb_false_r].
Qed.

Lemma lor_u64 w s : is_u64 w → 0 ≤ s < 64 → is_u64 (Z.lor w (Z.shiftl 1 s)).
Proof.
  intros Hw Hs. unfold is_u64 in *. rewrite Z.shiftl_1_l.
  assert (0 < 2 ^ s) by (apply Z.pow_pos_nonneg; lia).
  assert (0 ≤ Z.lor w (2 ^ s)) by (apply Z.lor_nonneg; lia).
  split; [done|].
  destruct (decide (Z.lor w (2 ^ s) = 0)) as [->|]; [done|].
  apply Z.log2_lt_pow2; [lia|]. rewrite Z.log2_lor by lia.
  rewrite Z.log2_pow2 by lia. apply Z.max_lub_lt; [|lia].
  destruct (decide (w = 0)) as [->|]; [done|]. apply Z.log2_lt_pow2; lia.
Qed.

(** Setting a bit keeps the bits that were set. *)
Lemma bit_set_mono bits p q :
  bit_set bits q → bit_set (<[Z.to_nat (p / 64) :=
    Z.lor (bits !!! Z.to_nat (p / 64)) (Z.shiftl 1 (p mod 64))]> bits) q.
Proof.
  unfold bit_set. intros Hq.
  destruct (decide (Z.to_nat (q / 64) = Z.to_nat (p / 64))) as [E|Hne]; [rewrite E in *|].
  - destruct (decide (Z.to_nat (p / 64) < length bits)%nat) as [Hl|Hl].
    + rewrite list_lookup_total_insert_eq by done. by rewrite Z.lor_spec, Hq.
    + rewrite list_insert_ge by lia. done.
  - by rewrite list_lookup_total_insert_ne by done.
Qed.

Lemma bit_set_self bits p :
  (Z.to_nat (p / 64) < length bits)%nat →
  bit_set (<[Z.to_nat (p / 64) :=
    Z.lor (bits !!! Z.to_nat (p / 64)) (Z.shiftl 1 (p mod 64))]> bits) p.
Proof.
  intros Hl. unfold bit_set. rewrite list_lookup_total_insert_eq by done.
  pose proof (Z.mod_pos_bound p 64 ltac:(lia)).
  rewrite Z.lor_spec, shiftl_1_testbit, bool_decide_eq_true_2 by lia. apply orb_true_r.
Qed.

(** The insertion loop: it does not panic, keeps the words in range, keeps the
    set bits and sets the probed ones. *)
Lemma add_probes_spec n i h1 h2 m bits :
  (0 < length bits)%nat → m = 64 * Z.of_nat (length bits) → Forall is_u64 bits →
  ∃ bits', add_probes n i h1 h2 m bits = Ok bits' ∧ length bits' = length bits ∧
    Forall is_u64 bits' ∧ (∀ q, bit_set bits q → bit_set bits' q) ∧
    ∀ j, i ≤ j < i + Z.of_nat n → bit_set bits' (probe_pos h1 h2 m j).
Proof.
  revert i bits. induction n as [|n IH]; intros i bits Hl Hm Hb.
  { exists bits. split_and!; auto. intros; lia. }
  cbn [add_probes]. destruct (m =? 0) eqn:Em; bool_to_prop; [lia|].
  pose proof (probe_word_range h1 h2 bits i Hl) as Hw. rewrite <- Hm in Hw.
  set (p := probe_pos h1 h2 m i) in *.
  assert (Hlk := Hw). apply list_lookup_lookup_total_lt in Hlk. rewrite Hlk.
  pose proof (Z.mod_pos_bound p 64 ltac:(lia)).
  set (bits1 := <[_ := _]> bits).
  destruct (IH (i + 1) bits1) as (bits' & Hadd & Hlen & Hb' & Hmono & Hset).
  { subst bits1. by rewrite length_insert. }
  { subst bits1. by rewrite length_insert. }
  { subst bits1. apply Forall_insert; [done|]. apply lor_u64; [|lia].
    by eapply Forall_lookup_1. }
  exists bits'. split_and!; [done| |done| |].
  - subst bits1. by rewrite Hlen, length_insert.
  - intros q Hq. apply Hmono. by apply bit_set_mono.
  - intros j Hj. destruct (decide (j = i)) as [->|]; [|apply Hset; lia].
    apply Hmono. by apply bit_set_self.
Qed.

Lemma test_probes_spec n i h1 h2 m bits :
  (0 < length bits)%nat → m = 64 * Z.of_nat (length bits) →
  ∃ b, test_probes n i h1 h2 m bits = Ok b ∧
    (b = true ↔ ∀ j, i ≤ j < i + Z.of_nat n → bit_set bits (probe_pos h1 h2 m j)).
Proof.
  intros Hl Hm. revert i. induction n as [|n IH]; intros i.
  { exists true. split; [done|]. split; [intros _ j; lia|done]. }
  cbn [test_probes]. destruct (m =? 0) eqn:Em; bool_to_prop; [lia|].
  pose proof (probe_word_range h1 h2 bits i Hl) as Hw. rewrite <- Hm in Hw.
  set (p := probe_pos h1 h2 m i) in *.
  apply list_lookup_lookup_total_lt in Hw. rewrite Hw.
  pose proof (Z.mod_pos_bound p 64 ltac:(lia)).
  destruct (Z.land _ _ =? 0) eqn:E; bool_to_prop.
  - exists false. split; [done|]. split; [done|]. intros Hall.
    apply land_bit_zero in E; [|lia].
    specialize (Hall i ltac:(lia)). unfold bit_set in Hall. fold p in Hall. congruence.
  - destruct (IH (i + 1)) as (b & Ht & Hb). exists b. split; [done|]. rewrite Hb. split.
    + intros Hall j Hj. destruct (decide (j = i)) as [->|]; [|apply Hall; lia].
      unfold bit_set. fold p. destruct (Z.testbit _ _) eqn:Eb; [done|].
      exfalso. apply E. apply land_bit_zero; [lia|done].
    + intros Hall j Hj. apply Hall. lia.
Qed.

Lemma bloom_Add_spec bf key :
  bloom_wf bf →
  ∃ bf', BloomFilter_Add bf key = Ok bf' ∧ bloom_wf bf' ∧ has_key bf' key ∧
    bf_k bf' = bf_k bf ∧ bf_m bf' = bf_m bf ∧ (∀ key', has_key bf key' → has_key bf' key').
Proof.
  intros [Hw Hm Hr Hb Hk]. unfold BloomFilter_Add, has_key.
  destruct (BloomFilter_hash key) as [h1 h2].
  destruct (add_probes_spec (Z.to_nat (bf_k bf)) 0 h1 h2 (bf_m bf) (bf_bits bf) Hw Hm Hb)
    as (bits' & Hadd & Hlen & Hb' & Hmono & Hset).
  unfold is_u32 in Hk. rewrite Z2Nat.id in Hset by lia.
  exists (mkBloomFilter bits' (bf_k bf) (bf_m bf)). rewrite Hadd. simpl. split_and!; auto.
  { constructor; simpl; rewrite ?Hlen; done. }
Qed.

Lemma bloom_Contains_spec bf key :
  bloom_wf bf → ∃ b, BloomFilter_Contains bf key = Ok b ∧ (b = true ↔ has_key bf key).
Proof.
  intros [Hw Hm Hr Hb Hk]. unfold BloomFilter_Contains, has_key.
  destruct (BloomFilter_hash key) as [h1 h2].
  destruct (test_probes_spec (Z.to_nat (bf_k bf)) 0 h1 h2 (bf_m bf) (bf_bits bf) Hw Hm)
    as (b & Ht & Hb').
  exists b. split; [done|]. unfold is_u32 in Hk. rewrite Z2Nat.id in Hb' by lia. done.
Qed.

Lemma add_all_spec bf keys :
  bloom_wf bf → ∃ bf', add_all bf keys = Ok bf' ∧ bloom_wf bf' ∧ bf_k bf' = bf_k bf ∧
    (∀ key, has_key bf key → has_key bf' key) ∧ ∀ key, key ∈ keys → has_key bf' key.
Proof.
  revert bf. induction keys as [|key keys IH]; intros bf Hwf.
  { exists bf. split_and!; auto. intros ? []%not_elem_of_nil. }
  destruct (bloom_Add_spec bf key Hwf) as (bf1 & Hadd & Hwf1 & Hkey & Hk1 & _ & Hmono1).
  destruct (IH bf1 Hwf1) as (bf' & Hall & Hwf' & Hk' & Hmono & Hin).
  exists bf'. cbn [add_all]. rewrite Hadd. simpl. split_and!; auto; [congruence|].
  intros key' [->|Hin']%elem_of_cons; auto.
Qed.

(** ** Constructors *)
Lemma NewBloomFilter_wf math_Log capacity fpRate :
  bloom_wf (NewBloomFilter math_Log capacity fpRate).
Proof.
  unfold NewBloomFilter.
  set (m0 := optimalM _ _ _).
  pose proof (u32_range (m0 + 63)) as Hr. unfold is_u32 in Hr.
  set (w0 := u32 (m0 + 63) / 64).
  assert (Hw0 : 0 ≤ w0 < 2 ^ 26).
  { subst w0. split; [apply Z.div_pos; lia|apply Z.div_lt_upper_bound; lia]. }
  set (w := if w0 =? 0 then 1 else w0).
  assert (Hw : 0 < w < 2 ^ 26) by (subst w; destruct (w0 =? 0) eqn:E; bool_to_prop; lia).
  constructor; simpl; rewrite ?length_replicate.
  - lia.
  - rewrite u32_id by (unfold is_u32; lia). lia.
  - pose proof (u32_range (w * 64)). unfold is_u32 in *. lia.
  - apply Forall_replicate. unfold is_u64. lia.
  - unfold optimalK, ceil_u32. case_match; apply u32_range.
Qed.

Lemma padded8_length b : (length b ≤ 8)%nat → length (padded8 b) = 8%nat.
Proof. intros. unfold padded8. rewrite length_app, length_replicate. lia. Qed.

Lemma NewBloomFilterFromBytes_wf data k :
  Z.of_nat (length data) < 2 ^ 28 → is_u32 k → bloom_wf (NewBloomFilterFromBytes data k).
Proof.
  intros Hl Hk. unfold NewBloomFilterFromBytes.
  set (w0 := ((length data + 7) / 8)%nat).
  assert (Hw0 : Z.of_nat w0 < 2 ^ 26).
  { subst w0. pose proof (Nat.div_mod_eq (length data + 7) 8). lia. }
  set (w := if (w0 =? 0)%nat then 1%nat else w0).
  assert (Hw : 0 < Z.of_nat w < 2 ^ 26).
  { subst w. destruct (w0 =? 0)%nat eqn:E; [lia|]. apply Nat.eqb_neq in E. lia. }
  assert (Hu : u32 (Z.of_nat w * 64) = Z.of_nat w * 64) by (apply u32_id; unfold is_u32; lia).
  constructor; simpl; rewrite ?length_fmap, ?length_seq, ?Hu; try lia.
  - apply Forall_fmap, Forall_forall. intros i _. simpl. unfold is_u64.
    pose proof (le_combine_bound (padded8 (take 8 (drop (i * 8) data)))) as Hb.
    rewrite padded8_length in Hb by (rewrite length_take; lia). exact Hb.
  - unfold is_u32 in *. case_match; lia.
Qed.

Lemma mjoin_words_length (ws : list Z) :
  length (mjoin (le_split 8 <$> ws)) = (8 * length ws)%nat.
Proof.
  induction ws as [|w ws IH]; [done|].
  change (length (le_split 8 w ++ mjoin (le_split 8 <$> ws)) = (8 * S (length ws))%nat).
  rewrite length_app, length_le_split, IH. lia.
Qed.

Lemma drop_mjoin_words (ws : list Z) i :
  drop (i * 8) (mjoin (le_split 8 <$> ws)) = mjoin (le_split 8 <$> drop i ws).
Proof.
  revert ws. induction i as [|i IH]; intros ws; [by rewrite !drop_0|].
  destruct ws as [|w ws]; [by rewrite !drop_nil|].
  cbn [fmap list_fmap mjoin list_join drop].
  replace (S i * 8)%nat with (8 + i * 8)%nat by lia.
  rewrite <- drop_drop. rewrite drop_app_length' by (by rewrite length_le_split). apply IH.
Qed.

Lemma word_of_bytes (ws : list Z) i w :
  Forall is_u64 ws → ws !! i = Some w →
  le_combine (padded8 (take 8 (drop (i * 8) (mjoin (le_split 8 <$> ws))))) = w.
Proof.
  intros Hws Hi. rewrite drop_mjoin_words, (drop_S _ _ _ Hi).
  cbn [fmap list_fmap mjoin list_join].
  rewrite take_app_length' by (by rewrite length_le_split).
  unfold padded8. rewrite length_le_split.
  change (replicate (8 - 8) (byte.of_Z 0)) with (@nil Init.Byte.byte).
  rewrite app_nil_r, le_combine_split.
  apply Z.mod_small. apply (Forall_lookup_1 _ _ _ _ Hws Hi).
Qed.

Lemma words_of_length n : (((8 * n + 7) / 8) = n)%nat.
Proof.
  replace (8 * n + 7)%nat with (7 + n * 8)%nat by lia. rewrite Nat.div_add by lia. done.
Qed.

Lemma bytes_roundtrip bf :
  bloom_wf bf →
  NewBloomFilterFromBytes (BloomFilter_Bytes bf) (BloomFilter_K bf) =
    mkBloomFilter (bf_bits bf) (if 100 <? bf_k bf then 1 else bf_k bf) (bf_m bf).
Proof.
  intros [Hw Hm Hr Hb Hk]. unfold NewBloomFilterFromBytes, BloomFilter_Bytes, BloomFilter_K.
  rewrite mjoin_words_length, words_of_length.
  destruct (length (bf_bits bf) =? 0)%nat eqn:E; [apply Nat.eqb_eq in E; lia|].
  f_equal.
  - apply list_eq. intros i. rewrite list_lookup_fmap.
    destruct (decide (i < length (bf_bits bf))%nat) as [Hi|Hi].
    + rewrite lookup_seq_lt by done. simpl.
      destruct (lookup_lt_is_Some_2 _ _ Hi) as [w Hw']. rewrite Hw'. f_equal.
      by apply word_of_bytes.
    + rewrite lookup_seq_ge by lia. rewrite lookup_ge_None_2 by lia. done.
  - rewrite Hm. rewrite u32_id; [lia|]. unfold is_u32. lia.
Qed.

Lemma roundtrip_wf bf :
  bloom_wf bf → bf_k bf ≤ 100 →
  NewBloomFilterFromBytes (BloomFilter_Bytes bf) (BloomFilter_K bf) = bf.
Proof.
  intros Hwf Hk. rewrite bytes_roundtrip by done.
  destruct (100 <? bf_k bf) eqn:E; bool_to_prop; [lia|]. by destruct bf.
Qed.

(** ** Properties *)

(** every filter built by [NewBloomFilter], whatever its
    capacity, false-positive rate and logarithm, satisfies the well-formedness
    invariant: at least one word, [m] is exactly 64 bits per word and fits
    [uint32], every word fits [uint64]; and inserting any sequence of keys never
    panics and preserves the invariant. *)
Theorem bloom_invariant math_Log capacity fpRate keys :
  bloom_wf (NewBloomFilter math_Log capacity fpRate) ∧
  ∃ bf, add_all (NewBloomFilter math_Log capacity fpRate) keys = Ok bf ∧ bloom_wf bf.
Proof.
  split; [apply NewBloomFilter_wf|].
  destruct (add_all_spec (NewBloomFilter math_Log capacity fpRate) keys) as (bf & ? & ? & _);
    [apply NewBloomFilter_wf|]. by exists bf.
Qed.

(** a Bloom filter has no false negatives: after inserting
    [keys] into a well-formed filter, the lookup of any of them returns true,
    and no lookup panics. *)
Theorem bloom_no_false_negatives bf keys bf' key :
  bloom_wf bf → add_all bf keys = Ok bf' →
  no_panic (BloomFilter_Contains bf' key) ∧
  (key ∈ keys → BloomFilter_Contains bf' key = Ok true).
Proof.
  intros Hwf Hadd. destruct (add_all_spec bf keys Hwf) as (bf1 & Hadd1 & Hwf' & _ & _ & Hin).
  assert (bf1 = bf') as -> by congruence.
  destruct (bloom_Contains_spec bf' key Hwf') as (b & Hc & Hb).
  rewrite Hc. split; [done|]. intros Hkey. f_equal. apply Hb. by apply Hin.
Qed.

(** Serialising the words of a well-formed filter and rebuilding
    it from those bytes with its own [k] gives the same filter, for every [k]
    the receiver accepts ([k <= 100]); a larger [k] is replaced by one probe. *)
Theorem bloom_bytes_roundtrip bf :
  bloom_wf bf →
  NewBloomFilterFromBytes (BloomFilter_Bytes bf) (BloomFilter_K bf) =
    mkBloomFilter (bf_bits bf) (if 100 <? bf_k bf then 1 else bf_k bf) (bf_m bf).
Proof.
  apply bytes_roundtrip.
Qed.

(** ** Witnesses *)
Definition example_log (x : float64) : float64 := float_of_Z (-3).

Lemma bloom_no_false_negatives_witness :
  let bf := NewBloomFilter example_log 100 (float_const 5 100) in
  ∃ bf', add_all bf [bytes_of_string "a"; bytes_of_string "b"] = Ok bf' ∧
    BloomFilter_Contains bf' (bytes_of_string "a") = Ok true.
Proof.
  pose proof (NewBloomFilter_wf example_log 100 (float_const 5 100)) as Hwf.
  destruct (add_all_spec _ [bytes_of_string "a"; bytes_of_string "b"] Hwf) as (bf' & Hadd & _).
  exists bf'. split; [exact Hadd|].
  apply (bloom_no_false_negatives _ _ _ _ Hwf Hadd). left.
Defined.

Lemma bloom_bytes_roundtrip_witness :
  let bf := NewBloomFilter example_log 100 (float_const 5 100) in
  NewBloomFilterFromBytes (BloomFilter_Bytes bf) (BloomFilter_K bf) = bf.
Proof.
  assert (Hwf : bloom_wf (NewBloomFilter example_log 100 (float_const 5 100)))
    by apply NewBloomFilter_wf.
  pose proof (bloom_bytes_roundtrip _ Hwf) as Hrt. cbv zeta. rewrite Hrt. reflexivity.
Defined.
