(* ===== verification/ContentIndex.v ===== *)
(** * The content index ([internal/contentindex/bloom.go] and [store.go])

    [ContentIndex] maps a node to its set of hot keys, its Bloom filter and its
    number of cached keys.  [Store] adds the two PostgreSQL tables behind it; a
    database error is an argument of the operation that can meet it.  The
    scheduler sees the index through the Go interface [ContentIndexLookup], here
    a class with the law that the per-dispatch lookup [FindNodesWithKey] agrees
    with the per-node lookup [IsCached]; this file proves that the in-memory
    index satisfies it. *)

From S2P Require Import Prelude Bloom.

(** [map[string]bool] read with [m[k]]: absent keys are false. *)
Definition bool_map_get (m : gmap string bool) (k : string) : bool := default false (m !! k).

(** The Go interface of [controlplane/scheduler.go]. *)
Class ContentIndexLookup (CI : Type) := {
  ci_IsCached : CI → string → string → bool * bool;
  ci_FindNodesWithKey : CI → string → gmap string bool * gmap string bool
}.

(** What the scheduler relies on: one batch lookup is as good as a lookup per
    node, and the two answers of a batch are disjoint. *)
Class ContentIndexLaws (CI : Type) `{ContentIndexLookup CI} : Prop := {
  ci_find_hot : ∀ ci key id,
    bool_map_get (ci_FindNodesWithKey ci key).1 id = (ci_IsCached ci id key).1;
  ci_find_bloom : ∀ ci key id,
    bool_map_get (ci_FindNodesWithKey ci key).2 id =
      negb (ci_IsCached ci id key).1 && (ci_IsCached ci id key).2;
  ci_hot_cached : ∀ ci key id,
    (ci_IsCached ci id key).1 = true → (ci_IsCached ci id key).2 = true
}.

(** [ContentSummaryData]; [None] is a nil slice. *)
Record ContentSummaryData := mkContentSummaryData {
  csd_HotKeys : option (list string);
  csd_BloomBytes : option bytes;
  csd_BloomK : Z;
  csd_TotalKeys : Z
}.

Record ContentIndex := mkContentIndex {
  hotKeys : gmap string (gset string);
  blooms : gmap string BloomFilter;
  totalKeys : gmap string Z
}.

Definition NewContentIndex : ContentIndex := mkContentIndex ∅ ∅ ∅.

Definition ContentIndex_Update (ci : ContentIndex) (nodeID : string)
    (summary : ContentSummaryData) : ContentIndex :=
  let hot :=
    match csd_HotKeys summary with
    | Some ks => <[nodeID := list_to_set ks]> (hotKeys ci)
    | None => hotKeys ci
    end in
  let bl :=
    match csd_BloomBytes summary with
    | Some data =>
        if 0 <? csd_BloomK summary
        then <[nodeID := NewBloomFilterFromBytes data (csd_BloomK summary)]> (blooms ci)
        else blooms ci
    | None => blooms ci
    end in
  mkContentIndex hot bl (<[nodeID := csd_TotalKeys summary]> (totalKeys ci)).

(** [bf.ContainsString(key)]; on the filters of a valid index it never panics. *)
Definition bloom_hit (bf : BloomFilter) (key : string) : bool :=
  match BloomFilter_ContainsString bf key with Ok b => b | _ => false end.

Definition ContentIndex_IsCached (ci : ContentIndex) (nodeID key : string) : bool * bool :=
  if match hotKeys ci !! nodeID with Some ks => bool_decide (key ∈ ks) | None => false end
  then (true, true)
  else if match blooms ci !! nodeID with Some bf => bloom_hit bf key | None => false end
  then (false, true)
  else (false, false).

Definition ContentIndex_FindNodesWithKey (ci : ContentIndex) (key : string)
    : gmap string bool * gmap string bool :=
  let hot := omap (λ ks, if bool_decide (key ∈ ks) then Some true else None) (hotKeys ci) in
  let bloom := map_imap (λ id bf,
    if bool_map_get hot id then None
    else if bloom_hit bf key then Some true else None) (blooms ci) in
  (hot, bloom).

(** The order of the two slices is Go's map iteration order; the model lists the
    keys in the order of the finite map. *)
Definition ContentIndex_FindNodesWithKeySlice (ci : ContentIndex) (key : string)
    : list string * list string :=
  let '(hot, bloom) := ContentIndex_FindNodesWithKey ci key in
  ((map_to_list hot).*1, (map_to_list bloom).*1).

Definition ContentIndex_RemoveNode (ci : ContentIndex) (nodeID : string) : ContentIndex :=
  mkContentIndex (delete nodeID (hotKeys ci)) (delete nodeID (blooms ci))
    (delete nodeID (totalKeys ci)).

#[export] Instance ContentIndex_lookup : ContentIndexLookup ContentIndex := {
  ci_IsCached := ContentIndex_IsCached;
  ci_FindNodesWithKey := ContentIndex_FindNodesWithKey
}.

(** ** The store: tables [content_index] and [content_bloom] *)
Record ContentRow := mkContentRow { cr_is_hot : bool; cr_last_seen_at : Z }.
Record BloomRow := mkBloomRow {
  br_bloom_data : bytes;
  br_bloom_k : Z;
  br_total_keys : Z;
  br_updated_at : Z
}.

Record Store := mkStore {
  st_index : ContentIndex;
  st_content_index : gmap (string * string) ContentRow;
  st_content_bloom : gmap string BloomRow;
  st_stopped : bool
}.

(** [models.ContentSummary]. *)
Record ContentSummary := mkContentSummary {
  cs_NodeID : string;
  cs_HotKeys : option (list string);
  cs_BloomFilter : option bytes;
  cs_BloomK : Z;
  cs_TotalKeys : Z;
  cs_UpdatedAt : Z
}.

(** Which statements of [UpsertSummary] the database executes. *)
Record UpsertDB := mkUpsertDB {
  db_upsert_ok : bool;
  db_delete_ok : bool;
  db_insert_ok : string → bool
}.

(** [INSERT ... ON CONFLICT (node_id, content_key) DO UPDATE SET last_seen_at]. *)
Definition insert_hot_key (nodeID : string) (now : Z) (ok : string → bool)
    (t : gmap (string * string) ContentRow) (key : string) : gmap (string * string) ContentRow :=
  if ok key then
    match t !! (nodeID, key) with
    | Some r => <[(nodeID, key) := mkContentRow (cr_is_hot r) now]> t
    | None => <[(nodeID, key) := mkContentRow true now]> t
    end
  else t.

Definition accepted_k (k : Z) : Z := if (0 <? k) && (k <=? 100) then k else 0.

Definition Store_UpsertSummary (s : Store) (db : UpsertDB) (now : Z) (summary : ContentSummary)
    : result unit * Store :=
  let bloomK := accepted_k (cs_BloomK summary) in
  match cs_BloomFilter summary with
  | None => (Err "upsert bloom", s)   (* bloom_data BYTEA NOT NULL *)
  | Some data =>
      if negb (db_upsert_ok db) then (Err "upsert bloom", s)
      else
        let tb := <[cs_NodeID summary :=
                    mkBloomRow data bloomK (cs_TotalKeys summary) now]> (st_content_bloom s) in
        let s1 := mkStore (st_index s) (st_content_index s) tb (st_stopped s) in
        if negb (db_delete_ok db) then (Err "delete old hot keys", s1)
        else
          let ti := filter (λ '(nk, r), ¬ (nk.1 = cs_NodeID summary ∧ cr_is_hot r = true))
                      (st_content_index s) in
          let ti := foldl (insert_hot_key (cs_NodeID summary) now (db_insert_ok db)) ti
                      (default [] (cs_HotKeys summary)) in
          let csd :=
            if (0 <? length data)%nat
            then mkContentSummaryData (cs_HotKeys summary) (Some data) bloomK (cs_TotalKeys summary)
            else mkContentSummaryData (cs_HotKeys summary) None 0 (cs_TotalKeys summary) in
          (Ok tt, mkStore (ContentIndex_Update (st_index s) (cs_NodeID summary) csd)
                    ti tb (st_stopped s))
  end.

(** [DELETE FROM content_index / content_bloom WHERE node_id = $1], then the index. *)
Definition Store_RemoveNode (s : Store) (del_index_ok del_bloom_ok : bool) (nodeID : string)
    : result unit * Store :=
  if negb del_index_ok then (Err "delete content_index", s)
  else
    let ti := filter (λ '(nk, _), nk.1 ≠ nodeID) (st_content_index s) in
    let s1 := mkStore (st_index s) ti (st_content_bloom s) (st_stopped s) in
    if negb del_bloom_ok then (Err "delete content_bloom", s1)
    else (Ok tt, mkStore (ContentIndex_RemoveNode (st_index s) nodeID) ti
                   (delete nodeID (st_content_bloom s)) (st_stopped s)).

(** The memory answers first; only when it knows no node at all is every stored
    filter scanned (rows with [bloom_k] 0 or above 100 are skipped). *)
Definition Store_FindNodesWithKey (s : Store) (query_ok : bool) (key : string)
    : result (list string) :=
  let '(hotNodes, bloomNodes) := ContentIndex_FindNodesWithKeySlice (st_index s) key in
  if (0 <? length hotNodes)%nat then Ok hotNodes
  else if (0 <? length bloomNodes)%nat then Ok bloomNodes
  else if negb query_ok then Err "query content_bloom"
  else Ok (map_to_list (filter (λ '(_, r),
        negb ((br_bloom_k r =? 0) || (100 <? br_bloom_k r)) &&
        bloom_hit (NewBloomFilterFromBytes (br_bloom_data r) (br_bloom_k r)) key = true)
        (st_content_bloom s))).*1.

(** One row of [LoadAll]: the hot keys are what the driver delivers for the
    aggregated column, [None] for a row it cannot scan. *)
Definition load_row (scan : list string → option (option (list string)))
    (s : Store) (ci : ContentIndex) (nodeID : string) (r : BloomRow) : ContentIndex :=
  let keys := (λ '(nk, _), nk.2) <$>
    map_to_list (filter (λ '(nk, c), nk.1 = nodeID ∧ cr_is_hot c = true) (st_content_index s)) in
  match scan keys with
  | None => ci
  | Some hot =>
      ContentIndex_Update ci nodeID
        (mkContentSummaryData hot (Some (br_bloom_data r)) (br_bloom_k r) (br_total_keys r))
  end.

Definition Store_LoadAll (scan : list string → option (option (list string)))
    (query_ok : bool) (s : Store) : result unit * Store :=
  if negb query_ok then (Err "load content index", s)
  else
    let ci := foldl (λ ci '(nodeID, r), load_row scan s ci nodeID r) (st_index s)
                (map_to_list (st_content_bloom s)) in
    (Ok tt, mkStore ci (st_content_index s) (st_content_bloom s) (st_stopped s)).

(** [expireStaleHotKeys]: [ttl] is [HotKeyTTL] in seconds. *)
Definition Store_expireStaleHotKeys (scan : list string → option (option (list string)))
    (delete_ok query_ok : bool) (now ttl : Z) (s : Store) : Store :=
  let cutoff := now - ttl in
  if cutoff <=? 0 then s
  else if negb delete_ok then s
  else
    let ti := filter (λ '(_, r), ¬ (cr_is_hot r = true ∧ cr_last_seen_at r < cutoff))
                (st_content_index s) in
    let s1 := mkStore (st_index s) ti (st_content_bloom s) (st_stopped s) in
    if (size ti <? size (st_content_index s))%nat then (Store_LoadAll scan query_ok s1).2 else s1.

Definition Store_Stop (s : Store) : Store :=
  if st_stopped s then s
  else mkStore (st_index s) (st_content_index s) (st_content_bloom s) true.

(** ** Validity: every filter of the index is well formed *)
Definition ci_valid (ci : ContentIndex) : Prop :=
  map_Forall (λ _ bf, bloom_wf bf) (blooms ci).

(** A summary as an edge node sends it: bounded filter, 32-bit probe count. *)
Definition summary_ok (summary : ContentSummaryData) : Prop :=
  match csd_BloomBytes summary with
  | Some data => Z.of_nat (length data) < 2 ^ 28 ∧ is_u32 (csd_BloomK summary)
  | None => True
  end.

Lemma ContentIndex_Update_valid ci nodeID summary :
  ci_valid ci → summary_ok summary → ci_valid (ContentIndex_Update ci nodeID summary).
Proof.
  unfold ci_valid, summary_ok, ContentIndex_Update. intros Hv Hs. simpl.
  destruct (csd_BloomBytes summary) as [data|]; [|done].
  destruct (0 <? csd_BloomK summary); [|done].
  apply map_Forall_insert_2; [|done]. destruct Hs. by apply NewBloomFilterFromBytes_wf.
Qed.

Lemma ContentIndex_RemoveNode_valid ci nodeID :
  ci_valid ci → ci_valid (ContentIndex_RemoveNode ci nodeID).
Proof. intros Hv. by apply map_Forall_delete. Qed.

Lemma NewContentIndex_valid : ci_valid NewContentIndex.
Proof. apply map_Forall_empty. Qed.
#[export] Hint Resolve ContentIndex_Update_valid ContentIndex_RemoveNode_valid
  NewContentIndex_valid : edge.

(** On a valid index the filter lookup is exact: it does not panic. *)
Lemma bloom_hit_spec bf key : bloom_wf bf → bloom_hit bf key = true ↔ has_key bf (bytes_of_string key).
Proof.
  intros Hwf. unfold bloom_hit, BloomFilter_ContainsString.
  destruct (bloom_Contains_spec bf (bytes_of_string key) Hwf) as (b & -> & Hb). done.
Qed.

Lemma find_hot ci key id :
  bool_map_get (ContentIndex_FindNodesWithKey ci key).1 id =
    match hotKeys ci !! id with Some ks => bool_decide (key ∈ ks) | None => false end.
Proof.
  unfold bool_map_get, ContentIndex_FindNodesWithKey. simpl. rewrite lookup_omap.
  destruct (hotKeys ci !! id) as [ks|]; simpl; [|done]. by case_bool_decide.
Qed.

#[export] Instance ContentIndex_laws : ContentIndexLaws ContentIndex.
Proof.
  split; intros ci key id; cbn [ci_FindNodesWithKey ci_IsCached ContentIndex_lookup].
  - rewrite find_hot. unfold ContentIndex_IsCached. by repeat case_match.
  - unfold ContentIndex_IsCached. rewrite <- (find_hot ci key id).
    unfold bool_map_get at 1. simpl. rewrite map_lookup_imap.
    destruct (blooms ci !! id) as [bf|]; simpl.
    + destruct (bool_map_get _ id); simpl; [done|]. by destruct (bloom_hit bf key).
    + by destruct (bool_map_get _ id).
  - unfold ContentIndex_IsCached. by repeat case_match.
Qed.

(** ** Reload after a restart *)

(** The hot rows of a node. *)
Definition hot_rows (t : gmap (string * string) ContentRow) (nodeID : string) : list string :=
  (λ '(nk, _), nk.2) <$> map_to_list (filter (λ '(nk, c), nk.1 = nodeID ∧ cr_is_hot c = true) t).

(** The index the tables stand for. *)
Definition index_of_tables (s : Store) : ContentIndex :=
  mkContentIndex
    (map_imap (λ id _, Some (list_to_set (hot_rows (st_content_index s) id))) (st_content_bloom s))
    (omap (λ r, if 0 <? br_bloom_k r
                then Some (NewBloomFilterFromBytes (br_bloom_data r) (br_bloom_k r)) else None)
       (st_content_bloom s))
    (br_total_keys <$> st_content_bloom s).

Lemma elem_of_hot_rows t id key :
  key ∈ hot_rows t id ↔ ∃ r, t !! (id, key) = Some r ∧ cr_is_hot r = true.
Proof.
  unfold hot_rows. rewrite list_elem_of_fmap. split.
  - intros ([[n k] r] & -> & Hin). apply elem_of_map_to_list in Hin.
    apply map_lookup_filter_Some in Hin as [Hin [Hn Hh]]. simpl in *. subst. eauto.
  - intros (r & Hr & Hh). exists ((id, key), r). split; [done|].
    apply elem_of_map_to_list, map_lookup_filter_Some. done.
Qed.

Lemma ContentIndex_eq a b :
  hotKeys a = hotKeys b → blooms a = blooms b → totalKeys a = totalKeys b → a = b.
Proof. destruct a, b; simpl; congruence. Qed.

Section reload.
Variable s : Store.
Let exact_scan (ks : list string) : option (option (list string)) := Some (Some ks).

Lemma load_rows_hot l ci id :
  NoDup l.*1 →
  hotKeys (foldl (λ ci '(nodeID, r), load_row exact_scan s ci nodeID r) ci l) !! id =
    if decide (id ∈ l.*1) then Some (list_to_set (hot_rows (st_content_index s) id))
    else hotKeys ci !! id.
Proof.
  revert ci. induction l as [|[n r] l IH]; intros ci Hnd.
  { by rewrite decide_False by apply not_elem_of_nil. }
  rewrite fmap_cons in *. cbn [foldl fst] in *.
  apply NoDup_cons in Hnd as [Hn Hnd]. rewrite IH by done. simpl. fold (hot_rows (st_content_index s) n).
  destruct (decide (id ∈ l.*1)).
  - by rewrite decide_True by (by right).
  - destruct (decide (id = n)) as [->|].
    + by rewrite decide_True, lookup_insert_eq by left.
    + by rewrite decide_False, lookup_insert_ne by set_solver.
Qed.

Lemma load_rows_bloom l ci id :
  NoDup l.*1 → (∀ r, (id, r) ∈ l → st_content_bloom s !! id = Some r) →
  blooms ci !! id = None →
  blooms (foldl (λ ci '(nodeID, r), load_row exact_scan s ci nodeID r) ci l) !! id =
    if decide (id ∈ l.*1) then blooms (index_of_tables s) !! id else None.
Proof.
  revert ci. induction l as [|[n r] l IH]; intros ci Hnd Hl Hci.
  { by rewrite decide_False by apply not_elem_of_nil. }
  rewrite fmap_cons in *. cbn [foldl fst] in *.
  apply NoDup_cons in Hnd as [Hn Hnd].
  destruct (decide (id = n)) as [->|Hne].
  - rewrite decide_True by left.
    assert (Hk : blooms (index_of_tables s) !! n =
      if 0 <? br_bloom_k r then Some (NewBloomFilterFromBytes (br_bloom_data r) (br_bloom_k r)) else None).
    { simpl. rewrite lookup_omap, (Hl r) by left. done. }
    clear IH Hl. rewrite Hk.
    assert (Hrest : ∀ ci', blooms (foldl (λ ci '(nodeID, r), load_row exact_scan s ci nodeID r) ci' l) !! n
              = blooms ci' !! n).
    { clear Hci Hk. induction l as [|[n' r'] l IH]; intros ci'; simpl; [done|].
      simpl in Hn. rewrite IH by (set_solver || by apply NoDup_cons in Hnd as []).
      simpl. destruct (0 <? _); [|done]. by rewrite lookup_insert_ne by set_solver. }
    rewrite Hrest. simpl. destruct (0 <? _); [by rewrite lookup_insert_eq|done].
  - rewrite IH; [|done|by intros r' Hr'; apply Hl; right|].
    + destruct (decide (id ∈ l.*1)); [by rewrite decide_True by (by right)|].
      by rewrite decide_False by set_solver.
    + simpl. destruct (0 <? _); [by rewrite lookup_insert_ne|done].
Qed.

Lemma load_rows_total l ci id :
  NoDup l.*1 → (∀ r, (id, r) ∈ l → st_content_bloom s !! id = Some r) →
  totalKeys (foldl (λ ci '(nodeID, r), load_row exact_scan s ci nodeID r) ci l) !! id =
    if decide (id ∈ l.*1) then totalKeys (index_of_tables s) !! id else totalKeys ci !! id.
Proof.
  revert ci. induction l as [|[n r] l IH]; intros ci Hnd Hl.
  { by rewrite decide_False by apply not_elem_of_nil. }
  rewrite fmap_cons in *. cbn [foldl fst] in *.
  apply NoDup_cons in Hnd as [Hn Hnd].
  rewrite IH by (done || by intros r' Hr'; apply Hl; right). simpl.
  destruct (decide (id ∈ l.*1)); [by rewrite decide_True by (by right)|].
  destruct (decide (id = n)) as [->|].
  - rewrite decide_True, lookup_insert_eq by left. by rewrite lookup_fmap, (Hl r) by left.
  - by rewrite decide_False, lookup_insert_ne by set_solver.
Qed.

(** Loading the tables into an empty index gives the index they stand for. *)
Lemma LoadAll_from_empty :
  st_index s = NewContentIndex →
  st_index (Store_LoadAll exact_scan true s).2 = index_of_tables s.
Proof.
  intros Hempty. simpl. rewrite Hempty.
  set (l := map_to_list (st_content_bloom s)).
  assert (Hnd : NoDup l.*1) by apply NoDup_fst_map_to_list.
  assert (Hl : ∀ id r, (id, r) ∈ l → st_content_bloom s !! id = Some r)
    by (intros; by apply elem_of_map_to_list).
  assert (Hdom : ∀ id, id ∈ l.*1 ↔ is_Some (st_content_bloom s !! id)).
  { intros id. rewrite list_elem_of_fmap. split.
    - intros ([n r] & -> & Hr). apply Hl in Hr. eauto.
    - intros [r Hr]. exists (id, r). split; [done|]. by apply elem_of_map_to_list. }
  apply ContentIndex_eq; apply map_eq; intros id.
  - rewrite load_rows_hot by done. simpl. rewrite map_lookup_imap, lookup_empty.
    case_decide as Hd; rewrite Hdom in Hd; [by destruct Hd as [r ->]|].
    by apply eq_None_not_Some in Hd as ->.
  - rewrite load_rows_bloom by (done || by intros; apply Hl). case_decide as Hd; [done|].
    rewrite Hdom in Hd. simpl. rewrite lookup_omap. by apply eq_None_not_Some in Hd as ->.
  - rewrite load_rows_total by (done || by intros; apply Hl). case_decide as Hd; [done|].
    rewrite Hdom in Hd. simpl. rewrite lookup_fmap, lookup_empty.
    by apply eq_None_not_Some in Hd as ->.
Qed.
End reload.

(** ** Tables after an upsert *)

(** Only hot rows are ever written. *)
Definition rows_hot (t : gmap (string * string) ContentRow) : Prop :=
  map_Forall (λ _ r, cr_is_hot r = true) t.

Lemma elem_of_hot_rows_all t id key :
  rows_hot t → key ∈ hot_rows t id ↔ is_Some (t !! (id, key)).
Proof.
  intros Hh. rewrite elem_of_hot_rows. split; [intros (r & -> & _); eauto|].
  intros [r Hr]. exists r. split; [done|]. by apply (Hh _ _ Hr).
Qed.

Lemma insert_hot_keys_spec id now hk t :
  rows_hot t →
  rows_hot (foldl (insert_hot_key id now (λ _, true)) t hk) ∧
  ∀ nk, is_Some (foldl (insert_hot_key id now (λ _, true)) t hk !! nk) ↔
        is_Some (t !! nk) ∨ (nk.1 = id ∧ nk.2 ∈ hk).
Proof.
  revert t. induction hk as [|k hk IH]; intros t Hh.
  { split; [done|]. intros nk. cbn [foldl]. split; [by left|].
    intros [?|[_ ?%not_elem_of_nil]]; done. }
  cbn [foldl]. set (t1 := insert_hot_key id now (λ _, true) t k).
  assert (Ht1 : rows_hot t1).
  { subst t1. unfold insert_hot_key. destruct (t !! (id, k)) as [r|] eqn:E.
    - apply map_Forall_insert_2; [|done]. by apply (Hh _ _ E).
    - by apply map_Forall_insert_2. }
  assert (Hs1 : ∀ nk, is_Some (t1 !! nk) ↔ is_Some (t !! nk) ∨ nk = (id, k)).
  { intros nk. subst t1. unfold insert_hot_key.
    destruct (t !! (id, k)) as [r|] eqn:E; rewrite lookup_insert;
      case_decide; subst; naive_solver. }
  destruct (IH t1 Ht1) as [H1 H2]. split; [done|]. intros nk. rewrite H2, Hs1, elem_of_cons.
  destruct nk as [n k']. simpl. naive_solver.
Qed.

Lemma filter_rows_hot (Q : (string * string) * ContentRow → Prop) `{!∀ x, Decision (Q x)} t :
  rows_hot t → rows_hot (filter Q t).
Proof. intros Hh nk r Hr. apply map_lookup_filter_Some in Hr as [Hr _]. by apply (Hh _ _ Hr). Qed.

Lemma hot_set_ext t t' id :
  rows_hot t → rows_hot t' → (∀ key, is_Some (t !! (id, key)) ↔ is_Some (t' !! (id, key))) →
  (list_to_set (hot_rows t id) : gset string) = list_to_set (hot_rows t' id).
Proof.
  intros H1 H2 Heq. apply set_eq. intros key.
  rewrite !elem_of_list_to_set, !elem_of_hot_rows_all by done. apply Heq.
Qed.

(** The index and the tables agree. *)
Definition coherent (s : Store) : Prop :=
  rows_hot (st_content_index s) ∧ st_index s = index_of_tables s.

(** The database executes every statement. *)
Definition db_all_ok : UpsertDB := mkUpsertDB true true (λ _, true).

Lemma filter_other_nodes t id n key :
  n ≠ id → rows_hot t →
  is_Some (filter (λ '(nk, r), ¬ (nk.1 = id ∧ cr_is_hot r = true)) t !! (n, key)) ↔
  is_Some (t !! (n, key)).
Proof.
  intros Hne Hh. unfold is_Some. split.
  - intros [r Hr]. apply map_lookup_filter_Some in Hr as [Hr _]. eauto.
  - intros [r Hr]. exists r. apply map_lookup_filter_Some. split; [done|]. naive_solver.
Qed.

Lemma filter_own_rows t id key :
  rows_hot t →
  filter (λ '(nk, r), ¬ (nk.1 = id ∧ cr_is_hot r = true)) t !! (id, key) = None.
Proof.
  intros Hh. apply eq_None_not_Some. intros [r Hr].
  apply map_lookup_filter_Some in Hr as [Hr Hn]. apply Hn. split; [done|]. by apply (Hh _ _ Hr).
Qed.

Lemma UpsertSummary_coherent s now summary hk data :
  coherent s →
  cs_HotKeys summary = Some hk → cs_BloomFilter summary = Some data →
  (0 < length data)%nat → 0 < cs_BloomK summary ≤ 100 →
  (Store_UpsertSummary s db_all_ok now summary).1 = Ok tt ∧
  coherent (Store_UpsertSummary s db_all_ok now summary).2.
Proof.
  intros [Hrows Hidx] Hhk Hdata Hlen Hk. unfold Store_UpsertSummary.
  rewrite Hhk, Hdata. simpl. split; [done|].
  destruct (0 <? length data)%nat eqn:E; [|apply Nat.ltb_ge in E; lia].
  assert (accepted_k (cs_BloomK summary) = cs_BloomK summary) as ->.
  { unfold accepted_k. destruct (_ && _) eqn:Ek; [done|].
    apply andb_false_iff in Ek as [?|?]; bool_to_prop; lia. }
  set (id := cs_NodeID summary). set (t := st_content_index s) in *.
  set (f := filter _ t).
  assert (Hf : rows_hot f) by by apply filter_rows_hot.
  destruct (insert_hot_keys_spec id now hk f Hf) as [Hti Hsome].
  split; [exact Hti|]. unfold index_of_tables, ContentIndex_Update; simpl.
  apply ContentIndex_eq; simpl; rewrite Hidx; simpl; apply map_eq; intros n.
  - rewrite map_lookup_imap, !lookup_insert. case_decide as Hn.
    + subst n. simpl. f_equal. apply set_eq. intros key.
      rewrite !elem_of_list_to_set, elem_of_hot_rows_all, Hsome by done. simpl.
      unfold f. rewrite (filter_own_rows t id key Hrows). unfold is_Some. naive_solver.
    + rewrite map_lookup_imap. destruct (st_content_bloom s !! n); simpl; [|done].
      f_equal. apply hot_set_ext; [done..|]. intros key. rewrite Hsome. simpl.
      unfold f. rewrite filter_other_nodes by done. naive_solver.
  - destruct (0 <? cs_BloomK summary) eqn:Ek; [|bool_to_prop; lia].
    rewrite lookup_omap, !lookup_insert. case_decide; simpl; [by rewrite Ek|by rewrite lookup_omap].
  - rewrite lookup_fmap, !lookup_insert. case_decide; [done|]. by rewrite lookup_fmap.
Qed.

Lemma RemoveNode_coherent s nodeID :
  coherent s → coherent (Store_RemoveNode s true true nodeID).2.
Proof.
  intros [Hrows Hidx]. unfold Store_RemoveNode. simpl.
  split; [by apply filter_rows_hot|].
  unfold index_of_tables, ContentIndex_RemoveNode; simpl.
  apply ContentIndex_eq; simpl; rewrite Hidx; simpl; apply map_eq; intros n.
  - rewrite map_lookup_imap, !lookup_delete. case_decide as Hn; [done|].
    rewrite map_lookup_imap. destruct (st_content_bloom s !! n); simpl; [|done].
    f_equal. apply hot_set_ext; [done|by apply filter_rows_hot|]. intros key.
    unfold is_Some. split; intros [r Hr]; exists r.
    + apply map_lookup_filter_Some. split; [done|]. simpl. congruence.
    + by apply map_lookup_filter_Some in Hr as [Hr _].
  - rewrite lookup_omap, !lookup_delete. case_decide; [done|]. by rewrite lookup_omap.
  - rewrite lookup_fmap, !lookup_delete. case_decide; [done|]. by rewrite lookup_fmap.
Qed.

(** ** Properties *)

(** The batch lookup the scheduler runs once per dispatch gives,
    for every node, exactly the answers of the per-node lookup: a node is in the
    hot map when the key is hot there, and in the filter map when it is only
    likely cached. *)
Theorem content_index_batch_agrees ci key id :
  let found := ContentIndex_FindNodesWithKey ci key in
  ContentIndex_IsCached ci id key =
    (bool_map_get found.1 id, bool_map_get found.1 id || bool_map_get found.2 id).
Proof.
  cbv zeta.
  pose proof (ci_find_hot ci key id) as H1. pose proof (ci_find_bloom ci key id) as H2.
  pose proof (ci_hot_cached ci key id) as H3.
  cbn [ci_FindNodesWithKey ci_IsCached ContentIndex_lookup] in *. rewrite H1, H2.
  destruct (ContentIndex_IsCached ci id key) as [[] []]; simpl in *; try done.
  by rewrite H3.
Qed.

(** what an edge node reports is found: when a summary carrying
    the hot keys and the filter built from [keys] is accepted by the store, every
    hot key is found hot and every key of the filter is found likely cached on
    that node. *)
Theorem upsert_then_cached s now bf keys bf' id hk total upd :
  bloom_wf bf → add_all bf (bytes_of_string <$> keys) = Ok bf' → 0 < bf_k bf' ≤ 100 →
  let summary := mkContentSummary id (Some hk) (Some (BloomFilter_Bytes bf'))
                   (BloomFilter_K bf') total upd in
  let '(r, s') := Store_UpsertSummary s db_all_ok now summary in
  r = Ok tt ∧
  (∀ key, key ∈ hk → ContentIndex_IsCached (st_index s') id key = (true, true)) ∧
  (∀ key, key ∈ keys → (ContentIndex_IsCached (st_index s') id key).2 = true).
Proof.
  intros Hwf Hadd Hk. cbv zeta. unfold Store_UpsertSummary. simpl.
  destruct (add_all_spec bf (bytes_of_string <$> keys) Hwf) as (bf1 & Hadd1 & Hwf' & _ & _ & Hin).
  assert (bf1 = bf') as -> by congruence.
  assert (Hlen : (0 < length (BloomFilter_Bytes bf'))%nat).
  { unfold BloomFilter_Bytes. rewrite mjoin_words_length. destruct Hwf'. lia. }
  destruct (0 <? length _)%nat eqn:E; [|apply Nat.ltb_ge in E; lia].
  unfold BloomFilter_K at 1 2. unfold accepted_k.
  replace ((0 <? bf_k bf') && (bf_k bf' <=? 100)) with true by (symmetry; lia).
  split; [done|]. split.
  - intros key Hkey. unfold ContentIndex_IsCached. simpl. rewrite lookup_insert_eq.
    by rewrite bool_decide_eq_true_2 by (by apply elem_of_list_to_set).
  - intros key Hkey. unfold ContentIndex_IsCached. simpl. rewrite lookup_insert_eq.
    case_bool_decide; [done|].
    replace (0 <? bf_k bf') with true by (symmetry; lia). rewrite lookup_insert_eq.
    fold (BloomFilter_K bf'). rewrite (roundtrip_wf bf' Hwf') by lia.
    assert (bloom_hit bf' key = true) as ->; [|done].
    apply bloom_hit_spec; [done|]. apply Hin. by apply list_elem_of_fmap_2.
Qed.


(** ** Witnesses *)
Definition example_bloom : BloomFilter := NewBloomFilterFromBytes [] 3.
Definition example_bloom' : BloomFilter :=
  match add_all example_bloom (bytes_of_string <$> ["a"; "b"]) with Ok b => b | _ => example_bloom end.
Definition empty_store : Store := mkStore NewContentIndex ∅ ∅ false.

Lemma example_bloom_wf : bloom_wf example_bloom.
Proof. apply NewBloomFilterFromBytes_wf; [simpl; lia|unfold is_u32; lia]. Qed.

Lemma upsert_then_cached_witness :
  let summary := mkContentSummary "n1" (Some ["h"]) (Some (BloomFilter_Bytes example_bloom'))
                   (BloomFilter_K example_bloom') 2 0 in
  let s' := (Store_UpsertSummary empty_store db_all_ok 7 summary).2 in
  (ContentIndex_IsCached (st_index s') "n1" "b").2 = true.
Proof.
  pose proof (upsert_then_cached empty_store 7 example_bloom ["a"; "b"] example_bloom' "n1"
                ["h"] 2 0 example_bloom_wf ltac:(vm_compute; reflexivity)
                ltac:(vm_compute; intuition discriminate)) as H.
  cbv zeta in *. destruct (Store_UpsertSummary _ _ _ _) as [r s'] eqn:E.
  apply H. right. left.
Defined.

