(* ===== verification/StreamKeys.v ===== *)
(** * Keys of streaming chunks ([internal/streaming/window.go])

    [ChunkCacheKey] and [ParseChunkKey] are the two directions of the cache key of
    a chunk; [InferStreamFromChunkKey] derives stream and sequence number from the
    name a client asks for; [validateStreamKey] cleans a stream key.  The
    theorems: the key codec is a bijection onto its image for every [int64]
    sequence number, cleaned keys cannot climb out of the stream directory, and
    two different files of one directory may be inferred to be the same chunk. *)

From S2P Require Import Prelude GoStrings.
From Stdlib Require Import Ascii.

Definition slash : ascii := ascii_of_nat 47.
Definition backslash : ascii := ascii_of_nat 92.
Definition dot : ascii := ascii_of_nat 46.
Definition underscore : ascii := ascii_of_nat 95.

Definition stream_prefix : chars := to_chars "stream/".
Definition seq_marker : chars := to_chars "/seq_".

(** [fmt.Sprintf("stream/%s/seq_%010d", streamKey, seqNum)]. *)
Definition ChunkCacheKey (streamKey : string) (seqNum : Z) : string :=
  of_chars (stream_prefix ++ to_chars streamKey ++ seq_marker ++ format_int_pad 10 seqNum).

Definition ParseChunkKey (key : string) : option (string * Z) :=
  let k := to_chars key in
  if negb (has_prefix stream_prefix k) then None
  else
    let rest := trim_prefix stream_prefix k in
    match last_index seq_marker rest with
    | None => None
    | Some idx =>
        let streamKey := take idx rest in
        let seqStr := drop (idx + length seq_marker) rest in
        match parse_int seqStr with
        | None => None
        | Some seqNum => Some (of_chars streamKey, seqNum)
        end
    end.

(** A path segment the cleaning functions drop: empty, "." or "..". *)
Definition bad_segment (p : chars) : bool :=
  match p with
  | [] => true
  | [a] => bool_decide (a = dot)
  | [a; b] => bool_decide (a = dot) && bool_decide (b = dot)
  | _ => false
  end.

(** The segments kept by [validateStreamKey] and [sanitizeGatewayKey], which are
    the same code: trim the key, turn backslashes into slashes, split, trim each
    segment and skip the empty and dot segments. *)
Definition clean_segments (key : chars) : list chars :=
  filter (λ p, bad_segment p = false)
    (trim_space <$> split_on slash (replace_char backslash slash (trim_space key))).

Definition validateStreamKey (key : string) : string :=
  of_chars (join_with slash (clean_segments (to_chars key))).

(** The last part of the name that is an integer. *)
Fixpoint last_int (parts : list chars) : Z :=
  match parts with
  | [] => -1
  | p :: ps => match parse_int p with Some n => n | None => last_int ps end
  end.

(** The loop runs from the last part to the first. *)
Definition extractSeqNum (name : chars) : Z := last_int (rev (split_on underscore name)).

Definition InferStreamFromChunkKey (key : string) : option (string * Z) :=
  let k := to_chars key in
  match last_index [slash] k with
  | None => None
  | Some lastSlash =>
      let streamKey := validateStreamKey (of_chars (take lastSlash k)) in
      if String.eqb streamKey "" then None
      else
        let filename := drop (lastSlash + 1) k in
        let filename :=
          match last_index [dot] filename with
          | Some dotIdx => take dotIdx filename
          | None => filename
          end in
        let seqNum := extractSeqNum filename in
        if 0 <=? seqNum then Some (streamKey, seqNum) else None
  end.

(** ** The key codec *)
Lemma slash_not_in_seq n : slash ∉ to_chars "seq_" ++ format_int_pad 10 n.
Proof.
  rewrite elem_of_app. intros [Hin|Hin].
  - revert Hin. apply (bool_decide_unpack _). vm_compute. exact I.
  - apply format_int_pad_chars in Hin as [Hin|[d Hin]]; [discriminate Hin|discriminate Hin].
Qed.

Lemma parse_chunk_key sk n : is_i64 n → ParseChunkKey (ChunkCacheKey sk n) = Some (sk, n).
Proof.
  intros Hn. unfold ParseChunkKey, ChunkCacheKey. rewrite to_of_chars.
  rewrite has_prefix_app, trim_prefix_app. simpl negb. cbv iota.
  change seq_marker with (slash :: to_chars "seq_").
  rewrite <- app_comm_cons. rewrite last_index_app by apply slash_not_in_seq.
  rewrite take_app_length. rewrite <- drop_drop, drop_app_length.
  change (slash :: to_chars "seq_" ++ format_int_pad 10 n)
    with ((slash :: to_chars "seq_") ++ format_int_pad 10 n).
  rewrite drop_app_length, parse_format_int_pad by done. by rewrite of_to_chars.
Qed.

(** ** Cleaned keys *)
Lemma trim_space_no_char c l : c ∉ l → c ∉ trim_space l.
Proof. intros Hc Hin. by apply Hc, elem_of_trim_space. Qed.

Lemma replace_char_gone a b l : a ≠ b → a ∉ replace_char a b l.
Proof.
  unfold replace_char. intros Hne (c & Hc & _)%list_elem_of_fmap.
  case_bool_decide; congruence.
Qed.

Lemma clean_segments_spec key p :
  p ∈ clean_segments key → bad_segment p = false ∧ (slash ∉ p) ∧ (backslash ∉ p).
Proof.
  unfold clean_segments. intros [Hbad Hin]%list_elem_of_filter.
  apply list_elem_of_fmap in Hin as (q & -> & Hq). split; [done|]. split.
  - apply trim_space_no_char. by eapply split_on_no_sep.
  - apply trim_space_no_char. intros Hb. eapply split_on_sublist in Hb; [|done].
    by apply replace_char_gone in Hb.
Qed.

Lemma split_validated key :
  clean_segments (to_chars key) ≠ [] →
  split_on slash (to_chars (validateStreamKey key)) = clean_segments (to_chars key).
Proof.
  intros Hne. unfold validateStreamKey. rewrite to_of_chars. apply split_join; [done|].
  apply Forall_forall. intros p Hp. by apply clean_segments_spec in Hp as (_ & ? & _).
Qed.

Lemma join_nonempty_first c p ps : p ≠ [] → join_with c (p :: ps) ≠ [].
Proof. destruct p; [done|]. by destruct ps. Qed.

Lemma validated_empty key : validateStreamKey key = "" ↔ clean_segments (to_chars key) = [].
Proof.
  unfold validateStreamKey. split.
  - intros He. apply (f_equal to_chars) in He. rewrite to_of_chars in He.
    destruct (clean_segments (to_chars key)) as [|p ps] eqn:E; [done|]. exfalso.
    eapply join_nonempty_first; [|exact He].
    pose proof (clean_segments_spec (to_chars key) p) as Hp. rewrite E in Hp.
    destruct Hp as [Hp _]; [left|]. by destruct p.
  - intros ->. done.
Qed.

(** *** Cleaning twice is cleaning once *)
Lemma match_any_None encs l : match_any encs l = None ↔ ∀ e, e ∈ encs → ¬ e `prefix_of` l.
Proof.
  induction encs as [|e encs IH]; cbn [match_any].
  - split; [intros _ e He; by apply elem_of_nil in He|done].
  - destruct (has_prefix e l) eqn:E.
    + split; [done|]. intros Hn. exfalso. apply (Hn e); [left|]. by apply has_prefix_spec.
    + rewrite IH. split.
      * intros Hn e' [->|He']%elem_of_cons; [|by apply Hn]. rewrite <- has_prefix_spec. by rewrite E.
      * intros Hn e' He'. apply Hn. by right.
Qed.

Lemma trim_left_with_id encs fuel l : match_any encs l = None → trim_left_with encs fuel l = l.
Proof. intros Hl. destruct fuel; cbn [trim_left_with]; [done|]. by rewrite Hl. Qed.

Lemma match_any_pos encs l n : [] ∉ encs → match_any encs l = Some n → (0 < n)%nat ∧ (n ≤ length l)%nat.
Proof.
  intros Hne. induction encs as [|e encs IH]; cbn [match_any]; [done|].
  apply not_elem_of_cons in Hne as [He Hne]. destruct (has_prefix e l) eqn:E; [|by apply IH].
  intros [= <-]. apply has_prefix_spec in E as [k ->]. rewrite length_app. destruct e; [done|]. cbn. lia.
Qed.

Lemma trim_left_with_done encs fuel l :
  [] ∉ encs → (length l ≤ fuel)%nat → match_any encs (trim_left_with encs fuel l) = None.
Proof.
  intros Hne. revert l. induction fuel as [|fuel IH]; intros l Hl; cbn [trim_left_with].
  - destruct l; [|cbn in Hl; lia]. apply match_any_None. intros e He Hp%prefix_nil_inv. by rewrite Hp in He.
  - destruct (match_any encs l) as [n|] eqn:E; [|done].
    apply match_any_pos in E as [??]; [|done]. apply IH. rewrite length_drop. lia.
Qed.

(** Neither a space in front nor one at the end. *)
Definition no_spaces (l : chars) : Prop :=
  match_any space_encodings l = None ∧ match_any (map (@rev ascii) space_encodings) (rev l) = None.

Lemma trim_space_id l : no_spaces l → trim_space l = l.
Proof.
  intros [H1 H2]. unfold trim_space, trim_left, trim_right. rewrite (trim_left_with_id _ _ _ H1).
  rewrite (trim_left_with_id _ _ _ H2). apply rev_involutive.
Qed.

Lemma trim_space_no_spaces l : no_spaces (trim_space l).
Proof.
  unfold trim_space, trim_right. set (a := trim_left l).
  assert (Ha : match_any space_encodings a = None).
  { apply trim_left_with_done; [|done]. by vm_compute; intros Hin; repeat (apply elem_of_cons in Hin as [?|Hin]; [done|]); apply elem_of_nil in Hin. }
  split; rewrite ?rev_involutive.
  - rewrite match_any_None in *. intros e He Hp. apply (Ha e He). etrans; [exact Hp|].
    destruct (trim_left_with_suffix (map (@rev ascii) space_encodings) (length a) (rev a)) as [k ->].
    exists (rev (take k (rev a))). rewrite <- rev_app_distr, take_drop. by rewrite rev_involutive.
  - apply trim_left_with_done; [|by rewrite length_rev].
    by vm_compute; intros Hin; repeat (apply elem_of_cons in Hin as [?|Hin]; [done|]); apply elem_of_nil in Hin.
Qed.

Lemma prefix_before c (e a b : chars) : c ∉ e → e `prefix_of` a ++ c :: b → e `prefix_of` a.
Proof.
  revert a. induction e as [|x e IH]; intros a Hc Hp; [apply prefix_nil|].
  apply not_elem_of_cons in Hc as [Hx He]. destruct a as [|y a].
  - cbn [app] in Hp. apply prefix_cons_inv_1 in Hp. by subst.
  - cbn [app] in Hp. pose proof (prefix_cons_inv_1 _ _ _ _ Hp) as ->.
    apply prefix_cons, IH; [done|]. by eapply prefix_cons_inv_2.
Qed.

Lemma match_any_before encs c a b :
  Forall (λ e, c ∉ e) encs → match_any encs a = None → match_any encs (a ++ c :: b) = None.
Proof.
  rewrite !match_any_None. intros Hc Ha e He Hp. apply (Ha e He). eapply prefix_before; [|exact Hp].
  by eapply (proj1 (Forall_forall _ _) Hc).
Qed.

Lemma spaces_no_slash : Forall (λ e, slash ∉ e) space_encodings ∧ Forall (λ e, slash ∉ e) (map (@rev ascii) space_encodings).
Proof.
  split; eapply bool_decide_eq_true_1; reflexivity.
Qed.

Lemma join_no_spaces ps : Forall no_spaces ps → no_spaces (join_with slash ps).
Proof.
  destruct spaces_no_slash as [Hs Hr]. induction 1 as [|p ps [Hp1 Hp2] Hps [IH1 IH2]]; [done|].
  cbn [join_with]. destruct ps as [|q ps]; [done|]. split; [by apply match_any_before|].
  rewrite rev_app_distr. cbn [rev]. rewrite <- app_assoc. cbn [app]. by apply match_any_before.
Qed.

Lemma clean_segments_clean key :
  clean_segments (join_with slash (clean_segments key)) = clean_segments key.
Proof.
  set (segs := clean_segments key). destruct (decide (segs = [])) as [->|Hne]; [reflexivity|].
  assert (Hsp : Forall no_spaces segs).
  { apply Forall_forall. intros p [_ Hp]%list_elem_of_filter. apply list_elem_of_fmap in Hp as (q & -> & _).
    apply trim_space_no_spaces. }
  assert (Hok : ∀ p, p ∈ segs → bad_segment p = false ∧ (slash ∉ p) ∧ (backslash ∉ p)).
  { intros p Hp. by apply clean_segments_spec in Hp. }
  unfold clean_segments at 1. rewrite trim_space_id by by apply join_no_spaces.
  assert (Hrep : replace_char backslash slash (join_with slash segs) = join_with slash segs).
  { apply fmap_fixed. intros c Hc. apply elem_of_join_with in Hc as [->|(p & Hp & Hc)]; [done|].
    apply Hok in Hp as (_ & _ & Hb). rewrite bool_decide_eq_false_2; [done|]. by intros ->. }
  rewrite Hrep, split_join; [|done|by apply Forall_forall; intros p Hp; apply Hok].
  rewrite fmap_fixed.
  - apply filter_all. intros p Hp. by apply Hok.
  - intros p Hp. apply trim_space_id. by eapply (proj1 (Forall_forall _ _) Hsp).
Qed.

(** ** Inference from a file name *)

(** The file [dir/stem_<n>.ext], the number printed with width [w]. *)
Definition chunk_file (dir stem : chars) (w : nat) (n : Z) (ext : chars) : string :=
  of_chars (dir ++ slash :: (stem ++ underscore :: format_int_pad w n) ++ dot :: ext).

Definition stem_ok (l : chars) : Prop := (slash ∉ l) ∧ (dot ∉ l).

Lemma number_chars w n c :
  c ∈ format_int_pad w n → c ≠ slash ∧ c ≠ dot ∧ c ≠ underscore.
Proof.
  intros [->|[d Hd]]%format_int_pad_chars; [done|].
  split_and!; intros ->; discriminate Hd.
Qed.

Lemma split_on_app c a b : split_on c (a ++ c :: b) = split_on c a ++ split_on c b.
Proof.
  induction a as [|x a IH]; cbn [app split_on].
  - by rewrite bool_decide_eq_true_2.
  - case_bool_decide; rewrite IH; [done|].
    destruct (split_on c a) as [|p ps] eqn:E; [by apply split_on_nonempty in E|done].
Qed.

Lemma last_index_char c a b : c ∉ b → last_index [c] (a ++ c :: b) = Some (length a).
Proof. intros Hc. by apply (last_index_app [] c a b). Qed.

Lemma extract_number stem w n :
  is_i64 n → extractSeqNum (stem ++ underscore :: format_int_pad w n) = n.
Proof.
  intros Hn. unfold extractSeqNum. rewrite split_on_app.
  rewrite (split_on_no_occ underscore (format_int_pad w n)).
  - rewrite List.rev_app_distr. simpl. by rewrite parse_format_int_pad.
  - intros (_ & _ & Hc)%number_chars. done.
Qed.

Lemma infer_chunk_file dir stem w n ext :
  is_i64 n → 0 ≤ n → stem_ok stem → stem_ok ext →
  InferStreamFromChunkKey (chunk_file dir stem w n ext) =
    let sk := validateStreamKey (of_chars dir) in
    if String.eqb sk "" then None else Some (sk, n).
Proof.
  intros Hn H0 [Hs1 Hs2] [He1 He2]. unfold InferStreamFromChunkKey, chunk_file.
  rewrite to_of_chars. rewrite last_index_char.
  2:{ rewrite !elem_of_app, !elem_of_cons. intros [[?|[?|(? & _)%number_chars]]|[?|?]]; done. }
  rewrite take_app_length. cbv zeta. destruct (String.eqb _ _); [done|].
  rewrite Nat.add_1_r, drop_app_ge by lia.
  replace (S (length dir) - length dir)%nat with 1%nat by lia. cbn [drop]. rewrite drop_0.
  rewrite last_index_char by done. rewrite take_app_length, extract_number by done.
  destruct (0 <=? n) eqn:E; bool_to_prop; [done|lia].
Qed.

(** ** Properties *)

(** Parsing the cache key of a chunk gives back its stream key,
    whatever characters it contains, and its sequence number, for every [int64]
    (negative ones included). *)
Theorem chunk_key_roundtrip streamKey seqNum :
  is_i64 seqNum → ParseChunkKey (ChunkCacheKey streamKey seqNum) = Some (streamKey, seqNum).
Proof. apply parse_chunk_key. Qed.

(** Chunks of different streams or sequence numbers never share a
    cache key. *)
Theorem chunk_key_injective sk sk' n n' :
  is_i64 n → is_i64 n' → ChunkCacheKey sk n = ChunkCacheKey sk' n' → sk = sk' ∧ n = n'.
Proof.
  intros Hn Hn' Heq. apply (f_equal ParseChunkKey) in Heq.
  rewrite !parse_chunk_key in Heq by done. by simplify_eq.
Qed.

(** A stream key that [validateStreamKey] returns is empty or a
    relative path all of whose segments are non-empty, are not "." or "..", and
    contain no backslash: it cannot name a file outside its directory. *)
Theorem validated_stream_key_safe key p :
  p ∈ split_on slash (to_chars (validateStreamKey key)) →
  validateStreamKey key = "" ∨ (bad_segment p = false ∧ (slash ∉ p) ∧ (backslash ∉ p)).
Proof.
  destruct (decide (clean_segments (to_chars key) = [])) as [He|Hne].
  - intros _. left. by apply validated_empty.
  - rewrite split_validated by done. intros Hp. right. by eapply clean_segments_spec.
Qed.

(** The inference forgets the file name: whatever the directory, two
    files of it with different stems and extensions but the same number (say an
    audio and a video segment) are inferred to be the same chunk, so they share
    one cache entry. *)
Theorem inferred_chunk_collision dir a b ext ext' w n :
  is_i64 n → 0 ≤ n → stem_ok a → stem_ok b → stem_ok ext → stem_ok ext' →
  InferStreamFromChunkKey (chunk_file dir a w n ext) =
  InferStreamFromChunkKey (chunk_file dir b w n ext').
Proof. intros. by rewrite !infer_chunk_file. Qed.

(** ** Witnesses *)
Lemma chunk_key_roundtrip_witness :
  ChunkCacheKey "live/ch1" (-5) = "stream/live/ch1/seq_-000000005" ∧
  ParseChunkKey (ChunkCacheKey "live/ch1" (-5)) = Some ("live/ch1", -5).
Proof. split; [vm_compute; reflexivity|]. apply chunk_key_roundtrip. unfold is_i64. lia. Defined.

Lemma chunk_key_injective_witness : "s" = "s" ∧ 3 = 3.
Proof.
  apply chunk_key_injective; [unfold is_i64; lia..|reflexivity].
Defined.

Lemma validated_stream_key_safe_witness :
  validateStreamKey " /../live\./ch1 " = "live/ch1" ∧
  (validateStreamKey " /../live\./ch1 " = "" ∨
   (bad_segment (to_chars "live") = false ∧ (slash ∉ to_chars "live") ∧ (backslash ∉ to_chars "live"))).
Proof.
  split; [vm_compute; reflexivity|]. apply validated_stream_key_safe.
  assert (split_on slash (to_chars (validateStreamKey " /../live\./ch1 "))
    = [to_chars "live"; to_chars "ch1"]) as -> by (vm_compute; reflexivity).
  left.
Defined.

Lemma inferred_chunk_collision_witness :
  chunk_file (to_chars "live/ch1") (to_chars "video") 0 5 (to_chars "m4s") = "live/ch1/video_5.m4s" ∧
  InferStreamFromChunkKey (chunk_file (to_chars "live/ch1") (to_chars "video") 0 5 (to_chars "m4s")) =
  InferStreamFromChunkKey (chunk_file (to_chars "live/ch1") (to_chars "audio") 0 5 (to_chars "m4s")).
Proof.
  split; [vm_compute; reflexivity|].
  apply inferred_chunk_collision; [unfold is_i64; lia|lia| | | |];
    split; apply (bool_decide_unpack _); vm_compute; exact I.
Defined.
