(* ===== verification/SlidingWindow.v ===== *)
(** * The sliding window of streaming chunks ([internal/streaming/window.go])

    [SlidingWindow] remembers, per stream, the sequence numbers of the chunks it
    wrote into a cache and deletes the oldest ones beyond [WindowSize].  The cache
    is the Go interface [CacheAccessor], here a class of operations on a cache
    state; [CacheLaws] states what the window relies on, up to an equivalence
    [same_slot] of the keys that share a place in the cache (the edge cache stores
    under a hash of the key; see [EdgeCache.v] for the instance). *)

From S2P Require Import Prelude GoStrings StreamKeys.

Class CacheAccessor (C : Type) := {
  acc_Get : C → string → result bytes * C;
  acc_Put : C → string → bytes → result unit * C;
  acc_Has : C → string → bool;
  acc_Delete : C → string → result unit * C
}.

Class CacheLaws (C : Type) `{CacheAccessor C} (same_slot : relation string) : Prop := {
  acc_slot_equiv :: Equivalence same_slot;
  (** a write adds nothing but its own slot *)
  acc_put_has : ∀ c k data j, acc_Has (acc_Put c k data).2 j = true →
    same_slot j k ∨ acc_Has c j = true;
  (** a read adds nothing *)
  acc_get_has : ∀ c k j, acc_Has (acc_Get c k).2 j = acc_Has c j;
  (** a successful deletion empties its slot and adds nothing *)
  acc_delete_ok : ∀ c k, (acc_Delete c k).1 = Ok tt;
  acc_delete_has : ∀ c k j, acc_Has (acc_Delete c k).2 j = true →
    acc_Has c j = true ∧ ¬ same_slot j k
}.

Record streamWindow := mkStreamWindow {
  win_seqs : list Z;
  win_headSeq : Z;
  win_maxSize : Z;
  win_evictions : Z
}.

Section window.
Context {C : Type} `{CacheAccessor C}.

Record SlidingWindow := mkSlidingWindow {
  sw_cache : C;
  sw_WindowSize : Z;
  sw_windows : gmap string streamWindow
}.

Definition NewSlidingWindow (cache : C) (windowSize : Z) : SlidingWindow :=
  mkSlidingWindow cache windowSize ∅.

(** The cache accessor's [Delete] for each evicted chunk; errors are logged only. *)
Definition delete_chunks (streamKey : string) (c : C) (seqs : list Z) : C :=
  foldl (λ c s, (acc_Delete c (ChunkCacheKey streamKey s)).2) c seqs.

(** The second critical section: append, then evict from the front. *)
Definition window_append (streamKey : string) (c : C) (win : streamWindow) (seqNum : Z)
    : C * streamWindow :=
  let seqs := win_seqs win ++ [seqNum] in
  if win_maxSize win <? Z.of_nat (length seqs) then
    let toEvict := Z.of_nat (length seqs) - win_maxSize win in
    let n := Z.to_nat toEvict in
    (delete_chunks streamKey c (take n seqs),
     mkStreamWindow (drop n seqs) seqNum (win_maxSize win) (win_evictions win + toEvict))
  else (c, mkStreamWindow seqs seqNum (win_maxSize win) (win_evictions win)).

Definition SlidingWindow_CacheChunk (sw : SlidingWindow) (streamKey : string) (seqNum : Z)
    (chunkData : bytes) : result unit * SlidingWindow :=
  match sw_windows sw !! streamKey, sw_WindowSize sw <? 0 with
  | None, true => (Panic, sw)   (* make([]int64, 0, WindowSize) *)
  | o, _ =>
      let win := default (mkStreamWindow [] 0 (sw_WindowSize sw) 0) o in
      let ws := <[streamKey := win]> (sw_windows sw) in
      let '(r, c) :=
        if (0 <? length chunkData)%nat
        then acc_Put (sw_cache sw) (ChunkCacheKey streamKey seqNum) chunkData
        else (Ok tt, sw_cache sw) in
      match r with
      | Ok _ =>
          let '(c', win') := window_append streamKey c win seqNum in
          (Ok tt, mkSlidingWindow c' (sw_WindowSize sw) (<[streamKey := win']> ws))
      | Err _ => (Err "cache put", mkSlidingWindow c (sw_WindowSize sw) ws)
      | Panic => (Panic, mkSlidingWindow c (sw_WindowSize sw) ws)
      end
  end.

Definition SlidingWindow_GetChunk (sw : SlidingWindow) (streamKey : string) (seqNum : Z)
    : result bytes * SlidingWindow :=
  let '(r, c) := acc_Get (sw_cache sw) (ChunkCacheKey streamKey seqNum) in
  (r, mkSlidingWindow c (sw_WindowSize sw) (sw_windows sw)).

Definition SlidingWindow_HasChunk (sw : SlidingWindow) (streamKey : string) (seqNum : Z) : bool :=
  acc_Has (sw_cache sw) (ChunkCacheKey streamKey seqNum).

Definition SlidingWindow_WindowStats (sw : SlidingWindow) (streamKey : string) : Z * Z :=
  match sw_windows sw !! streamKey with
  | Some win => (win_headSeq win, win_evictions win)
  | None => (0, 0)
  end.

Definition SlidingWindow_EvictStream (sw : SlidingWindow) (streamKey : string) : SlidingWindow :=
  match sw_windows sw !! streamKey with
  | None => sw
  | Some win =>
      mkSlidingWindow (delete_chunks streamKey (sw_cache sw) (win_seqs win))
        (sw_WindowSize sw) (delete streamKey (sw_windows sw))
  end.

Definition SlidingWindow_TotalEvictions (sw : SlidingWindow) : Z :=
  map_fold (λ _ w total, total + win_evictions w) 0 (sw_windows sw).

(** A sequence of [CacheChunk] calls for one stream, and the chunks accepted. *)
Fixpoint cache_chunks (sw : SlidingWindow) (streamKey : string) (cs : list (Z * bytes))
    : list Z * SlidingWindow :=
  match cs with
  | [] => ([], sw)
  | (n, data) :: cs' =>
      let '(r, sw1) := SlidingWindow_CacheChunk sw streamKey n data in
      let '(ns, sw2) := cache_chunks sw1 streamKey cs' in
      (match r with Ok _ => n :: ns | _ => ns end, sw2)
  end.

(** ** The window holds the most recent chunks *)

(** [win] is the window after accepting the chunks [ns], in order. *)
Definition window_of (size : Z) (ns : list Z) (win : streamWindow) : Prop :=
  win_maxSize win = size ∧
  win_seqs win = drop (length ns - Z.to_nat size) ns ∧
  win_headSeq win = List.last ns 0 ∧
  win_evictions win = Z.max 0 (Z.of_nat (length ns) - size).

Lemma window_of_nil size : 0 ≤ size → window_of size [] (mkStreamWindow [] 0 size 0).
Proof.
  intros Hs. split_and!; cbn [win_maxSize win_seqs win_headSeq win_evictions]; [done| |done|].
  - by rewrite drop_nil.
  - change (Z.of_nat (length (@nil Z))) with 0. lia.
Qed.

Lemma window_append_of streamKey c size ns win n :
  0 ≤ size → window_of size ns win →
  window_of size (ns ++ [n]) (window_append streamKey c win n).2.
Proof.
  intros Hs (Hm & Hseqs & Hhead & Hev). unfold window_append.
  assert (Hlen : Z.of_nat (length (win_seqs win ++ [n])) =
                 Z.min size (Z.of_nat (length ns)) + 1).
  { rewrite Hseqs, length_app, length_drop. simpl. lia. }
  rewrite Hm, Hlen.
  assert (Hd : drop (length ns - Z.to_nat size) ns ++ [n] = drop (length ns - Z.to_nat size) (ns ++ [n]))
    by (rewrite drop_app_le by lia; done).
  destruct (size <? _) eqn:E; bool_to_prop; split_and!; simpl; try done;
    rewrite ?List.last_last, ?Hev, ?Hseqs, ?Hd, ?drop_drop, ?length_app; simpl;
    try done; try (f_equal; lia); lia.
Qed.

Lemma cache_chunk_window sw streamKey n data size ns :
  0 ≤ size → sw_WindowSize sw = size →
  window_of size ns (default (mkStreamWindow [] 0 size 0) (sw_windows sw !! streamKey)) →
  let '(r, sw') := SlidingWindow_CacheChunk sw streamKey n data in
  r ≠ Panic → sw_WindowSize sw' = size ∧
  window_of size (match r with Ok _ => ns ++ [n] | _ => ns end)
    (default (mkStreamWindow [] 0 size 0) (sw_windows sw' !! streamKey)).
Proof.
  intros Hs Hsize Hw. unfold SlidingWindow_CacheChunk. rewrite Hsize.
  destruct (sw_windows sw !! streamKey) as [win|] eqn:Ew; simpl default in *;
    [|destruct (size <? 0) eqn:E; [bool_to_prop; lia|]];
    (destruct (if (0 <? length data)%nat then _ else _) as [[[]|e|] c];
     [|intros _; split; [done|]; simpl; by rewrite lookup_insert_eq|done]).
  all: pose proof (window_append_of streamKey c size ns _ n Hs Hw) as Ha;
    destruct (window_append _ _ _ _) as [c' win']; simpl in *; intros _;
    split; [done|]; by rewrite lookup_insert_eq.
Qed.

Lemma cache_chunks_window sw streamKey cs size ns :
  0 ≤ size → sw_WindowSize sw = size →
  (∀ c k d, (acc_Put c k d).1 ≠ Panic) →
  window_of size ns (default (mkStreamWindow [] 0 size 0) (sw_windows sw !! streamKey)) →
  window_of size (ns ++ (cache_chunks sw streamKey cs).1)
    (default (mkStreamWindow [] 0 size 0)
       (sw_windows (cache_chunks sw streamKey cs).2 !! streamKey)).
Proof.
  intros Hs Hsize Hnp. revert sw ns Hsize.
  induction cs as [|[n data] cs IH]; intros sw ns Hsize Hw; cbn [cache_chunks].
  { simpl. by rewrite app_nil_r. }
  pose proof (cache_chunk_window sw streamKey n data size ns Hs Hsize Hw) as Hstep.
  destruct (SlidingWindow_CacheChunk sw streamKey n data) as [r sw1] eqn:E1.
  assert (Hr : r ≠ Panic).
  { intros ->. unfold SlidingWindow_CacheChunk in E1. rewrite Hsize in E1.
    pose proof (Hnp (sw_cache sw) (ChunkCacheKey streamKey n) data) as Hput.
    destruct (sw_windows sw !! streamKey), (size <? 0) eqn:E2; try (bool_to_prop; lia);
      destruct (0 <? length data)%nat; destruct (acc_Put _ _ _) as [[]];
      simpl in *; try destruct (window_append _ _ _ _); simplify_eq. }
  destruct (Hstep Hr) as [Hsize1 Hw1].
  specialize (IH sw1 _ Hsize1 Hw1).
  destruct (cache_chunks sw1 streamKey cs) as [ns' sw2]. simpl in *.
  destruct r; simpl in *; [by rewrite <- app_assoc in IH|done..].
Qed.

(** ** The cache holds nothing of a stream outside its window *)
Context (same_slot : relation string) `{!CacheLaws C same_slot}.

(** Every cached chunk of [streamKey] shares its slot with a chunk of [seqs]. *)
Definition cached_within (streamKey : string) (c : C) (seqs : list Z) : Prop :=
  ∀ s, acc_Has c (ChunkCacheKey streamKey s) = true →
    ∃ s', s' ∈ seqs ∧ same_slot (ChunkCacheKey streamKey s) (ChunkCacheKey streamKey s').

Lemma delete_chunks_has streamKey seqs c j :
  acc_Has (delete_chunks streamKey c seqs) j = true →
  acc_Has c j = true ∧ ∀ s, s ∈ seqs → ¬ same_slot j (ChunkCacheKey streamKey s).
Proof.
  revert c. induction seqs as [|s seqs IH]; intros c Hj.
  { split; [done|]. by intros s ?%not_elem_of_nil. }
  cbn [delete_chunks foldl] in Hj. apply IH in Hj as [Hj Hn].
  apply acc_delete_has in Hj as [Hj Hs]. split; [done|].
  intros s' [->|Hs']%elem_of_cons; [done|by apply Hn].
Qed.

Lemma delete_chunks_within streamKey c gone kept :
  cached_within streamKey c (gone ++ kept) →
  cached_within streamKey (delete_chunks streamKey c gone) kept.
Proof.
  intros Hw s Hs. apply delete_chunks_has in Hs as [Hs Hn].
  destruct (Hw s Hs) as (s' & [Hg|Hk]%elem_of_app & Hslot); [|by eauto].
  exfalso. by apply (Hn s').
Qed.

Lemma window_append_within streamKey c win n :
  cached_within streamKey c (win_seqs win ++ [n]) →
  cached_within streamKey (window_append streamKey c win n).1
    (win_seqs (window_append streamKey c win n).2).
Proof.
  intros Hw. unfold window_append. case_match; [|done]. simpl.
  apply delete_chunks_within. by rewrite take_drop.
Qed.

Lemma put_within streamKey c seqs n data :
  cached_within streamKey c seqs →
  cached_within streamKey (acc_Put c (ChunkCacheKey streamKey n) data).2 (seqs ++ [n]).
Proof.
  intros Hw s Hs. apply acc_put_has in Hs as [Hs|Hs].
  - exists n. split; [set_solver|done].
  - destruct (Hw s Hs) as (s' & Hs' & Hslot). exists s'. split; [set_solver|done].
Qed.

Lemma cached_within_app streamKey c seqs more :
  cached_within streamKey c seqs → cached_within streamKey c (seqs ++ more).
Proof. intros Hw s Hs. destruct (Hw s Hs) as (s' & ? & ?). exists s'. set_solver. Qed.

(** The window of a stream; empty when there is none. *)
Definition window_seqs (sw : SlidingWindow) (streamKey : string) : list Z :=
  match sw_windows sw !! streamKey with Some w => win_seqs w | None => [] end.

Lemma cache_chunk_within sw streamKey n data :
  let '(r, sw') := SlidingWindow_CacheChunk sw streamKey n data in
  r = Ok tt →
  cached_within streamKey (sw_cache sw) (window_seqs sw streamKey) →
  cached_within streamKey (sw_cache sw') (window_seqs sw' streamKey).
Proof.
  unfold SlidingWindow_CacheChunk, window_seqs.
  assert (Hput : ∀ seqs, cached_within streamKey (sw_cache sw) seqs →
    cached_within streamKey
      (if (0 <? length data)%nat then acc_Put (sw_cache sw) (ChunkCacheKey streamKey n) data
       else (Ok tt, sw_cache sw)).2 (seqs ++ [n])).
  { intros seqs Hw. case_match; [by apply put_within|by apply cached_within_app]. }
  destruct (sw_windows sw !! streamKey) as [w|] eqn:Ew, (sw_WindowSize sw <? 0);
    cbn [default]; try (by intros);
    (destruct (if (0 <? length data)%nat then _ else _) as [[[]|e|] c]; [|by intros..]);
    match goal with |- context [window_append _ _ ?w _] =>
      pose proof (window_append_within streamKey c w n) as Ha end;
    destruct (window_append _ _ _ _) as [c' win']; simpl in *;
    intros _ Hw; rewrite lookup_insert_eq; apply Ha, (Hput _ Hw).
Qed.
End window.
Arguments SlidingWindow : clear implicits.

(** ** Properties *)

(** after any sequence of [CacheChunk] calls for one stream
    (whatever the cache does, short of panicking), the window is exactly the last
    [WindowSize] accepted sequence numbers in arrival order, the head is the last
    accepted one, and the eviction counter is the number of accepted chunks
    beyond the window size. *)
Theorem window_is_recent_suffix {C : Type} `{CacheAccessor C} (cache : C) size streamKey cs :
  0 ≤ size → (∀ c k d, (acc_Put (C := C) c k d).1 ≠ Panic) →
  let '(ns, sw) := cache_chunks (NewSlidingWindow cache size) streamKey cs in
  window_seqs sw streamKey = drop (length ns - Z.to_nat size) ns ∧
  SlidingWindow_WindowStats sw streamKey =
    (List.last ns 0, Z.max 0 (Z.of_nat (length ns) - size)).
Proof.
  intros Hs Hnp.
  pose proof (cache_chunks_window (NewSlidingWindow cache size) streamKey cs size [] Hs eq_refl Hnp) as Hw.
  destruct (cache_chunks _ _ _) as [ns sw]. simpl in Hw.
  destruct Hw as (_ & Hseqs & Hhead & Hev); [by apply window_of_nil|].
  unfold window_seqs, SlidingWindow_WindowStats.
  destruct (sw_windows sw !! streamKey) as [w|]; simpl default in *;
    rewrite ?Hhead, ?Hev; simpl in *; (split; [done|]); by rewrite <- ?Hhead, <- ?Hev.
Qed.

(** the window bounds what a stream occupies: if every cached
    chunk of the stream shares its slot with a chunk of the window, a successful
    [CacheChunk] keeps it so (the chunks that left the window are gone from the
    cache), and evicting the stream leaves no chunk of it. *)
Theorem window_bounds_cache {C : Type} `{CacheAccessor C} (same_slot : relation string)
    `{!CacheLaws C same_slot} (sw : SlidingWindow C) streamKey n data :
  cached_within same_slot streamKey (sw_cache sw) (window_seqs sw streamKey) →
  (let '(r, sw') := SlidingWindow_CacheChunk sw streamKey n data in
   r = Ok tt → cached_within same_slot streamKey (sw_cache sw') (window_seqs sw' streamKey)) ∧
  (is_Some (sw_windows sw !! streamKey) → ∀ s,
   SlidingWindow_HasChunk (SlidingWindow_EvictStream sw streamKey) streamKey s = false).
Proof.
  intros Hw. split.
  - pose proof (cache_chunk_within same_slot sw streamKey n data) as Hc.
    destruct (SlidingWindow_CacheChunk sw streamKey n data) as [r sw']. auto.
  - intros [w Ew] s. unfold SlidingWindow_HasChunk, SlidingWindow_EvictStream, window_seqs in *.
    rewrite Ew in *. simpl. destruct (acc_Has _ _) eqn:E; [|done].
    rewrite <- (app_nil_r (win_seqs w)) in Hw.
    destruct (delete_chunks_within same_slot _ _ _ _ Hw s E) as (s' & []%not_elem_of_nil & _).
Qed.

(** ** Witnesses *)

(** A plain map as a cache. *)
#[export] Instance map_cache : CacheAccessor (gmap string bytes) := {
  acc_Get c k := (match c !! k with Some b => Ok b | None => Err "cache miss" end, c);
  acc_Put c k d := (Ok tt, <[k := d]> c);
  acc_Has c k := bool_decide (is_Some (c !! k));
  acc_Delete c k := (Ok tt, delete k c)
}.

#[export] Instance map_cache_laws : CacheLaws (gmap string bytes) (=).
Proof.
  split; [apply _|simpl..].
  - intros c k data j Hj%bool_decide_eq_true. rewrite lookup_insert in Hj.
    case_decide; [by left|right]. by apply bool_decide_eq_true.
  - done.
  - done.
  - intros c k j Hj%bool_decide_eq_true. rewrite lookup_delete in Hj.
    case_decide; [by destruct Hj|]. split; [by apply bool_decide_eq_true|done].
Qed.

Definition one_byte : bytes := [byte.of_Z 7].

Lemma window_is_recent_suffix_witness :
  let '(ns, sw) := cache_chunks (NewSlidingWindow (∅ : gmap string bytes) 2) "s"
                     [(1, one_byte); (2, one_byte); (3, one_byte)] in
  window_seqs sw "s" = [2; 3] ∧ SlidingWindow_WindowStats sw "s" = (3, 1).
Proof.
  pose proof (window_is_recent_suffix (∅ : gmap string bytes) 2 "s"
    [(1, one_byte); (2, one_byte); (3, one_byte)] ltac:(lia)) as H.
  specialize (H ltac:(intros; discriminate)). revert H. vm_compute. auto.
Defined.

Lemma window_bounds_cache_witness :
  let sw := mkSlidingWindow {[ChunkCacheKey "s" 1 := one_byte]} 2
              {["s" := mkStreamWindow [1] 1 2 0]} in
  SlidingWindow_HasChunk sw "s" 1 = true ∧
  SlidingWindow_HasChunk (SlidingWindow_EvictStream sw "s") "s" 1 = false.
Proof.
  cbv zeta. split; [vm_compute; reflexivity|].
  apply (window_bounds_cache (=) _ "s" 2 one_byte); [|vm_compute; eauto].
  intros s Hs%bool_decide_eq_true. exists 1. split; [vm_compute; left|].
  cbn [sw_cache] in Hs. destruct Hs as [d Hs].
  by apply lookup_singleton_Some in Hs as [<- _].
Defined.
