(* ===== verification/Manifest.v ===== *)
(** * Streaming manifests ([internal/streaming/manifest.go])

    HLS playlists are parsed from their text; a DASH manifest is parsed from the struct
    [encoding/xml] fills ([None] when it reports an error).  [strconv.ParseFloat] is the
    argument [ParseFloat] and the verbs of a [fmt.Sprintf] format are the argument
    [format_verbs]: the theorems hold for all of them.

    The theorems: a playlist that was written from a list of addresses is read back as
    these addresses with consecutive sequence numbers; a DASH template yields at most the
    configured number of chunks, consecutively numbered, but the address of each chunk
    ends in the text [fmt.Sprintf] adds for an operand without a verb. *)

From S2P Require Import Prelude GoStrings GoFloat StreamKeys.
From Stdlib Require Import Ascii.

Inductive StreamType := StreamTypeNone | StreamTypeHLS | StreamTypeDASH.
#[export] Instance stream_type_eq_dec : EqDecision StreamType.
Proof. solve_decision. Defined.

Record ChunkInfo := mkChunkInfo {
  ci_StreamKey : string; ci_SeqNum : Z; ci_URL : string; ci_DurationMs : Z; ci_Size : Z
}.

Record ManifestInfo := mkManifestInfo {
  mi_StreamKey : string;
  mi_Type : StreamType;
  mi_Chunks : list ChunkInfo;
  mi_TargetDurMs : Z;
  mi_Endlist : bool;
  mi_MedSeq : Z;
  mi_UpdatedAt : Z
}.

(** ** Lower case

    [strings.ToLower] as far as a search for ASCII text can tell: two letters outside ASCII
    (U+0130 and U+212A) lower to ASCII letters, all others stay outside. *)
Fixpoint to_lower (l : chars) : chars :=
  match l with
  | [] => []
  | c :: l' =>
      let n := nat_of_ascii c in
      if ((65 <=? n) && (n <=? 90))%nat then ascii_of_nat (n + 32) :: to_lower l'
      else
        match n, l' with
        | 196%nat, c1 :: l2 =>
            if (nat_of_ascii c1 =? 176)%nat then ascii_of_nat 105 :: to_lower l2 else c :: to_lower l'
        | 226%nat, c1 :: c2 :: l3 =>
            if ((nat_of_ascii c1 =? 132) && (nat_of_ascii c2 =? 170))%nat
            then ascii_of_nat 107 :: to_lower l3 else c :: to_lower l'
        | _, _ => c :: to_lower l'
        end
  end.

Definition lower_suffix (ext : string) (key : string) : bool :=
  has_suffix (to_chars ext) (to_lower (to_chars key)).

Definition IsHLSChunk (key : string) : bool :=
  lower_suffix ".ts" key || lower_suffix ".aac" key || lower_suffix ".vtt" key.
Definition IsDASHChunk (key : string) : bool :=
  lower_suffix ".m4s" key || lower_suffix ".cmfv" key.

Definition IdentifyStreamType (key contentType : string) : StreamType :=
  let ct := to_lower (to_chars contentType) in
  if lower_suffix ".m3u8" key then StreamTypeHLS
  else if lower_suffix ".mpd" key then StreamTypeDASH
  else if contains (to_chars "application/vnd.apple.mpegurl") ct || contains (to_chars "application/x-mpegurl") ct
  then StreamTypeHLS
  else if contains (to_chars "application/dash+xml") ct then StreamTypeDASH
  else StreamTypeNone.

(** ** HLS *)
Definition newline : ascii := ascii_of_nat 10.
Definition carriage_return : ascii := ascii_of_nat 13.

(** [bufio.ScanLines]: a final empty line is not a line, a trailing carriage return is cut. *)
Definition raw_lines (l : chars) : list chars :=
  let ls := split_on newline l in
  match rev ls with
  | [] :: ls' => rev ls'
  | _ => ls
  end.
Definition scan_lines (l : chars) : list chars :=
  (λ x, trim_suffix [carriage_return] x) <$> raw_lines l.

(** The scanner gives up on a line that does not fit its buffer of 64 KiB. *)
Definition scan_fails (l : chars) : bool := existsb (λ x, 65536 <=? Z.of_nat (length x)) (raw_lines l).

Definition tag_targetduration : chars := to_chars "#EXT-X-TARGETDURATION:".
Definition tag_media_sequence : chars := to_chars "#EXT-X-MEDIA-SEQUENCE:".
Definition tag_endlist : chars := to_chars "#EXT-X-ENDLIST".

Section manifests.
Context (ParseFloat : string → option float64) (format_verbs : chars → Z → chars).

(** A comment or empty line; the state is the manifest and [medSeq]. *)
Definition hls_tag (st : ManifestInfo * Z) (line : chars) : ManifestInfo * Z :=
  let '(m, medSeq) := st in
  let m :=
    if has_prefix tag_targetduration line then
      match ParseFloat (of_chars (trim_prefix tag_targetduration line)) with
      | Some dur => mkManifestInfo (mi_StreamKey m) (mi_Type m) (mi_Chunks m)
                      (int_of_float (fmul dur (float_of_Z 1000))) (mi_Endlist m) (mi_MedSeq m) (mi_UpdatedAt m)
      | None => m
      end
    else m in
  let '(m, medSeq) :=
    if has_prefix tag_media_sequence line then
      match parse_int (trim_prefix tag_media_sequence line) with
      | Some s => (mkManifestInfo (mi_StreamKey m) (mi_Type m) (mi_Chunks m) (mi_TargetDurMs m)
                     (mi_Endlist m) s (mi_UpdatedAt m), s)
      | None => (m, medSeq)
      end
    else (m, medSeq) in
  if bool_decide (line = tag_endlist)
  then (mkManifestInfo (mi_StreamKey m) (mi_Type m) (mi_Chunks m) (mi_TargetDurMs m) true
          (mi_MedSeq m) (mi_UpdatedAt m), medSeq)
  else (m, medSeq).

Definition hls_line (streamKey : string) (st : ManifestInfo * Z) (raw : chars) : ManifestInfo * Z :=
  let line := trim_space raw in
  if bool_decide (line = []) || has_prefix (to_chars "#") line then hls_tag st line
  else
    let '(m, medSeq) := st in
    let chunk := mkChunkInfo streamKey medSeq (of_chars line)
                   (if 0 <? mi_TargetDurMs m then mi_TargetDurMs m else 0) 0 in
    (mkManifestInfo (mi_StreamKey m) (mi_Type m) (mi_Chunks m ++ [chunk]) (mi_TargetDurMs m)
       (mi_Endlist m) (mi_MedSeq m) (mi_UpdatedAt m), i64 (medSeq + 1)).

Definition ParseHLSManifest (now : Z) (streamKey : string) (data : chars) : result ManifestInfo :=
  let m := mkManifestInfo streamKey StreamTypeHLS [] 0 false 0 now in
  if scan_fails data then Err "scan m3u8"
  else Ok (foldl (hls_line streamKey) (m, 0) (scan_lines data)).1.

(** ** DASH *)
Record mpdSegmentTemplate := mkSegmentTemplate {
  st_Timescale : Z; st_Duration : Z; st_StartNumber : Z; st_Media : string; st_Initialization : string
}.
Record mpdSegmentList := mkSegmentList { sl_SegmentURLs : list string; sl_Duration : Z; sl_Timescale : Z }.
Record mpdAdaptationSet := mkAdaptationSet {
  as_ContentType : string;
  as_SegmentTemplate : option mpdSegmentTemplate;
  as_SegmentList : option mpdSegmentList
}.
Record mpdRoot := mkMpdRoot {
  mpd_MediaPresentationDuration : string;
  mpd_Periods : list (list mpdAdaptationSet)
}.

(** [strings.ReplaceAll] with a non-empty pattern; each turn consumes a character. *)
Fixpoint replace_all (fuel : nat) (p by_ l : chars) : chars :=
  match fuel with
  | O => l
  | S fuel' =>
      match l with
      | [] => []
      | c :: l' => if has_prefix p l then by_ ++ replace_all fuel' p by_ (drop (length p) l)
                   else c :: replace_all fuel' p by_ l'
      end
  end.
Definition ReplaceAll (l p by_ : chars) : chars := replace_all (length l) p by_ l.

Definition expandDASHTemplate (tpl : string) (num : Z) : chars :=
  let r := ReplaceAll (to_chars tpl) (to_chars "$RepresentationID$") (to_chars "1") in
  let r := ReplaceAll r (to_chars "$Number$") (format_int 10 num) in
  ReplaceAll r (to_chars "$Time$") (to_chars "0").

(** [fmt.Sprintf(format, seq)] with one [int64] operand: a format without a verb is
    followed by a report of the unused operand. *)
Definition extra_operand (n : Z) : chars := to_chars "%!(EXTRA int64=" ++ format_int 10 n ++ to_chars ")".
Definition Sprintf (format : chars) (n : Z) : chars :=
  if bool_decide (ascii_of_nat 37 ∈ format) then format_verbs format n else format ++ extra_operand n.

(** The part before the unit and what follows; no part is zero. *)
Definition duration_part (unit : ascii) (s : chars) : float64 * chars :=
  match index_byte unit s with
  | Some i => (default fzero (ParseFloat (of_chars (take i s))), drop (S i) s)
  | None => (fzero, s)
  end.

Definition parseISO8601Duration (text : string) : Z :=
  let s := to_chars text in
  if bool_decide (s = []) || negb (has_prefix (to_chars "PT") s) then 0
  else
    let '(hours, s) := duration_part (ascii_of_nat 72) (drop 2 s) in
    let '(minutes, s) := duration_part (ascii_of_nat 77) s in
    let '(seconds, _) := duration_part (ascii_of_nat 83) s in
    int_of_float (fmul (fadd (fadd (fmul hours (float_of_Z 3600)) (fmul minutes (float_of_Z 60))) seconds)
                    (float_of_Z 1000)).

(** [int64(math.Ceil(x))]. *)
Definition ceil_int (x : float64) : Z :=
  match ftrunc x with
  | Some t => let c := if fltb (float_of_Z t) x then t + 1 else t in
              if bool_decide (is_i64 c) then c else - 2 ^ 63
  | None => - 2 ^ 63
  end.

Definition segment_ms (duration timescale : Z) : Z :=
  if (0 <? timescale) && (0 <? duration) then Z.quot (i64 (duration * 1000)) timescale else 0.

Definition template_count (maxSegments manifestDur totalDurMs : Z) : Z :=
  if (0 <? manifestDur) && (0 <? totalDurMs)
  then Z.min (ceil_int (fdiv (float_of_Z manifestDur) (float_of_Z totalDurMs))) maxSegments
  else maxSegments.

Definition template_chunks (streamKey : string) (maxSegments manifestDur : Z) (st : mpdSegmentTemplate) : list ChunkInfo :=
  let totalDurMs := segment_ms (st_Duration st) (st_Timescale st) in
  let startNum := if st_StartNumber st =? 0 then 1 else st_StartNumber st in
  (λ i, let seq := i64 (startNum + Z.of_nat i) in
        mkChunkInfo streamKey seq (of_chars (Sprintf (expandDASHTemplate (st_Media st) seq) seq)) totalDurMs 0)
    <$> seq 0 (Z.to_nat (template_count maxSegments manifestDur totalDurMs)).

Definition list_chunks (streamKey : string) (sl : mpdSegmentList) : list ChunkInfo :=
  imap (λ i media, mkChunkInfo streamKey (1 + Z.of_nat i) media (segment_ms (sl_Duration sl) (sl_Timescale sl)) 0)
    (sl_SegmentURLs sl).

Definition dash_set (streamKey : string) (maxSegments manifestDur : Z) (m : ManifestInfo) (a : mpdAdaptationSet)
    : ManifestInfo :=
  let with_chunks m cs dur :=
    mkManifestInfo (mi_StreamKey m) (mi_Type m) (mi_Chunks m ++ cs) dur (mi_Endlist m) (mi_MedSeq m) (mi_UpdatedAt m) in
  let m :=
    match as_SegmentTemplate a with
    | Some st =>
        let ms := segment_ms (st_Duration st) (st_Timescale st) in
        with_chunks m (template_chunks streamKey maxSegments manifestDur st) (if 0 <? ms then ms else mi_TargetDurMs m)
    | None => m
    end in
  match as_SegmentList a with
  | Some sl => with_chunks m (list_chunks streamKey sl) (mi_TargetDurMs m)
  | None => m
  end.

(** [maxDASHSegments] is the setting, [None] for a nil configuration. *)
Definition ParseDASHManifestWithConfig (now : Z) (maxDASHSegments : option Z) (streamKey : string)
    (root : option mpdRoot) : result ManifestInfo :=
  match root with
  | None => Err "unmarshal mpd"
  | Some root =>
      let maxSegments := match maxDASHSegments with Some n => if 0 <? n then n else 200 | None => 200 end in
      let manifestDur := parseISO8601Duration (mpd_MediaPresentationDuration root) in
      let m := mkManifestInfo streamKey StreamTypeDASH [] 0 false 0 now in
      Ok (foldl (dash_set streamKey maxSegments manifestDur) m (concat (mpd_Periods root)))
  end.

(** [config.DefaultStreamingConfig] takes the limit from the environment. *)
Definition ParseDASHManifest (now : Z) (env_max : Z) (streamKey : string) (root : option mpdRoot) : result ManifestInfo :=
  ParseDASHManifestWithConfig now (Some env_max) streamKey root.
End manifests.

(** ** Reading a playlist back *)
Definition unlines (ls : list chars) : chars := ls ≫= λ l, l ++ [newline].

Lemma split_unlines ls : Forall (λ l, newline ∉ l) ls → split_on newline (unlines ls) = ls ++ [[]].
Proof.
  induction 1 as [|l ls Hl Hls IH]; [done|]. unfold unlines in *. cbn [mbind list_bind].
  rewrite <- app_assoc. cbn [app]. rewrite split_on_app_no_sep by done. by rewrite IH.
Qed.

Lemma raw_lines_unlines ls : Forall (λ l, newline ∉ l) ls → raw_lines (unlines ls) = ls.
Proof.
  intros Hls. unfold raw_lines. rewrite split_unlines by done. rewrite rev_app_distr. cbn [rev app].
  apply rev_involutive.
Qed.

(** A line of a playlist: without a newline, trimmed, not empty and not too long. *)
Record playlist_line (l : chars) : Prop := {
  pl_newline : newline ∉ l;
  pl_trimmed : no_spaces l;
  pl_nonempty : l ≠ [];
  pl_length : Z.of_nat (length l) < 65536
}.

Definition is_comment (l : chars) : bool := has_prefix (to_chars "#") l.
(** A comment that is none of the three tags the parser knows. *)
Definition plain_comment (l : chars) : Prop :=
  has_prefix tag_targetduration l = false ∧ has_prefix tag_media_sequence l = false ∧ l ≠ tag_endlist.

Lemma trimmed_no_cr l : no_spaces l → trim_suffix [carriage_return] l = l.
Proof.
  intros [_ Hr]. unfold trim_suffix, has_suffix. cbn [rev app]. destruct (has_prefix _ (rev l)) eqn:E; [|done].
  exfalso. apply has_prefix_spec in E. eapply match_any_None; [exact Hr| |exact E].
  cbn [map space_encodings]. do 4 right. left.
Qed.

Lemma scan_playlist ls : Forall playlist_line ls → scan_lines (unlines ls) = ls ∧ scan_fails (unlines ls) = false.
Proof.
  intros Hls. assert (Hnl : Forall (λ l, newline ∉ l) ls) by (eapply Forall_impl; [exact Hls|]; by intros l []).
  unfold scan_lines, scan_fails. rewrite raw_lines_unlines by done. split.
  - apply fmap_fixed. intros l Hl. eapply Forall_forall in Hls; [|exact Hl]. apply trimmed_no_cr, Hls.
  - clear Hnl. induction Hls as [|l ls Hl Hls IH]; [done|]. cbn [existsb]. rewrite IH, orb_false_r.
    apply Z.leb_gt, Hl.
Qed.

Section playlists.
Context (ParseFloat : string → option float64).

Definition chunks_from (streamKey : string) (n dur : Z) (uris : list chars) : list ChunkInfo :=
  imap (λ i u, mkChunkInfo streamKey (n + Z.of_nat i) (of_chars u) dur 0) uris.

Definition add_chunks (m : ManifestInfo) (cs : list ChunkInfo) : ManifestInfo :=
  mkManifestInfo (mi_StreamKey m) (mi_Type m) (mi_Chunks m ++ cs) (mi_TargetDurMs m) (mi_Endlist m)
    (mi_MedSeq m) (mi_UpdatedAt m).

Lemma add_chunks_nil m : add_chunks m [] = m.
Proof. destruct m. unfold add_chunks. cbn. by rewrite app_nil_r. Qed.

Lemma add_chunks_app m a b : add_chunks (add_chunks m a) b = add_chunks m (a ++ b).
Proof. unfold add_chunks. cbn. by rewrite app_assoc. Qed.

Definition is_uri (l : chars) : Prop := is_comment l = false.
#[local] Instance is_uri_dec l : Decision (is_uri l).
Proof. unfold is_uri. apply _. Defined.

Lemma hls_line_uri sk m n l :
  playlist_line l → is_uri l →
  hls_line ParseFloat sk (m, n) l =
    (add_chunks m [mkChunkInfo sk n (of_chars l) (if 0 <? mi_TargetDurMs m then mi_TargetDurMs m else 0) 0], i64 (n + 1)).
Proof.
  intros [_ Ht Hne _] Hu. unfold hls_line. rewrite trim_space_id by done.
  rewrite bool_decide_eq_false_2 by done. unfold is_uri, is_comment in Hu. rewrite Hu. done.
Qed.

Lemma hls_line_comment sk m n l :
  playlist_line l → is_comment l = true → plain_comment l → hls_line ParseFloat sk (m, n) l = (m, n).
Proof.
  intros [_ Ht Hne _] Hc (H1 & H2 & H3). unfold hls_line. rewrite trim_space_id by done.
  unfold is_comment in Hc. rewrite Hc, orb_true_r. unfold hls_tag. rewrite H1, H2.
  by rewrite bool_decide_eq_false_2.
Qed.

Lemma hls_body sk body : ∀ m n,
  Forall playlist_line body → Forall (λ l, is_comment l = true → plain_comment l) body →
  - 2 ^ 63 ≤ n → n + Z.of_nat (length (filter is_uri body)) < 2 ^ 63 →
  foldl (hls_line ParseFloat sk) (m, n) body =
    (add_chunks m (chunks_from sk n (if 0 <? mi_TargetDurMs m then mi_TargetDurMs m else 0) (filter is_uri body)),
     n + Z.of_nat (length (filter is_uri body))).
Proof.
  induction body as [|l body IH]; intros m n Hpl Hpc Hlo Hhi; cbn [foldl].
  { rewrite filter_nil. cbn. by rewrite add_chunks_nil, Z.add_0_r. }
  apply Forall_cons in Hpl as [Hl Hpl]. apply Forall_cons in Hpc as [Hc Hpc].
  destruct (decide (is_uri l)) as [Hu|Hu].
  - rewrite filter_cons_True in Hhi |- * by done. cbn [length] in *. rewrite Nat2Z.inj_succ in *.
    rewrite hls_line_uri by done. rewrite i64_id by (unfold is_i64; lia).
    rewrite IH by (try done; lia). cbn [mi_TargetDurMs add_chunks]. rewrite add_chunks_app.
    f_equal; [|lia]. f_equal. unfold chunks_from. cbn [imap]. rewrite Z.add_0_r. cbn [app]. f_equal.
    apply imap_ext. intros i u _. cbn beta. unfold compose. replace (n + 1 + Z.of_nat i) with (n + Z.of_nat (S i)) by lia. done.
  - rewrite filter_cons_False in Hhi |- * by done. rewrite hls_line_comment; [by apply IH|done| |].
    + unfold is_uri in Hu. by destruct (is_comment l).
    + apply Hc. unfold is_uri in Hu. by destruct (is_comment l).
Qed.

(** A media playlist: its header, comments and addresses, and the end tag if it is over. *)
Definition playlist (n : Z) (body : list chars) (over : bool) : chars :=
  unlines ([to_chars "#EXTM3U"; tag_media_sequence ++ format_int 10 n] ++ body ++ (if over then [tag_endlist] else [])).

Lemma format_int_pad_0 n : format_int 10 n = format_int_pad 0 n.
Proof. done. Qed.

(** Text between two printable characters is trimmed. *)
Definition printable (c : ascii) : bool := ((33 <=? nat_of_ascii c) && (nat_of_ascii c <=? 126))%nat.
Definition starts_unprintable (e : chars) : bool := match e with c :: _ => negb (printable c) | [] => false end.

Lemma match_any_printable encs c l :
  forallb starts_unprintable encs = true → printable c = true → match_any encs (c :: l) = None.
Proof.
  intros He Hc. apply match_any_None. intros e Hin Hp. rewrite forallb_forall in He.
  specialize (He e (proj1 (list_elem_of_In _ _) Hin)). destruct e as [|x e]; [done|].
  apply prefix_cons_inv_1 in Hp as ->. cbn in He. by rewrite Hc in He.
Qed.

Lemma printable_ends l c l1 d l2 :
  l = c :: l1 → rev l = d :: l2 → printable c = true → printable d = true → no_spaces l.
Proof. intros Hl Hr Hc Hd. split; [rewrite Hl|rewrite Hr]; by apply match_any_printable. Qed.

Lemma digit_printable c : is_digit c → printable c = true.
Proof.
  unfold is_digit, digit_val, printable. intros [d Hd]. case_match eqn:E; [|done]. bool_to_prop.
  apply andb_true_intro. split; apply Nat.leb_le; lia.
Qed.

Lemma format_loop_max base fuel n acc : (length (format_loop base fuel n acc) ≤ fuel + length acc)%nat.
Proof.
  revert n acc. induction fuel as [|fuel IH]; intros n acc; cbn [format_loop]; [done|].
  case_match; [cbn; lia|]. etrans; [apply IH|]. cbn. lia.
Qed.

Lemma format_int_short n : is_i64 n → Z.of_nat (length (format_int 10 n)) < 100.
Proof.
  intros Hn. assert (Hu : ∀ m, 0 ≤ m ≤ 2 ^ 63 → (length (format_uint 10 m) ≤ 64)%nat).
  { intros m Hm. unfold format_uint. etrans; [apply format_loop_max|]. cbn [length].
    assert (Z.log2 m ≤ Z.log2 (2 ^ 63)) by (apply Z.log2_le_mono; lia). rewrite Z.log2_pow2 in H by lia. lia. }
  unfold is_i64 in Hn. unfold format_int. destruct (n <? 0) eqn:E; bool_to_prop.
  - cbn [length]. specialize (Hu (- n) ltac:(lia)). lia.
  - specialize (Hu n ltac:(lia)). lia.
Qed.

Lemma format_int_ends n : ∃ d l, rev (format_int 10 n) = d :: l ∧ printable d = true.
Proof.
  assert (Hu : ∀ m, 0 ≤ m → ∃ d l, rev (format_uint 10 m) = d :: l ∧ printable d = true).
  { intros m Hm. destruct (rev (format_uint 10 m)) as [|d l] eqn:Er.
    - apply (f_equal (@rev _)) in Er. rewrite rev_involutive in Er. by apply format_uint_nonempty in Er.
    - exists d, l. split; [done|]. apply digit_printable. eapply (proj1 (Forall_forall _ _) (format_uint_digits m Hm)).
      apply elem_of_rev. rewrite Er. left. }
  unfold format_int. destruct (n <? 0) eqn:E; bool_to_prop; [|by apply Hu].
  destruct (Hu (- n) ltac:(lia)) as (d & l & Hr & Hd). exists d, (l ++ [ascii_of_nat 45]). cbn [rev]. by rewrite Hr.
Qed.

Lemma media_sequence_line n : is_i64 n → playlist_line (tag_media_sequence ++ format_int 10 n).
Proof.
  intros Hn. destruct (format_int_ends n) as (d & l & Hr & Hd). split; [| |done|].
  - rewrite elem_of_app. intros [Hin|Hin].
    + vm_compute in Hin. repeat (apply elem_of_cons in Hin as [?|Hin]; [done|]). by apply elem_of_nil in Hin.
    + rewrite format_int_pad_0 in Hin. by apply format_int_pad_chars in Hin as [?|[? ?]].
  - eapply printable_ends; [reflexivity| |done|exact Hd]. rewrite rev_app_distr, Hr. reflexivity.
  - rewrite length_app. pose proof (format_int_short n Hn). change (length tag_media_sequence) with 22%nat. lia.
Qed.

Lemma constant_line l : forallb printable l = true → l ≠ [] → Z.of_nat (length l) < 65536 → playlist_line l.
Proof.
  intros Hp Hne Hl. assert (Hall : ∀ c, c ∈ l → printable c = true).
  { intros c Hc. rewrite forallb_forall in Hp. by apply Hp, list_elem_of_In. }
  split; [|..|done|done].
  - intros Hin. by apply Hall in Hin.
  - destruct l as [|c l1]; [done|]. destruct (rev (c :: l1)) as [|d l2] eqn:Er.
    { apply (f_equal (@rev _)) in Er. by rewrite rev_involutive in Er. }
    eapply printable_ends; [done|exact Er| |]; apply Hall; [left|]. apply elem_of_rev. rewrite Er. left.
Qed.

Lemma hls_sequence_tag sk m n0 n :
  is_i64 n → mi_TargetDurMs m = 0 →
  hls_line ParseFloat sk (m, n0) (tag_media_sequence ++ format_int 10 n) =
    (mkManifestInfo (mi_StreamKey m) (mi_Type m) (mi_Chunks m) (mi_TargetDurMs m) (mi_Endlist m) n (mi_UpdatedAt m), n).
Proof.
  intros Hn Ht. pose proof (media_sequence_line n Hn) as [_ Hs _ _]. unfold hls_line. rewrite trim_space_id by done.
  rewrite bool_decide_eq_false_2 by done. cbn [orb].
  change (has_prefix (to_chars "#") (tag_media_sequence ++ format_int 10 n)) with true. cbn iota. unfold hls_tag.
  change (has_prefix tag_targetduration (tag_media_sequence ++ format_int 10 n)) with false. cbn iota.
  rewrite has_prefix_app, trim_prefix_app. rewrite format_int_pad_0, parse_format_int_pad by done.
  rewrite bool_decide_eq_false_2; [done|]. done.
Qed.

Lemma hls_endlist_tag sk m n :
  hls_line ParseFloat sk (m, n) tag_endlist =
    (mkManifestInfo (mi_StreamKey m) (mi_Type m) (mi_Chunks m) (mi_TargetDurMs m) true (mi_MedSeq m) (mi_UpdatedAt m), n).
Proof. done. Qed.

(** A media playlist is read back as it was written: from a playlist that
    announces the sequence number [n], with any comments between its addresses, the parser
    recovers exactly the addresses in order, numbered [n], [n + 1], ..., the announced
    number, and whether the playlist has ended. *)
Theorem hls_playlist_roundtrip now sk n body over :
  is_i64 n → n + Z.of_nat (length (filter is_uri body)) < 2 ^ 63 →
  Forall playlist_line body → Forall (λ l, is_comment l = true → plain_comment l) body →
  ParseHLSManifest ParseFloat now sk (playlist n body over) =
    Ok (mkManifestInfo sk StreamTypeHLS (chunks_from sk n 0 (filter is_uri body)) 0 over n now).
Proof.
  intros Hn Hhi Hpl Hpc. unfold ParseHLSManifest, playlist.
  assert (Hall : Forall playlist_line ([to_chars "#EXTM3U"; tag_media_sequence ++ format_int 10 n] ++ body ++
    (if over then [tag_endlist] else []))).
  { apply Forall_app. split; [|apply Forall_app; split; [done|]].
    - constructor; [by apply constant_line|]. constructor; [by apply media_sequence_line|constructor].
    - destruct over; [|constructor]. constructor; [by apply constant_line|constructor]. }
  destruct (scan_playlist _ Hall) as [Hscan Hfail]. rewrite Hfail, Hscan. cbn [app foldl].
  rewrite hls_line_comment by (try done; by apply constant_line). rewrite hls_sequence_tag by done.
  cbn [mi_StreamKey mi_Type mi_Chunks mi_TargetDurMs mi_Endlist mi_UpdatedAt].
  rewrite foldl_app, hls_body by (done || apply Hn). cbn [mi_TargetDurMs Z.ltb Z.compare].
  destruct over; cbn [foldl]; [rewrite hls_endlist_tag|]; done.
Qed.
End playlists.

Definition demo_body : list chars := to_chars <$> ["#EXTINF:2.0,"; "seg_7.ts"; "#EXTINF:2.0,"; "seg_8.ts"].
Definition no_floats (s : string) : option float64 := None.

Lemma hls_playlist_roundtrip_witness :
  ParseHLSManifest no_floats 0 "live" (playlist 7 demo_body true) =
    Ok (mkManifestInfo "live" StreamTypeHLS
          [mkChunkInfo "live" 7 "seg_7.ts" 0 0; mkChunkInfo "live" 8 "seg_8.ts" 0 0] 0 true 7 0).
Proof.
  apply (hls_playlist_roundtrip no_floats 0 "live" 7 demo_body true).
  - unfold is_i64. lia.
  - vm_compute. reflexivity.
  - repeat constructor; apply constant_line; (reflexivity || discriminate).
  - repeat constructor; discriminate.
Defined.

(** ** DASH templates *)
Lemma elem_replace_all fuel p b l x : x ∈ replace_all fuel p b l → x ∈ b ∨ x ∈ l.
Proof.
  revert l. induction fuel as [|fuel IH]; intros l; cbn [replace_all]; [by right|].
  destruct l as [|c l]; [by right|]. destruct (has_prefix p (c :: l)).
  - intros [Hx|Hx]%elem_of_app; [by left|]. apply IH in Hx as [?|?%elem_of_drop_1]; auto.
  - intros [->|Hx]%elem_of_cons; [right; left|]. apply IH in Hx as [?|?]; [by left|right; by right].
Qed.

Lemma expanded_no_percent tpl n : ascii_of_nat 37 ∉ to_chars tpl → ascii_of_nat 37 ∉ expandDASHTemplate tpl n.
Proof.
  intros Ht Hin. unfold expandDASHTemplate in Hin. repeat (apply elem_replace_all in Hin as [Hin|Hin]; [|]); try done.
  - vm_compute in Hin. by apply list_elem_of_singleton in Hin.
  - rewrite format_int_pad_0 in Hin. by apply format_int_pad_chars in Hin as [?|[? ?]].
  - vm_compute in Hin. by apply list_elem_of_singleton in Hin.
Qed.

Section dash.
Context (format_verbs : chars → Z → chars).

(** A DASH segment template yields at most the configured number of chunks, with
    consecutive numbers from the start number; but every chunk's address is the expanded
    template followed by the text [%!(EXTRA int64=N)], which [fmt.Sprintf] appends because
    the expanded template has no verb for the number, so no chunk has the address the
    template names. *)
Theorem dash_template_addresses sk maxSegments manifestDur st i c :
  0 ≤ maxSegments →
  ascii_of_nat 37 ∉ to_chars (st_Media st) →
  template_chunks format_verbs sk maxSegments manifestDur st !! i = Some c →
  Z.of_nat (length (template_chunks format_verbs sk maxSegments manifestDur st)) ≤ maxSegments ∧
  ci_SeqNum c = i64 ((if st_StartNumber st =? 0 then 1 else st_StartNumber st) + Z.of_nat i) ∧
  to_chars (ci_URL c) = expandDASHTemplate (st_Media st) (ci_SeqNum c) ++ extra_operand (ci_SeqNum c) ∧
  to_chars (ci_URL c) ≠ expandDASHTemplate (st_Media st) (ci_SeqNum c).
Proof.
  intros Hmax Hpc Hi. unfold template_chunks in *. set (n := template_count _ _ _) in *.
  apply list_lookup_fmap_Some in Hi as (j & -> & [Hj _]%lookup_seq).
  cbn [ci_SeqNum ci_URL Nat.add] in *. subst j. unfold Sprintf. rewrite bool_decide_eq_false_2 by (by apply expanded_no_percent).
  rewrite to_of_chars. split_and!; [|done|done|].
  - rewrite length_fmap, length_seq. assert (n ≤ maxSegments) by (unfold n, template_count; case_match; lia). lia.
  - intros E. apply (f_equal length) in E. rewrite length_app in E. unfold extra_operand in E.
    rewrite !length_app in E. change (length (to_chars ")")) with 1%nat in E. lia.
Qed.
End dash.

Definition demo_template : mpdSegmentTemplate := mkSegmentTemplate 1000 2000 5 "seg-$Number$.m4s" "".

Lemma dash_template_addresses_witness :
  to_chars "seg-5.m4s%!(EXTRA int64=5)" = expandDASHTemplate "seg-$Number$.m4s" 5 ++ extra_operand 5.
Proof.
  apply (dash_template_addresses (λ f _, f) "m" 3 0 demo_template 0
    (mkChunkInfo "m" 5 "seg-5.m4s%!(EXTRA int64=5)" 2000 0)).
  - lia.
  - eapply bool_decide_eq_false_1. vm_compute. reflexivity.
  - vm_compute. reflexivity.
Defined.
