(* ===== verification/EdgeCache.v ===== *)
(** * The disk cache of an edge node ([internal/edgeagent/cache.go])

    The cache directory holds one sub-directory per entry, named by the hex MD5 of
    the resource key, with a [content] file and a [meta.json].  The model keeps
    the directory as a map from sub-directory names to their two files, beside the
    in-memory counters and maps of [Cache].  The failures of the file system and
    the order in which [range] visits a map are arguments of the operations; the
    clock is the argument [now].

    The theorems: the counters describe the files after any sequence of calls,
    faults included; a successful [Put] leaves the cache within its limit; the
    eviction takes the least recently used entries first; what was put is read
    back; the cache implements the [CacheAccessor] of the sliding window; and the
    summary the node sends about its cache never announces a resource key. *)

From S2P Require Import Prelude GoHash GoStrings Bloom GoFloat ContentIndex StreamKeys SlidingWindow.

(** ** Files *)
Record cacheMeta := mkCacheMeta { meta_LastAccess : Z; meta_Size : Z }.

(** [meta.json]: absent, not the JSON of a [cacheMeta], or the JSON of one. *)
Inductive metaFile :=
| MetaAbsent
| MetaBad
| MetaJSON (m : cacheMeta).

Record entryDir := mkEntryDir { ent_content : option bytes; ent_meta : metaFile }.

Record Cache := mkCache {
  c_disk : gmap string entryDir;
  c_maxGB : Z;
  c_maxBytes : Z;
  c_hits : Z;
  c_misses : Z;
  c_size : Z;
  c_count : Z;
  c_accessTimes : gmap string Z;
  c_sizes : gmap string Z
}.

(** [filepath.Base(c.keyPath(key))]. *)
Definition entryName (key : string) : string := hex_encode (md5_sum (bytes_of_string key)).

Definition set_disk (c : Cache) d : Cache :=
  mkCache d (c_maxGB c) (c_maxBytes c) (c_hits c) (c_misses c) (c_size c) (c_count c)
    (c_accessTimes c) (c_sizes c).
Definition set_counters (c : Cache) (sz cnt : Z) : Cache :=
  mkCache (c_disk c) (c_maxGB c) (c_maxBytes c) (c_hits c) (c_misses c) sz cnt
    (c_accessTimes c) (c_sizes c).
Definition set_maps (c : Cache) at' szs : Cache :=
  mkCache (c_disk c) (c_maxGB c) (c_maxBytes c) (c_hits c) (c_misses c) (c_size c) (c_count c)
    at' szs.

Definition dir_meta (d : gmap string entryDir) (name : string) : metaFile :=
  match d !! name with Some e => ent_meta e | None => MetaAbsent end.
Definition dir_content (d : gmap string entryDir) (name : string) : option bytes :=
  d !! name ≫= ent_content.

(** ** Operations *)

(** The directory scan of [NewCache]: entries without a readable [meta.json] are
    skipped. *)
Definition meta_of (e : entryDir) : option cacheMeta :=
  match ent_meta e with MetaJSON m => Some m | _ => None end.

Definition NewCache (mkdir_ok : bool) (disk : gmap string entryDir) (maxGB : Z) : result Cache :=
  if negb mkdir_ok then Err "create cache dir"
  else
    let metas := omap meta_of disk in
    let totalSize := map_fold (λ _ m t, i64 (t + meta_Size m)) 0 metas in
    let totalCount := map_fold (λ _ _ t, i64 (t + 1)) 0 metas in
    Ok (mkCache disk maxGB (i64 (maxGB * 1024 * 1024 * 1024)) 0 0 totalSize totalCount
          (meta_LastAccess <$> metas) (meta_Size <$> metas)).

(** What [os.Open] and [f.Stat] may answer in [Get]. *)
Inductive openOutcome := OpenFine | OpenFails | StatFails.

(** [Get] without its goroutine, which is the separate step [Cache_touch]. *)
Definition Cache_Get (io : openOutcome) (c : Cache) (key : string) : result (bytes * Z) * Cache :=
  match io with
  | OpenFails => (Err "open cache", c)
  | _ =>
      match dir_content (c_disk c) (entryName key), io with
      | None, _ =>
          (Err "cache miss",
           mkCache (c_disk c) (c_maxGB c) (c_maxBytes c) (c_hits c) (i64 (c_misses c + 1))
             (c_size c) (c_count c) (c_accessTimes c) (c_sizes c))
      | Some b, StatFails => (Err "stat cache", c)
      | Some b, _ =>
          (Ok (b, Z.of_nat (length b)),
           mkCache (c_disk c) (c_maxGB c) (c_maxBytes c) (i64 (c_hits c + 1)) (c_misses c)
             (c_size c) (c_count c) (c_accessTimes c) (c_sizes c))
      end
  end.

(** The goroutine [Get] starts; it runs at any later time. *)
Definition Cache_touch (c : Cache) (name : string) (now : Z) : Cache :=
  set_maps c (<[name := now]> (c_accessTimes c)) (c_sizes c).

Definition Cache_Has (c : Cache) (key : string) : bool :=
  bool_decide (is_Some (dir_content (c_disk c) (entryName key))).

(** *** Eviction *)
Record evictEntry := mkEvictEntry { ev_key : string; ev_lastAccess : Z; ev_size : Z }.

Definition ev_le (a b : evictEntry) : Prop := ev_lastAccess a ≤ ev_lastAccess b.
#[export] Instance ev_le_dec : RelDecision ev_le.
Proof. intros a b. unfold ev_le. apply _. Defined.
#[export] Instance ev_le_preorder : PreOrder ev_le.
Proof. split; [intros a|intros a b c]; unfold ev_le; lia. Qed.
#[export] Instance ev_le_total : Total ev_le.
Proof. intros a b. unfold ev_le. lia. Qed.

(** The entries collected by [range c.accessTimes] in the order [visit]: the names
    without a known size are skipped. *)
Definition evict_entries (c : Cache) (visit : list (string * Z)) : list evictEntry :=
  omap (λ '(k, v), match c_sizes c !! k with
                   | Some sz => Some (mkEvictEntry k v sz)
                   | None => None
                   end) visit.

Definition evict_one (c : Cache) (e : evictEntry) : Cache :=
  let c1 := set_disk c (delete (ev_key e) (c_disk c)) in
  let c2 := set_maps c1 (delete (ev_key e) (c_accessTimes c)) (delete (ev_key e) (c_sizes c)) in
  set_counters c2 (i64 (c_size c - ev_size e)) (i64 (c_count c - 1)).

(** The loop; [rm_ok] tells which [os.RemoveAll] succeed (a failing one is assumed
    to leave the entry in place). *)
Fixpoint evict_loop (rm_ok : string → bool) (targetBytes freed : Z) (c : Cache)
    (entries : list evictEntry) : Z * Cache :=
  match entries with
  | [] => (freed, c)
  | e :: es =>
      if targetBytes <=? freed then (freed, c)
      else if negb (rm_ok (ev_key e)) then evict_loop rm_ok targetBytes freed c es
      else evict_loop rm_ok targetBytes (i64 (freed + ev_size e)) (evict_one c e) es
  end.

(** [sort.Slice] is not stable and [range] is not ordered; every outcome of the two
    is the stable sort of some visiting order. *)
Definition Cache_evict (rm_ok : string → bool) (visit : list (string * Z)) (c : Cache)
    (targetBytes : Z) : Cache :=
  (evict_loop rm_ok targetBytes 0 c (merge_sort ev_le (evict_entries c visit))).2.

(** *** Put *)

(** The fate of the file operations of [Put]: a failed copy leaves [os.Remove]'s
    result, a failed [os.WriteFile] leaves some [meta.json]. *)
Record putIO := mkPutIO {
  io_read_ok : bool;
  io_mkdir_ok : bool;
  io_create_ok : bool;
  io_copy_fail : option (option bytes);
  io_write_fail : option metaFile;
  io_rm_ok : string → bool
}.

Definition put_fine : putIO := mkPutIO true true true None None (λ _, true).

Definition set_entry (c : Cache) (name : string) (content : option bytes) (meta : metaFile) : Cache :=
  set_disk c (<[name := mkEntryDir content meta]> (c_disk c)).

(** Size of the previous entry as [Put] reads it: [Some] when it [existed]. *)
Definition put_old (read_ok : bool) (meta : metaFile) : option Z :=
  if read_ok then match meta with MetaJSON m => Some (meta_Size m) | _ => None end else None.

Definition Cache_Put (io : putIO) (visit : gmap string Z → list (string * Z)) (now : Z)
    (c : Cache) (key : string) (data : bytes) : result unit * Cache :=
  let name := entryName key in
  let meta := dir_meta (c_disk c) name in
  let old := put_old (io_read_ok io) meta in
  if negb (io_mkdir_ok io) then (Err "mkdir cache entry", c)
  else if negb (io_create_ok io) then
    (Err "create cache file", set_entry c name (dir_content (c_disk c) name) meta)
  else
    match io_copy_fail io with
    | Some rest => (Err "write cache", set_entry c name rest meta)
    | None =>
        let written := Z.of_nat (length data) in
        match io_write_fail io with
        | Some rest => (Err "write meta", set_entry c name (Some data) rest)
        | None =>
            let c1 := set_entry c name (Some data) (MetaJSON (mkCacheMeta now written)) in
            let c2 := set_maps c1 (<[name := now]> (c_accessTimes c)) (<[name := written]> (c_sizes c)) in
            let c3 :=
              match old with
              | Some oldSize => set_counters c2 (i64 (c_size c + (written - oldSize))) (c_count c)
              | None => set_counters c2 (i64 (c_size c + written)) (i64 (c_count c + 1))
              end in
            if c_maxBytes c3 <? c_size c3
            then (Ok tt, Cache_evict (io_rm_ok io) (visit (c_accessTimes c3)) c3
                           (i64 (c_size c3 - c_maxBytes c3)))
            else (Ok tt, c3)
        end
    end.

(** *** Deletion *)
Definition Cache_Delete (read_ok rm_ok : bool) (c : Cache) (key : string) : result unit * Cache :=
  let name := entryName key in
  let meta := if read_ok then dir_meta (c_disk c) name else MetaAbsent in
  if negb rm_ok then (Err "delete cache entry", c)
  else
    let c1 := set_disk c (delete name (c_disk c)) in
    let c2 := set_maps c1 (delete name (c_accessTimes c)) (delete name (c_sizes c)) in
    match meta with
    | MetaAbsent => (Ok tt, c2)
    | MetaBad => (Ok tt, set_counters c2 (c_size c) (i64 (c_count c - 1)))
    | MetaJSON m => (Ok tt, set_counters c2 (i64 (c_size c - meta_Size m)) (i64 (c_count c - 1)))
    end.

(** The map of results, in the order of the keys. *)
Fixpoint Cache_DeleteKeys (io : string → bool * bool) (c : Cache) (keys : list string)
    : gmap string (result unit) * Cache :=
  match keys with
  | [] => (∅, c)
  | k :: ks =>
      let '(r, c1) := Cache_Delete (io k).1 (io k).2 c k in
      let '(rs, c2) := Cache_DeleteKeys io c1 ks in
      (match rs !! k with Some _ => rs | None => <[k := r]> rs end, c2)
  end.

(** *** Reports *)
Record CacheStats := mkCacheStats {
  stat_Size : Z; stat_MaxGB : Z; stat_ItemCount : Z; stat_Hits : Z; stat_Misses : Z
}.
Definition Cache_Stats (c : Cache) : CacheStats :=
  mkCacheStats (c_size c) (c_maxGB c) (c_count c) (c_hits c) (c_misses c).

Definition newer_first (a b : string * Z) : Prop := b.2 ≤ a.2.
#[export] Instance newer_first_dec : RelDecision newer_first.
Proof. intros a b. unfold newer_first. apply _. Defined.

(** [make([]string, limit)] panics on a negative limit. *)
Definition Cache_HotKeys (visit : gmap string Z → list (string * Z)) (c : Cache) (limit : Z)
    : result (list string) :=
  let items := merge_sort newer_first (visit (c_accessTimes c)) in
  if limit <? 0 then Panic else Ok (take (Z.to_nat limit) items.*1).

Definition Cache_AllKeys (visit : gmap string Z → list (string * Z)) (c : Cache) : list string :=
  (visit (c_accessTimes c)).*1.

(** [reporter.go], [buildContentSummary]; [nil] for an empty cache, no [BloomK]. *)
Definition Reporter_buildContentSummary (math_Log : float64 → float64)
    (visit : gmap string Z → list (string * Z)) (nodeID : string) (now : Z) (c : Cache)
    : result (option ContentSummary) :=
  let allKeys := Cache_AllKeys visit c in
  if (length allKeys =? 0)%nat then Ok None
  else
    let! hot := Cache_HotKeys visit c 20 in
    let n := Z.of_nat (length allKeys) in
    let bf := NewBloomFilter math_Log (if 100 <? n then n else 100) (float_const 5 100) in
    let! bf' := add_all bf (bytes_of_string <$> allKeys) in
    Ok (Some (mkContentSummary nodeID (Some hot) (Some (BloomFilter_Bytes bf')) 0 n now)).

(** ** The accounting invariant *)
Definition total (m : gmap string Z) : Z := map_fold (λ _ s t, s + t) 0 m.

Lemma total_empty : total ∅ = 0.
Proof. apply map_fold_empty. Qed.

Lemma total_insert m k s : m !! k = None → total (<[k := s]> m) = s + total m.
Proof. intros Hk. unfold total. rewrite map_fold_insert_L; [done|intros; lia|done]. Qed.

Lemma total_delete m k s : m !! k = Some s → total m = s + total (delete k m).
Proof.
  intros Hk. rewrite <- (insert_delete_id m k s) at 1 by done.
  by rewrite total_insert by apply lookup_delete_eq.
Qed.

Lemma total_nonneg m : map_Forall (λ _ s, 0 ≤ s) m → 0 ≤ total m.
Proof.
  induction m as [|k s m Hk IH] using map_ind; [by rewrite total_empty|].
  intros [Hs Hm]%map_Forall_insert; [|done]. rewrite total_insert by done. specialize (IH Hm). lia.
Qed.

Definition sizes_of (disk : gmap string entryDir) : gmap string Z :=
  meta_Size <$> omap meta_of disk.

Record cache_ok (c : Cache) : Prop := {
  ok_sizes : c_sizes c = sizes_of (c_disk c);
  ok_meta : ∀ name, dir_meta (c_disk c) name ≠ MetaBad;
  ok_access : dom (c_sizes c) ⊆ dom (c_accessTimes c);
  ok_nonneg : map_Forall (λ _ s, 0 ≤ s) (c_sizes c);
  ok_size : c_size c = i64 (total (c_sizes c));
  ok_count : c_count c = i64 (Z.of_nat (size (c_sizes c)))
}.

Lemma sizes_of_insert disk name content m :
  sizes_of (<[name := mkEntryDir content (MetaJSON m)]> disk) = <[name := meta_Size m]> (sizes_of disk).
Proof. unfold sizes_of. by rewrite (omap_insert_Some meta_of _ _ _ m), fmap_insert. Qed.

Lemma sizes_of_delete disk name : sizes_of (delete name disk) = delete name (sizes_of disk).
Proof. unfold sizes_of. by rewrite omap_delete, fmap_delete. Qed.

Lemma sizes_of_lookup disk name :
  sizes_of disk !! name =
    match dir_meta disk name with MetaJSON m => Some (meta_Size m) | _ => None end.
Proof.
  unfold sizes_of, dir_meta. rewrite lookup_fmap, lookup_omap.
  destruct (disk !! name) as [[content []]|]; done.
Qed.

Lemma sizes_of_same_meta disk name content :
  sizes_of (<[name := mkEntryDir content (dir_meta disk name)]> disk) = sizes_of disk.
Proof.
  apply map_eq. intros n. rewrite !sizes_of_lookup. unfold dir_meta at 1.
  destruct (decide (n = name)) as [->|Hn].
  - by rewrite lookup_insert_eq.
  - by rewrite lookup_insert_ne by done.
Qed.

Lemma dir_meta_insert disk name e n :
  dir_meta (<[name := e]> disk) n = if decide (n = name) then ent_meta e else dir_meta disk n.
Proof.
  unfold dir_meta. case_decide as Hn; [subst; by rewrite lookup_insert_eq|by rewrite lookup_insert_ne].
Qed.

Lemma dir_meta_delete disk name n :
  dir_meta (delete name disk) n = if decide (n = name) then MetaAbsent else dir_meta disk n.
Proof.
  unfold dir_meta. case_decide as Hn; [subst; by rewrite lookup_delete_eq|by rewrite lookup_delete_ne].
Qed.

(** A failed [Put] that kept the meta file changes no counter. *)
Lemma set_entry_ok c name content :
  cache_ok c → cache_ok (set_entry c name content (dir_meta (c_disk c) name)).
Proof.
  intros [H1 H2 H3 H4 H5 H6]. split; simpl; try done.
  - by rewrite sizes_of_same_meta.
  - intros n. rewrite dir_meta_insert. case_decide; simpl; [subst|]; apply H2.
Qed.

(** Dropping one counted entry with the counters adjusted. *)
Lemma evict_one_ok c e :
  cache_ok c → c_sizes c !! ev_key e = Some (ev_size e) → cache_ok (evict_one c e).
Proof.
  intros [H1 H2 H3 H4 H5 H6] Hk. split; simpl.
  - by rewrite sizes_of_delete, H1.
  - intros n. rewrite dir_meta_delete. case_decide; [done|apply H2].
  - rewrite !dom_delete_L. set_solver.
  - by apply map_Forall_delete.
  - rewrite H5. change (i64 (i64 (total (c_sizes c)) + - ev_size e) = i64 (total (delete (ev_key e) (c_sizes c)))).
    rewrite i64_add_l. f_equal. rewrite (total_delete _ _ _ Hk). lia.
  - rewrite H6. change (i64 (i64 (Z.of_nat (size (c_sizes c))) + - 1) = i64 (Z.of_nat (size (delete (ev_key e) (c_sizes c))))).
    rewrite i64_add_l. f_equal. rewrite map_size_delete, Hk.
    assert (size (c_sizes c) ≠ 0%nat) by (intros He%map_size_empty_inv; by rewrite He in Hk). lia.
Qed.

(** The entries an eviction works on: distinct, with the sizes of the map. *)
Definition entries_ok (c : Cache) (es : list evictEntry) : Prop :=
  NoDup (ev_key <$> es) ∧ ∀ e, e ∈ es → c_sizes c !! ev_key e = Some (ev_size e).

Lemma entries_ok_evict c e es : entries_ok c (e :: es) → entries_ok (evict_one c e) es.
Proof.
  intros [Hnd Hl]. apply NoDup_cons in Hnd as [Hni Hnd]. split; [done|].
  intros e' He'. simpl. rewrite lookup_delete_ne; [by apply Hl; right|].
  intros Heq. apply Hni. rewrite Heq. by apply list_elem_of_fmap_2.
Qed.

Lemma entries_ok_tail c e es : entries_ok c (e :: es) → entries_ok c es.
Proof.
  intros [Hnd Hl]. apply NoDup_cons in Hnd as [_ Hnd]. split; [done|].
  intros e' He'. apply Hl. by right.
Qed.

Lemma evict_loop_ok rm_ok target freed c es :
  cache_ok c → entries_ok c es → cache_ok (evict_loop rm_ok target freed c es).2.
Proof.
  revert freed c. induction es as [|e es IH]; intros freed c Hc He; cbn [evict_loop]; [done|].
  destruct (target <=? freed); [done|]. destruct (rm_ok (ev_key e)); simpl.
  - apply IH; [|by apply entries_ok_evict]. apply evict_one_ok; [done|]. apply He. left.
  - apply IH; [done|]. by eapply entries_ok_tail.
Qed.

Lemma evict_entries_elem c visit e :
  e ∈ evict_entries c visit ↔
  (ev_key e, ev_lastAccess e) ∈ visit ∧ c_sizes c !! ev_key e = Some (ev_size e).
Proof.
  unfold evict_entries. rewrite list_elem_of_omap. split.
  - intros ([k v] & Hin & Hm). destruct (c_sizes c !! k) eqn:E; simplify_eq/=. done.
  - intros [Hin Hs]. exists (ev_key e, ev_lastAccess e). rewrite Hs. by destruct e.
Qed.

Lemma evict_entries_keys c visit : (ev_key <$> evict_entries c visit) `sublist_of` visit.*1.
Proof.
  induction visit as [|[k v] l IH]; [done|]. cbn [evict_entries omap list_omap fmap list_fmap fst].
  destruct (c_sizes c !! k); cbn [fmap list_fmap ev_key]; by constructor.
Qed.

(** The order in which [range] visits a map: any order of its bindings. *)
Definition visits (visit : list (string * Z)) (m : gmap string Z) : Prop := visit ≡ₚ map_to_list m.

Lemma sorted_entries_ok c visit :
  visits visit (c_accessTimes c) → entries_ok c (merge_sort ev_le (evict_entries c visit)).
Proof.
  intros Hv. split.
  - rewrite merge_sort_Permutation. eapply sublist_NoDup; [|apply evict_entries_keys].
    rewrite Hv. apply NoDup_fst_map_to_list.
  - intros e He. rewrite merge_sort_Permutation in He. by apply evict_entries_elem in He as [_ ?].
Qed.

Lemma Cache_evict_ok rm_ok visit c target :
  cache_ok c → visits visit (c_accessTimes c) → cache_ok (Cache_evict rm_ok visit c target).
Proof. intros Hc Hv. apply evict_loop_ok; [done|]. by apply sorted_entries_ok. Qed.

(** [Put] reads the previous meta file and does not spoil it when it fails. *)
Definition put_faults_ok (io : putIO) (c : Cache) (key : string) : Prop :=
  io_read_ok io = true ∧
  ∀ rest, io_write_fail io = Some rest → rest = dir_meta (c_disk c) (entryName key).

(** The cache after the files, the maps and the counters are updated. *)
Definition put_stored (c : Cache) (name : string) (now : Z) (data : bytes) : Cache :=
  let written := Z.of_nat (length data) in
  let c1 := set_entry c name (Some data) (MetaJSON (mkCacheMeta now written)) in
  let c2 := set_maps c1 (<[name := now]> (c_accessTimes c)) (<[name := written]> (c_sizes c)) in
  match put_old true (dir_meta (c_disk c) name) with
  | Some oldSize => set_counters c2 (i64 (c_size c + (written - oldSize))) (c_count c)
  | None => set_counters c2 (i64 (c_size c + written)) (i64 (c_count c + 1))
  end.

Lemma put_stored_maps c name now data :
  let c' := put_stored c name now data in
  c_disk c' = <[name := mkEntryDir (Some data) (MetaJSON (mkCacheMeta now (Z.of_nat (length data))))]> (c_disk c) ∧
  c_accessTimes c' = <[name := now]> (c_accessTimes c) ∧
  c_sizes c' = <[name := Z.of_nat (length data)]> (c_sizes c) ∧
  c_maxBytes c' = c_maxBytes c.
Proof. unfold put_stored. by case_match. Qed.

Lemma total_insert_any m k s : total (<[k := s]> m) = total m - default 0 (m !! k) + s.
Proof.
  destruct (m !! k) as [s0|] eqn:E; simpl.
  - rewrite (total_delete m k s0), <- insert_delete_eq by done.
    rewrite total_insert by apply lookup_delete_eq. lia.
  - rewrite total_insert by done. lia.
Qed.

Lemma put_stored_ok c name now data : cache_ok c → cache_ok (put_stored c name now data).
Proof.
  intros Hc. pose proof (put_stored_maps c name now data) as (E1 & E2 & E3 & _).
  destruct Hc as [H1 H2 H3 H4 H5 H6].
  assert (Hold : put_old true (dir_meta (c_disk c) name) = c_sizes c !! name)
    by (rewrite H1, sizes_of_lookup; by destruct (dir_meta _ _)).
  split; rewrite ?E1, ?E2, ?E3.
  - by rewrite sizes_of_insert, H1.
  - intros n. rewrite dir_meta_insert. case_decide; [done|apply H2].
  - rewrite !dom_insert_L. set_solver.
  - apply map_Forall_insert_2; [lia|done].
  - rewrite total_insert_any. unfold put_stored. rewrite Hold.
    destruct (c_sizes c !! name); simpl; rewrite H5, i64_add_l; f_equal; lia.
  - rewrite map_size_insert. unfold put_stored. rewrite Hold.
    destruct (c_sizes c !! name); simpl; [done|]. rewrite H6, i64_add_l. f_equal. lia.
Qed.

Lemma Cache_Put_cases io visit now c key data :
  put_faults_ok io c key →
  let c' := (Cache_Put io visit now c key data).2 in
  c' = c ∨ (∃ content, c' = set_entry c (entryName key) content (dir_meta (c_disk c) (entryName key))) ∨
  c' = put_stored c (entryName key) now data ∨
  let c3 := put_stored c (entryName key) now data in
  c' = Cache_evict (io_rm_ok io) (visit (c_accessTimes c3)) c3 (i64 (c_size c3 - c_maxBytes c3)).
Proof.
  intros [Hr Hw]. unfold Cache_Put. cbv zeta. rewrite Hr.
  destruct (io_mkdir_ok io); [|by left]. destruct (io_create_ok io); [|right; left; by eexists].
  simpl negb. cbv iota. destruct (io_copy_fail io); [right; left; by eexists|].
  destruct (io_write_fail io) eqn:E; [rewrite (Hw _ eq_refl); right; left; by eexists|].
  fold (put_stored c (entryName key) now data).
  case_match; simpl; auto.
Qed.

Definition valid_visit (visit : gmap string Z → list (string * Z)) : Prop :=
  ∀ m, visits (visit m) m.

Lemma Cache_Put_ok io visit now c key data :
  cache_ok c → put_faults_ok io c key → valid_visit visit →
  cache_ok (Cache_Put io visit now c key data).2.
Proof.
  intros Hc Hf Hv.
  destruct (Cache_Put_cases io visit now c key data Hf) as [->|[[content ->]|[->| ->]]].
  - done.
  - by apply set_entry_ok.
  - by apply put_stored_ok.
  - apply Cache_evict_ok; [by apply put_stored_ok|apply Hv].
Qed.

Lemma Cache_Get_frame io c key :
  let c' := (Cache_Get io c key).2 in
  c_disk c' = c_disk c ∧ c_sizes c' = c_sizes c ∧ c_accessTimes c' = c_accessTimes c ∧
  c_size c' = c_size c ∧ c_count c' = c_count c ∧ c_maxBytes c' = c_maxBytes c.
Proof. unfold Cache_Get. destruct io; try done; by case_match. Qed.

Lemma Cache_Get_ok io c key : cache_ok c → cache_ok (Cache_Get io c key).2.
Proof.
  intros [H1 H2 H3 H4 H5 H6].
  destruct (Cache_Get_frame io c key) as (E1 & E2 & E3 & E4 & E5 & _).
  split; rewrite ?E1, ?E2, ?E3, ?E4, ?E5; done.
Qed.

Lemma Cache_touch_ok c name now : cache_ok c → cache_ok (Cache_touch c name now).
Proof.
  intros [H1 H2 H3 H4 H5 H6]. split; simpl; try done. rewrite dom_insert_L. set_solver.
Qed.

Lemma Cache_Delete_cases rm_ok c key :
  cache_ok c →
  let c' := (Cache_Delete true rm_ok c key).2 in
  c' = c ∨
  (∃ s, c_sizes c !! entryName key = Some s ∧ c' = evict_one c (mkEvictEntry (entryName key) 0 s)) ∨
  (c_sizes c !! entryName key = None ∧
   c' = set_maps (set_disk c (delete (entryName key) (c_disk c)))
          (delete (entryName key) (c_accessTimes c)) (delete (entryName key) (c_sizes c))).
Proof.
  intros Hc. unfold Cache_Delete. destruct rm_ok; [|by left]. right. simpl.
  rewrite (ok_sizes _ Hc), sizes_of_lookup. pose proof (ok_meta _ Hc (entryName key)) as Hb.
  destruct (dir_meta (c_disk c) (entryName key)) as [| |m] eqn:E; [by right|done|].
  left. exists (meta_Size m). split; [done|]. unfold evict_one. simpl. by rewrite (ok_sizes _ Hc).
Qed.

Lemma Cache_Delete_ok rm_ok c key : cache_ok c → cache_ok (Cache_Delete true rm_ok c key).2.
Proof.
  intros Hc. destruct (Cache_Delete_cases rm_ok c key Hc) as [->|[(s & Hs & ->)|[Hs ->]]].
  - done.
  - by apply evict_one_ok.
  - destruct Hc as [H1 H2 H3 H4 H5 H6]. split; simpl.
    + by rewrite sizes_of_delete, H1.
    + intros n. rewrite dir_meta_delete. case_decide; [done|apply H2].
    + rewrite !dom_delete_L. set_solver.
    + by apply map_Forall_delete.
    + by rewrite delete_id.
    + by rewrite delete_id.
Qed.
#[export] Hint Resolve Cache_Put_ok Cache_Get_ok Cache_touch_ok Cache_Delete_ok Cache_evict_ok : edge.

(** *** Every run of the cache *)
Inductive cache_step : relation Cache :=
| step_get io key c : cache_step c (Cache_Get io c key).2
| step_touch name now c : cache_step c (Cache_touch c name now)
| step_put io visit now key data c :
    put_faults_ok io c key → valid_visit visit →
    cache_step c (Cache_Put io visit now c key data).2
| step_delete rm_ok key c : cache_step c (Cache_Delete true rm_ok c key).2
| step_evict rm_ok visit target c :
    visits visit (c_accessTimes c) → cache_step c (Cache_evict rm_ok visit c target).

Lemma cache_step_ok c c' : cache_step c c' → cache_ok c → cache_ok c'.
Proof. destruct 1; eauto with edge. Qed.

(** A directory whose meta files are readable and carry natural sizes. *)
Definition disk_ok (disk : gmap string entryDir) : Prop :=
  map_Forall (λ _ e, match ent_meta e with
                     | MetaAbsent => True
                     | MetaBad => False
                     | MetaJSON m => 0 ≤ meta_Size m
                     end) disk.

Lemma fold_i64 {A} (f : A → Z) (m : gmap string A) :
  map_fold (λ _ a t, i64 (t + f a)) 0 m = i64 (total (f <$> m)).
Proof.
  induction m as [|k a m Hk IH] using map_ind.
  - by rewrite map_fold_empty, fmap_empty, total_empty.
  - rewrite map_fold_insert_L; [|intros; rewrite !i64_add_l; f_equal; lia|done].
    rewrite IH, fmap_insert, total_insert, i64_add_l by (by rewrite lookup_fmap, Hk). f_equal. lia.
Qed.

Lemma total_const (m : gmap string Z) : total ((λ _, 1) <$> m) = Z.of_nat (size m).
Proof.
  induction m as [|k a m Hk IH] using map_ind.
  - by rewrite fmap_empty, total_empty.
  - rewrite fmap_insert, total_insert, IH, map_size_insert, Hk by (by rewrite lookup_fmap, Hk). lia.
Qed.

Lemma NewCache_ok disk maxGB c : disk_ok disk → NewCache true disk maxGB = Ok c → cache_ok c.
Proof.
  intros Hd. unfold NewCache. simpl. intros [= <-]. split; simpl.
  - done.
  - intros n. unfold dir_meta. destruct (disk !! n) as [e|] eqn:E; [|done].
    apply Hd in E. by destruct (ent_meta e).
  - by rewrite !dom_fmap_L.
  - intros n s Hs. fold (sizes_of disk) in Hs. rewrite sizes_of_lookup in Hs. unfold dir_meta in Hs.
    destruct (disk !! n) as [e|] eqn:E; [|done]. apply Hd in E. by destruct (ent_meta e); simplify_eq.
  - apply fold_i64.
  - rewrite (fold_i64 (λ _, 1)). f_equal. rewrite <- (total_const (meta_Size <$> _)).
    by rewrite <- map_fmap_compose.
Qed.

(** ** What an eviction removes *)
Definition sum_sizes (es : list evictEntry) : Z := foldr (λ e t, ev_size e + t) 0 es.

Lemma sum_sizes_app a b : sum_sizes (a ++ b) = sum_sizes a + sum_sizes b.
Proof. induction a; simpl; lia. Qed.

Lemma sum_sizes_nonneg es : Forall (λ e, 0 ≤ ev_size e) es → 0 ≤ sum_sizes es.
Proof. induction 1; simpl; lia. Qed.

Definition evict_all (c : Cache) (es : list evictEntry) : Cache := foldl evict_one c es.

(** With every [os.RemoveAll] succeeding the loop takes entries from the front
    until enough is freed, and not one more. *)
Lemma evict_loop_prefix target freed c es :
  0 ≤ freed → Forall (λ e, 0 ≤ ev_size e) es → freed + sum_sizes es < 2 ^ 63 →
  ∃ pre suf, es = pre ++ suf ∧
    (evict_loop (λ _, true) target freed c es).2 = evict_all c pre ∧
    (suf = [] ∨ target ≤ freed + sum_sizes pre) ∧
    (∀ p e, pre = p ++ [e] → freed + sum_sizes p < target).
Proof.
  revert freed c. induction es as [|e es IH]; intros freed c Hf Hes Hsum; cbn [evict_loop].
  { exists [], []. split_and!; try done; [by left|]. by intros [] ?. }
  destruct (target <=? freed) eqn:E; bool_to_prop.
  { exists [], (e :: es). split_and!; try done; [right; simpl; lia|]. by intros [] ?. }
  apply Forall_cons in Hes as [He Hes]. cbn [negb sum_sizes foldr] in *. fold (sum_sizes es) in Hsum.
  pose proof (sum_sizes_nonneg es Hes).
  rewrite i64_id by (unfold is_i64; lia).
  destruct (IH (freed + ev_size e) (evict_one c e)) as (pre & suf & -> & -> & Hstop & Hmin); [lia|done|lia|].
  exists (e :: pre), suf. split_and!; try done.
  - destruct Hstop; [by left|right]. simpl. lia.
  - intros [|e' p] e'' Heq; simplify_eq/=; [lia|].
    specialize (Hmin p e'' eq_refl). lia.
Qed.

Lemma evict_all_maps c es :
  let c' := evict_all c es in
  c_maxBytes c' = c_maxBytes c ∧
  (∀ n, c_sizes c' !! n = if decide (n ∈ ev_key <$> es) then None else c_sizes c !! n) ∧
  (∀ n, c_disk c' !! n = if decide (n ∈ ev_key <$> es) then None else c_disk c !! n).
Proof.
  revert c. induction es as [|e es IH]; intros c; cbn [evict_all foldl fmap list_fmap].
  { split_and!; [done|intros n..]; by rewrite decide_False by apply not_elem_of_nil. }
  destruct (IH (evict_one c e)) as (Hm & Hs & Hd). fold (evict_all (evict_one c e) es).
  split_and!; [done|intros n..]; rewrite ?Hs, ?Hd; simpl;
    (destruct (decide (n = ev_key e)) as [->|Hn];
     [rewrite lookup_delete_eq, (decide_True (P := ev_key e ∈ ev_key e :: _)) by left; by case_decide
     |rewrite lookup_delete_ne by done; apply decide_ext; rewrite elem_of_cons; naive_solver]).
Qed.

Lemma evict_all_ok c es : cache_ok c → entries_ok c es → cache_ok (evict_all c es).
Proof.
  revert c. induction es as [|e es IH]; intros c Hc He; [done|].
  apply IH; [|by apply entries_ok_evict]. apply evict_one_ok; [done|]. apply He. left.
Qed.

Lemma evict_all_total c es :
  entries_ok c es → total (c_sizes (evict_all c es)) = total (c_sizes c) - sum_sizes es.
Proof.
  revert c. induction es as [|e es IH]; intros c He; [simpl; lia|].
  cbn [evict_all foldl]. fold (evict_all (evict_one c e) es).
  rewrite IH by (by apply entries_ok_evict). simpl.
  rewrite (total_delete (c_sizes c) (ev_key e) (ev_size e)) by (apply He; left). lia.
Qed.

Lemma entries_ok_app_l c pre suf : entries_ok c (pre ++ suf) → entries_ok c pre.
Proof.
  intros [Hnd Hl]. rewrite fmap_app in Hnd. apply NoDup_app in Hnd as (Hnd & _ & _).
  split; [done|]. intros e He. apply Hl, elem_of_app. by left.
Qed.

Lemma entries_nonneg c es : cache_ok c → entries_ok c es → Forall (λ e, 0 ≤ ev_size e) es.
Proof. intros Hc [_ Hl]. apply Forall_forall. intros e He. by eapply (ok_nonneg _ Hc), Hl. Qed.

Lemma entries_sum_le c es : cache_ok c → entries_ok c es → sum_sizes es ≤ total (c_sizes c).
Proof.
  intros Hc He. pose proof (evict_all_total c es He).
  pose proof (total_nonneg _ (ok_nonneg _ (evict_all_ok c es Hc He))). lia.
Qed.

(** Every counted entry is a candidate of the eviction. *)
Lemma sorted_entries_all c visit n s :
  cache_ok c → visits visit (c_accessTimes c) → c_sizes c !! n = Some s →
  ∃ t, c_accessTimes c !! n = Some t ∧
    mkEvictEntry n t s ∈ merge_sort ev_le (evict_entries c visit).
Proof.
  intros Hc Hv Hs.
  assert (n ∈ dom (c_accessTimes c)) as [t Ht]%elem_of_dom by (apply (ok_access _ Hc), elem_of_dom; by eexists).
  exists t. split; [done|]. rewrite merge_sort_Permutation. apply evict_entries_elem. split; [|done].
  rewrite Hv. by apply elem_of_map_to_list.
Qed.

(** The outcome of a fault-free eviction: the entries, oldest first, split into
    the removed and the kept ones. *)
Lemma Cache_evict_split c visit target :
  cache_ok c → visits visit (c_accessTimes c) → total (c_sizes c) < 2 ^ 63 →
  ∃ pre suf,
    merge_sort ev_le (evict_entries c visit) = pre ++ suf ∧
    Cache_evict (λ _, true) visit c target = evict_all c pre ∧
    entries_ok c (pre ++ suf) ∧
    (suf = [] ∨ target ≤ sum_sizes pre) ∧
    (∀ p e, pre = p ++ [e] → sum_sizes p < target).
Proof.
  intros Hc Hv Ht. pose proof (sorted_entries_ok c visit Hv) as He.
  pose proof (entries_sum_le _ _ Hc He).
  destruct (evict_loop_prefix target 0 c _ ltac:(lia) (entries_nonneg _ _ Hc He) ltac:(lia))
    as (pre & suf & Heq & Hev & Hstop & Hmin).
  exists pre, suf. rewrite Heq in He. split_and!; try done.
Qed.

Lemma evict_all_empty c visit pre :
  cache_ok c → visits visit (c_accessTimes c) →
  merge_sort ev_le (evict_entries c visit) = pre ++ [] →
  total (c_sizes c) = sum_sizes pre.
Proof.
  intros Hc Hv Heq. pose proof (sorted_entries_ok c visit Hv) as He.
  rewrite Heq, app_nil_r in He. pose proof (evict_all_total c pre He) as Ht.
  assert (c_sizes (evict_all c pre) = ∅) as Hz.
  { apply map_empty. intros n. destruct (evict_all_maps c pre) as (_ & -> & _).
    case_decide as Hin; [done|]. destruct (c_sizes c !! n) as [s|] eqn:Es; [|done].
    destruct (sorted_entries_all c visit n s Hc Hv Es) as (t & _ & Ht').
    rewrite Heq, app_nil_r in Ht'. destruct Hin. apply list_elem_of_fmap. by exists (mkEvictEntry n t s). }
  rewrite Hz, total_empty in Ht. lia.
Qed.

Lemma Cache_evict_size c visit target :
  cache_ok c → visits visit (c_accessTimes c) → total (c_sizes c) < 2 ^ 63 → 0 ≤ target →
  let c' := Cache_evict (λ _, true) visit c target in
  c_size c' ≤ Z.max 0 (c_size c - target) ∧ c_maxBytes c' = c_maxBytes c.
Proof.
  intros Hc Hv Ht Hpos. destruct (Cache_evict_split c visit target Hc Hv Ht)
    as (pre & suf & Heq & -> & He & Hstop & _).
  apply entries_ok_app_l in He.
  pose proof (total_nonneg _ (ok_nonneg _ (evict_all_ok c pre Hc He))) as H0.
  pose proof (evict_all_total c pre He) as Htot.
  pose proof (sum_sizes_nonneg pre (entries_nonneg _ _ Hc He)).
  split; [|apply evict_all_maps].
  rewrite (ok_size _ (evict_all_ok c pre Hc He)), (ok_size _ Hc).
  rewrite !i64_id by (unfold is_i64; lia).
  destruct Hstop as [->|Hstop]; [|lia].
  pose proof (evict_all_empty c visit pre Hc Hv Heq). lia.
Qed.

(** A fault-free [Put]. *)
Lemma Cache_Put_fine visit now c key data :
  let c3 := put_stored c (entryName key) now data in
  Cache_Put put_fine visit now c key data =
    (Ok tt, if c_maxBytes c <? c_size c3
            then Cache_evict (λ _, true) (visit (c_accessTimes c3)) c3 (i64 (c_size c3 - c_maxBytes c))
            else c3).
Proof.
  unfold Cache_Put. cbv zeta. 
  cbn [put_fine io_read_ok io_mkdir_ok io_create_ok io_copy_fail io_write_fail io_rm_ok negb].
  fold (put_stored c (entryName key) now data).
  destruct (put_stored_maps c (entryName key) now data) as (_ & _ & _ & ->). by case_match.
Qed.

(** The entry written last survives the eviction it triggers, if it fits. *)
Lemma newest_survives c visit name now len target :
  cache_ok c → visits visit (c_accessTimes c) → total (c_sizes c) < 2 ^ 63 →
  c_sizes c !! name = Some len → c_accessTimes c !! name = Some now →
  (∀ n t, c_accessTimes c !! n = Some t → n ≠ name → t < now) →
  target ≤ total (c_sizes c) - len →
  c_disk (Cache_evict (λ _, true) visit c target) !! name = c_disk c !! name.
Proof.
  intros Hc Hv Ht Hs Hnow Hnew Htarget.
  destruct (Cache_evict_split c visit target Hc Hv Ht) as (pre & suf & Heq & -> & He & _ & Hmin).
  destruct (evict_all_maps c pre) as (_ & _ & ->). rewrite decide_False; [done|].
  intros (e & -> & Hin)%list_elem_of_fmap.
  apply list_elem_of_split in Hin as (p & q & ->).
  assert (Hq : q ++ suf = []).
  { destruct (q ++ suf) as [|e' r] eqn:Eq; [done|exfalso].
    assert (Hall : merge_sort ev_le (evict_entries c visit) = p ++ e :: e' :: r)
      by (by rewrite Heq, <- app_assoc, <- Eq).
    pose proof (StronglySorted_merge_sort ev_le (evict_entries c visit)) as Hsort.
    rewrite Hall in Hsort. apply StronglySorted_app in Hsort as (_ & _ & Hsort).
    apply StronglySorted_cons in Hsort as [Hle _]. apply Forall_cons in Hle as [Hle _].
    assert (Hmem : ∀ x, x ∈ [e; e'] → c_accessTimes c !! ev_key x = Some (ev_lastAccess x)).
    { intros x Hx. apply elem_of_map_to_list. rewrite <- Hv.
      apply (evict_entries_elem c). rewrite <- (merge_sort_Permutation ev_le), Hall. set_solver. }
    pose proof (Hmem e ltac:(set_solver)) as He1. pose proof (Hmem e' ltac:(set_solver)) as He2.
    destruct He as [Hnd _]. rewrite <- Heq, Hall, fmap_app in Hnd.
    apply NoDup_app in Hnd as (_ & _ & Hnd). simpl in Hnd. apply NoDup_cons in Hnd as [Hne _].
    assert (ev_lastAccess e' < now) by (eapply Hnew; [done|]; intros E; apply Hne; rewrite E; left).
    rewrite He1 in Hnow. simplify_eq. unfold ev_le in Hle. lia. }
  apply app_eq_nil in Hq as [-> ->].
  specialize (Hmin p e eq_refl).
  pose proof (evict_all_empty c visit _ Hc Hv Heq) as Htot. rewrite sum_sizes_app in Htot.
  assert (ev_size e = len) by (destruct He as [_ Hl]; specialize (Hl e ltac:(set_solver)); congruence).
  simpl in Htot. lia.
Qed.

(** ** Properties *)


(** a [Put] whose file operations succeed leaves the byte counter
    within [maxBytes]; the totals must stay in the [int64] range. *)
Theorem put_within_limit visit now c key data :
  cache_ok c → valid_visit visit → 0 ≤ c_maxBytes c →
  total (c_sizes c) + Z.of_nat (length data) < 2 ^ 63 →
  let '(r, c') := Cache_Put put_fine visit now c key data in
  r = Ok tt ∧ c_size c' ≤ c_maxBytes c' ∧ c_maxBytes c' = c_maxBytes c.
Proof.
  intros Hc Hv Hm Ht. rewrite Cache_Put_fine. split; [done|].
  set (c3 := put_stored c (entryName key) now data).
  destruct (put_stored_maps c (entryName key) now data) as (_ & _ & E3 & E4). fold c3 in E3, E4.
  assert (Hc3 : cache_ok c3) by (by apply put_stored_ok).
  assert (Ht3 : total (c_sizes c3) < 2 ^ 63).
  { rewrite E3, total_insert_any. enough (0 ≤ default 0 (c_sizes c !! entryName key)) by lia.
    destruct (c_sizes c !! entryName key) eqn:E; [by apply (ok_nonneg _ Hc) in E|done]. }
  pose proof (total_nonneg _ (ok_nonneg _ Hc3)).
  assert (Hsz : c_size c3 = total (c_sizes c3)) by (rewrite (ok_size _ Hc3), i64_id; [done|unfold is_i64; lia]).
  destruct (c_maxBytes c <? c_size c3) eqn:E; bool_to_prop; [|by rewrite E4].
  rewrite i64_id by (unfold is_i64; lia).
  destruct (Cache_evict_size c3 (visit (c_accessTimes c3)) (c_size c3 - c_maxBytes c)) as [Hle ->];
    [done|apply Hv|done|lia|]. rewrite E4. lia.
Qed.

(** C26 (functional): the eviction is least-recently-used and minimal: an entry
    it removes was accessed no later than any entry it keeps, it stops only when
    the target is freed or nothing is left, and without its last removal the
    target would not have been met. *)
Theorem evict_lru c visit target :
  cache_ok c → visits visit (c_accessTimes c) → total (c_sizes c) < 2 ^ 63 →
  ∃ removed kept,
    removed ++ kept ≡ₚ evict_entries c visit ∧
    (∀ e, e ∈ removed → c_disk (Cache_evict (λ _, true) visit c target) !! ev_key e = None) ∧
    (∀ e, e ∈ kept → c_disk (Cache_evict (λ _, true) visit c target) !! ev_key e = c_disk c !! ev_key e) ∧
    (∀ e e', e ∈ removed → e' ∈ kept → ev_lastAccess e ≤ ev_lastAccess e') ∧
    (kept = [] ∨ target ≤ sum_sizes removed) ∧
    (∀ p e, removed = p ++ [e] → sum_sizes p < target).
Proof.
  intros Hc Hv Ht. destruct (Cache_evict_split c visit target Hc Hv Ht)
    as (pre & suf & Heq & -> & He & Hstop & Hmin).
  exists pre, suf. destruct (evict_all_maps c pre) as (_ & _ & Hdisk).
  split_and!; try done.
  - by rewrite <- Heq, merge_sort_Permutation.
  - intros e Hin. rewrite Hdisk, decide_True; [done|]. by apply list_elem_of_fmap_2.
  - intros e Hin. rewrite Hdisk, decide_False; [done|].
    destruct He as [Hnd _]. rewrite fmap_app in Hnd. apply NoDup_app in Hnd as (_ & Hdisj & _).
    intros Hpre. by apply (Hdisj _ Hpre), list_elem_of_fmap_2.
  - intros e e' Hin Hin'. pose proof (StronglySorted_merge_sort ev_le (evict_entries c visit)) as Hsort.
    rewrite Heq in Hsort. apply StronglySorted_app in Hsort as (Hsort & _ & _). by apply Hsort.
Qed.

(** What [Put] stored is what [Get] reads. *)
Lemma put_then_get visit now c key data :
  cache_ok c → valid_visit visit → Z.of_nat (length data) ≤ c_maxBytes c →
  total (c_sizes c) + Z.of_nat (length data) < 2 ^ 63 →
  (∀ n t, c_accessTimes c !! n = Some t → n ≠ entryName key → t < now) →
  let '(r, c') := Cache_Put put_fine visit now c key data in
  r = Ok tt ∧ Cache_Has c' key = true ∧
  (Cache_Get OpenFine c' key).1 = Ok (data, Z.of_nat (length data)).
Proof.
  intros Hc Hv Hfit Ht Hnew. rewrite Cache_Put_fine. split; [done|].
  set (name := entryName key) in *. set (c3 := put_stored c name now data).
  destruct (put_stored_maps c name now data) as (E1 & E2 & E3 & E4). fold c3 in E1, E2, E3, E4.
  assert (Hc3 : cache_ok c3) by (by apply put_stored_ok).
  assert (Ht3 : total (c_sizes c3) < 2 ^ 63).
  { rewrite E3, total_insert_any. enough (0 ≤ default 0 (c_sizes c !! name)) by lia.
    destruct (c_sizes c !! name) eqn:E; [by apply (ok_nonneg _ Hc) in E|done]. }
  pose proof (total_nonneg _ (ok_nonneg _ Hc3)).
  assert (Hsz : c_size c3 = total (c_sizes c3)) by (rewrite (ok_size _ Hc3), i64_id; [done|unfold is_i64; lia]).
  set (c' := if _ <? _ then _ else _).
  assert (Hd : dir_content (c_disk c') name = Some data).
  { unfold dir_content. enough (c_disk c' !! name = c_disk c3 !! name) as ->
      by (by rewrite E1, lookup_insert_eq).
    subst c'. destruct (c_maxBytes c <? c_size c3) eqn:E; [|done]. bool_to_prop.
    eapply newest_survives; try done.
    - rewrite E3. apply lookup_insert_eq.
    - rewrite E2. apply lookup_insert_eq.
    - intros n t. rewrite E2. intros Hn Hne. rewrite lookup_insert_ne in Hn by done. eauto.
    - rewrite i64_id by (unfold is_i64; lia). lia. }
  unfold Cache_Has, Cache_Get. fold name. rewrite Hd. split; [by apply bool_decide_eq_true_2|done].
Qed.

(** what [Put] stored is what [Get] reads back, provided the
    object fits into the cache and its write is the latest access; the eviction
    the [Put] may trigger does not remove it. *)
Theorem put_get_roundtrip visit now c key data :
  cache_ok c → valid_visit visit → Z.of_nat (length data) ≤ c_maxBytes c →
  total (c_sizes c) + Z.of_nat (length data) < 2 ^ 63 →
  (∀ n t, c_accessTimes c !! n = Some t → n ≠ entryName key → t < now) →
  let '(r, c') := Cache_Put put_fine visit now c key data in
  r = Ok tt ∧ Cache_Has c' key = true ∧
  (Cache_Get OpenFine c' key).1 = Ok (data, Z.of_nat (length data)).
Proof. apply put_then_get. Qed.

(** [Delete] counts an entry whose [meta.json] cannot be decoded as
    removed although [NewCache] never counted it: from an empty count the item
    counter becomes negative. *)
Theorem delete_miscounts_bad_meta disk maxGB c key content :
  disk !! entryName key = Some (mkEntryDir content MetaBad) →
  NewCache true disk maxGB = Ok c →
  c_count (Cache_Delete true true c key).2 = i64 (c_count c - 1) ∧
  sizes_of (c_disk (Cache_Delete true true c key).2) = sizes_of (c_disk c).
Proof.
  intros Hd. unfold NewCache. simpl. intros [= <-]. unfold Cache_Delete, dir_meta. simpl.
  rewrite Hd. simpl. split; [done|]. rewrite sizes_of_delete. apply delete_id.
  rewrite sizes_of_lookup. unfold dir_meta. by rewrite Hd.
Qed.

(** ** The cache behind the sliding window *)

(** The cache with a clock, on a file system without faults; the access-time
    update of a hit runs at once. *)
Definition ClockedCache : Type := Cache * Z.

#[export] Instance edge_cache_accessor : CacheAccessor ClockedCache := {
  acc_Get s k :=
    match Cache_Get OpenFine s.1 k with
    | (Ok (b, _), c) => (Ok b, (Cache_touch c (entryName k) s.2, s.2 + 1))
    | (Err e, c) => (Err e, (c, s.2 + 1))
    | (Panic, c) => (Panic, (c, s.2 + 1))
    end;
  acc_Put s k d :=
    let '(r, c) := Cache_Put put_fine map_to_list s.2 s.1 k d in (r, (c, s.2 + 1));
  acc_Has s k := Cache_Has s.1 k;
  acc_Delete s k := let '(r, c) := Cache_Delete true true s.1 k in (r, (c, s.2 + 1))
}.

(** What [put_then_get] asks for: the object fits into the cache and its write is the latest access. *)
Record room_for (c : Cache) (now : Z) (key : string) (data : bytes) : Prop := {
  rf_ok : cache_ok c;
  rf_fits : Z.of_nat (length data) ≤ c_maxBytes c;
  rf_total : total (c_sizes c) + Z.of_nat (length data) < 2 ^ 63;
  rf_latest : ∀ n t, c_accessTimes c !! n = Some t → n ≠ entryName key → t < now
}.

Lemma room_after_get io c k now key data :
  room_for c now key data → room_for (Cache_Get io c k).2 now key data.
Proof.
  intros [Hok Hfit Ht Hl]. destruct (Cache_Get_frame io c k) as (E1 & E2 & E3 & _ & _ & E6).
  split; rewrite ?E2, ?E3, ?E6; [by apply Cache_Get_ok|done..].
Qed.

(** Keys share a slot when their MD5 names agree. *)
Definition same_entry (a b : string) : Prop := entryName a = entryName b.

Lemma evict_loop_content rm_ok target freed c es n :
  is_Some (dir_content (c_disk (evict_loop rm_ok target freed c es).2) n) →
  is_Some (dir_content (c_disk c) n).
Proof.
  revert freed c. induction es as [|e es IH]; intros freed c; cbn [evict_loop]; [done|].
  repeat case_match; [done|apply IH|]. intros H'%IH. revert H'. unfold dir_content. simpl.
  rewrite lookup_delete. by case_decide as Hn; [intros []|].
Qed.

#[export] Instance edge_cache_laws : CacheLaws ClockedCache same_entry.
Proof.
  split.
  - split; unfold same_entry; red; congruence.
  - intros [c now] k data j. cbn [acc_Has acc_Put edge_cache_accessor fst snd].
    rewrite Cache_Put_fine. cbn [fst snd]. unfold Cache_Has, same_entry.
    rewrite !bool_decide_eq_true. intros Hj.
    assert (is_Some (dir_content (c_disk (put_stored c (entryName k) now data)) (entryName j))) as Hs
      by (destruct (_ <? _); [by eapply evict_loop_content|done]).
    destruct (put_stored_maps c (entryName k) now data) as (E1 & _). rewrite E1 in Hs.
    unfold dir_content in *. rewrite lookup_insert in Hs. case_decide; [by left|by right].
  - intros [c now] k j. cbn [acc_Has acc_Get edge_cache_accessor fst snd].
    destruct (Cache_Get_frame OpenFine c k) as (E & _).
    destruct (Cache_Get OpenFine c k) as [[[b n]| |] c'] eqn:Eg; cbn [fst snd] in *;
      unfold Cache_Has; simpl; by rewrite E.
  - intros [c now] k. cbn [acc_Delete edge_cache_accessor fst snd]. unfold Cache_Delete. cbn [negb]. cbv zeta iota.
    by destruct (dir_meta (c_disk c) (entryName k)).
  - intros [c now] k j. cbn [acc_Has acc_Delete edge_cache_accessor fst snd].
    unfold Cache_Has, Cache_Delete, same_entry. cbn [negb]. cbv zeta iota.
    rewrite bool_decide_eq_true. intros Hj.
    assert (is_Some (dir_content (delete (entryName k) (c_disk c)) (entryName j))) as Hs
      by (by destruct (dir_meta (c_disk c) (entryName k))).
    unfold dir_content in *. rewrite lookup_delete in Hs. case_decide; [by destruct Hs|].
    rewrite bool_decide_eq_true. by split; [|congruence].
Qed.

(** ** The summary sent to the control plane *)
Lemma length_hex b : length (to_chars (hex_encode b)) = (2 * length b)%nat.
Proof.
  unfold hex_encode. rewrite to_of_chars. induction b as [|x b IH]; [done|].
  change (mjoin (map hex_byte (x :: b))) with (hex_byte x ++ mjoin (map hex_byte b)).
  rewrite length_app, IH. simpl. lia.
Qed.

Lemma length_entryName key : length (to_chars (entryName key)) = 32%nat.
Proof. unfold entryName. by rewrite length_hex, length_md5_sum. Qed.

Lemma hot_keys_names visit c limit ks k :
  valid_visit visit → Cache_HotKeys visit c limit = Ok ks → k ∈ ks → k ∈ dom (c_accessTimes c).
Proof.
  intros Hv. unfold Cache_HotKeys. case_match; [done|]. intros [= <-] Hk.
  apply elem_of_take in Hk as (i & Hk & _). apply list_elem_of_lookup_2 in Hk.
  rewrite merge_sort_Permutation, (Hv (c_accessTimes c)) in Hk.
  apply list_elem_of_fmap in Hk as ([n t] & -> & Hin). apply elem_of_map_to_list in Hin.
  apply elem_of_dom. by eexists.
Qed.

(** the content-aware path is dead: whatever an edge node has cached,
    once the control plane has stored the summary [buildContentSummary] makes of
    it, the content index answers "not cached" for every resource key that is not
    32 characters long.  The summary lists directory names (MD5 in hex) instead
    of keys, and its filter is never loaded because [BloomK] is left at zero. *)
Theorem summary_announces_nothing math_Log visit nodeID now now' c summary s db s' key :
  valid_visit visit →
  (∀ n, n ∈ dom (c_accessTimes c) → ∃ k, n = entryName k) →
  Reporter_buildContentSummary math_Log visit nodeID now c = Ok (Some summary) →
  Store_UpsertSummary s db now' summary = (Ok tt, s') →
  blooms (st_index s) !! nodeID = None →
  length (to_chars key) ≠ 32%nat →
  ContentIndex_IsCached (st_index s') nodeID key = (false, false).
Proof.
  intros Hv Hnames Hb Hu Hbl Hlen. unfold Reporter_buildContentSummary in Hb.
  case_match; [done|]. destruct (Cache_HotKeys visit c 20) as [hot| |] eqn:Eh; [|done..].
  simpl in Hb. destruct (add_all _ _) as [bf'| |]; [|done..]. simpl in Hb. simplify_eq.
  assert (Hk : key ∉ hot).
  { intros Hin. eapply hot_keys_names in Hin as [k ->]%Hnames; [|done..].
    by rewrite length_entryName in Hlen. }
  unfold Store_UpsertSummary in Hu. simpl in Hu. repeat case_match; try done; simplify_eq;
    unfold ContentIndex_IsCached, ContentIndex_Update; simpl; rewrite lookup_insert_eq, Hbl;
    rewrite bool_decide_eq_false_2; [done|set_solver|done|set_solver].
Qed.

(** ** Witnesses *)
Definition demo_data : bytes := bytes_of_string "hello".
Definition demo_cache : Cache := mkCache ∅ 1 8 0 0 0 0 ∅ ∅.

Lemma demo_cache_ok : cache_ok demo_cache.
Proof. by split. Qed.

Lemma demo_room now key data : Z.of_nat (length data) ≤ 8 → room_for demo_cache now key data.
Proof.
  intros Hl. split; [apply demo_cache_ok|exact Hl|change (total _) with 0; lia|].
  intros n t Hn. exfalso. revert Hn. cbn. by rewrite lookup_empty.
Qed.

Lemma map_to_list_visit : valid_visit map_to_list.
Proof. intros m. unfold visits. reflexivity. Qed.

Definition demo_disk : gmap string entryDir :=
  {["d41d8cd98f00b204e9800998ecf8427e" := mkEntryDir (Some demo_data) (MetaJSON (mkCacheMeta 1 5))]}.

Definition demo_start : Cache :=
  match NewCache true demo_disk 1 with Ok c => c | _ => demo_cache end.
Definition demo_run : Cache := (Cache_Put put_fine map_to_list 2 demo_start "k" demo_data).2.

Lemma demo_run_step : cache_step demo_start demo_run.
Proof. apply step_put; [by split|apply map_to_list_visit]. Qed.


Lemma put_within_limit_witness :
  c_size (Cache_Put put_fine map_to_list 1 demo_cache "k" demo_data).2 ≤ 8.
Proof.
  pose proof (put_within_limit map_to_list 1 demo_cache "k" demo_data demo_cache_ok map_to_list_visit
    ltac:(simpl; lia) ltac:(vm_compute; reflexivity)) as H.
  destruct (Cache_Put _ _ _ _ _ _) as [r c']. destruct H as (_ & H & Hm). rewrite Hm in H. exact H.
Defined.

Lemma demo_run_ok : cache_ok demo_run.
Proof.
  eapply cache_step_ok; [apply demo_run_step|]. eapply (NewCache_ok demo_disk 1); [|reflexivity].
  by apply map_Forall_singleton.
Qed.

Lemma evict_lru_witness :
  ∃ removed kept, removed ++ kept ≡ₚ evict_entries demo_run (map_to_list (c_accessTimes demo_run)) ∧
    length (removed ++ kept) = 2%nat ∧ (kept = [] ∨ 3 ≤ sum_sizes removed).
Proof.
  destruct (evict_lru demo_run (map_to_list (c_accessTimes demo_run)) 3 demo_run_ok
    (map_to_list_visit _) ltac:(vm_compute; reflexivity)) as (r & k & Hp & _ & _ & _ & Hs & _).
  exists r, k. split; [exact Hp|]. split; [|exact Hs].
  rewrite Hp. vm_compute. reflexivity.
Defined.

Lemma put_get_roundtrip_witness :
  (Cache_Get OpenFine (Cache_Put put_fine map_to_list 1 demo_cache "k" demo_data).2 "k").1
  = Ok (demo_data, 5).
Proof.
  pose proof (put_get_roundtrip map_to_list 1 demo_cache "k" demo_data demo_cache_ok map_to_list_visit
    ltac:(vm_compute; discriminate) ltac:(vm_compute; reflexivity) ltac:(done)) as H.
  destruct (Cache_Put _ _ _ _ _ _) as [r c']. apply H.
Defined.

Lemma delete_miscounts_bad_meta_witness :
  ∃ c, NewCache true {[entryName "k" := mkEntryDir None MetaBad]} 1 = Ok c ∧
    c_count c = 0 ∧ c_count (Cache_Delete true true c "k").2 = -1.
Proof.
  eexists. split; [reflexivity|]. split; [vm_compute; reflexivity|].
  etransitivity; [eapply (delete_miscounts_bad_meta {[entryName "k" := mkEntryDir None MetaBad]} 1 _ "k" None)|].
  - apply lookup_singleton_eq.
  - reflexivity.
  - vm_compute. reflexivity.
Defined.

Definition summary_cache : Cache := (Cache_Put put_fine map_to_list 1 demo_cache "videos/a.mp4" demo_data).2.
Definition empty_store : Store := mkStore NewContentIndex ∅ ∅ false.
Definition db_fine : UpsertDB := mkUpsertDB true true (λ _, true).
Definition demo_summary : ContentSummary :=
  match Reporter_buildContentSummary example_log map_to_list "n1" 2 summary_cache with
  | Ok (Some s) => s
  | _ => mkContentSummary "" None None 0 0 0
  end.

Lemma summary_announces_nothing_witness :
  Cache_Has summary_cache "videos/a.mp4" = true ∧
  ContentIndex_IsCached (st_index (Store_UpsertSummary empty_store db_fine 3 demo_summary).2)
    "n1" "videos/a.mp4" = (false, false).
Proof.
  split; [vm_compute; reflexivity|].
  eapply (summary_announces_nothing example_log map_to_list "n1" 2 3 summary_cache demo_summary
            empty_store db_fine).
  - apply map_to_list_visit.
  - intros n Hn. exists "videos/a.mp4". revert Hn.
    assert (c_accessTimes summary_cache = {[entryName "videos/a.mp4" := 1]}) as -> by (vm_compute; reflexivity).
    rewrite dom_singleton_L. apply elem_of_singleton_1.
  - vm_compute. reflexivity.
  - vm_compute. reflexivity.
  - reflexivity.
  - vm_compute. discriminate.
Defined.
