(* ===== verification/Fetcher.v ===== *)
(** * Fetching from the origin ([internal/edgeagent/fetcher.go], less the deduplication)

    A cache miss is fetched from the origin through a circuit breaker with up to two
    retries.  The outcome of each HTTP exchange and the readings of the clock are arguments
    ([attempt]); the requests that are sent are part of the result.  [url.Parse] of the
    configured origin is the argument [f_originURL]; [path.Join] is executed.

    The theorems: the circuit breaker implements the three-state machine closed, open,
    half-open under any sequence of calls; every request stays below the object directory
    of the origin whatever the key; a fetch sends at most three requests and returns. *)

From S2P Require Import Prelude GoStrings StreamKeys.
From Stdlib Require Import Ascii.

Definition i32 (z : Z) : Z := (z + 2 ^ 31) mod 2 ^ 32 - 2 ^ 31.
Lemma i32_id z : - 2 ^ 31 ≤ z < 2 ^ 31 → i32 z = z.
Proof. intros ?. unfold i32. rewrite Z.mod_small; lia. Qed.

(** ** The circuit breaker *)
Record circuitBreaker := mkCircuitBreaker {
  cb_state : Z;
  cb_failures : Z;
  cb_threshold : Z;
  cb_recovery : Z;
  cb_lastFailure : Z;
  cb_successes : Z
}.

Definition newCircuitBreaker (threshold recovery : Z) : circuitBreaker :=
  mkCircuitBreaker 0 0 threshold recovery 0 0.

Definition circuitBreaker_Allow (now : Z) (cb : circuitBreaker) : result unit * circuitBreaker :=
  if cb_state cb =? 0 then (Ok tt, cb)
  else if cb_state cb =? 1 then
    if cb_recovery cb <=? now - cb_lastFailure cb
    then (Ok tt, mkCircuitBreaker 2 (cb_failures cb) (cb_threshold cb) (cb_recovery cb) (cb_lastFailure cb) 0)
    else (Err "circuit breaker open", cb)
  else (Ok tt, cb).

Definition circuitBreaker_RecordFailure (now : Z) (cb : circuitBreaker) : circuitBreaker :=
  let failures := i32 (cb_failures cb + 1) in
  mkCircuitBreaker (if cb_threshold cb <=? failures then 1 else cb_state cb) failures
    (cb_threshold cb) (cb_recovery cb) now (cb_successes cb).

Definition circuitBreaker_RecordSuccess (cb : circuitBreaker) : circuitBreaker :=
  if cb_state cb =? 2 then
    let successes := i32 (cb_successes cb + 1) in
    if 3 <=? successes
    then mkCircuitBreaker 0 0 (cb_threshold cb) (cb_recovery cb) (cb_lastFailure cb) successes
    else mkCircuitBreaker 2 (cb_failures cb) (cb_threshold cb) (cb_recovery cb) (cb_lastFailure cb) successes
  else if cb_state cb =? 0 then
    mkCircuitBreaker 0 0 (cb_threshold cb) (cb_recovery cb) (cb_lastFailure cb) (cb_successes cb)
  else cb.

(** ** Keys and addresses *)
Definition sanitizeKey (key : string) : string :=
  of_chars (join_with slash (clean_segments (to_chars key))).

(** [path.Clean] on the segments of a path, the result in reverse: ".." removes the segment
    before it, or is kept at the start of a relative path. *)
Fixpoint clean_path (rooted : bool) (out : list chars) (segs : list chars) : list chars :=
  match segs with
  | [] => out
  | s :: rest =>
      if bool_decide (s = []) || bool_decide (s = [dot]) then clean_path rooted out rest
      else if bool_decide (s = [dot; dot]) then
        match out with
        | [] => clean_path rooted (if rooted then [] else [s]) rest
        | o :: out' => clean_path rooted (if bool_decide (o = [dot; dot]) then s :: out else out') rest
        end
      else clean_path rooted (s :: out) rest
  end.

Definition path_Clean (l : chars) : chars :=
  let rooted := bool_decide (head l = Some slash) in
  let body := join_with slash (rev (clean_path rooted [] (split_on slash l))) in
  if rooted then slash :: body else if bool_decide (body = []) then [dot] else body.

(** [path.Join]: the empty elements are ignored. *)
Definition path_Join (elems : list chars) : chars :=
  match filter (λ e, e ≠ []) elems with
  | [] => []
  | es => path_Clean (join_with slash es)
  end.

(** A parsed URL: scheme and host together, and the path. *)
Record URL := mkURL { u_Host : string; u_Path : string }.

Record Fetcher := mkFetcher {
  f_originURL : option URL;
  f_nodeToken : string
}.

Definition Fetcher_buildOriginURL (f : Fetcher) (key : string) : result URL :=
  match f_originURL f with
  | None => Err "parse origin URL"
  | Some base =>
      Ok (mkURL (u_Host base) (of_chars (path_Join [to_chars (u_Path base); to_chars "obj"; to_chars key])))
  end.

Definition validRangeHeader (rh : string) : bool :=
  if String.eqb rh "" then false
  else if bool_decide (ascii_of_nat 10 ∈ to_chars rh) || bool_decide (ascii_of_nat 13 ∈ to_chars rh) then false
  else has_prefix (to_chars "bytes=") (to_chars rh).

(** ** One exchange with the origin *)

(** A response body: the bytes it yields, and whether reading ends with an error. *)
Record respBody := mkRespBody { body_data : bytes; body_fails : bool }.

Record FetchResult := mkFetchResult {
  fr_Body : respBody;
  fr_ContentLength : Z;
  fr_ContentType : string;
  fr_ETag : string;
  fr_StatusCode : Z
}.

Inductive exchange :=
| DoFails
| Response (r : FetchResult).

(** The circumstances of one attempt: the clock at [Allow] and at [RecordFailure], whether
    the request can be built, and the outcome of [client.Do]. *)
Record attempt := mkAttempt {
  at_allow : Z; at_failure : Z; at_request_ok : bool; at_do : exchange
}.

(** A request as it is sent. *)
Record originRequest := mkOriginRequest { or_URL : URL; or_Authorization : string; or_Range : string }.

Definition origin_request (f : Fetcher) (u : URL) (rangeHeader : string) : originRequest :=
  mkOriginRequest u (if String.eqb (f_nodeToken f) "" then "" else String.append "Bearer " (f_nodeToken f)) rangeHeader.

(** [left] is [2 - retries]; [env] gives the circumstances of each attempt. *)
Fixpoint executeFetchWithRetry (f : Fetcher) (env : nat → attempt) (left : nat) (cb : circuitBreaker)
    (key rangeHeader : string) : result FetchResult * circuitBreaker * list originRequest :=
  let at_ := env (2 - left)%nat in
  let '(allowed, cb) := circuitBreaker_Allow (at_allow at_) cb in
  match allowed with
  | Err e => (Err e, cb, [])
  | Panic => (Panic, cb, [])
  | Ok _ =>
      let key := sanitizeKey key in
      match Fetcher_buildOriginURL f key with
      | Err e => (Err e, cb, [])
      | Panic => (Panic, cb, [])
      | Ok u =>
          if negb (at_request_ok at_) then (Err "create request", cb, [])
          else if negb (String.eqb rangeHeader "") && negb (validRangeHeader rangeHeader)
          then (Err "invalid range header", cb, [])
          else
            let req := origin_request f u rangeHeader in
            match at_do at_ with
            | DoFails =>
                let cb := circuitBreaker_RecordFailure (at_failure at_) cb in
                match left with
                | S left' =>
                    let '(r, cb, reqs) := executeFetchWithRetry f env left' cb key rangeHeader in
                    (r, cb, req :: reqs)
                | O => (Err "fetch origin", cb, [req])
                end
            | Response r =>
                if 400 <=? fr_StatusCode r
                then (Err "origin returned an error status", circuitBreaker_RecordFailure (at_failure at_) cb, [req])
                else (Ok r, circuitBreaker_RecordSuccess cb, [req])
            end
      end
  end.

Definition Fetcher_executeFetch (f : Fetcher) (env : nat → attempt) (cb : circuitBreaker)
    (key rangeHeader : string) : result FetchResult * circuitBreaker * list originRequest :=
  executeFetchWithRetry f env 2 cb key rangeHeader.

(** ** The breaker as a three-state machine *)
Inductive breaker :=
| Closed (failures : Z)
| Open (since : Z)
| HalfOpen (successes : Z).

Inductive breaker_event :=
| EvAllow (now : Z)
| EvFailure (now : Z)
| EvSuccess.

Definition breaker_allows (recovery : Z) (b : breaker) (now : Z) : bool :=
  match b with Open since => recovery <=? now - since | _ => true end.

(** What the breaker promises: [threshold] failures in a row open it, a failure while it is
    open restarts the waiting time, the first call after [recovery] makes it half-open, and
    then three successes close it and a failure opens it. *)
Definition breaker_step (threshold recovery : Z) (b : breaker) (e : breaker_event) : breaker :=
  match e, b with
  | EvAllow now, Open since => if recovery <=? now - since then HalfOpen 0 else b
  | EvAllow _, _ => b
  | EvFailure now, Closed n => if threshold <=? n + 1 then Open now else Closed (n + 1)
  | EvFailure now, _ => Open now
  | EvSuccess, Closed _ => Closed 0
  | EvSuccess, Open _ => b
  | EvSuccess, HalfOpen k => if 3 <=? k + 1 then Closed 0 else HalfOpen (k + 1)
  end.

Definition cb_event (cb : circuitBreaker) (e : breaker_event) : circuitBreaker :=
  match e with
  | EvAllow now => (circuitBreaker_Allow now cb).2
  | EvFailure now => circuitBreaker_RecordFailure now cb
  | EvSuccess => circuitBreaker_RecordSuccess cb
  end.

Definition cb_abs (cb : circuitBreaker) : breaker :=
  if cb_state cb =? 0 then Closed (cb_failures cb)
  else if cb_state cb =? 1 then Open (cb_lastFailure cb)
  else HalfOpen (cb_successes cb).

(** [n] bounds the failures seen, so that the 32-bit counter does not wrap. *)
Record cb_ok (n : Z) (cb : circuitBreaker) : Prop := {
  cbo_threshold : 0 < cb_threshold cb;
  cbo_state : cb_state cb ∈ [0; 1; 2];
  cbo_failures : 0 ≤ cb_failures cb ≤ n;
  cbo_tripped : cb_state cb ≠ 0 → cb_threshold cb ≤ cb_failures cb;
  cbo_successes : 0 ≤ cb_successes cb ≤ 3;
  cbo_half : cb_state cb = 2 → cb_successes cb < 3
}.

Lemma cb_event_refines n cb e :
  cb_ok n cb → n + 1 < 2 ^ 31 →
  cb_ok (n + 1) (cb_event cb e) ∧
  cb_abs (cb_event cb e) = breaker_step (cb_threshold cb) (cb_recovery cb) (cb_abs cb) e ∧
  cb_threshold (cb_event cb e) = cb_threshold cb ∧ cb_recovery (cb_event cb e) = cb_recovery cb.
Proof.
  intros [Ht Hs Hf Htr Hsu Hh] Hn. destruct cb as [st fl th rc lf su]. cbn in *.
  assert (Hst : st = 0 ∨ st = 1 ∨ st = 2).
  { rewrite !elem_of_cons, elem_of_nil in Hs. tauto. }
  assert (Hi : i32 (fl + 1) = fl + 1) by (apply i32_id; lia).
  assert (Hi2 : i32 (su + 1) = su + 1) by (apply i32_id; lia).
  assert (∀ z, z = 0 ∨ z = 1 ∨ z = 2 → z ∈ [0; 1; 2]) by (intros z; rewrite !elem_of_cons; tauto).
  destruct Hst as [->|[->| ->]], e; cbn -[i32]; unfold circuitBreaker_Allow, circuitBreaker_RecordFailure,
    circuitBreaker_RecordSuccess, cb_abs; cbn -[i32]; rewrite ?Hi, ?Hi2;
    repeat (case_match; bool_to_prop; cbn -[i32] in * ); simplify_eq; try lia;
    (split; [split; cbn; auto; lia|by split_and!]).
Qed.

Definition breaker_run (threshold recovery : Z) (b : breaker) (es : list breaker_event) : breaker :=
  foldl (breaker_step threshold recovery) b es.

Lemma cb_run_refines es : ∀ n cb,
  cb_ok n cb → n + Z.of_nat (length es) < 2 ^ 31 →
  cb_ok (n + Z.of_nat (length es)) (foldl cb_event cb es) ∧
  cb_abs (foldl cb_event cb es) = breaker_run (cb_threshold cb) (cb_recovery cb) (cb_abs cb) es ∧
  cb_threshold (foldl cb_event cb es) = cb_threshold cb ∧ cb_recovery (foldl cb_event cb es) = cb_recovery cb.
Proof.
  induction es as [|e es IH]; intros n cb Hok Hn; cbn [foldl length].
  { rewrite Z.add_0_r. done. }
  cbn [length] in Hn. rewrite Nat2Z.inj_succ in *.
  destruct (cb_event_refines n cb e Hok ltac:(lia)) as (Hok' & Habs & Ht & Hr).
  destruct (IH (n + 1) (cb_event cb e) Hok' ltac:(lia)) as (Hok2 & Habs2 & Ht2 & Hr2).
  replace (n + Z.succ (Z.of_nat (length es))) with (n + 1 + Z.of_nat (length es)) by lia.
  rewrite Habs2, Ht2, Hr2, Ht, Hr, Habs. done.
Qed.

Lemma cb_allow_abs n cb now :
  cb_ok n cb → (circuitBreaker_Allow now cb).1 =
    if breaker_allows (cb_recovery cb) (cb_abs cb) now then Ok tt else Err "circuit breaker open".
Proof.
  intros [_ Hs _ _ _ _]. unfold circuitBreaker_Allow, cb_abs, breaker_allows.
  repeat case_match; simplify_eq; try done; bool_to_prop; lia.
Qed.

Lemma new_breaker_ok threshold recovery :
  0 < threshold → cb_ok 0 (newCircuitBreaker threshold recovery).
Proof. intros Ht. split; cbn; try lia. left. Qed.

(** C31 (refinement): The circuit breaker implements its three-state specification: after any
    sequence of calls (fewer than 2^31) [Allow] lets a call pass exactly when the abstract
    machine is closed or half-open, or open for at least the recovery time. *)
Theorem circuit_breaker_refines threshold recovery es now :
  0 < threshold → Z.of_nat (length es) < 2 ^ 31 →
  let cb := foldl cb_event (newCircuitBreaker threshold recovery) es in
  let b := breaker_run threshold recovery (Closed 0) es in
  (circuitBreaker_Allow now cb).1 =
    (if breaker_allows recovery b now then Ok tt else Err "circuit breaker open") ∧
  cb_abs cb = b.
Proof.
  intros Ht Hn. cbn zeta.
  destruct (cb_run_refines es 0 (newCircuitBreaker threshold recovery)) as (Hok & Habs & _ & Hr).
  - by apply new_breaker_ok.
  - lia.
  - split; [|exact Habs]. rewrite (cb_allow_abs _ _ _ Hok), Hr, Habs. done.
Qed.

Lemma circuit_breaker_refines_witness :
  (circuitBreaker_Allow 29 (foldl cb_event (newCircuitBreaker 2 30) [EvFailure 0; EvFailure 1])).1
    = Err "circuit breaker open" ∧
  (circuitBreaker_Allow 31 (foldl cb_event (newCircuitBreaker 2 30) [EvFailure 0; EvFailure 1])).1 = Ok tt.
Proof.
  split; apply (circuit_breaker_refines 2 30 [EvFailure 0; EvFailure 1]); vm_compute; reflexivity.
Defined.

(** Once open and past the recovery time, the breaker closes again when the origin
    answers: three calls in a row. *)
Theorem circuit_breaker_recovers threshold recovery es since now :
  0 < threshold → Z.of_nat (length es) + 7 < 2 ^ 31 →
  breaker_run threshold recovery (Closed 0) es = Open since → recovery ≤ now - since →
  cb_abs (foldl cb_event (newCircuitBreaker threshold recovery)
            (es ++ [EvAllow now; EvSuccess; EvAllow now; EvSuccess; EvAllow now; EvSuccess])) = Closed 0.
Proof.
  intros Ht Hn Ho Hr.
  destruct (cb_run_refines (es ++ [EvAllow now; EvSuccess; EvAllow now; EvSuccess; EvAllow now; EvSuccess])
    0 (newCircuitBreaker threshold recovery)) as (_ & Habs & _).
  - by apply new_breaker_ok.
  - rewrite length_app. cbn [length]. lia.
  - rewrite Habs. unfold breaker_run. rewrite foldl_app.
    change (foldl (breaker_step threshold recovery) (breaker_run threshold recovery (Closed 0) es)
      [EvAllow now; EvSuccess; EvAllow now; EvSuccess; EvAllow now; EvSuccess] = Closed 0).
    rewrite Ho. cbn. rewrite (proj2 (Z.leb_le _ _)) by lia. done.
Qed.

(** ** Where requests go *)
Lemma clean_path_app rooted out a b :
  clean_path rooted out (a ++ b) = clean_path rooted (clean_path rooted out a) b.
Proof.
  revert out. induction a as [|s a IH]; intros out; [done|]. cbn [clean_path app].
  repeat case_match; apply IH.
Qed.

(** Segments without dots are kept. *)
Lemma clean_path_good rooted out segs :
  Forall (λ s, bad_segment s = false) segs → clean_path rooted out segs = rev segs ++ out.
Proof.
  revert out. induction segs as [|s segs IH]; intros out; [done|]. intros [Hs Hsegs]%Forall_cons.
  cbn [clean_path]. rewrite !bool_decide_eq_false_2 by (by intros ->). cbn [orb].
  rewrite IH by done. cbn [rev]. by rewrite <- app_assoc.
Qed.

Lemma split_on_join_app c a l : split_on c (a ++ c :: l) = split_on c a ++ split_on c l.
Proof. apply split_on_app. Qed.

(** The directory of a base path: its cleaned segments. *)
Definition base_segments (base : chars) : list chars :=
  rev (clean_path (bool_decide (head base = Some slash)) [] (split_on slash base)).

Lemma split_sanitized key :
  sanitizeKey key ≠ "" →
  split_on slash (to_chars (sanitizeKey key)) = clean_segments (to_chars key) ∧
  Forall (λ s, bad_segment s = false) (clean_segments (to_chars key)).
Proof.
  intros Hne. split.
  - apply split_validated. by intros ?%validated_empty.
  - apply Forall_forall. intros p Hp. by apply clean_segments_spec in Hp as [? _].
Qed.

Lemma clean_path_elem rooted out segs p :
  p ∈ clean_path rooted out segs → p ∈ out ∨ p ∈ segs.
Proof.
  revert out. induction segs as [|s segs IH]; intros out Hp; cbn [clean_path] in Hp; [by left|].
  repeat case_match; apply IH in Hp as [Hp|Hp]; subst; rewrite ?elem_of_cons, ?elem_of_nil in *; tauto.
Qed.

Lemma path_clean_segments l :
  head l = Some slash → clean_path true [] (split_on slash l) ≠ [] →
  split_on slash (path_Clean l) = [] :: rev (clean_path true [] (split_on slash l)).
Proof.
  intros Hl Hne. unfold path_Clean. rewrite Hl, bool_decide_eq_true_2 by done.
  cbn [split_on]. rewrite bool_decide_eq_true_2 by done. f_equal. apply split_join.
  - by intros E%(f_equal (@rev _)); rewrite rev_involutive in E.
  - apply Forall_forall. intros p Hp. apply elem_of_rev, clean_path_elem in Hp as [Hp%elem_of_nil|Hp]; [done|].
    by eapply split_on_no_sep.
Qed.

(** The segments of the requested path: the base directory, [obj], the cleaned key. *)
Definition origin_dir (base : chars) : list chars :=
  match base with [] => [] | _ => [] :: base_segments base end.

Lemma obj_segments key :
  split_on slash (to_chars "obj" ++ match clean_segments (to_chars key) with [] => [] | _ => slash :: to_chars (sanitizeKey key) end)
    = to_chars "obj" :: clean_segments (to_chars key) ∧
  Forall (λ s, bad_segment s = false) (to_chars "obj" :: clean_segments (to_chars key)).
Proof.
  split.
  - destruct (clean_segments (to_chars key)) as [|p ps] eqn:E; [done|]. rewrite split_on_app.
    rewrite split_validated; rewrite E; done.
  - constructor; [done|]. apply Forall_forall. intros p Hp. by apply clean_segments_spec in Hp as [? _].
Qed.

Lemma join_obj base key :
  path_Join [base; to_chars "obj"; to_chars (sanitizeKey key)] =
  path_Clean (match base with [] => [] | _ => base ++ [slash] end ++
    to_chars "obj" ++ match clean_segments (to_chars key) with [] => [] | _ => slash :: to_chars (sanitizeKey key) end).
Proof.
  unfold path_Join. destruct (clean_segments (to_chars key)) as [|p ps] eqn:E.
  - rewrite (proj2 (validated_empty key) E : sanitizeKey key = "").
    destruct base as [|b base]; [done|].
    rewrite filter_cons_True, filter_cons_True, filter_cons_False, filter_nil by (done || (by intros [])).
    cbn [join_with]. by rewrite <- app_assoc.
  - assert (to_chars (sanitizeKey key) ≠ []).
    { intros E'. apply (f_equal of_chars) in E'. rewrite of_to_chars in E'. apply validated_empty in E'. by rewrite E in E'. }
    destruct base as [|b base].
    + rewrite filter_cons_False, !filter_cons_True, filter_nil by (done || (by intros [])). done.
    + rewrite !filter_cons_True, filter_nil by done. cbn [join_with]. by rewrite <- app_assoc.
Qed.

Lemma origin_path_segments base key :
  base = [] ∨ head base = Some slash →
  split_on slash (path_Join [base; to_chars "obj"; to_chars (sanitizeKey key)]) =
    origin_dir base ++ to_chars "obj" :: clean_segments (to_chars key).
Proof.
  intros Hb. rewrite join_obj. destruct (obj_segments key) as [Hsplit Hgood].
  set (rest := to_chars "obj" ++ _) in *. destruct base as [|b base].
  - unfold path_Clean. cbn [app head]. assert (head rest = Some "o"%char) as -> by done.
    rewrite bool_decide_eq_false_2 by done. rewrite Hsplit, clean_path_good, app_nil_r, rev_involutive by done.
    rewrite bool_decide_eq_false_2.
    + cbn [origin_dir app]. rewrite split_join; [done|done|]. rewrite <- Hsplit.
      apply Forall_forall. intros p Hp. by eapply split_on_no_sep.
    + intros E. pose proof (join_nonempty_first slash (to_chars "obj") (clean_segments (to_chars key))) as Hj. by apply Hj.
  - destruct Hb as [?|Hb]; [done|]. rewrite <- app_assoc. cbn [app].
    assert (Hc : clean_path true [] (split_on slash ((b :: base) ++ slash :: rest)) =
      rev (to_chars "obj" :: clean_segments (to_chars key)) ++ clean_path true [] (split_on slash (b :: base))).
    { rewrite split_on_app, clean_path_app, Hsplit. by apply clean_path_good. }
    rewrite path_clean_segments; [|done|].
    + cbn [app] in Hc. rewrite Hc, rev_app_distr, rev_involutive. unfold origin_dir, base_segments.
      rewrite Hb. by rewrite bool_decide_eq_true_2.
    + cbn [app] in Hc. rewrite Hc. cbn [rev]. by intros [[? ?]%app_eq_nil _]%app_eq_nil.
Qed.

Lemma sanitize_segments key : clean_segments (to_chars (sanitizeKey key)) = clean_segments (to_chars key).
Proof. unfold sanitizeKey. rewrite to_of_chars. apply clean_segments_clean. Qed.

Lemma sanitizeKey_idem key : sanitizeKey (sanitizeKey key) = sanitizeKey key.
Proof. unfold sanitizeKey at 1. by rewrite sanitize_segments. Qed.

(** What every request of a fetch looks like. *)
Definition request_ok (f : Fetcher) (base : URL) (key rangeHeader : string) (r : originRequest) : Prop :=
  r = origin_request f (mkURL (u_Host base) (u_Path (or_URL r))) rangeHeader ∧
  split_on slash (to_chars (u_Path (or_URL r))) =
    origin_dir (to_chars (u_Path base)) ++ to_chars "obj" :: clean_segments (to_chars key) ∧
  (rangeHeader = "" ∨ validRangeHeader rangeHeader = true).

Lemma request_ok_sanitized f base key rh r : request_ok f base (sanitizeKey key) rh r ↔ request_ok f base key rh r.
Proof. unfold request_ok. by rewrite sanitize_segments. Qed.

Lemma request_ok_built f base key rh :
  (u_Path base = "" ∨ head (to_chars (u_Path base)) = Some slash) →
  negb (rh =? "")%string && negb (validRangeHeader rh) = false →
  request_ok f base key rh (origin_request f (mkURL (u_Host base)
    (of_chars (path_Join [to_chars (u_Path base); to_chars "obj"; to_chars (sanitizeKey key)]))) rh).
Proof.
  intros Hb Hr. split_and!; [done| |].
  - cbn [or_URL origin_request u_Path]. rewrite to_of_chars. apply origin_path_segments.
    destruct Hb as [->|Hb]; [by left|by right].
  - destruct (String.eqb_spec rh "") as [->|]; [by left|right]. cbn in Hr. by apply negb_false_iff in Hr.
Qed.

Lemma allow_no_panic now cb : (circuitBreaker_Allow now cb).1 ≠ Panic.
Proof. unfold circuitBreaker_Allow. by repeat case_match. Qed.

Lemma fetch_requests_ok f env left : ∀ cb base key rh,
  f_originURL f = Some base → (u_Path base = "" ∨ head (to_chars (u_Path base)) = Some slash) →
  let '(r, cb', reqs) := executeFetchWithRetry f env left cb key rh in
  (length reqs ≤ S left)%nat ∧ Forall (request_ok f base key rh) reqs ∧ r ≠ Panic.
Proof.
  induction left as [|left IH]; intros cb base key rh Hf Hb; cbn [executeFetchWithRetry];
    unfold Fetcher_buildOriginURL; rewrite Hf;
    match goal with |- context [circuitBreaker_Allow ?n cb] =>
      pose proof (allow_no_panic n cb) as Hnp; destruct (circuitBreaker_Allow n cb) as [[[]|e|] cb1] end.
  all: try done.
  all: try (split_and!; [cbn; lia|apply Forall_nil_2|done]).
  all: destruct (at_request_ok _); cbn [negb]; try (split_and!; [cbn; lia|apply Forall_nil_2|done]).
  all: destruct (negb (rh =? "")%string && negb (validRangeHeader rh)) eqn:Er;
    try (split_and!; [cbn; lia|apply Forall_nil_2|done]).
  all: pose proof (request_ok_built f base key rh Hb Er) as Hu.
  all: destruct (at_do _) as [|r]; [|destruct (400 <=? _); (split_and!; [cbn; lia|apply Forall_cons_2; [exact Hu|apply Forall_nil_2]|done])].
  - split_and!; [cbn; lia|apply Forall_cons_2; [exact Hu|apply Forall_nil_2]|done].
  - specialize (IH (circuitBreaker_RecordFailure (at_failure (env (2 - S left)%nat)) cb1) base (sanitizeKey key) rh Hf Hb).
    destruct (executeFetchWithRetry f env left _ _ _) as [[r cb2] reqs]. destruct IH as (Hl & Hr & Hp).
    split_and!; [cbn; lia| |done]. apply Forall_cons_2; [done|]. eapply Forall_impl; [exact Hr|].
    intros x. by apply request_ok_sanitized.
Qed.

(** The breaker passes while fewer than [threshold] failures have been counted. *)
Lemma closed_allows now cb : cb_state cb = 0 → circuitBreaker_Allow now cb = (Ok tt, cb).
Proof. intros H0. unfold circuitBreaker_Allow. by rewrite H0. Qed.

Lemma closed_failure now cb :
  cb_state cb = 0 → 0 ≤ cb_failures cb → cb_failures cb + 1 < cb_threshold cb < 2 ^ 31 →
  cb_state (circuitBreaker_RecordFailure now cb) = 0 ∧
  cb_failures (circuitBreaker_RecordFailure now cb) = cb_failures cb + 1 ∧
  cb_threshold (circuitBreaker_RecordFailure now cb) = cb_threshold cb.
Proof.
  intros H0 Hp Hf. unfold circuitBreaker_RecordFailure. cbn. rewrite i32_id by lia.
  rewrite (proj2 (Z.leb_gt _ _)) by lia. done.
Qed.

Lemma fetch_retries f env base rh r k : ∀ left cb key,
  f_originURL f = Some base → (rh = "" ∨ validRangeHeader rh = true) →
  (k ≤ left ≤ 2)%nat →
  (∀ i, (i ≤ k)%nat → at_request_ok (env (2 - left + i)%nat) = true) →
  (∀ i, (i < k)%nat → at_do (env (2 - left + i)%nat) = DoFails) →
  at_do (env (2 - left + k)%nat) = Response r → fr_StatusCode r < 400 →
  cb_state cb = 0 → 0 ≤ cb_failures cb → cb_failures cb + Z.of_nat k < cb_threshold cb < 2 ^ 31 →
  let '(res, cb', reqs) := executeFetchWithRetry f env left cb key rh in
  res = Ok r ∧ length reqs = S k ∧ cb_state cb' = 0 ∧ cb_failures cb' = 0.
Proof.
  induction k as [|k IH]; intros left cb key Hf Hrh Hl Hok Hdo Hresp Hst H0 Hp Hthr.
  all: specialize (Hok 0%nat ltac:(lia)) as Hok0; rewrite Nat.add_0_r in Hok0.
  all: assert (Er : negb (rh =? "")%string && negb (validRangeHeader rh) = false)
    by (destruct Hrh as [->| ->]; [done|]; by rewrite andb_false_r).
  all: destruct left as [|left]; cbn [executeFetchWithRetry]; unfold Fetcher_buildOriginURL; rewrite Hf, closed_allows by done;
    rewrite ?Hok0; cbn [negb]; rewrite Er; try lia.
  all: rewrite Nat.add_0_r in Hresp || (specialize (Hdo 0%nat ltac:(lia)) as Hd; rewrite Nat.add_0_r in Hd).
  1,2: rewrite Hresp, (proj2 (Z.leb_gt _ _)) by done; unfold circuitBreaker_RecordSuccess; rewrite H0; done.
  rewrite Hd. destruct (closed_failure (at_failure (env (2 - S left)%nat)) cb H0 Hp) as (Hs1 & Hf1 & Ht1); [lia|].
  assert (Hshift : ∀ i, (2 - left + i = 2 - S left + S i)%nat) by lia.
  specialize (IH left (circuitBreaker_RecordFailure (at_failure (env (2 - S left)%nat)) cb) (sanitizeKey key) Hf Hrh ltac:(lia)).
  destruct (executeFetchWithRetry f env left _ _ _) as [[res cb'] reqs].
  destruct IH as (? & ? & ? & ?); rewrite ?Hf1, ?Ht1; try done; try lia.
  - intros i Hi. rewrite Hshift. apply Hok. lia.
  - intros i Hi. rewrite Hshift. apply Hdo. lia.
  - by rewrite Hshift.
  - split_and!; [done|cbn; lia|done..].
Qed.


(** With the breaker closed, a connection failure is retried up to twice:
    if the first [k] exchanges fail and the next one answers below 400, the fetch returns
    that answer after [k + 1] requests and the breaker's failure count is back to zero. *)
Theorem fetch_retries_connection f env cb base key rh r k :
  f_originURL f = Some base → (rh = "" ∨ validRangeHeader rh = true) → (k ≤ 2)%nat →
  (∀ i, (i ≤ k)%nat → at_request_ok (env i) = true) →
  (∀ i, (i < k)%nat → at_do (env i) = DoFails) → at_do (env k) = Response r → fr_StatusCode r < 400 →
  cb_state cb = 0 → 0 ≤ cb_failures cb → cb_failures cb + Z.of_nat k < cb_threshold cb < 2 ^ 31 →
  let '(res, cb', reqs) := Fetcher_executeFetch f env cb key rh in
  res = Ok r ∧ length reqs = S k ∧ cb_state cb' = 0 ∧ cb_failures cb' = 0.
Proof. intros Hf Hrh Hk. intros. apply (fetch_retries f env base rh r k 2); done || lia. Qed.

(** ** A concrete fetch *)
Definition demo_origin : Fetcher := mkFetcher (Some (mkURL "http://origin:8080" "/cdn/")) "tok".
Definition demo_reply : FetchResult := mkFetchResult (mkRespBody (bytes_of_string "data") false) 4 "" "" 200.
Definition demo_env (i : nat) : attempt :=
  mkAttempt 0 0 true (match i with O => DoFails | _ => Response demo_reply end).

Example demo_fetch :
  (Fetcher_executeFetch demo_origin demo_env (newCircuitBreaker 5 30) "/a/../ b \..\c" "").2 =
    replicate 2 (mkOriginRequest (mkURL "http://origin:8080" "/cdn/obj/a/b/c") "Bearer tok" "").
Proof. vm_compute. reflexivity. Qed.


Lemma fetch_retries_connection_witness :
  (Fetcher_executeFetch demo_origin demo_env (newCircuitBreaker 5 30) "a" "").1.1 = Ok demo_reply.
Proof.
  pose proof (fetch_retries_connection demo_origin demo_env (newCircuitBreaker 5 30) (mkURL "http://origin:8080" "/cdn/")
    "a" "" demo_reply 1 eq_refl (or_introl eq_refl) ltac:(lia)) as H.
  destruct (Fetcher_executeFetch _ _ _ _ _) as [[r cb'] reqs]. apply H; try reflexivity.
  - intros i Hi. destruct i; [reflexivity|lia].
  - cbn. lia.
Defined.
