(* ===== verification/Deduper.v ===== *)
(** * Deduplication of fetches ([deduper] and [doFetch] of [internal/edgeagent/fetcher.go])

    Goroutines that ask for the same key at the same time share one fetch: the first enters
    the key and fetches, the others find its entry and wait on the entry's two channels,
    which hold one value each.  A state holds the pending map, the channels and where each
    goroutine is in [doFetch]; the steps are the critical sections, channel operations and
    the returns of [executeFetch] and of a cancelled context.  The ghost fields record the
    outcome of an entry's fetch and who received its result.

    The theorems: two goroutines never fetch the same key at once; the fetching goroutine
    never blocks when it hands out its result; a goroutine that is served gets the outcome
    of the fetch; but an entry serves at most one goroutine, so that a second one waits
    until its own context ends, and a goroutine that meets the result in [Do] swallows it
    and returns neither a result nor an error. *)

From S2P Require Import Prelude GoStrings StreamKeys Fetcher.

(** What [doFetch] returns: a pointer and an error, both may be nil. *)
Abbreviation outcome := (option FetchResult * option string)%type.

(** A goroutine in [doFetch]; [e] is the number of an entry. *)
Inductive caller :=
| CStart
| CFound (e : nat)
| CWait (e : nat)
| CGotResult (e : nat) (r : option FetchResult)
| CFetch (e : nat)
| CBroadcast (e : nat) (o : outcome)
| CSendResult (e : nat) (o : outcome)
| CSendErr (e : nat) (o : outcome)
| CDone (o : outcome).

(** [deduperEntry]: the contents of [resultCh] and [errCh]. *)
Record deduperEntry := mkDeduperEntry {
  de_resultCh : option (option FetchResult);
  de_errCh : option (option string)
}.

Record deduper := mkDeduper {
  dd_pending : gmap string nat;
  dd_entries : gmap nat deduperEntry;
  dd_next : nat;
  dd_callers : gmap nat (string * caller);
  dd_outcome : gmap nat outcome;       (* ghost *)
  dd_taken : list nat                  (* ghost: entries whose result was received *)
}.

Definition newDeduper : deduper := mkDeduper ∅ ∅ 0 ∅ ∅ [].

Definition at_caller (d : deduper) (c : nat) (k : string) (st : caller) : Prop :=
  dd_callers d !! c = Some (k, st).
Definition move (d : deduper) (c : nat) (k : string) (st : caller) : deduper :=
  mkDeduper (dd_pending d) (dd_entries d) (dd_next d) (<[c := (k, st)]> (dd_callers d))
    (dd_outcome d) (dd_taken d).
Definition set_entry_chans (d : deduper) (e : nat) (en : deduperEntry) : deduper :=
  mkDeduper (dd_pending d) (<[e := en]> (dd_entries d)) (dd_next d) (dd_callers d)
    (dd_outcome d) (dd_taken d).
Definition take_result (d : deduper) (e : nat) (en : deduperEntry) : deduper :=
  mkDeduper (dd_pending d) (<[e := mkDeduperEntry None (de_errCh en)]> (dd_entries d)) (dd_next d)
    (dd_callers d) (dd_outcome d) (e :: dd_taken d).

(** [Do] for a key that is not pending enters it with two fresh channels. *)
Definition deduper_enter (d : deduper) (c : nat) (k : string) : deduper :=
  move (mkDeduper (<[k := dd_next d]> (dd_pending d))
          (<[dd_next d := mkDeduperEntry None None]> (dd_entries d)) (S (dd_next d))
          (dd_callers d) (dd_outcome d) (dd_taken d)) c k (CFetch (dd_next d)).

(** The critical section of [Broadcast]. *)
Definition deduper_remove (d : deduper) (c : nat) (k : string) (o : outcome) : deduper :=
  match dd_pending d !! k with
  | Some e =>
      move (mkDeduper (delete k (dd_pending d)) (dd_entries d) (dd_next d) (dd_callers d)
              (dd_outcome d) (dd_taken d)) c k (CSendResult e o)
  | None => move d c k (CDone o)
  end.

Inductive dd_step (d : deduper) : deduper → Prop :=
| dd_call c k : dd_callers d !! c = None → dd_step d (move d c k CStart)
| dd_do_found c k e : at_caller d c k CStart → dd_pending d !! k = Some e → dd_step d (move d c k (CFound e))
| dd_do_enter c k : at_caller d c k CStart → dd_pending d !! k = None → dd_step d (deduper_enter d c k)
| dd_do_select_result c k e en r cerr : at_caller d c k (CFound e) →
    dd_entries d !! e = Some en → de_resultCh en = Some r →
    dd_step d (move (take_result d e en) c k (CDone (None, cerr)))
| dd_do_select_done c k e cerr : at_caller d c k (CFound e) → dd_step d (move d c k (CDone (None, Some cerr)))
| dd_do_select_default c k e en : at_caller d c k (CFound e) →
    dd_entries d !! e = Some en → de_resultCh en = None → dd_step d (move d c k (CWait e))
| dd_wait_result c k e en r : at_caller d c k (CWait e) →
    dd_entries d !! e = Some en → de_resultCh en = Some r →
    dd_step d (move (take_result d e en) c k (CGotResult e r))
| dd_wait_done c k e cerr : at_caller d c k (CWait e) → dd_step d (move d c k (CDone (None, Some cerr)))
| dd_wait_err c k e r en x : at_caller d c k (CGotResult e r) →
    dd_entries d !! e = Some en → de_errCh en = Some x →
    dd_step d (move (set_entry_chans d e (mkDeduperEntry (de_resultCh en) None)) c k (CDone (r, x)))
| dd_fetched c k e o : at_caller d c k (CFetch e) →
    dd_step d (move (mkDeduper (dd_pending d) (dd_entries d) (dd_next d) (dd_callers d)
                      (<[e := o]> (dd_outcome d)) (dd_taken d)) c k (CBroadcast e o))
| dd_broadcast c k e o : at_caller d c k (CBroadcast e o) → dd_step d (deduper_remove d c k o)
| dd_send_result c k e o en : at_caller d c k (CSendResult e o) →
    dd_entries d !! e = Some en → de_resultCh en = None →
    dd_step d (move (set_entry_chans d e (mkDeduperEntry (Some o.1) (de_errCh en))) c k (CSendErr e o))
| dd_send_err c k e o en : at_caller d c k (CSendErr e o) →
    dd_entries d !! e = Some en → de_errCh en = None →
    dd_step d (move (set_entry_chans d e (mkDeduperEntry (de_resultCh en) (Some o.2))) c k (CDone o)).

(** ** The invariant *)

(** What a goroutine's position says about the entry it refers to. *)
Definition caller_ok (d : deduper) (k : string) (st : caller) : Prop :=
  match st with
  | CStart | CDone _ => True
  | CFound e | CWait e => is_Some (dd_entries d !! e)
  | CGotResult e r => is_Some (dd_entries d !! e) ∧ e ∈ dd_taken d ∧ ∃ x, dd_outcome d !! e = Some (r, x)
  | CFetch e => dd_pending d !! k = Some e ∧ dd_entries d !! e = Some (mkDeduperEntry None None) ∧ (e ∉ dd_taken d)
  | CBroadcast e o => dd_pending d !! k = Some e ∧ dd_entries d !! e = Some (mkDeduperEntry None None) ∧
                      (e ∉ dd_taken d) ∧ dd_outcome d !! e = Some o
  | CSendResult e o => dd_entries d !! e = Some (mkDeduperEntry None None) ∧
                       (e ∉ dd_taken d) ∧ dd_outcome d !! e = Some o
  | CSendErr e o => dd_outcome d !! e = Some o ∧ ∃ en, dd_entries d !! e = Some en ∧ de_errCh en = None
  end.

(** The entry a goroutine fetches for or hands out. *)
Definition owns (st : caller) : option nat :=
  match st with
  | CFetch e | CBroadcast e _ | CSendResult e _ | CSendErr e _ => Some e
  | _ => None
  end.

Record dd_ok (d : deduper) : Prop := {
  do_callers : ∀ c k st, dd_callers d !! c = Some (k, st) → caller_ok d k st;
  do_owner : ∀ c c' k k' st st' e, dd_callers d !! c = Some (k, st) → dd_callers d !! c' = Some (k', st') →
    owns st = Some e → owns st' = Some e → c = c';
  do_pending : ∀ k e, dd_pending d !! k = Some e →
    ∃ c st, dd_callers d !! c = Some (k, st) ∧ (st = CFetch e ∨ ∃ o, st = CBroadcast e o);
  do_entry : ∀ e en, dd_entries d !! e = Some en →
    (e < dd_next d)%nat ∧
    (∀ r, de_resultCh en = Some r → (e ∉ dd_taken d) ∧ ∃ x, dd_outcome d !! e = Some (r, x)) ∧
    (∀ x, de_errCh en = Some x → ∃ r, dd_outcome d !! e = Some (r, x));
  do_taken : NoDup (dd_taken d) ∧ ∀ e, e ∈ dd_taken d → is_Some (dd_entries d !! e)
}.

(** Other goroutines do not notice a change of an entry they do not own. *)
Lemma caller_ok_chans d k st e en :
  caller_ok d k st → owns st ≠ Some e → caller_ok (set_entry_chans d e en) k st.
Proof.
  assert (Hsome : ∀ e', is_Some (dd_entries d !! e') → is_Some (<[e := en]> (dd_entries d) !! e')).
  { intros e' Hs. destruct (decide (e = e')) as [->|]; [rewrite lookup_insert_eq; by eexists|by rewrite lookup_insert_ne]. }
  destruct st; cbn; intros Hc Ho; try done; try (by apply Hsome);
    try (rewrite lookup_insert_ne by congruence; done).
  destruct Hc as (? & ? & ?). split_and!; [by apply Hsome|done..].
Qed.

Lemma caller_ok_take d k st e en :
  caller_ok d k st → owns st ≠ Some e → caller_ok (take_result d e en) k st.
Proof.
  intros Hc Ho. apply (caller_ok_chans d k st e (mkDeduperEntry None (de_errCh en))) in Hc; [|done].
  destruct st; cbn in *; rewrite ?not_elem_of_cons; try done.
  - destruct Hc as (? & ? & ?). split_and!; [done|by right|done].
  - destruct Hc as (? & ? & ?). split_and!; [done|done|congruence|done].
  - destruct Hc as (? & ? & ? & ?). split_and!; [done|done|congruence|done|done].
  - destruct Hc as (? & ? & ?). split_and!; [done|congruence|done|done].
Qed.

Lemma caller_ok_move d c k st k0 st0 : caller_ok (move d c k st) k0 st0 ↔ caller_ok d k0 st0.
Proof. done. Qed.

Lemma lookup_move d c k st c' :
  dd_callers (move d c k st) !! c' = if decide (c = c') then Some (k, st) else dd_callers d !! c'.
Proof. cbn. case_decide as Hc; [subst; by rewrite lookup_insert_eq|by rewrite lookup_insert_ne]. Qed.

(** A goroutine that owns no entry moves to a place where it owns none. *)
Lemma move_ok d c k st :
  dd_ok d → caller_ok d k st → owns st = None →
  (∀ k0 st0, dd_callers d !! c = Some (k0, st0) → owns st0 = None) → dd_ok (move d c k st).
Proof.
  intros [H1 H2 H3 H4 H5] Hst Ho Hold. split; [| | |done|done].
  - intros c' k' st'. rewrite lookup_move. case_decide; [by intros [= <- <-]|]. intros Hc. apply (H1 _ _ _ Hc).
  - intros c1 c2 k1 k2 st1 st2 e. rewrite !lookup_move. repeat case_decide; subst; try done;
      intros ????; simplify_eq; try congruence. by eapply H2.
  - intros k' e Hp. destruct (H3 k' e Hp) as (c' & st' & Hc' & Hst'). exists c', st'. split; [|done].
    rewrite lookup_move. case_decide as Hcc; [|done]. subst c'. apply Hold in Hc'. by destruct Hst' as [->|[o ->]].
Qed.

Lemma owner_of d c k st e c' k' st' :
  dd_ok d → dd_callers d !! c = Some (k, st) → owns st = Some e → c ≠ c' →
  dd_callers d !! c' = Some (k', st') → owns st' ≠ Some e.
Proof. intros Hd Hc Ho Hne Hc' Ho'. apply Hne. by eapply (do_owner d Hd). Qed.

(** A buffered result has no owner that still has to send it. *)
Lemma result_unowned d e en r c k st :
  dd_ok d → dd_entries d !! e = Some en → de_resultCh en = Some r →
  dd_callers d !! c = Some (k, st) → owns st = Some e → ∃ o, st = CSendErr e o.
Proof.
  intros Hd He Hr Hc Ho. pose proof (do_callers d Hd _ _ _ Hc) as Hok.
  destruct st; simplify_eq/=; destruct_and?; simplify_eq/=; try done. by eexists.
Qed.

Lemma take_ok d c k st e en r :
  dd_ok d → dd_entries d !! e = Some en → de_resultCh en = Some r →
  dd_callers d !! c = Some (k, CFound e) ∨ dd_callers d !! c = Some (k, CWait e) →
  st = CGotResult e r ∨ (∃ o, st = CDone o) →
  dd_ok (move (take_result d e en) c k st).
Proof.
  intros Hd He Hr Hc Hst. pose proof Hd as [H1 H2 H3 H4 H5].
  destruct (H4 e en He) as (Hlt & Hres & Herr). destruct (Hres r Hr) as (Hnt & x & Hout).
  assert (Hold : ∀ k0 st0, dd_callers d !! c = Some (k0, st0) → owns st0 = None).
  { intros k0 st0 Hc0. by destruct Hc as [Hc|Hc]; rewrite Hc in Hc0; simplify_eq. }
  apply move_ok; [|..|done].
  - split; cbn.
    + intros c' k' st' Hc'. specialize (H1 _ _ _ Hc') as Hok. destruct (decide (owns st' = Some e)) as [Ho|Ho].
      * destruct (result_unowned _ _ _ _ _ _ _ Hd He Hr Hc' Ho) as [o ->]. cbn in *.
        destruct Hok as (Hoo & en' & He' & Herr'). simplify_eq. split; [done|]. eexists. by rewrite lookup_insert_eq.
      * by apply caller_ok_take.
    + apply H2.
    + apply H3.
    + intros e' en'. destruct (decide (e = e')) as [<-|Hne].
      * rewrite lookup_insert_eq. intros [= <-]. split_and!; [done|done|]. apply Herr.
      * rewrite lookup_insert_ne by done. intros He'. destruct (H4 e' en' He') as (? & Hr' & ?).
        split_and!; [done| |done]. intros r' Hr''. apply Hr' in Hr'' as [? ?]. split; [|done].
        apply not_elem_of_cons. split; [congruence|done].
    + destruct H5 as [Hnd Hin]. split; [by constructor|].
      intros e' [->|He']%elem_of_cons; [rewrite lookup_insert_eq; by eexists|].
      destruct (decide (e = e')) as [<-|]; [rewrite lookup_insert_eq; by eexists|]. rewrite lookup_insert_ne by done. by apply Hin.
  - destruct Hst as [->|[o ->]]; [|done]. cbn. split_and!; [rewrite lookup_insert_eq; by eexists|by left|by eexists].
  - by destruct Hst as [->|[o ->]].
Qed.

Lemma caller_entry d k st e : caller_ok d k st → owns st = Some e → is_Some (dd_entries d !! e).
Proof. destruct st; cbn; intros Hc [= <-]; naive_solver. Qed.

Lemma enter_ok d c k :
  dd_ok d → at_caller d c k CStart → dd_pending d !! k = None → dd_ok (deduper_enter d c k).
Proof.
  intros Hd Hc Hk. pose proof Hd as [H1 H2 H3 H4 H5]. unfold at_caller in Hc.
  assert (Hfresh : dd_entries d !! dd_next d = None).
  { destruct (dd_entries d !! dd_next d) eqn:E; [|done]. apply H4 in E as (? & _). lia. }
  assert (Hntk : dd_next d ∉ dd_taken d).
  { intros Hin. apply (proj2 H5) in Hin. by rewrite Hfresh in Hin; destruct Hin. }
  assert (Hno : ∀ c' k' st', dd_callers d !! c' = Some (k', st') → owns st' ≠ Some (dd_next d)).
  { intros c' k' st' Hc' Ho. pose proof (caller_entry _ _ _ _ (H1 _ _ _ Hc') Ho) as [? Hs]. congruence. }
  set (d1 := set_entry_chans d (dd_next d) (mkDeduperEntry None None)).
  split.
  - intros c' k' st'. unfold deduper_enter. rewrite lookup_move. case_decide as Hcc.
    + intros [= <- <-]. cbn. rewrite !lookup_insert_eq. done.
    + intros Hc'. specialize (H1 _ _ _ Hc') as Hok.
      apply (caller_ok_chans _ _ _ (dd_next d) (mkDeduperEntry None None)) in Hok; [|by eapply Hno].
      destruct st'; cbn in *; try done; destruct_and?;
        (split_and!; [rewrite lookup_insert_ne; [done|congruence]|done..]).
  - intros c1 c2 k1 k2 st1 st2 e. unfold deduper_enter. rewrite !lookup_move. repeat case_decide; subst; try done;
      intros ????; simplify_eq/=.
    + exfalso. by eapply Hno.
    + exfalso. by eapply Hno.
    + by eapply H2.
  - intros k' e. cbn. destruct (decide (k = k')) as [<-|Hkk].
    + rewrite lookup_insert_eq. intros [= <-]. exists c, (CFetch (dd_next d)). rewrite lookup_insert_eq. auto.
    + rewrite lookup_insert_ne by done. intros Hp. destruct (H3 k' e Hp) as (c' & st' & Hc' & Hst').
      exists c', st'. split; [|done]. rewrite lookup_insert_ne; [done|]. intros ->. congruence.
  - intros e en. cbn. destruct (decide (dd_next d = e)) as [<-|Hne].
    + rewrite lookup_insert_eq. intros [= <-]. split_and!; [lia|done|done].
    + rewrite lookup_insert_ne by done. intros He. destruct (H4 e en He) as (? & ? & ?). split_and!; [lia|done|done].
  - cbn. split; [apply H5|]. intros e He. apply (proj2 H5) in He.
    destruct (decide (dd_next d = e)) as [<-|]; [rewrite lookup_insert_eq; by eexists|by rewrite lookup_insert_ne].
Qed.

(** An owner goes on to its next position, with a change of its own entry. *)
Lemma owner_step_ok d d' c k st st' e en en' :
  dd_ok d → dd_callers d !! c = Some (k, st) → owns st = Some e → dd_entries d !! e = Some en →
  d' = move (set_entry_chans d e en') c k st' →
  (∀ o, st ≠ CBroadcast e o) → st ≠ CFetch e →
  (owns st' = Some e ∨ owns st' = None) → caller_ok d' k st' →
  (∀ r, de_resultCh en' = Some r → (e ∉ dd_taken d) ∧ ∃ x, dd_outcome d !! e = Some (r, x)) →
  (∀ x, de_errCh en' = Some x → ∃ r, dd_outcome d !! e = Some (r, x)) →
  dd_ok d'.
Proof.
  intros Hd Hc Ho He -> Hnb Hnf Ho' Hok' Hr Hx. pose proof Hd as [H1 H2 H3 H4 H5]. split.
  - intros c' k' st1. rewrite lookup_move. case_decide as Hcc; [by intros [= <- <-]|].
    intros Hc'. apply caller_ok_move, caller_ok_chans; [by eapply H1|]. by eapply (owner_of d c k st).
  - intros c1 c2 k1 k2 st1 st2 e1. rewrite !lookup_move. repeat case_decide; subst; try done; intros ? ? Ho1 Ho2; simplify_eq.
    + exfalso. destruct Ho' as [Ho'|Ho']; rewrite Ho' in Ho1; simplify_eq. by eapply (owner_of d c1 k1 st e1 c2).
    + exfalso. destruct Ho' as [Ho'|Ho']; rewrite Ho' in Ho2; simplify_eq. by eapply (owner_of d c2 k2 st e1 c1).
    + by eapply H2.
  - intros k' e1 Hp. destruct (H3 k' e1 Hp) as (c' & st1 & Hc' & Hst1). exists c', st1. split; [|done].
    rewrite lookup_move. case_decide as Hcc; [|done]. subst c'. cbn in Hc'. simplify_eq.
    destruct Hst1 as [->|[o ->]]; simplify_eq/=; by destruct (Hnb o).
  - intros e1 en1. cbn. destruct (decide (e = e1)) as [<-|Hne].
    + rewrite lookup_insert_eq. intros [= <-]. split_and!; [by eapply H4|done|done].
    + rewrite lookup_insert_ne by done. by intros ?%H4.
  - cbn. split; [apply H5|]. intros e1 Hin. apply (proj2 H5) in Hin.
    destruct (decide (e = e1)) as [<-|]; [rewrite lookup_insert_eq; by eexists|by rewrite lookup_insert_ne].
Qed.

Lemma fetched_ok d c k e o :
  dd_ok d → at_caller d c k (CFetch e) →
  dd_ok (move (mkDeduper (dd_pending d) (dd_entries d) (dd_next d) (dd_callers d)
                (<[e := o]> (dd_outcome d)) (dd_taken d)) c k (CBroadcast e o)).
Proof.
  intros Hd Hc. unfold at_caller in Hc. pose proof Hd as [H1 H2 H3 H4 H5].
  destruct (H1 _ _ _ Hc) as (Hp & He & Hnt). split.
  - intros c' k' st'. rewrite lookup_move. case_decide as Hcc.
    + intros [= <- <-]. cbn. by rewrite lookup_insert_eq.
    + intros Hc'. pose proof (owner_of d c k _ e c' k' st' Hd Hc eq_refl Hcc Hc') as Hno.
      specialize (H1 _ _ _ Hc') as Hok. destruct st'; cbn in *; try done.
      * destruct Hok as (? & ? & ?). rewrite lookup_insert_ne; [done|]. by intros <-.
      * by rewrite lookup_insert_ne by congruence.
      * by rewrite lookup_insert_ne by congruence.
      * by rewrite lookup_insert_ne by congruence.
  - intros c1 c2 k1 k2 st1 st2 e1. rewrite !lookup_move. repeat case_decide; subst; try done; intros ? ? Ho1 Ho2; simplify_eq/=.
    + exfalso. by eapply (owner_of d c1 k1 (CFetch e1) e1 c2).
    + exfalso. by eapply (owner_of d c2 k2 (CFetch e1) e1 c1).
    + by eapply H2.
  - intros k' e1 Hp'. destruct (H3 k' e1 Hp') as (c' & st1 & Hc' & Hst1). destruct (decide (c = c')) as [<-|Hcc].
    + exists c, (CBroadcast e o). rewrite lookup_move, decide_True by done.
      destruct Hst1 as [->|[o' ->]]; simplify_eq. eauto.
    + exists c', st1. by rewrite lookup_move, decide_False.
  - intros e1 en1 He1. cbn in *. destruct (H4 e1 en1 He1) as (? & Hr & Hx). destruct (decide (e = e1)) as [<-|Hne].
    + simplify_eq. done.
    + rewrite !lookup_insert_ne by done. done.
  - done.
Qed.

Lemma broadcast_ok d c k e o :
  dd_ok d → at_caller d c k (CBroadcast e o) → dd_ok (deduper_remove d c k o).
Proof.
  intros Hd Hc. unfold at_caller in Hc. pose proof Hd as [H1 H2 H3 H4 H5].
  destruct (H1 _ _ _ Hc) as (Hp & He & Hnt & Hout). unfold deduper_remove. rewrite Hp. split.
  - intros c' k' st'. rewrite lookup_move. case_decide as Hcc; [by intros [= <- <-]|].
    intros Hc'. pose proof (owner_of d c k _ e c' k' st' Hd Hc eq_refl Hcc Hc') as Hno.
    specialize (H1 _ _ _ Hc') as Hok.
    destruct st'; cbn in *; try done; destruct_and?;
      (split_and!; [rewrite lookup_delete_ne; [done|]; intros <-; congruence|done..]).
  - intros c1 c2 k1 k2 st1 st2 e1. rewrite !lookup_move. repeat case_decide; subst; try done; intros ? ? Ho1 Ho2; simplify_eq/=.
    + exfalso. by eapply (owner_of d c1 k1 (CBroadcast e1 o) e1 c2).
    + exfalso. by eapply (owner_of d c2 k2 (CBroadcast e1 o) e1 c1).
    + by eapply H2.
  - intros k' e1. cbn. intros [Hkk Hp']%lookup_delete_Some. destruct (H3 k' e1 Hp') as (c' & st1 & Hc' & Hst1).
    exists c', st1. split; [|done]. rewrite lookup_insert_ne; [done|]. intros ->. congruence.
  - done.
  - done.
Qed.

Lemma dd_step_ok d d' : dd_step d d' → dd_ok d → dd_ok d'.
Proof.
  intros Hs Hd. destruct Hs; unfold at_caller in *;
    try match goal with H : dd_callers d !! _ = Some _ |- _ => pose proof (do_callers d Hd _ _ _ H) as Hok; cbn in Hok end.
  - apply move_ok; [done..|]. intros. congruence.
  - apply move_ok; [done| |done|intros; by simplify_eq].
    destruct (do_pending d Hd _ _ H0) as (c' & st' & Hc' & Hst'). pose proof (do_callers d Hd _ _ _ Hc') as Hok'.
    by eapply caller_entry; [exact Hok'|]; destruct Hst' as [->|[? ->]].
  - by apply enter_ok.
  - eapply take_ok; eauto.
  - apply move_ok; [done..|intros; by simplify_eq].
  - apply move_ok; [done..|intros; by simplify_eq].
  - eapply take_ok; eauto.
  - apply move_ok; [done..|intros; by simplify_eq].
  - (* the served goroutine takes the error *)
    destruct Hok as (Hen & Htk & x' & Hout). pose proof Hd as [H1' H2 H3 H4 H5].
    destruct (H4 _ _ H0) as (Hlt & Hr & Hx). apply move_ok; [|done|done|cbn; intros; by simplify_eq].
    split; cbn; [|done|done| |].
    + intros c' k' st' Hc'. specialize (H1' _ _ _ Hc') as Hok'. destruct (decide (owns st' = Some e)) as [Ho|Ho].
      * destruct st'; simplify_eq/=; naive_solver.
      * by apply (caller_ok_chans d).
    + intros e1 en1. destruct (decide (e = e1)) as [<-|Hne].
      * rewrite lookup_insert_eq. intros [= <-]. cbn. done.
      * rewrite lookup_insert_ne by done. apply H4.
    + split; [apply H5|]. intros e1 Hin. apply (proj2 H5) in Hin.
      destruct (decide (e = e1)) as [<-|]; [rewrite lookup_insert_eq; by eexists|by rewrite lookup_insert_ne].
  - by apply fetched_ok.
  - by eapply broadcast_ok.
  - destruct Hok as (He & Hnt & Hout). simplify_eq/=.
    eapply owner_step_ok; try done; cbn; eauto.
    + split; [done|]. eexists. by rewrite lookup_insert_eq.
    + intros r [= <-]. split; [done|]. exists o.2. by destruct o.
  - destruct Hok as (Hout & en' & He & Hx). simplify_eq/=.
    eapply owner_step_ok; try done; cbn; eauto.
    + intros r Hr. by eapply (do_entry d Hd).
    + intros x [= <-]. exists o.1. by destruct o.
Qed.

Lemma new_deduper_ok : dd_ok newDeduper.
Proof. split; cbn; try (by intros; simplify_map_eq). split; [constructor|]. intros e He. by apply elem_of_nil in He. Qed.

Lemma dd_steps_ok d d' : rtc dd_step d d' → dd_ok d → dd_ok d'.
Proof. induction 1; eauto using dd_step_ok. Qed.

Lemma lookup_remove_ne d c k o c' :
  c ≠ c' → dd_callers (deduper_remove d c k o) !! c' = dd_callers d !! c'.
Proof. intros Hc. unfold deduper_remove. destruct (dd_pending d !! k); cbn; by rewrite lookup_insert_ne. Qed.

(** ** What the deduplication gives *)

(** C27 (safety): Single flight: at any time at most one goroutine fetches a key from the
    origin; and a goroutine that waited and is served returns exactly what that fetch
    returned. *)
Theorem dedup_single_flight d :
  rtc dd_step newDeduper d →
  (∀ c c' k e e', at_caller d c k (CFetch e) → at_caller d c' k (CFetch e') → c = c') ∧
  (∀ c k e r d' o, at_caller d c k (CGotResult e r) → dd_step d d' → at_caller d' c k (CDone o) →
     dd_outcome d !! e = Some o).
Proof.
  intros Hr. pose proof (dd_steps_ok _ _ Hr new_deduper_ok) as Hd. split.
  - intros c c' k e e' Hc Hc'. destruct (do_callers d Hd _ _ _ Hc) as [Hp _].
    destruct (do_callers d Hd _ _ _ Hc') as [Hp' _]. simplify_eq. by eapply (do_owner d Hd).
  - intros c k e r d' o Hc Hs Hdone. destruct (do_callers d Hd _ _ _ Hc) as (_ & _ & x0 & Hout).
    unfold at_caller in *. destruct Hs; unfold at_caller, deduper_enter, deduper_remove in *;
      try (destruct (dd_pending d !! _)); rewrite lookup_move in Hdone; case_decide; simplify_eq/=; try congruence.
    destruct (do_entry d Hd _ _ H0) as (_ & _ & Hx). destruct (Hx _ H1) as [r' Hr']. congruence.
Qed.

(** The steps left to a goroutine that hands out its outcome. *)
Definition handing_out (st : caller) : option (nat * outcome) :=
  match st with
  | CBroadcast e o => Some (3%nat, o)
  | CSendResult e o => Some (2%nat, o)
  | CSendErr e o => Some (1%nat, o)
  | _ => None
  end.

(** The goroutine that fetched never blocks on handing out its result: in
    every reachable state it can take its next step, and so returns the outcome of its
    fetch after at most three steps of its own, whatever the others do meanwhile. *)
Theorem dedup_leader_returns d c k st n o :
  rtc dd_step newDeduper d → at_caller d c k st → handing_out st = Some (n, o) →
  (∃ d' st', dd_step d d' ∧ at_caller d' c k st' ∧
     ((n = 1%nat ∧ st' = CDone o) ∨ handing_out st' = Some (pred n, o))) ∧
  (∀ d', dd_step d d' → at_caller d' c k st ∨
     ∃ st', at_caller d' c k st' ∧ ((n = 1%nat ∧ st' = CDone o) ∨ handing_out st' = Some (pred n, o))).
Proof.
  intros Hr Hc Hh. pose proof (dd_steps_ok _ _ Hr new_deduper_ok) as Hd.
  pose proof (do_callers d Hd _ _ _ Hc) as Hok. unfold at_caller in *. split.
  - destruct st as [| | | | |e o'|e o'|e o'|]; simplify_eq/=.
    + exists (deduper_remove d c k o), (CSendResult e o). split_and!; [by eapply dd_broadcast| |by right].
      destruct Hok as [Hp _]. unfold deduper_remove. by rewrite Hp, lookup_move, decide_True.
    + destruct Hok as (He & _). eexists _, (CSendErr e o).
      split_and!; [by eapply dd_send_result|by rewrite lookup_move, decide_True|by right].
    + destruct Hok as (_ & en & He & Hx). eexists _, (CDone o).
      split_and!; [by eapply dd_send_err|by rewrite lookup_move, decide_True|by left].
  - intros d' Hs. destruct Hs; unfold at_caller, deduper_enter in *.
    all: destruct (decide (c0 = c)) as [->|Hcc];
      [rewrite Hc in *; simplify_eq/=|left; rewrite ?lookup_remove_ne by done; cbn; by rewrite ?lookup_insert_ne].
    + right. destruct Hok as [Hp _]. unfold deduper_remove. rewrite Hp. eexists. rewrite lookup_move, decide_True by done. eauto.
    + right. eexists. cbn. rewrite lookup_insert_eq. eauto.
    + right. eexists. cbn. rewrite lookup_insert_eq. eauto.
Qed.

(** An entry serves one goroutine: once its result has been received, a second
    goroutine that waits on the entry keeps waiting until its own context ends, whatever
    happens. *)
Theorem dedup_waiter_starves d c k e d' :
  rtc dd_step newDeduper d → at_caller d c k (CWait e) → e ∈ dd_taken d → rtc dd_step d d' →
  at_caller d' c k (CWait e) ∨ ∃ cerr, at_caller d' c k (CDone (None, Some cerr)).
Proof.
  intros Hr Hc Ht Hr'. pose proof (dd_steps_ok _ _ Hr new_deduper_ok) as Hd. clear Hr.
  assert (Hgen : (at_caller d' c k (CWait e) ∨ ∃ cerr, at_caller d' c k (CDone (None, Some cerr))) ∧ e ∈ dd_taken d' ∧ dd_ok d').
  2:{ by destruct Hgen. }
  assert (Hinit : (at_caller d c k (CWait e) ∨ ∃ cerr, at_caller d c k (CDone (None, Some cerr))) ∧ e ∈ dd_taken d ∧ dd_ok d).
  { split_and!; [by left|done..]. }
  clear Hc Ht Hd. induction Hr' as [d|d d1 d2 Hs _ IH]; [done|]. apply IH. clear IH.
  destruct Hinit as (Hc & Ht & Hd). split_and!; [| |by eapply dd_step_ok].
  - unfold at_caller in *. destruct Hs; unfold at_caller, deduper_enter, deduper_remove in *;
      try (destruct (dd_pending d !! _)); rewrite ?lookup_move; cbn;
      (destruct (decide (c0 = c)) as [->|Hcc]; [|rewrite ?lookup_insert_ne by done; done]);
      destruct Hc as [Hc|[cerr' Hc]]; simplify_eq/=.
    + exfalso. destruct (do_entry d Hd _ _ H0) as (_ & Hres & _). by destruct (Hres _ H1) as [? _].
    + right. by eexists.
  - destruct Hs; unfold deduper_enter, deduper_remove; try (destruct (dd_pending d !! _)); cbn; try done; by right.
Qed.

(** ** The body that is handed over *)

(** [Broadcast] hands over a pointer, so all who receive a result read one [Body]: what is
    left of it, whether one of them has closed it, and what each has read. *)
Record sharedBody := mkSharedBody { sb_rest : bytes; sb_closed : bool; sb_got : gmap nat bytes }.
Definition opened_body (data : bytes) : sharedBody := mkSharedBody data false ∅.
Definition body_got (b : sharedBody) (c : nat) : bytes := default [] (sb_got b !! c).
Definition body_read (b : sharedBody) (c n : nat) : sharedBody :=
  mkSharedBody (drop n (sb_rest b)) (sb_closed b) (<[c := body_got b c ++ take n (sb_rest b)]> (sb_got b)).

Inductive sb_step (b : sharedBody) : sharedBody → Prop :=
| sb_read c n : sb_closed b = false → sb_step b (body_read b c n)
| sb_close : sb_step b (mkSharedBody (sb_rest b) true (sb_got b)).

Lemma body_got_read b c n c' :
  body_got (body_read b c n) c' = if decide (c = c') then body_got b c ++ take n (sb_rest b) else body_got b c'.
Proof.
  unfold body_got at 1, body_read. cbn [sb_got]. case_decide as H; [subst; by rewrite lookup_insert_eq|].
  by rewrite lookup_insert_ne.
Qed.

Lemma shared_body_total data b c c' :
  rtc sb_step (opened_body data) b → c ≠ c' →
  (length (body_got b c) + length (body_got b c') + length (sb_rest b) ≤ length data)%nat.
Proof.
  intros Hr Hc. remember (opened_body data) as b0 eqn:E.
  assert (H0 : (length (body_got b0 c) + length (body_got b0 c') + length (sb_rest b0) ≤ length data)%nat).
  { subst b0. unfold body_got, opened_body. cbn [sb_got sb_rest]. rewrite !lookup_empty. cbn. lia. }
  clear E. induction Hr as [b|b b1 b2 Hs _ IH]; [done|]. apply IH. destruct Hs as [c0 n _|]; [|done].
  rewrite !body_got_read. cbn [sb_rest body_read]. rewrite length_drop.
  repeat case_decide; subst; rewrite ?length_app, ?length_take; try lia; done.
Qed.

(** One body for all: the goroutines that share a fetch read the same response
    body, so each byte reaches one of them only: when one has read the whole object, every
    other one has read nothing, and in any case what two of them have read is together no
    longer than the object. *)
Theorem dedup_shares_body data b c c' :
  rtc sb_step (opened_body data) b → c ≠ c' →
  (length (body_got b c) + length (body_got b c') ≤ length data)%nat ∧
  (body_got b c = data → body_got b c' = []).
Proof.
  intros Hr Hc. pose proof (shared_body_total _ _ _ _ Hr Hc) as Ht. split; [lia|].
  intros Hg. apply nil_length_inv. rewrite Hg in Ht. lia.
Qed.

(** ** Concrete runs *)
Definition demo_outcome : outcome := (Some demo_reply, None).

(** Goroutine 0 fetches; 1 and 2 wait; 1 receives the result. *)
Definition starved_events : list (deduper → deduper) :=
  [ (λ d, move d 0 "a" CStart); (λ d, deduper_enter d 0 "a");
    (λ d, move d 1 "a" CStart); (λ d, move d 1 "a" (CFound 0)); (λ d, move d 1 "a" (CWait 0));
    (λ d, move d 2 "a" CStart); (λ d, move d 2 "a" (CFound 0)); (λ d, move d 2 "a" (CWait 0));
    (λ d, move (mkDeduper (dd_pending d) (dd_entries d) (dd_next d) (dd_callers d)
                  (<[0%nat := demo_outcome]> (dd_outcome d)) (dd_taken d)) 0 "a" (CBroadcast 0 demo_outcome));
    (λ d, deduper_remove d 0 "a" demo_outcome);
    (λ d, move (set_entry_chans d 0 (mkDeduperEntry (Some demo_outcome.1) None)) 0 "a" (CSendErr 0 demo_outcome));
    (λ d, move (take_result d 0 (mkDeduperEntry (Some demo_outcome.1) None)) 1 "a" (CGotResult 0 demo_outcome.1)) ].

Definition starved_state : deduper := foldl (λ d f, f d) newDeduper starved_events.

Lemma rtc_events (fs : list (deduper → deduper)) : ∀ d,
  (∀ n f, fs !! n = Some f → let d' := foldl (λ d f, f d) d (take n fs) in dd_step d' (f d')) →
  rtc dd_step d (foldl (λ d f, f d) d fs).
Proof.
  induction fs as [|f fs IH]; intros d Hs; cbn [foldl]; [apply rtc_refl|].
  eapply rtc_l; [apply (Hs 0%nat f eq_refl)|]. apply IH. intros n g Hg. apply (Hs (S n) g Hg).
Qed.

Lemma starved_reachable : rtc dd_step newDeduper starved_state.
Proof.
  apply rtc_events. intros n f Hn.
  do 12 (destruct n as [|n]; [injection Hn as <-; cbn zeta;
    first [ by apply dd_call
          | by eapply dd_do_enter
          | by apply (dd_do_found _ _ _ 0)
          | by eapply dd_do_select_default
          | by eapply dd_fetched
          | by eapply dd_broadcast
          | by eapply (dd_send_result _ 0 "a" 0 demo_outcome (mkDeduperEntry None None))
          | by eapply (dd_wait_result _ 1 "a" 0 (mkDeduperEntry (Some demo_outcome.1) None)) ]|]).
  done.
Qed.

Lemma dedup_waiter_starves_witness :
  at_caller starved_state 2 "a" (CWait 0) ∧
  (at_caller starved_state 2 "a" (CWait 0) ∨ ∃ cerr, at_caller starved_state 2 "a" (CDone (None, Some cerr))).
Proof.
  split; [reflexivity|].
  apply (dedup_waiter_starves starved_state 2 "a" 0 starved_state starved_reachable);
    [reflexivity|left|apply rtc_refl].
Defined.

(** Then goroutine 0 sends the error. *)
Definition served_state : deduper :=
  move (set_entry_chans starved_state 0 (mkDeduperEntry None (Some demo_outcome.2))) 0 "a" (CDone demo_outcome).

Lemma served_reachable : rtc dd_step newDeduper served_state.
Proof.
  eapply rtc_r; [exact starved_reachable|].
  eapply (dd_send_err starved_state 0 "a" 0 demo_outcome (mkDeduperEntry None None)); reflexivity.
Qed.

Lemma dedup_single_flight_witness : dd_outcome served_state !! 0%nat = Some demo_outcome.
Proof.
  destruct (dedup_single_flight served_state served_reachable) as [_ H].
  eapply (H 1%nat "a" 0%nat demo_outcome.1); [reflexivity| |].
  - eapply (dd_wait_err _ 1 "a" 0 demo_outcome.1 (mkDeduperEntry None (Some None))); reflexivity.
  - reflexivity.
Defined.

Lemma dedup_leader_returns_witness :
  ∃ d' st', dd_step starved_state d' ∧ at_caller d' 0 "a" st' ∧
    ((1%nat = 1%nat ∧ st' = CDone demo_outcome) ∨ handing_out st' = Some (0%nat, demo_outcome)).
Proof.
  apply (dedup_leader_returns starved_state 0 "a" (CSendErr 0 demo_outcome) 1 demo_outcome starved_reachable);
    reflexivity.
Defined.

(** A goroutine that finds an entry and meets its result already in the channel
    takes it away and returns a nil result with a nil error, although its context has not
    ended: the caller in [handleObject] then dereferences the nil result. *)
Theorem dedup_nil_result :
  ∃ d, rtc dd_step newDeduper d ∧ at_caller d 1 "a" (CDone (None, None)).
Proof.
  set (fs := [ (λ d, move d 0 "a" CStart); (λ d, deduper_enter d 0 "a");
    (λ d, move d 1 "a" CStart); (λ d, move d 1 "a" (CFound 0));
    (λ d, move (mkDeduper (dd_pending d) (dd_entries d) (dd_next d) (dd_callers d)
                  (<[0%nat := demo_outcome]> (dd_outcome d)) (dd_taken d)) 0 "a" (CBroadcast 0 demo_outcome));
    (λ d, deduper_remove d 0 "a" demo_outcome);
    (λ d, move (set_entry_chans d 0 (mkDeduperEntry (Some demo_outcome.1) None)) 0 "a" (CSendErr 0 demo_outcome));
    (λ d, move (take_result d 0 (mkDeduperEntry (Some demo_outcome.1) None)) 1 "a" (CDone (None, None))) ]).
  exists (foldl (λ d f, f d) newDeduper fs). split; [|reflexivity].
  apply rtc_events. intros n f Hn.
  do 8 (destruct n as [|n]; [injection Hn as <-; cbn zeta;
    first [ by apply dd_call
          | by eapply dd_do_enter
          | by apply (dd_do_found _ _ _ 0)
          | by eapply dd_fetched
          | by eapply dd_broadcast
          | by eapply (dd_send_result _ 0 "a" 0 demo_outcome (mkDeduperEntry None None))
          | by eapply (dd_do_select_result _ 1 "a" 0 (mkDeduperEntry (Some demo_outcome.1) None)) ]|]).
  done.
Qed.

Definition halved_body : sharedBody := body_read (body_read (opened_body (bytes_of_string "data")) 1 2) 2 2.

Lemma dedup_shares_body_witness :
  body_got halved_body 1 = bytes_of_string "da" ∧ body_got halved_body 2 = bytes_of_string "ta" ∧
  (length (body_got halved_body 1) + length (body_got halved_body 2) ≤ 4)%nat.
Proof.
  split; [reflexivity|]. split; [reflexivity|].
  apply (dedup_shares_body (bytes_of_string "data") halved_body 1 2); [|discriminate].
  eapply rtc_l; [by apply (sb_read _ 1 2)|]. eapply rtc_l; [by apply (sb_read _ 2 2)|]. apply rtc_refl.
Defined.
