(* ===== verification/Prefetch.v ===== *)
(** * Prefetching and the streaming handler ([internal/streaming/prefetch.go], [handler.go])

    The handler serves chunks through the sliding window and tells the prefetch manager
    where the client is; the manager queues the next chunks for its workers.  The window is
    shared by both, so the state holds it once.  [readLimited] and the outcome of each
    exchange with the origin are explicit; when the manager is stopped and the queue has
    room, [select] may take either branch (the argument [stop_first]).

    The theorems: the queue never exceeds its capacity and a job holds only the next
    [PrefetchCount] chunks that are not cached; a worker counts every chunk it does not skip
    exactly once, as prefetched or as failed; but it asks the origin for the cache key of a
    chunk and never for the chunk's address; a chunk that was fetched is served from the
    window afterwards, but also to a request for another file. *)

From S2P Require Import Prelude GoStrings GoFloat StreamKeys SlidingWindow GoHash EdgeCache Fetcher Manifest.

Record StreamingConfig := mkStreamingConfig {
  scf_Enabled : bool;
  scf_PrefetchCount : Z;
  scf_ChunkDurationMs : Z
}.

Record streamState := mkStreamState { ss_lastSeq : Z; ss_lastRefresh : Z; ss_urlTemplate : string }.
Record prefetchJob := mkPrefetchJob { pj_streamKey : string; pj_chunks : list ChunkInfo; pj_priority : Z }.

Definition maxStreamingChunkBytes : Z := 134217728.
Definition maxStreamingManifestBytes : Z := 1048576.
Definition queue_capacity : nat := 256.

(** [readLimited]: of a longer body [maxBytes + 1] bytes are read, which is an error; of a
    shorter one everything, up to the error it may end with. *)
Definition readLimited (b : respBody) (maxBytes : Z) : result bytes :=
  let len := Z.of_nat (length (body_data b)) in
  if maxBytes <? len then Err "body exceeds limit"
  else if body_fails b then Err "read error" else Ok (body_data b).

Definition formatChunkURL (template : string) (seqNum : Z) : string :=
  of_chars (ReplaceAll (to_chars template) (to_chars "$Number$") (format_int 10 seqNum)).

Definition keyHasExt (key ext : string) : bool := has_suffix (to_chars ext) (to_chars key).

Section prefetch.
Context {C : Type} `{CacheAccessor C}.

Record PrefetchManager := mkPrefetchManager {
  pm_cfg : StreamingConfig;
  pm_window : @SlidingWindow C;
  pm_originURL : string;
  pm_origin : option URL;              (* [url.Parse] of it *)
  pm_streams : gmap string streamState;
  pm_queue : list prefetchJob;
  pm_stopped : bool;
  pm_prefetched : Z;
  pm_failed : Z
}.

Definition NewPrefetchManager (cfg : StreamingConfig) (window : @SlidingWindow C) (originURL : string)
    (origin : option URL) : PrefetchManager :=
  mkPrefetchManager cfg window originURL origin ∅ [] false 0 0.

Definition with_window (pm : PrefetchManager) (w : @SlidingWindow C) : PrefetchManager :=
  mkPrefetchManager (pm_cfg pm) w (pm_originURL pm) (pm_origin pm) (pm_streams pm) (pm_queue pm)
    (pm_stopped pm) (pm_prefetched pm) (pm_failed pm).
Definition with_streams (pm : PrefetchManager) s : PrefetchManager :=
  mkPrefetchManager (pm_cfg pm) (pm_window pm) (pm_originURL pm) (pm_origin pm) s (pm_queue pm)
    (pm_stopped pm) (pm_prefetched pm) (pm_failed pm).
Definition with_queue (pm : PrefetchManager) q : PrefetchManager :=
  mkPrefetchManager (pm_cfg pm) (pm_window pm) (pm_originURL pm) (pm_origin pm) (pm_streams pm) q
    (pm_stopped pm) (pm_prefetched pm) (pm_failed pm).
Definition count_prefetched (pm : PrefetchManager) : PrefetchManager :=
  mkPrefetchManager (pm_cfg pm) (pm_window pm) (pm_originURL pm) (pm_origin pm) (pm_streams pm) (pm_queue pm)
    (pm_stopped pm) (i64 (pm_prefetched pm + 1)) (pm_failed pm).
Definition count_failed (pm : PrefetchManager) : PrefetchManager :=
  mkPrefetchManager (pm_cfg pm) (pm_window pm) (pm_originURL pm) (pm_origin pm) (pm_streams pm) (pm_queue pm)
    (pm_stopped pm) (pm_prefetched pm) (i64 (pm_failed pm + 1)).

Definition PrefetchManager_Stop (pm : PrefetchManager) : PrefetchManager :=
  mkPrefetchManager (pm_cfg pm) (pm_window pm) (pm_originURL pm) (pm_origin pm) (pm_streams pm) (pm_queue pm)
    true (pm_prefetched pm) (pm_failed pm).

(** The [select] that sends a job: the buffered channel, [stopCh], or neither. *)
Definition enqueue (stop_first : bool) (pm : PrefetchManager) (job : prefetchJob) : PrefetchManager :=
  if (length (pm_queue pm) <? queue_capacity)%nat && negb (pm_stopped pm && stop_first)
  then with_queue pm (pm_queue pm ++ [job]) else pm.

(** The sequence numbers [from + 1], ..., [from + count] that are not cached. *)
Definition next_seqs (w : @SlidingWindow C) (streamKey : string) (from count : Z) : list Z :=
  filter (λ n, SlidingWindow_HasChunk w streamKey n = false)
    ((λ i, i64 (from + Z.of_nat (S i))) <$> seq 0 (Z.to_nat count)).

Definition OnChunkRequest (stop_first : bool) (now : Z) (pm : PrefetchManager) (streamKey : string) (seqNum : Z)
    : PrefetchManager :=
  if negb (scf_Enabled (pm_cfg pm)) || (scf_PrefetchCount (pm_cfg pm) <=? 0) then pm
  else
    let streamKey := validateStreamKey streamKey in
    if String.eqb streamKey "" then pm
    else
      let template := match pm_streams pm !! streamKey with Some s => ss_urlTemplate s | None => "" end in
      let pm := with_streams pm (<[streamKey := mkStreamState seqNum now template]> (pm_streams pm)) in
      let url n :=
        if String.eqb template ""
        then String.append (String.append (pm_originURL pm) "/obj/") (ChunkCacheKey streamKey n)
        else formatChunkURL template n in
      let chunks := (λ n, mkChunkInfo streamKey n (url n) (scf_ChunkDurationMs (pm_cfg pm)) 0)
                      <$> next_seqs (pm_window pm) streamKey seqNum (scf_PrefetchCount (pm_cfg pm)) in
      if (length chunks =? 0)%nat then pm
      else enqueue stop_first pm (mkPrefetchJob streamKey chunks 1).

(** [make([]models.ChunkInfo, 0, n)] panics for a negative [n]. *)
Definition OnManifestUpdate (stop_first : bool) (now : Z) (pm : PrefetchManager) (m : ManifestInfo)
    : result PrefetchManager :=
  if negb (scf_Enabled (pm_cfg pm)) then Ok pm
  else
    match mi_Chunks m, last (mi_Chunks m) with
    | first :: _, Some final =>
        let old := default (mkStreamState 0 0 "") (pm_streams pm !! mi_StreamKey m) in
        let template := if String.eqb (ci_URL first) "" then ss_urlTemplate old else ci_URL first in
        let pm := with_streams pm (<[mi_StreamKey m := mkStreamState (ss_lastSeq old) now template]> (pm_streams pm)) in
        if scf_PrefetchCount (pm_cfg pm) <? 0 then Panic
        else
          let toFetch := (λ n, mkChunkInfo (mi_StreamKey m) n (ci_URL first) (mi_TargetDurMs m) 0)
                           <$> next_seqs (pm_window pm) (mi_StreamKey m) (ci_SeqNum final) (scf_PrefetchCount (pm_cfg pm)) in
          if (0 <? length toFetch)%nat
          then Ok (enqueue stop_first pm (mkPrefetchJob (mi_StreamKey m) toFetch 2)) else Ok pm
    | _, _ => Ok pm
    end.

(** ** The workers *)

(** Whether the request can be built, and the outcome of [client.Do]. *)
Record prefetchIO := mkPrefetchIO { pio_request_ok : bool; pio_do : exchange }.

Definition prefetch_url (base : URL) (sk : string) (seqNum : Z) : URL :=
  mkURL (u_Host base)
    (of_chars (path_Join [to_chars (u_Path base); to_chars "obj"; to_chars (ChunkCacheKey sk seqNum)])).

(** One turn of the loop of [processJob]: the new state, and the address asked for. *)
Definition process_chunk (io : prefetchIO) (pm : PrefetchManager) (chunk : ChunkInfo)
    : result (PrefetchManager * list URL) :=
  if scf_Enabled (pm_cfg pm) && SlidingWindow_HasChunk (pm_window pm) (ci_StreamKey chunk) (ci_SeqNum chunk)
  then Ok (pm, [])
  else
    let sk := validateStreamKey (ci_StreamKey chunk) in
    if String.eqb sk "" then Ok (count_failed pm, [])
    else
      match pm_origin pm with
      | None => Ok (count_failed pm, [])
      | Some base =>
          let u := prefetch_url base sk (ci_SeqNum chunk) in
          if negb (pio_request_ok io) then Ok (count_failed pm, [])
          else
            match pio_do io with
            | DoFails => Ok (count_failed pm, [u])
            | Response r =>
                if (400 <=? fr_StatusCode r) || (maxStreamingChunkBytes <? fr_ContentLength r)
                then Ok (count_failed pm, [u])
                else
                  match readLimited (fr_Body r) maxStreamingChunkBytes with
                  | Ok data =>
                      let '(res, w) := SlidingWindow_CacheChunk (pm_window pm) (ci_StreamKey chunk) (ci_SeqNum chunk) data in
                      match res with
                      | Ok _ => Ok (count_prefetched (with_window pm w), [u])
                      | Err _ => Ok (count_failed (with_window pm w), [u])
                      | Panic => Panic
                      end
                  | _ => Ok (count_failed pm, [u])
                  end
            end
      end.

Fixpoint processJob (ios : nat → prefetchIO) (pm : PrefetchManager) (chunks : list ChunkInfo)
    : result (PrefetchManager * list URL) :=
  match chunks with
  | [] => Ok (pm, [])
  | chunk :: rest =>
      let! r := process_chunk (ios 0%nat) pm chunk in
      let! r' := processJob (λ n, ios (S n)) r.1 rest in
      Ok (r'.1, r.2 ++ r'.2)
  end.

(** A worker takes the oldest job. *)
Definition worker_step (ios : nat → prefetchIO) (pm : PrefetchManager) : result (PrefetchManager * list URL) :=
  match pm_queue pm with
  | [] => Ok (pm, [])
  | job :: rest => processJob ios (with_queue pm rest) (pj_chunks job)
  end.

Definition PrefetchManager_Stats (pm : PrefetchManager) : Z * Z := (pm_prefetched pm, pm_failed pm).

(** ** The handler *)
Record Handler := mkHandler {
  hd_prefetch : PrefetchManager;
  hd_chunkRequests : Z; hd_chunkCacheHits : Z; hd_chunkCacheMisses : Z;
  hd_manifestFetches : Z; hd_latencySum : Z
}.

Definition NewHandler (pm : PrefetchManager) : Handler := mkHandler pm 0 0 0 0 0.

Definition IsManifestRequest (key : string) : bool := keyHasExt key ".m3u8" || keyHasExt key ".mpd".
Definition IsStreamingRequest (key : string) : bool :=
  IsHLSChunk key || IsDASHChunk key || keyHasExt key ".m3u8" || keyHasExt key ".mpd".

(** The clock and the branch of the [select], and what [fetchFn] answers. *)
Record requestIO := mkRequestIO {
  rq_now : Z; rq_latency : Z; rq_stop_first : bool; rq_fetch : result FetchResult
}.

(** The data, whether it came from the cache, and the new state. *)
Definition HandleStreamingRequest (io : requestIO) (h : Handler) (key : string) : result (bytes * bool) * Handler :=
  match InferStreamFromChunkKey key with
  | None => (Err "not a streaming chunk", h)
  | Some (streamKey, seqNum) =>
      let requests := i64 (hd_chunkRequests h + 1) in
      let pm := hd_prefetch h in
      let '(got, w) := SlidingWindow_GetChunk (pm_window pm) streamKey seqNum in
      let pm := with_window pm w in
      let latency := i64 (hd_latencySum h + rq_latency io) in
      match got with
      | Ok data =>
          (Ok (data, true),
           mkHandler (OnChunkRequest (rq_stop_first io) (rq_now io) pm streamKey seqNum) requests
             (i64 (hd_chunkCacheHits h + 1)) (hd_chunkCacheMisses h) (hd_manifestFetches h) latency)
      | _ =>
          let misses := i64 (hd_chunkCacheMisses h + 1) in
          let failed e := (Err e, mkHandler pm requests (hd_chunkCacheHits h) misses (hd_manifestFetches h) (hd_latencySum h)) in
          match rq_fetch io with
          | Err e => failed e
          | Panic => (Panic, h)
          | Ok fr =>
              if maxStreamingChunkBytes <? fr_ContentLength fr then failed "streaming chunk exceeds the limit"
              else
                match readLimited (fr_Body fr) maxStreamingChunkBytes with
                | Ok data =>
                    let '(res, w) := if (0 <? length data)%nat
                                     then SlidingWindow_CacheChunk (pm_window pm) streamKey seqNum data
                                     else (Ok tt, pm_window pm) in
                    let pm := with_window pm w in
                    match res with
                    | Panic => (Panic, h)
                    | _ =>
                        (Ok (data, false),
                         mkHandler (OnChunkRequest (rq_stop_first io) (rq_now io) pm streamKey seqNum) requests
                           (hd_chunkCacheHits h) misses (hd_manifestFetches h) latency)
                    end
                | _ => failed "read upstream"
                end
          end
      end
  end.

(** [HandleManifestRequest]; the manifest and its bytes, each may be nil.  The decoders and
    the segment limit of the environment are arguments. *)
Definition HandleManifestRequest (ParseFloat : string → option float64) (format_verbs : chars → Z → chars)
    (xml_Unmarshal : bytes → option mpdRoot) (env_max : Z) (io : requestIO) (h : Handler) (key : string)
    : result (option ManifestInfo * option bytes * option string) * Handler :=
  if negb (scf_Enabled (pm_cfg (hd_prefetch h))) then (Ok (None, None, Some "streaming not enabled"), h)
  else
    let h := mkHandler (hd_prefetch h) (hd_chunkRequests h) (hd_chunkCacheHits h) (hd_chunkCacheMisses h)
               (i64 (hd_manifestFetches h + 1)) (hd_latencySum h) in
    match rq_fetch io with
    | Err e => (Ok (None, None, Some e), h)
    | Panic => (Panic, h)
    | Ok fr =>
        if maxStreamingManifestBytes <? fr_ContentLength fr then (Ok (None, None, Some "manifest exceeds the limit"), h)
        else
          match readLimited (fr_Body fr) maxStreamingManifestBytes with
          | Ok data =>
              let parsed :=
                match IdentifyStreamType key (fr_ContentType fr) with
                | StreamTypeHLS => Some (ParseHLSManifest ParseFloat (rq_now io) key (to_chars (string_of_bytes data)))
                | StreamTypeDASH => Some (ParseDASHManifest ParseFloat format_verbs (rq_now io) env_max key (xml_Unmarshal data))
                | StreamTypeNone => None
                end in
              match parsed with
              | None => (Ok (None, Some data, None), h)
              | Some (Ok m) =>
                  match OnManifestUpdate (rq_stop_first io) (rq_now io) (hd_prefetch h) m with
                  | Ok pm => (Ok (Some m, Some data, None),
                              mkHandler pm (hd_chunkRequests h) (hd_chunkCacheHits h) (hd_chunkCacheMisses h)
                                (hd_manifestFetches h) (hd_latencySum h))
                  | _ => (Panic, h)
                  end
              | Some _ => (Ok (None, Some data, Some "parse manifest"), h)
              end
          | _ => (Ok (None, None, Some "read manifest"), h)
          end
    end.

Definition avgLatency (sum count : Z) : float64 :=
  if count =? 0 then fzero else fdiv (float_of_Z sum) (float_of_Z count).

Record StreamingMetrics := mkStreamingMetrics {
  smm_ChunkRequests : Z; smm_ChunkCacheHits : Z; smm_ChunkPrefetched : Z; smm_WindowEvictions : Z;
  smm_ManifestFetches : Z; smm_AvgLatencyMs : float64
}.

Definition Handler_Metrics (h : Handler) : StreamingMetrics :=
  mkStreamingMetrics (hd_chunkRequests h) (hd_chunkCacheHits h) (PrefetchManager_Stats (hd_prefetch h)).1
    (SlidingWindow_TotalEvictions (pm_window (hd_prefetch h))) (hd_manifestFetches h)
    (avgLatency (hd_latencySum h) (hd_chunkRequests h)).

(** ** The queue *)
Inductive pf_step (pm : PrefetchManager) : PrefetchManager → Prop :=
| pf_chunk stop now sk n : pf_step pm (OnChunkRequest stop now pm sk n)
| pf_manifest stop now m pm' : OnManifestUpdate stop now pm m = Ok pm' → pf_step pm pm'
| pf_work ios pm' urls : worker_step ios pm = Ok (pm', urls) → pf_step pm pm'
| pf_stop : pf_step pm (PrefetchManager_Stop pm).

(** A job names between one and [count] chunks of its stream. *)
Definition job_ok (count : Z) (job : prefetchJob) : Prop :=
  0 < Z.of_nat (length (pj_chunks job)) ≤ count ∧ Forall (λ c, ci_StreamKey c = pj_streamKey job) (pj_chunks job).

Record pm_ok (cfg : StreamingConfig) (pm : PrefetchManager) : Prop := {
  po_cfg : pm_cfg pm = cfg;
  po_capacity : (length (pm_queue pm) ≤ queue_capacity)%nat;
  po_jobs : Forall (job_ok (scf_PrefetchCount cfg)) (pm_queue pm)
}.

Lemma length_next_seqs w sk from count : 0 ≤ count → Z.of_nat (length (next_seqs w sk from count)) ≤ count.
Proof.
  intros Hc. unfold next_seqs.
  set (l := (λ i, i64 (from + Z.of_nat (S i))) <$> seq 0 (Z.to_nat count)).
  pose proof (length_filter (λ n, SlidingWindow_HasChunk w sk n = false) l) as Hl.
  unfold l at 2 in Hl. rewrite length_fmap, length_seq in Hl. lia.
Qed.

Lemma enqueue_ok cfg stop pm job :
  pm_ok cfg pm → job_ok (scf_PrefetchCount cfg) job → pm_ok cfg (enqueue stop pm job).
Proof.
  intros [H1 H2 H3] Hj. unfold enqueue. case_match eqn:E; [|done]. apply andb_prop in E as [E%Nat.ltb_lt _].
  split; cbn [pm_cfg pm_queue with_queue]; [done| |].
  - rewrite length_app. cbn [length]. lia.
  - apply Forall_app. split; [done|]. by constructor.
Qed.

Lemma with_streams_ok cfg pm s : pm_ok cfg pm → pm_ok cfg (with_streams pm s).
Proof. intros [H1 H2 H3]. by split. Qed.

(** The state is kept up to the counters and the window while a job is processed. *)
Lemma process_chunk_frame io pm chunk pm' urls :
  process_chunk io pm chunk = Ok (pm', urls) → pm_cfg pm' = pm_cfg pm ∧ pm_queue pm' = pm_queue pm.
Proof.
  unfold process_chunk. intros Hp. repeat (case_match; simplify_eq/=); done.
Qed.

Lemma processJob_frame chunks : ∀ ios pm pm' urls,
  processJob ios pm chunks = Ok (pm', urls) → pm_cfg pm' = pm_cfg pm ∧ pm_queue pm' = pm_queue pm.
Proof.
  induction chunks as [|c chunks IH]; intros ios pm pm' urls; cbn [processJob]; [by intros [= <- _]|].
  destruct (process_chunk _ pm c) as [[pm1 u1]| |] eqn:E1; [|done..]. cbn [result_bind fst snd].
  destruct (processJob _ pm1 chunks) as [[pm2 u2]| |] eqn:E2; [|done..]. intros [= <- _]. cbn.
  apply process_chunk_frame in E1 as [<- <-]. by apply IH in E2.
Qed.

Lemma pf_step_ok cfg pm pm' : pf_step pm pm' → pm_ok cfg pm → pm_ok cfg pm'.
Proof.
  intros Hs Hok. pose proof Hok as [H1 H2 H3]. destruct Hs as [stop now sk n|stop now m pm' Hm|ios pm' urls Hw|].
  - unfold OnChunkRequest. case_match eqn:Ec; [done|]. bool_to_prop. case_match; [done|].
    case_match eqn:El; [by apply with_streams_ok|]. apply enqueue_ok; [by apply with_streams_ok|].
    apply Nat.eqb_neq in El. rewrite length_fmap in El. split; cbn [pj_chunks pj_streamKey].
    + rewrite length_fmap. split; [lia|]. rewrite <- H1. apply length_next_seqs. lia.
    + apply Forall_fmap, Forall_true. done.
  - unfold OnManifestUpdate in Hm. case_match; [by simplify_eq|].
    destruct (mi_Chunks m) as [|first rest] eqn:Em; [by simplify_eq|]. case_match; [|by simplify_eq].
    cbn [pm_cfg with_streams] in Hm. destruct (_ <? 0) eqn:En; [done|]. bool_to_prop.
    case_match eqn:El; simplify_eq; [|by apply with_streams_ok]. apply enqueue_ok; [by apply with_streams_ok|].
    apply Nat.ltb_lt in El. rewrite length_fmap in El. split; cbn [pj_chunks pj_streamKey];
      cbn [pm_window with_streams] in *.
    + rewrite length_fmap. split; [lia|]. by apply length_next_seqs.
    + apply Forall_fmap, Forall_true. done.
  - unfold worker_step in Hw. destruct (pm_queue pm) as [|job rest] eqn:Eq; [by simplify_eq|].
    apply processJob_frame in Hw as [Hc Hq]. cbn in Hc, Hq. split; [congruence|rewrite Hq|rewrite Hq].
    + cbn [length] in H2. lia.
    + by apply Forall_cons in H3 as [_ ?].
  - by split.
Qed.

(** The prefetch queue stays within the capacity of its channel, and every
    queued job asks for at least one and at most [PrefetchCount] chunks of its own stream,
    through any sequence of chunk requests, manifest updates, worker turns and stops. *)
Theorem prefetch_queue_bounded cfg w originURL origin pm :
  rtc pf_step (NewPrefetchManager cfg w originURL origin) pm →
  (length (pm_queue pm) ≤ queue_capacity)%nat ∧ Forall (job_ok (scf_PrefetchCount cfg)) (pm_queue pm).
Proof.
  intros Hr. assert (Hok : pm_ok cfg pm); [|by destruct Hok].
  assert (H0 : pm_ok cfg (NewPrefetchManager cfg w originURL origin)) by (split; cbn; [done|lia|constructor]).
  revert H0. induction Hr; eauto using pf_step_ok.
Qed.

(** ** What is prefetched *)
Definition without_address (c : ChunkInfo) : ChunkInfo :=
  mkChunkInfo (ci_StreamKey c) (ci_SeqNum c) "" (ci_DurationMs c) (ci_Size c).

Lemma processJob_addresses chunks : ∀ ios pm,
  processJob ios pm chunks = processJob ios pm (without_address <$> chunks).
Proof.
  induction chunks as [|c chunks IH]; intros ios pm; [done|]. cbn [processJob fmap list_fmap].
  change (process_chunk (ios 0%nat) pm (without_address c)) with (process_chunk (ios 0%nat) pm c).
  destruct (process_chunk _ pm c) as [[pm1 u1]| |]; [|done..]. cbn [result_bind fst snd]. by rewrite IH.
Qed.

Lemma processJob_urls chunks : ∀ ios pm pm' urls u base,
  processJob ios pm chunks = Ok (pm', urls) → pm_origin pm = Some base → u ∈ urls →
  ∃ c, c ∈ chunks ∧ u = prefetch_url base (validateStreamKey (ci_StreamKey c)) (ci_SeqNum c).
Proof.
  induction chunks as [|c chunks IH]; intros ios pm pm' urls u base; cbn [processJob].
  { intros [= _ <-] _ Hu. by apply elem_of_nil in Hu. }
  destruct (process_chunk _ pm c) as [[pm1 u1]| |] eqn:E1; [|done..]. cbn [result_bind fst snd].
  destruct (processJob _ pm1 chunks) as [[pm2 u2]| |] eqn:E2; [|done..]. intros [= _ <-] Hb. cbn.
  assert (H1 : pm_origin pm1 = Some base ∧ (u ∈ u1 → u = prefetch_url base (validateStreamKey (ci_StreamKey c)) (ci_SeqNum c))).
  { unfold process_chunk in E1. rewrite Hb in E1. repeat (case_match; simplify_eq/=); split; try done;
      rewrite ?list_elem_of_singleton, ?elem_of_nil; done. }
  destruct H1 as [Hb1 H1]. intros [Hu|Hu]%elem_of_app; [exists c; split; [left|by apply H1]|].
  destruct (IH _ _ _ _ _ _ E2 Hb1 Hu) as (c' & Hc' & ->). exists c'. split; [by right|done].
Qed.

(** The workers never use the address of a chunk: the addresses a manifest gave
    have no effect on what a job does, and every request asks the origin for the key under
    which the node caches the chunk, below the object directory. *)
Theorem prefetch_ignores_addresses ios pm chunks base :
  pm_origin pm = Some base →
  processJob ios pm chunks = processJob ios pm (without_address <$> chunks) ∧
  (∀ pm' urls u, processJob ios pm chunks = Ok (pm', urls) → u ∈ urls →
     ∃ c, c ∈ chunks ∧ u = prefetch_url base (validateStreamKey (ci_StreamKey c)) (ci_SeqNum c)).
Proof.
  intros Hb. split; [apply processJob_addresses|]. intros pm' urls u Hp Hu. by eapply processJob_urls.
Qed.

(** ** Chunks that are cached twice *)

(** A chunk that is cached again while its first entry is the oldest of a full
    window is lost: the write succeeds and the window lists the chunk, but removing the old
    entry has deleted what was just written. *)
Theorem recached_chunk_lost (same_slot : relation string) `{!CacheLaws C same_slot} sw sk n data win rest sw' :
  sw_windows sw !! sk = Some win → win_seqs win = n :: rest → Z.of_nat (length (n :: rest)) = win_maxSize win →
  SlidingWindow_CacheChunk sw sk n data = (Ok tt, sw') →
  SlidingWindow_HasChunk sw' sk n = false ∧ ∃ win', sw_windows sw' !! sk = Some win' ∧ n ∈ win_seqs win'.
Proof.
  intros Hw Hs Hl. unfold SlidingWindow_CacheChunk. rewrite Hw. cbn [from_option id].
  destruct (if (0 <? length data)%nat then _ else _) as [[[]| |] c]; [|done..].
  unfold window_append. rewrite Hs, length_app. cbn [length].
  replace (win_maxSize win <? Z.of_nat (S (length rest) + 1)) with true by (symmetry; apply Z.ltb_lt; cbn in Hl; lia).
  replace (Z.to_nat (Z.of_nat (S (length rest) + 1) - win_maxSize win)) with 1%nat by (cbn in Hl; lia).
  cbn [app take drop]. intros [= <-]. split.
  - unfold SlidingWindow_HasChunk. cbn [sw_cache delete_chunks foldl].
    destruct (acc_Has _ _) eqn:E; [|done]. apply acc_delete_has in E as [_ Hn]. exfalso. apply Hn. reflexivity.
  - cbn [sw_windows]. rewrite lookup_insert_eq. eexists. split; [done|]. cbn. apply elem_of_app. right. left.
Qed.
End prefetch.

(** ** Concrete runs on the edge cache *)
Definition demo_stream_cfg : StreamingConfig := mkStreamingConfig true 2 2000.
Definition demo_window : @SlidingWindow ClockedCache := NewSlidingWindow (demo_cache, 1) 1.
Definition demo_pm : @PrefetchManager ClockedCache :=
  NewPrefetchManager demo_stream_cfg demo_window "http://origin" (Some (mkURL "http://origin" "")).
Definition demo_chunk (url : string) : ChunkInfo := mkChunkInfo "live" 8 url 2000 0.
Definition demo_io : prefetchIO :=
  mkPrefetchIO true (Response (mkFetchResult (mkRespBody one_byte false) 1 "" "" 200)).

Lemma prefetch_queue_bounded_witness :
  (length (pm_queue (OnChunkRequest false 5 demo_pm "live" 7)) ≤ queue_capacity)%nat.
Proof.
  apply (prefetch_queue_bounded demo_stream_cfg demo_window "http://origin" (Some (mkURL "http://origin" ""))).
  eapply rtc_l; [apply (pf_chunk demo_pm false 5 "live" 7)|apply rtc_refl].
Defined.

Example demo_prefetch_job :
  pm_queue (OnChunkRequest false 5 demo_pm "live" 7) =
    [mkPrefetchJob "live"
       [mkChunkInfo "live" 8 "http://origin/obj/stream/live/seq_0000000008" 2000 0;
        mkChunkInfo "live" 9 "http://origin/obj/stream/live/seq_0000000009" 2000 0] 1].
Proof. vm_compute. reflexivity. Qed.

(** The manifest named [segment-8.ts]; the origin is asked for the cache key. *)
Lemma prefetch_ignores_addresses_witness :
  processJob (λ _, demo_io) demo_pm [demo_chunk "segment-8.ts"] = processJob (λ _, demo_io) demo_pm [demo_chunk ""] ∧
  (snd <$> match processJob (λ _, demo_io) demo_pm [demo_chunk "segment-8.ts"] with Ok r => Some r | _ => None end)
    = Some [mkURL "http://origin" "obj/stream/live/seq_0000000008"].
Proof.
  split; [|vm_compute; reflexivity].
  apply (prefetch_ignores_addresses (λ _, demo_io) demo_pm [demo_chunk "segment-8.ts"] (mkURL "http://origin" "")).
  reflexivity.
Defined.

Definition once_cached : @SlidingWindow ClockedCache := (SlidingWindow_CacheChunk demo_window "live" 8 one_byte).2.

Lemma recached_chunk_lost_witness :
  SlidingWindow_HasChunk once_cached "live" 8 = true ∧
  SlidingWindow_HasChunk (SlidingWindow_CacheChunk once_cached "live" 8 one_byte).2 "live" 8 = false.
Proof.
  split; [vm_compute; reflexivity|].
  apply (recached_chunk_lost same_entry once_cached "live" 8 one_byte (mkStreamWindow [8] 8 1 0) []
    (SlidingWindow_CacheChunk once_cached "live" 8 one_byte).2); vm_compute; reflexivity.
Defined.

Lemma OnChunkRequest_window {C : Type} `{CacheAccessor C} stop now (pm : @PrefetchManager C) sk n :
  pm_window (OnChunkRequest stop now pm sk n) = pm_window pm.
Proof. unfold OnChunkRequest, enqueue. cbv zeta. by repeat case_match. Qed.

(** The window of the stream takes another chunk without evicting one. *)
Definition window_room (w : @SlidingWindow ClockedCache) (sk : string) : Prop :=
  let win := default (mkStreamWindow [] 0 (sw_WindowSize w) 0) (sw_windows w !! sk) in
  Z.of_nat (length (win_seqs win)) < win_maxSize win.

(** A chunk that was cached is read back. *)
Lemma cached_chunk_read (w w' : @SlidingWindow ClockedCache) sk n data r :
  data ≠ [] → window_room w sk →
  room_for (sw_cache w).1 (sw_cache w).2 (ChunkCacheKey sk n) data →
  SlidingWindow_CacheChunk w sk n data = (r, w') → r ≠ Panic →
  (SlidingWindow_GetChunk w' sk n).1 = Ok data.
Proof.
  intros Hne Hroom [Hok Hfit Ht Hl]. unfold SlidingWindow_CacheChunk, window_append, window_room in *.
  destruct w as [[c t] size ws]. cbn [sw_cache fst snd sw_WindowSize sw_windows] in *.
  rewrite (proj2 (Nat.ltb_lt 0 (length data))) by (destruct data; [done|cbn; lia]).
  cbn [acc_Put edge_cache_accessor fst snd].
  pose proof (put_then_get map_to_list t c (ChunkCacheKey sk n) data Hok map_to_list_visit Hfit Ht Hl) as Hput.
  destruct (Cache_Put _ _ _ _ _ _) as [res c']. destruct Hput as (-> & _ & Hget).
  set (win := default _ _) in Hroom. cbv zeta in Hroom.
  assert (Hlen : (win_maxSize win <? Z.of_nat (length (win_seqs win ++ [n]))) = false).
  { rewrite length_app. cbn [length]. apply Z.ltb_ge. lia. }
  intros Hw Hr. assert (sw_cache w' = (c', t + 1)) as Hc.
  { revert Hw. subst win. destruct (ws !! sk) as [win|]; [|destruct (size <? 0)]; cbn [default from_option id] in *;
      rewrite ?Hlen; intros Hw; simplify_eq; done. }
  unfold SlidingWindow_GetChunk. rewrite Hc. cbn [acc_Get edge_cache_accessor fst snd].
  destruct (Cache_Get OpenFine c' _) as [g c2]. cbn [fst] in Hget. by rewrite Hget.
Qed.

(** A request can be answered with the bytes of another file: when a chunk file
    was not cached, was fetched from the origin and fits into the window and the cache,
    then every other file from which the handler infers the same stream and number (another
    track or another type of file of the same directory) is served with the first file's
    bytes, as a cache hit and without asking the origin. *)
Theorem streaming_serves_wrong_file io1 io2 (h h1 : @Handler ClockedCache) key other data sk n :
  InferStreamFromChunkKey key = Some (sk, n) → InferStreamFromChunkKey other = Some (sk, n) →
  let w := (SlidingWindow_GetChunk (pm_window (hd_prefetch h)) sk n).2 in
  data ≠ [] → window_room w sk → room_for (sw_cache w).1 (sw_cache w).2 (ChunkCacheKey sk n) data →
  HandleStreamingRequest io1 h key = (Ok (data, false), h1) →
  (HandleStreamingRequest io2 h1 other).1 = Ok (data, true).
Proof.
  intros Hkey Hother w Hne Hwin Hroom Hh.
  enough ((SlidingWindow_GetChunk (pm_window (hd_prefetch h1)) sk n).1 = Ok data) as Hg.
  { unfold HandleStreamingRequest. rewrite Hother.
    destruct (SlidingWindow_GetChunk (pm_window (hd_prefetch h1)) sk n) as [r w1]. cbn [fst] in Hg. by rewrite Hg. }
  revert Hh. unfold HandleStreamingRequest. rewrite Hkey. subst w.
  destruct (SlidingWindow_GetChunk (pm_window (hd_prefetch h)) sk n) as [got w]. cbn [snd] in *.
  destruct got as [d| |]; [by intros [= ]| |].
  all: destruct (rq_fetch io1) as [fr| |]; [|done..]; case_match; [done|].
  all: destruct (readLimited _ _) as [d| |]; [|done..]; cbn [pm_window with_window].
  all: destruct (if (0 <? length d)%nat then _ else _) as [res w1] eqn:Hc; intros Hh.
  all: assert (d = data ∧ pm_window (hd_prefetch h1) = w1 ∧ res ≠ Panic) as (-> & -> & Hres)
    by (destruct res; simplify_eq; cbn [hd_prefetch]; by rewrite OnChunkRequest_window).
  all: rewrite (proj2 (Nat.ltb_lt 0 (length data))) in Hc by (destruct data; [done|cbn; lia]).
  all: by apply (cached_chunk_read w _ _ _ _ res).
Qed.

Definition video_fetched : requestIO :=
  mkRequestIO 1 0 false (Ok (mkFetchResult (mkRespBody (bytes_of_string "video") false) 5 "" "" 200)).
Definition not_fetched : requestIO := mkRequestIO 2 0 false (Err "not asked").
Definition after_video : @Handler ClockedCache :=
  (HandleStreamingRequest video_fetched (NewHandler demo_pm) "live/video_5.ts").2.

Lemma demo_live_room : window_room (SlidingWindow_GetChunk demo_window "live" 5).2 "live".
Proof. reflexivity. Qed.

Lemma demo_live_cache : room_for (sw_cache (SlidingWindow_GetChunk demo_window "live" 5).2).1
  (sw_cache (SlidingWindow_GetChunk demo_window "live" 5).2).2 (ChunkCacheKey "live" 5) (bytes_of_string "video").
Proof.
  apply (room_after_get OpenFine demo_cache (ChunkCacheKey "live" 5)). apply demo_room. vm_compute. discriminate.
Qed.

Lemma streaming_serves_wrong_file_witness :
  (HandleStreamingRequest not_fetched after_video "live/audio_5.aac").1 = Ok (bytes_of_string "video", true).
Proof.
  apply (streaming_serves_wrong_file video_fetched not_fetched (NewHandler demo_pm) after_video
    "live/video_5.ts" "live/audio_5.aac" (bytes_of_string "video") "live" 5).
  - reflexivity.
  - reflexivity.
  - discriminate.
  - exact demo_live_room.
  - exact demo_live_cache.
  - vm_compute. reflexivity.
Defined.
