(* ===== verification/Models.v ===== *)
(** * Shared data of the control plane ([internal/models/models.go])

    Nodes, endpoints, dispatch requests and responses.  Times are [Z] (Unix
    nanoseconds); [NodeStatus] is a Go string type with seven constants, here the
    constants and a catch-all; [InternNodeStatus] maps the text of a database row
    to it. *)

From S2P Require Import Prelude GoFloat GoStrings.
From Stdlib Require Import Ascii.

Inductive NodeStatus :=
| NodeStatusRegistered
| NodeStatusActive
| NodeStatusDegraded
| NodeStatusQuarantined
| NodeStatusOffline
| NodeStatusDisabled
| NodeStatusMaintenance
| NodeStatusOther (s : string).

#[export] Instance NodeStatus_eq_dec : EqDecision NodeStatus.
Proof. solve_decision. Defined.

Definition InternNodeStatus (s : string) : NodeStatus :=
  if String.eqb s "REGISTERED" then NodeStatusRegistered
  else if String.eqb s "ACTIVE" then NodeStatusActive
  else if String.eqb s "DEGRADED" then NodeStatusDegraded
  else if String.eqb s "QUARANTINED" then NodeStatusQuarantined
  else if String.eqb s "OFFLINE" then NodeStatusOffline
  else if String.eqb s "DISABLED" then NodeStatusDisabled
  else if String.eqb s "MAINTENANCE" then NodeStatusMaintenance
  else NodeStatusOther s.

Record Endpoint := mkEndpoint { ep_Scheme : string; ep_Host : string; ep_Port : Z }.

(** [net.JoinHostPort]: a host with a colon is put in brackets. *)
Definition join_host_port (host port : chars) : chars :=
  if bool_decide (ascii_of_nat 58 ∈ host)
  then to_chars "[" ++ host ++ to_chars "]:" ++ port
  else host ++ to_chars ":" ++ port.

Definition Endpoint_URL (e : Endpoint) : string :=
  let s := to_chars (ep_Host e) in
  let s := if 0 <? ep_Port e then join_host_port s (format_int 10 (ep_Port e)) else s in
  let s := if String.eqb (ep_Scheme e) "" then s else to_chars (ep_Scheme e) ++ to_chars "://" ++ s in
  of_chars s.

Record Capabilities := mkCapabilities {
  cap_InboundReachable : bool;
  cap_CacheDiskGB : Z;
  cap_MaxUplinkMbps : Z;
  cap_SupportsHTTPS : bool;
  cap_NATType : string;
  cap_TunnelRequired : bool;
  cap_SupportsP2P : bool;
  cap_CurrentEgressMbps : float64;
  cap_CurrentIngressMbps : float64;
  cap_ShieldMode : bool
}.

Record NodeScores := mkNodeScores {
  ns_ReachableScore : float64;
  ns_HealthScore : float64;
  ns_RiskScore : float64
}.

Record Node := mkNode {
  n_LastSeenAt : Z;
  n_CreatedAt : Z;
  n_UpdatedAt : Z;
  n_Endpoints : list Endpoint;
  n_Capabilities : Capabilities;
  n_Scores : NodeScores;
  n_Labels : gmap string string;
  n_DisableReason : string;
  n_MaintainUntil : option Z;
  n_NodeID : string;
  n_TenantID : string;
  n_ProjectID : string;
  n_Name : string;
  n_Region : string;
  n_ISP : string;
  n_ASN : string;
  n_Status : NodeStatus;
  n_Weight : Z
}.

Record ClientInfo := mkClientInfo { cl_IP : string; cl_Region : string; cl_ISP : string }.
Record ResourceInfo := mkResourceInfo { res_Type : string; res_Key : string; res_Scheme : string }.
Record DispatchRequest := mkDispatchRequest {
  dr_Client : ClientInfo;
  dr_Resource : ResourceInfo;
  dr_NeedRange : bool
}.

Record CandidateMeta := mkCandidateMeta {
  cm_Region : string;
  cm_ISP : string;
  cm_ProxyMode : string;
  cm_GatewayURL : string
}.
Record Candidate := mkCandidate {
  cand_ID : string;
  cand_Endpoint : string;
  cand_Weight : Z;
  cand_Meta : CandidateMeta
}.
Record DispatchToken := mkDispatchToken { tok_Type : string; tok_Value : string; tok_Exp : Z }.
Record DispatchResponse := mkDispatchResponse {
  resp_RequestID : string;
  resp_TTLMs : Z;
  resp_Token : DispatchToken;
  resp_Candidates : list Candidate
}.

Inductive StreamType := StreamTypeHLS | StreamTypeDASH | StreamTypeOther (s : string).
#[export] Instance StreamType_eq_dec : EqDecision StreamType.
Proof. solve_decision. Defined.
#[export] Instance StreamType_countable : Countable StreamType.
Proof.
  refine (inj_countable'
    (λ t, match t with
          | StreamTypeHLS => inl true | StreamTypeDASH => inl false | StreamTypeOther s => inr s end)
    (λ x, match x with
          | inl true => StreamTypeHLS | inl false => StreamTypeDASH | inr s => StreamTypeOther s end) _).
  by intros [].
Defined.
