(* ===== verification/StreamStrategy.v ===== *)
(** * Which nodes hold which stream ([internal/streaming/strategy.go])

    [StreamingStrategy] maps a node to the streams reported for it, by stream
    type.  The scheduler asks it once per dispatch ([FindNodesWithStream]) and,
    for the nodes that answer misses, per node ([StreamScore]).  The theorem
    relates the reports to both questions. *)

From S2P Require Import Prelude GoFloat GoStrings StreamKeys Models.

Record StreamingStrategy := mkStreamingStrategy {
  ss_nodeStreams : gmap string (gmap StreamType (list string));
  ss_cfg_Enabled : option bool   (* [None]: the configuration pointer is nil *)
}.

Definition NewStreamingStrategy (cfg : option bool) : StreamingStrategy :=
  mkStreamingStrategy ∅ cfg.

Definition ss_enabled (ss : StreamingStrategy) : bool := default false (ss_cfg_Enabled ss).

Definition node_streams (ss : StreamingStrategy) (nodeID : string) (st : StreamType) : list string :=
  default [] (default ∅ (ss_nodeStreams ss !! nodeID) !! st).

Definition StreamingStrategy_ReportStream (ss : StreamingStrategy) (nodeID streamKey : string)
    (st : StreamType) : StreamingStrategy :=
  let m := default ∅ (ss_nodeStreams ss !! nodeID) in
  let streams := default [] (m !! st) in
  let m' := if bool_decide (streamKey ∈ streams) then m else <[st := streams ++ [streamKey]]> m in
  mkStreamingStrategy (<[nodeID := m']> (ss_nodeStreams ss)) (ss_cfg_Enabled ss).

(** [append(streams[:i], streams[i+1:]...)] at the first index [i] found. *)
Fixpoint remove_first (x : string) (l : list string) : list string :=
  match l with
  | [] => []
  | y :: l' => if String.eqb y x then l' else y :: remove_first x l'
  end.

Definition StreamingStrategy_RemoveStream (ss : StreamingStrategy) (nodeID streamKey : string)
    (st : StreamType) : StreamingStrategy :=
  match ss_nodeStreams ss !! nodeID with
  | None => ss
  | Some m =>
      match m !! st with
      | None => ss
      | Some streams =>
          if bool_decide (streamKey ∈ streams)
          then mkStreamingStrategy
                 (<[nodeID := <[st := remove_first streamKey streams]> m]> (ss_nodeStreams ss))
                 (ss_cfg_Enabled ss)
          else ss
      end
  end.

Definition StreamingStrategy_StreamScore (ss : StreamingStrategy) (nodeID key : string) : float64 :=
  if negb (ss_enabled ss) then fzero
  else
    match InferStreamFromChunkKey key with
    | None => fzero
    | Some (streamKey, _) =>
        if bool_decide (streamKey ∈ node_streams ss nodeID StreamTypeHLS)
           || bool_decide (streamKey ∈ node_streams ss nodeID StreamTypeDASH)
        then float_of_Z 20 else fzero
    end.

(** Does any stream type of the node list the stream? *)
Definition any_type (m : gmap StreamType (list string)) (streamKey : string) : bool :=
  bool_decide (map_Exists (λ _ streams, streamKey ∈ streams) m).

Definition StreamingStrategy_HasStream (ss : StreamingStrategy) (nodeID streamKey : string) : bool :=
  match ss_nodeStreams ss !! nodeID with
  | None => false
  | Some m => any_type m streamKey
  end.

(** A nil map when streaming is off; reading it is reading the empty map. *)
Definition StreamingStrategy_FindNodesWithStream (ss : StreamingStrategy) (streamKey : string)
    : gmap string bool :=
  if negb (ss_enabled ss) then ∅
  else omap (λ m, if any_type m streamKey then Some true else None) (ss_nodeStreams ss).

(** ** Reports *)

(** Every list of streams is free of duplicates. *)
Definition ss_wf (ss : StreamingStrategy) : Prop := ∀ id st, NoDup (node_streams ss id st).

(** Only the two stream types of the protocol occur. *)
Definition ss_two_types (ss : StreamingStrategy) : Prop :=
  ∀ id st k, k ∈ node_streams ss id st → st = StreamTypeHLS ∨ st = StreamTypeDASH.

Lemma elem_of_remove_first x y l : NoDup l → y ∈ remove_first x l ↔ y ∈ l ∧ y ≠ x.
Proof.
  induction 1 as [|z l Hz Hnd IH]; cbn [remove_first]; [set_solver|].
  destruct (String.eqb z x) eqn:E; bool_to_prop; subst.
  - set_solver.
  - rewrite !elem_of_cons, IH. naive_solver.
Qed.

Lemma NoDup_remove_first x l : NoDup l → NoDup (remove_first x l).
Proof.
  induction 1 as [|z l Hz Hnd IH]; cbn [remove_first]; [constructor|].
  case_match; [done|]. constructor; [|done]. rewrite elem_of_remove_first by done. tauto.
Qed.

Lemma report_streams ss id k st id' st' :
  node_streams (StreamingStrategy_ReportStream ss id k st) id' st' =
    let old := node_streams ss id' st' in
    if decide (id' = id ∧ st' = st) then if bool_decide (k ∈ old) then old else old ++ [k] else old.
Proof.
  unfold node_streams, StreamingStrategy_ReportStream. simpl.
  destruct (decide (id' = id)) as [->|Hid].
  - rewrite lookup_insert_eq. simpl. case_bool_decide as Hk.
    + case_decide as Hd; [|done]. destruct Hd as [_ ->]. by rewrite bool_decide_eq_true_2.
    + destruct (decide (st' = st)) as [->|Hst].
      * rewrite lookup_insert_eq, decide_True by done. simpl. by rewrite bool_decide_eq_false_2.
      * rewrite lookup_insert_ne by done. rewrite decide_False by naive_solver. done.
  - rewrite lookup_insert_ne by done. rewrite decide_False by naive_solver. done.
Qed.

Lemma remove_streams ss id k st id' st' :
  node_streams (StreamingStrategy_RemoveStream ss id k st) id' st' =
    let old := node_streams ss id' st' in
    if decide (id' = id ∧ st' = st) then if bool_decide (k ∈ old) then remove_first k old else old else old.
Proof.
  unfold node_streams, StreamingStrategy_RemoveStream.
  destruct (ss_nodeStreams ss !! id) as [m|] eqn:Em.
  2:{ simpl. case_decide as Hd; [|done]. destruct Hd as [-> ->]. rewrite Em. simpl.
      rewrite lookup_empty. simpl. by try rewrite bool_decide_eq_false_2 by apply not_elem_of_nil. }
  destruct (m !! st) as [streams|] eqn:Es.
  2:{ simpl. case_decide as Hd; [|done]. destruct Hd as [-> ->]. rewrite Em. simpl. rewrite Es. simpl.
      by try rewrite bool_decide_eq_false_2 by apply not_elem_of_nil. }
  case_bool_decide as Hk; simpl.
  - destruct (decide (id' = id)) as [->|Hid].
    + rewrite lookup_insert_eq, Em. simpl. destruct (decide (st' = st)) as [->|Hst].
      * rewrite lookup_insert_eq, Es, decide_True by done. simpl. by rewrite bool_decide_eq_true_2.
      * rewrite lookup_insert_ne by done. rewrite decide_False by naive_solver. done.
    + rewrite lookup_insert_ne by done. rewrite decide_False by naive_solver. done.
  - case_decide as Hd; [|done]. destruct Hd as [-> ->]. rewrite Em. simpl. rewrite Es. simpl.
    by rewrite bool_decide_eq_false_2.
Qed.

Lemma has_stream_spec ss id k :
  StreamingStrategy_HasStream ss id k = true ↔ ∃ st, k ∈ node_streams ss id st.
Proof.
  unfold StreamingStrategy_HasStream, node_streams, any_type.
  destruct (ss_nodeStreams ss !! id) as [m|]; simpl.
  - rewrite bool_decide_eq_true. split.
    + intros (st & l & Hl & Hk). exists st. by rewrite Hl.
    + intros (st & Hk). destruct (m !! st) as [l|] eqn:E; simpl in Hk; [|by apply not_elem_of_nil in Hk].
      by exists st, l.
  - split; [done|]. intros (st & Hk). rewrite lookup_empty in Hk. by apply not_elem_of_nil in Hk.
Qed.

Lemma find_nodes_has ss streamKey id :
  default false (StreamingStrategy_FindNodesWithStream ss streamKey !! id) =
    ss_enabled ss && StreamingStrategy_HasStream ss id streamKey.
Proof.
  unfold StreamingStrategy_FindNodesWithStream, StreamingStrategy_HasStream.
  destruct (ss_enabled ss); simpl; [|done]. rewrite lookup_omap.
  destruct (ss_nodeStreams ss !! id) as [m|]; simpl; [|done]. by destruct (any_type m streamKey).
Qed.

(** The score of a node is the batch answer, for the two known stream types. *)
Lemma stream_score_batch ss id key :
  ss_two_types ss →
  StreamingStrategy_StreamScore ss id key =
    match InferStreamFromChunkKey key with
    | Some (sk, _) =>
        if default false (StreamingStrategy_FindNodesWithStream ss sk !! id)
        then float_of_Z 20 else fzero
    | None => fzero
    end.
Proof.
  intros Htt. unfold StreamingStrategy_StreamScore.
  destruct (InferStreamFromChunkKey key) as [[sk n]|]; [|by destruct (ss_enabled ss)].
  rewrite find_nodes_has. destruct (ss_enabled ss); simpl; [|done].
  destruct (StreamingStrategy_HasStream ss id sk) eqn:E.
  - apply has_stream_spec in E as (st & Hk).
    destruct (Htt _ _ _ Hk) as [-> | ->].
    + by rewrite bool_decide_eq_true_2.
    + rewrite (bool_decide_eq_true_2 (sk ∈ node_streams ss id StreamTypeDASH)) by done.
      by rewrite orb_true_r.
  - rewrite !bool_decide_eq_false_2; [done|..];
      intros Hk; assert (∃ st, sk ∈ node_streams ss id st) as Hs%has_stream_spec by (by eexists);
      congruence.
Qed.

(** A history of reports ([true]) and removals ([false]). *)
Definition apply_report (ss : StreamingStrategy) (r : bool * string * string * StreamType)
    : StreamingStrategy :=
  let '(add, id, k, st) := r in
  if add then StreamingStrategy_ReportStream ss id k st
  else StreamingStrategy_RemoveStream ss id k st.

(** The streams of a node after the history: a set per type. *)
Fixpoint reported (rs : list (bool * string * string * StreamType)) (id : string) (st : StreamType)
    : gset string :=
  match rs with
  | [] => ∅
  | (add, id', k, st') :: rs' =>
      if decide (id' = id ∧ st' = st)
      then if (add : bool) then {[k]} ∪ reported rs' id st else reported rs' id st ∖ {[k]}
      else reported rs' id st
  end.

Lemma apply_report_wf ss r : ss_wf ss → ss_wf (apply_report ss r).
Proof.
  destruct r as [[[[] id] k] st]; intros Hw id' st'; simpl.
  - rewrite report_streams. simpl. case_decide; [|apply Hw]. case_bool_decide; [apply Hw|].
    apply NoDup_app. split_and!; [apply Hw|set_solver|apply NoDup_singleton].
  - rewrite remove_streams. simpl. case_decide; [|apply Hw]. case_bool_decide; [|apply Hw].
    apply NoDup_remove_first, Hw.
Qed.

Lemma history_wf rs cfg : ss_wf (foldr (λ r ss, apply_report ss r) (NewStreamingStrategy cfg) rs).
Proof.
  induction rs as [|r rs IH]; simpl; [|by apply apply_report_wf].
  intros id st. unfold node_streams. simpl. rewrite lookup_empty. simpl.
  rewrite lookup_empty. constructor.
Qed.

(** after any history of reports and removals (latest first) the
    strategy answers like the set of streams last reported and not removed since:
    [HasStream] for every node, and the batch [FindNodesWithStream] the scheduler
    uses agrees with it whenever streaming is enabled. *)
Theorem stream_reports_refine rs cfg id streamKey :
  let ss := foldr (λ r ss, apply_report ss r) (NewStreamingStrategy cfg) rs in
  (StreamingStrategy_HasStream ss id streamKey = true ↔ ∃ st, streamKey ∈ reported rs id st) ∧
  default false (StreamingStrategy_FindNodesWithStream ss streamKey !! id) =
    default false cfg && StreamingStrategy_HasStream ss id streamKey.
Proof.
  intros ss. split.
  - rewrite has_stream_spec. apply exist_proper. intros st. subst ss.
    induction rs as [|[[[add id'] k] st'] rs IH]; cbn [foldr reported].
    { unfold node_streams. simpl. rewrite lookup_empty. simpl. rewrite lookup_empty. set_solver. }
    pose proof (history_wf rs cfg id st) as Hnd. revert IH Hnd.
    generalize (foldr (λ r ss, apply_report ss r) (NewStreamingStrategy cfg) rs) as ss. intros ss IH Hnd.
    destruct add; simpl; rewrite ?report_streams, ?remove_streams; simpl;
      destruct (decide (id' = id ∧ st' = st)) as [[-> ->]|Hd].
    + rewrite decide_True by done. case_bool_decide; set_solver.
    + rewrite decide_False by naive_solver. done.
    + rewrite decide_True by done. case_bool_decide; [rewrite elem_of_remove_first by done|]; set_solver.
    + rewrite decide_False by naive_solver. done.
  - rewrite find_nodes_has. f_equal. subst ss. unfold ss_enabled. f_equal.
    induction rs as [|[[[add ?] ?] ?] rs IH]; [done|]. destruct add; simpl; [done|].
    unfold StreamingStrategy_RemoveStream. by repeat case_match.
Qed.
