(* ===== verification/NodeCache.v ===== *)
(** * The node list cache of the control plane ([internal/controlplane/nodecache.go])

    [GetActiveNodes] serves a list of nodes for [ttl] nanoseconds and then reads
    the database again; [Invalidate] empties the cache.  A database read is split
    into its two atomic steps (the query, then the store of its answer), because
    [Invalidate] and other requests may run in between; [singleflight] lets one
    read run at a time. *)

From S2P Require Import Prelude Models.

Record NodeCache := mkNodeCache {
  nc_nodes : option (list Node);   (* [None]: the nil slice *)
  nc_cachedAt : Z;
  nc_ttl : Z
}.

Definition NewNodeCache (ttl : Z) : NodeCache := mkNodeCache None 0 ttl.

(** The cached list, if it is younger than [ttl]. *)
Definition NodeCache_fresh (c : NodeCache) (now : Z) : option (list Node) :=
  match nc_nodes c with
  | Some nodes => if now - nc_cachedAt c <? nc_ttl c then Some nodes else None
  | None => None
  end.

(** The end of a database read at time [now]. *)
Definition NodeCache_store (c : NodeCache) (nodes : list Node) (now : Z) : NodeCache :=
  mkNodeCache (Some nodes) now (nc_ttl c).

Definition NodeCache_Invalidate (c : NodeCache) : NodeCache := mkNodeCache None 0 (nc_ttl c).

(** A call that is not interleaved with another: [db] is the answer of
    [ListActiveNodes], a non-nil slice or an error; [now'] the time it is stored. *)
Definition NodeCache_GetActiveNodes (c : NodeCache) (now : Z) (db : result (list Node)) (now' : Z)
    : result (list Node) * NodeCache :=
  match NodeCache_fresh c now with
  | Some nodes => (Ok nodes, c)
  | None =>
      match db with
      | Ok nodes => (Ok nodes, NodeCache_store c nodes now')
      | Err e => (Err e, c)
      | Panic => (Panic, c)
      end
  end.

(** [GetNodes] copies the nodes the pointers refer to. *)
Definition NodeCache_GetNodes (c : NodeCache) (now : Z) (db : result (list Node)) (now' : Z)
    : result (list Node) * NodeCache :=
  let '(r, c') := NodeCache_GetActiveNodes c now db now' in
  (let! nodes := r in Ok nodes, c').

(** ** Interleaved requests *)

(** The database content, the cache and the answer a running read holds. *)
Record NodeView := mkNodeView {
  nv_db : list Node;
  nv_cache : NodeCache;
  nv_inflight : option (list Node);
  nv_now : Z
}.

(** One atomic step and the answer it gives to a request, if any.  In a [quiet] run
    no change falls between the query and the store of a read. *)
Inductive nc_step (quiet : bool) : NodeView → option (list Node) → NodeView → Prop :=
| nc_hit db c fl now nodes :
    NodeCache_fresh c now = Some nodes →
    nc_step quiet (mkNodeView db c fl now) (Some nodes) (mkNodeView db c fl now)
| nc_query db c now :
    NodeCache_fresh c now = None →
    nc_step quiet (mkNodeView db c None now) None (mkNodeView db c (Some db) now)
| nc_answer db c nodes now :
    nc_step quiet (mkNodeView db c (Some nodes) now) (Some nodes)
      (mkNodeView db (NodeCache_store c nodes now) None now)
| nc_change db db' c fl now :
    (quiet = true → fl = None) →
    nc_step quiet (mkNodeView db c fl now) None (mkNodeView db' (NodeCache_Invalidate c) fl now)
| nc_tick db c fl now now' :
    now ≤ now' → nc_step quiet (mkNodeView db c fl now) None (mkNodeView db c fl now').

(** Runs, with the last answer given. *)
Inductive nc_run (quiet : bool) (v0 : NodeView) : option (list Node) → NodeView → Prop :=
| nc_start : nc_run quiet v0 None v0
| nc_more a v a' v' : nc_run quiet v0 a v → nc_step quiet v a' v' → nc_run quiet v0 a' v'.

Definition nc_init (db : list Node) (ttl now : Z) : NodeView :=
  mkNodeView db (NewNodeCache ttl) None now.

(** Whatever is cached or in flight is the content of the database. *)
Definition nc_coherent (v : NodeView) : Prop :=
  (∀ nodes, nc_nodes (nv_cache v) = Some nodes → nodes = nv_db v) ∧
  (∀ nodes, nv_inflight v = Some nodes → nodes = nv_db v).

Lemma fresh_cached c now nodes : NodeCache_fresh c now = Some nodes → nc_nodes c = Some nodes.
Proof. unfold NodeCache_fresh. intros. by split_ifs. Qed.

Lemma nc_step_coherent v a v' :
  nc_step true v a v' → nc_coherent v →
  nc_coherent v' ∧ ∀ nodes, a = Some nodes → nodes = nv_db v'.
Proof.
  intros Hstep [Hc Hf].
  destruct Hstep as [db c fl now nodes Hfr|db c now Hfr|db c nodes now|db db' c fl now Hq|db c fl now now' Hle];
    simpl in *.
  - apply fresh_cached in Hfr. split; [by split|]. intros ? [= <-]. auto.
  - split; [|done]. split; [done|]. by intros ? [= <-].
  - split; [split|]; simpl; intros ? [= <-]; by apply Hf.
  - rewrite Hq by done. done.
  - split; [by split|done].
Qed.

Lemma nc_run_coherent db ttl now a v :
  nc_run true (nc_init db ttl now) a v →
  nc_coherent v ∧ ∀ nodes, a = Some nodes → nodes = nv_db v.
Proof.
  induction 1 as [|a v a' v' _ [IH _] Hs]; [done|]. by eapply nc_step_coherent.
Qed.

(** The non-interleaved call is the query followed by its answer. *)
Lemma get_active_nodes_steps db c now :
  nc_step true (mkNodeView db c None now) None (mkNodeView db c (Some db) now) →
  NodeCache_GetActiveNodes c now (Ok db) now = (Ok db, NodeCache_store c db now).
Proof.
  intros Hs. unfold NodeCache_GetActiveNodes.
  inversion Hs as [ | ? ? ? Hfr | | | ]; subst; by rewrite ?Hfr.
Qed.

(** ** Properties *)

(** if the cache is invalidated with every change of the nodes and no
    change falls into a running database read, every answer of [GetActiveNodes] is
    the current content of the database, cached answers included. *)
Theorem node_cache_never_stale db ttl now nodes v :
  nc_run true (nc_init db ttl now) (Some nodes) v → nodes = nv_db v.
Proof. intros [_ H]%nc_run_coherent. by apply H. Qed.

(** a change that does fall into a running read is lost on the cache:
    its invalidation is overwritten by the answer of the query that ran before
    it, and for a whole [ttl] afterwards requests get the old nodes. *)
Theorem node_cache_lost_invalidation old new ttl now now' :
  now ≤ now' → now' - now < ttl →
  nc_run false (nc_init old ttl now) (Some old)
    (mkNodeView new (NodeCache_store (NewNodeCache ttl) old now) None now').
Proof.
  intros Hle Httl.
  eapply nc_more; [|apply nc_hit; unfold NodeCache_fresh; simpl].
  2:{ destruct (now' - now <? ttl) eqn:E; bool_to_prop; [done|lia]. }
  eapply nc_more; [|by apply nc_tick].
  eapply nc_more; [|apply nc_answer].
  eapply nc_more; [|by apply (nc_change false old new (NewNodeCache ttl) (Some old) now)].
  eapply nc_more; [apply nc_start|by apply nc_query].
Qed.

(** ** Witnesses *)
Lemma node_cache_never_stale_witness : ([] : list Node) = nv_db (nc_init [] 5 0).
Proof.
  change (([] : list Node) = nv_db (mkNodeView [] (NodeCache_store (NewNodeCache 5) [] 0) None 0)).
  apply (node_cache_never_stale [] 5 0).
  eapply nc_more; [|apply nc_answer].
  eapply nc_more; [apply nc_start|by apply nc_query].
Defined.

Definition demo_node (id : string) : Node :=
  mkNode 0 0 0 [] (mkCapabilities true 0 0 false "" false false GoFloat.fzero GoFloat.fzero false)
    (mkNodeScores GoFloat.fzero GoFloat.fzero GoFloat.fzero) ∅ "" None id "" "" "" "" "" ""
    NodeStatusActive 0.

Lemma node_cache_lost_invalidation_witness :
  ∃ v, nc_run false (nc_init [demo_node "old"] 10 0) (Some [demo_node "old"]) v ∧ nv_db v = [].
Proof.
  eexists. split; [apply (node_cache_lost_invalidation [demo_node "old"] [] 10 0 7); lia|reflexivity].
Defined.
