(* ===== verification/Scheduler.v ===== *)
(** * The dispatch scheduler ([internal/controlplane/scheduler.go])

    [Resolve] lists the active nodes, filters out those that cannot serve, scores
    the rest, keeps the best [MaxCandidates] in a bounded heap and signs a token.
    The content index is the class [ContentIndexLookup] (with its laws), the token
    signer the class [TokenSigner]; the tunnel manager is the predicate
    [IsConnected]; the streaming strategy and the node cache are the modelled
    ones.  Times are arguments ([Clock]); the global request counter is state.

    The theorems: the candidates are exactly the [MaxCandidates] best-scored
    eligible nodes, best first; only eligible nodes are announced; the in-place
    compaction of the small-bandwidth filter is a filter; scoring with the batch
    lookups equals scoring with a lookup per node. *)

From S2P Require Import Prelude GoFloat GoStrings Heap ContentIndex StreamKeys Models.
From S2P Require Import StreamStrategy NodeCache.

(** [auth.Signer] and [auth.ComputeIPPrefix]. *)
Class TokenSigner (S : Type) := {
  sign_token : S → (string * Z * string) → result string;
  compute_ip_prefix : string → string
}.

(** The fields of [config.ControlPlaneConfig] the scheduler reads. *)
Record SchedConfig := mkSchedConfig {
  cfg_MaxCandidates : Z;
  cfg_DefaultTTLMs : Z;
  cfg_DegradeToOrigin : bool;
  cfg_OriginURL : string;
  cfg_HotContentAwareWeight : float64;
  cfg_ContentAwareWeight : float64;
  cfg_SB_Enabled : bool;
  cfg_SB_Threshold : Z
}.

Record scoredNode := mkScoredNode { sn_node : Node; sn_score : float64; sn_endpoint : string }.
#[export] Instance scoredNode_inhabited : Inhabited scoredNode :=
  populate (mkScoredNode (demo_node "") fzero "").

(** [scoredHeap.Less]. *)
Definition scored_less (a b : scoredNode) : bool := fltb (sn_score a) (sn_score b).
Definition scored_le (a b : scoredNode) : Prop := fle (sn_score a) (sn_score b).
Definition score_valid (sn : scoredNode) : Prop := is_nan (sn_score sn) = false.

Section scheduler.
Context {CI : Type} `{ContentIndexLookup CI} {SG : Type} `{TokenSigner SG}.

Record Scheduler := mkScheduler {
  sc_contentIndex : option CI;
  sc_signer : SG;
  sc_cfg : SchedConfig;
  sc_tunnelMgr : option (string → bool);
  sc_streamStrat : option StreamingStrategy
}.

Definition NewScheduler (signer : SG) (cfg : SchedConfig) : Scheduler :=
  mkScheduler None signer cfg None None.
Definition Scheduler_SetContentIndex (s : Scheduler) (ci : CI) : Scheduler :=
  mkScheduler (Some ci) (sc_signer s) (sc_cfg s) (sc_tunnelMgr s) (sc_streamStrat s).
Definition Scheduler_SetTunnelManager (s : Scheduler) (tm : string → bool) : Scheduler :=
  mkScheduler (sc_contentIndex s) (sc_signer s) (sc_cfg s) (Some tm) (sc_streamStrat s).
Definition Scheduler_SetStreamingStrategy (s : Scheduler) (ss : StreamingStrategy) : Scheduler :=
  mkScheduler (sc_contentIndex s) (sc_signer s) (sc_cfg s) (sc_tunnelMgr s) (Some ss).

(** ** Scoring *)

(** Region, ISP, health and tunnel. *)
Definition base_score (node : Node) (client : ClientInfo) : float64 :=
  let score := fzero in
  let score := if String.eqb (n_Region node) (cl_Region client) && negb (String.eqb (cl_Region client) "")
               then fadd score (float_of_Z 30) else score in
  let score := if String.eqb (n_ISP node) (cl_ISP client) && negb (String.eqb (cl_ISP client) "")
               then fadd score (float_of_Z 20) else score in
  let sc := n_Scores node in
  let score := fadd score
    (fsub (fadd (fmul (ns_ReachableScore sc) (float_const 3 10))
                (fmul (ns_HealthScore sc) (float_const 2 10)))
          (fmul (ns_RiskScore sc) (float_const 5 10))) in
  if cap_TunnelRequired (n_Capabilities node) then fsub score (float_of_Z 15) else score.

(** The content and streaming part. *)
Definition content_score (s : Scheduler) (nodeID key : string) (hot bloom streams : gmap string bool)
    (score : float64) : float64 :=
  let cfg := sc_cfg s in
  let score :=
    if bool_map_get hot nodeID then fadd score (cfg_HotContentAwareWeight cfg)
    else if bool_map_get bloom nodeID then fadd score (cfg_ContentAwareWeight cfg)
    else match sc_contentIndex s with
         | None => score
         | Some ci =>
             let '(isHot, likelyCached) := ci_IsCached ci nodeID key in
             if (isHot : bool) then fadd score (cfg_HotContentAwareWeight cfg)
             else if (likelyCached : bool) then fadd score (cfg_ContentAwareWeight cfg)
             else score
         end in
  if bool_map_get streams nodeID then fadd score (float_of_Z 20)
  else match sc_streamStrat s with
       | None => score
       | Some ss => fadd score (StreamingStrategy_StreamScore ss nodeID key)
       end.

(** The bandwidth part. *)
Definition bandwidth_score (cfg : SchedConfig) (node : Node) (hot bloom : gmap string bool)
    (score : float64) : float64 :=
  let caps := n_Capabilities node in
  let bw := cap_MaxUplinkMbps caps in
  let score :=
    if 0 <? bw then
      let bwScore := fmul (float_of_Z bw) (float_const 2 10) in
      let bwScore := if fltb (float_of_Z 20) bwScore then float_of_Z 20 else bwScore in
      let score := fadd score bwScore in
      let score := if fltb (fmul (float_of_Z bw) (float_const 8 10)) (cap_CurrentEgressMbps caps)
                   then fsub score (float_of_Z 15) else score in
      if (bw <? cfg_SB_Threshold cfg)
         && (bool_map_get hot (n_NodeID node) || bool_map_get bloom (n_NodeID node))
      then fadd score (float_of_Z 30) else score
    else score in
  if cap_ShieldMode caps then fadd score (float_of_Z 20) else score.

Definition Scheduler_scoreKeyFast (s : Scheduler) (node : Node) (client : ClientInfo) (key : string)
    (hot bloom streams : gmap string bool) : float64 :=
  let score := base_score node client in
  let score := if String.eqb key "" then score
               else content_score s (n_NodeID node) key hot bloom streams score in
  let score := if cfg_SB_Enabled (sc_cfg s) then bandwidth_score (sc_cfg s) node hot bloom score
               else score in
  if fltb score fzero then fzero else score.

Definition Scheduler_scoreKey (s : Scheduler) (node : Node) (client : ClientInfo) (key : string) : float64 :=
  Scheduler_scoreKeyFast s node client key ∅ ∅ ∅.
Definition Scheduler_score (s : Scheduler) (node : Node) (client : ClientInfo) : float64 :=
  Scheduler_scoreKey s node client "".

(** ** Filters *)
Definition filter_keep (s : Scheduler) (n : Node) : bool :=
  if bool_decide (n_Status n = NodeStatusDisabled) || bool_decide (n_Status n = NodeStatusMaintenance)
  then false
  else if cap_InboundReachable (n_Capabilities n)
  then fleb (float_of_Z 10) (ns_ReachableScore (n_Scores n))
  else if cap_TunnelRequired (n_Capabilities n)
  then match sc_tunnelMgr s with Some isConnected => isConnected (n_NodeID n) | None => false end
  else false.

(** The loop of [filter]: [append] in the order of the nodes. *)
Definition Scheduler_filter (s : Scheduler) (nodes : list Node) : list Node :=
  foldl (λ filtered n, if filter_keep s n then filtered ++ [n] else filtered) [] nodes.

Definition small_keep (s : Scheduler) (key : string) (node : Node) : bool :=
  let caps := n_Capabilities node in
  let bw := cap_MaxUplinkMbps caps in
  if (0 <? bw) && (bw <? cfg_SB_Threshold (sc_cfg s)) then
    match sc_contentIndex s with
    | None => true
    | Some ci =>
        if String.eqb key "" then true
        else
          let '(isHot, likelyCached) := ci_IsCached ci (n_NodeID node) key in
          if (isHot || likelyCached : bool) then true
          else let cap := float_of_Z bw in
               fltb fzero cap && fltb (fdiv (cap_CurrentEgressMbps caps) cap) (float_const 5 10)
    end
  else true.

(** The in-place loop: the node read at index [i] is written at index [n]. *)
Fixpoint compact_loop (keep : Node → bool) (fuel : nat) (i n : nat) (nodes : list Node)
    : nat * list Node :=
  match fuel with
  | O => (n, nodes)
  | S fuel' =>
      match nodes !! i with
      | None => (n, nodes)
      | Some node =>
          if keep node then compact_loop keep fuel' (S i) (S n) (<[n := node]> nodes)
          else compact_loop keep fuel' (S i) n nodes
      end
  end.

Definition Scheduler_filterForSmallBandwidth (s : Scheduler) (nodes : list Node) (key : string)
    : list Node :=
  if negb (cfg_SB_Enabled (sc_cfg s)) then nodes
  else let '(n, nodes') := compact_loop (small_keep s key) (length nodes) 0 0 nodes in take n nodes'.

(** ** Resolve *)

(** The times a request reads: for the cache, its store, the expiry, the id. *)
Record Clock := mkClock { t_get : Z; t_store : Z; t_exp : Z; t_id : Z }.

Record SchedState := mkSchedState { st_nodeCache : NodeCache; st_requestSeq : Z }.

(** [fmt.Sprintf("%x-%x", time.Now().UnixNano(), requestSeq.Add(1))]. *)
Definition request_id (now seq : Z) : string :=
  of_chars (format_int 16 now ++ to_chars "-" ++ format_int 16 seq).

Definition next_seq (st : SchedState) : SchedState :=
  mkSchedState (st_nodeCache st) (u64 (st_requestSeq st + 1)).

Definition no_token : DispatchToken := mkDispatchToken "" "" 0.
Definition no_meta : CandidateMeta := mkCandidateMeta "" "" "" "".

Definition Scheduler_NoOriginFallback (s : Scheduler) (now : Z) (st : SchedState)
    : DispatchResponse * SchedState :=
  let st' := next_seq st in
  let id := request_id now (st_requestSeq st') in
  let cfg := sc_cfg s in
  if negb (cfg_DegradeToOrigin cfg) then (mkDispatchResponse id (cfg_DefaultTTLMs cfg) no_token [], st')
  else
    let originURL := if String.eqb (cfg_OriginURL cfg) "" then "http://localhost:7070"
                     else cfg_OriginURL cfg in
    (mkDispatchResponse id (cfg_DefaultTTLMs cfg) no_token [mkCandidate "origin" originURL 1 no_meta], st').

(** The batch lookups of one dispatch. *)
Definition lookup_content (s : Scheduler) (key : string) : gmap string bool * gmap string bool :=
  match sc_contentIndex s with
  | Some ci => if String.eqb key "" then (∅, ∅) else ci_FindNodesWithKey ci key
  | None => (∅, ∅)
  end.
Definition lookup_streams (s : Scheduler) (key : string) : gmap string bool :=
  match sc_streamStrat s with
  | Some ss =>
      if String.eqb key "" then ∅
      else match InferStreamFromChunkKey key with
           | Some (streamKey, _) =>
               if String.eqb streamKey "" then ∅
               else StreamingStrategy_FindNodesWithStream ss streamKey
           | None => ∅
           end
  | None => ∅
  end.

Definition scored_of (s : Scheduler) (req : DispatchRequest) (n : Node) : scoredNode :=
  let key := res_Key (dr_Resource req) in
  let '(hot, bloom) := lookup_content s key in
  let score := Scheduler_scoreKeyFast s n (dr_Client req) key hot bloom (lookup_streams s key) in
  mkScoredNode n score
    (if cap_InboundReachable (n_Capabilities n)
     then match n_Endpoints n with e :: _ => Endpoint_URL e | [] => "" end else "").

Definition candidate_of (sn : scoredNode) : Candidate :=
  let n := sn_node sn in
  mkCandidate (n_NodeID n) (sn_endpoint sn) (int_of_float (sn_score sn))
    (mkCandidateMeta (n_Region n) (n_ISP n)
       (if cap_TunnelRequired (n_Capabilities n) then "tunnel" else "direct") "").

(** The heap of the best [max] nodes, popped worst first and read backwards. *)
Definition select_best (max : Z) (l : list scoredNode) : list scoredNode :=
  rev (sorted scored_less (foldl (bounded_push scored_less max) [] l)).

(** [time.Now().Add(time.Duration(ttl) * time.Millisecond).Unix()]. *)
Definition expiry (now ttl_ms : Z) : Z := (now + i64 (ttl_ms * 1000000)) / 1000000000.

Definition Scheduler_Resolve (s : Scheduler) (t : Clock) (db : result (list Node)) (st : SchedState)
    (req : DispatchRequest) : result DispatchResponse * SchedState :=
  let '(r, nc) := NodeCache_GetActiveNodes (st_nodeCache st) (t_get t) db (t_store t) in
  let st1 := mkSchedState nc (st_requestSeq st) in
  match r with
  | Err _ => (Err "list nodes", st1)
  | Panic => (Panic, st1)
  | Ok nodes =>
      let filtered := Scheduler_filter s nodes in
      if (length filtered =? 0)%nat then
        let '(resp, st2) := Scheduler_NoOriginFallback s (t_id t) st1 in (Ok resp, st2)
      else
        let rKey := res_Key (dr_Resource req) in
        let filtered := Scheduler_filterForSmallBandwidth s filtered rKey in
        if (length filtered =? 0)%nat then
          let '(resp, st2) := Scheduler_NoOriginFallback s (t_id t) st1 in (Ok resp, st2)
        else
          let scored := select_best (cfg_MaxCandidates (sc_cfg s)) (scored_of s req <$> filtered) in
          let exp := expiry (t_exp t) (cfg_DefaultTTLMs (sc_cfg s)) in
          let ip := cl_IP (dr_Client req) in
          let ipPrefix := if String.eqb ip "" then "" else compute_ip_prefix ip in
          match sign_token (sc_signer s) (rKey, exp, ipPrefix) with
          | Err _ => (Err "sign token", st1)
          | Panic => (Panic, st1)
          | Ok tokenVal =>
              let st2 := next_seq st1 in
              (Ok (mkDispatchResponse (request_id (t_id t) (st_requestSeq st2))
                     (cfg_DefaultTTLMs (sc_cfg s))
                     (mkDispatchToken "hmac" tokenVal exp) (candidate_of <$> scored)), st2)
          end
  end.

(** ** The filters *)
Lemma filter_loop s nodes acc :
  foldl (λ filtered n, if filter_keep s n then filtered ++ [n] else filtered) acc nodes =
    acc ++ filter (λ n, filter_keep s n = true) nodes.
Proof.
  revert acc. induction nodes as [|n nodes IH]; intros acc; simpl; [by rewrite app_nil_r|].
  rewrite IH, filter_cons. case_decide as Hk; destruct (filter_keep s n); try done.
  by rewrite <- app_assoc.
Qed.

Lemma Scheduler_filter_spec s nodes :
  Scheduler_filter s nodes = filter (λ n, filter_keep s n = true) nodes.
Proof. apply filter_loop. Qed.

(** While the loop runs, the first [n] cells hold the kept nodes seen so far and the
    cells from [i] on are still the original ones. *)
Lemma compact_loop_spec keep fuel i n nodes pre suf :
  nodes = pre ++ suf → length pre = i → (n ≤ i)%nat → (length suf ≤ fuel)%nat →
  let '(n', nodes') := compact_loop keep fuel i n nodes in
  take n' nodes' = take n nodes ++ filter (λ x, keep x = true) suf.
Proof.
  revert i n nodes pre suf. induction fuel as [|fuel IH]; intros i n nodes pre suf -> Hl Hn Hf;
    cbn [compact_loop].
  { destruct suf; [by rewrite filter_nil, !app_nil_r|simpl in Hf; lia]. }
  destruct suf as [|x suf].
  { rewrite lookup_ge_None_2 by (rewrite app_nil_r; lia). by rewrite filter_nil, !app_nil_r. }
  rewrite list_lookup_middle by done. rewrite filter_cons.
  destruct (keep x) eqn:Ek.
  - rewrite decide_True by done.
    specialize (IH (S i) (S n) (<[n := x]> (pre ++ x :: suf))
      (<[n := x]> (pre ++ [x])) suf).
    destruct (compact_loop _ _ _ _ _) as [n' nodes']. rewrite IH.
    + rewrite (take_S_r _ n x) by (apply list_lookup_insert_eq; rewrite length_app; simpl; lia).
      rewrite take_insert_ge by lia. by rewrite <- app_assoc.
    + change (pre ++ x :: suf) with (pre ++ [x] ++ suf). rewrite app_assoc.
      apply insert_app_l. rewrite length_app. simpl. lia.
    + rewrite length_insert, length_app. simpl. lia.
    + lia.
    + simpl in Hf. lia.
  - rewrite decide_False by done.
    apply (IH (S i) n _ (pre ++ [x]) suf); [by rewrite <- app_assoc|rewrite length_app; simpl; lia|lia|].
    simpl in Hf. lia.
Qed.

Lemma small_bandwidth_spec s nodes key :
  Scheduler_filterForSmallBandwidth s nodes key =
    if cfg_SB_Enabled (sc_cfg s) then filter (λ n, small_keep s key n = true) nodes else nodes.
Proof.
  unfold Scheduler_filterForSmallBandwidth. destruct (cfg_SB_Enabled (sc_cfg s)); simpl; [|done].
  pose proof (compact_loop_spec (small_keep s key) (length nodes) 0 0 nodes [] nodes) as Hc.
  destruct (compact_loop _ _ _ _ _) as [n' nodes']. apply Hc; [done..|lia].
Qed.

(** The nodes a request chooses from. *)
Definition eligible (s : Scheduler) (req : DispatchRequest) (nodes : list Node) : list Node :=
  Scheduler_filterForSmallBandwidth s (Scheduler_filter s nodes) (res_Key (dr_Resource req)).

Lemma eligible_keep s req nodes n :
  n ∈ eligible s req nodes → n ∈ nodes ∧ filter_keep s n = true.
Proof.
  unfold eligible. rewrite small_bandwidth_spec, Scheduler_filter_spec.
  case_match; rewrite ?list_elem_of_filter; tauto.
Qed.

(** ** The selection *)
Lemma scored_le_preorder : PreOrder scored_le.
Proof.
  split; [intros a|intros a b c]; unfold scored_le; [reflexivity|]. intros. by etransitivity.
Qed.

Lemma select_best_spec max l :
  0 < max → Forall score_valid l →
  Z.of_nat (length (select_best max l)) = Z.min max (Z.of_nat (length l)) ∧
  StronglySorted (flip scored_le) (select_best max l) ∧
  ∃ rest, select_best max l ++ rest ≡ₚ l ∧
    ∀ a b, a ∈ select_best max l → b ∈ rest → scored_le b a.
Proof.
  intros Hmax Hv. pose proof scored_le_preorder.
  assert (Hless : ∀ x y, score_valid x → score_valid y → scored_less x y = true → scored_le x y)
    by (intros; by apply fltb_le).
  assert (Hnless : ∀ x y, score_valid x → score_valid y → scored_less x y = false → scored_le y x)
    by (intros; by apply fltb_ge).
  pose proof (bounded_push_all scored_less score_valid scored_le Hless Hnless max l Hmax Hv) as Htk.
  pose proof (topk_Forall score_valid scored_le max _ _ Htk Hv) as Hvh.
  destruct Htk as (Hheap & Hlen & out & Hperm & Hout).
  destruct (sorted_spec scored_less score_valid scored_le Hless Hnless _ Hvh Hheap) as [Hp Hs].
  unfold select_best. split_and!.
  - by rewrite List.length_rev, Hp.
  - by apply StronglySorted_rev.
  - exists out. split.
    + by rewrite <- Permutation_rev, Hp.
    + intros a b Ha Hb. apply Hout; [|done]. by rewrite <- Permutation_rev, Hp in Ha.
Qed.

(** Whatever the scores (NaN included), only pushed nodes are selected: the heap
    lemmas at the trivial order. *)
Lemma select_best_from max l sn : sn ∈ select_best max l → sn ∈ l.
Proof.
  unfold select_best. intros Hin. apply list_elem_of_In, List.in_rev, list_elem_of_In in Hin.
  destruct (0 <? max) eqn:E.
  - bool_to_prop. set (le := (λ _ _ : scoredNode, True)).
    assert (PreOrder le) by (split; red; done).
    pose proof (bounded_push_all scored_less (λ _, True) le ltac:(done) ltac:(done) max l E
      ltac:(by apply Forall_true)) as Htk.
    destruct Htk as (Hheap & _ & out & Hperm & _).
    destruct (sorted_spec scored_less (λ _, True) le ltac:(done) ltac:(done) _
      ltac:(by apply Forall_true) Hheap) as [Hp _].
    rewrite Hp in Hin. rewrite <- Hperm. set_solver.
  - assert (foldl (bounded_push scored_less max) [] l = []) as Hnil.
    { clear Hin. induction l as [|x l IH]; [done|]. simpl. unfold bounded_push at 2. by rewrite E. }
    rewrite Hnil in Hin. by apply not_elem_of_nil in Hin.
Qed.

(** ** The outcomes of [Resolve] *)
Lemma eligible_nil s req nodes :
  Scheduler_filter s nodes = [] → eligible s req nodes = [].
Proof. unfold eligible. intros ->. rewrite small_bandwidth_spec. by case_match. Qed.

Lemma fallback_state s now st : (Scheduler_NoOriginFallback s now st).2 = next_seq st.
Proof. unfold Scheduler_NoOriginFallback. by case_match. Qed.

Lemma Scheduler_Resolve_ok s t db st req resp st' :
  Scheduler_Resolve s t db st req = (Ok resp, st') →
  ∃ nodes nc, NodeCache_GetActiveNodes (st_nodeCache st) (t_get t) db (t_store t) = (Ok nodes, nc) ∧
    st_nodeCache st' = nc ∧ st_requestSeq st' = u64 (st_requestSeq st + 1) ∧
    ((eligible s req nodes = [] ∧
      resp = (Scheduler_NoOriginFallback s (t_id t) (mkSchedState nc (st_requestSeq st))).1) ∨
     (eligible s req nodes ≠ [] ∧
      resp_Candidates resp =
        candidate_of <$> select_best (cfg_MaxCandidates (sc_cfg s)) (scored_of s req <$> eligible s req nodes))).
Proof.
  unfold Scheduler_Resolve. intros Hr.
  destruct (NodeCache_GetActiveNodes _ _ _ _) as [[nodes| |] nc]; [|done..].
  exists nodes, nc. split; [done|].
  fold (eligible s req nodes) in Hr.
  assert (Hfb : ∀ resp st', (let '(resp, st2) := Scheduler_NoOriginFallback s (t_id t)
      (mkSchedState nc (st_requestSeq st)) in (Ok resp, st2)) = (Ok resp, st') →
    resp = (Scheduler_NoOriginFallback s (t_id t) (mkSchedState nc (st_requestSeq st))).1 ∧
    st_nodeCache st' = nc ∧ st_requestSeq st' = u64 (st_requestSeq st + 1)).
  { intros resp0 st0. pose proof (fallback_state s (t_id t) (mkSchedState nc (st_requestSeq st))) as Hs.
    destruct (Scheduler_NoOriginFallback _ _ _) as [resp1 st1]. simpl in Hs. intros Heq. by simplify_eq/=. }
  destruct (length (Scheduler_filter s nodes) =? 0)%nat eqn:E1.
  { apply Nat.eqb_eq, length_zero_iff_nil in E1. apply (eligible_nil s req) in E1.
    apply Hfb in Hr as (-> & ? & ?). auto 6. }
  destruct (length (eligible s req nodes) =? 0)%nat eqn:E2.
  { apply Nat.eqb_eq, length_zero_iff_nil in E2. apply Hfb in Hr as (-> & ? & ?). auto 6. }
  apply Nat.eqb_neq in E2.
  destruct (sign_token _ _); [|done..]. simplify_eq/=. split_and!; try done. right.
  split; [|done]. intros He. by rewrite He in E2.
Qed.

(** ** Batch lookups against lookups per node *)
Lemma bool_map_get_empty id : bool_map_get ∅ id = false.
Proof. unfold bool_map_get. by rewrite lookup_empty. Qed.

Lemma stream_part_batch s id key (score : float64) :
  key ≠ "" → (∀ ss, sc_streamStrat s = Some ss → ss_two_types ss) →
  (if bool_map_get (lookup_streams s key) id then fadd score (float_of_Z 20)
   else match sc_streamStrat s with
        | None => score
        | Some ss => fadd score (StreamingStrategy_StreamScore ss id key)
        end) =
  match sc_streamStrat s with
  | None => score
  | Some ss => fadd score (StreamingStrategy_StreamScore ss id key)
  end.
Proof.
  intros Hkey Htt. unfold lookup_streams. destruct (sc_streamStrat s) as [ss|] eqn:Ess.
  2:{ by rewrite bool_map_get_empty. }
  rewrite (stream_score_batch ss id key) by (by apply Htt).
  assert (String.eqb key "" = false) as -> by (by apply String.eqb_neq).
  destruct (InferStreamFromChunkKey key) as [[sk n]|]; [|by rewrite bool_map_get_empty].
  destruct (String.eqb sk ""); [by rewrite bool_map_get_empty|].
  unfold bool_map_get. by destruct (default false _).
Qed.

Lemma content_score_batch `{!ContentIndexLaws CI} s id key score :
  key ≠ "" → (∀ ss, sc_streamStrat s = Some ss → ss_two_types ss) →
  content_score s id key (lookup_content s key).1 (lookup_content s key).2 (lookup_streams s key) score =
  content_score s id key ∅ ∅ ∅ score.
Proof.
  intros Hkey Htt. unfold content_score. rewrite !stream_part_batch by done.
  rewrite !bool_map_get_empty. cbv zeta. unfold lookup_content.
  destruct (sc_contentIndex s) as [ci|]; [|by rewrite !bool_map_get_empty].
  assert (String.eqb key "" = false) as -> by (by apply String.eqb_neq).
  rewrite ci_find_hot, ci_find_bloom.
  by destruct (ci_IsCached ci id key) as [[] []].
Qed.

Lemma score_fast_slow `{!ContentIndexLaws CI} s node client key :
  cfg_SB_Enabled (sc_cfg s) = false →
  (∀ ss, sc_streamStrat s = Some ss → ss_two_types ss) →
  Scheduler_scoreKeyFast s node client key (lookup_content s key).1 (lookup_content s key).2
    (lookup_streams s key) = Scheduler_scoreKey s node client key.
Proof.
  intros Hsb Htt. unfold Scheduler_scoreKey, Scheduler_scoreKeyFast. rewrite Hsb.
  destruct (String.eqb key "") eqn:E; [done|]. bool_to_prop. by rewrite content_score_batch.
Qed.

Lemma score_not_negative s node client key hot bloom streams :
  fltb (Scheduler_scoreKeyFast s node client key hot bloom streams) fzero = false.
Proof.
  unfold Scheduler_scoreKeyFast. cbv zeta.
  match goal with |- fltb (if ?b then _ else _) _ = _ => destruct b eqn:E end; [done|exact E].
Qed.
End scheduler.
Arguments Scheduler : clear implicits.

(** ** Properties *)

(** C1 (functional): when any eligible node exists, [Resolve] answers with exactly
    the best [MaxCandidates] of them: the candidates are the selected nodes in
    descending score, as many as asked for or available, and no node left out has
    a higher score than one selected.  (Scores must not be NaN.) *)
Theorem resolve_best_candidates {CI : Type} `{ContentIndexLookup CI} {SG : Type} `{TokenSigner SG}
    (s : Scheduler CI SG) t db st req resp st' nodes nc :
  Scheduler_Resolve s t db st req = (Ok resp, st') →
  NodeCache_GetActiveNodes (st_nodeCache st) (t_get t) db (t_store t) = (Ok nodes, nc) →
  eligible s req nodes ≠ [] → 0 < cfg_MaxCandidates (sc_cfg s) →
  Forall score_valid (scored_of s req <$> eligible s req nodes) →
  ∃ chosen rest,
    resp_Candidates resp = candidate_of <$> chosen ∧
    chosen ++ rest ≡ₚ scored_of s req <$> eligible s req nodes ∧
    Z.of_nat (length chosen) = Z.min (cfg_MaxCandidates (sc_cfg s)) (Z.of_nat (length (eligible s req nodes))) ∧
    StronglySorted (flip scored_le) chosen ∧
    ∀ a b, a ∈ chosen → b ∈ rest → scored_le b a.
Proof.
  intros Hr Hn Hne Hmax Hv.
  apply Scheduler_Resolve_ok in Hr as (nodes' & nc' & Hn' & _ & _ & Hcase).
  rewrite Hn in Hn'. injection Hn' as <- <-. destruct Hcase as [[]|[_ ->]]; [done|].
  destruct (select_best_spec _ _ Hmax Hv) as (Hlen & Hs & rest & Hp & Hle).
  rewrite length_fmap in Hlen. eauto 10.
Qed.

(** every candidate [Resolve] announces is an active node that can
    serve: neither disabled nor in maintenance, and either directly reachable with
    a sufficient reachability score or connected through its tunnel; the proxy
    mode is the one its capabilities ask for.  The only other answer is the
    fallback, which names the origin at most. *)
Theorem resolve_only_eligible {CI : Type} `{ContentIndexLookup CI} {SG : Type} `{TokenSigner SG}
    (s : Scheduler CI SG) t db st req resp st' cand :
  Scheduler_Resolve s t db st req = (Ok resp, st') →
  cand ∈ resp_Candidates resp →
  (cand_ID cand = "origin" ∧ cfg_DegradeToOrigin (sc_cfg s) = true ∧ resp_Token resp = no_token) ∨
  ∃ nodes nc n, NodeCache_GetActiveNodes (st_nodeCache st) (t_get t) db (t_store t) = (Ok nodes, nc) ∧
    n ∈ nodes ∧ cand = candidate_of (scored_of s req n) ∧
    n_Status n ≠ NodeStatusDisabled ∧ n_Status n ≠ NodeStatusMaintenance ∧
    ((cap_InboundReachable (n_Capabilities n) = true ∧
      fleb (float_of_Z 10) (ns_ReachableScore (n_Scores n)) = true) ∨
     (cap_TunnelRequired (n_Capabilities n) = true ∧
      ∃ connected, sc_tunnelMgr s = Some connected ∧ connected (n_NodeID n) = true)).
Proof.
  intros Hr Hc.
  apply Scheduler_Resolve_ok in Hr as (nodes & nc & Hn & _ & _ & [[_ ->]|[_ Heq]]).
  - left. revert Hc. unfold Scheduler_NoOriginFallback.
    destruct (cfg_DegradeToOrigin (sc_cfg s)); simpl; [|by intros ?%not_elem_of_nil].
    by intros ->%list_elem_of_singleton.
  - right. rewrite Heq in Hc. apply list_elem_of_fmap in Hc as (sn & -> & Hsn).
    apply select_best_from in Hsn as Hin.
    apply list_elem_of_fmap in Hin as (n & -> & [Hin Hk]%eligible_keep).
    exists nodes, nc, n. split_and!; try done; unfold filter_keep in Hk; repeat case_bool_decide; try done.
    simpl in Hk. destruct (cap_InboundReachable _); [by left|].
    destruct (cap_TunnelRequired _); [|done]. right. split; [done|].
    destruct (sc_tunnelMgr s) as [f|]; [by exists f|done].
Qed.


(** The in-place compaction of [filterForSmallBandwidth], which
    overwrites the slice it reads, returns the nodes that pass its test, in
    order: with the optimisation on, those with enough uplink, those that have
    the content, and those that use less than half of their uplink. *)
Theorem small_bandwidth_is_filter {CI : Type} `{ContentIndexLookup CI} {SG : Type} `{TokenSigner SG}
    (s : Scheduler CI SG) nodes key :
  Scheduler_filterForSmallBandwidth s nodes key =
    if cfg_SB_Enabled (sc_cfg s) then filter (λ n, small_keep s key n = true) nodes else nodes.
Proof. apply small_bandwidth_spec. Qed.

(** With no eligible node [Resolve] degrades: it never fails, and
    answers with the origin or, if that is switched off, with no candidate. *)
Theorem resolve_degrades_to_origin {CI : Type} `{ContentIndexLookup CI} {SG : Type} `{TokenSigner SG}
    (s : Scheduler CI SG) t db st req nodes nc :
  NodeCache_GetActiveNodes (st_nodeCache st) (t_get t) db (t_store t) = (Ok nodes, nc) →
  eligible s req nodes = [] →
  ∃ resp st', Scheduler_Resolve s t db st req = (Ok resp, st') ∧
    cand_Endpoint <$> resp_Candidates resp =
      if cfg_DegradeToOrigin (sc_cfg s)
      then [if String.eqb (cfg_OriginURL (sc_cfg s)) "" then "http://localhost:7070"
            else cfg_OriginURL (sc_cfg s)]
      else [].
Proof.
  intros Hn He. unfold Scheduler_Resolve. rewrite Hn. fold (eligible s req nodes). rewrite He.
  unfold Scheduler_NoOriginFallback. simpl.
  destruct (length (Scheduler_filter s nodes) =? 0)%nat; destruct (cfg_DegradeToOrigin (sc_cfg s));
    simpl; eexists _, _; split; reflexivity.
Qed.

(** ** Witnesses *)
#[export] Instance plain_signer : TokenSigner unit := {
  sign_token _ p := Ok (p.1.1);
  compute_ip_prefix ip := ip
}.

Definition demo_cfg : SchedConfig :=
  mkSchedConfig 2 60000 true "http://origin" (float_of_Z 40) (float_of_Z 25) false 50.
Definition demo_sched : Scheduler ContentIndex unit :=
  Scheduler_SetContentIndex (NewScheduler tt demo_cfg) NewContentIndex.
Definition demo_req : DispatchRequest :=
  mkDispatchRequest (mkClientInfo "" "eu" "") (mkResourceInfo "" "a/b" "") false.
Definition edge_node (id region : string) (reach : Z) : Node :=
  mkNode 0 0 0 [mkEndpoint "https" "10.0.0.1" 8443]
    (mkCapabilities true 0 0 false "" false false fzero fzero false)
    (mkNodeScores (float_of_Z reach) fzero fzero) ∅ "" None id "" "" "" region "" ""
    NodeStatusActive 0.
Definition demo_nodes : list Node :=
  [edge_node "n1" "us" 50; edge_node "n2" "eu" 90; edge_node "n3" "us" 80; edge_node "n4" "eu" 5].
Definition demo_state : SchedState := mkSchedState (NewNodeCache 1000) 0.
Definition demo_clock : Clock := mkClock 0 0 0 0.
Definition demo_resp : DispatchResponse :=
  match Scheduler_Resolve demo_sched demo_clock (Ok demo_nodes) demo_state demo_req with
  | (Ok r, _) => r
  | _ => mkDispatchResponse "" 0 no_token []
  end.

Lemma resolve_best_candidates_witness :
  cand_ID <$> resp_Candidates demo_resp = ["n2"; "n3"] ∧
  ∃ chosen rest, resp_Candidates demo_resp = candidate_of <$> chosen ∧
    chosen ++ rest ≡ₚ scored_of demo_sched demo_req <$> eligible demo_sched demo_req demo_nodes ∧
    StronglySorted (flip scored_le) chosen.
Proof.
  split; [vm_compute; reflexivity|].
  destruct (resolve_best_candidates demo_sched demo_clock (Ok demo_nodes) demo_state demo_req demo_resp
    (Scheduler_Resolve demo_sched demo_clock (Ok demo_nodes) demo_state demo_req).2 demo_nodes
    (NodeCache_store (NewNodeCache 1000) demo_nodes 0)) as (chosen & rest & H1 & H2 & _ & H3 & _).
  - vm_compute. reflexivity.
  - vm_compute. reflexivity.
  - vm_compute. discriminate.
  - vm_compute. reflexivity.
  - vm_compute. repeat constructor.
  - exists chosen, rest. auto.
Defined.

Lemma resolve_only_eligible_witness :
  ∃ n, n ∈ demo_nodes ∧ cand_ID <$> head (resp_Candidates demo_resp) = Some (n_NodeID n) ∧
    n_Status n ≠ NodeStatusDisabled.
Proof.
  destruct (resolve_only_eligible demo_sched demo_clock (Ok demo_nodes) demo_state demo_req demo_resp
    (Scheduler_Resolve demo_sched demo_clock (Ok demo_nodes) demo_state demo_req).2
    (candidate_of (scored_of demo_sched demo_req (edge_node "n2" "eu" 90))))
    as [(H & _)|(nodes & nc & n & Hg & Hn & Hc & Hs & _)].
  - vm_compute. reflexivity.
  - vm_compute. left.
  - discriminate H.
  - exists n. injection Hg as <- <-. split; [exact Hn|]. split; [|exact Hs].
    apply (f_equal cand_ID) in Hc. vm_compute in Hc |- *. rewrite Hc. reflexivity.
Defined.


Lemma resolve_degrades_to_origin_witness :
  ∃ resp st', Scheduler_Resolve demo_sched demo_clock (Ok []) demo_state demo_req = (Ok resp, st') ∧
    cand_Endpoint <$> resp_Candidates resp = ["http://origin"].
Proof.
  destruct (resolve_degrades_to_origin demo_sched demo_clock (Ok []) demo_state demo_req []
    (NodeCache_store (NewNodeCache 1000) [] 0) ltac:(reflexivity) ltac:(reflexivity)) as (r & st' & H1 & H2).
  exists r, st'. split; [exact H1|exact H2].
Defined.
