(* ===== verification/TunnelCodec.v ===== *)
(** * Wire format of tunnel messages ([internal/tunnel/message.go])

    A message is a ten byte header (version, type, stream id and payload length,
    big-endian) followed by the payload.  [WriteMessage] yields the bytes handed to
    the connection; [ReadMessage] consumes them from the bytes received so far
    and returns the rest.  JSON payloads appear as their bytes. *)

From S2P Require Import Prelude.

Inductive MessageType :=
| MsgTypeRegister
| MsgTypeRegisterOK
| MsgTypeHeartbeat
| MsgTypeError
| MsgTypeRequest
| MsgTypeResponse
| MsgTypeData
| MsgTypeDataEnd.

#[export] Instance MessageType_eq_dec : EqDecision MessageType.
Proof. solve_decision. Defined.

(** The constants; the Go type is [uint8], so a header carries any byte. *)
Definition type_code (t : MessageType) : Z :=
  match t with
  | MsgTypeRegister => 1 | MsgTypeRegisterOK => 2 | MsgTypeHeartbeat => 3 | MsgTypeError => 4
  | MsgTypeRequest => 16 | MsgTypeResponse => 17 | MsgTypeData => 18 | MsgTypeDataEnd => 19
  end.

Record MessageHeader := mkMessageHeader {
  mh_Version : Z;
  mh_Type : Z;
  mh_StreamID : Z;
  mh_Length : Z
}.

Record Message := mkMessage { msg_Header : MessageHeader; msg_Payload : bytes }.

Definition HeaderSize : nat := 10.

Definition header_bytes (h : MessageHeader) : bytes :=
  byte.of_Z (mh_Version h) :: byte.of_Z (mh_Type h) ::
  be_split 4 (mh_StreamID h) ++ be_split 4 (mh_Length h).

(** The bytes written; slicing [Payload[:Length]] beyond the payload panics. *)
Definition WriteMessage (msg : Message) : result bytes :=
  let h := msg_Header msg in
  let buf := header_bytes h in
  if (0 <? mh_Length h) && (0 <? length (msg_Payload msg))%nat then
    if Z.of_nat (length (msg_Payload msg)) <? mh_Length h then Panic
    else Ok (buf ++ take (Z.to_nat (mh_Length h)) (msg_Payload msg))
  else Ok buf.

Definition parse_header (buf : bytes) : MessageHeader :=
  mkMessageHeader (byte.unsigned (default Byte.x00 (buf !! 0%nat)))
    (byte.unsigned (default Byte.x00 (buf !! 1%nat)))
    (be_combine (take 4 (drop 2 buf))) (be_combine (take 4 (drop 6 buf))).

(** [io.ReadFull] fails when the input ends early. *)
Definition ReadMessage (input : bytes) : result (Message * bytes) :=
  if (length input <? HeaderSize)%nat then Err "read header"
  else
    let h := parse_header (take HeaderSize input) in
    let rest := drop HeaderSize input in
    if 0 <? mh_Length h then
      let n := Z.to_nat (mh_Length h) in
      if (length rest <? n)%nat then Err "read payload"
      else Ok (mkMessage h (take n rest), drop n rest)
    else Ok (mkMessage h [], rest).

(** [data] is the JSON text of the payload. *)
Definition NewControlMessage (msgType : MessageType) (streamID : Z) (data : bytes) : Message :=
  mkMessage (mkMessageHeader 1 (type_code msgType) streamID (u32 (Z.of_nat (length data)))) data.

Definition NewDataMessage (msgType : MessageType) (streamID : Z) (data : bytes) : Message :=
  mkMessage (mkMessageHeader 1 (type_code msgType) streamID (u32 (Z.of_nat (length data)))) data.

(** The loop of a reader on everything received. *)
Fixpoint read_messages (fuel : nat) (input : bytes) : list Message * bytes :=
  match fuel with
  | O => ([], input)
  | S fuel' =>
      match ReadMessage input with
      | Ok (m, rest) => let '(ms, rest') := read_messages fuel' rest in (m :: ms, rest')
      | _ => ([], input)
      end
  end.

(** ** Well-formed messages *)
Record msg_wf (m : Message) : Prop := {
  mw_version : 0 ≤ mh_Version (msg_Header m) < 2 ^ 8;
  mw_type : 0 ≤ mh_Type (msg_Header m) < 2 ^ 8;
  mw_stream : is_u32 (mh_StreamID (msg_Header m));
  mw_length : mh_Length (msg_Header m) = Z.of_nat (length (msg_Payload m));
  mw_u32 : is_u32 (mh_Length (msg_Header m))
}.

Lemma type_code_range t : 0 < type_code t < 2 ^ 8.
Proof. by destruct t. Qed.

Lemma NewDataMessage_wf t sid data :
  is_u32 sid → Z.of_nat (length data) < 2 ^ 32 → msg_wf (NewDataMessage t sid data).
Proof.
  intros Hs Hl. pose proof (type_code_range t).
  split; simpl; try lia; [done|rewrite u32_id; unfold is_u32; lia|apply u32_range].
Qed.

Lemma length_header h : length (header_bytes h) = HeaderSize.
Proof. unfold header_bytes. cbn [length]. by rewrite length_app, !length_be_split. Qed.

Lemma parse_header_bytes h :
  0 ≤ mh_Version h < 2 ^ 8 → 0 ≤ mh_Type h < 2 ^ 8 → is_u32 (mh_StreamID h) → is_u32 (mh_Length h) →
  parse_header (header_bytes h) = h.
Proof.
  intros Hv Ht Hs Hl. unfold parse_header, header_bytes.
  cbn [lookup list_lookup default drop]. rewrite drop_0. unfold id.
  rewrite take_app_length' by (by rewrite length_be_split).
  rewrite drop_app_length' by (by rewrite length_be_split).
  rewrite (take_ge (be_split 4 (mh_Length h))) by (by rewrite length_be_split).
  rewrite !be_combine_split, !byte.unsigned_of_Z. destruct h as [v t s l]. simpl in *.
  unfold byte.wrap, is_u32 in *. rewrite !Z.mod_small by lia. done.
Qed.

Lemma write_wf m : msg_wf m → WriteMessage m = Ok (header_bytes (msg_Header m) ++ msg_Payload m).
Proof.
  intros [_ _ _ Hl _]. unfold WriteMessage. rewrite Hl, Nat2Z.id.
  destruct (msg_Payload m) as [|b p] eqn:E; [by rewrite app_nil_r|].
  destruct (0 <? Z.of_nat (length (b :: p))) eqn:E1; bool_to_prop; [|simpl in *; lia].
  rewrite Z.ltb_irrefl. simpl andb. cbv iota. by rewrite firstn_all.
Qed.

Lemma read_wf m rest :
  msg_wf m → ReadMessage (header_bytes (msg_Header m) ++ msg_Payload m ++ rest) = Ok (m, rest).
Proof.
  intros [Hv Ht Hs Hl Hu]. unfold ReadMessage.
  rewrite (take_app_length' (header_bytes (msg_Header m))) by (apply (length_header (msg_Header m))).
  rewrite (drop_app_length' (header_bytes (msg_Header m))) by (apply (length_header (msg_Header m))).
  rewrite parse_header_bytes by done.
  destruct (length _ <? HeaderSize)%nat eqn:E; bool_to_prop.
  { rewrite length_app, length_header in E. lia. }
  rewrite Hl, Nat2Z.id. rewrite length_app.
  destruct (0 <? Z.of_nat (length (msg_Payload m))) eqn:E1; bool_to_prop.
  - destruct (_ <? length (msg_Payload m))%nat eqn:E2; bool_to_prop; [lia|].
    rewrite take_app_length, drop_app_length. by destruct m.
  - destruct (msg_Payload m) as [|b p] eqn:Ep; [|simpl in *; lia]. destruct m. simpl in *. by subst.
Qed.

(** ** Truncated input *)
Lemma read_prefix_fails m input :
  msg_wf m → input `prefix_of` header_bytes (msg_Header m) ++ msg_Payload m →
  (length input < HeaderSize + length (msg_Payload m))%nat →
  ReadMessage input = Err "read header" ∨ ReadMessage input = Err "read payload".
Proof.
  intros Hwf [more Hm] Hlen. pose proof Hwf as [Hv Ht Hs Hl Hu]. unfold ReadMessage.
  destruct (length input <? HeaderSize)%nat eqn:E; [by left|right]. bool_to_prop.
  assert (take HeaderSize input = header_bytes (msg_Header m)) as ->.
  { rewrite <- (take_app_le input more) by done. rewrite <- Hm.
    by rewrite (take_app_length' (header_bytes (msg_Header m))) by (apply (length_header (msg_Header m))). }
  rewrite parse_header_bytes, Hl, Nat2Z.id by done.
  destruct (0 <? Z.of_nat (length (msg_Payload m))) eqn:E1; bool_to_prop; [|lia].
  destruct (length (drop HeaderSize input) <? length (msg_Payload m))%nat eqn:E2; [done|].
  bool_to_prop. rewrite length_drop in E2. lia.
Qed.

(** ** Streams of messages *)
Definition message_bytes (m : Message) : bytes := header_bytes (msg_Header m) ++ msg_Payload m.

Lemma read_written ms rest :
  Forall msg_wf ms → ReadMessage rest = Err "read header" ∨ ReadMessage rest = Err "read payload" →
  read_messages (S (length ms)) (mjoin (message_bytes <$> ms) ++ rest) = (ms, rest).
Proof.
  intros Hwf Hrest. induction Hwf as [|m ms Hm Hms IH].
  - change (read_messages 1 rest = ([], rest)). cbn [read_messages]. by destruct Hrest as [-> | ->].
  - change (length (m :: ms)) with (S (length ms)). remember (S (length ms)) as fuel. cbn [fmap list_fmap].
    change (mjoin (?x :: ?l)) with (x ++ mjoin l). unfold message_bytes at 1. rewrite <- !app_assoc.
    cbn [read_messages]. rewrite read_wf by done. by rewrite IH.
Qed.

Lemma written_bytes ms wire :
  Forall msg_wf ms → mapM (λ m, match WriteMessage m with Ok b => Some b | _ => None end) ms = Some wire →
  wire = message_bytes <$> ms.
Proof.
  intros Hwf. revert wire. induction Hwf as [|m ms Hm Hms IH]; intros wire Hw; [by injection Hw as <-|].
  cbn [mapM] in Hw. rewrite write_wf in Hw by done. cbn [mbind option_bind] in Hw.
  destruct (mapM _ ms) as [w|] eqn:Ew; [|done]. apply (inj Some) in Hw as <-. by rewrite (IH w eq_refl).
Qed.

(** ** Properties *)

(** C32 (roundtrip): the messages written to a connection, one after the other and
    followed by any bytes of a message still under way, are read back as the same
    messages in the same order, and exactly the remaining bytes are left. *)
Theorem tunnel_messages_roundtrip ms rest wire :
  Forall msg_wf ms →
  mapM (λ m, match WriteMessage m with Ok b => Some b | _ => None end) ms = Some wire →
  ReadMessage rest = Err "read header" ∨ ReadMessage rest = Err "read payload" →
  read_messages (S (length ms)) (mjoin wire ++ rest) = (ms, rest).
Proof.
  intros Hwf Hw Hrest. rewrite (written_bytes ms wire) by done. by apply read_written.
Qed.

(** An input that ends inside a message is an error, never a message. *)
Theorem tunnel_read_truncated m wire n :
  msg_wf m → WriteMessage m = Ok wire → (n < length wire)%nat →
  ReadMessage (take n wire) = Err "read header" ∨ ReadMessage (take n wire) = Err "read payload".
Proof.
  intros Hwf Hw Hn. rewrite write_wf in Hw by done.
  assert (wire = header_bytes (msg_Header m) ++ msg_Payload m) as -> by congruence.
  apply (read_prefix_fails m); [done|apply prefix_take|].
  rewrite length_take, length_app, length_header in *. lia.
Qed.

(** ** Witnesses *)
Definition demo_msgs : list Message :=
  [NewDataMessage MsgTypeData 7 [Byte.x41; Byte.x42]; NewDataMessage MsgTypeDataEnd 7 []].

Lemma demo_msgs_wf : Forall msg_wf demo_msgs.
Proof.
  do 2 (constructor; [apply NewDataMessage_wf; [unfold is_u32; lia|simpl; lia]|]). constructor.
Qed.

Lemma tunnel_messages_roundtrip_witness :
  read_messages 3 ([Byte.x01; Byte.x12; Byte.x00; Byte.x00; Byte.x00; Byte.x07;
                    Byte.x00; Byte.x00; Byte.x00; Byte.x02; Byte.x41; Byte.x42;
                    Byte.x01; Byte.x13; Byte.x00; Byte.x00; Byte.x00; Byte.x07;
                    Byte.x00; Byte.x00; Byte.x00; Byte.x00] ++ [Byte.x01])
  = (demo_msgs, [Byte.x01]).
Proof.
  apply (tunnel_messages_roundtrip demo_msgs [Byte.x01]
    [[Byte.x01; Byte.x12; Byte.x00; Byte.x00; Byte.x00; Byte.x07;
      Byte.x00; Byte.x00; Byte.x00; Byte.x02; Byte.x41; Byte.x42];
     [Byte.x01; Byte.x13; Byte.x00; Byte.x00; Byte.x00; Byte.x07;
      Byte.x00; Byte.x00; Byte.x00; Byte.x00]]).
  - exact demo_msgs_wf.
  - vm_compute. reflexivity.
  - left. reflexivity.
Defined.

Lemma tunnel_read_truncated_witness :
  ReadMessage (take 11 (header_bytes (mkMessageHeader 1 18 7 2) ++ [Byte.x41; Byte.x42]))
    = Err "read header" ∨
  ReadMessage (take 11 (header_bytes (mkMessageHeader 1 18 7 2) ++ [Byte.x41; Byte.x42]))
    = Err "read payload".
Proof.
  apply (tunnel_read_truncated (NewDataMessage MsgTypeData 7 [Byte.x41; Byte.x42])).
  - apply NewDataMessage_wf; [unfold is_u32; lia|simpl; lia].
  - vm_compute. reflexivity.
  - vm_compute. lia.
Defined.
