(* ===== verification/TunnelServer.v ===== *)
(** * Tunnel sessions on the gateway ([internal/tunnel/tunnel.go], [server.go])

    A NAT node keeps one connection to the gateway; [TunnelManager] maps node ids to
    [TunnelSession] pointers, a session multiplexes HTTP exchanges as [Stream]s.
    Sessions live in a store (the manager, the message loop and running requests
    all hold pointers to them); the streams a session ever created live in a store
    of the session, because a request keeps its [Stream] after it left the map.

    The goroutines of a session are interleaved step by step: the message loop
    (which may block on a full channel while it holds a stream), the requests
    ([ForwardRequest], begun and answered), the readers of response bodies, and the
    shutdown.  A channel of capacity one is a list of at most one message; a closed
    [Done] channel is a flag, and closing it twice is a panic.

    The theorems: no interleaving closes a channel twice; the manager refines the
    set of connected nodes; a response body is cut off after at most two data
    messages, because [ForwardRequest] removes its stream when it returns; what
    does reach the body reader is read in full and in order. *)

From S2P Require Import Prelude TunnelCodec.

Record Stream := mkStream {
  str_ID : Z;
  str_Response : list Message;   (* make(chan *Message, 1) *)
  str_Done : bool                (* close(Done) *)
}.

Record TunnelSession := mkTunnelSession {
  ts_TunnelID : string;
  ts_NodeID : string;
  ts_ServiceAddr : string;
  ts_ExternalAddr : string;
  ts_Streams : gmap Z nat;
  ts_closed : bool;
  ts_connClosed : bool;
  ts_out : list Message;               (* messages written to the connection *)
  ts_pending : option (nat * Message); (* the send the message loop is blocked in *)
  ts_store : gmap nat Stream;
  ts_next : nat
}.

Definition NewTunnelSession (tunnelID nodeID serviceAddr externalAddr : string) : TunnelSession :=
  mkTunnelSession tunnelID nodeID serviceAddr externalAddr ∅ false false [] None ∅ 0.

Definition set_streams (s : TunnelSession) m store next : TunnelSession :=
  mkTunnelSession (ts_TunnelID s) (ts_NodeID s) (ts_ServiceAddr s) (ts_ExternalAddr s) m
    (ts_closed s) (ts_connClosed s) (ts_out s) (ts_pending s) store next.
Definition set_pending (s : TunnelSession) p : TunnelSession :=
  mkTunnelSession (ts_TunnelID s) (ts_NodeID s) (ts_ServiceAddr s) (ts_ExternalAddr s) (ts_Streams s)
    (ts_closed s) (ts_connClosed s) (ts_out s) p (ts_store s) (ts_next s).
Definition set_closed (s : TunnelSession) : TunnelSession :=
  mkTunnelSession (ts_TunnelID s) (ts_NodeID s) (ts_ServiceAddr s) (ts_ExternalAddr s) (ts_Streams s)
    true true (ts_out s) (ts_pending s) (ts_store s) (ts_next s).
Definition write_out (s : TunnelSession) (ms : list Message) : TunnelSession :=
  mkTunnelSession (ts_TunnelID s) (ts_NodeID s) (ts_ServiceAddr s) (ts_ExternalAddr s) (ts_Streams s)
    (ts_closed s) (ts_connClosed s) (ts_out s ++ ms) (ts_pending s) (ts_store s) (ts_next s).

(** ** Operations of a session *)

(** [close(stream.Done)]. *)
Definition close_done (store : gmap nat Stream) (r : nat) : result (gmap nat Stream) :=
  match store !! r with
  | Some st => if str_Done st then Panic else Ok (<[r := mkStream (str_ID st) (str_Response st) true]> store)
  | None => Panic
  end.

(** Returns the pointer of the new stream. *)
Definition TunnelSession_CreateStream (s : TunnelSession) (streamID : Z) : nat * TunnelSession :=
  let r := ts_next s in
  (r, set_streams s (<[streamID := r]> (ts_Streams s))
        (<[r := mkStream streamID [] false]> (ts_store s)) (S r)).

Definition TunnelSession_GetStream (s : TunnelSession) (streamID : Z) : option nat :=
  ts_Streams s !! streamID.

Definition TunnelSession_RemoveStream (s : TunnelSession) (streamID : Z) : result TunnelSession :=
  match ts_Streams s !! streamID with
  | Some r =>
      let! store := close_done (ts_store s) r in
      Ok (set_streams s (delete streamID (ts_Streams s)) store (ts_next s))
  | None => Ok s
  end.

Fixpoint close_all (store : gmap nat Stream) (rs : list nat) : result (gmap nat Stream) :=
  match rs with
  | [] => Ok store
  | r :: rs' => let! store' := close_done store r in close_all store' rs'
  end.

Definition TunnelSession_Close (s : TunnelSession) : result TunnelSession :=
  if ts_closed s then Ok s
  else
    let! store := close_all (ts_store s) (map_to_list (ts_Streams s)).*2 in
    Ok (set_closed (set_streams s ∅ store (ts_next s))).

(** ** The goroutines *)

(** One turn of [Server.messageLoop] on a message read from the connection. *)
Definition loop_receive (s : TunnelSession) (msg : Message) : result TunnelSession :=
  let t := mh_Type (msg_Header msg) in
  let sid := mh_StreamID (msg_Header msg) in
  if t =? type_code MsgTypeHeartbeat then
    Ok (write_out s [NewControlMessage MsgTypeHeartbeat 0 (bytes_of_string "null")])
  else if (t =? type_code MsgTypeResponse) || (t =? type_code MsgTypeData) then
    match TunnelSession_GetStream s sid with
    | Some r => Ok (set_pending s (Some (r, msg)))
    | None => Ok s
    end
  else if t =? type_code MsgTypeDataEnd then TunnelSession_RemoveStream s sid
  else Ok s.

(** The blocked send [stream.Response <- msg] goes through. *)
Definition loop_send (s : TunnelSession) : option TunnelSession :=
  match ts_pending s with
  | Some (r, msg) =>
      match ts_store s !! r with
      | Some st =>
          if (length (str_Response st) <? 1)%nat then
            Some (set_pending
              (set_streams s (ts_Streams s)
                 (<[r := mkStream (str_ID st) (str_Response st ++ [msg]) (str_Done st)]> (ts_store s))
                 (ts_next s)) None)
          else None
      | None => None
      end
  | None => None
  end.

(** [ForwardRequest] up to the wait: [req] is the JSON of the request header and
    [chunks] are the pieces [body.Read] returned ([None]: no body). *)
Definition forward_begin (s : TunnelSession) (streamID : Z) (req : bytes) (chunks : option (list bytes))
    : nat * TunnelSession :=
  let '(r, s1) := TunnelSession_CreateStream s streamID in
  let body :=
    match chunks with
    | None => []
    | Some cs => (NewDataMessage MsgTypeData streamID <$> filter (λ c, c ≠ []) cs)
                 ++ [NewDataMessage MsgTypeDataEnd streamID []]
    end in
  (r, write_out s1 (NewControlMessage MsgTypeRequest streamID req :: body)).

(** Take a message out of the channel. *)
Definition recv (s : TunnelSession) (r : nat) : option (Message * TunnelSession) :=
  match ts_store s !! r with
  | Some st =>
      match str_Response st with
      | m :: rest =>
          Some (m, set_streams s (ts_Streams s)
                     (<[r := mkStream (str_ID st) rest (str_Done st)]> (ts_store s)) (ts_next s))
      | [] => None
      end
  | None => None
  end.

(** The answer arrives; [defer session.RemoveStream(streamID)] runs on return. *)
Definition forward_answer (s : TunnelSession) (r : nat) (streamID : Z) : option (Message * result TunnelSession) :=
  match recv s r with
  | Some (m, s1) => Some (m, TunnelSession_RemoveStream s1 streamID)
  | None => None
  end.

(** The wait ends without an answer (a timeout or a write error). *)
Definition forward_abort (s : TunnelSession) (streamID : Z) : result TunnelSession :=
  TunnelSession_RemoveStream s streamID.

(** ** Interleavings *)
Inductive sess_step (s : TunnelSession) : result TunnelSession → Prop :=
| ss_receive msg : ts_pending s = None → sess_step s (loop_receive s msg)
| ss_send s' : loop_send s = Some s' → sess_step s (Ok s')
| ss_begin sid req chunks : sess_step s (Ok (forward_begin s sid req chunks).2)
| ss_answer r sid m x : forward_answer s r sid = Some (m, x) → sess_step s x
| ss_abort sid : sess_step s (forward_abort s sid)
| ss_read r m s' : recv s r = Some (m, s') → sess_step s (Ok s')
| ss_close : sess_step s (TunnelSession_Close s).

(** The streams of the map are open, in the store and pairwise different. *)
Record sess_ok (s : TunnelSession) : Prop := {
  so_open : ∀ sid r, ts_Streams s !! sid = Some r →
    ∃ st, ts_store s !! r = Some st ∧ str_Done st = false;
  so_inj : ∀ sid sid' r, ts_Streams s !! sid = Some r → ts_Streams s !! sid' = Some r → sid = sid';
  so_next : ∀ r, is_Some (ts_store s !! r) → (r < ts_next s)%nat
}.

Lemma NewTunnelSession_ok a b c d : sess_ok (NewTunnelSession a b c d).
Proof. split; simpl; intros *; rewrite !lookup_empty; done. Qed.

(** Replacing a stream of the store by one with the same [Done] keeps the invariant. *)
Lemma sess_ok_update s r st st' :
  sess_ok s → ts_store s !! r = Some st → str_Done st' = str_Done st →
  sess_ok (set_streams s (ts_Streams s) (<[r := st']> (ts_store s)) (ts_next s)).
Proof.
  intros [H1 H2 H3] Hr Hd. split; simpl; [|done|].
  - intros sid r' Hs. destruct (H1 _ _ Hs) as (st0 & Hst0 & Hopen).
    destruct (decide (r' = r)) as [->|Hne].
    + rewrite lookup_insert_eq. exists st'. split; [done|]. congruence.
    + rewrite lookup_insert_ne by done. by exists st0.
  - intros r' Hr'. rewrite lookup_insert in Hr'. case_decide; subst; apply H3; [by eexists|done].
Qed.

Lemma sess_ok_pending s p : sess_ok s → sess_ok (set_pending s p).
Proof. by intros [H1 H2 H3]. Qed.
Lemma sess_ok_write s ms : sess_ok s → sess_ok (write_out s ms).
Proof. by intros [H1 H2 H3]. Qed.
Lemma sess_ok_closed s : sess_ok s → sess_ok (set_closed s).
Proof. by intros [H1 H2 H3]. Qed.

Lemma RemoveStream_ok s sid :
  sess_ok s → ∃ s', TunnelSession_RemoveStream s sid = Ok s' ∧ sess_ok s' ∧
    ts_Streams s' = delete sid (ts_Streams s).
Proof.
  intros [H1 H2 H3]. unfold TunnelSession_RemoveStream.
  destruct (ts_Streams s !! sid) as [r|] eqn:Er.
  2:{ exists s. split; [done|]. split; [by split|]. by rewrite delete_id. }
  destruct (H1 _ _ Er) as (st & Hst & Hopen). unfold close_done. rewrite Hst, Hopen.
  eexists. split; [reflexivity|]. split; [|done]. split; simpl.
  - intros sid' r' [Hne Hs]%lookup_delete_Some. destruct (H1 _ _ Hs) as (st' & Hst' & Ho').
    exists st'. split; [|done]. rewrite lookup_insert_ne; [done|]. intros ->. apply Hne. by eapply H2.
  - intros a b r' [_ Ha]%lookup_delete_Some [_ Hb]%lookup_delete_Some. by eapply H2.
  - intros r' Hr'. rewrite lookup_insert in Hr'. case_decide; subst; apply H3; [by eexists|done].
Qed.

Lemma CreateStream_ok s sid : sess_ok s → sess_ok (TunnelSession_CreateStream s sid).2.
Proof.
  intros [H1 H2 H3]. split; simpl.
  - intros sid' r. rewrite lookup_insert. case_decide as Hd; intros Hs; simplify_eq.
    + rewrite lookup_insert_eq. by eexists.
    + destruct (H1 _ _ Hs) as (st & Hst & Ho). exists st. split; [|done].
      rewrite lookup_insert_ne; [done|]. intros <-. assert (ts_next s < ts_next s)%nat by (apply H3; by eexists). lia.
  - assert (Hfresh : ∀ sid' r, ts_Streams s !! sid' = Some r → r ≠ ts_next s).
    { intros sid' r (st & Hst & _)%H1 ->. assert (ts_next s < ts_next s)%nat by (apply H3; by eexists). lia. }
    intros a b r. rewrite !lookup_insert. repeat case_decide; intros; simplify_eq; try done; eauto;
      exfalso; by eapply Hfresh.
  - intros r Hr. rewrite lookup_insert in Hr. case_decide; subst; [lia|]. apply H3 in Hr. lia.
Qed.

Lemma close_all_ok rs store :
  NoDup rs → (∀ r, r ∈ rs → ∃ st, store !! r = Some st ∧ str_Done st = false) →
  ∃ store', close_all store rs = Ok store' ∧ dom store' = dom store.
Proof.
  revert store. induction rs as [|r rs IH]; intros store Hnd Hopen; cbn [close_all]; [by eauto|].
  apply NoDup_cons in Hnd as [Hni Hnd].
  destruct (Hopen r) as (st & Hst & Ho); [left|]. unfold close_done at 1. rewrite Hst, Ho. simpl.
  destruct (IH (<[r := mkStream (str_ID st) (str_Response st) true]> store)) as (store' & -> & Hd); [done| |].
  - intros r' Hr'. rewrite lookup_insert_ne by (intros ->; done). apply Hopen. by right.
  - exists store'. split; [done|]. rewrite Hd, dom_insert_L.
    assert (r ∈ dom store) by (apply elem_of_dom; by eexists). set_solver.
Qed.

Lemma Close_ok s : sess_ok s → ∃ s', TunnelSession_Close s = Ok s' ∧ sess_ok s' ∧ ts_closed s' = true.
Proof.
  intros Hs. pose proof Hs as [H1 H2 H3]. unfold TunnelSession_Close.
  destruct (ts_closed s) eqn:Ec; [by eauto|].
  destruct (close_all_ok (map_to_list (ts_Streams s)).*2 (ts_store s)) as (store & -> & Hd).
  - apply NoDup_fmap_2_strong; [|apply NoDup_map_to_list].
    intros [a r] [b r'] Ha Hb Heq. simpl in Heq. subst r'.
    apply elem_of_map_to_list in Ha, Hb. by rewrite (H2 _ _ _ Ha Hb).
  - intros r ([sid r'] & -> & Hin)%list_elem_of_fmap. apply elem_of_map_to_list in Hin. by eapply H1.
  - simpl. eexists. split; [reflexivity|]. split; [|done]. split; simpl.
    + intros *. by rewrite lookup_empty.
    + intros *. by rewrite lookup_empty.
    + intros r Hr%elem_of_dom. rewrite Hd in Hr. by apply H3, elem_of_dom.
Qed.

Lemma recv_ok s r m s' : sess_ok s → recv s r = Some (m, s') → sess_ok s'.
Proof.
  intros Hs. unfold recv. destruct (ts_store s !! r) as [st|] eqn:Er; [|done].
  destruct (str_Response st); [done|]. intros [= <- <-]. by eapply sess_ok_update.
Qed.

(** No step panics, and every step keeps the invariant. *)
Lemma sess_step_ok s x : sess_ok s → sess_step s x → ∃ s', x = Ok s' ∧ sess_ok s'.
Proof.
  intros Hs Hstep.
  destruct Hstep as [msg Hp|s' Hsend|sid req chunks|r sid m x Ha|sid|r m s' Hr|].
  - unfold loop_receive. repeat case_match; eauto using sess_ok_write, sess_ok_pending.
    destruct (RemoveStream_ok s (mh_StreamID (msg_Header msg)) Hs) as (s' & ? & ? & _). eauto.
  - exists s'. split; [done|]. revert Hsend. unfold loop_send. repeat case_match; try done.
    intros [= <-]. apply sess_ok_pending. by eapply sess_ok_update.
  - eexists. split; [reflexivity|]. unfold forward_begin.
    pose proof (CreateStream_ok s sid Hs) as Hc.
    destruct (TunnelSession_CreateStream s sid). by apply sess_ok_write.
  - unfold forward_answer in Ha. destruct (recv s r) as [[m' s1]|] eqn:Er; [|done]. simplify_eq.
    destruct (RemoveStream_ok s1 sid) as (s' & ? & ? & _); [by eapply recv_ok|]. eauto.
  - destruct (RemoveStream_ok s sid Hs) as (s' & ? & ? & _). eauto.
  - exists s'. split; [done|]. by eapply recv_ok.
  - destruct (Close_ok s Hs) as (s' & ? & ? & _). eauto.
Qed.

(** Runs of a session. *)
Inductive sess_run (s0 : TunnelSession) : result TunnelSession → Prop :=
| sr_start : sess_run s0 (Ok s0)
| sr_step s x : sess_run s0 (Ok s) → sess_step s x → sess_run s0 x.

(** ** Reading the body of a response *)
Record tunnelBodyReader := mkBodyReader { rd_remain : Z; rd_buf : bytes }.

Inductive readOutcome := ReadBytes (b : bytes) | ReadEOF | ReadError.

(** [Read(p)] with [len(p) = plen]; [arriving] are the messages the channel will
    still deliver, after which [Done] is closed. *)
Definition tunnelBodyReader_Read (rd : tunnelBodyReader) (plen : nat) (arriving : list Message)
    : readOutcome * tunnelBodyReader * list Message :=
  if (rd_remain rd <=? 0) && (length (rd_buf rd) =? 0)%nat then (ReadEOF, rd, arriving)
  else if (0 <? length (rd_buf rd))%nat then
    (ReadBytes (take plen (rd_buf rd)), mkBodyReader (rd_remain rd) (drop plen (rd_buf rd)), arriving)
  else
    match arriving with
    | [] => (ReadEOF, rd, [])
    | msg :: rest =>
        let t := mh_Type (msg_Header msg) in
        if t =? type_code MsgTypeData then
          (ReadBytes (take plen (msg_Payload msg)),
           mkBodyReader (rd_remain rd - Z.of_nat (length (msg_Payload msg))) (drop plen (msg_Payload msg)),
           rest)
        else if t =? type_code MsgTypeDataEnd then (ReadEOF, rd, rest)
        else (ReadError, rd, rest)
    end.

(** [io.Copy] from the reader with a buffer of [plen] bytes. *)
Fixpoint copy_body (fuel plen : nat) (rd : tunnelBodyReader) (arriving : list Message)
    : option (bytes * readOutcome) :=
  match fuel with
  | O => None
  | S fuel' =>
      match tunnelBodyReader_Read rd plen arriving with
      | (ReadBytes b, rd', rest) =>
          match copy_body fuel' plen rd' rest with
          | Some (bs, out) => Some (b ++ bs, out)
          | None => None
          end
      | (out, _, _) => Some ([], out)
      end
  end.

Definition is_data (m : Message) : Prop := mh_Type (msg_Header m) = type_code MsgTypeData.
Definition payloads (ms : list Message) : bytes := mjoin (msg_Payload <$> ms).

(** The reader stops at the announced length, whatever follows. *)
Lemma copy_body_tail fuel plen buf ms tail :
  (0 < plen)%nat → Forall is_data ms → Forall (λ m, msg_Payload m ≠ []) ms →
  (length buf + length (payloads ms) + length ms < fuel)%nat →
  copy_body fuel plen (mkBodyReader (Z.of_nat (length (payloads ms))) buf) (ms ++ tail) =
    Some (buf ++ payloads ms, ReadEOF).
Proof.
  intros Hp. revert buf ms. induction fuel as [|fuel IH]; intros buf ms Hd Hne Hf; [lia|].
  cbn [copy_body]. unfold tunnelBodyReader_Read. cbn [rd_remain rd_buf].
  destruct buf as [|b buf].
  - destruct ms as [|m ms]; [done|]. cbn [app].
    apply Forall_cons in Hd as [Hm Hd]. apply Forall_cons in Hne as [Hn Hne].
    assert (payloads (m :: ms) = msg_Payload m ++ payloads ms) as Hpl by done.
    rewrite Hpl in *. rewrite length_app in *.
    destruct (msg_Payload m) as [|b p] eqn:Em; [done|].
    destruct (_ <=? 0) eqn:E; bool_to_prop; [simpl in *; lia|]. cbn [andb].
    change (0 <? length (@nil Init.Byte.byte))%nat with false. cbv iota.
    unfold is_data in Hm. rewrite Hm, Z.eqb_refl.
    replace (Z.of_nat (length (b :: p) + length (payloads ms)) - Z.of_nat (length (b :: p)))
      with (Z.of_nat (length (payloads ms))) by lia.
    rewrite IH; [|done..|]; [by rewrite app_assoc, take_drop|].
    rewrite length_drop. simpl in *. lia.
  - change (length (b :: buf) =? 0)%nat with false. rewrite andb_false_r.
    change (0 <? length (b :: buf))%nat with true. cbv iota.
    rewrite IH; [|done..|]; [by rewrite app_assoc, take_drop|]. rewrite length_drop. simpl in *. lia.
Qed.

Lemma copy_body_all fuel plen buf ms :
  (0 < plen)%nat → Forall is_data ms → Forall (λ m, msg_Payload m ≠ []) ms →
  (length buf + length (payloads ms) + length ms < fuel)%nat →
  copy_body fuel plen (mkBodyReader (Z.of_nat (length (payloads ms))) buf) ms =
    Some (buf ++ payloads ms, ReadEOF).
Proof. intros. rewrite <- (app_nil_r ms) at 2. by apply copy_body_tail. Qed.

(** ** What a reader can still receive after [ForwardRequest] returned *)
Definition cap_ok (s : TunnelSession) : Prop :=
  ∀ r st, ts_store s !! r = Some st → (length (str_Response st) ≤ 1)%nat.

(** Messages in the channel of [r] and in a send blocked on it. *)
Definition deliverable (s : TunnelSession) (r : nat) : nat :=
  (match ts_store s !! r with Some st => length (str_Response st) | None => 0 end +
   match ts_pending s with Some (r', _) => if decide (r' = r) then 1 else 0 | None => 0 end)%nat.

Definition detached (s : TunnelSession) (r : nat) : Prop :=
  (∀ sid, ts_Streams s !! sid ≠ Some r) ∧ (r < ts_next s)%nat.

(** Interleavings in which a reader of [r] receives the messages [ms]. *)
Inductive reads_run (s0 : TunnelSession) (r : nat) : list Message → TunnelSession → Prop :=
| rr_start : reads_run s0 r [] s0
| rr_step ms s s' : reads_run s0 r ms s → sess_step s (Ok s') → reads_run s0 r ms s'
| rr_read ms s m s' : reads_run s0 r ms s → recv s r = Some (m, s') → reads_run s0 r (ms ++ [m]) s'.

(** What [close(Done)] and new streams leave alone. *)
Definition same_channel (s s' : TunnelSession) (r : nat) : Prop :=
  (str_Response <$> ts_store s' !! r) = (str_Response <$> ts_store s !! r).

Lemma same_channel_len s s' r :
  same_channel s s' r →
  match ts_store s' !! r with Some st => length (str_Response st) | None => 0%nat end =
  match ts_store s !! r with Some st => length (str_Response st) | None => 0%nat end.
Proof.
  unfold same_channel. destruct (ts_store s !! r), (ts_store s' !! r); simpl; intros; simplify_eq; congruence.
Qed.

Lemma close_done_channel store r store' r' :
  close_done store r = Ok store' → str_Response <$> store' !! r' = str_Response <$> store !! r'.
Proof.
  unfold close_done. destruct (store !! r) as [st|] eqn:E; [|done].
  destruct (str_Done st); [done|]. intros [= <-]. rewrite lookup_insert.
  case_decide; [subst; by rewrite E|done].
Qed.

Lemma close_all_channel rs store store' r' :
  close_all store rs = Ok store' → str_Response <$> store' !! r' = str_Response <$> store !! r'.
Proof.
  revert store. induction rs as [|r rs IH]; intros store; cbn [close_all]; [by intros [= <-]|].
  destruct (close_done store r) as [store1| |] eqn:E; [|done..]. simpl. intros H%IH.
  rewrite H. by eapply close_done_channel.
Qed.

Lemma RemoveStream_frame s sid s' r :
  TunnelSession_RemoveStream s sid = Ok s' →
  same_channel s s' r ∧ ts_pending s' = ts_pending s ∧ ts_next s' = ts_next s ∧
  ts_Streams s' = delete sid (ts_Streams s).
Proof.
  unfold TunnelSession_RemoveStream. destruct (ts_Streams s !! sid) as [r0|] eqn:E.
  - destruct (close_done _ _) as [store| |] eqn:Ec; [|done..]. simpl. intros [= <-].
    split_and!; try done. by eapply close_done_channel.
  - intros [= <-]. split_and!; try done. by rewrite delete_id.
Qed.

Lemma deliverable_frame s s' r :
  same_channel s s' r → ts_pending s' = ts_pending s → deliverable s' r = deliverable s r.
Proof. intros Hc Hp. unfold deliverable. by rewrite (same_channel_len s s'), Hp. Qed.

Lemma detached_sub s s' r :
  ts_Streams s' ⊆ ts_Streams s → ts_next s' = ts_next s → detached s r → detached s' r.
Proof.
  intros Hsub Hn [Hd Hr]. split; [|by rewrite Hn].
  intros sid Hs. apply (Hd sid). by eapply lookup_weaken.
Qed.

Lemma recv_frame s r m s' r' :
  recv s r = Some (m, s') →
  ts_Streams s' = ts_Streams s ∧ ts_next s' = ts_next s ∧
  (deliverable s' r' + (if decide (r' = r) then 1 else 0) = deliverable s r')%nat.
Proof.
  unfold recv. destruct (ts_store s !! r) as [st|] eqn:Er; [|done].
  destruct (str_Response st) as [|m0 rest] eqn:Em; [done|]. intros [= <- <-]. split_and!; [done..|].
  unfold deliverable. simpl. rewrite lookup_insert.
  destruct (decide (r = r')) as [->|Hne].
  - rewrite decide_True, Er, Em by done. simpl. lia.
  - rewrite decide_False by done. lia.
Qed.

Lemma sess_step_detached s s' r :
  sess_step s (Ok s') → detached s r → detached s' r ∧ (deliverable s' r ≤ deliverable s r)%nat.
Proof.
  intros Hstep Hd. remember (Ok s') as x eqn:Hx. revert Hx.
  destruct Hstep as [msg Hp|s1 Hsend|sid req chunks|r1 sid m x Ha|sid|r1 m s1 Hr|]; intros Hx.
  - unfold loop_receive in Hx. repeat case_match; simplify_eq; try (split; [done|unfold deliverable; simpl; lia]).
    + split; [done|]. unfold deliverable. simpl. rewrite Hp. case_decide as Hr; [|lia]. subst.
      exfalso. by eapply Hd.
    + eapply (RemoveStream_frame _ _ _ r) in Hx as (Hc & Hpe & Hn & Hm). split.
      * eapply detached_sub; [rewrite Hm; apply delete_subseteq|done..].
      * by rewrite (deliverable_frame s s').
  - simplify_eq. revert Hsend. unfold loop_send.
    destruct (ts_pending s) as [[r0 msg]|] eqn:Ep; [|done].
    destruct (ts_store s !! r0) as [st|] eqn:Es; [|done]. case_match; [|done]. intros [= <-].
    split; [done|]. unfold deliverable. simpl. rewrite Ep, lookup_insert.
    destruct (decide (r0 = r)) as [->|Hne]; [|lia]. rewrite Es. simpl. rewrite length_app. simpl. lia.
  - simplify_eq. unfold forward_begin. simpl. destruct Hd as [Hd Hr]. split; [split|]; simpl; [|lia|].
    + intros sid' Hs. rewrite lookup_insert in Hs. case_decide; simplify_eq; [lia|by eapply Hd].
    + unfold deliverable. simpl. rewrite lookup_insert_ne by lia. done.
  - unfold forward_answer in Ha. destruct (recv s r1) as [[m1 s1]|] eqn:Er; [|done]. simplify_eq.
    eapply (recv_frame _ _ _ _ r) in Er as (E1 & E2 & E3).
    eapply (RemoveStream_frame _ _ _ r) in H0 as (Hc & Hpe & Hn & Hm). split.
    + eapply detached_sub; [rewrite Hm, E1; apply delete_subseteq|congruence|done].
    + rewrite (deliverable_frame s1 s') by done. lia.
  - unfold forward_abort in Hx. eapply (RemoveStream_frame _ _ _ r) in Hx as (Hc & Hpe & Hn & Hm). split.
    + eapply detached_sub; [rewrite Hm; apply delete_subseteq|done..].
    + by rewrite (deliverable_frame s s').
  - simplify_eq. eapply (recv_frame _ _ _ _ r) in Hr as (E1 & E2 & E3). split; [|lia].
    eapply detached_sub; [by rewrite E1|done..].
  - unfold TunnelSession_Close in Hx. destruct (ts_closed s); [by simplify_eq|].
    destruct (close_all _ _) as [store| |] eqn:Ec; [|done..]. simpl in Hx. simplify_eq. split.
    + split; simpl; [|apply Hd]. intros sid. by rewrite lookup_empty.
    + unfold deliverable. simpl. apply (close_all_channel _ _ _ r) in Ec.
      destruct (store !! r), (ts_store s !! r); simpl in *; simplify_eq; [|lia].
      rewrite Ec. lia.
Qed.

Lemma reads_run_bound s0 r ms s :
  reads_run s0 r ms s → detached s0 r →
  detached s r ∧ (length ms + deliverable s r ≤ deliverable s0 r)%nat.
Proof.
  intros Hrun Hd. induction Hrun as [|ms s s' _ [IHd IH] Hs|ms s m s' _ [IHd IH] Hr].
  - split; [done|]. simpl. lia.
  - apply (sess_step_detached s s' r) in Hs as [? ?]; [|done]. split; [done|lia].
  - apply (recv_frame _ _ _ _ r) in Hr as (E1 & E2 & E3). rewrite decide_True in E3 by done.
    split; [|rewrite length_app; simpl; lia]. eapply detached_sub; [by rewrite E1|done..].
Qed.

(** ** The manager *)
Record TunnelManager := mkTunnelManager {
  tm_tunnels : gmap string nat;
  tm_sessions : gmap nat TunnelSession;
  tm_next : nat
}.

Definition NewTunnelManager : TunnelManager := mkTunnelManager ∅ ∅ 0.

Definition TunnelManager_Register (m : TunnelManager) (sref : nat) : result TunnelManager :=
  match tm_sessions m !! sref with
  | None => Panic
  | Some s =>
      match tm_tunnels m !! ts_NodeID s with
      | Some _ => Err "tunnel already exists for node"
      | None => Ok (mkTunnelManager (<[ts_NodeID s := sref]> (tm_tunnels m)) (tm_sessions m) (tm_next m))
      end
  end.

(** [session.Close()] through the pointer. *)
Definition close_session (sessions : gmap nat TunnelSession) (sref : nat)
    : result (gmap nat TunnelSession) :=
  match sessions !! sref with
  | None => Panic
  | Some s => let! s' := TunnelSession_Close s in Ok (<[sref := s']> sessions)
  end.

Definition TunnelManager_Unregister (m : TunnelManager) (nodeID : string) : result TunnelManager :=
  match tm_tunnels m !! nodeID with
  | None => Ok m
  | Some sref =>
      let! sessions := close_session (tm_sessions m) sref in
      Ok (mkTunnelManager (delete nodeID (tm_tunnels m)) sessions (tm_next m))
  end.

Definition TunnelManager_Get (m : TunnelManager) (nodeID : string) : option nat := tm_tunnels m !! nodeID.

Definition TunnelManager_IsConnected (m : TunnelManager) (nodeID : string) : bool :=
  match tm_tunnels m !! nodeID ≫= (tm_sessions m !!.) with
  | Some s => negb (ts_closed s)
  | None => false
  end.

Definition TunnelManager_ActiveTunnels (m : TunnelManager) : Z := Z.of_nat (size (tm_tunnels m)).

Fixpoint close_sessions (sessions : gmap nat TunnelSession) (refs : list nat)
    : result (gmap nat TunnelSession) :=
  match refs with
  | [] => Ok sessions
  | r :: rs => let! sessions' := close_session sessions r in close_sessions sessions' rs
  end.

Definition TunnelManager_Close (m : TunnelManager) : result TunnelManager :=
  let! sessions := close_sessions (tm_sessions m) (map_to_list (tm_tunnels m)).*2 in
  Ok (mkTunnelManager ∅ sessions (tm_next m)).

(** ** The handshake of [Server.handleConnection] *)
Record RegisterPayload := mkRegisterPayload {
  rp_NodeID : string;
  rp_NodeToken : string;
  rp_ServiceAddr : string
}.

Inductive handshake :=
| HsDropped                    (* no message could be read *)
| HsRejected (reason : string) (* [sendError] *)
| HsAccepted (sref : nat).

(** [first] is the first message, its payload decoded ([None]: not JSON of a
    [RegisterPayload]); [tunnelID] is the fresh UUID and [remote] the peer address. *)
Definition Server_handleConnection (authToken : string) (maxTunnels : Z) (m : TunnelManager)
    (first : option (Z * option RegisterPayload)) (tunnelID remote : string)
    : handshake * TunnelManager :=
  match first with
  | None => (HsDropped, m)
  | Some (t, payload) =>
      if negb (t =? type_code MsgTypeRegister) then (HsRejected "expected register message", m)
      else
        match payload with
        | None => (HsRejected "invalid register payload", m)
        | Some reg =>
            if negb (String.eqb authToken "") && negb (String.eqb (rp_NodeToken reg) authToken)
            then (HsRejected "invalid token", m)
            else if maxTunnels <=? TunnelManager_ActiveTunnels m
            then (HsRejected "max tunnels reached", m)
            else
              let sref := tm_next m in
              let s := NewTunnelSession tunnelID (rp_NodeID reg) (rp_ServiceAddr reg)
                         (String.append "tunnel://" remote) in
              let m1 := mkTunnelManager (tm_tunnels m) (<[sref := s]> (tm_sessions m)) (S sref) in
              match TunnelManager_Register m1 sref with
              | Ok m2 => (HsAccepted sref, m2)
              | _ => (HsRejected "tunnel already exists for node", m1)
              end
        end
  end.

(** ** Invariant of the manager *)
Record mgr_ok (m : TunnelManager) : Prop := {
  mo_tunnels : ∀ node sref, tm_tunnels m !! node = Some sref →
    ∃ s, tm_sessions m !! sref = Some s ∧ ts_NodeID s = node ∧ ts_closed s = false;
  mo_sessions : map_Forall (λ sref s, sess_ok s ∧ (sref < tm_next m)%nat) (tm_sessions m)
}.

Lemma Close_spec s :
  sess_ok s → ∃ s', TunnelSession_Close s = Ok s' ∧ sess_ok s' ∧ ts_closed s' = true ∧
    ts_NodeID s' = ts_NodeID s ∧ (ts_closed s = false → ts_connClosed s' = true ∧ ts_Streams s' = ∅).
Proof.
  intros Hs. destruct (Close_ok s Hs) as (s' & Heq & Hok & Hc). exists s'. split_and!; try done.
  - revert Heq. unfold TunnelSession_Close. case_match; [by intros [= <-]|].
    destruct (close_all _ _); [|done..]. simpl. by intros [= <-].
  - intros Ho. revert Heq. unfold TunnelSession_Close. rewrite Ho.
    destruct (close_all _ _); [|done..]. simpl. by intros [= <-].
Qed.

Lemma close_sessions_ok refs sessions next :
  map_Forall (λ sref s, sess_ok s ∧ (sref < next)%nat) sessions →
  (∀ r, r ∈ refs → is_Some (sessions !! r)) →
  ∃ sessions', close_sessions sessions refs = Ok sessions' ∧
    map_Forall (λ sref s, sess_ok s ∧ (sref < next)%nat) sessions'.
Proof.
  revert sessions. induction refs as [|r refs IH]; intros sessions Hall Hin; cbn [close_sessions]; [by eauto|].
  destruct (Hin r) as [s Hs]; [left|]. unfold close_session. rewrite Hs.
  destruct (Hall _ _ Hs) as [Hok Hr]. destruct (Close_spec s Hok) as (s' & -> & Hok' & _). simpl.
  apply IH; [by apply map_Forall_insert_2|].
  intros r' Hr'. rewrite lookup_insert. case_decide; [done|]. apply Hin. by right.
Qed.

(** The nodes the manager considers connected. *)
Definition connected (m : TunnelManager) : gset string := dom (tm_tunnels m).

Lemma IsConnected_spec m node :
  mgr_ok m → TunnelManager_IsConnected m node = bool_decide (node ∈ connected m).
Proof.
  intros [H1 _]. unfold TunnelManager_IsConnected, connected.
  destruct (tm_tunnels m !! node) as [sref|] eqn:E; simpl.
  - destruct (H1 _ _ E) as (s & -> & _ & ->). simpl. symmetry. apply bool_decide_eq_true_2, elem_of_dom.
    by eexists.
  - symmetry. apply bool_decide_eq_false_2. by apply not_elem_of_dom.
Qed.

Lemma Register_spec m sref s :
  mgr_ok m → tm_sessions m !! sref = Some s → ts_closed s = false →
  if decide (ts_NodeID s ∈ connected m)
  then TunnelManager_Register m sref = Err "tunnel already exists for node"
  else ∃ m', TunnelManager_Register m sref = Ok m' ∧ mgr_ok m' ∧
       connected m' = {[ts_NodeID s]} ∪ connected m.
Proof.
  intros [H1 H2] Hs Ho. unfold TunnelManager_Register. rewrite Hs. unfold connected.
  case_decide as Hd.
  - apply elem_of_dom in Hd as [r ->]. done.
  - apply not_elem_of_dom in Hd. rewrite Hd. eexists. split; [reflexivity|]. split; [|simpl; by rewrite dom_insert_L].
    split; simpl; [|done]. intros node r. rewrite lookup_insert. case_decide; intros; simplify_eq; eauto.
Qed.

Lemma Unregister_spec m node :
  mgr_ok m → ∃ m', TunnelManager_Unregister m node = Ok m' ∧ mgr_ok m' ∧
    connected m' = connected m ∖ {[node]}.
Proof.
  intros Hm. pose proof Hm as [H1 H2]. unfold TunnelManager_Unregister, connected.
  destruct (tm_tunnels m !! node) as [sref|] eqn:E.
  2:{ exists m. split_and!; [done..|]. apply not_elem_of_dom in E. set_solver. }
  destruct (H1 _ _ E) as (s & Hs & Hn & Ho). unfold close_session. rewrite Hs.
  destruct (H2 _ _ Hs) as [Hok Hr]. destruct (Close_spec s Hok) as (s' & -> & Hok' & Hc & Hn' & _). simpl.
  eexists. split; [reflexivity|]. split; [|simpl; by rewrite dom_delete_L]. split; simpl.
  - intros n r [Hne Hl]%lookup_delete_Some. destruct (H1 _ _ Hl) as (s1 & Hs1 & Hn1 & Ho1).
    exists s1. rewrite lookup_insert_ne; [done|]. intros <-. congruence.
  - by apply map_Forall_insert_2.
Qed.

Lemma Manager_Close_spec m :
  mgr_ok m → ∃ m', TunnelManager_Close m = Ok m' ∧ mgr_ok m' ∧ connected m' = ∅.
Proof.
  intros [H1 H2]. unfold TunnelManager_Close.
  destruct (close_sessions_ok (map_to_list (tm_tunnels m)).*2 (tm_sessions m) (tm_next m)) as (ss & -> & Hall).
  - done.
  - intros r ([n r'] & -> & Hin)%list_elem_of_fmap. apply elem_of_map_to_list in Hin.
    destruct (H1 _ _ Hin) as (s & ? & _). by eexists.
  - simpl. eexists. split; [reflexivity|]. split; [|unfold connected; simpl; by rewrite dom_empty_L].
    split; simpl; [|done]. intros *. by rewrite lookup_empty.
Qed.

Lemma NewTunnelManager_ok : mgr_ok NewTunnelManager.
Proof. split; simpl; [intros *; by rewrite lookup_empty|apply map_Forall_empty]. Qed.

(** ** Properties *)

(** C11 (safety): whatever way the message loop, the requests, the body readers and
    the shutdown of a session interleave, no step panics: a [Done] channel is
    never closed twice. *)
Theorem session_never_panics a b c d x :
  sess_run (NewTunnelSession a b c d) x → ∃ s, x = Ok s ∧ sess_ok s.
Proof.
  induction 1 as [|s x _ (s' & Hs' & Hok) Hstep].
  - eexists. split; [done|]. apply NewTunnelSession_ok.
  - simplify_eq. by eapply sess_step_ok.
Qed.

(** a proxied response loses its body beyond two data messages.  When
    [ForwardRequest] returns the response header, its deferred [RemoveStream]
    detaches the stream the body reader holds; in every continuation, whatever
    arrives on the connection, the reader receives at most two more messages (one
    in the channel, one in a blocked send). *)
Theorem response_body_cut_off s0 r sid m s1 ms s :
  cap_ok s0 → (∀ sid', ts_Streams s0 !! sid' = Some r → sid' = sid) → (r < ts_next s0)%nat →
  forward_answer s0 r sid = Some (m, Ok s1) → reads_run s1 r ms s → (length ms ≤ 2)%nat.
Proof.
  intros Hcap Hown Hr Ha Hrun. unfold forward_answer in Ha.
  destruct (recv s0 r) as [[m' s']|] eqn:Er; [|done]. simplify_eq.
  pose proof (recv_frame _ _ _ _ r Er) as (E1 & E2 & E3).
  destruct (RemoveStream_frame _ _ _ r H0) as (Hc & Hp & Hn & Hm).
  assert (Hdet : detached s1 r).
  { split; [|by rewrite Hn, E2]. intros sid' Hs. rewrite Hm, E1 in Hs.
    apply lookup_delete_Some in Hs as [Hne Hs]. by apply Hown in Hs. }
  assert (deliverable s1 r ≤ 2)%nat.
  { rewrite (deliverable_frame s' s1) by done. rewrite decide_True in E3 by done.
    enough (deliverable s0 r ≤ 2)%nat by lia. unfold deliverable.
    destruct (ts_store s0 !! r) as [st|] eqn:Es; [apply Hcap in Es|]; repeat case_match; lia. }
  destruct (reads_run_bound s1 r ms s Hrun Hdet) as [_ Hb]. lia.
Qed.

(** what does reach the body reader is delivered in full and in
    order: copying with any buffer size terminates within the given number of
    reads, ends with end-of-file and yields the concatenated payloads, when the
    announced length is theirs.  An unknown length (-1, a chunked response) makes
    the reader report end-of-file at once, whatever arrives. *)
Theorem body_reader_copies plen ms :
  (0 < plen)%nat → Forall is_data ms → Forall (λ m, msg_Payload m ≠ []) ms →
  copy_body (S (length (payloads ms) + length ms)) plen
    (mkBodyReader (Z.of_nat (length (payloads ms))) []) ms = Some (payloads ms, ReadEOF) ∧
  copy_body 1 plen (mkBodyReader (-1) []) ms = Some ([], ReadEOF).
Proof. intros Hp Hd Hne. split; [|done]. rewrite copy_body_all; [done..|simpl; lia]. Qed.

(** C37 (refinement): the manager implements a set of connected nodes: [IsConnected]
    and [ActiveTunnels] are membership and size, [Register] of an open session adds
    its node or fails if the node is there, [Unregister] removes the node and
    [Close] empties the set; none of them panics, and the invariant is kept. *)
Theorem tunnel_manager_refines m sref s node :
  mgr_ok m → tm_sessions m !! sref = Some s → ts_closed s = false →
  TunnelManager_IsConnected m node = bool_decide (node ∈ connected m) ∧
  TunnelManager_ActiveTunnels m = Z.of_nat (size (connected m)) ∧
  (if decide (ts_NodeID s ∈ connected m)
   then TunnelManager_Register m sref = Err "tunnel already exists for node"
   else ∃ m', TunnelManager_Register m sref = Ok m' ∧ mgr_ok m' ∧
        connected m' = {[ts_NodeID s]} ∪ connected m) ∧
  (∃ m', TunnelManager_Unregister m node = Ok m' ∧ mgr_ok m' ∧ connected m' = connected m ∖ {[node]}) ∧
  (∃ m', TunnelManager_Close m = Ok m' ∧ mgr_ok m' ∧ connected m' = ∅).
Proof.
  intros Hm Hs Ho. split_and!.
  - by apply IsConnected_spec.
  - unfold TunnelManager_ActiveTunnels, connected. by rewrite size_dom.
  - by apply Register_spec.
  - by apply Unregister_spec.
  - by apply Manager_Close_spec.
Qed.

(** a connection becomes a tunnel only with the configured token,
    only for a node that has none, and never beyond [MaxTunnels]; a refused
    connection leaves the set of connected nodes as it was. *)
Theorem handshake_safe authToken maxTunnels m t reg tunnelID remote hs m' :
  mgr_ok m →
  Server_handleConnection authToken maxTunnels m (Some (t, Some reg)) tunnelID remote = (hs, m') →
  mgr_ok m' ∧
  match hs with
  | HsAccepted sref =>
      (authToken = "" ∨ rp_NodeToken reg = authToken) ∧
      TunnelManager_IsConnected m (rp_NodeID reg) = false ∧
      TunnelManager_IsConnected m' (rp_NodeID reg) = true ∧
      TunnelManager_ActiveTunnels m' ≤ maxTunnels
  | _ => connected m' = connected m
  end.
Proof.
  intros Hm. unfold Server_handleConnection.
  destruct (t =? _); simpl negb; cbv iota; [|by intros [= <- <-]].
  destruct (negb (String.eqb authToken "") && negb (String.eqb (rp_NodeToken reg) authToken)) eqn:Ea;
    [by intros [= <- <-]|].
  destruct (maxTunnels <=? TunnelManager_ActiveTunnels m) eqn:Emax; [by intros [= <- <-]|].
  set (s := NewTunnelSession _ _ _ _).
  set (m1 := mkTunnelManager (tm_tunnels m) (<[tm_next m := s]> (tm_sessions m)) (S (tm_next m))).
  assert (Hm1 : mgr_ok m1).
  { destruct Hm as [H1 H2]. split; simpl.
    - intros node r Hr. destruct (H1 _ _ Hr) as (s0 & Hs0 & ? & ?). exists s0.
      rewrite lookup_insert_ne; [done|]. intros <-. destruct (H2 _ _ Hs0). lia.
    - apply map_Forall_insert_2; [split; [apply NewTunnelSession_ok|lia]|].
      eapply map_Forall_impl; [exact H2|]. simpl. intros ? ? []. split; [done|lia]. }
  pose proof (Register_spec m1 (tm_next m) s Hm1 ltac:(apply lookup_insert_eq) eq_refl) as Hreg.
  pose proof (IsConnected_spec m (rp_NodeID reg) Hm) as Hc.
  change (ts_NodeID s) with (rp_NodeID reg) in Hreg. change (connected m1) with (connected m) in Hreg.
  destruct (decide (rp_NodeID reg ∈ connected m)) as [Hin|Hnin].
  - rewrite Hreg. intros [= <- <-]. done.
  - destruct Hreg as (m2 & -> & Hm2 & Hset). intros [= <- <-]. split; [done|].
    rewrite Hc, (IsConnected_spec m2) by done. split_and!.
    + apply andb_false_iff in Ea as [E|E]; bool_to_prop; auto.
    + by apply bool_decide_eq_false_2.
    + apply bool_decide_eq_true_2. set_solver.
    + bool_to_prop. unfold TunnelManager_ActiveTunnels in *. rewrite <- !(size_dom (D := gset string)) in *.
      change (dom (tm_tunnels m2)) with (connected m2). change (dom (tm_tunnels m)) with (connected m) in Emax.
      rewrite Hset, size_union, size_singleton by set_solver. lia.
Qed.

(** ** Witnesses *)
Definition demo_session : TunnelSession := NewTunnelSession "t" "n1" "127.0.0.1:80" "tunnel://x".
Definition resp_msg : Message := NewControlMessage MsgTypeResponse 5 (bytes_of_string "{}").
Definition data_msg : Message := NewDataMessage MsgTypeData 5 (bytes_of_string "ab").

(** A request under way: the response header is in the channel, the first piece of
    the body is being sent. *)
Definition answered : TunnelSession :=
  set_pending (set_streams demo_session {[5 := 0%nat]} {[0%nat := mkStream 5 [resp_msg] false]} 1)
    (Some (0%nat, data_msg)).
Definition returned : TunnelSession :=
  set_pending (set_streams demo_session ∅ {[0%nat := mkStream 5 [] true]} 1) (Some (0%nat, data_msg)).
Definition sent : TunnelSession :=
  set_streams demo_session ∅ {[0%nat := mkStream 5 [data_msg] true]} 1.
Definition drained : TunnelSession :=
  set_streams demo_session ∅ {[0%nat := mkStream 5 [] true]} 1.

Lemma session_never_panics_witness :
  ∃ s, (Ok (forward_begin demo_session 5 [] None).2 : result TunnelSession) = Ok s ∧ sess_ok s.
Proof.
  apply (session_never_panics "t" "n1" "127.0.0.1:80" "tunnel://x").
  eapply sr_step; [apply sr_start|apply ss_begin].
Defined.

Lemma response_body_cut_off_witness :
  forward_answer answered 0 5 = Some (resp_msg, Ok returned) ∧
  reads_run returned 0 [data_msg] drained ∧ (length [data_msg] ≤ 2)%nat.
Proof.
  assert (Hrun : reads_run returned 0 [data_msg] drained).
  { change [data_msg] with ([] ++ [data_msg]). eapply (rr_read _ _ _ sent); [|reflexivity].
    eapply rr_step; [apply rr_start|]. apply ss_send. reflexivity. }
  split; [reflexivity|]. split; [exact Hrun|].
  eapply (response_body_cut_off answered 0 5); [| | |reflexivity|exact Hrun].
  - intros r st Hst. cbn in Hst. apply lookup_singleton_Some in Hst as [<- <-]. simpl. lia.
  - intros sid Hs. cbn in Hs. by apply lookup_singleton_Some in Hs as [<- _].
  - simpl. lia.
Defined.

Lemma body_reader_copies_witness :
  copy_body 7 1 (mkBodyReader 4 []) [data_msg; data_msg] = Some (bytes_of_string "abab", ReadEOF).
Proof.
  apply (body_reader_copies 1 [data_msg; data_msg]); [lia| |]; repeat constructor; done.
Defined.

Definition demo_manager : TunnelManager := mkTunnelManager ∅ {[0%nat := demo_session]} 1.
Lemma demo_manager_ok : mgr_ok demo_manager.
Proof.
  split; simpl; [intros *; by rewrite lookup_empty|].
  apply map_Forall_singleton. split; [apply NewTunnelSession_ok|lia].
Qed.

Lemma tunnel_manager_refines_witness :
  ∃ m', TunnelManager_Register demo_manager 0 = Ok m' ∧ connected m' = {["n1"]} ∪ ∅.
Proof.
  destruct (tunnel_manager_refines demo_manager 0 demo_session "n1" demo_manager_ok
    ltac:(reflexivity) ltac:(reflexivity)) as (_ & _ & H & _).
  destruct (decide _) as [Hin|_]; [exfalso; cbn in Hin; rewrite dom_empty_L in Hin; by apply not_elem_of_empty in Hin|].
  destruct H as (m' & H1 & _ & H2). exists m'. split; [exact H1|exact H2].
Defined.

Lemma handshake_safe_witness :
  TunnelManager_IsConnected
    (Server_handleConnection "secret" 1 demo_manager
       (Some (1, Some (mkRegisterPayload "n2" "secret" "a"))) "t2" "r").2 "n2" = true.
Proof.
  destruct (handshake_safe "secret" 1 demo_manager 1 (mkRegisterPayload "n2" "secret" "a") "t2" "r"
    (HsAccepted 1) _ demo_manager_ok ltac:(reflexivity)) as (_ & _ & _ & H & _).
  exact H.
Defined.
