(* ===== verification/NodeLifecycle.v ===== *)
(** * The life of a node in the control plane

    Models the node table and its read cache ([internal/store/pg.go], [PGStore]),
    the heartbeat keys and revocation marks in Redis ([RedisStore]), the registry
    ([internal/controlplane/registry.go]) and the heartbeat service
    ([internal/controlplane/heartbeat.go]).  The node table is a map; a failing
    statement is a flag of the operation; [now] is the clock in nanoseconds.  Here every
    operation runs to its end before the next; [StoreRaces] interleaves their accesses.
    The control plane passes no read replica to [NewPGStore], so there is one table.

    The theorems: the read cache never serves a row that differs from the table;
    the automatic transitions only move a node forward from REGISTERED over ACTIVE
    and DEGRADED to OFFLINE, so a node that lost its heartbeat once never becomes
    active again without an administrator, and a disabled node stays disabled and
    is never listed; a revoked node's heartbeats are refused; and asking whether a
    node is alive prolongs its heartbeat. *)

From S2P Require Import Prelude GoFloat Models ContentIndex.

(** ** The node table and its cache *)
Record PGStore := mkPGStore {
  pg_nodes : gmap string Node;
  pg_tokens : gmap string string;
  pg_cache : gmap string (Node * Z);
  pg_cacheTTL : Z
}.

Definition PGStore_InvalidateNodeCache (s : PGStore) (nodeID : string) : PGStore :=
  mkPGStore (pg_nodes s) (pg_tokens s) (delete nodeID (pg_cache s)) (pg_cacheTTL s).

Definition set_nodes (s : PGStore) (m : gmap string Node) : PGStore :=
  mkPGStore m (pg_tokens s) (pg_cache s) (pg_cacheTTL s).

Record RegisterRequest := mkRegisterRequest {
  rr_NodeName : string;
  rr_Endpoints : list Endpoint;
  rr_Region : string;
  rr_ISP : string;
  rr_TenantID : string;
  rr_ProjectID : string;
  rr_Capabilities : Capabilities
}.

Definition zero_scores : NodeScores := mkNodeScores fzero fzero fzero.

(** The inserted row; [asn] and [disable_reason] default to the empty string. *)
Definition new_row (nodeID : string) (req : RegisterRequest) (now : Z) : Node :=
  mkNode now now now (rr_Endpoints req) (rr_Capabilities req) zero_scores ∅ "" None nodeID
    (rr_TenantID req) (rr_ProjectID req) (rr_NodeName req) (rr_Region req) (rr_ISP req) ""
    NodeStatusRegistered 100.

(** [nodeID] is the fresh identifier; it is the primary key. *)
Definition PGStore_CreateNode (db_ok : bool) (s : PGStore) (nodeID : string) (req : RegisterRequest)
    (token : string) (now : Z) : result Node * PGStore :=
  if negb db_ok then (Err "insert node", s)
  else match pg_nodes s !! nodeID with
       | Some _ => (Err "insert node", s)
       | None =>
           let row := new_row nodeID req now in
           (Ok row, mkPGStore (<[nodeID := row]> (pg_nodes s)) (<[nodeID := token]> (pg_tokens s))
                      (pg_cache s) (pg_cacheTTL s))
       end.

(** The query of [GetNode], whose answer is cached. *)
Definition query_node (db_ok : bool) (s : PGStore) (nodeID : string) (now : Z) : result Node * PGStore :=
  if negb db_ok then (Err "get node", s)
  else match pg_nodes s !! nodeID with
       | None => (Err "get node", s)
       | Some n => (Ok n, mkPGStore (pg_nodes s) (pg_tokens s)
                            (<[nodeID := (n, now + pg_cacheTTL s)]> (pg_cache s)) (pg_cacheTTL s))
       end.

Definition PGStore_GetNode (db_ok : bool) (s : PGStore) (nodeID : string) (now : Z)
    : result Node * PGStore :=
  match pg_cache s !! nodeID with
  | Some (n, expiresAt) =>
      if now <? expiresAt then (Ok n, s)
      else query_node db_ok (PGStore_InvalidateNodeCache s nodeID) nodeID now
  | None => query_node db_ok s nodeID now
  end.

Definition PGStore_GetNodeToken (db_ok : bool) (s : PGStore) (nodeID : string) : result string :=
  if negb db_ok then Err "get node token"
  else match pg_tokens s !! nodeID with Some t => Ok t | None => Err "get node token" end.

(** [SELECT ... WHERE status IN ('ACTIVE', 'DEGRADED')]; the columns that are not
    selected have their zero values. *)
Definition listed (n : Node) : bool :=
  bool_decide (n_Status n = NodeStatusActive) || bool_decide (n_Status n = NodeStatusDegraded).
Definition active_view (n : Node) : Node :=
  mkNode 0 0 0 (n_Endpoints n) (n_Capabilities n) (n_Scores n) ∅ "" None (n_NodeID n) (n_TenantID n)
    (n_ProjectID n) (n_Name n) (n_Region n) (n_ISP n) "" (n_Status n) (n_Weight n).

Definition PGStore_ListActiveNodes (db_ok : bool) (s : PGStore) : result (list Node) :=
  if negb db_ok then Err "list nodes"
  else Ok (active_view <$> filter (λ n, listed n = true) (map_to_list (pg_nodes s)).*2).

Definition set_status (st : NodeStatus) (now : Z) (n : Node) : Node :=
  mkNode (n_LastSeenAt n) (n_CreatedAt n) now (n_Endpoints n) (n_Capabilities n) (n_Scores n)
    (n_Labels n) (n_DisableReason n) (n_MaintainUntil n) (n_NodeID n) (n_TenantID n) (n_ProjectID n)
    (n_Name n) (n_Region n) (n_ISP n) (n_ASN n) st (n_Weight n).
Definition set_seen (now : Z) (n : Node) : Node :=
  mkNode now (n_CreatedAt n) now (n_Endpoints n) (n_Capabilities n) (n_Scores n)
    (n_Labels n) (n_DisableReason n) (n_MaintainUntil n) (n_NodeID n) (n_TenantID n) (n_ProjectID n)
    (n_Name n) (n_Region n) (n_ISP n) (n_ASN n) (n_Status n) (n_Weight n).
Definition set_scores (sc : NodeScores) (now : Z) (n : Node) : Node :=
  mkNode (n_LastSeenAt n) (n_CreatedAt n) now (n_Endpoints n) (n_Capabilities n) sc
    (n_Labels n) (n_DisableReason n) (n_MaintainUntil n) (n_NodeID n) (n_TenantID n) (n_ProjectID n)
    (n_Name n) (n_Region n) (n_ISP n) (n_ASN n) (n_Status n) (n_Weight n).
Definition set_admin (st : NodeStatus) (reason : string) (until : option Z) (now : Z) (n : Node) : Node :=
  mkNode (n_LastSeenAt n) (n_CreatedAt n) now (n_Endpoints n) (n_Capabilities n) (n_Scores n)
    (n_Labels n) reason until (n_NodeID n) (n_TenantID n) (n_ProjectID n)
    (n_Name n) (n_Region n) (n_ISP n) (n_ASN n) st (n_Weight n).

(** [UPDATE nodes SET ... WHERE node_id = $1], then the cache entry is dropped. *)
Definition update_row (s : PGStore) (nodeID : string) (f : Node → Node) : PGStore :=
  PGStore_InvalidateNodeCache (set_nodes s (alter f nodeID (pg_nodes s))) nodeID.

Definition PGStore_UpdateNodeStatus (db_ok : bool) (s : PGStore) (nodeID : string) (st : NodeStatus)
    (now : Z) : result unit * PGStore :=
  if negb db_ok then (Err "update status", s)
  else match pg_nodes s !! nodeID with
       | None => (Err "no rows in result set", s)
       | Some _ => (Ok tt, update_row s nodeID (set_status st now))
       end.

Definition PGStore_UpdateNodeScores (db_ok : bool) (s : PGStore) (nodeID : string) (sc : NodeScores)
    (now : Z) : result unit * PGStore :=
  if negb db_ok then (Err "update scores", s) else (Ok tt, update_row s nodeID (set_scores sc now)).

Definition PGStore_UpdateNodeLastSeen (db_ok : bool) (s : PGStore) (nodeID : string) (now : Z)
    : result unit * PGStore :=
  if negb db_ok then (Err "update last seen", s) else (Ok tt, update_row s nodeID (set_seen now)).

Definition PGStore_NodeDisable (db_ok : bool) (s : PGStore) (nodeID reason : string) (until : option Z)
    (now : Z) : result unit * PGStore :=
  if negb db_ok then (Err "disable node", s)
  else
    let f n := match until with
               | None => set_admin NodeStatusDisabled reason (n_MaintainUntil n) now n
               | Some _ => set_admin NodeStatusDisabled reason until now n
               end in
    (Ok tt, update_row s nodeID f).

Definition PGStore_NodeEnable (db_ok : bool) (s : PGStore) (nodeID : string) (now : Z)
    : result unit * PGStore :=
  if negb db_ok then (Err "enable node", s)
  else (Ok tt, update_row s nodeID (set_admin NodeStatusActive "" None now)).

Definition PGStore_RevokeNode (db_ok : bool) (s : PGStore) (nodeID : string) : result unit * PGStore :=
  if negb db_ok then (Err "delete node", s)
  else match pg_nodes s !! nodeID with
       | None => (Err "no rows in result set", s)
       | Some _ =>
           (Ok tt, PGStore_InvalidateNodeCache
              (mkPGStore (delete nodeID (pg_nodes s)) (delete nodeID (pg_tokens s)) (pg_cache s) (pg_cacheTTL s))
              nodeID)
       end.

Definition PGStore_CountByStatus (db_ok : bool) (s : PGStore) (st : NodeStatus) : result Z :=
  if negb db_ok then Err "count"
  else Ok (Z.of_nat (size (filter (λ '(_, n), n_Status n = st) (pg_nodes s)))).

(** ** Heartbeats and revocations in Redis *)
Record RedisStore := mkRedisStore {
  rd_heartbeats : gmap string (Z * Z);   (* reported timestamp (s), expiry of the key (ns) *)
  rd_revoked : gmap string Z             (* expiry of the mark (ns) *)
}.

Definition second : Z := 1000000000.

Definition RedisStore_SaveHeartbeat (ok : bool) (r : RedisStore) (nodeID : string) (ts ttl now : Z)
    : result unit * RedisStore :=
  if negb ok then (Err "redis", r)
  else (Ok tt, mkRedisStore (<[nodeID := (ts, now + ttl)]> (rd_heartbeats r)) (rd_revoked r)).

(** The key exists as long as it has not expired. *)
Definition hb_alive (r : RedisStore) (nodeID : string) (now : Z) : bool :=
  match rd_heartbeats r !! nodeID with Some (_, e) => now <? e | None => false end.

(** [heartbeatCheckScript]: an existing key is prolonged by sixty seconds.  When the
    script cannot be run, a plain [EXISTS] answers. *)
Definition RedisStore_HasHeartbeat (script_ok exists_ok : bool) (r : RedisStore) (nodeID : string) (now : Z)
    : bool * RedisStore :=
  if script_ok then
    if hb_alive r nodeID now then
      (true, mkRedisStore (alter (λ '(ts, _), (ts, now + 60 * second)) nodeID (rd_heartbeats r)) (rd_revoked r))
    else (false, r)
  else (exists_ok && hb_alive r nodeID now, r).

Definition RedisStore_cleanupStale (r : RedisStore) (now : Z) : RedisStore :=
  mkRedisStore (filter (λ '(_, (ts, _)), i64 (now / second - ts) ≤ 300) (rd_heartbeats r)) (rd_revoked r).

Definition RedisStore_MarkNodeRevoked (ok : bool) (r : RedisStore) (nodeID : string) (now : Z) : RedisStore :=
  if ok then mkRedisStore (rd_heartbeats r) (<[nodeID := now + 24 * 3600 * second]> (rd_revoked r)) else r.

Definition RedisStore_IsNodeRevoked (ok : bool) (r : RedisStore) (nodeID : string) (now : Z) : bool :=
  ok && match rd_revoked r !! nodeID with Some e => now <? e | None => false end.

Definition RedisStore_UnrevokeNode (ok : bool) (r : RedisStore) (nodeID : string) : RedisStore :=
  if ok then mkRedisStore (rd_heartbeats r) (delete nodeID (rd_revoked r)) else r.

(** ** Registry and heartbeat service *)
Record ControlPlane := mkControlPlane {
  cp_pg : PGStore;
  cp_redis : RedisStore;
  cp_content : option Store;
  cp_HeartbeatTTL : Z;
  cp_events : list (string * string)   (* event type, node; oldest first *)
}.

Definition with_pg (h : ControlPlane) (pg : PGStore) : ControlPlane :=
  mkControlPlane pg (cp_redis h) (cp_content h) (cp_HeartbeatTTL h) (cp_events h).
Definition with_redis (h : ControlPlane) (r : RedisStore) : ControlPlane :=
  mkControlPlane (cp_pg h) r (cp_content h) (cp_HeartbeatTTL h) (cp_events h).
Definition with_content (h : ControlPlane) (s : Store) : ControlPlane :=
  mkControlPlane (cp_pg h) (cp_redis h) (Some s) (cp_HeartbeatTTL h) (cp_events h).
Definition Heartbeat_emit (h : ControlPlane) (event nodeID : string) : ControlPlane :=
  mkControlPlane (cp_pg h) (cp_redis h) (cp_content h) (cp_HeartbeatTTL h) (cp_events h ++ [(event, nodeID)]).

Definition Registry_Register (db_ok : bool) (h : ControlPlane) (nodeID token : string)
    (req : RegisterRequest) (now : Z) : result (string * string * Z) * ControlPlane :=
  let '(r, pg) := PGStore_CreateNode db_ok (cp_pg h) nodeID req token now in
  match r with
  | Ok n => (Ok (n_NodeID n, token, (now + 365 * 24 * 3600 * second) / second), with_pg h pg)
  | Err _ => (Err "create node", with_pg h pg)
  | Panic => (Panic, with_pg h pg)
  end.

(** Failures of the statements of one heartbeat, in order. *)
Record hbIO := mkHbIO {
  io_save : bool;
  io_seen : bool;
  io_get : bool;
  io_activate : bool;
  io_upsert : UpsertDB
}.
Definition hb_fine : hbIO := mkHbIO true true true true (mkUpsertDB true true (λ _, true)).

Definition with_node_id (nodeID : string) (c : ContentSummary) : ContentSummary :=
  mkContentSummary nodeID (cs_HotKeys c) (cs_BloomFilter c) (cs_BloomK c) (cs_TotalKeys c) (cs_UpdatedAt c).

Definition Heartbeat_processOne (io : hbIO) (h : ControlPlane) (nodeID : string) (ts now : Z)
    (summary : option ContentSummary) : result unit * ControlPlane :=
  match RedisStore_SaveHeartbeat (io_save io) (cp_redis h) nodeID ts (cp_HeartbeatTTL h) now with
  | (Ok _, r) =>
      let h := with_redis h r in
      match PGStore_UpdateNodeLastSeen (io_seen io) (cp_pg h) nodeID now with
      | (Ok _, pg) =>
          let h := with_pg h pg in
          let '(rn, pg) := PGStore_GetNode (io_get io) (cp_pg h) nodeID now in
          let h := with_pg h pg in
          match rn with
          | Ok node =>
              if bool_decide (n_Status node = NodeStatusDisabled)
                 || bool_decide (n_Status node = NodeStatusMaintenance)
              then (Ok tt, h)
              else
                let '(ra, h) :=
                  if bool_decide (n_Status node = NodeStatusRegistered) then
                    match PGStore_UpdateNodeStatus (io_activate io) (cp_pg h) nodeID NodeStatusActive now with
                    | (Ok _, pg) => (Ok tt, Heartbeat_emit (with_pg h pg) "node.online" nodeID)
                    | (_, pg) => (Err "activate node", with_pg h pg)
                    end
                  else (Ok tt, h) in
                match ra with
                | Ok _ =>
                    match cp_content h, summary with
                    | Some cs, Some c =>
                        (* a failing upsert is logged only *)
                        (Ok tt, with_content h (Store_UpsertSummary cs (io_upsert io) now (with_node_id nodeID c)).2)
                    | _, _ => (Ok tt, h)
                    end
                | e => (e, h)
                end
          | Err _ => (Err "get node", h)
          | Panic => (Panic, h)
          end
      | (_, pg) => (Err "update last seen", with_pg h pg)
      end
  | (_, r) => (Err "save heartbeat", with_redis h r)
  end.

(** The batch queue hands each request to [processOne] and its result back. *)
Definition Heartbeat_ProcessHeartbeat (redis_ok : bool) (io : hbIO) (h : ControlPlane) (nodeID : string)
    (ts now : Z) (summary : option ContentSummary) : result unit * ControlPlane :=
  if RedisStore_IsNodeRevoked redis_ok (cp_redis h) nodeID now
  then (Err "node has been revoked", h)
  else Heartbeat_processOne io h nodeID ts now summary.

Definition Heartbeat_CheckNodeHealth (script_ok exists_ok get_ok update_ok : bool) (h : ControlPlane)
    (nodeID : string) (now : Z) : result unit * ControlPlane :=
  let '(alive, r) := RedisStore_HasHeartbeat script_ok exists_ok (cp_redis h) nodeID now in
  let h := with_redis h r in
  if (alive : bool) then (Ok tt, h)
  else
    let '(rn, pg) := PGStore_GetNode get_ok (cp_pg h) nodeID now in
    let h := with_pg h pg in
    match rn with
    | Ok node =>
        let set st event err :=
          match PGStore_UpdateNodeStatus update_ok (cp_pg h) nodeID st now with
          | (Ok _, pg) => (Ok tt, Heartbeat_emit (with_pg h pg) event nodeID)
          | (_, pg) => (Err err, with_pg h pg)
          end in
        match n_Status node with
        | NodeStatusActive => set NodeStatusDegraded "node.degraded" "degrade node"
        | NodeStatusDegraded => set NodeStatusOffline "node.offline" "offline node"
        | _ => (Ok tt, h)
        end
    | Err _ => (Err "get node", h)
    | Panic => (Panic, h)
    end.

(** ** The read cache is coherent *)
Definition pg_coherent (s : PGStore) : Prop :=
  ∀ id n e, pg_cache s !! id = Some (n, e) → pg_nodes s !! id = Some n.

Lemma update_row_coherent s id f : pg_coherent s → pg_coherent (update_row s id f).
Proof.
  intros Hc id' n e. simpl. intros [Hne Hl]%lookup_delete_Some.
  rewrite lookup_alter_ne by done. by eapply Hc.
Qed.

Lemma invalidate_coherent s id : pg_coherent s → pg_coherent (PGStore_InvalidateNodeCache s id).
Proof. intros Hc id' n e. simpl. intros [_ Hl]%lookup_delete_Some. by eapply Hc. Qed.

Lemma query_node_spec db_ok s id now :
  pg_coherent s →
  let '(r, s') := query_node db_ok s id now in
  pg_coherent s' ∧ pg_nodes s' = pg_nodes s ∧ (∀ n, r = Ok n → pg_nodes s !! id = Some n) ∧ r ≠ Panic.
Proof.
  intros Hc. unfold query_node. destruct db_ok; simpl; [|done].
  destruct (pg_nodes s !! id) as [n|] eqn:E; [|done]. split_and!; try done; [|by intros ? [= <-]].
  intros id' n' e. simpl. rewrite lookup_insert. case_decide; intros; simplify_eq; [done|by eapply Hc].
Qed.

Lemma GetNode_spec db_ok s id now :
  pg_coherent s →
  let '(r, s') := PGStore_GetNode db_ok s id now in
  pg_coherent s' ∧ pg_nodes s' = pg_nodes s ∧ (∀ n, r = Ok n → pg_nodes s !! id = Some n) ∧ r ≠ Panic.
Proof.
  intros Hc. unfold PGStore_GetNode.
  destruct (pg_cache s !! id) as [[n e]|] eqn:E; [|by apply query_node_spec].
  destruct (now <? e).
  - split_and!; try done. intros n' [= <-]. by eapply Hc.
  - apply (query_node_spec db_ok (PGStore_InvalidateNodeCache s id)). by apply invalidate_coherent.
Qed.

Lemma UpdateNodeStatus_spec db_ok s id st now :
  pg_coherent s →
  let '(r, s') := PGStore_UpdateNodeStatus db_ok s id st now in
  pg_coherent s' ∧
  ∀ id', n_Status <$> pg_nodes s' !! id' =
    if decide (id' = id ∧ r = Ok tt) then (λ _, st) <$> pg_nodes s !! id else n_Status <$> pg_nodes s !! id'.
Proof.
  intros Hc. unfold PGStore_UpdateNodeStatus.
  destruct db_ok; simpl; [|split; [done|intros; by rewrite decide_False by naive_solver]].
  destruct (pg_nodes s !! id) as [n|] eqn:E; [|split; [done|intros; by rewrite decide_False by naive_solver]].
  split; [by apply update_row_coherent|]. intros id'. simpl.
  destruct (decide (id' = id)) as [->|Hne].
  - by rewrite lookup_alter_eq, E, decide_True.
  - rewrite lookup_alter_ne by done. by rewrite decide_False by naive_solver.
Qed.

(** A row update that does not touch the status. *)
Lemma update_row_status s id f :
  (∀ n, n_Status (f n) = n_Status n) →
  ∀ id', n_Status <$> pg_nodes (update_row s id f) !! id' = n_Status <$> pg_nodes s !! id'.
Proof.
  intros Hf id'. simpl. destruct (decide (id' = id)) as [->|Hne].
  - rewrite lookup_alter_eq. destruct (pg_nodes s !! id); simpl; [by rewrite Hf|done].
  - by rewrite lookup_alter_ne.
Qed.

(** ** The automatic transitions *)

(** The chain REGISTERED, ACTIVE, DEGRADED, OFFLINE. *)
Definition chain_rank (st : NodeStatus) : option nat :=
  match st with
  | NodeStatusRegistered => Some 0%nat
  | NodeStatusActive => Some 1%nat
  | NodeStatusDegraded => Some 2%nat
  | NodeStatusOffline => Some 3%nat
  | _ => None
  end.

Definition status_le (a b : NodeStatus) : Prop :=
  a = b ∨ ∃ x y, chain_rank a = Some x ∧ chain_rank b = Some y ∧ (x ≤ y)%nat.

#[export] Instance status_le_preorder : PreOrder status_le.
Proof.
  split; [by left|]. intros a b c [->|(x & y & Ha & Hb & Hxy)] [->|(y' & z & Hb' & Hc & Hyz)].
  - by left.
  - right. eauto.
  - right. eauto 6.
  - right. exists x, z. simplify_eq. split_and!; [done..|lia].
Qed.

Lemma status_le_rank a b x y :
  chain_rank a = Some x → chain_rank b = Some y → (x ≤ y)%nat → status_le a b.
Proof. intros. right. eauto. Qed.

(** Every node keeps its row, and its status moves forward. *)
Definition forward (m m' : gmap string Node) : Prop :=
  ∀ id, match n_Status <$> m !! id, n_Status <$> m' !! id with
        | Some a, Some b => status_le a b
        | None, None => True
        | _, _ => False
        end.

#[export] Instance forward_preorder : PreOrder forward.
Proof.
  split.
  - intros m id. destruct (n_Status <$> m !! id); [reflexivity|done].
  - intros a b c Hab Hbc id. specialize (Hab id). specialize (Hbc id).
    destruct (n_Status <$> a !! id), (n_Status <$> b !! id), (n_Status <$> c !! id); try done.
    by etransitivity.
Qed.

Lemma forward_same m m' :
  (∀ id, n_Status <$> m' !! id = n_Status <$> m !! id) → forward m m'.
Proof. intros Heq id. rewrite Heq. case_match; [reflexivity|done]. Qed.

Lemma forward_set db_ok s id st st' now :
  pg_coherent s → n_Status <$> pg_nodes s !! id = Some st → status_le st st' →
  pg_coherent (PGStore_UpdateNodeStatus db_ok s id st' now).2 ∧
  forward (pg_nodes s) (pg_nodes (PGStore_UpdateNodeStatus db_ok s id st' now).2).
Proof.
  intros Hc Hst Hle. pose proof (UpdateNodeStatus_spec db_ok s id st' now Hc) as Hspec.
  destruct (PGStore_UpdateNodeStatus db_ok s id st' now) as [r s']. simpl.
  destruct Hspec as [Hc' Hspec]. split; [done|]. intros id'. rewrite Hspec.
  destruct (decide (id' = id ∧ r = Ok tt)) as [[-> _]|Hd].
  - destruct (pg_nodes s !! id); simplify_eq/=. done.
  - case_match; [reflexivity|done].
Qed.

(** Coherent, and forward of [m]. *)
Definition cp_ok (m : gmap string Node) (h : ControlPlane) : Prop :=
  pg_coherent (cp_pg h) ∧ forward m (pg_nodes (cp_pg h)).

Lemma cp_ok_same m h h' : cp_pg h' = cp_pg h → cp_ok m h → cp_ok m h'.
Proof. unfold cp_ok. by intros ->. Qed.

Lemma cp_ok_get m h db_ok id now r pg :
  cp_ok m h → PGStore_GetNode db_ok (cp_pg h) id now = (r, pg) →
  cp_ok m (with_pg h pg) ∧ r ≠ Panic ∧ ∀ n, r = Ok n → n_Status <$> pg_nodes pg !! id = Some (n_Status n).
Proof.
  intros [Hc Hf] Hg. pose proof (GetNode_spec db_ok (cp_pg h) id now Hc) as Hspec. rewrite Hg in Hspec.
  destruct Hspec as (Hc' & Hn & Hr & Hp). split; [split; [done|]; simpl; by rewrite Hn|].
  split; [done|]. intros n Hrn. rewrite Hn. by rewrite (Hr n Hrn).
Qed.

Lemma cp_ok_seen m h db_ok id now :
  cp_ok m h → cp_ok m (with_pg h (PGStore_UpdateNodeLastSeen db_ok (cp_pg h) id now).2).
Proof.
  intros [Hc Hf]. unfold PGStore_UpdateNodeLastSeen. destruct db_ok; simpl; [|by split].
  split; [by apply update_row_coherent|]. etransitivity; [exact Hf|].
  by apply forward_same, update_row_status.
Qed.

Lemma cp_ok_set m h db_ok id st st' now :
  cp_ok m h → n_Status <$> pg_nodes (cp_pg h) !! id = Some st → status_le st st' →
  cp_ok m (with_pg h (PGStore_UpdateNodeStatus db_ok (cp_pg h) id st' now).2).
Proof.
  intros [Hc Hf] Hst Hle. destruct (forward_set db_ok (cp_pg h) id st st' now Hc Hst Hle) as [Hc' Hf'].
  split; [done|]. simpl. by etransitivity.
Qed.

Lemma processOne_ok m io h id ts now summary :
  cp_ok m h → cp_ok m (Heartbeat_processOne io h id ts now summary).2.
Proof.
  intros Hok. unfold Heartbeat_processOne.
  destruct (RedisStore_SaveHeartbeat _ _ _ _ _ _) as [[]r]; [|by eapply cp_ok_same..].
  pose proof (cp_ok_seen m (with_redis h r) (io_seen io) id now) as Hseen.
  destruct (PGStore_UpdateNodeLastSeen _ _ _ _) as [[] pg]; [|by apply Hseen..].
  specialize (Hseen (cp_ok_same m h (with_redis h r) eq_refl Hok)). simpl in Hseen.
  set (h1 := with_pg (with_redis h r) pg) in *.
  destruct (PGStore_GetNode _ _ _ _) as [rn pg1] eqn:Eg.
  destruct (cp_ok_get m h1 _ _ _ _ _ Hseen Eg) as (Hok1 & Hnp & Hst).
  destruct rn as [node| |]; [|done..]. specialize (Hst node eq_refl).
  destruct (bool_decide _ || bool_decide _); [done|].
  set (h2 := with_pg h1 pg1) in *.
  assert (Hact : cp_ok m (if bool_decide (n_Status node = NodeStatusRegistered)
    then match PGStore_UpdateNodeStatus (io_activate io) (cp_pg h2) id NodeStatusActive now with
         | (Ok _, pg) => (Ok tt, Heartbeat_emit (with_pg h2 pg) "node.online" id)
         | (_, pg) => (Err "activate node", with_pg h2 pg)
         end
    else (Ok tt, h2)).2).
  { case_bool_decide as Hreg; [|done].
    pose proof (cp_ok_set m h2 (io_activate io) id NodeStatusRegistered NodeStatusActive now Hok1) as Hset.
    destruct (PGStore_UpdateNodeStatus _ _ _ _ _) as [[] pg2]; simpl in *; (apply Hset; [by rewrite <- Hreg|]);
      (eapply status_le_rank; [done|done|lia]). }
  destruct (if bool_decide _ then _ else _) as [[] h3]; simpl in *; [|done..].
  destruct (cp_content h3), summary; try done.
Qed.

Lemma CheckNodeHealth_ok m a b c d h id now :
  cp_ok m h → cp_ok m (Heartbeat_CheckNodeHealth a b c d h id now).2.
Proof.
  intros Hok. unfold Heartbeat_CheckNodeHealth.
  destruct (RedisStore_HasHeartbeat _ _ _ _ _) as [alive r].
  assert (Hok' : cp_ok m (with_redis h r)) by (by eapply cp_ok_same).
  destruct alive; [done|].
  destruct (PGStore_GetNode _ _ _ _) as [rn pg] eqn:Eg.
  destruct (cp_ok_get m (with_redis h r) _ _ _ _ _ Hok' Eg) as (Hok1 & _ & Hst).
  destruct rn as [node| |]; [|done..]. specialize (Hst node eq_refl).
  set (h1 := with_pg (with_redis h r) pg) in *.
  destruct (n_Status node) eqn:Es; try done.
  - pose proof (cp_ok_set m h1 d id NodeStatusActive NodeStatusDegraded now Hok1 Hst) as Hset.
    destruct (PGStore_UpdateNodeStatus _ _ _ _ _) as [[] pg2]; simpl in *; apply Hset;
      (eapply status_le_rank; [done|done|lia]).
  - pose proof (cp_ok_set m h1 d id NodeStatusDegraded NodeStatusOffline now Hok1 Hst) as Hset.
    destruct (PGStore_UpdateNodeStatus _ _ _ _ _) as [[] pg2]; simpl in *; apply Hset;
      (eapply status_le_rank; [done|done|lia]).
Qed.

(** Everything that happens without an administrator or a registration: heartbeats
    and health checks (with any failures), score updates of the prober, reads and
    the Redis clean-up. *)
Inductive auto_step (h : ControlPlane) : ControlPlane → Prop :=
| as_heartbeat redis_ok io id ts now summary :
    auto_step h (Heartbeat_ProcessHeartbeat redis_ok io h id ts now summary).2
| as_check a b c d id now : auto_step h (Heartbeat_CheckNodeHealth a b c d h id now).2
| as_scores db_ok id sc now :
    auto_step h (with_pg h (PGStore_UpdateNodeScores db_ok (cp_pg h) id sc now).2)
| as_read db_ok id now : auto_step h (with_pg h (PGStore_GetNode db_ok (cp_pg h) id now).2)
| as_cleanup now : auto_step h (with_redis h (RedisStore_cleanupStale (cp_redis h) now)).

Lemma auto_step_ok m h h' : auto_step h h' → cp_ok m h → cp_ok m h'.
Proof.
  intros Hs Hok. destruct Hs as [redis_ok io id ts now summary| |db_ok id sc now|db_ok id now|now].
  - unfold Heartbeat_ProcessHeartbeat. case_match; [done|by apply processOne_ok].
  - by apply CheckNodeHealth_ok.
  - unfold PGStore_UpdateNodeScores. destruct db_ok; simpl; [|by destruct h]. destruct Hok as [Hc Hf].
    split; [by apply update_row_coherent|]. etransitivity; [exact Hf|].
    by apply forward_same, update_row_status.
  - destruct (PGStore_GetNode db_ok (cp_pg h) id now) as [rn pg] eqn:Eg. by eapply cp_ok_get.
  - by eapply cp_ok_same.
Qed.

Lemma auto_steps_ok m h h' : rtc auto_step h h' → cp_ok m h → cp_ok m h'.
Proof. induction 1; eauto using auto_step_ok. Qed.

Lemma auto_status h h' id st :
  pg_coherent (cp_pg h) → rtc auto_step h h' → n_Status <$> pg_nodes (cp_pg h) !! id = Some st →
  ∃ st', n_Status <$> pg_nodes (cp_pg h') !! id = Some st' ∧ status_le st st'.
Proof.
  intros Hc Hs Hst.
  destruct (auto_steps_ok (pg_nodes (cp_pg h)) h h' Hs) as [_ Hf]; [split; [done|reflexivity]|].
  specialize (Hf id). rewrite Hst in Hf. destruct (n_Status <$> pg_nodes (cp_pg h') !! id); [|done]. eauto.
Qed.

(** ** The rows keep their identifiers *)
Definition ids_ok (s : PGStore) : Prop := ∀ i m, pg_nodes s !! i = Some m → n_NodeID m = i.

Lemma update_row_ids s id f : (∀ n, n_NodeID (f n) = n_NodeID n) → ids_ok s → ids_ok (update_row s id f).
Proof.
  intros Hf Hids i m. simpl. destruct (decide (i = id)) as [->|Hne].
  - rewrite lookup_alter_eq. destruct (pg_nodes s !! id) as [n|] eqn:E; [|done]. intros [= <-].
    rewrite Hf. by apply Hids.
  - rewrite lookup_alter_ne by done. apply Hids.
Qed.

Lemma GetNode_nodes db_ok s id now : pg_nodes (PGStore_GetNode db_ok s id now).2 = pg_nodes s.
Proof. unfold PGStore_GetNode, query_node. by repeat case_match; simplify_eq/=. Qed.

Lemma GetNode_ids db_ok s id now : ids_ok s → ids_ok (PGStore_GetNode db_ok s id now).2.
Proof. unfold ids_ok. by rewrite GetNode_nodes. Qed.

Lemma UpdateNodeStatus_ids db_ok s id st now : ids_ok s → ids_ok (PGStore_UpdateNodeStatus db_ok s id st now).2.
Proof.
  intros Hids. unfold PGStore_UpdateNodeStatus. destruct db_ok; simpl; [|done].
  destruct (pg_nodes s !! id); [|done]. by apply update_row_ids.
Qed.

Lemma UpdateNodeLastSeen_ids db_ok s id now : ids_ok s → ids_ok (PGStore_UpdateNodeLastSeen db_ok s id now).2.
Proof.
  intros Hids. unfold PGStore_UpdateNodeLastSeen. destruct db_ok; simpl; [|done]. by apply update_row_ids.
Qed.

Lemma processOne_ids io h id ts now summary :
  ids_ok (cp_pg h) → ids_ok (cp_pg (Heartbeat_processOne io h id ts now summary).2).
Proof.
  intros Hids. unfold Heartbeat_processOne.
  destruct (RedisStore_SaveHeartbeat _ _ _ _ _ _) as [[]r]; [|done..].
  pose proof (UpdateNodeLastSeen_ids (io_seen io) (cp_pg (with_redis h r)) id now Hids) as Hseen.
  destruct (PGStore_UpdateNodeLastSeen _ _ _ _) as [[] pg]; [|done..]. simpl in Hseen.
  set (h1 := with_pg (with_redis h r) pg) in *.
  pose proof (GetNode_ids (io_get io) (cp_pg h1) id now Hseen) as Hget.
  destruct (PGStore_GetNode _ _ _ _) as [[node| |] pg1]; [|done..]. simpl in Hget.
  destruct (bool_decide _ || bool_decide _); [done|].
  set (h2 := with_pg h1 pg1) in *.
  pose proof (UpdateNodeStatus_ids (io_activate io) (cp_pg h2) id NodeStatusActive now Hget) as Hset.
  destruct (bool_decide (n_Status node = NodeStatusRegistered)).
  - destruct (PGStore_UpdateNodeStatus _ _ _ _ _) as [[] pg2]; [|done..].
    destruct (cp_content _), summary; done.
  - destruct (cp_content _), summary; done.
Qed.

Lemma CheckNodeHealth_ids a b c d h id now :
  ids_ok (cp_pg h) → ids_ok (cp_pg (Heartbeat_CheckNodeHealth a b c d h id now).2).
Proof.
  intros Hids. unfold Heartbeat_CheckNodeHealth.
  destruct (RedisStore_HasHeartbeat _ _ _ _ _) as [[] r]; [done|].
  pose proof (GetNode_ids c (cp_pg (with_redis h r)) id now Hids) as Hget.
  destruct (PGStore_GetNode _ _ _ _) as [[node| |] pg]; [|done..].
  set (h1 := with_pg (with_redis h r) pg) in *.
  pose proof (λ st, UpdateNodeStatus_ids d (cp_pg h1) id st now Hget) as Hset.
  destruct (n_Status node); try done.
  - specialize (Hset NodeStatusDegraded). by destruct (PGStore_UpdateNodeStatus _ _ _ _ _) as [[] pg2].
  - specialize (Hset NodeStatusOffline). by destruct (PGStore_UpdateNodeStatus _ _ _ _ _) as [[] pg2].
Qed.

Lemma auto_step_ids h h' : auto_step h h' → ids_ok (cp_pg h) → ids_ok (cp_pg h').
Proof.
  intros Hs Hids. destruct Hs as [redis_ok io id ts now summary| |db_ok id sc now|db_ok id now|now].
  - unfold Heartbeat_ProcessHeartbeat. case_match; [done|by apply processOne_ids].
  - by apply CheckNodeHealth_ids.
  - unfold PGStore_UpdateNodeScores. destruct db_ok; simpl; [|done]. by apply update_row_ids.
  - by apply GetNode_ids.
  - done.
Qed.

Lemma auto_steps_ids h h' : rtc auto_step h h' → ids_ok (cp_pg h) → ids_ok (cp_pg h').
Proof. induction 1; eauto using auto_step_ids. Qed.

(** A node whose row is not listed, or has no row, is not in the answer. *)
Lemma not_listed s id l :
  ids_ok s → (∀ n, pg_nodes s !! id = Some n → listed n = false) →
  PGStore_ListActiveNodes true s = Ok l → id ∉ n_NodeID <$> l.
Proof.
  intros Hids Hn Hl. simpl in Hl. injection Hl as <-. rewrite <- list_fmap_compose.
  intros (n' & Heq & Hin)%list_elem_of_fmap. apply list_elem_of_filter in Hin as [Hl Hin].
  apply list_elem_of_fmap in Hin as ([i m] & -> & Him). apply elem_of_map_to_list in Him. simpl in *.
  pose proof (Hids _ _ Him). assert (i = id) as -> by congruence. specialize (Hn _ Him). congruence.
Qed.

(** ** Health checks prolong what they check *)
Fixpoint run_checks (h : ControlPlane) (id : string) (times : list Z) : ControlPlane :=
  match times with
  | [] => h
  | t :: ts => run_checks (Heartbeat_CheckNodeHealth true true true true h id t).2 id ts
  end.

(** Each check comes less than a minute after the previous one. *)
Fixpoint every_minute (last : Z) (times : list Z) : Prop :=
  match times with
  | [] => True
  | t :: ts => t - last < 60 * second ∧ every_minute t ts
  end.

Lemma check_alive h id t ts e :
  rd_heartbeats (cp_redis h) !! id = Some (ts, e) → t < e →
  Heartbeat_CheckNodeHealth true true true true h id t =
    (Ok tt, with_redis h (mkRedisStore (<[id := (ts, t + 60 * second)]> (rd_heartbeats (cp_redis h)))
                            (rd_revoked (cp_redis h)))).
Proof.
  intros Hl He. unfold Heartbeat_CheckNodeHealth, RedisStore_HasHeartbeat, hb_alive. rewrite Hl.
  destruct (t <? e) eqn:E; bool_to_prop; [|lia]. do 3 f_equal. apply map_eq. intros i.
  destruct (decide (i = id)) as [->|Hne].
  - by rewrite lookup_alter_eq, lookup_insert_eq, Hl.
  - by rewrite lookup_alter_ne, lookup_insert_ne.
Qed.

Lemma last_cons_default (l : list Z) : ∀ t d, List.last (t :: l) d = List.last l t.
Proof.
  induction l as [|x l IH]; intros t d; [done|].
  change (List.last (x :: l) d = List.last (x :: l) t). by rewrite !IH.
Qed.

Lemma run_checks_alive times : ∀ h id ts last,
  rd_heartbeats (cp_redis h) !! id = Some (ts, last + 60 * second) → every_minute last times →
  cp_pg (run_checks h id times) = cp_pg h ∧ cp_events (run_checks h id times) = cp_events h ∧
  hb_alive (cp_redis (run_checks h id times)) id (List.last times last) = true.
Proof.
  induction times as [|t times IH]; intros h id ts last Hl Hm; cbn [run_checks].
  - split_and!; try done. unfold hb_alive. rewrite Hl. simpl. apply Z.ltb_lt. unfold second. lia.
  - destruct Hm as [Ht Hm]. rewrite (check_alive h id t ts (last + 60 * second)) by (done || lia). simpl snd.
    destruct (IH (with_redis h (mkRedisStore (<[id := (ts, t + 60 * second)]> (rd_heartbeats (cp_redis h)))
      (rd_revoked (cp_redis h)))) id ts t) as (H1 & H2 & H3); [apply lookup_insert_eq|done|].
    split_and!; [done..|]. by rewrite last_cons_default.
Qed.

(** ** Properties *)

(** a disabled node stays disabled: whatever heartbeats, health checks
    and probe results arrive, in any order and with any failing statement, its
    status does not change and [ListActiveNodes] never returns it. *)
Theorem disabled_stays_disabled h h' id :
  pg_coherent (cp_pg h) → ids_ok (cp_pg h) →
  n_Status <$> pg_nodes (cp_pg h) !! id = Some NodeStatusDisabled →
  rtc auto_step h h' →
  n_Status <$> pg_nodes (cp_pg h') !! id = Some NodeStatusDisabled ∧
  ∀ l, PGStore_ListActiveNodes true (cp_pg h') = Ok l → id ∉ n_NodeID <$> l.
Proof.
  intros Hc Hids Hst Hs. destruct (auto_status h h' id _ Hc Hs Hst) as (st' & Hst' & Hle).
  assert (st' = NodeStatusDisabled) as ->
    by (destruct Hle as [<-|(x & y & Hx & _)]; [done|discriminate]).
  split; [done|]. intros l. apply not_listed; [by eapply auto_steps_ids|].
  intros n Hn. rewrite Hn in Hst'. injection Hst' as Hst'. unfold listed. by rewrite Hst'.
Qed.

(** a node that missed one health check never recovers by itself: from
    DEGRADED or OFFLINE no sequence of heartbeats, checks and probes leads back to
    ACTIVE (there is a recovery event, but nothing emits it). *)
Theorem degraded_never_recovers h h' id st :
  pg_coherent (cp_pg h) →
  n_Status <$> pg_nodes (cp_pg h) !! id = Some st →
  st = NodeStatusDegraded ∨ st = NodeStatusOffline →
  rtc auto_step h h' →
  n_Status <$> pg_nodes (cp_pg h') !! id = Some NodeStatusDegraded ∨
  n_Status <$> pg_nodes (cp_pg h') !! id = Some NodeStatusOffline.
Proof.
  intros Hc Hst Hd Hs. destruct (auto_status h h' id st Hc Hs Hst) as (st' & -> & Hle).
  destruct Hle as [<-|(x & y & Hx & Hy & Hxy)]; [destruct Hd as [-> | ->]; auto|].
  destruct Hd as [-> | ->]; injection Hx as <-; destruct st'; simplify_eq/=; auto; lia.
Qed.

(** a heartbeat of a node without a row (a revoked one) is an error, with
    or without the revocation mark in Redis, and neither it nor any other
    automatic step brings the row back. *)
Theorem revoked_node_refused h h' id redis_ok io ts now summary :
  pg_coherent (cp_pg h) → pg_nodes (cp_pg h) !! id = None → rtc auto_step h h' →
  pg_nodes (cp_pg h') !! id = None ∧
  ∃ e, (Heartbeat_ProcessHeartbeat redis_ok io h' id ts now summary).1 = Err e.
Proof.
  intros Hc Hn Hs.
  destruct (auto_steps_ok (pg_nodes (cp_pg h)) h h' Hs) as [Hc' Hf]; [split; [done|reflexivity]|].
  assert (Hn' : pg_nodes (cp_pg h') !! id = None).
  { specialize (Hf id). rewrite Hn in Hf. by destruct (pg_nodes (cp_pg h') !! id). }
  split; [done|]. unfold Heartbeat_ProcessHeartbeat, Heartbeat_processOne.
  case_match; [by eexists|].
  destruct (RedisStore_SaveHeartbeat _ _ _ _ _ _) as [[] r]; [|by eexists..].
  pose proof (cp_ok_seen (pg_nodes (cp_pg h)) (with_redis h' r) (io_seen io) id now) as [Hc1 Hf1]; [by split|].
  destruct (PGStore_UpdateNodeLastSeen _ _ _ _) as [[] pg]; [|by eexists..]. simpl in Hc1, Hf1.
  pose proof (GetNode_spec (io_get io) pg id now Hc1) as Hg.
  assert (Hnone : pg_nodes pg !! id = None).
  { specialize (Hf1 id). rewrite Hn in Hf1. by destruct (pg_nodes pg !! id). }
  simpl. destruct (PGStore_GetNode _ _ _ _) as [[n| |] pg1]; destruct Hg as (_ & _ & Hg & Hp); [|by eexists|done].
  specialize (Hg n eq_refl). congruence.
Qed.

(** asking for a heartbeat renews it: [HasHeartbeat] sets the key's expiry
    to sixty seconds from now, so a node that has been silent since its last
    heartbeat is never degraded as long as it is checked at least once a minute,
    for any number of checks. *)
Theorem checks_keep_dead_node_alive h id ts last times :
  rd_heartbeats (cp_redis h) !! id = Some (ts, last + 60 * second) → every_minute last times →
  cp_pg (run_checks h id times) = cp_pg h ∧ cp_events (run_checks h id times) = cp_events h ∧
  hb_alive (cp_redis (run_checks h id times)) id (List.last times last) = true.
Proof. apply run_checks_alive. Qed.

(** ** Witnesses *)
Definition demo_row (id : string) (st : NodeStatus) : Node :=
  set_status st 0 (new_row id (mkRegisterRequest "edge" [] "eu" "isp" "" ""
    (mkCapabilities true 0 0 false "" false false fzero fzero false)) 0).
Definition demo_cp (st : NodeStatus) : ControlPlane :=
  mkControlPlane (mkPGStore {["n1" := demo_row "n1" st]} ∅ ∅ 30)
    (mkRedisStore {["n1" := (0, 0 + 60 * second)]} ∅) None 90 [].

Lemma demo_cp_coherent st : pg_coherent (cp_pg (demo_cp st)).
Proof. intros id n e. simpl. by rewrite lookup_empty. Qed.

Definition after_heartbeat (st : NodeStatus) : ControlPlane :=
  (Heartbeat_ProcessHeartbeat true hb_fine (demo_cp st) "n1" 5 5 None).2.

Lemma disabled_stays_disabled_witness :
  n_Status <$> pg_nodes (cp_pg (after_heartbeat NodeStatusDisabled)) !! "n1" = Some NodeStatusDisabled.
Proof.
  apply (disabled_stays_disabled (demo_cp NodeStatusDisabled)).
  - apply demo_cp_coherent.
  - intros i m Hm. cbn [cp_pg demo_cp pg_nodes] in Hm.
    apply lookup_singleton_Some in Hm as [<- <-]. reflexivity.
  - reflexivity.
  - apply rtc_once, as_heartbeat.
Defined.

Lemma degraded_never_recovers_witness :
  n_Status <$> pg_nodes (cp_pg (after_heartbeat NodeStatusOffline)) !! "n1" = Some NodeStatusDegraded ∨
  n_Status <$> pg_nodes (cp_pg (after_heartbeat NodeStatusOffline)) !! "n1" = Some NodeStatusOffline.
Proof.
  apply (degraded_never_recovers (demo_cp NodeStatusOffline) _ "n1" NodeStatusOffline).
  - apply demo_cp_coherent.
  - reflexivity.
  - right. reflexivity.
  - apply rtc_once, as_heartbeat.
Defined.

Lemma revoked_node_refused_witness :
  ∃ e, (Heartbeat_ProcessHeartbeat true hb_fine (demo_cp NodeStatusActive) "n2" 1 1 None).1 = Err e.
Proof.
  apply (revoked_node_refused (demo_cp NodeStatusActive) (demo_cp NodeStatusActive) "n2");
    [apply demo_cp_coherent|reflexivity|apply rtc_refl].
Defined.

Lemma checks_keep_dead_node_alive_witness :
  n_Status <$> pg_nodes (cp_pg (run_checks (demo_cp NodeStatusActive) "n1"
    [50 * second; 100 * second; 150 * second; 200 * second; 250 * second])) !! "n1" = Some NodeStatusActive.
Proof.
  destruct (checks_keep_dead_node_alive (demo_cp NodeStatusActive) "n1" 0 0
    [50 * second; 100 * second; 150 * second; 200 * second; 250 * second]) as (H & _ & _).
  - reflexivity.
  - unfold every_minute, second. lia.
  - rewrite H. reflexivity.
Defined.
