(* ===== verification/DNS.v ===== *)
(** * The DNS adapter ([internal/dns/server.go])

    A query datagram is parsed ([parseQuestion]), candidates are taken from the
    cache or the dispatch API, and an answer is built in a pooled buffer.  Go slices
    matter here: the buffer is a slice of length zero over an array of 512 bytes, so
    slices carry their length apart from their array ([goSlice]), an index beyond
    the length is a panic even within the capacity, and re-slicing may grow up to
    the capacity.

    The theorems: the parser accepts every well-formed question and returns its
    name and type, and no input makes it panic or loop; building an answer panics
    for every input, so every query that parses brings the adapter down (the
    handler runs in a goroutine without [recover]). *)

From S2P Require Import Prelude GoStrings Models.
From Stdlib Require Import Ascii.

(** ** Slices *)
Record goSlice := mkSlice { sl_arr : bytes; sl_len : nat }.

(** [b[i] = x]. *)
Definition slice_set (b : goSlice) (i : nat) (x : Init.Byte.byte) : result goSlice :=
  if (i <? sl_len b)%nat then Ok (mkSlice (<[i := x]> (sl_arr b)) (sl_len b)) else Panic.

(** [b[:n]]. *)
Definition reslice (b : goSlice) (n : nat) : result goSlice :=
  if (n <=? length (sl_arr b))%nat then Ok (mkSlice (sl_arr b) n) else Panic.

(** Writes [xs] at index [i] of the array. *)
Definition write_at (arr : bytes) (i : nat) (xs : bytes) : bytes :=
  take i arr ++ xs ++ drop (i + length xs) arr.

(** [copy(b[:n], src)]: within the capacity. *)
Definition slice_copy_prefix (b : goSlice) (n : nat) (src : bytes) : result goSlice :=
  let! p := reslice b n in Ok (mkSlice (write_at (sl_arr p) 0 (take n src)) (sl_len b)).

(** [append(b, xs...)]: in place within the capacity, else in a new array. *)
Definition slice_append (b : goSlice) (xs : bytes) : goSlice :=
  let n := (sl_len b + length xs)%nat in
  if (n <=? length (sl_arr b))%nat then mkSlice (write_at (sl_arr b) (sl_len b) xs) n
  else mkSlice (take (sl_len b) (sl_arr b) ++ xs) n.

Definition slice_bytes (b : goSlice) : bytes := take (sl_len b) (sl_arr b).

(** ** The question section *)

(** [query[i]]. *)
Definition index (query : bytes) (i : nat) : result Z :=
  match query !! i with Some b => Ok (byte.unsigned b) | None => Panic end.

(** The loop over the labels; the fuel is a bound on its turns, and running out of
    it counts as a panic. *)
Fixpoint parse_labels (fuel : nat) (query : bytes) (offset : nat) (parts : list bytes)
    : result (list bytes * nat) :=
  match fuel with
  | O => Panic
  | S fuel' =>
      if (length query <=? offset)%nat then Err "offset overflow"
      else
        let! len := index query offset in
        let offset := S offset in
        let len := Z.to_nat len in
        if (len =? 0)%nat then Ok (parts, offset)
        else if (length query <? offset + len)%nat then Err "label overflow"
        else parse_labels fuel' query (offset + len) (parts ++ [take len (drop offset query)])
  end.

Fixpoint join_dots (parts : list bytes) : bytes :=
  match parts with
  | [] => []
  | [p] => p
  | p :: ps => p ++ Byte.x2e :: join_dots ps
  end.

Definition parseQuestion (query : bytes) : result (bytes * Z) :=
  if (length query <? 16)%nat then Err "query too short"
  else
    let! (parts, offset) := parse_labels (S (length query)) query 12 [] in
    if (length query <? offset + 4)%nat then Err "no qtype/qclass"
    else
      let! hi := index query offset in
      let! lo := index query (S offset) in
      Ok (join_dots parts, u16 (Z.lor (u16 (Z.shiftl hi 8)) lo)).

(** ** Building the answer *)

(** A pooled array of [cap] bytes, cut to length zero. *)
Definition newDNSBuffer (pooled : bytes) : goSlice := mkSlice pooled 0.

Definition copySection (src : bytes) (dst : goSlice) (srcStart : nat) (len : Z) : result goSlice :=
  let len := if Z.of_nat (length src) <? Z.of_nat srcStart + len
             then Z.of_nat (length src) - Z.of_nat srcStart else len in
  if len <=? 0 then Ok dst
  else
    let n := Z.to_nat len in
    let need := (sl_len dst + n)%nat in
    let piece := take n (drop srcStart src) in
    if (length (sl_arr dst) <? need)%nat
    then Ok (mkSlice (take (sl_len dst) (sl_arr dst) ++ piece) need)
    else Ok (mkSlice (write_at (sl_arr dst) (need - n) piece) need).

Section answers.
(** [net/url] and [net] on an endpoint: the 16 byte form of its IP address. *)
Variable extractIP : string → option bytes.

(** [ip.To4()] is [nil] for an address that is not IPv4. *)
Definition is_v4 (ip : bytes) : bool :=
  bool_decide (take 12 ip = replicate 10 Byte.x00 ++ [Byte.xff; Byte.xff]).
Definition to4 (ip : bytes) : bytes := if is_v4 ip then drop 12 ip else [].

Definition byte_of (z : Z) : Init.Byte.byte := byte.of_Z (z mod 256).

(** One resource record. *)
Definition answer_record (qtype ttl : Z) (ip : bytes) : bytes :=
  let recordType := if qtype =? 28 then 28 else 1 in
  [Byte.xc0; Byte.x0c; byte_of (recordType / 256); byte_of recordType; Byte.x00; Byte.x01;
   byte_of (Z.shiftr ttl 24); byte_of (Z.shiftr ttl 16); byte_of (Z.shiftr ttl 8); byte_of ttl]
  ++ (if recordType =? 1 then [Byte.x00; Byte.x04] ++ to4 ip else [Byte.x00; Byte.x10] ++ ip).

Definition append_answers (qtype ttl : Z) (candidates : list Candidate) (buf : goSlice) (n : Z)
    : goSlice * Z :=
  foldl (λ '(buf, n) c,
    match extractIP (cand_Endpoint c) with
    | None => (buf, n)
    | Some ip => (slice_append buf (answer_record qtype ttl ip), u16 (n + 1))
    end) (buf, n) candidates.

Definition buildDNSResponse (pooled txID query : bytes) (candidates : list Candidate) (ttl qtype : Z)
    : result bytes :=
  let buf := newDNSBuffer pooled in
  let! buf := slice_copy_prefix buf 2 txID in
  let! buf := slice_set buf 2 Byte.x81 in
  let! buf := slice_set buf 3 Byte.x80 in
  let! buf := copySection query buf 12 (Z.of_nat (length query) - 12) in
  let! buf := slice_set buf 4 Byte.x00 in
  let! buf := slice_set buf 5 Byte.x01 in
  let '(buf, ansCount) := append_answers qtype ttl candidates buf 0 in
  let! buf := slice_set buf 6 (byte_of (Z.shiftr ansCount 8)) in
  let! buf := slice_set buf 7 (byte_of ansCount) in
  Ok (slice_bytes buf).

Definition buildNXDOMAIN (pooled txID query : bytes) : result bytes :=
  let buf := newDNSBuffer pooled in
  let! buf := slice_copy_prefix buf 2 txID in
  let! buf := slice_set buf 2 Byte.x81 in
  let! buf := slice_set buf 3 Byte.x83 in
  let! buf := copySection query buf 12 (Z.of_nat (length query) - 12) in
  let! buf := slice_set buf 4 Byte.x00 in
  let! buf := slice_set buf 5 Byte.x01 in
  let! buf := slice_set buf 6 Byte.x00 in
  let! buf := slice_set buf 7 Byte.x00 in
  Ok (slice_bytes buf).

(** ** The server *)
Record DnsServer := mkDnsServer {
  dns_Domain : string;
  dns_TTLSeconds : Z;
  dns_nodeCache : gmap string Candidate;
  dns_cacheExpires : Z
}.

(** [refreshCache] with the candidates the dispatch API returned at time [now]. *)
Definition Server_refreshCache (s : DnsServer) (now : Z) (resp : result (list Candidate)) : DnsServer :=
  match resp with
  | Ok cs => mkDnsServer (dns_Domain s) (dns_TTLSeconds s)
               (foldl (λ m c, <[cand_ID c := c]> m) ∅ cs) (now + dns_TTLSeconds s * 1000000000)
  | _ => s
  end.

(** [strings.ToLower] beyond ASCII follows the Unicode tables. *)
Variable unicode_lower : chars → chars.
Definition ascii_lower (c : ascii) : ascii :=
  let n := nat_of_ascii c in
  if (65 <=? n)%nat && (n <=? 90)%nat then ascii_of_nat (n + 32) else c.
Definition to_lower (l : chars) : chars :=
  if forallb (λ c, (nat_of_ascii c <? 128)%nat) l then ascii_lower <$> l else unicode_lower l.

(** The resource key of a name under the domain, or [None] for a foreign name. *)
Definition resource_of (domain0 : chars) (name : chars) : option chars :=
  let dot := to_chars "." in
  let domain := to_lower (trim_suffix dot name) in
  if negb (has_suffix domain0 domain) && negb (bool_decide (domain = domain0)) then None
  else
    let key := trim_suffix (dot ++ domain0) domain in
    let key := if bool_decide (key = domain0) then [] else key in
    Some (trim_suffix dot key).

(** The datagram sent back, if any.  [dispatch] is the answer of the dispatch API
    for a resource key, [pooled] the array the buffer pool hands out. *)
Definition Server_handleQuery (s : DnsServer) (now : Z) (dispatch : chars → result (list Candidate))
    (pooled query : bytes) : result (option bytes) :=
  if (length query <? 12)%nat then Ok None
  else
    let txID := take 2 query in
    match parseQuestion query with
    | Err _ => Ok None
    | Panic => Panic
    | Ok (name, qtype) =>
        match resource_of (to_chars (dns_Domain s)) (to_chars (string_of_bytes name)) with
        | None => let! resp := buildNXDOMAIN pooled txID query in Ok (Some resp)
        | Some key =>
            let candidates :=
              if (now <? dns_cacheExpires s) && bool_decide (key = [])
              then Ok (map_to_list (dns_nodeCache s)).*2
              else dispatch key in
            match candidates with
            | Ok (c :: cs) =>
                let! resp := buildDNSResponse pooled txID query (c :: cs) (dns_TTLSeconds s) qtype in
                Ok (Some resp)
            | _ => let! resp := buildNXDOMAIN pooled txID query in Ok (Some resp)
            end
        end
    end.

(** ** The parser *)

(** The encoding of a name: labels with their lengths, then a zero byte. *)
Definition encode_labels (labels : list bytes) : bytes :=
  mjoin ((λ l, byte.of_Z (Z.of_nat (length l)) :: l) <$> labels) ++ [Byte.x00].

Definition labels_ok (labels : list bytes) : Prop :=
  Forall (λ l, (0 < length l < 256)%nat) labels.

Lemma index_app pre b suf : index (pre ++ b :: suf) (length pre) = Ok (byte.unsigned b).
Proof. unfold index. by rewrite list_lookup_middle. Qed.

Lemma encode_labels_cons l labels :
  encode_labels (l :: labels) = (byte.of_Z (Z.of_nat (length l)) :: l) ++ encode_labels labels.
Proof. unfold encode_labels. cbn [fmap list_fmap]. rewrite app_assoc. done. Qed.

Lemma parse_labels_encoded labels : ∀ fuel pre parts rest,
  labels_ok labels → (length labels < fuel)%nat →
  parse_labels fuel (pre ++ encode_labels labels ++ rest) (length pre) parts =
    Ok (parts ++ labels, (length pre + length (encode_labels labels))%nat).
Proof.
  induction labels as [|l labels IH]; intros fuel pre parts rest Hok Hf;
    destruct fuel as [|fuel]; [lia| |lia|]; cbn [parse_labels].
  - unfold encode_labels. cbn [fmap list_fmap mjoin list_join app].
    destruct (_ <=? length pre)%nat eqn:E; bool_to_prop; [rewrite length_app in E; simpl in E; lia|].
    rewrite index_app. simpl. rewrite app_nil_r. f_equal. f_equal. lia.
  - apply Forall_cons in Hok as [Hl Hok].
    rewrite encode_labels_cons. rewrite <- app_assoc. cbn [app].
    destruct (_ <=? length pre)%nat eqn:E; bool_to_prop; [rewrite length_app in E; simpl in E; lia|].
    rewrite index_app. cbn [result_bind].
    rewrite byte.unsigned_of_Z. unfold byte.wrap. rewrite Z.mod_small by lia. rewrite Nat2Z.id.
    destruct (length l =? 0)%nat eqn:E1; [apply Nat.eqb_eq in E1; lia|].
    set (b := byte.of_Z _).
    destruct (_ <? _)%nat eqn:E2; bool_to_prop.
    { rewrite length_app in E2. cbn [length] in E2. rewrite !length_app in E2. lia. }
    assert (Hd : drop (S (length pre)) (pre ++ b :: l ++ encode_labels labels ++ rest) =
                 l ++ encode_labels labels ++ rest).
    { change (b :: ?x) with ([b] ++ x). rewrite app_assoc.
      apply drop_app_length'. rewrite length_app. simpl. lia. }
    rewrite Hd, take_app_length.
    replace (pre ++ b :: l ++ encode_labels labels ++ rest)
      with ((pre ++ b :: l) ++ encode_labels labels ++ rest) by (by rewrite <- app_assoc).
    replace (S (length pre) + length l)%nat with (length (pre ++ b :: l))
      by (rewrite length_app; simpl; lia).
    rewrite IH by (done || simpl in *; lia).
    rewrite <- app_assoc. simpl. f_equal. f_equal. rewrite !length_app. simpl. lia.
Qed.

Lemma length_encode_labels labels : (length labels < length (encode_labels labels))%nat.
Proof.
  induction labels as [|l labels IH]; [simpl; lia|]. rewrite encode_labels_cons, length_app. simpl. lia.
Qed.

(** The two bytes of a 16 bit number, high byte first. *)
Lemma u16_of_bytes z :
  0 ≤ z < 2 ^ 16 → u16 (Z.lor (u16 ((byte.wrap (z ≫ 8)) ≪ 8)) (byte.wrap z)) = z.
Proof.
  intros Hz. unfold byte.wrap, u16.
  assert (Hhi : 0 ≤ z ≫ 8 < 2 ^ 8).
  { rewrite Z.shiftr_div_pow2 by lia.
    split; [apply Z.div_pos; lia|apply Z.div_lt_upper_bound; lia]. }
  rewrite (Z.mod_small (z ≫ 8)) by done.
  rewrite (Z.mod_small ((z ≫ 8) ≪ 8)) by (rewrite Z.shiftl_mul_pow2; lia).
  assert (Z.lor ((z ≫ 8) ≪ 8) (z mod 2 ^ 8) = z) as ->; [|by apply Z.mod_small].
  apply Z.bits_inj'. intros n Hn. rewrite Z.lor_spec.
  destruct (decide (n < 8)).
  - rewrite Z.shiftl_spec_low, Z.mod_pow2_bits_low by lia. done.
  - rewrite Z.shiftl_spec_high, Z.shiftr_spec, Z.mod_pow2_bits_high by lia.
    replace (n - 8 + 8) with n by lia. by rewrite orb_false_r.
Qed.

(** Each turn moves the offset forward within the query. *)
Lemma parse_labels_no_panic fuel query offset parts :
  (length query < fuel + offset)%nat → (0 < fuel)%nat →
  match parse_labels fuel query offset parts with
  | Ok (_, o) => (o ≤ length query)%nat
  | Err _ => True
  | Panic => False
  end.
Proof.
  revert offset parts. induction fuel as [|fuel IH]; intros offset parts Hf Hp; [lia|].
  cbn [parse_labels]. destruct (length query <=? offset)%nat eqn:E; [done|]. bool_to_prop.
  unfold index. destruct (query !! offset) as [b|] eqn:Eb; [|apply lookup_ge_None in Eb; lia].
  cbn [result_bind]. destruct (_ =? 0)%nat eqn:E1; [lia|]. apply Nat.eqb_neq in E1.
  destruct (_ <? _)%nat eqn:E2; [done|]. bool_to_prop.
  apply IH; lia.
Qed.

Lemma parseQuestion_no_panic query : parseQuestion query ≠ Panic.
Proof.
  unfold parseQuestion. destruct (length query <? 16)%nat; [done|].
  pose proof (parse_labels_no_panic (S (length query)) query 12 [] ltac:(lia) ltac:(lia)) as Hl.
  destruct (parse_labels _ _ _ _) as [[parts o]| |]; [|done..]. cbn [result_bind].
  destruct (length query <? o + 4)%nat eqn:E; [done|]. bool_to_prop. unfold index.
  destruct (query !! o) eqn:E1; [|apply lookup_ge_None in E1; lia].
  destruct (query !! S o) eqn:E2; [|apply lookup_ge_None in E2; lia]. done.
Qed.

(** ** The buffer *)
Lemma empty_buffer_panics pooled txID :
  result_bind (slice_copy_prefix (newDNSBuffer pooled) 2 txID) (λ b, slice_set b 2 Byte.x81) = Panic.
Proof. unfold slice_copy_prefix, reslice, newDNSBuffer. simpl. by case_match. Qed.

Lemma buildDNSResponse_panics pooled txID query cs ttl qtype :
  buildDNSResponse pooled txID query cs ttl qtype = Panic.
Proof.
  unfold buildDNSResponse. pose proof (empty_buffer_panics pooled txID) as Hp.
  destruct (slice_copy_prefix _ _ _) as [b| |]; [|done..]. cbn [result_bind] in *. by rewrite Hp.
Qed.

Lemma buildNXDOMAIN_panics pooled txID query : buildNXDOMAIN pooled txID query = Panic.
Proof.
  unfold buildNXDOMAIN. pose proof (empty_buffer_panics pooled txID) as Hp.
  destruct (slice_copy_prefix _ _ _) as [b| |]; [|done..]. cbn [result_bind] in *. by rewrite Hp.
Qed.
End answers.

(** ** Properties *)

(** the question of every well-formed query (any 12 byte header, labels
    of 1 to 255 bytes, any type and class, any trailing records) is parsed back to
    the dotted name and the type. *)
Theorem parse_question_roundtrip header labels qtype qclass rest :
  length header = 12%nat → labels_ok labels → 0 ≤ qtype < 2 ^ 16 →
  parseQuestion (header ++ encode_labels labels ++ be_split 2 qtype ++ be_split 2 qclass ++ rest) =
    Ok (join_dots labels, qtype).
Proof.
  intros Hh Hok Hq. unfold parseQuestion.
  assert (Hlen : (1 ≤ length (encode_labels labels))%nat)
    by (unfold encode_labels; rewrite length_app; simpl; lia).
  set (tail := be_split 2 qtype ++ be_split 2 qclass ++ rest).
  assert (Htail : (4 ≤ length tail)%nat)
    by (subst tail; rewrite !length_app, !length_be_split; lia).
  destruct (_ <? 16)%nat eqn:E; bool_to_prop; [rewrite !length_app in E; lia|].
  pose proof (parse_labels_encoded labels (S (length (header ++ encode_labels labels ++ tail)))
    header [] tail Hok) as Hp.
  rewrite Hh in Hp. rewrite Hp by (rewrite !length_app; pose proof (length_encode_labels labels); lia).
  clear Hp. cbn [result_bind app].
  set (o := (12 + length (encode_labels labels))%nat).
  assert (Ho : ∀ i b, tail !! i = Some b →
    index (header ++ encode_labels labels ++ tail) (o + i) = Ok (byte.unsigned b)).
  { intros i b Hi. unfold index. rewrite app_assoc.
    rewrite lookup_app_r by (rewrite length_app; lia).
    replace (o + i - length (header ++ encode_labels labels))%nat with i by (rewrite length_app; lia).
    by rewrite Hi. }
  destruct (_ <? o + 4)%nat eqn:E1; bool_to_prop; [rewrite !length_app in E1; lia|].
  assert (Ht : tail = byte.of_Z (qtype ≫ 8) :: byte.of_Z qtype :: be_split 2 qclass ++ rest) by done.
  rewrite <- (Nat.add_0_r o) at 1. rewrite (Ho 0%nat (byte.of_Z (qtype ≫ 8))) by (by rewrite Ht).
  rewrite <- (Nat.add_1_r o). rewrite (Ho 1%nat (byte.of_Z qtype)) by (by rewrite Ht).
  cbn [result_bind]. f_equal. f_equal. rewrite !byte.unsigned_of_Z. apply u16_of_bytes. lia.
Qed.

(** [parseQuestion] terminates on every datagram and never indexes
    beyond it: it returns a name and a type or an error. *)
Theorem parse_question_total query :
  (∃ name qtype, parseQuestion query = Ok (name, qtype)) ∨ ∃ e, parseQuestion query = Err e.
Proof.
  pose proof (parseQuestion_no_panic query).
  destruct (parseQuestion query) as [[name qtype]| |]; [left; eauto|right; eauto|done].
Qed.

(** the adapter crashes on every query it can parse: the pooled buffer has
    length zero, so the first header byte written after the transaction id is out
    of range, whether the answer is a list of addresses or NXDOMAIN. *)
Theorem every_query_panics extractIP unicode_lower s now dispatch pooled query name qtype :
  parseQuestion query = Ok (name, qtype) →
  Server_handleQuery extractIP unicode_lower s now dispatch pooled query = Panic.
Proof.
  intros Hp. unfold Server_handleQuery. rewrite Hp.
  destruct (length query <? 12)%nat eqn:E; bool_to_prop.
  { unfold parseQuestion in Hp. destruct (length query <? 16)%nat eqn:E'; [done|]. bool_to_prop. lia. }
  rewrite buildNXDOMAIN_panics. destruct (resource_of _ _ _); [|done].
  destruct (if _ && _ then _ else _) as [[|c cs]| |]; [done| |done|done].
  by rewrite buildDNSResponse_panics.
Qed.

(** ** Witnesses *)
Definition demo_header : bytes := replicate 12 Byte.x00.
Definition demo_labels : list bytes := [bytes_of_string "edge"; bytes_of_string "example"].
Definition demo_query : bytes :=
  demo_header ++ encode_labels demo_labels ++ be_split 2 28 ++ be_split 2 1 ++ [].

Lemma parse_question_roundtrip_witness :
  parseQuestion demo_query = Ok (bytes_of_string "edge.example", 28).
Proof.
  apply (parse_question_roundtrip demo_header demo_labels 28 1 []); [reflexivity| |lia].
  repeat constructor; simpl; lia.
Defined.

Lemma every_query_panics_witness :
  Server_handleQuery (λ _, None) (λ l, l) (mkDnsServer "example" 60 ∅ 0) 1 (λ _, Ok [])
    (replicate 512 Byte.x00) demo_query = Panic.
Proof.
  apply (every_query_panics (λ _, None) (λ l, l) (mkDnsServer "example" 60 ∅ 0) 1 (λ _, Ok [])
    (replicate 512 Byte.x00) demo_query (bytes_of_string "edge.example") 28).
  vm_compute. reflexivity.
Defined.
