(* ===== verification/AdminAuth.v ===== *)
(** * Admin request authentication ([internal/auth/admin.go] and
      [internal/controlplane/admin_internal.go])

    Two services check signed admin requests: [AdminAuth.Verify] with a [NonceCache]
    whose clean-up runs in a goroutine, and the middleware of the internal admin API,
    which cleans up its nonces while it checks.  Both accept a timestamp within a
    clock skew and remember the nonce.  HMAC-SHA256 and base64 are executed, not
    assumed.  Times are in nanoseconds.

    The theorems: an accepted request is never accepted again, whatever other
    requests and clean-ups happen in between, as long as nonces are kept for twice
    the skew (the deployed settings do); a request with a wrong signature burns the
    nonce of the right one. *)

From S2P Require Import Prelude GoHash GoStrings.
From Stdlib Require Import Ascii.

Definition second_ns : Z := 1000000000.

(** ** Base64, standard alphabet with padding *)
Definition b64_char (v : Z) : ascii :=
  default (ascii_of_nat 65)
    (to_chars "ABCDEFGHIJKLMNOPQRSTUVWXYZabcdefghijklmnopqrstuvwxyz0123456789+/" !! Z.to_nat v).

Fixpoint base64_encode (b : list Z) : chars :=
  match b with
  | [] => []
  | [x] => [b64_char (x / 4); b64_char ((x mod 4) * 16)] ++ to_chars "=="
  | [x; y] => [b64_char (x / 4); b64_char ((x mod 4) * 16 + y / 16); b64_char ((y mod 16) * 4)] ++ to_chars "="
  | x :: y :: z :: rest =>
      [b64_char (x / 4); b64_char ((x mod 4) * 16 + y / 16); b64_char ((y mod 16) * 4 + z / 64);
       b64_char (z mod 64)] ++ base64_encode rest
  end.

Example base64_test : of_chars (base64_encode [77; 97; 110; 77]) = "TWFuTQ==".
Proof. reflexivity. Qed.

Definition computeHMAC (secret keyID timestamp nonce : string) : string :=
  let msg := String.append keyID (String.append "|" (String.append timestamp (String.append "|" nonce))) in
  of_chars (base64_encode (byte.unsigned <$> hmac_sha256 (bytes_of_string secret) (bytes_of_string msg))).

(** ** The nonce cache *)
Record NonceCache := mkNonceCache { nonces : gmap string Z; maxAge : Z }.

Definition NewNonceCache (age : Z) : NonceCache := mkNonceCache ∅ age.

Definition NonceCache_CheckAndStore (nc : NonceCache) (nonce : string) (now : Z) : bool * NonceCache :=
  match nonces nc !! nonce with
  | Some _ => (false, nc)
  | None => (true, mkNonceCache (<[nonce := now]> (nonces nc)) (maxAge nc))
  end.

(** One turn of [cleanupLoop]. *)
Definition NonceCache_cleanup (nc : NonceCache) (now : Z) : NonceCache :=
  mkNonceCache (filter (λ '(_, v), now - v ≤ maxAge nc) (nonces nc)) (maxAge nc).

(** ** [AdminAuth] *)
Record AdminAuth := mkAdminAuth { accessKeys : gmap string string; nonceTTL : Z; clockSkew : Z }.

Definition NewAdminAuth (accessKey secretKey : string) (ttl skew : Z) : AdminAuth :=
  mkAdminAuth (if negb (String.eqb accessKey "") && negb (String.eqb secretKey "")
               then {[accessKey := secretKey]} else ∅) ttl skew.

Definition AdminAuth_AddKey (a : AdminAuth) (accessKey secretKey : string) : AdminAuth :=
  mkAdminAuth (<[accessKey := secretKey]> (accessKeys a)) (nonceTTL a) (clockSkew a).

Definition AdminAuth_IsEnabled (a : AdminAuth) : bool := negb (size (accessKeys a) =? 0)%nat.

(** The four headers of a request. *)
Record adminRequest := mkAdminRequest {
  rq_KeyId : string;
  rq_Timestamp : string;
  rq_Nonce : string;
  rq_Signature : string
}.

(** [int64(a.clockSkew.Seconds())]: the skew in whole seconds. *)
Definition skew_seconds (a : AdminAuth) : Z := Z.quot (clockSkew a) second_ns.

Definition AdminAuth_Verify (a : AdminAuth) (nc : NonceCache) (now : Z) (r : adminRequest)
    : result string * NonceCache :=
  if String.eqb (rq_KeyId r) "" || String.eqb (rq_Timestamp r) "" || String.eqb (rq_Nonce r) ""
     || String.eqb (rq_Signature r) ""
  then (Err "missing admin auth headers", nc)
  else
    match parse_int (to_chars (rq_Timestamp r)) with
    | None => (Err "invalid timestamp", nc)
    | Some ts =>
        let nowSec := now / second_ns in
        if (ts <? nowSec - skew_seconds a) || (nowSec + skew_seconds a <? ts)
        then (Err "timestamp out of range", nc)
        else
          let '(fresh, nc') := NonceCache_CheckAndStore nc (rq_Nonce r) now in
          if negb fresh then (Err "nonce already used (replay attack)", nc')
          else
            match accessKeys a !! rq_KeyId r with
            | None => (Err "invalid access key", nc')
            | Some secret =>
                if String.eqb (rq_Signature r)
                     (computeHMAC secret (rq_KeyId r) (rq_Timestamp r) (rq_Nonce r))
                then (Ok (rq_KeyId r), nc')
                else (Err "invalid signature", nc')
            end
    end.

(** The middleware: does the request reach the handler? *)
Definition AdminAuth_Middleware (a : AdminAuth) (nc : NonceCache) (now : Z) (r : adminRequest)
    : bool * NonceCache :=
  if negb (AdminAuth_IsEnabled a) then (true, nc)
  else let '(res, nc') := AdminAuth_Verify a nc now r in
       (match res with Ok _ => true | _ => false end, nc').

(** ** Histories *)

(** What happens to the nonce cache up to a time: other requests (accepted or not)
    and clean-ups, at non-decreasing times. *)
Inductive nonce_history (a : AdminAuth) : NonceCache → Z → NonceCache → Z → Prop :=
| nh_none nc t : nonce_history a nc t nc t
| nh_request nc t nc1 t1 r t2 :
    nonce_history a nc t nc1 t1 → t1 ≤ t2 →
    nonce_history a nc t (AdminAuth_Verify a nc1 t2 r).2 t2
| nh_cleanup nc t nc1 t1 t2 :
    nonce_history a nc t nc1 t1 → t1 ≤ t2 → nonce_history a nc t (NonceCache_cleanup nc1 t2) t2
| nh_wait nc t nc1 t1 t2 :
    nonce_history a nc t nc1 t1 → t1 ≤ t2 → nonce_history a nc t nc1 t2.

(** The nonce used at [t1] is still remembered, or too old to matter. *)
Definition remembered (nonce : string) (t1 : Z) (nc : NonceCache) (t : Z) : Prop :=
  (∃ v, nonces nc !! nonce = Some v ∧ t1 ≤ v) ∨ maxAge nc < t - t1.

Lemma verify_nonces a nc now r n v :
  nonces nc !! n = Some v → nonces (AdminAuth_Verify a nc now r).2 !! n = Some v.
Proof.
  intros Hn. unfold AdminAuth_Verify, NonceCache_CheckAndStore.
  repeat case_match; simplify_eq/=; try done;
    rewrite lookup_insert_ne by congruence; done.
Qed.

Lemma verify_maxAge a nc now r : maxAge (AdminAuth_Verify a nc now r).2 = maxAge nc.
Proof. unfold AdminAuth_Verify, NonceCache_CheckAndStore. by repeat case_match; simplify_eq/=. Qed.

Lemma history_remembers a nonce t1 nc t nc' t' :
  nonce_history a nc t nc' t' → t1 ≤ t → remembered nonce t1 nc t →
  t ≤ t' ∧ maxAge nc' = maxAge nc ∧ remembered nonce t1 nc' t'.
Proof.
  intros Hh Ht. induction Hh as [nc t|nc t nc1 t2 r t3 Hh IH Hle|nc t nc1 t2 t3 Hh IH Hle|nc t nc1 t2 t3 Hh IH Hle];
    intros Hr; [done|destruct (IH Ht Hr) as (Hmon & Hage & Hrem)..].
  - split; [lia|]. split; [by rewrite verify_maxAge|].
    destruct Hrem as [(v & Hv & Hv1)|Hold].
    + left. exists v. split; [by apply verify_nonces|done].
    + right. rewrite verify_maxAge. lia.
  - split; [lia|]. split; [done|].
    destruct Hrem as [(v & Hv & Hv1)|Hold]; [|right; simpl; lia].
    destruct (decide (t3 - v ≤ maxAge nc1)) as [Hage'|Hage'].
    + left. exists v. split; [|done]. simpl. by apply map_lookup_filter_Some.
    + right. simpl. lia.
  - split; [lia|]. split; [done|]. destruct Hrem as [?|?]; [by left|right; lia].
Qed.

Lemma verify_accepts a nc now r k nc' :
  AdminAuth_Verify a nc now r = (Ok k, nc') →
  nonces nc' !! rq_Nonce r = Some now ∧ maxAge nc' = maxAge nc ∧
  ∃ ts, parse_int (to_chars (rq_Timestamp r)) = Some ts ∧
    now / second_ns - skew_seconds a ≤ ts ≤ now / second_ns + skew_seconds a.
Proof.
  unfold AdminAuth_Verify, NonceCache_CheckAndStore. intros Hv.
  destruct (_ || _ || _ || _); [done|].
  destruct (parse_int _) as [ts|]; [|done].
  destruct (_ || _) eqn:Erange; [done|].
  destruct (nonces nc !! rq_Nonce r) eqn:En; [done|]. simpl in Hv.
  destruct (accessKeys a !! rq_KeyId r); [|done]. destruct (String.eqb _ _); [|done].
  injection Hv as <- <-. split; [apply lookup_insert_eq|]. split; [done|].
  exists ts. split; [done|]. bool_to_prop. lia.
Qed.

(** ** The middleware of the internal admin API *)
Record internalAuth := mkInternalAuth {
  ia_keyID : string;
  ia_secret : bytes;
  ia_allowedNets : list (list Z → bool);   (* each network by its [Contains] *)
  ia_seenNonces : gmap string Z;
  ia_lastCleanup : option Z   (* [None]: the zero time *)
}.
Definition ia_nonceTTL : Z := 10 * 60 * second_ns.
Definition ia_maxSkew : Z := 5 * 60 * second_ns.
Definition ia_cleanupEvery : Z := 60 * second_ns.

Definition checkAndRememberNonce (a : internalAuth) (nonce : string) (now : Z) : bool * internalAuth :=
  let last := default now (ia_lastCleanup a) in
  let '(seen, last) :=
    if ia_cleanupEvery <=? now - last
    then (filter (λ '(_, t), now - ia_nonceTTL ≤ t) (ia_seenNonces a), now)
    else (ia_seenNonces a, last) in
  match seen !! nonce with
  | Some _ => (false, mkInternalAuth (ia_keyID a) (ia_secret a) (ia_allowedNets a) seen (Some last))
  | None => (true, mkInternalAuth (ia_keyID a) (ia_secret a) (ia_allowedNets a) (<[nonce := now]> seen) (Some last))
  end.

Definition newAdminAuth (accessKey secretKey : string) : internalAuth :=
  mkInternalAuth accessKey (bytes_of_string secretKey) [] ∅ None.

Definition ipAllowed (a : internalAuth) (ip : list Z) : bool :=
  existsb (λ n, n ip) (ia_allowedNets a).

(** What the middleware reads of a request. *)
Record internalRequest := mkInternalRequest {
  ir_KeyId : string;
  ir_Timestamp : string;
  ir_Nonce : string;
  ir_SigHex : string;
  ir_Method : string;
  ir_Path : string;
  ir_Body : option bytes;        (* [None]: reading the body fails *)
  ir_IP : option (list Z);       (* [net.ParseIP(clientIP(r))] *)
  ir_UserId : string;
  ir_TenantId : string;
  ir_ProjectId : string
}.

Definition hex_digit (c : ascii) : option Z :=
  let n := Z.of_nat (nat_of_ascii c) in
  if (48 <=? n) && (n <=? 57) then Some (n - 48)
  else if (97 <=? n) && (n <=? 102) then Some (n - 87)
  else if (65 <=? n) && (n <=? 70) then Some (n - 55)
  else None.

(** [hex.DecodeString]. *)
Fixpoint hex_decode (l : chars) : option (list Z) :=
  match l with
  | [] => Some []
  | [_] => None
  | a :: b :: rest =>
      match hex_digit a, hex_digit b, hex_decode rest with
      | Some x, Some y, Some zs => Some (x * 16 + y :: zs)
      | _, _, _ => None
      end
  end.

Definition trimmed (s : string) : string := of_chars (trim_space (to_chars s)).

Definition signed_payload (ts nonce : string) (r : internalRequest) (body : bytes) : bytes :=
  let nl := String.String (ascii_of_nat 10) String.EmptyString in
  bytes_of_string (foldr String.append (hex_encode (sha256_sum body))
    [ts; nl; nonce; nl; ir_Method r; nl; ir_Path r; nl]).

(** [io.LimitReader(r.Body, 1<<20)]: what follows the first mebibyte is dropped. *)
Definition body_limit : nat := Z.to_nat (Z.shiftl 1 20).

(** [Ok] means that the request reaches its handler, for the actor returned. *)
Definition internalAuth_middleware (a : internalAuth) (now : Z) (r : internalRequest)
    : result (string * string * string) * internalAuth :=
  let keyID := trimmed (ir_KeyId r) in
  let tsRaw := trimmed (ir_Timestamp r) in
  let nonce := trimmed (ir_Nonce r) in
  let sigHex := trimmed (ir_SigHex r) in
  if negb (length (ia_allowedNets a) =? 0)%nat && negb (from_option (ipAllowed a) false (ir_IP r))
  then (Err "client ip not allowed", a)
  else if String.eqb keyID "" || String.eqb tsRaw "" || String.eqb nonce "" || String.eqb sigHex ""
  then (Err "missing admin auth headers", a)
  else if negb (String.eqb keyID (ia_keyID a)) then (Err "invalid key id", a)
  else
    match parse_int (to_chars tsRaw) with
    | None => (Err "invalid timestamp", a)
    | Some ts =>
        let t := ts * second_ns in
        if (now + ia_maxSkew <? t) || (t <? now - ia_maxSkew) then (Err "timestamp out of range", a)
        else
          let '(fresh, a') := checkAndRememberNonce a nonce now in
          if negb fresh then (Err "replayed nonce", a')
          else
            match ir_Body r with
            | None => (Err "failed to read body", a')
            | Some all =>
                let body := take body_limit all in
                let want := byte.unsigned <$> hmac_sha256 (ia_secret a) (signed_payload tsRaw nonce r body) in
                match hex_decode (to_chars sigHex) with
                | Some got =>
                    if bool_decide (got = want) then
                      let user := trimmed (ir_UserId r) in
                      let tenant := trimmed (ir_TenantId r) in
                      let project := trimmed (ir_ProjectId r) in
                      if String.eqb user "" || String.eqb tenant "" || String.eqb project ""
                      then (Err "missing actor headers", a')
                      else (Ok (user, tenant, project), a')
                    else (Err "invalid signature", a')
                | None => (Err "invalid signature", a')
                end
            end
    end.

(** Requests at non-decreasing times. *)
Inductive internal_history : internalAuth → Z → internalAuth → Z → Prop :=
| ih_none a t : internal_history a t a t
| ih_request a t a1 t1 r t2 :
    internal_history a t a1 t1 → t1 ≤ t2 →
    internal_history a t (internalAuth_middleware a1 t2 r).2 t2
| ih_wait a t a1 t1 t2 : internal_history a t a1 t1 → t1 ≤ t2 → internal_history a t a1 t2.

Definition ia_remembered (nonce : string) (t1 : Z) (a : internalAuth) (t : Z) : Prop :=
  (∃ v, ia_seenNonces a !! nonce = Some v ∧ t1 ≤ v) ∨ ia_nonceTTL < t - t1.

Lemma check_remembers a nonce now n t1 :
  t1 ≤ now → ia_remembered n t1 a now → ia_remembered n t1 (checkAndRememberNonce a nonce now).2 now.
Proof.
  intros Ht [(v & Hv & Hv1)|Hold]; [|by right]. unfold checkAndRememberNonce.
  destruct (ia_cleanupEvery <=? _).
  - destruct (decide (now - ia_nonceTTL ≤ v)) as [Hage|Hage]; [|right; lia]. left. exists v.
    assert (Hf : filter (λ '(_, t), now - ia_nonceTTL ≤ t) (ia_seenNonces a) !! n = Some v)
      by (by apply map_lookup_filter_Some).
    case_match; simpl; [done|]. rewrite lookup_insert_ne; [done|congruence].
  - left. exists v. case_match; simpl; [done|]. rewrite lookup_insert_ne; [done|congruence].
Qed.

Lemma middleware_remembers a now r n t1 :
  t1 ≤ now → ia_remembered n t1 a now → ia_remembered n t1 (internalAuth_middleware a now r).2 now.
Proof.
  intros Ht Hr. unfold internalAuth_middleware.
  pose proof (check_remembers a (trimmed (ir_Nonce r)) now n t1 Ht Hr) as Hc.
  destruct (checkAndRememberNonce _ _ _) as [fresh a']. simpl in Hc. by repeat case_match; simplify_eq/=.
Qed.

Lemma internal_history_remembers n t1 a t a' t' :
  internal_history a t a' t' → t1 ≤ t → ia_remembered n t1 a t → t ≤ t' ∧ ia_remembered n t1 a' t'.
Proof.
  intros Hh Ht. induction Hh as [a t|a t a1 t2 r t3 Hh IH Hle|a t a1 t2 t3 Hh IH Hle];
    intros Hr; [done|destruct (IH Ht Hr) as (Hmon & Hrem)..]; (split; [lia|]).
  - apply middleware_remembers; [lia|]. destruct Hrem as [?|?]; [by left|right; lia].
  - destruct Hrem as [?|?]; [by left|right; lia].
Qed.

Lemma middleware_accepts a now r who a' :
  internalAuth_middleware a now r = (Ok who, a') →
  ia_seenNonces a' !! trimmed (ir_Nonce r) = Some now ∧
  ∃ ts, parse_int (to_chars (trimmed (ir_Timestamp r))) = Some ts ∧
    now - ia_maxSkew ≤ ts * second_ns ≤ now + ia_maxSkew.
Proof.
  unfold internalAuth_middleware. intros Hv.
  destruct (negb _ && negb _); [done|]. destruct (_ || _ || _ || _); [done|].
  destruct (negb (String.eqb _ _)); [done|]. destruct (parse_int _) as [ts|]; [|done].
  destruct (_ || _) eqn:Erange; [done|].
  destruct (checkAndRememberNonce _ _ _) as [fresh a1] eqn:Ec.
  destruct fresh; [|done]. simpl in Hv.
  assert (a' = a1) as ->.
  { destruct (ir_Body r); [|done]. destruct (hex_decode _); [|done]. destruct (bool_decide _); [|done].
    destruct (_ || _ || _); by simplify_eq. }
  split.
  - unfold checkAndRememberNonce in Ec. destruct (if _ <=? _ then _ else _) as [seen last].
    destruct (seen !! trimmed (ir_Nonce r)); [done|]. injection Ec as <-. simpl. apply lookup_insert_eq.
  - exists ts. split; [done|]. bool_to_prop. lia.
Qed.

(** ** Properties *)

Lemma verify_signed a nc now r k nc' :
  AdminAuth_Verify a nc now r = (Ok k, nc') →
  ∃ secret, accessKeys a !! k = Some secret ∧
    rq_Signature r = computeHMAC secret k (rq_Timestamp r) (rq_Nonce r).
Proof.
  unfold AdminAuth_Verify. destruct (NonceCache_CheckAndStore _ _ _) as [fresh nc1]. intros Hv.
  destruct (_ || _ || _ || _); [done|]. destruct (parse_int _); [|done].
  destruct (_ || _); [done|]. destruct (negb fresh); [done|].
  destruct (accessKeys a !! rq_KeyId r) as [secret|] eqn:Ek; [|done].
  destruct (String.eqb _ _) eqn:Es; [|done]. injection Hv as <- <-.
  exists secret. split; [done|]. by apply String.eqb_eq.
Qed.

Lemma verify_rejected_stores a nc now r nc' :
  AdminAuth_Verify a nc now r = (Err "invalid signature", nc') → nonces nc' !! rq_Nonce r = Some now.
Proof.
  unfold AdminAuth_Verify, NonceCache_CheckAndStore. intros Hv.
  destruct (_ || _ || _ || _); [done|]. destruct (parse_int _); [|done].
  destruct (_ || _); [done|]. destruct (nonces nc !! rq_Nonce r); [done|]. simpl in Hv.
  destruct (accessKeys a !! rq_KeyId r); [|done]. destruct (String.eqb _ _); [done|].
  injection Hv as <-. apply lookup_insert_eq.
Qed.

(** A remembered nonce is refused, at whatever time and with whatever signature. *)
Lemma verify_known_nonce a nc now r v :
  nonces nc !! rq_Nonce r = Some v → ∃ e, (AdminAuth_Verify a nc now r).1 = Err e.
Proof.
  intros Hn. unfold AdminAuth_Verify, NonceCache_CheckAndStore. rewrite Hn.
  repeat case_match; simplify_eq/=; eauto.
Qed.

Lemma verify_out_of_range a nc now r ts :
  parse_int (to_chars (rq_Timestamp r)) = Some ts →
  ts < now / second_ns - skew_seconds a → ∃ e, (AdminAuth_Verify a nc now r).1 = Err e.
Proof.
  intros Hts Hlt. unfold AdminAuth_Verify. destruct (_ || _ || _ || _); [by eexists|]. rewrite Hts.
  destruct (_ || _) eqn:Er; [by eexists|]. bool_to_prop. lia.
Qed.

Lemma middleware_known_nonce a now r v :
  ia_seenNonces a !! trimmed (ir_Nonce r) = Some v → now - ia_nonceTTL ≤ v →
  ∃ e, (internalAuth_middleware a now r).1 = Err e.
Proof.
  intros Hn Hv. unfold internalAuth_middleware.
  assert (Hc : (checkAndRememberNonce a (trimmed (ir_Nonce r)) now).1 = false).
  { unfold checkAndRememberNonce. destruct (ia_cleanupEvery <=? _); [|by rewrite Hn].
    assert (filter (λ '(_, t), now - ia_nonceTTL ≤ t) (ia_seenNonces a) !! trimmed (ir_Nonce r) = Some v)
      as -> by (by apply map_lookup_filter_Some); done. }
  destruct (checkAndRememberNonce _ _ _) as [fresh a']. simpl in Hc. subst fresh.
  repeat case_match; simplify_eq/=; eauto.
Qed.

Lemma middleware_out_of_range a now r ts :
  parse_int (to_chars (trimmed (ir_Timestamp r))) = Some ts →
  ts * second_ns < now - ia_maxSkew → ∃ e, (internalAuth_middleware a now r).1 = Err e.
Proof.
  intros Hts Hlt. unfold internalAuth_middleware.
  destruct (negb _ && negb _); [by eexists|]. destruct (_ || _ || _ || _); [by eexists|].
  destruct (negb (String.eqb _ _)); [by eexists|]. rewrite Hts.
  destruct (_ || _) eqn:Er; [by eexists|]. bool_to_prop. lia.
Qed.

(** C34 (safety): An admin request that [AdminAuth.Verify] accepted is signed with the
    secret of its key, and it is never accepted again: whatever requests and clean-ups of
    the nonce cache follow, a later request with its nonce and timestamp is refused, as
    long as the cache keeps nonces for twice the allowed skew and a second (the deployed
    settings are five minutes for a skew of thirty seconds). *)
Theorem admin_request_accepted_once a nc t1 r k nc1 nc2 t2 r' :
  AdminAuth_Verify a nc t1 r = (Ok k, nc1) →
  (2 * skew_seconds a + 1) * second_ns ≤ maxAge nc →
  nonce_history a nc1 t1 nc2 t2 →
  rq_Nonce r' = rq_Nonce r → rq_Timestamp r' = rq_Timestamp r →
  (∃ secret, accessKeys a !! k = Some secret ∧
     rq_Signature r = computeHMAC secret k (rq_Timestamp r) (rq_Nonce r)) ∧
  ∃ e, (AdminAuth_Verify a nc2 t2 r').1 = Err e.
Proof.
  intros Hok Hmax Hh Hn Hts. split; [by eapply verify_signed|].
  destruct (verify_accepts _ _ _ _ _ _ Hok) as (Hstored & Hage & ts & Hparse & Hlo).
  assert (Hrem : remembered (rq_Nonce r) t1 nc1 t1) by (left; eauto with lia).
  destruct (history_remembers a (rq_Nonce r) t1 nc1 t1 nc2 t2 Hh ltac:(lia) Hrem)
    as (Hmon & Hage2 & [(v & Hv & _)|Hold]).
  - apply (verify_known_nonce a nc2 t2 r' v). by rewrite Hn.
  - apply (verify_out_of_range a nc2 t2 r' ts); [by rewrite Hts|].
    unfold second_ns in *. rewrite Hage2, Hage in Hold.
    pose proof (Z.div_mod t1 1000000000); pose proof (Z.mod_pos_bound t1 1000000000).
    pose proof (Z.div_mod t2 1000000000); pose proof (Z.mod_pos_bound t2 1000000000). lia.
Qed.

(** A request the middleware of the internal admin API let through is never
    let through again: after any other requests, one with its nonce and timestamp is
    refused (ten minutes of memory against a skew of five). *)
Theorem internal_request_accepted_once a t1 r who a1 a2 t2 r' :
  internalAuth_middleware a t1 r = (Ok who, a1) →
  internal_history a1 t1 a2 t2 →
  trimmed (ir_Nonce r') = trimmed (ir_Nonce r) →
  trimmed (ir_Timestamp r') = trimmed (ir_Timestamp r) →
  ∃ e, (internalAuth_middleware a2 t2 r').1 = Err e.
Proof.
  intros Hok Hh Hn Hts. destruct (middleware_accepts _ _ _ _ _ Hok) as (Hstored & ts & Hparse & Hrange).
  assert (Hnow : ia_remembered (trimmed (ir_Nonce r)) t1 a1 t1) by (left; eauto with lia).
  destruct (internal_history_remembers (trimmed (ir_Nonce r)) t1 a1 t1 a2 t2 Hh (Z.le_refl _) Hnow) as (Hmon & Hrem).
  destruct (decide (t2 - t1 ≤ ia_nonceTTL)) as [Hyoung|Hold].
  - destruct Hrem as [(v & Hv & Hv1)|?]; [|lia].
    apply (middleware_known_nonce a2 t2 r' v); [by rewrite Hn|lia].
  - apply (middleware_out_of_range a2 t2 r' ts); [by rewrite Hts|]. unfold ia_nonceTTL, ia_maxSkew in *. lia.
Qed.

(** The nonce is stored before the signature is looked at: a request with a wrong
    signature makes the genuine request with the same nonce fail. *)
Theorem wrong_signature_burns_nonce a nc now r nc1 now' r' :
  AdminAuth_Verify a nc now r = (Err "invalid signature", nc1) → rq_Nonce r' = rq_Nonce r →
  ∃ e, (AdminAuth_Verify a nc1 now' r').1 = Err e.
Proof.
  intros Hv Hn. apply (verify_known_nonce a nc1 now' r' now). rewrite Hn.
  by eapply verify_rejected_stores.
Qed.

(** ** Concrete runs *)
Definition demo_admin : AdminAuth := NewAdminAuth "ops" "s3cret" (300 * second_ns) (30 * second_ns).
Definition demo_time : Z := 1700000000 * second_ns.
Definition demo_request : adminRequest :=
  mkAdminRequest "ops" "1700000010" "n-1" (computeHMAC "s3cret" "ops" "1700000010" "n-1").
Definition demo_accepted : result string * NonceCache :=
  AdminAuth_Verify demo_admin (NewNonceCache (300 * second_ns)) demo_time demo_request.

Example demo_outcomes :
  demo_accepted.1 = Ok "ops" ∧
  (AdminAuth_Verify demo_admin demo_accepted.2 (demo_time + second_ns) demo_request).1
    = Err "nonce already used (replay attack)" ∧
  (AdminAuth_Verify demo_admin (NonceCache_cleanup demo_accepted.2 (demo_time + 400 * second_ns))
     (demo_time + 400 * second_ns) demo_request).1 = Err "timestamp out of range".
Proof. vm_compute. repeat split. Qed.

(** The request is accepted, a clean-up runs, and the replay a second later is refused. *)
Lemma admin_request_accepted_once_witness :
  ∃ e, (AdminAuth_Verify demo_admin (NonceCache_cleanup demo_accepted.2 (demo_time + second_ns))
          (demo_time + second_ns) demo_request).1 = Err e.
Proof.
  apply (admin_request_accepted_once demo_admin (NewNonceCache (300 * second_ns)) demo_time demo_request
           "ops" demo_accepted.2 _ _ demo_request).
  - vm_compute. reflexivity.
  - vm_compute. discriminate.
  - apply (nh_cleanup _ _ _ demo_accepted.2 demo_time); [constructor|vm_compute; discriminate].
  - reflexivity.
  - reflexivity.
Defined.

Definition demo_internal : internalAuth := newAdminAuth "ops" "s3cret".
Definition demo_body : bytes := bytes_of_string "{}".
Definition demo_unsigned (sig : string) : internalRequest :=
  mkInternalRequest "ops" "1700000010" " n-1 " sig "POST" "/internal/admin/v1/nodes" (Some demo_body) None
    "u" "t" "p".
Definition demo_internal_request : internalRequest :=
  demo_unsigned (hex_encode (hmac_sha256 (bytes_of_string "s3cret")
    (signed_payload "1700000010" "n-1" (demo_unsigned "") demo_body))).
Definition demo_internal_accepted : result (string * string * string) * internalAuth :=
  internalAuth_middleware demo_internal demo_time demo_internal_request.

(** Let through once, refused four minutes later. *)
Lemma internal_request_accepted_once_witness :
  demo_internal_accepted.1 = Ok ("u", "t", "p") ∧
  ∃ e, (internalAuth_middleware demo_internal_accepted.2 (demo_time + 240 * second_ns)
          demo_internal_request).1 = Err e.
Proof.
  split; [vm_compute; reflexivity|].
  apply (internal_request_accepted_once demo_internal demo_time demo_internal_request ("u", "t", "p")
           demo_internal_accepted.2).
  - vm_compute. reflexivity.
  - apply (ih_wait _ _ demo_internal_accepted.2 demo_time); [constructor|vm_compute; discriminate].
  - reflexivity.
  - reflexivity.
Defined.
