(* ===== verification/Leader.v ===== *)
(** * Leader election over Redis ([internal/controlplane/leader.go])

    Every control-plane instance runs [tryAcquire] each [renewInterval]: SETNX of the
    leader key with a time to live, and if the key exists GET and, for its own name,
    EXPIRE.  Each Redis command is a step of its own, so that the instances interleave
    between them; a command may fail, and one that fails may still have taken effect on
    the server.  Times are in milliseconds; the ghost field [in_lease] is the last expiry
    of its own key the instance learnt from Redis.

    The theorems: as long as no instance acts on a lease it has let lapse, at most one
    instance leads, whatever commands fail; the code itself does not watch the lease, so
    an instance cut off from Redis keeps leading beside its successor. *)

From S2P Require Import Prelude.

Definition leaderTTL : Z := 10000.
Definition renewInterval : Z := 3000.

(** Where an instance is: in the [select] of [Start], between SETNX and GET, between GET
    and EXPIRE, between the DEL and the store of [resign], or returned from [Start]. *)
Inductive phase := Waiting | SetNXFailed | OwnSeen | Resigning | Stopped.
#[export] Instance phase_eq_dec : EqDecision phase. Proof. solve_decision. Defined.

Record LeaderElection := mkLeaderElection {
  in_isLeader : bool;
  in_phase : phase;
  in_lease : Z   (* ghost *)
}.

Definition NewLeaderElection : LeaderElection := mkLeaderElection false Waiting 0.

Record Cluster := mkCluster {
  cl_key : option (string * Z);            (* the leader key: its value and expiry *)
  cl_insts : gmap string LeaderElection;
  cl_now : Z
}.

(** The value of the key if it has not expired. *)
Definition key_live (c : Cluster) : option (string * Z) :=
  match cl_key c with
  | Some (o, e) => if cl_now c <? e then Some (o, e) else None
  | None => None
  end.

Definition set_inst (c : Cluster) (i : string) (l : LeaderElection) : Cluster :=
  mkCluster (cl_key c) (<[i := l]> (cl_insts c)) (cl_now c).
Definition set_key (c : Cluster) (k : option (string * Z)) : Cluster :=
  mkCluster k (cl_insts c) (cl_now c).

(** ** The Redis commands, on the key alone *)
Definition redis_setnx (c : Cluster) (i : string) : bool * Cluster :=
  match key_live c with
  | Some _ => (false, c)
  | None => (true, set_key c (Some (i, cl_now c + leaderTTL)))
  end.
Definition redis_expire (c : Cluster) : Cluster :=
  match key_live c with
  | Some (o, _) => set_key c (Some (o, cl_now c + leaderTTL))
  | None => c
  end.

(** ** [tryAcquire], command by command

    [outcome] is what happens to a command: it succeeds, or it fails after it took
    effect ([true]) or without ([false]). *)
Inductive outcome := Reply | Failure (landed : bool).

Definition tryAcquire_setnx (c : Cluster) (i : string) (l : LeaderElection) (o : outcome) : Cluster :=
  match o with
  | Failure landed => if landed then (redis_setnx c i).2 else c
  | Reply =>
      let '(ok, c') := redis_setnx c i in
      if ok then set_inst c' i (mkLeaderElection true Waiting (cl_now c + leaderTTL))
      else set_inst c' i (mkLeaderElection (in_isLeader l) SetNXFailed (in_lease l))
  end.

(** A missing key is the error [redis.Nil]. *)
Definition tryAcquire_get (c : Cluster) (i : string) (l : LeaderElection) (o : outcome) : Cluster :=
  match o, key_live c with
  | Reply, Some (v, e) =>
      if String.eqb v i then set_inst c i (mkLeaderElection (in_isLeader l) OwnSeen e)
      else set_inst c i (mkLeaderElection false Waiting (in_lease l))
  | _, _ => set_inst c i (mkLeaderElection (in_isLeader l) Waiting (in_lease l))
  end.

Definition tryAcquire_expire (c : Cluster) (i : string) (l : LeaderElection) (o : outcome) : Cluster :=
  match o with
  | Reply => set_inst (redis_expire c) i (mkLeaderElection true Waiting (cl_now c + leaderTTL))
  | Failure landed =>
      set_inst (if landed then redis_expire c else c) i (mkLeaderElection false Waiting (in_lease l))
  end.

(** [resign]: nothing for an instance that does not lead; else DEL, whatever its
    outcome, and then the store. *)
Definition resign_del (c : Cluster) (i : string) (l : LeaderElection) (o : outcome) : Cluster :=
  if negb (in_isLeader l) then set_inst c i (mkLeaderElection false Stopped (in_lease l))
  else
    let c' := match o with Reply | Failure true => set_key c None | Failure false => c end in
    set_inst c' i (mkLeaderElection true Resigning (in_lease l)).
Definition resign_store (c : Cluster) (i : string) (l : LeaderElection) : Cluster :=
  set_inst c i (mkLeaderElection false Stopped (in_lease l)).

Definition LeaderElection_IsLeader (l : LeaderElection) : bool := in_isLeader l.

(** A full [tryAcquire] that is not interleaved. *)
Definition LeaderElection_tryAcquire (c : Cluster) (i : string) (o1 o2 o3 : outcome) : Cluster :=
  match cl_insts c !! i with
  | None => c
  | Some l =>
      let c1 := tryAcquire_setnx c i l o1 in
      match cl_insts c1 !! i with
      | Some l1 =>
          if decide (in_phase l1 = SetNXFailed) then
            let c2 := tryAcquire_get c1 i l1 o2 in
            match cl_insts c2 !! i with
            | Some l2 => if decide (in_phase l2 = OwnSeen) then tryAcquire_expire c2 i l2 o3 else c2
            | None => c2
            end
          else c1
      | None => c1
      end
  end.

(** ** Runs *)
Section runs.
(** What is assumed of the moments time may pass to. *)
Variable may_wait : Cluster → Z → Prop.

Inductive le_step : Cluster → Cluster → Prop :=
| le_setnx c i l o : cl_insts c !! i = Some l → in_phase l = Waiting → le_step c (tryAcquire_setnx c i l o)
| le_get c i l o : cl_insts c !! i = Some l → in_phase l = SetNXFailed → le_step c (tryAcquire_get c i l o)
| le_expire c i l o : cl_insts c !! i = Some l → in_phase l = OwnSeen → le_step c (tryAcquire_expire c i l o)
| le_resign c i l o : cl_insts c !! i = Some l → in_phase l = Waiting → le_step c (resign_del c i l o)
| le_resigned c i l : cl_insts c !! i = Some l → in_phase l = Resigning → le_step c (resign_store c i l)
| le_wait c t : cl_now c ≤ t → may_wait c t → le_step c (mkCluster (cl_key c) (cl_insts c) t).

Definition le_run : Cluster → Cluster → Prop := rtc le_step.
End runs.

(** The instance acts as leader, or is about to prolong its lease. *)
Definition relies (l : LeaderElection) : Prop :=
  (in_isLeader l = true ∨ in_phase l = OwnSeen) ∧ in_phase l ≠ Resigning ∧ in_phase l ≠ Stopped.

(** Renewals are timely: no instance relies on a lease that has lapsed. *)
Definition timely (c : Cluster) (t : Z) : Prop :=
  ∀ i l, cl_insts c !! i = Some l → relies l → t < in_lease l.

Definition any_time (c : Cluster) (t : Z) : Prop := True.

(** The instances [names], freshly started against an empty Redis. *)
Definition start_cluster (names : list string) : Cluster :=
  mkCluster None (list_to_map ((λ n, (n, NewLeaderElection)) <$> names)) 0.

(** ** The invariant of timely runs *)
Definition le_inv (c : Cluster) : Prop :=
  (∀ o e, cl_key c = Some (o, e) → e ≤ cl_now c + leaderTTL) ∧
  ∀ i l, cl_insts c !! i = Some l → relies l →
    ∃ e, key_live c = Some (i, e) ∧ in_lease l ≤ e.

Lemma key_live_Some c o e : key_live c = Some (o, e) ↔ cl_key c = Some (o, e) ∧ cl_now c < e.
Proof.
  unfold key_live. destruct (cl_key c) as [[o' e']|]; [|naive_solver].
  destruct (Z.ltb_spec (cl_now c) e'); naive_solver lia.
Qed.

Lemma start_inv names : le_inv (start_cluster names).
Proof.
  split; [done|]. intros i l Hl [Hr _]. simpl in Hl.
  assert (l = NewLeaderElection) as ->.
  { apply elem_of_list_to_map_2, list_elem_of_fmap in Hl. naive_solver. }
  destruct Hr; done.
Qed.

Lemma set_inst_inv c i l :
  le_inv c → (relies l → ∃ e, key_live c = Some (i, e) ∧ in_lease l ≤ e) → le_inv (set_inst c i l).
Proof.
  intros [Hkey Hinv] Hl. split; [done|]. intros j l' Hj Hr. simpl in Hj.
  apply lookup_insert_Some in Hj as [[<- <-]|[_ Hj]]; [exact (Hl Hr)|exact (Hinv j l' Hj Hr)].
Qed.

Lemma setnx_inv c i : le_inv c → le_inv (redis_setnx c i).2.
Proof.
  intros Hi. unfold redis_setnx. destruct (key_live c) as [[o e]|] eqn:Ek; [exact Hi|].
  destruct Hi as [Hkey Hinv]. split; [intros o e [= <- <-]; simpl; lia|].
  intros j l Hj Hr. destruct (Hinv j l Hj Hr) as (e & He & _). congruence.
Qed.

Lemma setnx_live c i c' : redis_setnx c i = (true, c') → key_live c' = Some (i, cl_now c + leaderTTL).
Proof.
  unfold redis_setnx. destruct (key_live c) as [[o e]|]; [done|]. intros [= <-].
  apply key_live_Some. simpl. split; [done|]. unfold leaderTTL. lia.
Qed.

Lemma expire_live c o e : key_live c = Some (o, e) → key_live (redis_expire c) = Some (o, cl_now c + leaderTTL).
Proof.
  unfold redis_expire. intros ->. apply key_live_Some. simpl. split; [done|]. unfold leaderTTL. lia.
Qed.

Lemma expire_inv c : le_inv c → le_inv (redis_expire c).
Proof.
  intros Hi. destruct (key_live c) as [[o e]|] eqn:Ek; [|by unfold redis_expire; rewrite Ek].
  destruct Hi as [Hkey Hinv].
  assert (Hins : cl_insts (redis_expire c) = cl_insts c) by (unfold redis_expire; by rewrite Ek).
  assert (Hnow : cl_now (redis_expire c) = cl_now c) by (unfold redis_expire; by rewrite Ek).
  pose proof (expire_live c o e Ek) as He. pose proof (proj1 (key_live_Some _ _ _) He) as [Hk _].
  split.
  - intros o' e' Hk'. rewrite Hk in Hk'. injection Hk' as <- <-. lia.
  - intros j l Hj Hr. rewrite Hins in Hj. destruct (Hinv j l Hj Hr) as (e' & He' & Hle).
    assert (o = j ∧ e = e') as [-> ->] by (split; congruence).
    exists (cl_now c + leaderTTL). split; [done|].
    apply key_live_Some in He' as [Hk1 _]. specialize (Hkey _ _ Hk1). lia.
Qed.

(** Two instances that rely on their lease are the same. *)
Lemma relies_unique c i j l l' :
  le_inv c → cl_insts c !! i = Some l → relies l → cl_insts c !! j = Some l' → relies l' → i = j.
Proof.
  intros [_ Hinv] Hi Hri Hj Hrj.
  destruct (Hinv i l Hi Hri) as (e & He & _), (Hinv j l' Hj Hrj) as (e' & He' & _). congruence.
Qed.

Lemma del_inv c i l :
  le_inv c → cl_insts c !! i = Some l → relies l →
  le_inv (set_inst (set_key c None) i (mkLeaderElection true Resigning (in_lease l))).
Proof.
  intros Hinv Hi Hr. split; [done|]. intros j l' Hj Hr'. simpl in Hj.
  apply lookup_insert_Some in Hj as [[<- <-]|[Hne Hj]]; [by destruct Hr' as (_ & ? & _)|].
  exfalso. apply Hne. by eapply relies_unique.
Qed.

Lemma step_setnx_inv c i l o :
  le_inv c → cl_insts c !! i = Some l → in_phase l = Waiting → le_inv (tryAcquire_setnx c i l o).
Proof.
  intros Hinv Hi Hp. unfold tryAcquire_setnx.
  pose proof (setnx_inv c i Hinv) as Hs. destruct o as [|[]]; [|done..].
  destruct (redis_setnx c i) as [ok c'] eqn:Es. simpl in Hs. destruct ok.
  - apply set_inst_inv; [done|]. intros _. exists (cl_now c + leaderTTL).
    split; [by apply setnx_live|done].
  - unfold redis_setnx in Es. destruct (key_live c); [|done]. injection Es as <-.
    apply set_inst_inv; [done|]. intros [[Hb|?] _]; [|done]. simpl in Hb.
    destruct Hinv as [_ Hinv]. apply (Hinv i l Hi). split; [by left|by rewrite Hp].
Qed.

Lemma step_get_inv c i l o :
  le_inv c → cl_insts c !! i = Some l → in_phase l = SetNXFailed → le_inv (tryAcquire_get c i l o).
Proof.
  intros Hinv Hi Hp. unfold tryAcquire_get.
  assert (Hkeep : le_inv (set_inst c i (mkLeaderElection (in_isLeader l) Waiting (in_lease l)))).
  { apply set_inst_inv; [done|]. intros [[Hb|?] _]; [|done]. simpl in Hb.
    destruct Hinv as [_ Hinv]. apply (Hinv i l Hi). split; [by left|by rewrite Hp]. }
  destruct o as [|lnd]; [|done]. destruct (key_live c) as [[v e]|] eqn:Ek; [|done].
  destruct (String.eqb_spec v i) as [->|Hne].
  - apply set_inst_inv; [done|]. intros _. exists e. split; [done|simpl; lia].
  - apply set_inst_inv; [done|]. by intros [[?|?] _].
Qed.

Lemma step_expire_inv c i l o :
  le_inv c → cl_insts c !! i = Some l → in_phase l = OwnSeen → le_inv (tryAcquire_expire c i l o).
Proof.
  intros Hinv Hi Hp. unfold tryAcquire_expire. destruct o as [|lnd].
  - apply set_inst_inv; [by apply expire_inv|]. intros _.
    destruct Hinv as [_ Hinv].
    assert (Hr : relies l) by (split; [by right|by rewrite Hp]).
    destruct (Hinv i l Hi Hr) as (e & He & _).
    exists (cl_now c + leaderTTL). split; [by eapply expire_live|done].
  - apply set_inst_inv; [destruct lnd; [by apply expire_inv|done]|]. by intros [[?|?] _].
Qed.

Lemma step_resign_inv c i l o :
  le_inv c → cl_insts c !! i = Some l → in_phase l = Waiting → le_inv (resign_del c i l o).
Proof.
  intros Hinv Hi Hp. unfold resign_del. destruct (in_isLeader l) eqn:El; simpl.
  - assert (relies l) by (split; [by left|by rewrite Hp]).
    destruct o as [|[]]; [by apply del_inv..|].
    apply set_inst_inv; [done|]. by intros (_ & ? & _).
  - apply set_inst_inv; [done|]. by intros (_ & _ & ?).
Qed.

Lemma le_step_inv c c' : le_step timely c c' → le_inv c → le_inv c'.
Proof.
  intros Hstep Hinv. destruct Hstep as [c i l o|c i l o|c i l o|c i l o|c i l|c t Hle Ht].
  - by apply step_setnx_inv.
  - by apply step_get_inv.
  - by apply step_expire_inv.
  - by apply step_resign_inv.
  - apply set_inst_inv; [done|]. by intros (_ & _ & ?).
  - destruct Hinv as [Hkey Hinv]. split; [intros o e Hk; simpl; specialize (Hkey o e Hk); lia|].
    intros i l Hi Hr. destruct (Hinv i l Hi Hr) as (e & He & Hle'). exists e.
    split; [|done]. apply key_live_Some in He as [Hk _]. apply key_live_Some. simpl in *.
    specialize (Ht i l Hi Hr). split; [done|lia].
Qed.

Lemma le_run_inv c c' : le_run timely c c' → le_inv c → le_inv c'.
Proof. induction 1 as [|x y z Hs _ IH]; [done|]. intros Hx. by apply IH, (le_step_inv x). Qed.

(** ** Properties *)

(** The instance leads: it answers [IsLeader] with true and is not resigning. *)
Definition leads (c : Cluster) (i : string) : Prop :=
  ∃ l, cl_insts c !! i = Some l ∧ LeaderElection_IsLeader l = true ∧ in_phase l ≠ Resigning.

Lemma stopped_never_leads c c' may :
  le_step may c c' →
  (∀ i l, cl_insts c !! i = Some l → in_phase l = Stopped → in_isLeader l = false) →
  ∀ i l, cl_insts c' !! i = Some l → in_phase l = Stopped → in_isLeader l = false.
Proof.
  intros Hstep Hc. destruct Hstep as [c i l o Hi Hp|c i l o Hi Hp|c i l o Hi Hp|c i l o Hi Hp|c i l Hi Hp|c t];
    [intros j l' ..|done].
  all: unfold tryAcquire_setnx, redis_setnx, tryAcquire_get, tryAcquire_expire, redis_expire, resign_del, resign_store.
  all: repeat case_match; simplify_eq/=; rewrite ?lookup_insert_Some; naive_solver.
Qed.

Lemma run_stopped c c' may :
  le_run may c c' →
  (∀ i l, cl_insts c !! i = Some l → in_phase l = Stopped → in_isLeader l = false) →
  ∀ i l, cl_insts c' !! i = Some l → in_phase l = Stopped → in_isLeader l = false.
Proof. induction 1 as [|x y z Hs _ IH]; [done|]. intros Hx. by eapply IH, stopped_never_leads. Qed.

Lemma leads_relies names c i :
  le_run timely (start_cluster names) c → leads c i →
  ∃ l, cl_insts c !! i = Some l ∧ relies l.
Proof.
  intros Hrun (l & Hi & Hl & Hp). exists l. split; [done|]. split; [by left|]. split; [done|].
  intros Hs. unfold LeaderElection_IsLeader in Hl.
  rewrite (run_stopped _ _ _ Hrun) with (i := i) in Hl; [done| |done|done].
  intros j l' Hj. simpl in Hj. apply elem_of_list_to_map_2, list_elem_of_fmap in Hj. naive_solver.
Qed.


(** ** Running scenarios *)
Inductive le_event :=
| ESetNX (i : string) (o : outcome) | EGet (i : string) (o : outcome) | EExpire (i : string) (o : outcome)
| EResign (i : string) (o : outcome) | EResigned (i : string) | EWait (t : Z).

(** The step of an instance, if it is in the phase the step needs. *)
Definition at_phase (c : Cluster) (i : string) (p : phase) (k : LeaderElection → Cluster) : option Cluster :=
  match cl_insts c !! i with
  | Some l => if decide (in_phase l = p) then Some (k l) else None
  | None => None
  end.

Definition le_exec (wait_ok : Cluster → Z → bool) (c : Cluster) (e : le_event) : option Cluster :=
  match e with
  | ESetNX i o => at_phase c i Waiting (λ l, tryAcquire_setnx c i l o)
  | EGet i o => at_phase c i SetNXFailed (λ l, tryAcquire_get c i l o)
  | EExpire i o => at_phase c i OwnSeen (λ l, tryAcquire_expire c i l o)
  | EResign i o => at_phase c i Waiting (λ l, resign_del c i l o)
  | EResigned i => at_phase c i Resigning (λ l, resign_store c i l)
  | EWait t => if (cl_now c <=? t) && wait_ok c t then Some (mkCluster (cl_key c) (cl_insts c) t) else None
  end.

Fixpoint le_execs (wait_ok : Cluster → Z → bool) (es : list le_event) (c : Cluster) : option Cluster :=
  match es with
  | [] => Some c
  | e :: es => match le_exec wait_ok c e with Some c' => le_execs wait_ok es c' | None => None end
  end.

Lemma at_phase_Some c i p k c' :
  at_phase c i p k = Some c' → ∃ l, cl_insts c !! i = Some l ∧ in_phase l = p ∧ c' = k l.
Proof.
  unfold at_phase. destruct (cl_insts c !! i) as [l|]; [|done].
  destruct (decide (in_phase l = p)); [|done]. intros [= <-]. eauto.
Qed.

Lemma le_exec_sound may wait_ok c e c' :
  (∀ c t, wait_ok c t = true → may c t) → le_exec wait_ok c e = Some c' → le_step may c c'.
Proof.
  intros Hw. destruct e as [i o|i o|i o|i o|i|t]; simpl.
  6: { destruct (_ && _) eqn:E; [|done]. intros [= <-]. bool_to_prop. constructor; [lia|]. apply Hw. naive_solver. }
  all: intros (l & Hi & Hp & ->)%at_phase_Some; by constructor.
Qed.

Lemma le_execs_sound may wait_ok es c c' :
  (∀ c t, wait_ok c t = true → may c t) → le_execs wait_ok es c = Some c' → le_run may c c'.
Proof.
  intros Hw. revert c. induction es as [|e es IH]; intros c; simpl; [intros [= <-]; constructor|].
  destruct (le_exec wait_ok c e) as [c1|] eqn:E; [|done]. intros H.
  eapply rtc_l; [by eapply le_exec_sound|by apply IH].
Qed.

#[export] Instance relies_dec l : Decision (relies l).
Proof. unfold relies. apply _. Defined.

Definition timelyb (c : Cluster) (t : Z) : bool :=
  bool_decide (map_Forall (λ _ l, relies l → t < in_lease l) (cl_insts c)).
Lemma timelyb_timely c t : timelyb c t = true → timely c t.
Proof. intros H i l Hi. unfold timelyb in H. apply bool_decide_eq_true in H. exact (H i l Hi). Qed.

(** Renewals every three seconds, a failed command among them, and a follower. *)
Definition demo_events : list le_event :=
  [ESetNX "a" Reply; ESetNX "b" Reply; EGet "b" Reply;
   EWait 3000; ESetNX "a" (Failure false);
   EWait 6000; ESetNX "a" Reply; EGet "a" Reply; EExpire "a" Reply;
   EWait 12000; ESetNX "b" Reply; EGet "b" Reply].
Definition demo_cluster : Cluster :=
  default (start_cluster ["a"; "b"]) (le_execs timelyb demo_events (start_cluster ["a"; "b"])).


(** The leader is cut off from Redis for the time to live and keeps [isLeader]; a follower
    takes the key over. *)
Definition cut_off_events : list le_event :=
  [ESetNX "a" Reply; EWait 3000; ESetNX "a" (Failure false); EWait 6000; ESetNX "a" (Failure false);
   EWait 9000; ESetNX "a" (Failure false); EWait 10000; ESetNX "b" Reply; EWait 12000; ESetNX "a" (Failure false)].

(** The leader deletes the key, and a follower takes it before the leader's [isLeader] is
    cleared. *)
Definition resign_events : list le_event :=
  [ESetNX "a" Reply; EWait 2000; EResign "a" Reply; ESetNX "b" Reply].

(** Nothing in [tryAcquire] watches the lease: an instance whose Redis
    commands fail keeps leading after its key has lapsed and another instance leads too.
    Even with timely renewals two instances answer [IsLeader] with true while one of them
    resigns, because the key is deleted before the flag is cleared. *)
Theorem leader_split_brain :
  (∃ c, le_run any_time (start_cluster ["a"; "b"]) c ∧ leads c "a" ∧ leads c "b") ∧
  (∃ c la lb, le_run timely (start_cluster ["a"; "b"]) c ∧
     cl_insts c !! "a" = Some la ∧ cl_insts c !! "b" = Some lb ∧
     LeaderElection_IsLeader la = true ∧ LeaderElection_IsLeader lb = true).
Proof.
  split.
  - eexists. split.
    + apply (le_execs_sound any_time (λ _ _, true) cut_off_events); [done|vm_compute; reflexivity].
    + split; eexists; vm_compute; (split; [reflexivity|]; split; [reflexivity|discriminate]).
  - do 3 eexists. split.
    + apply (le_execs_sound timely timelyb resign_events); [exact timelyb_timely|vm_compute; reflexivity].
    + vm_compute. repeat split; reflexivity.
Qed.

(** ** Sequential use: an idle instance takes over a lapsed key and renews its own *)
Theorem tryAcquire_takes_over c i l :
  cl_insts c !! i = Some l → in_phase l = Waiting → key_live c = None →
  leads (LeaderElection_tryAcquire c i Reply Reply Reply) i ∧
  key_live (LeaderElection_tryAcquire c i Reply Reply Reply) = Some (i, cl_now c + leaderTTL).
Proof.
  intros Hi Hp Hk. unfold LeaderElection_tryAcquire. rewrite Hi. unfold tryAcquire_setnx, redis_setnx.
  rewrite Hk. simpl. rewrite lookup_insert_eq. simpl. split.
  - eexists. simpl. rewrite lookup_insert_eq. split; [done|]. by simpl.
  - apply key_live_Some. simpl. split; [done|]. unfold leaderTTL. lia.
Qed.
