(* ===== verification/Policy.v ===== *)
(** * Block lists of the control plane ([internal/controlplane/policy.go])

    [Policy] holds an immutable pair of maps behind an atomic pointer; a change loads the
    pointer, copies a map, edits the copy and stores a new pointer.  [SyncFromDB] replaces
    both maps by what the published block policies of the database say.

    The theorems: calls that do not overlap implement two sets, and a synchronisation
    makes them exactly the published entries; overlapping calls lose an update. *)

From S2P Require Import Prelude.

Record policyData := mkPolicyData {
  blockedIPs : gmap string bool;
  blockedNodes : gmap string bool
}.

Definition NewPolicy : policyData := mkPolicyData ∅ ∅.

(** Reading a missing key of a Go map gives [false]. *)
Definition map_get (m : gmap string bool) (k : string) : bool := default false (m !! k).

(** [copyMap] inserts the entries one by one into an empty map. *)
Definition copyMap (src : gmap string bool) : gmap string bool :=
  map_fold (λ k v dst, <[k := v]> dst) ∅ src.

Definition Policy_IsBlocked (p : policyData) (ip : string) : bool := map_get (blockedIPs p) ip.
Definition Policy_IsNodeBlocked (p : policyData) (nodeID : string) : bool := map_get (blockedNodes p) nodeID.

(** What each change stores, given what it loaded. *)
Definition Policy_BlockIP (old : policyData) (ip : string) : policyData :=
  mkPolicyData (<[ip := true]> (copyMap (blockedIPs old))) (blockedNodes old).
Definition Policy_UnblockIP (old : policyData) (ip : string) : policyData :=
  mkPolicyData (delete ip (copyMap (blockedIPs old))) (blockedNodes old).
Definition Policy_BlockNode (old : policyData) (nodeID : string) : policyData :=
  mkPolicyData (blockedIPs old) (<[nodeID := true]> (copyMap (blockedNodes old))).
Definition Policy_UnblockNode (old : policyData) (nodeID : string) : policyData :=
  mkPolicyData (blockedIPs old) (delete nodeID (copyMap (blockedNodes old))).

(** ** Synchronisation with the database *)
Inductive AdminPolicyType :=
| AdminPolicyTypeDispatch | AdminPolicyTypeBlock | AdminPolicyTypeOther (s : string).
#[export] Instance AdminPolicyType_eq_dec : EqDecision AdminPolicyType. Proof. solve_decision. Defined.

Record blockPolicyContent := mkBlockPolicyContent {
  BlockedIPs : list string;
  BlockedNodes : list string
}.

(** A row of [admin_policies]; [ap_Content] is the text of its content, empty for [nil]. *)
Record AdminPolicy := mkAdminPolicy {
  ap_CreatedAt : Z;
  ap_UpdatedAt : Z;
  ap_Content : string;
  ap_PolicyID : string;
  ap_TenantID : string;
  ap_ProjectID : string;
  ap_Name : string;
  ap_Type : AdminPolicyType;
  ap_Version : Z;
  ap_IsPublished : bool;
  ap_Description : string
}.

Definition block_all (m : gmap string bool) (keys : list string) : gmap string bool :=
  foldl (λ m k, <[k := true]> m) m keys.

Section sync.
(** [json.Unmarshal] of a content, [None] if it fails. *)
Context (unmarshal : string → option blockPolicyContent).

(** One turn of the loop. *)
Definition sync_policy (acc : policyData) (pol : AdminPolicy) : policyData :=
  if negb (ap_IsPublished pol) || negb (bool_decide (ap_Type pol = AdminPolicyTypeBlock)) then acc
  else
    match unmarshal (ap_Content pol) with
    | None => acc
    | Some content =>
        mkPolicyData (block_all (blockedIPs acc) (BlockedIPs content))
                     (block_all (blockedNodes acc) (BlockedNodes content))
    end.

(** [rows] is the answer of [ListAdminPolicies]; on an error nothing changes. *)
Definition Policy_SyncFromDB (p : policyData) (rows : result (list AdminPolicy)) : policyData :=
  match rows with
  | Ok policies => foldl sync_policy (mkPolicyData ∅ ∅) policies
  | _ => p
  end.

(** ** The changes as values, and their meaning on sets *)
Inductive change :=
| CBlockIP (ip : string) | CUnblockIP (ip : string)
| CBlockNode (n : string) | CUnblockNode (n : string)
| CSync (rows : result (list AdminPolicy)).

Definition apply_change (p : policyData) (c : change) : policyData :=
  match c with
  | CBlockIP ip => Policy_BlockIP p ip
  | CUnblockIP ip => Policy_UnblockIP p ip
  | CBlockNode n => Policy_BlockNode p n
  | CUnblockNode n => Policy_UnblockNode p n
  | CSync rows => Policy_SyncFromDB p rows
  end.

(** The entries the published block policies list. *)
Definition published (sel : blockPolicyContent → list string) (rows : list AdminPolicy) : gset string :=
  list_to_set (rows ≫= λ pol,
    if ap_IsPublished pol && bool_decide (ap_Type pol = AdminPolicyTypeBlock)
    then from_option sel [] (unmarshal (ap_Content pol)) else []).

Definition spec_change (s : gset string * gset string) (c : change) : gset string * gset string :=
  match c with
  | CBlockIP ip => ({[ip]} ∪ s.1, s.2)
  | CUnblockIP ip => (s.1 ∖ {[ip]}, s.2)
  | CBlockNode n => (s.1, {[n]} ∪ s.2)
  | CUnblockNode n => (s.1, s.2 ∖ {[n]})
  | CSync (Ok rows) => (published BlockedIPs rows, published BlockedNodes rows)
  | CSync _ => s
  end.

End sync.

(** The maps stand for the sets. *)
Definition stands_for (m : gmap string bool) (s : gset string) : Prop := ∀ k, map_get m k = bool_decide (k ∈ s).
Definition policy_rel (p : policyData) (s : gset string * gset string) : Prop :=
  stands_for (blockedIPs p) s.1 ∧ stands_for (blockedNodes p) s.2.

Lemma copyMap_id m : copyMap m = m.
Proof.
  unfold copyMap. induction m as [|k v m Hk Hf IH] using map_first_key_ind; [apply map_fold_empty|].
  rewrite map_fold_insert_first_key, IH by done. done.
Qed.

Lemma stands_insert m s k : stands_for m s → stands_for (<[k := true]> m) ({[k]} ∪ s).
Proof.
  intros H k'. unfold map_get. destruct (decide (k = k')) as [->|Hne].
  - rewrite lookup_insert_eq. symmetry. apply bool_decide_eq_true. set_solver.
  - rewrite lookup_insert_ne by done. specialize (H k'). unfold map_get in H. rewrite H.
    apply bool_decide_ext. set_solver.
Qed.

Lemma stands_delete m s k : stands_for m s → stands_for (delete k m) (s ∖ {[k]}).
Proof.
  intros H k'. unfold map_get. destruct (decide (k = k')) as [->|Hne].
  - rewrite lookup_delete_eq. symmetry. apply bool_decide_eq_false. set_solver.
  - rewrite lookup_delete_ne by done. specialize (H k'). unfold map_get in H. rewrite H.
    apply bool_decide_ext. set_solver.
Qed.

Lemma stands_ext m s s' : stands_for m s → (∀ k, k ∈ s ↔ k ∈ s') → stands_for m s'.
Proof. intros H Hs k. rewrite H. by apply bool_decide_ext. Qed.

Lemma stands_block_all m s keys : stands_for m s → stands_for (block_all m keys) (s ∪ list_to_set keys).
Proof.
  revert m s. induction keys as [|k keys IH]; intros m s H; simpl.
  - eapply stands_ext; [done|set_solver].
  - eapply stands_ext; [apply IH, stands_insert, H|set_solver].
Qed.

Section laws.
Context (unmarshal : string → option blockPolicyContent).
#[local] Abbreviation sync_policy := (sync_policy unmarshal).
#[local] Abbreviation apply_change := (apply_change unmarshal).
#[local] Abbreviation spec_change := (spec_change unmarshal).
#[local] Abbreviation published := (published unmarshal).

Lemma sync_rows acc s rows :
  policy_rel acc s →
  policy_rel (foldl sync_policy acc rows) (s.1 ∪ published BlockedIPs rows, s.2 ∪ published BlockedNodes rows).
Proof.
  revert acc s. induction rows as [|pol rows IH]; intros acc s [H1 H2]; simpl.
  - split; (eapply stands_ext; [done|set_solver]).
  - unfold Policy.published. rewrite !bind_cons, !list_to_set_app_L.
    assert (Hpol : policy_rel (sync_policy acc pol) (s.1 ∪ list_to_set (if ap_IsPublished pol && bool_decide (ap_Type pol = AdminPolicyTypeBlock)
        then from_option BlockedIPs [] (unmarshal (ap_Content pol)) else []),
      s.2 ∪ list_to_set (if ap_IsPublished pol && bool_decide (ap_Type pol = AdminPolicyTypeBlock)
        then from_option BlockedNodes [] (unmarshal (ap_Content pol)) else []))).
    { unfold Policy.sync_policy. rewrite <- negb_andb. destruct (_ && _); simpl;
        [destruct (unmarshal (ap_Content pol))|]; split; simpl;
        (apply stands_block_all; done) || (eapply stands_ext; [done|set_solver]). }
    destruct (IH _ _ Hpol) as [G1 G2]. split; simpl in *.
    + eapply stands_ext; [exact G1|unfold Policy.published; set_solver].
    + eapply stands_ext; [exact G2|unfold Policy.published; set_solver].
Qed.

Lemma apply_change_rel p s c : policy_rel p s → policy_rel (apply_change p c) (spec_change s c).
Proof.
  intros [H1 H2]. destruct c as [ip|ip|n|n|[rows| |]]; simpl; try done.
  5: { pose proof (sync_rows (mkPolicyData ∅ ∅) (∅, ∅) rows) as Hs.
       destruct Hs as [G1 G2]; [by split; intros k|].
       split; simpl in *; (eapply stands_ext; [eassumption|set_solver]). }
  all: split; simpl; rewrite ?copyMap_id; by auto using stands_insert, stands_delete.
Qed.

(** After any sequence of blocks, unblocks and synchronisations that do
    not overlap, [IsBlocked] and [IsNodeBlocked] answer like two sets; a successful
    synchronisation sets them to exactly the entries of the published block policies whose
    content parses, and a failed one changes nothing. *)
Theorem policy_refines_sets cs ip n :
  let p := foldl apply_change NewPolicy cs in
  let s := foldl spec_change (∅, ∅) cs in
  Policy_IsBlocked p ip = bool_decide (ip ∈ s.1) ∧ Policy_IsNodeBlocked p n = bool_decide (n ∈ s.2).
Proof.
  simpl. assert (H : policy_rel (foldl apply_change NewPolicy cs) (foldl spec_change (∅, ∅) cs)).
  { assert (H0 : policy_rel NewPolicy (∅, ∅)) by (by split; intros k). revert H0.
    generalize NewPolicy, ((∅, ∅) : gset string * gset string).
    induction cs as [|c cs IH]; intros p s Hp; simpl; [done|]. by apply IH, apply_change_rel. }
  destruct H as [H1 H2]. split; [apply H1|apply H2].
Qed.

(** ** Overlapping calls *)

(** The stored pointer, and what the calls in progress have loaded. *)
Record policyState := mkPolicyState {
  ps_data : policyData;
  ps_calls : gmap nat (policyData * change)
}.

Inductive policy_step : policyState → policyState → Prop :=
| ps_load st id c :
    ps_calls st !! id = None →
    policy_step st (mkPolicyState (ps_data st) (<[id := (ps_data st, c)]> (ps_calls st)))
| ps_store st id old c :
    ps_calls st !! id = Some (old, c) →
    policy_step st (mkPolicyState (apply_change old c) (delete id (ps_calls st))).

(** The load and the store of a change are not one atomic step: two
    overlapping [BlockIP] calls end with only the later address blocked, whatever the
    addresses were, unless they are equal or the first one was blocked before. *)
Theorem policy_lost_update p ip1 ip2 :
  ip1 ≠ ip2 → Policy_IsBlocked p ip1 = false →
  ∃ st, rtc policy_step (mkPolicyState p ∅) st ∧ ps_calls st = ∅ ∧
    Policy_IsBlocked (ps_data st) ip1 = false ∧ Policy_IsBlocked (ps_data st) ip2 = true.
Proof.
  intros Hne Hp. exists (mkPolicyState (Policy_BlockIP p ip2) ∅). split; [|split; [done|]].
  - eapply rtc_l; [apply (ps_load _ 1%nat (CBlockIP ip1)); done|].
    eapply rtc_l; [apply (ps_load _ 2%nat (CBlockIP ip2)); done|].
    eapply rtc_l; [eapply (ps_store _ 1%nat); reflexivity|].
    eapply rtc_l; [eapply (ps_store _ 2%nat); reflexivity|]. apply rtc_refl.
  - unfold Policy_IsBlocked, map_get in *. simpl. rewrite copyMap_id, lookup_insert_eq.
    by rewrite lookup_insert_ne.
Qed.
End laws.
