(* ===== verification/Prober.v ===== *)
(** * Probing the edge nodes ([internal/controlplane/prober.go] and the probe queries of
      [internal/store/pg.go])

    A round probes every endpoint of every active node, saves the results in batches of
    32, recomputes the scores of the nodes from the results of the last five minutes and
    invalidates the node list cache.  The probes run concurrently: their results arrive in
    some order [arrive], and the nodes' scores are written in some order [order].  Times are
    in nanoseconds, round trips in milliseconds.

    The theorems: a round saves every result and sets the scores of exactly the active
    nodes; the risk score is bounded and never falls when a node gets worse. *)

From S2P Require Import Prelude GoFloat GoStrings Models NodeCache NodeLifecycle.

Record ProbeResult := mkProbeResult {
  pr_NodeID : string;
  pr_Endpoint : Endpoint;
  pr_Success : bool;
  pr_RTTMs : float64;
  pr_Error : string;
  pr_ProbedAt : Z
}.

Record ProbeScore := mkProbeScore {
  ps_NodeID : string;
  ps_SuccessRate1m : float64;
  ps_SuccessRate5m : float64;
  ps_RTTP50 : float64;
  ps_RTTP95 : float64;
  ps_LastOkAt : Z
}.

(** ** One probe *)

(** How the network answers a probe: where it fails, or the HTTP status of [/healthz]. *)
Inductive probeReply :=
| DialFailed (e : string) | BadURL (e : string) | GetFailed (e : string) | Answered (status : Z).

(** [start] is when the probe begins, [ms] the time until its outcome is known. *)
Definition ProbeOne (nodeID : string) (endpoint : Endpoint) (start : Z) (reply : probeReply) (ms : Z)
    : result ProbeResult :=
  let mk ok e := Ok (mkProbeResult nodeID endpoint ok (float_of_Z ms) e start) in
  match reply with
  | DialFailed e => mk false (String.append "tcp connect: " e)
  | BadURL e => mk false (String.append "create request: " e)
  | GetFailed e => mk false (String.append "http get: " e)
  | Answered status =>
      if status =? 200 then mk true ""
      else mk false (String.append "healthz returned " (of_chars (format_int 10 status)))
  end.

(** ** The table [probe_results] *)
Definition minute_ns : Z := 60 * 1000000000.

(** One [BatchSaveProbeResults]: all rows or none. *)
Definition PGStore_BatchSaveProbeResults (db_ok : bool) (rows results : list ProbeResult)
    : result unit * list ProbeResult :=
  if (length results =? 0)%nat then (Ok tt, rows)
  else if db_ok then (Ok tt, rows ++ results) else (Err "batch save probe result", rows).

(** [PERCENTILE_CONT] over the values that are not NULL, 0 if there are none. *)
Definition percentile_cont (p : float64) (values : list float64) : float64 :=
  let l := merge_sort fle values in
  if (length l =? 0)%nat then fzero
  else
    let x := fmul p (float_of_Z (Z.of_nat (length l) - 1)) in
    let first := Z.to_nat (int_of_float x) in
    let frac := fsub x (float_of_Z (Z.of_nat first)) in
    let second := if fltb fzero frac then S first else first in
    let lo := default fzero (l !! first) in
    let hi := default fzero (l !! second) in
    fadd lo (fmul frac (fsub hi lo)).

Definition success_rate (rows : list ProbeResult) : float64 :=
  if (length rows =? 0)%nat then fzero
  else fdiv (float_of_Z (Z.of_nat (length (filter (λ r, pr_Success r = true) rows))))
            (float_of_Z (Z.of_nat (length rows))).

Definition PGStore_GetProbeScores (db_ok : bool) (rows : list ProbeResult) (nodeID : string) (now : Z)
    : result ProbeScore :=
  if negb db_ok then Err "get probe scores"
  else
    let recent := filter (λ r, pr_NodeID r = nodeID ∧ now - 5 * minute_ns < pr_ProbedAt r) rows in
    let last := filter (λ r, now - minute_ns < pr_ProbedAt r) recent in
    let good := filter (λ r, pr_Success r = true) recent in
    Ok (mkProbeScore nodeID (success_rate last) (success_rate recent)
          (percentile_cont (float_const 1 2) (pr_RTTMs <$> good))
          (percentile_cont (float_const 95 100) (pr_RTTMs <$> good))
          (foldr (λ r acc, Z.max (pr_ProbedAt r) acc) 0 good)).

(** [olderThan] counts in whole seconds; the number of deleted rows is returned. *)
Definition PGStore_CleanupOldProbeResults (db_ok : bool) (rows : list ProbeResult) (olderThan now : Z)
    : result Z * list ProbeResult :=
  if negb db_ok then (Err "cleanup old probe results", rows)
  else
    let kept := filter (λ r, now - Z.quot olderThan second * second ≤ pr_ProbedAt r) rows in
    (Ok (Z.of_nat (length rows - length kept)), kept).

(** ** Scores *)
Definition risk_score (ps : ProbeScore) : float64 :=
  let risk := fzero in
  let risk := if fltb (float_of_Z 1000) (ps_RTTP95 ps) then fadd risk (float_of_Z 30)
              else if fltb (float_of_Z 500) (ps_RTTP95 ps) then fadd risk (float_of_Z 15) else risk in
  let risk := if fltb (ps_SuccessRate5m ps) (float_const 9 10) then fadd risk (float_of_Z 20) else risk in
  if fltb (ps_SuccessRate5m ps) (float_const 5 10) then fadd risk (float_of_Z 30) else risk.

Definition scores_of (ps : ProbeScore) : NodeScores :=
  mkNodeScores (fmul (ps_SuccessRate5m ps) (float_of_Z 100)) (fmul (ps_SuccessRate1m ps) (float_of_Z 100))
    (risk_score ps).

Definition Prober_computeScores (db_ok : bool) (rows : list ProbeResult) (nodeID : string) (now : Z)
    : result NodeScores :=
  let! ps := PGStore_GetProbeScores db_ok rows nodeID now in Ok (scores_of ps).

(** ** A round *)
Definition batch_size : nat := 32.

(** The goroutine that saves: [save_ok] tells of each batch whether the database takes it. *)
Fixpoint save_loop (save_ok : nat → bool) (n : nat) (rows batch results : list ProbeResult) : list ProbeResult :=
  match results with
  | [] => if (length batch =? 0)%nat then rows
          else (PGStore_BatchSaveProbeResults (save_ok n) rows batch).2
  | r :: rest =>
      let batch := batch ++ [r] in
      if (batch_size <=? length batch)%nat
      then save_loop save_ok (S n) (PGStore_BatchSaveProbeResults (save_ok n) rows batch).2 [] rest
      else save_loop save_ok n rows batch rest
  end.

(** The state a round works on. *)
Record ProbeState := mkProbeState {
  pb_pg : PGStore;
  pb_rows : list ProbeResult;
  pb_cache : NodeCache
}.

(** What the environment does during a round. *)
Record RoundEnv := mkRoundEnv {
  re_db : result (list Node);                          (* [ListActiveNodes] *)
  re_probe : string → Endpoint → probeReply * Z;       (* the network *)
  re_start : Z;                                        (* when the probes start *)
  re_scored : Z;                                       (* when the scores are read *)
  re_arrive : list ProbeResult → list ProbeResult;
  re_order : list string → list string;
  re_save_ok : nat → bool;
  re_score_ok : string → bool;
  re_update_ok : string → bool
}.

Definition probe_results (e : RoundEnv) (nodes : list Node) : list ProbeResult :=
  omap (λ r, match r with Ok pr => Some pr | _ => None end)
    (nodes ≫= λ n, (λ ep, let '(reply, ms) := re_probe e (n_NodeID n) ep in
                          ProbeOne (n_NodeID n) ep (re_start e) reply ms) <$> n_Endpoints n).

Definition update_one (e : RoundEnv) (rows : list ProbeResult) (pg : PGStore) (nodeID : string) : PGStore :=
  match Prober_computeScores (re_score_ok e nodeID) rows nodeID (re_scored e) with
  | Ok sc => (PGStore_UpdateNodeScores (re_update_ok e nodeID) pg nodeID sc (re_scored e)).2
  | _ => pg
  end.

Definition Prober_probeAll (e : RoundEnv) (st : ProbeState) : ProbeState :=
  let '(rn, cache) := NodeCache_GetActiveNodes (pb_cache st) (re_start e) (re_db e) (re_start e) in
  match rn with
  | Ok nodes =>
      let rows := save_loop (re_save_ok e) 0 (pb_rows st) [] (re_arrive e (probe_results e nodes)) in
      let ids := remove_dups (n_NodeID <$> nodes) in
      mkProbeState (foldl (update_one e rows) (pb_pg st) (re_order e ids)) rows (NodeCache_Invalidate cache)
  | _ => mkProbeState (pb_pg st) (pb_rows st) cache
  end.

Example percentile_test :
  percentile_cont (float_const 95 100) (float_of_Z <$> [20; 10; 40; 30]) = float_const 385 10.
Proof. vm_compute. reflexivity. Qed.

(** ** Lemmas *)
Lemma save_loop_all rows batch results n :
  save_loop (λ _, true) n rows batch results = rows ++ batch ++ results.
Proof.
  revert rows batch n. induction results as [|r rest IH]; intros rows batch n; cbn [save_loop].
  - rewrite app_nil_r. destruct batch as [|b batch]; simpl; [by rewrite app_nil_r|done].
  - destruct (batch_size <=? length (batch ++ [r]))%nat.
    + rewrite IH. unfold PGStore_BatchSaveProbeResults.
      destruct (length (batch ++ [r]) =? 0)%nat eqn:E.
      * apply Nat.eqb_eq in E. rewrite length_app in E. simpl in E. lia.
      * simpl. by rewrite <- !app_assoc.
    + rewrite IH. by rewrite <- !app_assoc.
Qed.

Lemma save_loop_ext f g n rows batch results :
  (∀ k, f k = g k) → save_loop f n rows batch results = save_loop g n rows batch results.
Proof.
  intros Hfg. revert rows batch n. induction results as [|r rest IH]; intros rows batch n; cbn [save_loop];
    rewrite Hfg; [done|]. by rewrite !IH.
Qed.

Lemma update_one_other e rows pg id id' :
  id' ≠ id → pg_nodes (update_one e rows pg id) !! id' = pg_nodes pg !! id'.
Proof.
  intros Hne. unfold update_one. destruct (Prober_computeScores _ _ _ _); [|done..].
  unfold PGStore_UpdateNodeScores. destruct (re_update_ok e id); [|done]. simpl.
  by rewrite lookup_alter_ne by congruence.
Qed.

Lemma update_all_other e rows ids pg id :
  id ∉ ids → pg_nodes (foldl (update_one e rows) pg ids) !! id = pg_nodes pg !! id.
Proof.
  revert pg. induction ids as [|i ids IH]; intros pg Hid; simpl; [done|].
  apply not_elem_of_cons in Hid as [Hne Hid]. rewrite IH by done. by apply update_one_other.
Qed.

Lemma update_all_one e rows ids pg id n sc :
  NoDup ids → id ∈ ids → pg_nodes pg !! id = Some n →
  Prober_computeScores (re_score_ok e id) rows id (re_scored e) = Ok sc → re_update_ok e id = true →
  pg_nodes (foldl (update_one e rows) pg ids) !! id = Some (set_scores sc (re_scored e) n).
Proof.
  revert pg. induction ids as [|i ids IH]; intros pg Hnd Hin Hn Hsc Hup; [by apply not_elem_of_nil in Hin|].
  simpl. apply NoDup_cons in Hnd as [Hi Hnd]. apply elem_of_cons in Hin as [->|Hin].
  - rewrite update_all_other by done. unfold update_one. rewrite Hsc. unfold PGStore_UpdateNodeScores.
    rewrite Hup. simpl. by rewrite lookup_alter_eq, Hn.
  - apply IH; try done. rewrite update_one_other; [done|]. intros ->. done.
Qed.

Lemma ProbeOne_ok id ep start reply ms : ∃ pr, ProbeOne id ep start reply ms = Ok pr.
Proof. unfold ProbeOne. repeat case_match; eauto. Qed.

Lemma probe_results_length e nodes :
  length (probe_results e nodes) = sum_list (length ∘ n_Endpoints <$> nodes).
Proof.
  unfold probe_results. induction nodes as [|n nodes IH]; [done|].
  rewrite bind_cons, omap_app, length_app, IH, fmap_cons. simpl. f_equal.
  induction (n_Endpoints n) as [|ep eps IHe]; [done|]. simpl.
  destruct (re_probe e (n_NodeID n) ep) as [reply ms].
  destruct (ProbeOne_ok (n_NodeID n) ep (re_start e) reply ms) as [pr ->]. simpl. f_equal. exact IHe.
Qed.

(** Being above a bound is kept by larger values, and being below one by smaller values. *)
Lemma above_monotone b x y :
  is_nan b = false → is_nan x = false → is_nan y = false → fle x y → fltb b x = true → fltb b y = true.
Proof.
  intros Hb Hx Hy Hxy. rewrite !fltb_spec by done. intros Hn Hyb. apply Hn. by etransitivity.
Qed.
Lemma below_monotone b x y :
  is_nan b = false → is_nan x = false → is_nan y = false → fle y x → fltb x b = true → fltb y b = true.
Proof.
  intros Hb Hx Hy Hxy. rewrite !fltb_spec by done. intros Hn Hyb. apply Hn. by etransitivity.
Qed.
Lemma above_weaken x a b :
  is_nan x = false → is_nan a = false → is_nan b = false → fle a b → fltb b x = true → fltb a x = true.
Proof.
  intros Hx Ha Hb Hab. rewrite !fltb_spec by done. intros Hn Hxa. apply Hn. by etransitivity.
Qed.

(** ** Properties *)

(** The environment of a round in which the database works; the orders are arbitrary. *)
Definition round_ok (e : RoundEnv) : Prop :=
  (∀ l, re_arrive e l ≡ₚ l) ∧ (∀ l, re_order e l ≡ₚ l) ∧
  (∀ k, re_save_ok e k = true) ∧ (∀ id, re_score_ok e id = true ∧ re_update_ok e id = true).

(** A round over the nodes it is given saves the result of every endpoint
    of every node (in batches, with no row lost or written twice), gives each of those nodes
    the scores computed from the table that includes them, leaves every other row of the
    nodes table alone and leaves the node list cache empty, whatever the order in which the
    probes finish and the scores arrive. *)
Theorem probe_round_spec e st nodes :
  round_ok e →
  (NodeCache_GetActiveNodes (pb_cache st) (re_start e) (re_db e) (re_start e)).1 = Ok nodes →
  let st' := Prober_probeAll e st in
  pb_rows st' ≡ₚ pb_rows st ++ probe_results e nodes ∧
  length (pb_rows st') = (length (pb_rows st) + sum_list (length ∘ n_Endpoints <$> nodes))%nat ∧
  nc_nodes (pb_cache st') = None ∧
  ∀ id n, pg_nodes (pb_pg st) !! id = Some n →
    if decide (id ∈ n_NodeID <$> nodes)
    then ∃ ps, PGStore_GetProbeScores true (pb_rows st') id (re_scored e) = Ok ps ∧
           pg_nodes (pb_pg st') !! id = Some (set_scores (scores_of ps) (re_scored e) n)
    else pg_nodes (pb_pg st') !! id = Some n.
Proof.
  intros (Harr & Hord & Hsave & Hio) Hget. simpl. unfold Prober_probeAll.
  destruct (NodeCache_GetActiveNodes _ _ _ _) as [rn cache]. simpl in Hget. subst rn. simpl.
  rewrite (save_loop_ext _ (λ _, true)) by done. rewrite save_loop_all. simpl.
  assert (Hrows : pb_rows st ++ re_arrive e (probe_results e nodes) ≡ₚ pb_rows st ++ probe_results e nodes)
    by (by rewrite Harr).
  split; [done|]. split; [rewrite Hrows, length_app; by rewrite probe_results_length|]. split; [done|].
  intros id n Hn. destruct (decide (id ∈ n_NodeID <$> nodes)) as [Hin|Hin].
  - destruct (Hio id) as [Hsc Hup]. eexists. split; [done|].
    apply update_all_one; [rewrite Hord; apply NoDup_remove_dups|rewrite Hord; by apply elem_of_remove_dups|done| |done].
    unfold Prober_computeScores. by rewrite Hsc.
  - rewrite update_all_other; [done|]. rewrite Hord. by rewrite elem_of_remove_dups.
Qed.

(** The node got worse: a higher 95th percentile and a lower success rate. *)
Definition worse (ps ps' : ProbeScore) : Prop :=
  fle (ps_RTTP95 ps) (ps_RTTP95 ps') ∧ fle (ps_SuccessRate5m ps') (ps_SuccessRate5m ps).
Definition not_nan (ps : ProbeScore) : Prop :=
  is_nan (ps_RTTP95 ps) = false ∧ is_nan (ps_SuccessRate5m ps) = false.

(** The risk score lies between 0 and 80 and never falls when the round trips
    get longer and the success rate lower. *)
Theorem risk_score_monotone ps ps' :
  not_nan ps → not_nan ps' → worse ps ps' →
  fle (risk_score ps) (risk_score ps') ∧ fle fzero (risk_score ps) ∧ fle (risk_score ps') (float_of_Z 80).
Proof.
  intros [Hr Hs] [Hr' Hs'] [Hwr Hws].
  pose proof (above_monotone (float_of_Z 1000) _ _ eq_refl Hr Hr' Hwr) as H1000.
  pose proof (above_monotone (float_of_Z 500) _ _ eq_refl Hr Hr' Hwr) as H500.
  pose proof (below_monotone (float_const 9 10) _ _ eq_refl Hs Hs' Hws) as H9.
  pose proof (below_monotone (float_const 5 10) _ _ eq_refl Hs Hs' Hws) as H5.
  assert (H51 : fle (float_of_Z 500) (float_of_Z 1000)) by (apply (bool_decide_unpack _); vm_compute; exact I).
  pose proof (above_weaken (ps_RTTP95 ps) (float_of_Z 500) (float_of_Z 1000) Hr eq_refl eq_refl H51) as Hw.
  pose proof (above_weaken (ps_RTTP95 ps') (float_of_Z 500) (float_of_Z 1000) Hr' eq_refl eq_refl H51) as Hw'.
  unfold risk_score.
  destruct (fltb (float_of_Z 1000) (ps_RTTP95 ps)), (fltb (float_of_Z 1000) (ps_RTTP95 ps')),
    (fltb (float_of_Z 500) (ps_RTTP95 ps)), (fltb (float_of_Z 500) (ps_RTTP95 ps')),
    (fltb (ps_SuccessRate5m ps) (float_const 9 10)), (fltb (ps_SuccessRate5m ps') (float_const 9 10)),
    (fltb (ps_SuccessRate5m ps) (float_const 5 10)), (fltb (ps_SuccessRate5m ps') (float_const 5 10));
    try (exfalso; by intuition discriminate);
    (split; [|split]); apply (bool_decide_unpack _); vm_compute; exact I.
Qed.

(** ** Concrete rounds *)
Definition probe_node : Node :=
  set_scores (mkNodeScores fzero fzero fzero) 0
    (new_row "n1" (mkRegisterRequest "edge" [mkEndpoint "http" "a" 80; mkEndpoint "http" "b" 80] "" "" "" ""
       (mkCapabilities true 0 0 false "" false false fzero fzero false)) 0).
Definition probe_env : RoundEnv :=
  mkRoundEnv (Ok [probe_node])
    (λ _ ep, if String.eqb (ep_Host ep) "a" then (Answered 200, 600) else (DialFailed "refused", 3))
    1000 2000 (@rev _) (λ l, l) (λ _, true) (λ _, true) (λ _, true).
Definition probe_state : ProbeState :=
  mkProbeState (mkPGStore {["n1" := probe_node]} ∅ ∅ 0) [] (NewNodeCache 0).

(** One endpoint answers in 600 ms, the other refuses: half the probes succeed. *)
Lemma probe_round_spec_witness :
  length (pb_rows (Prober_probeAll probe_env probe_state)) = 2%nat ∧
  n_Scores <$> pg_nodes (pb_pg (Prober_probeAll probe_env probe_state)) !! "n1"
    = Some (mkNodeScores (float_of_Z 50) (float_of_Z 50) (float_of_Z 35)).
Proof.
  destruct (probe_round_spec probe_env probe_state [probe_node]) as (_ & Hlen & _ & Hn).
  - split; [intros l; simpl; symmetry; apply Permutation_rev|]. done.
  - reflexivity.
  - split; [exact Hlen|]. specialize (Hn "n1" probe_node eq_refl).
    vm_compute. reflexivity.
Defined.

Definition fast_node : ProbeScore := mkProbeScore "n" (float_of_Z 1) (float_of_Z 1) (float_of_Z 5) (float_of_Z 9) 0.
Definition slow_node : ProbeScore := mkProbeScore "n" (float_of_Z 1) (float_const 4 10) (float_of_Z 5) (float_of_Z 2000) 0.

Lemma risk_score_monotone_witness : fle (risk_score fast_node) (risk_score slow_node).
Proof.
  assert (Hf : not_nan fast_node) by (split; vm_compute; reflexivity).
  assert (Hs : not_nan slow_node) by (split; vm_compute; reflexivity).
  assert (Hw : worse fast_node slow_node) by (split; apply (bool_decide_unpack _); vm_compute; exact I).
  exact (proj1 (risk_score_monotone fast_node slow_node Hf Hs Hw)).
Defined.
