(* ===== verification/RateLimiter.v ===== *)
(** * The request limiter of the control-plane API ([rateLimiter] in
      [internal/controlplane/api.go])

    A token bucket on two atomic [int64]s: [rate] tokens per second up to [burst], refilled
    by the time since the last refill.  Times are in nanoseconds and the arithmetic wraps
    at 64 bits, as in the code.  [Allow] is given twice: as one call, and as the atomic
    loads, stores and swaps that concurrent calls interleave.

    The theorems: calls that do not overlap are allowed at most [burst] plus [rate] times
    the elapsed seconds times; the product of the elapsed time and the rate overflows after
    about a day, and an empty bucket then refuses everything for another day; calls that
    overlap refill the bucket once each. *)

From S2P Require Import Prelude.

Definition second_of_ns : Z := 1000000000.

Record rateLimiter := mkRateLimiter {
  rl_rate : Z;
  rl_burst : Z;
  rl_tokens : Z;
  rl_lastTime : Z
}.

Definition newRateLimiter (rate burst now : Z) : rateLimiter := mkRateLimiter rate burst burst now.

(** [elapsed * rl.rate / int64(time.Second)]; Go's division truncates. *)
Definition refill_of (rl : rateLimiter) (last now : Z) : Z :=
  Z.quot (i64 (i64 (now - last) * rl_rate rl)) second_of_ns.

Definition set_tokens (rl : rateLimiter) (n : Z) : rateLimiter :=
  mkRateLimiter (rl_rate rl) (rl_burst rl) n (rl_lastTime rl).
Definition set_lastTime (rl : rateLimiter) (t : Z) : rateLimiter :=
  mkRateLimiter (rl_rate rl) (rl_burst rl) (rl_tokens rl) t.

(** The refilled number of tokens. *)
Definition capped (rl : rateLimiter) (old new : Z) : Z :=
  let nv := i64 (old + new) in if rl_burst rl <? nv then rl_burst rl else nv.

(** One call that is not interleaved with another: the swap succeeds. *)
Definition rateLimiter_Allow (rl : rateLimiter) (now : Z) : bool * rateLimiter :=
  let newTokens := refill_of rl (rl_lastTime rl) now in
  if newTokens <=? 0 then
    if rl_tokens rl <=? 0 then (false, rl)
    else (true, set_tokens rl (i64 (rl_tokens rl - 1)))
  else
    let nv := capped rl (rl_tokens rl) newTokens in
    if nv <=? 0 then (false, rl)
    else (true, set_lastTime (set_tokens rl (i64 (nv - 1))) now).

(** ** Concurrent calls *)

(** Where a call is: about to load [lastTime]; about to load [tokens] on either path;
    about to take a token; about to swap; about to store [lastTime]; returned. *)
Inductive allowPC :=
| PStart
| PFast
| PTake
| PSlow (now new : Z)
| PSwap (now new old nv : Z)
| PStore (now : Z)
| PDone (allowed : bool).

(** One atomic step; [now] is the clock, read at the start. *)
Definition allow_step (rl : rateLimiter) (pc : allowPC) (now : Z) : rateLimiter * allowPC :=
  match pc with
  | PStart =>
      let newTokens := refill_of rl (rl_lastTime rl) now in
      (rl, if newTokens <=? 0 then PFast else PSlow now newTokens)
  | PFast => (rl, if rl_tokens rl <=? 0 then PDone false else PTake)
  | PTake => (set_tokens rl (i64 (rl_tokens rl - 1)), PDone true)
  | PSlow t new =>
      let nv := capped rl (rl_tokens rl) new in
      (rl, if nv <=? 0 then PDone false else PSwap t new (rl_tokens rl) nv)
  | PSwap t new old nv =>
      if rl_tokens rl =? old then (set_tokens rl (i64 (nv - 1)), PStore t) else (rl, PSlow t new)
  | PStore t => (set_lastTime rl t, PDone true)
  | PDone b => (rl, PDone b)
  end.

(** The calls in progress take steps in the order of a schedule of (call, clock). *)
Fixpoint run_calls (rl : rateLimiter) (pcs : gmap nat allowPC) (sched : list (nat * Z))
    : rateLimiter * gmap nat allowPC :=
  match sched with
  | [] => (rl, pcs)
  | (c, now) :: rest =>
      let pc := default PStart (pcs !! c) in
      let '(rl', pc') := allow_step rl pc now in
      run_calls rl' (<[c := pc']> pcs) rest
  end.

(** ** Sequences of calls *)
Fixpoint allowed_count (rl : rateLimiter) (times : list Z) : Z :=
  match times with
  | [] => 0
  | t :: rest =>
      let '(b, rl') := rateLimiter_Allow rl t in (if b then 1 else 0) + allowed_count rl' rest
  end.

(** The clock does not go back and does not pass [limit]. *)
Fixpoint clock_ok (last limit : Z) (times : list Z) : Prop :=
  match times with
  | [] => True
  | t :: rest => last ≤ t ≤ limit ∧ clock_ok t limit rest
  end.

Lemma clock_ok_weaken last last' limit times :
  last' ≤ last → clock_ok last limit times → clock_ok last' limit times.
Proof. intros Hle. destruct times as [|t rest]; [done|]. simpl. intros [? ?]. split; [lia|done]. Qed.

Definition rl_ok (rl : rateLimiter) : Prop :=
  0 ≤ rl_rate rl ∧ 0 ≤ rl_burst rl < 2 ^ 62 ∧ 0 ≤ rl_tokens rl ≤ rl_burst rl.

(** Without overflow the refill is the exact quotient. *)
Lemma refill_exact rl last now :
  0 ≤ rl_rate rl → 0 ≤ now - last < 2 ^ 62 → (now - last) * rl_rate rl < 2 ^ 62 →
  refill_of rl last now = ((now - last) * rl_rate rl) / second_of_ns.
Proof.
  intros Hr Hd Hp. assert (0 ≤ (now - last) * rl_rate rl) by (apply Z.mul_nonneg_nonneg; lia).
  unfold refill_of, second_of_ns.
  rewrite (i64_id (now - last)) by (unfold is_i64; lia).
  rewrite i64_id by (unfold is_i64; lia). apply Z.quot_div_nonneg; lia.
Qed.

Lemma div_sum_le a b c : 0 < c → a / c + b / c ≤ (a + b) / c.
Proof.
  intros Hc. pose proof (Z.mul_div_le a c Hc). pose proof (Z.mul_div_le b c Hc).
  apply Z.div_le_lower_bound; lia.
Qed.

(** One call pays for itself: what it allows plus the tokens left is covered by the tokens
    before plus the refill of the time that [lastTime] advances. *)
Lemma allow_pays rl now b rl' :
  rl_ok rl → 0 ≤ now - rl_lastTime rl < 2 ^ 62 → (now - rl_lastTime rl) * rl_rate rl < 2 ^ 62 →
  rateLimiter_Allow rl now = (b, rl') →
  rl_ok rl' ∧ rl_rate rl' = rl_rate rl ∧ rl_burst rl' = rl_burst rl ∧
  rl_lastTime rl ≤ rl_lastTime rl' ≤ now ∧
  (if b then 1 else 0) + rl_tokens rl' ≤
    rl_tokens rl + ((rl_lastTime rl' - rl_lastTime rl) * rl_rate rl) / second_of_ns.
Proof.
  intros (Hr & Hb & Ht) Hd Hp. unfold rateLimiter_Allow. rewrite refill_exact by done.
  assert (0 ≤ (now - rl_lastTime rl) * rl_rate rl) by (apply Z.mul_nonneg_nonneg; lia).
  set (new := _ / second_of_ns).
  assert (Hnew : 0 ≤ new < 2 ^ 62).
  { split; [apply Z.div_pos; unfold second_of_ns; lia|]. apply Z.div_lt_upper_bound; unfold second_of_ns; lia. }
  destruct (Z.leb_spec new 0) as [Hn|Hn].
  - destruct (Z.leb_spec (rl_tokens rl) 0) as [Ht0|Ht0]; intros [= <- <-]; simpl.
    + rewrite Z.sub_diag. change (0 * rl_rate rl / second_of_ns) with 0. unfold rl_ok; simpl; split_and!; lia.
    + rewrite i64_id by (unfold is_i64; lia). rewrite Z.sub_diag. change (0 * rl_rate rl / second_of_ns) with 0.
      unfold rl_ok; simpl; split_and!; lia.
  - unfold capped. rewrite (i64_id (rl_tokens rl + new)) by (unfold is_i64; lia).
    set (nv := if _ <? _ then _ else _).
    assert (Hnv : 0 < nv ∨ rl_burst rl = 0) by (unfold nv; destruct (Z.ltb_spec (rl_burst rl) (rl_tokens rl + new)); lia).
    assert (Hle : nv ≤ rl_tokens rl + new ∧ nv ≤ rl_burst rl ∧ 0 ≤ nv)
      by (unfold nv; destruct (Z.ltb_spec (rl_burst rl) (rl_tokens rl + new)); lia).
    destruct (Z.leb_spec nv 0) as [H0|H0]; intros [= <- <-]; simpl.
    + rewrite Z.sub_diag. change (0 * rl_rate rl / second_of_ns) with 0. unfold rl_ok; simpl; split_and!; lia.
    + rewrite i64_id by (unfold is_i64; lia). fold new. unfold rl_ok; simpl; split_and!; lia.
Qed.

Lemma allowed_bound times rl limit :
  rl_ok rl → clock_ok (rl_lastTime rl) limit times → rl_lastTime rl ≤ limit →
  limit - rl_lastTime rl < 2 ^ 62 → (limit - rl_lastTime rl) * rl_rate rl < 2 ^ 62 →
  allowed_count rl times ≤ rl_tokens rl + ((limit - rl_lastTime rl) * rl_rate rl) / second_of_ns.
Proof.
  revert rl. induction times as [|t rest IH]; intros rl Hok Hclock Hlim Hd Hp; cbn [allowed_count].
  - assert (0 ≤ ((limit - rl_lastTime rl) * rl_rate rl) / second_of_ns)
      by (apply Z.div_pos; [apply Z.mul_nonneg_nonneg; destruct Hok; lia|done]).
    destruct Hok as (_ & _ & ?). lia.
  - destruct Hclock as [Ht Hrest]. destruct (rateLimiter_Allow rl t) as [b rl'] eqn:E.
    assert (Hmono : (t - rl_lastTime rl) * rl_rate rl ≤ (limit - rl_lastTime rl) * rl_rate rl)
      by (apply Z.mul_le_mono_nonneg_r; destruct Hok; lia).
    destruct (allow_pays rl t b rl') as (Hok' & Hrate & _ & Hlast & Hpay); [done|lia|lia|done|].
    assert (Hmono' : (limit - rl_lastTime rl') * rl_rate rl ≤ (limit - rl_lastTime rl) * rl_rate rl)
      by (apply Z.mul_le_mono_nonneg_r; destruct Hok; lia).
    specialize (IH rl' Hok'). rewrite Hrate in IH.
    pose proof (IH (clock_ok_weaken _ _ _ _ (proj2 Hlast) Hrest) ltac:(lia) ltac:(lia) ltac:(lia)) as Hrec.
    pose proof (div_sum_le ((rl_lastTime rl' - rl_lastTime rl) * rl_rate rl)
                  ((limit - rl_lastTime rl') * rl_rate rl) second_of_ns ltac:(unfold second_of_ns; lia)) as Hsum.
    replace ((rl_lastTime rl' - rl_lastTime rl) * rl_rate rl + (limit - rl_lastTime rl') * rl_rate rl)
      with ((limit - rl_lastTime rl) * rl_rate rl) in Hsum by lia.
    lia.
Qed.

Fixpoint allow_steps (n : nat) (rl : rateLimiter) (pc : allowPC) (now : Z) : rateLimiter * allowPC :=
  match n with
  | O => (rl, pc)
  | S n => let '(rl', pc') := allow_step rl pc now in allow_steps n rl' pc' now
  end.

Lemma run_calls_one n rl pcs c now :
  run_calls rl pcs (replicate (S n) (c, now)) =
    let '(rl', pc') := allow_steps (S n) rl (default PStart (pcs !! c)) now in (rl', <[c := pc']> pcs).
Proof.
  revert rl pcs. induction n as [|n IH]; intros rl pcs.
  - cbn. by destruct (allow_step rl _ now).
  - change (replicate (S (S n)) (c, now)) with ((c, now) :: replicate (S n) (c, now)).
    cbn [run_calls allow_steps]. destruct (allow_step rl _ now) as [rl1 pc1].
    rewrite IH, lookup_insert_eq. cbn [default from_option allow_steps id].
    destruct (allow_step rl1 pc1 now) as [rl2 pc2]. destruct (allow_steps n rl2 pc2 now).
    by rewrite insert_insert_eq.
Qed.

(** The atomic steps of a single call amount to the call. *)
Theorem allow_steps_sequential rl now :
  run_calls rl ∅ (replicate 4 (1%nat, now)) =
    ((rateLimiter_Allow rl now).2, {[1%nat := PDone (rateLimiter_Allow rl now).1]}).
Proof.
  rewrite run_calls_one, lookup_empty. cbn [default from_option allow_steps]. unfold allow_step at 1, rateLimiter_Allow.
  destruct (refill_of rl (rl_lastTime rl) now <=? 0); cbn [allow_step].
  - by destruct (rl_tokens rl <=? 0).
  - destruct (capped rl (rl_tokens rl) (refill_of rl (rl_lastTime rl) now) <=? 0); cbn [allow_step]; [done|].
    by rewrite Z.eqb_refl.
Qed.

(** ** Properties *)

(** Calls that do not overlap are limited: from a new limiter, any sequence of
    calls at non-decreasing times up to [limit] is allowed at most [burst] times plus
    [rate] times per second, as long as the elapsed time times the rate stays below 2^62. *)
Theorem rate_limit_bound rate burst start limit times :
  0 ≤ rate → 0 ≤ burst < 2 ^ 62 → start ≤ limit → limit - start < 2 ^ 62 →
  (limit - start) * rate < 2 ^ 62 → clock_ok start limit times →
  allowed_count (newRateLimiter rate burst start) times ≤ burst + ((limit - start) * rate) / second_of_ns.
Proof.
  intros Hr Hb Hl Hd Hp Hc.
  apply (allowed_bound times (newRateLimiter rate burst start) limit); simpl; try done.
  unfold rl_ok. simpl. lia.
Qed.

(** With the deployed rate of 100000 per second the product of elapsed time and
    rate overflows after 25.6 hours: a limiter whose bucket was emptied before such a pause
    refuses every request of the following 25.6 hours, and refusing does not move its
    clock, so it never catches up in between. *)
Theorem rate_limiter_overflow_refuses burst start now :
  0 ≤ start → now < 2 ^ 63 →
  92233720368548 ≤ now - start ≤ 184467440737095 →
  rateLimiter_Allow (mkRateLimiter 100000 burst 0 start) now = (false, mkRateLimiter 100000 burst 0 start).
Proof.
  intros Hs Hn Hd. unfold rateLimiter_Allow, refill_of. cbn [rl_rate rl_lastTime rl_tokens].
  rewrite (i64_id (now - start)) by (unfold is_i64; lia).
  assert (Hw : i64 ((now - start) * 100000) = (now - start) * 100000 - 2 ^ 64).
  { unfold i64. rewrite <- (Z.mod_unique_pos ((now - start) * 100000 + 2 ^ 63) (2 ^ 64) 1
      ((now - start) * 100000 + 2 ^ 63 - 2 ^ 64)); lia. }
  rewrite Hw. assert (Hq : Z.quot ((now - start) * 100000 - 2 ^ 64) second_of_ns ≤ 0).
  { replace ((now - start) * 100000 - 2 ^ 64) with (- (2 ^ 64 - (now - start) * 100000)) by lia.
    rewrite Z.quot_opp_l by done. pose proof (Z.quot_pos (2 ^ 64 - (now - start) * 100000) second_of_ns
      ltac:(lia) ltac:(done)). lia. }
  apply Z.leb_le in Hq. by rewrite Hq.
Qed.

(** Overlapping calls read the same [lastTime] and add the same refill: after a second two
    calls bring an empty bucket of ten tokens a second to eighteen. *)
Theorem overlapping_calls_refill_twice :
  let s := second_of_ns in
  let '(rl, pcs) := run_calls (mkRateLimiter 10 100 0 0) ∅
    [(1%nat, s); (2%nat, s); (1%nat, s); (1%nat, s); (1%nat, s); (2%nat, s); (2%nat, s); (2%nat, s)] in
  rl_tokens rl = 18 ∧ pcs !! 1%nat = Some (PDone true) ∧ pcs !! 2%nat = Some (PDone true).
Proof. vm_compute. done. Qed.

Lemma rate_limit_bound_witness :
  allowed_count (newRateLimiter 2 3 0) [0; 0; 0; 0; 500000000; 1000000000] ≤ 3 + (1000000000 * 2) / second_of_ns.
Proof.
  apply (rate_limit_bound 2 3 0 1000000000); simpl; lia.
Defined.

Lemma rate_limiter_overflow_refuses_witness :
  rateLimiter_Allow (mkRateLimiter 100000 200000 0 0) (27 * 3600 * second_of_ns)
    = (false, mkRateLimiter 100000 200000 0 0).
Proof. apply (rate_limiter_overflow_refuses 200000 0); unfold second_of_ns; lia. Defined.
