(* ===== verification/Api.v ===== *)
(** * The HTTP API of the control plane ([internal/controlplane/api.go] and the node handlers
      of [admin_internal.go])

    The handlers compose the components: the node table and heartbeats ([NodeLifecycle]),
    the scheduler with its node list cache ([Scheduler], [NodeCache]), the block list
    ([Policy]) and the key sanitizer ([ResourceKeys]).  A JSON body is what decoding makes
    of it; a response is its status and what it says.  A panic in a handler becomes a 500
    ([middleware.Recoverer]).

    The theorems: once the internal admin API has disabled a node, no dispatch announces it
    whatever else happens, until it is enabled; the redirect of the object route names the
    sanitized key; a blocked address is refused by the dispatch route but served by the
    object route; the cache of client addresses confuses headers and peer addresses. *)

From S2P Require Import Prelude GoStrings ContentIndex StreamKeys Models NodeCache Scheduler.
From S2P Require Import NodeLifecycle Policy ResourceKeys.
From Stdlib Require Import Ascii.

(** ** Requests and responses *)
Record httpRequest := mkHttpRequest {
  hr_XForwardedFor : string;
  hr_XRealIP : string;
  hr_RemoteAddr : string
}.

Inductive reply :=
| RError (status : Z) (code : string)
| RStatus (what : string)
| RNode (n : Node)
| RRegistered (nodeID token : string) (exp : Z)
| RDispatch (resp : DispatchResponse)
| RRedirect (url : string).

(** What decoding makes of a body. *)
Inductive requestBody (A : Type) :=
| WrongMediaType | TooLarge | Malformed | TrailingData | Body (a : A).
Arguments WrongMediaType {A}.
Arguments TooLarge {A}.
Arguments Malformed {A}.
Arguments TrailingData {A}.
Arguments Body {A} a.

Definition decodeJSON {A : Type} (b : requestBody A) : reply + A :=
  match b with
  | WrongMediaType => inl (RError 415 "UNSUPPORTED_MEDIA_TYPE")
  | TooLarge => inl (RError 413 "TOO_LARGE")
  | Malformed | TrailingData => inl (RError 400 "BAD_REQUEST")
  | Body a => inr a
  end.

Definition trimmed (s : string) : string := of_chars (trim_space (to_chars s)).

(** ** The client address *)
Definition clientIP (r : httpRequest) : string :=
  let xff := to_chars (hr_XForwardedFor r) in
  if negb (String.eqb (hr_XForwardedFor r) "") then
    match last_index (to_chars ",") xff with
    | Some idx => if (0 <? idx)%nat then of_chars (trim_space (drop (S idx) xff)) else of_chars (trim_space xff)
    | None => of_chars (trim_space xff)
    end
  else if negb (String.eqb (hr_XRealIP r) "") then trimmed (hr_XRealIP r)
  else
    match to_chars (hr_RemoteAddr r) with
    | [] => ""
    | c :: rest =>
        let host := c :: rest in
        if bool_decide (c = ascii_of_nat 91) then
          match index_byte (ascii_of_nat 93) host with
          | Some idx => of_chars (take (idx - 1) (drop 1 host))
          | None => of_chars rest
          end
        else
          match last_index (to_chars ":") host with
          | Some idx => if (0 <? idx)%nat then of_chars (take idx host) else of_chars host
          | None => of_chars host
          end
    end.

(** The address is cached under the text it is derived from. *)
Definition cachedClientIP (cache : gmap string string) (r : httpRequest) : string * gmap string string :=
  let raw := hr_XForwardedFor r in
  let raw := if String.eqb raw "" then hr_XRealIP r else raw in
  let raw := if String.eqb raw "" then hr_RemoteAddr r else raw in
  if String.eqb raw "" then ("", cache)
  else match cache !! raw with
       | Some v => (v, cache)
       | None => let ip := clientIP r in (ip, <[raw := ip]> cache)
       end.

(** ** The handlers *)
Record ApiState := mkApiState {
  api_cp : ControlPlane;
  api_sched : SchedState;
  api_policy : policyData;
  api_ipCache : gmap string string
}.

Definition with_cp (st : ApiState) (h : ControlPlane) : ApiState :=
  mkApiState h (api_sched st) (api_policy st) (api_ipCache st).
Definition with_sched (st : ApiState) (s : SchedState) : ApiState :=
  mkApiState (api_cp st) s (api_policy st) (api_ipCache st).
Definition with_ips (st : ApiState) (c : gmap string string) : ApiState :=
  mkApiState (api_cp st) (api_sched st) (api_policy st) c.
Definition with_pgstore (st : ApiState) (pg : PGStore) : ApiState := with_cp st (with_pg (api_cp st) pg).
Definition invalidated (st : ApiState) : ApiState :=
  with_sched st (mkSchedState (NodeCache_Invalidate (st_nodeCache (api_sched st))) (st_requestSeq (api_sched st))).

Definition handleRegister (db_ok : bool) (nodeID token : string) (now : Z) (st : ApiState)
    (body : requestBody RegisterRequest) : reply * ApiState :=
  match decodeJSON body with
  | inl e => (e, st)
  | inr req =>
      let req := mkRegisterRequest (trimmed (rr_NodeName req)) (rr_Endpoints req) (trimmed (rr_Region req))
                   (trimmed (rr_ISP req)) (rr_TenantID req) (rr_ProjectID req) (rr_Capabilities req) in
      if String.eqb (rr_NodeName req) "" then (RError 400 "BAD_REQUEST", st)
      else
        let '(r, h) := Registry_Register db_ok (api_cp st) nodeID token req now in
        match r with
        | Ok (id, tok, exp) => (RRegistered id tok exp, with_cp st h)
        | _ => (RError 500 "REGISTER_FAILED", with_cp st h)
        end
  end.

(** Of the request, what the control plane acts on (the load figures are only stored). *)
Record HeartbeatRequest := mkHeartbeatRequest {
  hb_NodeID : string;
  hb_TS : Z;
  hb_ContentSummary : option ContentSummary
}.

Definition handleHeartbeat (get_ok redis_ok : bool) (io : hbIO) (now : Z) (st : ApiState)
    (body : requestBody HeartbeatRequest) : reply * ApiState :=
  match decodeJSON body with
  | inl e => (e, st)
  | inr req =>
      let nodeID := trimmed (hb_NodeID req) in
      if String.eqb nodeID "" then (RError 400 "BAD_REQUEST", st)
      else
        let '(rn, pg) := PGStore_GetNode get_ok (cp_pg (api_cp st)) nodeID now in
        let st := with_pgstore st pg in
        match rn with
        | Ok _ =>
            let '(r, h) := Heartbeat_ProcessHeartbeat redis_ok io (api_cp st) nodeID (hb_TS req) now
                             (hb_ContentSummary req) in
            (match r with Ok _ => RStatus "ok" | _ => RError 500 "HEARTBEAT_FAILED" end, with_cp st h)
        | _ => (RError 404 "NOT_FOUND", st)
        end
  end.

Definition handleGetNode (db_ok : bool) (now : Z) (st : ApiState) (nodeID : string) : reply * ApiState :=
  let '(rn, pg) := PGStore_GetNode db_ok (cp_pg (api_cp st)) nodeID now in
  (match rn with Ok n => RNode n | _ => RError 404 "NOT_FOUND" end, with_pgstore st pg).

(** [errors.Is(err, pgx.ErrNoRows)]. *)
Definition handleRevokeNode (db_ok : bool) (st : ApiState) (nodeID : string) : reply * ApiState :=
  let '(r, pg) := PGStore_RevokeNode db_ok (cp_pg (api_cp st)) nodeID in
  (match r with
   | Ok _ => RStatus "revoked"
   | Err e => if String.eqb e "no rows in result set" then RError 404 "NOT_FOUND" else RError 500 "REVOKE_FAILED"
   | Panic => RError 500 "REVOKE_FAILED"
   end, with_pgstore st pg).

(** *** The node handlers of [admin_internal.go] *)
Definition handleAdminSetStatus (get_ok update_ok : bool) (now : Z) (st : ApiState) (nodeID : string)
    (status : NodeStatus) : reply * ApiState :=
  let '(rn, pg) := PGStore_GetNode get_ok (cp_pg (api_cp st)) nodeID now in
  let st := with_pgstore st pg in
  match rn with
  | Ok _ =>
      let '(r, pg) := PGStore_UpdateNodeStatus update_ok (cp_pg (api_cp st)) nodeID status now in
      let st := with_pgstore st pg in
      match r with
      | Ok _ => (RStatus "ok", invalidated st)
      | _ => (RError 500 "INTERNAL", st)
      end
  | _ => (RError 404 "NOT_FOUND", st)
  end.

(** [body] is the [Reason] of the decoded body, [None] if decoding fails. *)
Definition handleAdminDisableNode (get_ok update_ok : bool) (now : Z) (st : ApiState) (nodeID : string)
    (body : option string) : reply * ApiState :=
  match body with
  | Some reason =>
      if String.eqb (trimmed reason) "" then (RError 400 "BAD_REQUEST", st)
      else handleAdminSetStatus get_ok update_ok now st nodeID NodeStatusDisabled
  | None => (RError 400 "BAD_REQUEST", st)
  end.
Definition handleAdminEnableNode (get_ok update_ok : bool) (now : Z) (st : ApiState) (nodeID : string)
    : reply * ApiState := handleAdminSetStatus get_ok update_ok now st nodeID NodeStatusActive.
Definition handleAdminRevokeNode (db_ok : bool) (st : ApiState) (nodeID : string) : reply * ApiState :=
  let '(r, pg) := PGStore_RevokeNode db_ok (cp_pg (api_cp st)) nodeID in
  let st := with_pgstore st pg in
  match r with
  | Ok _ => (RStatus "ok", invalidated st)
  | _ => (RError 404 "NOT_FOUND", st)
  end.

(** *** Dispatching *)
Section dispatch.
Context {CI : Type} `{ContentIndexLookup CI} {SG : Type} `{TokenSigner SG}.

Definition handleDispatch (s : Scheduler CI SG) (t : Clock) (db_ok : bool) (st : ApiState) (r : httpRequest)
    (body : requestBody DispatchRequest) : reply * ApiState :=
  match decodeJSON body with
  | inl e => (e, st)
  | inr req =>
      let ip := trimmed (cl_IP (dr_Client req)) in
      let '(ip, ips) := if String.eqb ip "" then cachedClientIP (api_ipCache st) r else (ip, api_ipCache st) in
      let st := with_ips st ips in
      let key := trimmed (res_Key (dr_Resource req)) in
      if String.eqb key "" then (RError 400 "BAD_REQUEST", st)
      else if Policy_IsBlocked (api_policy st) ip then (RError 403 "BLOCKED", st)
      else
        let req := mkDispatchRequest (mkClientInfo ip (cl_Region (dr_Client req)) (cl_ISP (dr_Client req)))
                     (mkResourceInfo (res_Type (dr_Resource req)) key (res_Scheme (dr_Resource req)))
                     (dr_NeedRange req) in
        let '(res, sched) := Scheduler_Resolve s t (PGStore_ListActiveNodes db_ok (cp_pg (api_cp st)))
                               (api_sched st) req in
        (match res with
         | Ok resp => RDispatch resp
         | Err _ => RError 500 "DISPATCH_FAILED"
         | Panic => RError 500 ""
         end, with_sched st sched)
  end.

(** [strings.TrimRight(s, "/")]. *)
Fixpoint drop_slashes (l : chars) : chars :=
  match l with
  | c :: l' => if bool_decide (c = slash) then drop_slashes l' else l
  | [] => []
  end.
Definition trim_right_slashes (l : chars) : chars := rev (drop_slashes (rev l)).

Definition redirect_url (endpoint : string) (key : chars) (token : string) : string :=
  of_chars (trim_right_slashes (to_chars endpoint) ++ to_chars "/obj/" ++ escapeResourcePath key ++
            (if String.eqb token "" then [] else to_chars "?token=" ++ QueryEscape (to_chars token))).

(** [rawKey] is the rest of the path; the block list is not consulted. *)
Definition handleObjectIngress (s : Scheduler CI SG) (t : Clock) (db_ok : bool) (st : ApiState)
    (r : httpRequest) (rawKey : string) : reply * ApiState :=
  let key := sanitizeResourceKey (to_chars rawKey) in
  if bool_decide (key = []) then (RError 400 "BAD_REQUEST", st)
  else
    let '(ip, ips) := cachedClientIP (api_ipCache st) r in
    let st := with_ips st ips in
    let req := mkDispatchRequest (mkClientInfo ip "" "") (mkResourceInfo "object" (of_chars key) "https") false in
    let '(res, sched) := Scheduler_Resolve s t (PGStore_ListActiveNodes db_ok (cp_pg (api_cp st)))
                           (api_sched st) req in
    let st := with_sched st sched in
    match res with
    | Ok resp =>
        match resp_Candidates resp with
        | top :: _ => (RRedirect (redirect_url (cand_Endpoint top) key (tok_Value (resp_Token resp))), st)
        | [] => (RError 503 "NO_EDGE", st)
        end
    | Err _ => (RError 503 "NO_EDGE", st)
    | Panic => (RError 500 "", st)
    end.
End dispatch.

(** ** A disabled node is not dispatched *)

(** The row of the node, if there is one, is disabled. *)
Definition pg_safe (id : string) (s : PGStore) : Prop :=
  pg_coherent s ∧ ids_ok s ∧ ∀ n, pg_nodes s !! id = Some n → n_Status n = NodeStatusDisabled.
Definition cache_safe (id : string) (c : NodeCache) : Prop :=
  ∀ nodes, nc_nodes c = Some nodes → id ∉ n_NodeID <$> nodes.
Definition api_safe (id : string) (st : ApiState) : Prop :=
  pg_safe id (cp_pg (api_cp st)) ∧ cache_safe id (st_nodeCache (api_sched st)).

Lemma auto_step_safe id h h' : auto_step h h' → pg_safe id (cp_pg h) → pg_safe id (cp_pg h').
Proof.
  intros Hs (Hc & Hids & Hdis).
  destruct (auto_step_ok (pg_nodes (cp_pg h)) h h' Hs) as [Hc' Hf]; [split; [done|reflexivity]|].
  split; [done|]. split; [by eapply auto_step_ids|].
  intros n Hn. specialize (Hf id). rewrite Hn in Hf. simpl in Hf.
  destruct (pg_nodes (cp_pg h) !! id) as [m|] eqn:Em; simpl in Hf; [|done].
  rewrite (Hdis m eq_refl) in Hf. destruct Hf as [<-|(x & y & Hx & _)]; [done|discriminate].
Qed.

Lemma update_status_safe id db_ok s nodeID st now :
  pg_safe id s → nodeID ≠ id ∨ st = NodeStatusDisabled →
  pg_safe id (PGStore_UpdateNodeStatus db_ok s nodeID st now).2.
Proof.
  intros (Hc & Hids & Hdis) Hok. unfold PGStore_UpdateNodeStatus. destruct db_ok; simpl; [|done].
  destruct (pg_nodes s !! nodeID) as [m|] eqn:Em; [|done].
  split; [by apply update_row_coherent|]. split; [by apply update_row_ids|].
  intros n. simpl. destruct (decide (id = nodeID)) as [->|Hne].
  - rewrite lookup_alter_eq, Em. intros [= <-]. simpl. destruct Hok; done.
  - rewrite lookup_alter_ne by done. apply Hdis.
Qed.

Lemma get_node_safe id db_ok s nodeID now : pg_safe id s → pg_safe id (PGStore_GetNode db_ok s nodeID now).2.
Proof.
  intros (Hc & Hids & Hdis). pose proof (GetNode_spec db_ok s nodeID now Hc) as Hg.
  unfold pg_safe. rewrite GetNode_nodes.
  destruct (PGStore_GetNode db_ok s nodeID now) as [r s'] eqn:E. destruct Hg as (Hc' & _).
  split; [done|]. split; [|done]. pose proof (GetNode_ids db_ok s nodeID now Hids) as Hi. by rewrite E in Hi.
Qed.

Lemma revoke_safe id db_ok s nodeID : pg_safe id s → pg_safe id (PGStore_RevokeNode db_ok s nodeID).2.
Proof.
  intros (Hc & Hids & Hdis). unfold PGStore_RevokeNode. destruct db_ok; simpl; [|done].
  destruct (pg_nodes s !! nodeID) as [m|]; [|done]. split; [|split].
  - intros i n e. simpl. intros [Hne Hi]%lookup_delete_Some. rewrite lookup_delete_ne by done. by eapply Hc.
  - intros i n. simpl. intros [_ Hi]%lookup_delete_Some. by apply Hids.
  - intros n. simpl. intros [_ Hi]%lookup_delete_Some. by apply Hdis.
Qed.

Lemma create_safe id db_ok s nodeID req token now :
  nodeID ≠ id → pg_safe id s → pg_safe id (PGStore_CreateNode db_ok s nodeID req token now).2.
Proof.
  intros Hne (Hc & Hids & Hdis). unfold PGStore_CreateNode. destruct db_ok; simpl; [|done].
  destruct (pg_nodes s !! nodeID) as [m|] eqn:Em; [done|]. split; [|split].
  - intros i n e Hi. simpl in *. rewrite lookup_insert_ne; [by eapply Hc|].
    intros <-. apply Hc in Hi. congruence.
  - intros i n. simpl. intros [[<- <-]|[_ Hi]]%lookup_insert_Some; [done|by apply Hids].
  - intros n. simpl. rewrite lookup_insert_ne by done. apply Hdis.
Qed.

Lemma get_active_safe id s db_ok c now now' :
  pg_safe id s → cache_safe id c →
  cache_safe id (NodeCache_GetActiveNodes c now (PGStore_ListActiveNodes db_ok s) now').2 ∧
  ∀ nodes, (NodeCache_GetActiveNodes c now (PGStore_ListActiveNodes db_ok s) now').1 = Ok nodes →
    id ∉ n_NodeID <$> nodes.
Proof.
  intros (_ & Hids & Hdis) Hcs. unfold NodeCache_GetActiveNodes, NodeCache_fresh.
  assert (Hlist : ∀ l, PGStore_ListActiveNodes db_ok s = Ok l → id ∉ n_NodeID <$> l).
  { destruct db_ok; [|done]. intros l. apply not_listed; [done|]. intros n Hn.
    unfold listed. by rewrite (Hdis n Hn). }
  assert (Hdb : cache_safe id (match PGStore_ListActiveNodes db_ok s with
    | Ok nodes => (Ok nodes, NodeCache_store c nodes now') | Err e => (Err e, c) | Panic => (Panic, c) end).2 ∧
    ∀ nodes, (match PGStore_ListActiveNodes db_ok s with
    | Ok nodes => (Ok nodes, NodeCache_store c nodes now') | Err e => (Err e, c) | Panic => (Panic, c) end).1
      = Ok nodes → id ∉ n_NodeID <$> nodes).
  { destruct (PGStore_ListActiveNodes db_ok s) as [l| |] eqn:El; simpl; [|done..].
    split; [intros nodes [= <-]|intros nodes [= <-]]; by apply Hlist. }
  destruct (nc_nodes c) as [nodes|] eqn:En; [|exact Hdb]. destruct (now - nc_cachedAt c <? nc_ttl c); [|exact Hdb].
  simpl. split; [done|]. intros nodes' [= <-]. by apply Hcs.
Qed.

Section safety.
Context {CI : Type} `{ContentIndexLookup CI} {SG : Type} `{TokenSigner SG}.

Lemma resolve_cache (s : Scheduler CI SG) t db st req :
  st_nodeCache (Scheduler_Resolve s t db st req).2 =
    (NodeCache_GetActiveNodes (st_nodeCache st) (t_get t) db (t_store t)).2.
Proof.
  unfold Scheduler_Resolve. destruct (NodeCache_GetActiveNodes _ _ _ _) as [[nodes| |] nc]; [|done..].
  unfold Scheduler_NoOriginFallback. by repeat case_match; simplify_eq/=.
Qed.

Lemma resolve_candidate_from (s : Scheduler CI SG) t db st req resp st' cand :
  Scheduler_Resolve s t db st req = (Ok resp, st') → cand ∈ resp_Candidates resp →
  cand_ID cand = "origin" ∨
  ∃ nodes, (NodeCache_GetActiveNodes (st_nodeCache st) (t_get t) db (t_store t)).1 = Ok nodes ∧
    cand_ID cand ∈ n_NodeID <$> nodes.
Proof.
  intros Hr Hc. apply Scheduler_Resolve_ok in Hr as (nodes & nc & Hn & _ & _ & [[_ ->]|[_ Heq]]).
  - left. revert Hc. unfold Scheduler_NoOriginFallback.
    destruct (cfg_DegradeToOrigin (sc_cfg s)); simpl; [|by intros ?%not_elem_of_nil].
    by intros ->%list_elem_of_singleton.
  - right. rewrite Heq in Hc. apply list_elem_of_fmap in Hc as (sn & -> & Hsn).
    apply select_best_from in Hsn. apply list_elem_of_fmap in Hsn as (n & -> & [Hin _]%eligible_keep).
    exists nodes. rewrite Hn. split; [done|]. apply list_elem_of_fmap. exists n. split; [|done].
    unfold scored_of. by destruct (lookup_content s _).
Qed.

(** What may happen while node [id] is disabled: any request to the API but one that enables
    [id] or registers a node under its identifier, and any automatic step. *)
Inductive api_step (id : string) (st : ApiState) : ApiState → Prop :=
| ap_dispatch (s : Scheduler CI SG) t db_ok r body : api_step id st (handleDispatch s t db_ok st r body).2
| ap_ingress (s : Scheduler CI SG) t db_ok r rawKey : api_step id st (handleObjectIngress s t db_ok st r rawKey).2
| ap_heartbeat get_ok redis_ok io now body : api_step id st (handleHeartbeat get_ok redis_ok io now st body).2
| ap_get db_ok now nodeID : api_step id st (handleGetNode db_ok now st nodeID).2
| ap_register db_ok nodeID token now body :
    nodeID ≠ id → api_step id st (handleRegister db_ok nodeID token now st body).2
| ap_revoke db_ok nodeID : api_step id st (handleRevokeNode db_ok st nodeID).2
| ap_admin_disable a b now nodeID body : api_step id st (handleAdminDisableNode a b now st nodeID body).2
| ap_admin_enable a b now nodeID : nodeID ≠ id → api_step id st (handleAdminEnableNode a b now st nodeID).2
| ap_admin_revoke db_ok nodeID : api_step id st (handleAdminRevokeNode db_ok st nodeID).2
| ap_auto h : auto_step (api_cp st) h → api_step id st (with_cp st h)
| ap_policy unmarshal c :
    api_step id st (mkApiState (api_cp st) (api_sched st) (apply_change unmarshal (api_policy st) c) (api_ipCache st)).

Lemma resolve_safe id (s : Scheduler CI SG) t db_ok pg st req :
  pg_safe id pg → cache_safe id (st_nodeCache st) →
  cache_safe id (st_nodeCache (Scheduler_Resolve s t (PGStore_ListActiveNodes db_ok pg) st req).2).
Proof. intros Hp Hc. rewrite resolve_cache. by apply get_active_safe. Qed.

Lemma dispatch_safe id (s : Scheduler CI SG) t db_ok st r body :
  api_safe id st → api_safe id (handleDispatch s t db_ok st r body).2.
Proof.
  intros [Hp Hc]. unfold handleDispatch. destruct (decodeJSON body) as [|req]; [done|].
  destruct (if String.eqb _ _ then _ else _) as [ip ips].
  destruct (String.eqb _ _); [done|]. destruct (Policy_IsBlocked _ _); [done|].
  set (req' := mkDispatchRequest _ _ _).
  pose proof (resolve_safe id s t db_ok (cp_pg (api_cp st)) (api_sched st) req' Hp Hc) as Hr. simpl.
  destruct (Scheduler_Resolve _ _ _ _ _) as [res sched]. by split.
Qed.

Lemma ingress_safe id (s : Scheduler CI SG) t db_ok st r rawKey :
  api_safe id st → api_safe id (handleObjectIngress s t db_ok st r rawKey).2.
Proof.
  intros [Hp Hc]. unfold handleObjectIngress. destruct (bool_decide _); [done|].
  destruct (cachedClientIP _ _) as [ip ips]. set (req' := mkDispatchRequest _ _ _).
  pose proof (resolve_safe id s t db_ok (cp_pg (api_cp st)) (api_sched st) req' Hp Hc) as Hr. simpl.
  destruct (Scheduler_Resolve _ _ _ _ _) as [[resp| |] sched]; [destruct (resp_Candidates resp)|..]; by split.
Qed.

Lemma heartbeat_safe id a b io now st body :
  api_safe id st → api_safe id (handleHeartbeat a b io now st body).2.
Proof.
  intros [Hp Hc]. unfold handleHeartbeat. destruct (decodeJSON body) as [|req]; [done|].
  destruct (String.eqb _ _); [done|].
  pose proof (get_node_safe id a (cp_pg (api_cp st)) (trimmed (hb_NodeID req)) now Hp) as Hg.
  destruct (PGStore_GetNode _ _ _ _) as [[n| |] pg]; [|by split..].
  set (st1 := with_pgstore st pg).
  pose proof (auto_step_safe id (api_cp st1) _ (as_heartbeat (api_cp st1) b io (trimmed (hb_NodeID req)) (hb_TS req)
    now (hb_ContentSummary req)) Hg) as Ha.
  destruct (Heartbeat_ProcessHeartbeat _ _ _ _ _ _ _) as [res h]. by split.
Qed.

Lemma invalidated_safe id st : pg_safe id (cp_pg (api_cp st)) → api_safe id (invalidated st).
Proof. intros Hp. by split. Qed.

Lemma set_status_safe id a b now st nodeID status :
  api_safe id st → nodeID ≠ id ∨ status = NodeStatusDisabled →
  api_safe id (handleAdminSetStatus a b now st nodeID status).2.
Proof.
  intros [Hp Hc] Hok. unfold handleAdminSetStatus.
  pose proof (get_node_safe id a (cp_pg (api_cp st)) nodeID now Hp) as Hg.
  destruct (PGStore_GetNode _ _ _ _) as [[n| |] pg]; [|by split..].
  pose proof (update_status_safe id b (cp_pg (api_cp (with_pgstore st pg))) nodeID status now Hg Hok) as Hu.
  destruct (PGStore_UpdateNodeStatus _ _ _ _ _) as [[] pg1]; [by apply invalidated_safe|by split..].
Qed.

Lemma api_step_safe id st st' : api_step id st st' → api_safe id st → api_safe id st'.
Proof.
  intros Hs Hsafe. pose proof Hsafe as [Hp Hc].
  destruct Hs as [s t db_ok r body|s t db_ok r rawKey|a b io now body|db_ok now nodeID
    |db_ok nodeID token now body Hne|db_ok nodeID|a b now nodeID body|a b now nodeID Hne|db_ok nodeID|h Ha|c].
  - by apply dispatch_safe.
  - by apply ingress_safe.
  - by apply heartbeat_safe.
  - unfold handleGetNode. pose proof (get_node_safe id db_ok (cp_pg (api_cp st)) nodeID now Hp) as Hg.
    destruct (PGStore_GetNode _ _ _ _) as [rn pg]. by split.
  - unfold handleRegister. destruct (decodeJSON body) as [|req]; [done|]. destruct (String.eqb _ _); [done|].
    unfold Registry_Register.
    set (req' := mkRegisterRequest _ _ _ _ _ _ _).
    pose proof (create_safe id db_ok (cp_pg (api_cp st)) nodeID req' token now Hne Hp) as Hg.
    destruct (PGStore_CreateNode _ _ _ _ _ _) as [[n| |] pg]; by split.
  - unfold handleRevokeNode. pose proof (revoke_safe id db_ok (cp_pg (api_cp st)) nodeID Hp) as Hg.
    destruct (PGStore_RevokeNode _ _ _) as [r pg]. by split.
  - unfold handleAdminDisableNode. destruct body as [reason|]; [|done].
    destruct (String.eqb _ _); [done|]. apply set_status_safe; [done|by right].
  - apply set_status_safe; [done|by left].
  - unfold handleAdminRevokeNode. pose proof (revoke_safe id db_ok (cp_pg (api_cp st)) nodeID Hp) as Hg.
    destruct (PGStore_RevokeNode _ _ _) as [[] pg]; [by apply invalidated_safe|by split..].
  - split; [by eapply auto_step_safe|done].
  - by split.
Qed.

Lemma api_steps_safe id st st' : rtc (api_step id) st st' → api_safe id st → api_safe id st'.
Proof. induction 1; eauto using api_step_safe. Qed.

(** A successful disable makes the state safe. *)
Lemma disable_makes_safe id a b now st body st' :
  pg_coherent (cp_pg (api_cp st)) → ids_ok (cp_pg (api_cp st)) →
  handleAdminDisableNode a b now st id body = (RStatus "ok", st') → api_safe id st'.
Proof.
  intros Hc Hids. unfold handleAdminDisableNode. destruct body as [reason|]; [|done].
  destruct (String.eqb _ _); [done|]. unfold handleAdminSetStatus.
  pose proof (GetNode_spec a (cp_pg (api_cp st)) id now Hc) as Hg.
  pose proof (GetNode_ids a (cp_pg (api_cp st)) id now Hids) as Hi.
  destruct (PGStore_GetNode _ _ _ _) as [[n| |] pg]; [|done..]. destruct Hg as (Hc1 & _). simpl in Hi.
  unfold PGStore_UpdateNodeStatus. destruct b; simpl; [|done].
  destruct (pg_nodes pg !! id) as [m|] eqn:Em; [|done]. intros [= <-].
  apply invalidated_safe. split; [by apply update_row_coherent|]. split; [by apply update_row_ids|].
  intros n'. simpl. rewrite lookup_alter_eq, Em. by intros [= <-].
Qed.

End safety.

(** ** The object route *)
Lemma escape_char_no_mark c : ascii_of_nat 63 ∉ (if plain_in_segment c then [c] else percent_encode c).
Proof.
  apply (bool_decide_unpack _). destruct c as [[] [] [] [] [] [] [] []]; vm_compute; exact I.
Qed.

Lemma escape_no_mark p : ascii_of_nat 63 ∉ PathEscape p.
Proof.
  unfold PathEscape. induction p as [|c p IH]; [apply not_elem_of_nil|].
  rewrite bind_cons, not_elem_of_app. split; [apply escape_char_no_mark|exact IH].
Qed.

Lemma join_no_char c d ps : c ≠ d → Forall (λ p, c ∉ p) ps → c ∉ join_with d ps.
Proof.
  intros Hcd. induction ps as [|p ps IH]; intros Hps; [apply not_elem_of_nil|].
  apply Forall_cons in Hps as [Hp Hps]. destruct ps as [|q ps]; [done|].
  change (join_with d (p :: q :: ps)) with (p ++ d :: join_with d (q :: ps)).
  rewrite not_elem_of_app, not_elem_of_cons. auto.
Qed.

Lemma escaped_no_mark key : ascii_of_nat 63 ∉ escapeResourcePath key.
Proof.
  apply join_no_char; [done|]. apply Forall_fmap, Forall_forall. intros p _. apply escape_no_mark.
Qed.

(** The redirect of the object route is built from the endpoint of the first
    candidate and the sanitized key: its path after [/obj/] has no question mark, unescapes
    to exactly the sanitized key, and none of the segments of the key is empty, a dot or a
    dot-dot. *)
Theorem object_redirect_names_key {CI : Type} `{ContentIndexLookup CI} {SG : Type} `{TokenSigner SG}
    (s : Scheduler CI SG) t db_ok st r rawKey url st' :
  handleObjectIngress s t db_ok st r rawKey = (RRedirect url, st') →
  let key := sanitizeResourceKey (to_chars rawKey) in
  ∃ endpoint token path, url = redirect_url endpoint key token ∧ path = escapeResourcePath key ∧
    (ascii_of_nat 63 ∉ path) ∧ PathUnescape path = Some key ∧
    split_on slash path = PathEscape <$> split_on slash key ∧
    ∀ p, p ∈ split_on slash key → bad_part p = false.
Proof.
  unfold handleObjectIngress. intros Hr. simpl. case_bool_decide as Hne; [done|].
  destruct (cachedClientIP _ _) as [ip ips].
  destruct (Scheduler_Resolve _ _ _ _ _) as [[resp| |] sched]; [|done..].
  destruct (resp_Candidates resp) as [|top rest]; [done|]. injection Hr as <- _.
  eexists _, _, _. split; [reflexivity|]. split; [reflexivity|].
  split; [apply escaped_no_mark|]. split; [apply escape_unescape|]. split; [apply split_escaped|].
  intros p. by apply sanitized_segments.
Qed.

(** The refusal of dangerous characters happens before percent-decoding: an escaped
    backslash, line break or NUL arrives in the key. *)
Theorem escaped_backslash_passes :
  sanitizeResourceKey (to_chars "a\b") = [] ∧
  sanitizeResourceKey (to_chars "a%5Cb") = to_chars "a\b" ∧
  sanitizeResourceKey (to_chars "a%0Ab") = [ascii_of_nat 97; ascii_of_nat 10; ascii_of_nat 98].
Proof. vm_compute. done. Qed.

(** ** The block list *)

(** The dispatch route never answers a blocked address with candidates; the object route
    does not look at the block list at all. *)
Theorem object_route_ignores_block_list {CI : Type} `{ContentIndexLookup CI} {SG : Type} `{TokenSigner SG}
    (s : Scheduler CI SG) t db_ok st r :
  (∀ req resp st', Policy_IsBlocked (api_policy st) (trimmed (cl_IP (dr_Client req))) = true →
     trimmed (cl_IP (dr_Client req)) ≠ "" →
     handleDispatch s t db_ok st r (Body req) ≠ (RDispatch resp, st')) ∧
  (∀ rawKey p, (handleObjectIngress s t db_ok (mkApiState (api_cp st) (api_sched st) p (api_ipCache st)) r rawKey).1
     = (handleObjectIngress s t db_ok st r rawKey).1).
Proof.
  split.
  - intros req resp st' Hb Hne. unfold handleDispatch. cbn [decodeJSON].
    destruct (String.eqb_spec (trimmed (cl_IP (dr_Client req))) "") as [?|_]; [done|].
    destruct (String.eqb _ _); [done|]. cbn [api_policy with_ips]. by rewrite Hb.
  - intros rawKey p. unfold handleObjectIngress. destruct (bool_decide _); [done|]. simpl.
    destruct (cachedClientIP _ _) as [ip ips]. simpl.
    destruct (Scheduler_Resolve _ _ _ _ _) as [[resp| |] sched]; [destruct (resp_Candidates resp)|..]; done.
Qed.

(** The address cache is keyed by text whatever the text was: after a request with
    [X-Forwarded-For: raw], a client whose peer address is [raw] is known under the address
    derived from that header. *)
Theorem client_ip_cache_confused raw other :
  raw ≠ "" →
  let r1 := mkHttpRequest raw "" other in
  let r2 := mkHttpRequest "" "" raw in
  (cachedClientIP (cachedClientIP ∅ r1).2 r2).1 = clientIP r1.
Proof.
  intros Hr. assert (E : String.eqb raw "" = false) by (by apply String.eqb_neq).
  simpl. unfold cachedClientIP. cbn [hr_XForwardedFor hr_XRealIP hr_RemoteAddr].
  rewrite !E, lookup_empty. cbn [snd]. rewrite !(String.eqb_refl ""), E, lookup_insert_eq. done.
Qed.

Example client_ip_cache_confused_example :
  let raw := "203.0.113.9:4711" in
  clientIP (mkHttpRequest "" "" raw) = "203.0.113.9" ∧
  (cachedClientIP (cachedClientIP ∅ (mkHttpRequest raw "" "198.51.100.1:80")).2 (mkHttpRequest "" "" raw)).1 = raw.
Proof. vm_compute. done. Qed.

(** ** Concrete requests *)
Definition demo_api : ApiState :=
  mkApiState
    (mkControlPlane
       (mkPGStore {["n1" := edge_node "n1" "us" 50; "n2" := edge_node "n2" "eu" 90]} ∅ ∅ 30)
       (mkRedisStore ∅ ∅) None 90 [])
    demo_state NewPolicy ∅.
Definition demo_http : httpRequest := mkHttpRequest "" "" "203.0.113.9:4711".
(** A dispatch fills the node list cache, then [n2] is disabled, then a heartbeat of it. *)
Definition demo_warm : ApiState :=
  (handleDispatch demo_sched demo_clock true demo_api demo_http (Body demo_req)).2.
Definition demo_disabled : ApiState := (handleAdminDisableNode true true 5 demo_warm "n2" (Some "broken")).2.
Definition demo_later : ApiState :=
  (handleHeartbeat true true hb_fine 6 demo_disabled (Body (mkHeartbeatRequest "n2" 0 None))).2.
Definition answer_of (r : reply) : DispatchResponse :=
  match r with RDispatch resp => resp | _ => mkDispatchResponse "" 0 no_token [] end.
Definition demo_answer : reply * ApiState :=
  handleDispatch demo_sched demo_clock true demo_later demo_http (Body demo_req).


Definition demo_ingress : reply * ApiState :=
  handleObjectIngress demo_sched demo_clock true demo_api demo_http "/a b/c?".

Lemma object_redirect_names_key_witness :
  demo_ingress.1 = RRedirect "https://10.0.0.1:8443/obj/a%20b/c%3F?token=a+b%2Fc%3F" ∧
  PathUnescape (escapeResourcePath (sanitizeResourceKey (to_chars "/a b/c?"))) = Some (to_chars "a b/c?").
Proof.
  split; [vm_compute; reflexivity|].
  destruct (object_redirect_names_key demo_sched demo_clock true demo_api demo_http "/a b/c?"
    "https://10.0.0.1:8443/obj/a%20b/c%3F?token=a+b%2Fc%3F" demo_ingress.2) as (e & t & path & _ & -> & _ & H & _).
  - vm_compute. reflexivity.
  - rewrite H. vm_compute. reflexivity.
Defined.
