(* ===== verification/Tokens.v ===== *)
(** * Dispatch tokens and admin sessions ([internal/auth/token.go] and the JWT part of
      [internal/auth/admin.go])

    A dispatch token is the base64url text of a JSON payload, a dot, and the base64url text
    of its HMAC-SHA256; a session token is a JWT with a header in front.  JSON, base64 and
    HMAC are executed.  Times are in nanoseconds.

    The theorems: a token verifies until its expiry and gives back what was signed; an
    accepted token carries the HMAC of its payload under the secret and has not expired; the
    token of a dispatch answer verifies for the key that was asked for. *)

From S2P Require Import Prelude GoStrings NetAddr GoHash GoJson ContentIndex StreamKeys Models NodeCache Scheduler.
From Stdlib Require Import Ascii.

Definition sec : Z := 1000000000.

(** ** [base64.RawURLEncoding] *)
Definition url_alphabet : chars :=
  to_chars "ABCDEFGHIJKLMNOPQRSTUVWXYZabcdefghijklmnopqrstuvwxyz0123456789-_".
Definition url_char (v : Z) : ascii := default (ch 65) (url_alphabet !! Z.to_nat v).
Definition url_val (c : ascii) : option Z :=
  let n := code c in
  if between 65 n 90 then Some (n - 65) else if between 97 n 122 then Some (n - 71)
  else if between 48 n 57 then Some (n + 4) else if n =? 45 then Some 62 else if n =? 95 then Some 63
  else None.

Fixpoint url_encode (b : list Z) : chars :=
  match b with
  | [] => []
  | [x] => [url_char (x / 4); url_char ((x mod 4) * 16)]
  | [x; y] => [url_char (x / 4); url_char ((x mod 4) * 16 + y / 16); url_char ((y mod 16) * 4)]
  | x :: y :: z :: rest =>
      url_char (x / 4) :: url_char ((x mod 4) * 16 + y / 16) :: url_char ((y mod 16) * 4 + z / 64)
        :: url_char (z mod 64) :: url_encode rest
  end.

(** The bits beyond the last byte are not looked at. *)
Fixpoint url_decode_clean (l : chars) : option (list Z) :=
  match l with
  | [] => Some []
  | [_] => None
  | [a; b] => match url_val a, url_val b with
              | Some a, Some b => Some [a * 4 + b / 16] | _, _ => None end
  | [a; b; c] => match url_val a, url_val b, url_val c with
                 | Some a, Some b, Some c => Some [a * 4 + b / 16; (b mod 16) * 16 + c / 4]
                 | _, _, _ => None end
  | a :: b :: c :: d :: rest =>
      match url_val a, url_val b, url_val c, url_val d, url_decode_clean rest with
      | Some a, Some b, Some c, Some d, Some r =>
          Some (a * 4 + b / 16 :: (b mod 16) * 16 + c / 4 :: (c mod 4) * 64 + d :: r)
      | _, _, _, _, _ => None
      end
  end.

(** The decoder skips carriage returns and line feeds. *)
Definition url_decode (l : chars) : option (list Z) :=
  url_decode_clean (filter (λ c, c ≠ ch 10 ∧ c ≠ ch 13) l).

Definition code_list (l : chars) : list Z := code <$> l.
Definition of_codes (l : list Z) : chars := ch <$> l.

(** The HMAC of a text, in base64url. *)
Definition mac_text (secret : bytes) (text : chars) : chars :=
  url_encode (byte.unsigned <$> hmac_sha256 secret (bytes_of_string (of_chars text))).

(** ** Dispatch tokens *)
Record TokenPayload := mkTokenPayload { tp_Key : string; tp_Exp : Z; tp_IPPrefix : string }.

Definition payload_names : list chars := to_chars <$> ["key"; "exp"; "ip_prefix"].

(** [json.Marshal(p)]; an empty [IPPrefix] is omitted. *)
Definition payload_json (p : TokenPayload) : chars :=
  json_object ([(to_chars "key", FStr (to_chars (tp_Key p))); (to_chars "exp", FInt (tp_Exp p))] ++
    if String.eqb (tp_IPPrefix p) "" then [] else [(to_chars "ip_prefix", FStr (to_chars (tp_IPPrefix p)))]).

Definition payload_of (vals : list fieldVal) : option TokenPayload :=
  match vals with
  | [FStr k; FInt e; FStr i] => Some (mkTokenPayload (of_chars k) e (of_chars i))
  | _ => None
  end.

Definition Signer_Sign (secret : bytes) (now : Z) (p : TokenPayload) : result string :=
  let p := if tp_Exp p =? 0 then mkTokenPayload (tp_Key p) ((now + 300 * sec) / sec) (tp_IPPrefix p) else p in
  let encoded := url_encode (code_list (payload_json p)) in
  Ok (of_chars (encoded ++ ch 46 :: mac_text secret encoded)).

(** [splitToken]: at the first dot. *)
Fixpoint splitToken (l : chars) : list chars :=
  match l with
  | [] => [[]]
  | c :: l' =>
      if bool_decide (c = ch 46) then [[]; l']
      else match splitToken l' with p :: ps => (c :: p) :: ps | [] => [[c]] end
  end.

Definition Signer_Verify (secret : bytes) (now : Z) (token : string) : result TokenPayload :=
  match splitToken (to_chars token) with
  | [encoded; sig] =>
      if negb (bool_decide (sig = mac_text secret encoded)) then Err "invalid signature"
      else
        match url_decode encoded with
        | None => Err "decode payload"
        | Some raw =>
            match json_unmarshal payload_names [FStr []; FInt 0; FStr []] (of_codes raw) with
            | None => Err "unmarshal payload"
            | Some vals =>
                match payload_of vals with
                | None => Err "unmarshal payload"
                | Some p => if tp_Exp p <? now / sec then Err "token expired" else Ok p
                end
            end
        end
  | _ => Err "invalid token format"
  end.

(** The client's address must lie in the network the token is bound to, if it is bound. *)
Definition TokenPayload_MatchesIP (p : TokenPayload) (ip : string) : result bool :=
  prefix_matches (tp_IPPrefix p) ip.

Definition Signer_VerifyWithIP (secret : bytes) (now : Z) (token clientIP : string) : result TokenPayload :=
  let! p := Signer_Verify secret now token in
  let! ok := TokenPayload_MatchesIP p clientIP in
  if ok then Ok p else Err "client ip does not match token ip_prefix".

(** ** Sessions *)
Record JWTClaims := mkJWTClaims {
  jc_UserID : string; jc_TenantID : string; jc_Email : string; jc_ExpiresAt : Z; jc_IssuedAt : Z
}.
Record JWTSession := mkJWTSession { js_secret : bytes; js_expirySeconds : Z }.

Definition claim_names : list chars := to_chars <$> ["user_id"; "tenant_id"; "email"; "exp"; "iat"].
Definition header_names : list chars := to_chars <$> ["alg"; "typ"].

Definition header_json : chars :=
  json_object [(to_chars "alg", FStr (to_chars "HS256")); (to_chars "typ", FStr (to_chars "JWT"))].
(** [json.Marshal(claims)]; an empty [TenantID] is omitted. *)
Definition claims_json (c : JWTClaims) : chars :=
  json_object ([(to_chars "user_id", FStr (to_chars (jc_UserID c)))] ++
    (if String.eqb (jc_TenantID c) "" then [] else [(to_chars "tenant_id", FStr (to_chars (jc_TenantID c)))]) ++
    [(to_chars "email", FStr (to_chars (jc_Email c))); (to_chars "exp", FInt (jc_ExpiresAt c));
     (to_chars "iat", FInt (jc_IssuedAt c))]).

Definition claims_of (vals : list fieldVal) : option JWTClaims :=
  match vals with
  | [FStr u; FStr t; FStr e; FInt x; FInt i] => Some (mkJWTClaims (of_chars u) (of_chars t) (of_chars e) x i)
  | _ => None
  end.

Definition JWTSession_Sign (j : JWTSession) (now : Z) (userID tenantID email : string) : result (string * Z) :=
  let nowSec := now / sec in
  let exp := i64 (nowSec + js_expirySeconds j) in
  let claims := mkJWTClaims userID tenantID email exp nowSec in
  let signingInput := url_encode (code_list header_json) ++ ch 46 :: url_encode (code_list (claims_json claims)) in
  Ok (of_chars (signingInput ++ ch 46 :: mac_text (js_secret j) signingInput), exp).

Definition JWTSession_Verify (j : JWTSession) (now : Z) (token : string) : result JWTClaims :=
  match split_on (ch 46) (to_chars token) with
  | [h; p; sig] =>
      match url_decode h with
      | None => Err "decode header"
      | Some rawHeader =>
          match json_unmarshal header_names [FStr []; FStr []] (of_codes rawHeader) with
          | None => Err "unmarshal header"
          | Some hv =>
              if negb (bool_decide (hv = [FStr (to_chars "HS256"); FStr (to_chars "JWT")])) then Err "invalid token header"
              else
                let signingInput := h ++ ch 46 :: p in
                if negb (bool_decide (sig = mac_text (js_secret j) signingInput)) then Err "invalid signature"
                else
                  match url_decode p with
                  | None => Err "decode payload"
                  | Some raw =>
                      match json_unmarshal claim_names [FStr []; FStr []; FStr []; FInt 0; FInt 0] (of_codes raw) with
                      | None => Err "unmarshal claims"
                      | Some vals =>
                          match claims_of vals with
                          | None => Err "unmarshal claims"
                          | Some c => if jc_ExpiresAt c <? now / sec then Err "token expired" else Ok c
                          end
                      end
                  end
          end
      end
  | _ => Err "invalid token format"
  end.

(** ** base64url is invertible *)
Definition is_byte (z : Z) : Prop := 0 ≤ z < 256.

Lemma url_val_char v : 0 ≤ v < 64 → url_val (url_char v) = Some v.
Proof.
  intros Hv. assert (Hall : Forall (λ n, url_val (url_char (Z.of_nat n)) = Some (Z.of_nat n)) (seq 0 64))
    by (apply (bool_decide_unpack _); vm_compute; exact I).
  rewrite Forall_forall in Hall. specialize (Hall (Z.to_nat v)).
  rewrite Z2Nat.id in Hall by lia. apply Hall, elem_of_seq. lia.
Qed.

Lemma url_char_plain v : 0 ≤ v < 64 → url_char v ≠ ch 10 ∧ url_char v ≠ ch 13 ∧ url_char v ≠ ch 46.
Proof. intros Hv. pose proof (url_val_char v Hv) as E. split_and!; intros E'; rewrite E' in E; discriminate E. Qed.

Lemma url_decode_clean_encode b : Forall is_byte b → url_decode_clean (url_encode b) = Some b.
Proof.
  revert b. fix IH 1. intros b Hb. destruct b as [|x [|y [|z rest]]]; [done|..].
  all: repeat match goal with H : Forall _ (_ :: _) |- _ => apply Forall_cons in H as [? H] end; unfold is_byte in *.
  - cbn [url_encode url_decode_clean].
    rewrite !url_val_char by (Z.to_euclidean_division_equations; lia).
    do 2 f_equal; Z.to_euclidean_division_equations; lia.
  - cbn [url_encode url_decode_clean].
    rewrite !url_val_char by (Z.to_euclidean_division_equations; lia).
    do 2 f_equal; [|f_equal]; Z.to_euclidean_division_equations; lia.
  - cbn [url_encode url_decode_clean].
    rewrite !url_val_char by (Z.to_euclidean_division_equations; lia). rewrite IH by done.
    do 2 f_equal; [|do 2 f_equal; [|f_equal]]; Z.to_euclidean_division_equations; lia.
Qed.

Definition plain_char (c : ascii) : Prop := c ≠ ch 10 ∧ c ≠ ch 13 ∧ c ≠ ch 46.

Lemma url_encode_plain b : Forall is_byte b → Forall plain_char (url_encode b).
Proof.
  revert b. fix IH 1. intros b Hb. destruct b as [|x [|y [|z rest]]]; [constructor|..].
  all: repeat match goal with H : Forall _ (_ :: _) |- _ => apply Forall_cons in H as [? H] end; unfold is_byte in *.
  all: cbn [url_encode]; repeat (apply Forall_cons; split; [apply url_char_plain; Z.to_euclidean_division_equations; lia|]);
    first [apply Forall_nil_2|by apply IH].
Qed.

Lemma filter_plain l : Forall plain_char l → filter (λ c, c ≠ ch 10 ∧ c ≠ ch 13) l = l.
Proof.
  induction 1 as [|c l (H1 & H2 & _) Hl IH]; [done|]. by rewrite filter_cons_True, IH.
Qed.

Lemma url_decode_encode b : Forall is_byte b → url_decode (url_encode b) = Some b.
Proof.
  intros Hb. unfold url_decode. rewrite filter_plain by (by apply url_encode_plain).
  by apply url_decode_clean_encode.
Qed.

Lemma plain_no_dot l : Forall plain_char l → ch 46 ∉ l.
Proof. intros Hl Hin. rewrite Forall_forall in Hl. by apply Hl in Hin as (_ & _ & ?). Qed.

Lemma code_is_byte c : is_byte (code c).
Proof.
  unfold is_byte, code. pose proof (N_ascii_bounded c). split; [lia|].
  change 256 with (Z.of_N 256). apply N2Z.inj_lt. done.
Qed.
Lemma code_list_bytes l : Forall is_byte (code_list l).
Proof. apply Forall_fmap, Forall_true. intros c. apply code_is_byte. Qed.

Lemma of_codes_list l : of_codes (code_list l) = l.
Proof.
  unfold of_codes, code_list. rewrite <- list_fmap_compose. rewrite <- (list_fmap_id l) at 2.
  apply list_fmap_ext. intros i c _. unfold compose, ch, code. rewrite N2Z.id. apply ascii_N_embedding.
Qed.

Lemma mac_plain secret t : Forall plain_char (mac_text secret t).
Proof.
  apply url_encode_plain, Forall_fmap, Forall_true. intros b. unfold is_byte, compose. apply byte.unsigned_range.
Qed.

Lemma splitToken_app a b : ch 46 ∉ a → splitToken (a ++ ch 46 :: b) = [a; b].
Proof.
  induction a as [|c a IH]; intros Ha; cbn [splitToken app]; [by rewrite bool_decide_eq_true_2|].
  rewrite bool_decide_eq_false_2 by set_solver. by rewrite IH by set_solver.
Qed.

Lemma splitToken_parts l a b : splitToken l = [a; b] → l = a ++ ch 46 :: b.
Proof.
  revert a b. induction l as [|c l IH]; intros a b; simpl; [done|].
  case_bool_decide as Hc; [by intros [= <- <-]; subst|].
  destruct (splitToken l) as [|p ps] eqn:E; [done|]. intros [= <- ->]. by rewrite (IH p b).
Qed.

(** *** Decoding a payload that was encoded *)
Definition text_ok (s : string) : Prop := utf8 (to_chars s).

Lemma ascii_utf8 l : Forall (λ c, is_rune [c] = true) l → utf8 l.
Proof.
  induction 1 as [|c l Hc Hl IH]; [constructor|]. by apply (utf8_rune [c] l).
Qed.

Ltac ascii_name := apply ascii_utf8; repeat (apply Forall_cons; split; [reflexivity|]); apply Forall_nil_2.

Lemma unmarshal_payload p :
  text_ok (tp_Key p) → text_ok (tp_IPPrefix p) → is_i64 (tp_Exp p) →
  json_unmarshal payload_names [FStr []; FInt 0; FStr []] (payload_json p)
    = Some [FStr (to_chars (tp_Key p)); FInt (tp_Exp p); FStr (to_chars (tp_IPPrefix p))].
Proof.
  intros Hk Hi He. unfold json_unmarshal, payload_json.
  destruct (String.eqb_spec (tp_IPPrefix p) "") as [E|E].
  - rewrite json_parse_object; [|done|].
    + cbn -[format_int parse_int to_chars]. rewrite parse_int_format by done. cbn -[to_chars]. by rewrite E.
    + repeat (apply Forall_cons; split; [split; [ascii_name|done]|]). apply Forall_nil_2.
  - rewrite json_parse_object; [|done|].
    + cbn -[format_int parse_int to_chars]. rewrite parse_int_format by done. done.
    + repeat (apply Forall_cons; split; [split; [ascii_name|done]|]). apply Forall_nil_2.
Qed.

Lemma unmarshal_claims c :
  text_ok (jc_UserID c) → text_ok (jc_TenantID c) → text_ok (jc_Email c) →
  is_i64 (jc_ExpiresAt c) → is_i64 (jc_IssuedAt c) →
  json_unmarshal claim_names [FStr []; FStr []; FStr []; FInt 0; FInt 0] (claims_json c)
    = Some [FStr (to_chars (jc_UserID c)); FStr (to_chars (jc_TenantID c)); FStr (to_chars (jc_Email c));
            FInt (jc_ExpiresAt c); FInt (jc_IssuedAt c)].
Proof.
  intros Hu Ht Hm He Hi. unfold json_unmarshal, claims_json.
  destruct (String.eqb_spec (jc_TenantID c) "") as [E|E].
  - rewrite json_parse_object; [|done|].
    + cbn -[format_int parse_int to_chars]. rewrite parse_int_format by done.
      cbn -[format_int parse_int to_chars]. rewrite parse_int_format by done. cbn -[to_chars]. by rewrite E.
    + repeat (apply Forall_cons; split; [split; [ascii_name|done]|]). apply Forall_nil_2.
  - rewrite json_parse_object; [|done|].
    + cbn -[format_int parse_int to_chars]. rewrite parse_int_format by done.
      cbn -[format_int parse_int to_chars]. by rewrite parse_int_format by done.
    + repeat (apply Forall_cons; split; [split; [ascii_name|done]|]). apply Forall_nil_2.
Qed.

(** The payload with the default expiry of five minutes. *)
Definition stamped (now : Z) (p : TokenPayload) : TokenPayload :=
  if tp_Exp p =? 0 then mkTokenPayload (tp_Key p) ((now + 300 * sec) / sec) (tp_IPPrefix p) else p.

Lemma sign_verifies secret now1 now2 p token :
  text_ok (tp_Key p) → text_ok (tp_IPPrefix p) → is_i64 (tp_Exp (stamped now1 p)) →
  Signer_Sign secret now1 p = Ok token →
  Signer_Verify secret now2 token =
    if tp_Exp (stamped now1 p) <? now2 / sec then Err "token expired" else Ok (stamped now1 p).
Proof.
  intros Hk Hi He. unfold Signer_Sign. fold (stamped now1 p). cbv zeta. set (t := of_chars _).
  intros Ht. assert (token = t) as -> by congruence. unfold Signer_Verify, t. clear Ht t.
  rewrite to_of_chars, splitToken_app by (by apply plain_no_dot, url_encode_plain, code_list_bytes).
  rewrite bool_decide_eq_true_2 by done. cbn [negb].
  rewrite url_decode_encode by apply code_list_bytes. rewrite of_codes_list.
  assert (Hk' : tp_Key (stamped now1 p) = tp_Key p) by (unfold stamped; by destruct (_ =? 0)).
  assert (Hi' : tp_IPPrefix (stamped now1 p) = tp_IPPrefix p) by (unfold stamped; by destruct (_ =? 0)).
  rewrite unmarshal_payload by (rewrite ?Hk', ?Hi'; done). cbn [payload_of]. rewrite !of_to_chars.
  by destruct (stamped now1 p).
Qed.

Lemma verify_carries_mac secret now token p :
  Signer_Verify secret now token = Ok p →
  ∃ encoded raw, to_chars token = encoded ++ ch 46 :: mac_text secret encoded ∧
    url_decode encoded = Some raw ∧
    json_unmarshal payload_names [FStr []; FInt 0; FStr []] (of_codes raw)
      = Some [FStr (to_chars (tp_Key p)); FInt (tp_Exp p); FStr (to_chars (tp_IPPrefix p))] ∧
    now / sec ≤ tp_Exp p.
Proof.
  unfold Signer_Verify. destruct (splitToken (to_chars token)) as [|encoded [|sig [|]]] eqn:Es; try done.
  apply splitToken_parts in Es. case_bool_decide as Hm; [|done]. cbn [negb]. subst sig.
  destruct (url_decode encoded) as [raw|] eqn:Eu; [|done].
  destruct (json_unmarshal _ _ _) as [vals|] eqn:Ej; [|done].
  destruct (payload_of vals) as [q|] eqn:Ep; [|done].
  destruct (Z.ltb_spec (tp_Exp q) (now / sec)) as [?|Hexp]; [done|]. intros [= <-].
  exists encoded, raw. split_and!; [done|done| |done].
  unfold payload_of in Ep. repeat case_match; simplify_eq/=. by rewrite !to_of_chars.
Qed.

(** ** Properties *)

(** A dispatch token is accepted until its expiry and gives back exactly
    the signed payload (with the default expiry of five minutes where none was set), for
    every secret and every key and prefix of valid UTF-8; afterwards it is refused as
    expired.  Conversely whatever token is accepted is a payload text with the HMAC of that
    very text under the secret, which decodes to the returned payload and has not expired. *)
Theorem token_roundtrip secret now1 now2 p token :
  text_ok (tp_Key p) → text_ok (tp_IPPrefix p) → is_i64 (tp_Exp (stamped now1 p)) →
  Signer_Sign secret now1 p = Ok token →
  (now2 / sec ≤ tp_Exp (stamped now1 p) → Signer_Verify secret now2 token = Ok (stamped now1 p)) ∧
  (tp_Exp (stamped now1 p) < now2 / sec → Signer_Verify secret now2 token = Err "token expired") ∧
  (∀ any q, Signer_Verify secret now2 any = Ok q →
     ∃ encoded raw, to_chars any = encoded ++ ch 46 :: mac_text secret encoded ∧
       url_decode encoded = Some raw ∧
       json_unmarshal payload_names [FStr []; FInt 0; FStr []] (of_codes raw)
         = Some [FStr (to_chars (tp_Key q)); FInt (tp_Exp q); FStr (to_chars (tp_IPPrefix q))] ∧
       now2 / sec ≤ tp_Exp q).
Proof.
  intros Hk Hi He Hs. pose proof (sign_verifies secret now1 now2 p token Hk Hi He Hs) as Hv.
  split; [|split]; [intros Hle|intros Hlt|intros any q; apply verify_carries_mac]; rewrite Hv.
  - replace (_ <? _) with false by (symmetry; apply Z.ltb_ge; lia). done.
  - replace (_ <? _) with true by (symmetry; apply Z.ltb_lt; lia). done.
Qed.

(** A session token is accepted until its expiry and gives back the user,
    the tenant and the e-mail address it was issued for. *)
Theorem jwt_roundtrip j now1 now2 user tenant email token exp :
  text_ok user → text_ok tenant → text_ok email → is_i64 (now1 / sec) →
  JWTSession_Sign j now1 user tenant email = Ok (token, exp) →
  JWTSession_Verify j now2 token =
    if exp <? now2 / sec then Err "token expired" else Ok (mkJWTClaims user tenant email exp (now1 / sec)).
Proof.
  intros Hu Ht Hm Hn. unfold JWTSession_Sign. cbv zeta. set (claims := mkJWTClaims _ _ _ _ _).
  set (t := of_chars _). intros Hs.
  assert (token = t ∧ exp = i64 (now1 / sec + js_expirySeconds j)) as [-> ->] by (split; congruence).
  unfold JWTSession_Verify, t. clear Hs t.
  set (h := url_encode (code_list header_json)). set (p := url_encode (code_list (claims_json claims))).
  assert (Hh : ch 46 ∉ h) by (by apply plain_no_dot, url_encode_plain, code_list_bytes).
  assert (Hp : ch 46 ∉ p) by (by apply plain_no_dot, url_encode_plain, code_list_bytes).
  rewrite to_of_chars, <- app_assoc. cbn [app]. rewrite split_on_app_no_sep by done.
  rewrite split_on_app_no_sep, split_on_no_occ by (done || apply plain_no_dot, mac_plain).
  unfold h at 1. rewrite url_decode_encode by apply code_list_bytes. rewrite of_codes_list.
  replace (json_unmarshal header_names [FStr []; FStr []] header_json)
    with (Some [FStr (to_chars "HS256"); FStr (to_chars "JWT")]) by (vm_compute; reflexivity).
  rewrite (bool_decide_eq_true_2 (_ = [FStr _; FStr _])) by done. cbn [negb].
  rewrite bool_decide_eq_true_2 by done. cbn [negb].
  unfold p at 1. rewrite url_decode_encode by apply code_list_bytes. rewrite of_codes_list.
  rewrite unmarshal_claims by (done || apply i64_range). cbn [claims_of]. rewrite !of_to_chars. done.
Qed.

(** ** The signer of the scheduler *)

(** [auth.Signer] at the time of the call. *)
Record tokenSigner := mkTokenSigner { tsg_secret : bytes; tsg_now : Z }.
#[export] Instance auth_signer : TokenSigner tokenSigner := {
  sign_token s p := Signer_Sign (tsg_secret s) (tsg_now s) (mkTokenPayload p.1.1 p.1.2 p.2);
  compute_ip_prefix := ComputeIPPrefix
}.

Lemma addr_char_rune c : addr_char c → is_rune [c] = true.
Proof. unfold addr_char, is_hex. intros [[d Hd]|Hc]; [|by destruct Hc as [->|[->| ->]]]. revert Hd. by destruct c as [[] [] [] [] [] [] [] []]. Qed.

Lemma computed_prefix_text ip : text_ok (ComputeIPPrefix ip).
Proof. apply ascii_utf8. eapply Forall_impl; [apply computed_prefix_chars|]. apply addr_char_rune. Qed.

Section dispatch_tokens.
Context {CI : Type} `{ContentIndexLookup CI}.

(** The prefix a request's token is bound to. *)
Definition bound_prefix (req : DispatchRequest) : string :=
  if String.eqb (cl_IP (dr_Client req)) "" then "" else ComputeIPPrefix (cl_IP (dr_Client req)).

Lemma resolve_token (s : Scheduler CI tokenSigner) t db st req resp st' :
  Scheduler_Resolve s t db st req = (Ok resp, st') →
  resp_Token resp = no_token ∨
  Signer_Sign (tsg_secret (sc_signer s)) (tsg_now (sc_signer s))
    (mkTokenPayload (res_Key (dr_Resource req)) (tok_Exp (resp_Token resp)) (bound_prefix req))
    = Ok (tok_Value (resp_Token resp)).
Proof.
  unfold Scheduler_Resolve. destruct (NodeCache_GetActiveNodes _ _ _ _) as [[nodes| |] nc]; [|done..].
  unfold Scheduler_NoOriginFallback.
  destruct (length _ =? 0)%nat; [destruct (cfg_DegradeToOrigin _); intros [= <- _]; by left|].
  destruct (length _ =? 0)%nat; [destruct (cfg_DegradeToOrigin _); intros [= <- _]; by left|].
  destruct (sign_token _ _) as [v| |] eqn:Es; [|done..]. intros Hr. right.
  apply (f_equal fst) in Hr. cbn [fst] in Hr.
  assert (Hresp : resp_Token resp = mkDispatchToken "hmac" v (expiry (t_exp t) (cfg_DefaultTTLMs (sc_cfg s)))).
  { by injection Hr as <-. }
  rewrite Hresp. cbn [tok_Exp tok_Value]. exact Es.
Qed.

Lemma resolve_token_verifies (s : Scheduler CI tokenSigner) t db st req resp st' now :
  Scheduler_Resolve s t db st req = (Ok resp, st') → resp_Token resp ≠ no_token →
  text_ok (res_Key (dr_Resource req)) →
  is_i64 (tok_Exp (resp_Token resp)) → tok_Exp (resp_Token resp) ≠ 0 →
  now / sec ≤ tok_Exp (resp_Token resp) →
  Signer_Verify (tsg_secret (sc_signer s)) now (tok_Value (resp_Token resp)) =
    Ok (mkTokenPayload (res_Key (dr_Resource req)) (tok_Exp (resp_Token resp)) (bound_prefix req)).
Proof.
  intros Hr Hne Hk He H0 Hle. destruct (resolve_token _ _ _ _ _ _ _ Hr) as [?|Hs]; [done|].
  assert (Hp : text_ok (bound_prefix req)).
  { unfold bound_prefix. case_match; [constructor|apply computed_prefix_text]. }
  set (p := mkTokenPayload _ _ _) in *.
  assert (Hst : stamped (tsg_now (sc_signer s)) p = p).
  { unfold stamped. by rewrite (proj2 (Z.eqb_neq (tp_Exp p) 0)) by exact H0. }
  rewrite (sign_verifies (tsg_secret (sc_signer s)) (tsg_now (sc_signer s)) now p (tok_Value (resp_Token resp)) Hk Hp); [|by rewrite Hst|exact Hs].
  rewrite Hst. replace (tp_Exp p <? now / sec) with false; [done|]. symmetry. apply Z.ltb_ge. exact Hle.
Qed.

Lemma bound_prefix_matches req ip' :
  prefix_matches (bound_prefix req) ip' =
    match ParseIP (cl_IP (dr_Client req)), ParseIP ip' with
    | None, _ => Ok true
    | Some a, Some b => Ok (same_network a b)
    | Some a, None => Err "invalid client ip"
    end.
Proof.
  unfold bound_prefix. destruct (String.eqb_spec (cl_IP (dr_Client req)) "") as [->|Hne]; [done|].
  destruct (ParseIP (cl_IP (dr_Client req))) as [a|] eqn:Ha.
  - destruct (ParseIP ip') as [b|] eqn:Hb; [by apply computed_prefix_matches|].
    pose proof (computed_prefix_matches _ _ _ _ Ha Ha) as Hm. unfold prefix_matches in *.
    destruct (String.eqb_spec (ComputeIPPrefix (cl_IP (dr_Client req))) "") as [E|E].
    + exfalso. pose proof Ha as Ha'. unfold ComputeIPPrefix in E. rewrite Ha in E.
      destruct (To4 a); by apply IPNet_String_nonempty in E.
    + destruct (ParseCIDR _); [by rewrite Hb|done].
  - unfold prefix_matches, ComputeIPPrefix. by rewrite Ha.
Qed.

(** The edge's verdict on the token of a dispatch answer. *)
Lemma dispatch_token_verdict (s : Scheduler CI tokenSigner) t db st req resp st' now ip' :
  Scheduler_Resolve s t db st req = (Ok resp, st') → resp_Token resp ≠ no_token →
  text_ok (res_Key (dr_Resource req)) →
  is_i64 (tok_Exp (resp_Token resp)) → tok_Exp (resp_Token resp) ≠ 0 →
  now / sec ≤ tok_Exp (resp_Token resp) →
  let payload := mkTokenPayload (res_Key (dr_Resource req)) (tok_Exp (resp_Token resp)) (bound_prefix req) in
  Signer_VerifyWithIP (tsg_secret (sc_signer s)) now (tok_Value (resp_Token resp)) ip' =
    match ParseIP (cl_IP (dr_Client req)), ParseIP ip' with
    | None, _ => Ok payload
    | Some a, Some b => if same_network a b then Ok payload
                        else Err "client ip does not match token ip_prefix"
    | Some a, None => Err "invalid client ip"
    end.
Proof.
  intros Hr Hne Hk He H0 Hle payload. unfold Signer_VerifyWithIP.
  rewrite (resolve_token_verifies _ _ _ _ _ _ _ _ Hr Hne Hk He H0 Hle). cbn [result_bind].
  unfold TokenPayload_MatchesIP. cbn [tp_IPPrefix]. rewrite bound_prefix_matches.
  by destruct (ParseIP _), (ParseIP ip').
Qed.

End dispatch_tokens.

(** ** Concrete tokens *)
Definition demo_secret : bytes := bytes_of_string "secret".
Definition demo_payload : TokenPayload := mkTokenPayload "videos/a<b>.mp4" 2000 "203.0.113.0/24".
Definition demo_token : string :=
  match Signer_Sign demo_secret 0 demo_payload with Ok t => t | _ => "" end.

Example tampered_token_refused :
  Signer_Verify demo_secret (1000 * sec) (String.append demo_token "x") = Err "invalid signature" ∧
  Signer_Verify (bytes_of_string "other") (1000 * sec) demo_token = Err "invalid signature" ∧
  Signer_Verify demo_secret (1000 * sec) "abc" = Err "invalid token format".
Proof. vm_compute. done. Qed.

Lemma ascii_text s : forallb (λ c, is_rune [c]) (to_chars s) = true → text_ok s.
Proof. intros Hs. apply ascii_utf8, Forall_forall. intros c Hc. rewrite forallb_forall in Hs. by apply Hs, list_elem_of_In. Qed.

Lemma token_roundtrip_witness : Signer_Verify demo_secret (1000 * sec) demo_token = Ok demo_payload.
Proof.
  destruct (token_roundtrip demo_secret 0 (1000 * sec) demo_payload demo_token) as (Hv & _).
  - apply ascii_text. reflexivity.
  - apply ascii_text. reflexivity.
  - vm_compute. split; [discriminate|reflexivity].
  - vm_compute. reflexivity.
  - apply Hv. vm_compute. discriminate.
Defined.

Definition demo_session : JWTSession := mkJWTSession demo_secret 3600.
Definition demo_jwt : string * Z :=
  match JWTSession_Sign demo_session (1000 * sec) "u1" "" "a@example.org" with Ok r => r | _ => ("", 0) end.

Lemma jwt_roundtrip_witness :
  JWTSession_Verify demo_session (4600 * sec) demo_jwt.1 = Ok (mkJWTClaims "u1" "" "a@example.org" 4600 1000).
Proof.
  rewrite (jwt_roundtrip demo_session (1000 * sec) (4600 * sec) "u1" "" "a@example.org" demo_jwt.1 4600).
  - reflexivity.
  - apply ascii_text. reflexivity.
  - apply ascii_text. reflexivity.
  - apply ascii_text. reflexivity.
  - vm_compute. split; [discriminate|reflexivity].
  - vm_compute. reflexivity.
Defined.

Definition demo_tok_sched : Scheduler ContentIndex tokenSigner :=
  NewScheduler (mkTokenSigner demo_secret 0) demo_cfg.
Definition demo_tok_req : DispatchRequest :=
  mkDispatchRequest (mkClientInfo "203.0.113.9" "eu" "") (mkResourceInfo "" "a/b" "") false.
Definition demo_tok_run : result DispatchResponse * SchedState :=
  Scheduler_Resolve demo_tok_sched demo_clock (Ok demo_nodes) demo_state demo_tok_req.
Definition demo_tok_answer : DispatchResponse :=
  match demo_tok_run.1 with Ok r => r | _ => mkDispatchResponse "" 0 no_token [] end.

