(* ===== verification/Gateway.v ===== *)
(** * The gateway ([internal/gateway/resolver.go], [gateway.go])

    A request for an object is dispatched by the control plane, and forwarded to the best
    node: over HTTP to a node with a public endpoint, through its tunnel to another one.
    The resolver caches per node the endpoint and the token of the last dispatch.  The
    answers of the control plane, of the node and of the tunnel are arguments, which the
    theorems instantiate with the handlers of the control plane ([Api]) and of the edge
    ([EdgeServer]).

    The theorems: what the edge decides about a forwarded request: it is served exactly if
    the address the gateway had it dispatched for and the address of the gateway's own peer
    lie in one network; no request through a tunnel carries a token of the gateway. *)

From S2P Require Import Prelude GoStrings NetAddr GoHash GoFloat StreamKeys Models NodeCache Scheduler ContentIndex.
From S2P Require Import NodeLifecycle Policy Manifest Fetcher Deduper Prefetch EdgeCache Api GoJson Tokens EdgeServer.
From Stdlib Require Import Ascii.

(** ** The client of the control plane *)
Record nodeInfoCache := mkNodeInfoCache {
  nic_endpoint : string; nic_edgeToken : string; nic_isPublic : bool; nic_expireAt : Z
}.

Record ControlPlaneClient := mkControlPlaneClient { cc_cache : gmap string nodeInfoCache }.
Definition NewControlPlaneClient : ControlPlaneClient := mkControlPlaneClient ∅.

(** The messages of the control plane's interface the gateway reads. *)
Record NodeInfo := mkNodeInfo { ni_NodeID : string; ni_Endpoints : list Endpoint; ni_InboundReachable : bool }.
Record CandidateInfo := mkCandidateInfo { ci_ID : string; ci_Endpoint : string; ci_Weight : Z }.
Record gwDispatchResponse := mkGwDispatchResponse { gd_Candidates : list CandidateInfo; gd_Token : string }.

(** An exchange with the control plane: the request cannot be made, fails, or is answered
    with a status and a body, [None] when the body does not decode. *)
Inductive httpResult (A : Type) :=
| RequestInvalid
| RequestFails
| Answered (status : Z) (body : option A).
Arguments RequestInvalid {A}.
Arguments RequestFails {A}.
Arguments Answered {A} status body.

Definition resolver_ttl : Z := 30 * sec.

Definition GetNodeEndpoint (now1 now2 : Z) (fetch : string → httpResult NodeInfo) (c : ControlPlaneClient)
    (nodeID : string) : result (string * bool) * ControlPlaneClient :=
  let fetch_node :=
    match fetch nodeID with
    | RequestInvalid => (Err "create request", c)
    | RequestFails => (Err "fetch node", c)
    | Answered status body =>
        if negb (status =? 200) then (Err "node not found", c)
        else
          match body with
          | None => (Err "decode node", c)
          | Some info =>
              let isPublic := ni_InboundReachable info in
              let endpoint :=
                match isPublic, ni_Endpoints info with
                | true, ep :: _ => of_chars (to_chars (ep_Scheme ep) ++ to_chars "://" ++ to_chars (ep_Host ep)
                                     ++ to_chars ":" ++ format_int 10 (ep_Port ep))
                | _, _ => ""
                end in
              (Ok (endpoint, isPublic),
               mkControlPlaneClient (<[nodeID := mkNodeInfoCache endpoint "" isPublic (now2 + resolver_ttl)]> (cc_cache c)))
          end
    end in
  match cc_cache c !! nodeID with
  | Some info => if now1 <? nic_expireAt info then (Ok (nic_endpoint info, nic_isPublic info), c) else fetch_node
  | None => fetch_node
  end.

Definition GetEdgeToken (now : Z) (c : ControlPlaneClient) (nodeID : string) : option string :=
  match cc_cache c !! nodeID with
  | Some info => if (now <? nic_expireAt info) && negb (String.eqb (nic_edgeToken info) "")
                 then Some (nic_edgeToken info) else None
  | None => None
  end.

Definition GetBestNode (now : Z) (dispatch : string → string → httpResult gwDispatchResponse)
    (c : ControlPlaneClient) (resourceKey clientIP : string) : result string * ControlPlaneClient :=
  match dispatch resourceKey clientIP with
  | RequestInvalid => (Err "create request", c)
  | RequestFails => (Err "dispatch request", c)
  | Answered status body =>
      if negb (status =? 200) then (Err "dispatch failed", c)
      else
        match body with
        | None => (Err "decode response", c)
        | Some resp =>
            match gd_Candidates resp with
            | [] => (Err "no candidates available", c)
            | candidate :: _ =>
                (Ok (ci_ID candidate),
                 if String.eqb (ci_Endpoint candidate) "" then c
                 else mkControlPlaneClient (<[ci_ID candidate :=
                        mkNodeInfoCache (ci_Endpoint candidate) (gd_Token resp) true (now + resolver_ttl)]> (cc_cache c)))
            end
        end
  end.

Definition InvalidateCache (c : ControlPlaneClient) (nodeID : string) : ControlPlaneClient :=
  mkControlPlaneClient (delete nodeID (cc_cache c)).

(** ** Requests *)

(** Headers by canonical name; the query as [url.ParseQuery] reads it, and whether it
    reported an error. *)
Record gwRequest := mkGwRequest {
  gr_Method : string;
  gr_Path : string;
  gr_Query : gmap string (list string);
  gr_queryBad : bool;
  gr_Headers : gmap string (list string);
  gr_Host : string;
  gr_RemoteAddr : string;
  gr_TLS : bool;
  gr_ContentLength : Z
}.

Definition first_value (h : gmap string (list string)) (name : string) : string :=
  match h !! name with Some (v :: _) => v | _ => "" end.

(** The gateway's [extractClientIP]: the first address of the forwarding header. *)
Definition gw_extractClientIP (r : gwRequest) : string :=
  let xff := first_value (gr_Headers r) "X-Forwarded-For" in
  let xri := first_value (gr_Headers r) "X-Real-Ip" in
  if negb (String.eqb xff "") then
    match split_on (ascii_of_nat 44) (to_chars xff) with p :: _ => of_chars (trim_space p) | [] => "" end
  else if negb (String.eqb xri "") then xri
  else match SplitHost (gr_RemoteAddr r) with Some host => host | None => gr_RemoteAddr r end.

Definition sanitizeGatewayKey (key : string) : string :=
  of_chars (join_with slash (clean_segments (to_chars key))).

(** [setTokenQuery]: what the encoded query reads back as. *)
Definition setTokenQuery (q : gmap string (list string)) (bad : bool) (token : string) : gmap string (list string) :=
  <["token" := [token]]> (if bad then ∅ else q).

(** A request to a node. *)
Record outRequest := mkOutRequest {
  ot_Scheme : string;
  ot_Host : string;
  ot_Method : string;
  ot_Path : string;
  ot_Query : gmap string (list string);
  ot_Headers : gmap string (list string);
  ot_ContentLength : Z
}.

Definition delete_headers (names : list string) (h : gmap string (list string)) : gmap string (list string) :=
  foldr delete h names.

(** The names the director deletes; [Header.Del] puts "TE" into its canonical form. *)
Definition director_hop_headers : list string :=
  ["Connection"; "Keep-Alive"; "Proxy-Authenticate"; "Proxy-Authorization"; "Te"; "Trailer"; "Transfer-Encoding"; "Upgrade"].

Definition director (now : Z) (c : ControlPlaneClient) (r : gwRequest) (scheme host path nodeID : string) : outRequest :=
  let h := delete_headers director_hop_headers (gr_Headers r) in
  let h := <["X-Forwarded-For" := [gw_extractClientIP r]]> h in
  let h := <["X-Forwarded-Host" := [gr_Host r]]> h in
  let h := <["X-Forwarded-Proto" := [if gr_TLS r then "https" else "http"]]> h in
  mkOutRequest scheme host (gr_Method r) path
    (match GetEdgeToken now c nodeID with
     | Some tok => setTokenQuery (gr_Query r) (gr_queryBad r) tok
     | None => gr_Query r
     end) h (gr_ContentLength r).

(** What [httputil.ReverseProxy] adds to the director's work: it deletes one more header and
    appends the address of its peer to the forwarding header. *)
Definition reverse_proxy (r : gwRequest) (o : outRequest) : outRequest :=
  let h := delete "Proxy-Connection" (ot_Headers o) in
  let h := match SplitHost (gr_RemoteAddr r) with
           | Some peer => <["X-Forwarded-For" := [String.append (first_value h "X-Forwarded-For") (String.append ", " peer)]]> h
           | None => h
           end in
  mkOutRequest (ot_Scheme o) (ot_Host o) (ot_Method o) (ot_Path o) (ot_Query o) h (ot_ContentLength o).

Definition public_path (key : string) : string :=
  of_chars (path_Join [to_chars "/obj/"; to_chars (sanitizeGatewayKey key)]).

(** The headers of a tunnelled request; the map's keys are canonical, so deleting "TE" has
    no effect. *)
Definition hopByHopHeaders : list string :=
  ["Connection"; "Keep-Alive"; "Proxy-Authenticate"; "Proxy-Authorization"; "TE"; "Trailer"; "Transfer-Encoding"; "Upgrade"].
Definition stripHopByHopHeaders (h : gmap string string) : gmap string string := foldr delete h hopByHopHeaders.

Record HTTPRequestHeader := mkHTTPRequestHeader {
  hq_StreamID : Z; hq_Method : string; hq_Path : string; hq_Headers : gmap string string; hq_BodyLen : Z
}.

Definition tunnel_request (now : Z) (c : ControlPlaneClient) (r : gwRequest) (nodeID key : string) : HTTPRequestHeader :=
  let h := stripHopByHopHeaders (omap head (gr_Headers r)) in
  let h := <["X-Forwarded-For" := gw_extractClientIP r]> h in
  let h := <["X-Forwarded-Host" := gr_Host r]> h in
  let h := match GetEdgeToken now c nodeID with
           | Some tok => <["Authorization" := String.append "Bearer " tok]> h
           | None => h
           end in
  mkHTTPRequestHeader 0 (gr_Method r) (String.append "/obj/" (sanitizeGatewayKey key)) h (gr_ContentLength r).

(** ** The handler *)
Record gatewayIO := mkGatewayIO {
  gi_dispatch_now : Z;
  gi_dispatch : string → string → httpResult gwDispatchResponse;
  gi_cache_now : Z;
  gi_node_now : Z;
  gi_node : string → httpResult NodeInfo;
  gi_token_now : Z
}.

Section gateway.
(** [url.Parse] of an endpoint (scheme and host), the node's answer to a request, and the
    tunnel's. *)
Context (parse_endpoint : string → option (string * string))
        (transport : outRequest → option response)
        (forward : string → HTTPRequestHeader → result response).

(** The answer is relayed without its hop-by-hop headers. *)
Definition relayed (resp : response) : response :=
  mkResponse (rs_status resp) (foldr delete (rs_headers resp) ("Proxy-Connection" :: director_hop_headers)) (rs_body resp).

Definition proxyToPublic (io : gatewayIO) (c : ControlPlaneClient) (r : gwRequest) (endpoint nodeID key : string) : response :=
  match parse_endpoint endpoint with
  | None => http_Error "invalid endpoint" 500
  | Some (scheme, host) =>
      if negb (String.eqb scheme "http") && negb (String.eqb scheme "https") then http_Error "invalid endpoint" 500
      else
        match transport (reverse_proxy r (director (gi_token_now io) c r scheme host (public_path key) nodeID)) with
        | Some resp => relayed resp
        | None => http_Error "proxy error" 502
        end
  end.

Definition proxyToTunnel (io : gatewayIO) (c : ControlPlaneClient) (r : gwRequest) (nodeID key : string) : response :=
  match forward nodeID (tunnel_request (gi_token_now io) c r nodeID key) with
  | Ok resp => mkResponse (rs_status resp)
                 (<["X-Tunnel-Node" := nodeID]> (<["X-Proxy-Mode" := "tunnel"]> (rs_headers resp))) (rs_body resp)
  | _ => http_Error "tunnel proxy error" 502
  end.

Definition gateway_bad_key (key : string) : bool :=
  String.eqb key "" || contains (to_chars "..") (to_chars key)
    || bool_decide (ascii_of_nat 10 ∈ to_chars key) || bool_decide (ascii_of_nat 13 ∈ to_chars key).

(** Where a request goes. *)
Inductive route :=
| RouteReply (resp : response)
| RoutePublic (endpoint nodeID : string)
| RouteTunnel (nodeID : string).

Definition resolve_route (io : gatewayIO) (c : ControlPlaneClient) (r : gwRequest) (key : string) : route * ControlPlaneClient :=
  let '(best, c) := GetBestNode (gi_dispatch_now io) (gi_dispatch io) c key (gw_extractClientIP r) in
  match best with
  | Ok nodeID =>
      let '(ep, c) := GetNodeEndpoint (gi_cache_now io) (gi_node_now io) (gi_node io) c nodeID in
      match ep with
      | Ok (endpoint, isPublic) =>
          (if isPublic && negb (String.eqb endpoint "") then RoutePublic endpoint nodeID else RouteTunnel nodeID, c)
      | _ => (RouteReply (http_Error "node resolution error" 500), c)
      end
  | _ => (RouteReply (http_Error "no available node" 503), c)
  end.

Definition handleObjectRequest (io : gatewayIO) (c : ControlPlaneClient) (r : gwRequest) : response * ControlPlaneClient :=
  let key := object_key "/obj/" (gr_Path r) in
  if gateway_bad_key key then (http_Error "invalid key" 400, c)
  else
    let '(rt, c) := resolve_route io c r key in
    (match rt with
     | RouteReply resp => resp
     | RoutePublic endpoint nodeID => proxyToPublic io c r endpoint nodeID key
     | RouteTunnel nodeID => proxyToTunnel io c r nodeID key
     end, c).
End gateway.

(** ** The control plane behind the gateway *)

(** The answers of the handlers of [Api] as the gateway reads them.  [handleGetNode] writes
    the node with its reachability inside [capabilities]; the gateway looks for it at the
    top level, where it finds nothing. *)
Definition read_dispatch (r : reply) : httpResult gwDispatchResponse :=
  match r with
  | RDispatch resp =>
      Answered 200 (Some (mkGwDispatchResponse
        ((λ cand, mkCandidateInfo (cand_ID cand) (cand_Endpoint cand) (cand_Weight cand)) <$> resp_Candidates resp)
        (tok_Value (resp_Token resp))))
  | RError status _ => Answered status None
  | _ => Answered 200 None
  end.
Definition read_node (r : reply) : httpResult NodeInfo :=
  match r with
  | RNode n => Answered 200 (Some (mkNodeInfo (n_NodeID n) (n_Endpoints n) false))
  | RError status _ => Answered status None
  | _ => Answered 200 None
  end.

(** The body the gateway sends to the dispatch route. *)
Definition dispatch_body (key ip : string) : requestBody DispatchRequest :=
  Body (mkDispatchRequest (mkClientInfo ip "" "") (mkResourceInfo "object" key "") false).

(** The edge's view of a forwarded request: [peer] is the gateway's address. *)
Definition edge_view (peer : string) (o : outRequest) : edgeRequest :=
  let h := first_value (ot_Headers o) in
  mkEdgeRequest (ot_Method o) (ot_Path o) (h "Authorization") (first_value (ot_Query o) "token") (h "Range")
    (h "X-Forwarded-For") (h "X-Real-Ip") peer (ot_ContentLength o) (h "Upgrade") (h "Connection") (h "Content-Type").

(** ** Tokens of tunnelled nodes *)

(** A token is only cached together with a public endpoint. *)
Definition tokens_public (c : ControlPlaneClient) : Prop :=
  map_Forall (λ _ e, nic_edgeToken e ≠ "" → nic_isPublic e = true ∧ nic_endpoint e ≠ "") (cc_cache c).

Inductive resolver_step (c : ControlPlaneClient) : ControlPlaneClient → Prop :=
| rs_best now dispatch key ip : resolver_step c (GetBestNode now dispatch c key ip).2
| rs_endpoint now1 now2 fetch id : resolver_step c (GetNodeEndpoint now1 now2 fetch c id).2
| rs_invalidate id : resolver_step c (InvalidateCache c id).

Lemma GetBestNode_cases now dispatch c key ip :
  (GetBestNode now dispatch c key ip).2 = c ∨
  ∃ id ep tok, ep ≠ "" ∧ (GetBestNode now dispatch c key ip).2 =
    mkControlPlaneClient (<[id := mkNodeInfoCache ep tok true (now + resolver_ttl)]> (cc_cache c)).
Proof.
  unfold GetBestNode. repeat case_match; bool_to_prop; cbn [snd]; try by left. right. eexists _, _, _. split; [|done]. done.
Qed.

Lemma GetNodeEndpoint_cases now1 now2 fetch c id :
  (GetNodeEndpoint now1 now2 fetch c id).2 = c ∨
  ∃ ep pub, (GetNodeEndpoint now1 now2 fetch c id) =
    (Ok (ep, pub), mkControlPlaneClient (<[id := mkNodeInfoCache ep "" pub (now2 + resolver_ttl)]> (cc_cache c))).
Proof.
  unfold GetNodeEndpoint. repeat (case_match; try by left); right; eauto.
Qed.

Lemma resolver_step_tokens c c' : resolver_step c c' → tokens_public c → tokens_public c'.
Proof.
  intros Hs Hc. destruct Hs as [now dispatch key ip|now1 now2 fetch id|id].
  - destruct (GetBestNode_cases now dispatch c key ip) as [->|(id & ep & tok & Hep & ->)]; [done|].
    apply map_Forall_insert_2; [|done]. done.
  - destruct (GetNodeEndpoint_cases now1 now2 fetch c id) as [->|(ep & pub & ->)]; [done|].
    apply map_Forall_insert_2; [|done]. done.
  - by apply map_Forall_delete.
Qed.

Lemma resolver_steps_tokens c c' : rtc resolver_step c c' → tokens_public c → tokens_public c'.
Proof. induction 1; eauto using resolver_step_tokens. Qed.

(** A node that is reached through its tunnel has no token in the cache. *)
Lemma tunnel_route_no_token io c r key id c' :
  tokens_public c → gi_cache_now io ≤ gi_token_now io →
  resolve_route io c r key = (RouteTunnel id, c') → GetEdgeToken (gi_token_now io) c' id = None.
Proof.
  intros Hc Hnow. unfold resolve_route.
  pose proof (resolver_step_tokens _ _ (rs_best c (gi_dispatch_now io) (gi_dispatch io) key (gw_extractClientIP r)) Hc) as Hc1.
  destruct (GetBestNode _ _ c key _) as [best c1]. cbn [snd] in Hc1. destruct best as [nodeID| |]; [|done..].
  pose proof (resolver_step_tokens _ _ (rs_endpoint c1 (gi_cache_now io) (gi_node_now io) (gi_node io) nodeID) Hc1) as Hc2.
  destruct (GetNodeEndpoint_cases (gi_cache_now io) (gi_node_now io) (gi_node io) c1 nodeID) as [Hsame|(ep & pub & He)].
  - destruct (GetNodeEndpoint _ _ _ c1 nodeID) as [[[ep pub]| |] c2] eqn:He; cbn [snd] in *; [|done..]. subst c2.
    destruct (pub && negb (ep =? "")%string) eqn:Hp; intros [= <- <-].
    unfold GetEdgeToken. revert He. unfold GetNodeEndpoint.
    destruct (cc_cache c1 !! nodeID) as [info|] eqn:Hl; [|done].
    destruct (Z.ltb_spec (gi_cache_now io) (nic_expireAt info)).
    + intros [= <- <-]. pose proof (Hc1 _ _ Hl) as Hi. cbn in Hi.
      destruct (String.eqb_spec (nic_edgeToken info) "") as [Ht|Ht]; [by rewrite andb_false_r|].
      destruct (Hi Ht) as [Hpub Hep]. rewrite Hpub, (proj2 (String.eqb_neq _ _) Hep) in Hp. done.
    + intros _. by rewrite (proj2 (Z.ltb_ge _ _)) by lia.
  - rewrite He. destruct (pub && _); intros [= <- <-]. unfold GetEdgeToken. cbn [cc_cache].
    rewrite lookup_insert_eq. cbn. by rewrite andb_false_r.
Qed.

Lemma tunnel_request_authorization io c r key id c' :
  rtc resolver_step NewControlPlaneClient c → gi_cache_now io ≤ gi_token_now io →
  resolve_route io c r key = (RouteTunnel id, c') →
  let q := tunnel_request (gi_token_now io) c' r id key in
  hq_Headers q !! "Authorization" = (gr_Headers r !! "Authorization" ≫= head) ∧
  hq_Path q = String.append "/obj/" (sanitizeGatewayKey key).
Proof.
  intros Hr Hnow Hroute q. subst q. unfold tunnel_request.
  rewrite (tunnel_route_no_token io c r key id c'); [|eapply resolver_steps_tokens; [done|apply map_Forall_empty]|done..].
  cbn [hq_Headers hq_Path]. split; [|done]. rewrite !lookup_insert_ne by done.
  unfold stripHopByHopHeaders, hopByHopHeaders. cbn [foldr]. rewrite !lookup_delete_ne by done. apply lookup_omap.
Qed.

(** A request that goes through a tunnel never carries a token of the dispatch:
    whatever the resolver did before, the tunnelled request has the Authorization header
    the client sent, if any, and its path has no query; a token is only kept for nodes with
    a public endpoint. *)
Theorem tunnel_request_carries_no_token io c r key id c' :
  rtc resolver_step NewControlPlaneClient c → gi_cache_now io ≤ gi_token_now io →
  resolve_route io c r key = (RouteTunnel id, c') →
  let q := tunnel_request (gi_token_now io) c' r id key in
  hq_Headers q !! "Authorization" = (gr_Headers r !! "Authorization" ≫= head) ∧
  hq_Path q = String.append "/obj/" (sanitizeGatewayKey key).
Proof. apply tunnel_request_authorization. Qed.

(** ** From the gateway to the edge *)
Lemma gateway_key_segments key :
  sanitizeGatewayKey key ≠ "" →
  split_on slash (to_chars (sanitizeGatewayKey key)) = clean_segments (to_chars key) ∧
  Forall (λ s, bad_segment s = false) (clean_segments (to_chars key)).
Proof. apply split_sanitized. Qed.

(** A sanitized key is the rest of the path of the public request. *)
Lemma public_path_key key :
  sanitizeGatewayKey key ≠ "" → public_path key = String.append "/obj/" (sanitizeGatewayKey key).
Proof.
  intros Hne. destruct (gateway_key_segments key Hne) as [Hsplit Hgood].
  set (k := to_chars (sanitizeGatewayKey key)) in *.
  assert (Hk : k ≠ []).
  { intros E%(f_equal of_chars). subst k. by rewrite of_to_chars in E. }
  unfold public_path. fold k. rewrite <- (of_to_chars (String.append _ _)), to_chars_app. fold k. f_equal.
  unfold path_Join. rewrite !filter_cons_True, filter_nil by done.
  change (path_Clean (to_chars "/obj/" ++ slash :: k) = to_chars "/obj/" ++ k).
  assert (Hs : split_on slash (to_chars "/obj/" ++ slash :: k) = [[]; to_chars "obj"; []] ++ split_on slash k)
    by (by rewrite split_on_app).
  unfold path_Clean. rewrite (bool_decide_eq_true_2 (head _ = _)) by done.
  rewrite Hs, clean_path_app, Hsplit, clean_path_good by done.
  change (clean_path true [] [[]; to_chars "obj"; []]) with [to_chars "obj"].
  rewrite rev_app_distr, rev_involutive. cbn [rev app].
  assert (Hj : join_with slash (to_chars "obj" :: clean_segments (to_chars key)) = to_chars "obj" ++ slash :: k).
  { subst k. unfold sanitizeGatewayKey. rewrite to_of_chars.
    destruct (clean_segments (to_chars key)) as [|p ps] eqn:E; [|done].
    exfalso. apply Hk. unfold sanitizeGatewayKey. by rewrite to_of_chars, E. }
  by rewrite Hj.
Qed.

Lemma sanitized_no_spaces key : no_spaces (to_chars (sanitizeGatewayKey key)).
Proof.
  unfold sanitizeGatewayKey. rewrite to_of_chars. apply join_no_spaces, Forall_forall.
  intros p [_ Hp]%list_elem_of_filter. apply list_elem_of_fmap in Hp as (q & -> & _). apply trim_space_no_spaces.
Qed.

Lemma edge_object_key key : object_key "/obj/" (String.append "/obj/" (sanitizeGatewayKey key)) = sanitizeGatewayKey key.
Proof.
  unfold object_key. rewrite to_chars_app, trim_prefix_app, trim_space_id by apply sanitized_no_spaces. apply of_to_chars.
Qed.

Lemma trim_one_space l : no_spaces l → trim_space (ascii_of_nat 32 :: l) = l.
Proof.
  intros [H1 H2]. unfold trim_space, trim_left.
  assert (Hl : trim_left_with space_encodings (length (ascii_of_nat 32 :: l)) (ascii_of_nat 32 :: l) = l).
  { cbn [length trim_left_with]. change (match_any space_encodings (ascii_of_nat 32 :: l)) with (Some 1%nat).
    cbn [drop]. by apply trim_left_with_id. }
  rewrite Hl. unfold trim_right. rewrite (trim_left_with_id _ _ _ H2). apply rev_involutive.
Qed.

(** The address the edge reads in the forwarding header. *)
Lemma forwarded_address peer r h :
  er_XForwardedFor r = String.append peer (String.append ", " h) → peer ≠ "" →
  no_spaces (to_chars h) → ascii_of_nat 44 ∉ to_chars h → extractClientIP r = h.
Proof.
  intros Hx Hp Hs Hc. unfold extractClientIP. rewrite Hx.
  assert (Hne : to_chars peer ≠ []).
  { intros E%(f_equal of_chars). by rewrite of_to_chars in E. }
  assert (Hnempty : (String.append peer (String.append ", " h) =? "")%string = false).
  { apply String.eqb_neq. intros E%(f_equal to_chars). rewrite to_chars_app in E. by destruct (to_chars peer). }
  rewrite Hnempty. cbn [negb]. rewrite !to_chars_app.
  change (to_chars ", ") with [ascii_of_nat 44; ascii_of_nat 32]. cbn [app].
  change (to_chars ",") with [ascii_of_nat 44]. rewrite last_index_char.
  2:{ apply not_elem_of_cons. split; [done|exact Hc]. }
  rewrite (proj2 (Nat.ltb_lt _ _)) by (destruct (to_chars peer); [done|cbn; lia]).
  rewrite cons_middle, app_assoc, drop_app_length'; [|rewrite length_app; cbn; lia].
  rewrite trim_one_space by done. apply of_to_chars.
Qed.

Section end_to_end.
Context {CI : Type} `{ContentIndexLookup CI}.
Context (ParseFloat : string → option float64) (format_verbs : chars → Z → chars)
        (xml_Unmarshal : bytes → option mpdRoot) (env_max : Z)
        (parse_endpoint : string → option (string * string)).
Context (s : Scheduler CI tokenSigner) (t : Clock) (db_ok : bool) (st : ApiState) (hr : httpRequest).

(** The control plane answers the gateway's dispatch requests; the edge its requests. *)
Definition dispatch_route (key ip : string) : httpResult gwDispatchResponse :=
  read_dispatch (handleDispatch s t db_ok st hr (dispatch_body key ip)).1.
Definition edge_answer (eio : objectIO) (es : Server) (peer : string) (o : outRequest) : option response :=
  Some (handleObject ParseFloat format_verbs xml_Unmarshal env_max eio es (edge_view peer o)).1.

(** A client's request, without a token of its own, of an object for which the control
    plane names a public node; [key] and [ip] are what the gateway asks for and for whom,
    [h] is the host of the gateway's peer. *)
Record public_run (gio : gatewayIO) (r : gwRequest) (key ip h : string) (resp : DispatchResponse)
    (cand : Candidate) (scheme host : string) : Prop := {
  pu_method : gr_Method r = "GET" ∨ gr_Method r = "HEAD";
  pu_key : object_key "/obj/" (gr_Path r) = key;
  pu_key_ok : gateway_bad_key key = false;
  pu_obj_ok : bad_key (sanitizeGatewayKey key) = false;
  pu_ip : gw_extractClientIP r = ip;
  pu_ip_plain : ip ≠ "" ∧ trimmed ip = ip;
  pu_peer : SplitHost (gr_RemoteAddr r) = Some h;
  pu_peer_plain : no_spaces (to_chars h) ∧ ascii_of_nat 44 ∉ to_chars h;
  pu_no_token : has_prefix (to_chars "Bearer ") (to_chars (first_value (gr_Headers r) "Authorization")) = false;
  pu_dispatch : gi_dispatch gio = dispatch_route;
  pu_answer : (handleDispatch s t db_ok st hr (dispatch_body key ip)).1 = RDispatch resp;
  pu_best : head (resp_Candidates resp) = Some cand;
  pu_public : cand_Endpoint cand ≠ "";
  pu_url : parse_endpoint (cand_Endpoint cand) = Some (scheme, host);
  pu_scheme : scheme = "http" ∨ scheme = "https";
  pu_fresh : gi_cache_now gio < gi_dispatch_now gio + resolver_ttl ∧ gi_token_now gio < gi_dispatch_now gio + resolver_ttl
}.

(** What the gateway sends. *)
Definition public_request (c : ControlPlaneClient) (gio : gatewayIO) (r : gwRequest) (key : string) (cand : Candidate)
    (resp : DispatchResponse) (scheme host : string) : outRequest :=
  let c := mkControlPlaneClient (<[cand_ID cand := mkNodeInfoCache (cand_Endpoint cand) (tok_Value (resp_Token resp))
             true (gi_dispatch_now gio + resolver_ttl)]> (cc_cache c)) in
  reverse_proxy r (director (gi_token_now gio) c r scheme host (public_path key) (cand_ID cand)).

Lemma public_run_route gio c r key ip h resp cand scheme host :
  public_run gio r key ip h resp cand scheme host →
  resolve_route gio c r key =
    (RoutePublic (cand_Endpoint cand) (cand_ID cand),
     mkControlPlaneClient (<[cand_ID cand := mkNodeInfoCache (cand_Endpoint cand) (tok_Value (resp_Token resp))
       true (gi_dispatch_now gio + resolver_ttl)]> (cc_cache c))).
Proof.
  intros []. unfold resolve_route, GetBestNode. rewrite pu_dispatch0. unfold dispatch_route.
  rewrite pu_ip0, pu_answer0. cbn [read_dispatch]. rewrite Z.eqb_refl. cbn [negb gd_Candidates].
  destruct (resp_Candidates resp) as [|cand' rest]; [done|]. injection pu_best0 as ->. cbn [fmap list_fmap ci_Endpoint ci_ID gd_Token].
  rewrite (proj2 (String.eqb_neq _ _) pu_public0). unfold GetNodeEndpoint. cbn [cc_cache].
  rewrite lookup_insert_eq. cbn [nic_expireAt nic_endpoint nic_isPublic].
  rewrite (proj2 (Z.ltb_lt _ _)) by apply pu_fresh0. by rewrite (proj2 (String.eqb_neq _ _) pu_public0).
Qed.

(** The token and the address the edge sees. *)
Lemma public_run_view gio c r key ip h resp cand scheme host peer :
  public_run gio r key ip h resp cand scheme host → tok_Value (resp_Token resp) ≠ "" →
  let er := edge_view peer (public_request c gio r key cand resp scheme host) in
  request_token er = tok_Value (resp_Token resp) ∧ extractClientIP er = h ∧
  er_Path er = String.append "/obj/" (sanitizeGatewayKey key) ∧ er_Method er = gr_Method r.
Proof.
  intros [] Htok er. subst er.
  assert (Hget : GetEdgeToken (gi_token_now gio)
      (mkControlPlaneClient (<[cand_ID cand := mkNodeInfoCache (cand_Endpoint cand) (tok_Value (resp_Token resp))
        true (gi_dispatch_now gio + resolver_ttl)]> (cc_cache c))) (cand_ID cand) = Some (tok_Value (resp_Token resp))).
  { unfold GetEdgeToken. cbn [cc_cache]. rewrite lookup_insert_eq. cbn [nic_expireAt nic_edgeToken].
    rewrite (proj2 (Z.ltb_lt _ _)) by apply pu_fresh0. by rewrite (proj2 (String.eqb_neq _ _) Htok). }
  assert (Hkey : sanitizeGatewayKey key ≠ "") by (intros E; by rewrite E in pu_obj_ok0).
  unfold public_request, reverse_proxy, director. rewrite pu_peer0, Hget.
  cbn [ot_Headers ot_Scheme ot_Host ot_Method ot_Path ot_Query ot_ContentLength].
  assert (Hauth : ∀ a b d, first_value (<["X-Forwarded-For" := a]> (delete "Proxy-Connection"
     (<["X-Forwarded-Proto" := d]> (<["X-Forwarded-Host" := b]> (<["X-Forwarded-For" := [gw_extractClientIP r]]>
        (delete_headers director_hop_headers (gr_Headers r))))))) "Authorization" = first_value (gr_Headers r) "Authorization").
  { intros a b d. unfold first_value. rewrite lookup_insert_ne, lookup_delete_ne, !lookup_insert_ne by done.
    unfold delete_headers, director_hop_headers. cbn [foldr]. by rewrite !lookup_delete_ne by done. }
  split_and!; cbn [er_Path er_Method edge_view ot_Path ot_Method]; [| |by apply public_path_key|done].
  - unfold request_token, edge_view. cbn [er_Authorization er_QueryToken ot_Headers ot_Query]. rewrite Hauth, pu_no_token0, andb_false_r.
    unfold first_value, setTokenQuery. by rewrite lookup_insert_eq.
  - apply (forwarded_address ip); [|apply pu_ip_plain0|apply pu_peer_plain0|apply pu_peer_plain0].
    cbn [er_XForwardedFor edge_view ot_Headers]. unfold first_value at 1. rewrite lookup_insert_eq. f_equal.
    unfold first_value. rewrite lookup_delete_ne, !lookup_insert_ne, lookup_insert_eq by done. done.
Qed.

(** The dispatch decision behind the answer of the dispatch route. *)
Lemma dispatch_route_resolves key ip resp :
  ip ≠ "" → trimmed ip = ip → trimmed key = key →
  (handleDispatch s t db_ok st hr (dispatch_body key ip)).1 = RDispatch resp →
  ∃ sched', Scheduler_Resolve s t (PGStore_ListActiveNodes db_ok (cp_pg (api_cp st))) (api_sched st)
    (mkDispatchRequest (mkClientInfo ip "" "") (mkResourceInfo "object" key "") false) = (Ok resp, sched').
Proof.
  intros Hne Hip Hkey. unfold handleDispatch, dispatch_body. cbn [decodeJSON dr_Client cl_IP cl_Region cl_ISP dr_Resource res_Key res_Type res_Scheme dr_NeedRange].
  rewrite Hip, Hkey. rewrite (proj2 (String.eqb_neq _ _) Hne). cbn [with_ips api_policy api_sched api_cp].
  destruct (String.eqb key ""); [done|]. destruct (Policy_IsBlocked _ _); [done|].
  destruct (Scheduler_Resolve _ _ _ _ _) as [[resp'| |] sched']; cbn [fst]; [|done..]. intros [= ->]. by exists sched'.
Qed.

Lemma trimmed_object_key prefix path : trimmed (object_key prefix path) = object_key prefix path.
Proof.
  unfold trimmed, object_key. rewrite to_of_chars. rewrite (trim_space_id (trim_space _)); [done|]. apply trim_space_no_spaces.
Qed.

(** The edge's decision about the address it sees for a token bound to another one. *)
Definition network_verdict (ip h : string) : bool :=
  match ParseIP ip, ParseIP h with
  | None, _ => true
  | Some a, Some b => same_network a b
  | Some _, None => false
  end.

(** C10 (functional): End to end: a request without a token of its own that the gateway
    forwards to a public edge node, which shares the token secret of the control plane, is
    served under the sanitized key exactly if the address the gateway asked the dispatch
    for lies in the network (/24 or /64) of the gateway's peer, which is the address the
    edge sees, or is not an address at all; otherwise the edge forbids it. *)
Theorem gateway_edge_verdict forward c gio r key ip h resp cand scheme host eio es peer :
  public_run gio r key ip h resp cand scheme host →
  sv_secret es = tsg_secret (sc_signer s) → resp_Token resp ≠ no_token → text_ok key →
  is_i64 (tok_Exp (resp_Token resp)) → tok_Exp (resp_Token resp) ≠ 0 →
  oi_now eio / sec ≤ tok_Exp (resp_Token resp) →
  let er := edge_view peer (public_request c gio r key cand resp scheme host) in
  (handleObjectRequest parse_endpoint (edge_answer eio es peer) forward gio c r).1 =
    relayed (if network_verdict ip h
             then (serve_object ParseFloat format_verbs xml_Unmarshal env_max eio (admitted es er) er
                     (sanitizeGatewayKey key)).1
             else http_Error "forbidden" 403).
Proof.
  intros Hrun Hsec Htok Htext Hexp Hexp0 Hle er. pose proof Hrun as [].
  destruct (dispatch_route_resolves key ip resp) as [sched' Hres]; [apply pu_ip_plain0..| |exact pu_answer0|].
  { rewrite <- pu_key0. apply trimmed_object_key. }
  pose proof (dispatch_token_verdict s t _ (api_sched st) _ resp sched' (oi_now eio) h Hres Htok Htext Hexp Hexp0 Hle) as Hv.
  cbv zeta in Hv. cbn [dr_Client cl_IP] in Hv.
  assert (Hne : tok_Value (resp_Token resp) ≠ "").
  { intros E. rewrite E in Hv. assert (∀ a n, Signer_VerifyWithIP a n "" h = Err "invalid token format") as Hempty by done.
    rewrite Hempty in Hv. by repeat case_match. }
  destruct (public_run_view gio c r key ip h resp cand scheme host peer Hrun Hne) as (Hreq & Haddr & Hpath & Hmeth).
  fold er in Hreq, Haddr, Hpath, Hmeth.
  unfold handleObjectRequest. rewrite pu_key0, pu_key_ok0, (public_run_route gio c r key ip h resp cand scheme host Hrun).
  cbn [fst]. unfold proxyToPublic. rewrite pu_url0.
  assert (negb (scheme =? "http")%string && negb (scheme =? "https")%string = false) as -> by (by destruct pu_scheme0 as [-> | ->]).
  unfold edge_answer. fold (public_request c gio r key cand resp scheme host). fold er.
  change (relayed (handleObject ParseFloat format_verbs xml_Unmarshal env_max eio es er).1 = relayed
    (if network_verdict ip h then (serve_object ParseFloat format_verbs xml_Unmarshal env_max eio (admitted es er) er
                     (sanitizeGatewayKey key)).1 else http_Error "forbidden" 403)).
  f_equal. unfold handleObject. fold (admitted es er). rewrite (ss_secret _ _ (admitted_same es er)).
  rewrite Hreq, Haddr, Hpath, Hmeth, Hsec, Hv, edge_object_key, pu_obj_ok0, (proj2 (String.eqb_neq _ _) Hne).
  assert (negb (gr_Method r =? "GET")%string && negb (gr_Method r =? "HEAD")%string = false) as ->
    by (by destruct pu_method0 as [-> | ->]).
  unfold network_verdict. by repeat case_match.
Qed.
End end_to_end.

(** ** Concrete runs *)
Definition demo_parse_endpoint (u : string) : option (string * string) :=
  if String.eqb u "https://10.0.0.1:8443" then Some ("https", "10.0.0.1:8443") else None.
Definition demo_dispatch : string → string → httpResult gwDispatchResponse :=
  dispatch_route demo_tok_sched demo_clock true demo_api demo_http.
Definition demo_gio : gatewayIO := mkGatewayIO 0 demo_dispatch 1 1 (λ _, RequestFails) 2.
Definition demo_gw_req (forwarded : gmap string (list string)) : gwRequest :=
  mkGwRequest "GET" "/obj/k" ∅ false forwarded "cdn.example" "203.0.113.9:5555" false 0.
Definition demo_early : objectIO :=
  mkObjectIO (30 * sec) OpenFine None (λ _, mkAttempt 0 0 true (Response EdgeServer.demo_answer)) None true true true 0 true
    put_fine (mkResponse 101 ∅ []).
Definition demo_gw_run (forwarded : gmap string (list string)) : response :=
  (handleObjectRequest demo_parse_endpoint
     (edge_answer demo_parse demo_verbs demo_xml 0 demo_early (demo_edge EdgeServer.demo_warm) "192.0.2.1:9")
     (λ _ _, Err "no tunnel") demo_gio NewControlPlaneClient (demo_gw_req forwarded)).1.
Definition demo_gw_answer (ip : string) : DispatchResponse :=
  match (handleDispatch demo_tok_sched demo_clock true demo_api demo_http (dispatch_body "k" ip)).1 with
  | RDispatch resp => resp
  | _ => mkDispatchResponse "" 0 no_token []
  end.
Definition demo_gw_cand (ip : string) : Candidate :=
  default (mkCandidate "" "" 0 no_meta) (head (resp_Candidates (demo_gw_answer ip))).
Lemma demo_public_run forwarded ip :
  (forwarded = ∅ ∧ ip = "203.0.113.9") ∨ (forwarded = {["X-Forwarded-For" := ["198.51.100.1"]]} ∧ ip = "198.51.100.1") →
  public_run demo_parse_endpoint demo_tok_sched demo_clock true demo_api demo_http demo_gio (demo_gw_req forwarded)
    "k" ip "203.0.113.9" (demo_gw_answer ip) (demo_gw_cand ip) "https" "10.0.0.1:8443".
Proof.
  intros [[-> ->]|[-> ->]]; constructor.
  all: match goal with
  | |- gi_dispatch _ = _ => reflexivity
  | |- gr_Method _ = _ ∨ _ => by left
  | |- _ ∨ _ => by right
  | |- no_spaces _ ∧ _ => split; [vm_compute; split; reflexivity|by eapply bool_decide_eq_true_1]
  | |- _ < _ ∧ _ => split; reflexivity
  | |- _ ≠ "" ∧ _ => split; [discriminate|vm_compute; reflexivity]
  | |- _ = _ => vm_compute; reflexivity
  | |- _ => vm_compute; discriminate
  end.
Qed.

(** The address the client connects from is served; the one its proxy names is not. *)
Lemma gateway_edge_verdict_witness :
  rs_body (demo_gw_run ∅) = demo_body ∧
  rs_status (demo_gw_run {["X-Forwarded-For" := ["198.51.100.1"]]}) = 403.
Proof.
  pose proof (λ forwarded ip Hrun, gateway_edge_verdict demo_parse demo_verbs demo_xml 0 demo_parse_endpoint demo_tok_sched
    demo_clock true demo_api demo_http (λ _ _, Err "no tunnel") NewControlPlaneClient demo_gio (demo_gw_req forwarded) "k" ip
    "203.0.113.9" (demo_gw_answer ip) (demo_gw_cand ip) "https" "10.0.0.1:8443" demo_early (demo_edge EdgeServer.demo_warm)
    "192.0.2.1:9" (demo_public_run forwarded ip Hrun) eq_refl) as Hv.
  split.
  - unfold demo_gw_run. rewrite (Hv ∅ "203.0.113.9" (or_introl (conj eq_refl eq_refl))).
    + vm_compute. reflexivity.
    + vm_compute. discriminate.
    + apply ascii_text. reflexivity.
    + vm_compute. split; [discriminate|reflexivity].
    + vm_compute. discriminate.
    + vm_compute. discriminate.
  - unfold demo_gw_run. rewrite (Hv {["X-Forwarded-For" := ["198.51.100.1"]]} "198.51.100.1" (or_intror (conj eq_refl eq_refl))).
    + vm_compute. reflexivity.
    + vm_compute. discriminate.
    + apply ascii_text. reflexivity.
    + vm_compute. split; [discriminate|reflexivity].
    + vm_compute. discriminate.
    + vm_compute. discriminate.
Defined.

(** A node without a public endpoint. *)
Definition nat_dispatch : string → string → httpResult gwDispatchResponse :=
  λ _ _, Answered 200 (Some (mkGwDispatchResponse [mkCandidateInfo "n9" "" 1] "token")).
Definition nat_io : gatewayIO :=
  mkGatewayIO 0 nat_dispatch 1 1 (λ _, Answered 200 (Some (mkNodeInfo "n9" [] false))) 2.

Lemma tunnel_request_carries_no_token_witness :
  hq_Headers (tunnel_request 2 (resolve_route nat_io NewControlPlaneClient (demo_gw_req ∅) "k").2 (demo_gw_req ∅) "n9" "k")
    !! "Authorization" = None.
Proof.
  destruct (tunnel_request_carries_no_token nat_io NewControlPlaneClient (demo_gw_req ∅) "k" "n9"
    (resolve_route nat_io NewControlPlaneClient (demo_gw_req ∅) "k").2) as [Hauth _].
  - apply rtc_refl.
  - vm_compute. discriminate.
  - vm_compute. reflexivity.
  - exact Hauth.
Defined.
