(* ===== verification/TunnelClient.v ===== *)
(** * The tunnel client of a NAT node ([internal/tunnel/client.go])

    The client registers with the gateway, reads messages from the connection and answers
    each request from the service on its own machine, one goroutine per request.  The loop
    and a request that reads its body take messages from the same connection, and every
    goroutine writes to it without a lock, a message as one [Write] for the header and one
    for the payload; the steps are these reads and writes.  The JSON codecs of the payloads
    and the local service are arguments.

    The theorems: the client is connected exactly if the first message it reads is the
    gateway's consent; a response that is written without interruption reaches the
    gateway's reader unchanged; two responses written at the same time corrupt the stream; and a
    request the gateway sends through the tunnel is refused by the edge agent behind it. *)

From S2P Require Import Prelude GoStrings NetAddr GoHash GoFloat StreamKeys TunnelCodec TunnelServer ResourceKeys.
From S2P Require Import Manifest Fetcher Deduper Prefetch EdgeCache GoJson Tokens EdgeServer Gateway.
From Stdlib Require Import Ascii.

(** ** Registration *)
Record ClientConfig := mkClientConfig { tcf_NodeID : string; tcf_NodeToken : string; tcf_ServiceAddr : string }.

Definition register_payload (cfg : ClientConfig) : RegisterPayload :=
  mkRegisterPayload (tcf_NodeID cfg) (tcf_NodeToken cfg) (tcf_ServiceAddr cfg).

(** [Connect]: the dial and the write may fail; [input] is what the gateway sends, and
    [decode_ok] decodes the payload of its consent into the tunnel id. *)
Definition Client_Connect (dial_ok write_ok : bool) (input : bytes) (decode_ok : bytes → option string) : result string :=
  if negb dial_ok then Err "dial tunnel server"
  else if negb write_ok then Err "send register"
  else
    match ReadMessage input with
    | Ok (resp, _) =>
        let t := mh_Type (msg_Header resp) in
        if t =? type_code MsgTypeError then Err "register rejected"
        else if negb (t =? type_code MsgTypeRegisterOK) then Err "unexpected response type"
        else match decode_ok (msg_Payload resp) with
             | Some tunnelID => Ok tunnelID
             | None => Err "unmarshal register ok"
             end
    | _ => Err "read register response"
    end.

(** What the gateway writes at the end of the handshake; the payloads are JSON. *)
Definition handshake_reply (hs : handshake) (ok_json err_json : bytes) : option Message :=
  match hs with
  | HsDropped => None
  | HsRejected _ => Some (NewControlMessage MsgTypeError 0 err_json)
  | HsAccepted _ => Some (NewControlMessage MsgTypeRegisterOK 0 ok_json)
  end.

(** ** The local request *)

(** [url.ParseQuery], less the entries it reports as errors. *)
Definition query_unescape (l : chars) : option chars :=
  PathUnescape (replace_char (ascii_of_nat 43) (ascii_of_nat 32) l).
Definition parse_pair (l : chars) : option (chars * chars) :=
  if bool_decide (l = []) || bool_decide (ascii_of_nat 59 ∈ l) then None
  else
    let '(k, v) := match index_byte (ascii_of_nat 61) l with Some i => (take i l, drop (S i) l) | None => (l, []) end in
    match query_unescape k, query_unescape v with Some k, Some v => Some (k, v) | _, _ => None end.
Definition query_get (name : string) (raw : chars) : string :=
  match filter (λ kv, kv.1 = to_chars name) (omap parse_pair (split_on (ascii_of_nat 38) raw)) with
  | (_, v) :: _ => of_chars v
  | [] => ""
  end.

(** [http.NewRequest] for the service address followed by the path of the request: the path
    is taken as the text of a URL, so that "#" and "?" end it and "%" starts an escape. *)
Definition is_ctl (c : ascii) : bool := let n := nat_of_ascii c in ((n <? 32) || (n =? 127))%nat.
Definition cut_at (c : ascii) (l : chars) : chars * option chars :=
  match index_byte c l with Some i => (take i l, Some (drop (S i) l)) | None => (l, None) end.
Definition local_url (path : chars) : option (string * chars) :=
  if existsb is_ctl path then None
  else
    let u := (cut_at (ascii_of_nat 35) path).1 in
    let '(p, q) := cut_at (ascii_of_nat 63) u in
    match PathUnescape p with
    | Some p => Some (of_chars p, default [] q)
    | None => None
    end.

Definition header_value (h : gmap string string) (name : string) : string := default "" (h !! name).

(** The request as the local service sees it; [peer] is the client's own address. *)
Definition local_request (peer : string) (q : HTTPRequestHeader) : option edgeRequest :=
  match local_url (to_chars (hq_Path q)) with
  | Some (path, raw) =>
      let h := header_value (hq_Headers q) in
      Some (mkEdgeRequest (hq_Method q) path (h "Authorization") (query_get "token" raw) (h "Range")
              (h "X-Forwarded-For") (h "X-Real-Ip") peer (if 0 <? hq_BodyLen q then hq_BodyLen q else 0)
              (h "Upgrade") (h "Connection") (h "Content-Type"))
  | None => None
  end.

(** ** Responses *)
Record HTTPResponseHeader := mkHTTPResponseHeader {
  hs_StreamID : Z; hs_StatusCode : Z; hs_Headers : gmap string string; hs_BodyLen : Z
}.

(** The local service's answer: the pieces its body is read in (of at most 32 KiB), and
    whether reading ends with an error. *)
Record localAnswer := mkLocalAnswer {
  la_Status : Z; la_Headers : gmap string (list string); la_ContentLength : Z;
  la_pieces : list bytes; la_fails : bool
}.

Section client.
Context (decode_request : bytes → option HTTPRequestHeader)
        (encode_response : HTTPResponseHeader → bytes) (encode_error : string → bytes).

Definition response_header (sid : Z) (a : localAnswer) : HTTPResponseHeader :=
  mkHTTPResponseHeader sid (la_Status a) (omap head (la_Headers a)) (la_ContentLength a).

Definition body_messages (sid : Z) (a : localAnswer) : list Message :=
  NewDataMessage MsgTypeData sid <$> filter (λ p, p ≠ []) (la_pieces a).
Definition response_messages (sid : Z) (a : localAnswer) : list Message :=
  NewControlMessage MsgTypeResponse sid (encode_response (response_header sid a)) ::
  body_messages sid a ++ (if la_fails a then [] else [NewDataMessage MsgTypeDataEnd sid []]).
Definition error_messages (sid : Z) (message : string) : list Message :=
  [NewControlMessage MsgTypeError sid (encode_error message)].

(** The [Write] calls of [WriteMessage]. *)
Definition writes_of (m : Message) : list bytes :=
  header_bytes (msg_Header m) ::
  (if (0 <? mh_Length (msg_Header m)) && (0 <? length (msg_Payload m))%nat
   then [take (Z.to_nat (mh_Length (msg_Header m))) (msg_Payload m)] else []).

(** ** The goroutines *)
Inductive handler :=
| HBody (sid : Z) (q : HTTPRequestHeader) (remaining : Z) (buf : bytes)
| HLocal (sid : Z) (q : HTTPRequestHeader) (body : bytes)
| HWrite (ws : list bytes).

Record Client := mkClient {
  tc_in : list Message;             (* messages not yet read from the connection *)
  tc_wire : list bytes;             (* the writes to the connection, in order *)
  tc_handlers : gmap nat handler;
  tc_next : nat
}.
Definition connected_client : Client := mkClient [] [] ∅ 0.

Definition set_handler (c : Client) (h : nat) (st : handler) : Client :=
  mkClient (tc_in c) (tc_wire c) (<[h := st]> (tc_handlers c)) (tc_next c).
Definition new_handler (c : Client) (st : handler) : Client :=
  mkClient (tc_in c) (tc_wire c) (<[tc_next c := st]> (tc_handlers c)) (S (tc_next c)).
Definition read_in (c : Client) (rest : list Message) : Client :=
  mkClient rest (tc_wire c) (tc_handlers c) (tc_next c).

(** [handleRequest] up to the body; [method_ok]: the method is a token. *)
Definition handleRequest (method_ok : bool) (msg : Message) : option handler :=
  match decode_request (msg_Payload msg) with
  | None => None
  | Some q =>
      let sid := mh_StreamID (msg_Header msg) in
      Some (if negb method_ok || bool_decide (local_url (to_chars (hq_Path q)) = None)
            then HWrite (error_messages sid "create request" ≫= writes_of)
            else if 0 <? hq_BodyLen q then HBody sid q (hq_BodyLen q) [] else HLocal sid q [])
  end.

(** One turn of [messageLoop]. *)
Definition loop_turn (method_ok : bool) (c : Client) (msg : Message) : Client :=
  if mh_Type (msg_Header msg) =? type_code MsgTypeRequest
  then match handleRequest method_ok msg with Some st => new_handler c st | None => c end
  else c.

(** One turn of [readRequestBody]. *)
Definition body_turn (sid : Z) (q : HTTPRequestHeader) (remaining : Z) (buf : bytes) (msg : Message) : handler :=
  if mh_Type (msg_Header msg) =? type_code MsgTypeData
  then HBody sid q (remaining - Z.of_nat (length (msg_Payload msg))) (buf ++ msg_Payload msg)
  else HWrite (error_messages sid "read body" ≫= writes_of).

Definition local_outcome (sid : Z) (o : option localAnswer) : handler :=
  HWrite (match o with Some a => response_messages sid a | None => error_messages sid "local request" end ≫= writes_of).

Inductive tc_step (c : Client) : Client → Prop :=
| tc_arrive m : tc_step c (mkClient (tc_in c ++ [m]) (tc_wire c) (tc_handlers c) (tc_next c))
| tc_loop ok m rest : tc_in c = m :: rest → tc_step c (loop_turn ok (read_in c rest) m)
| tc_body h sid q n buf m rest : tc_handlers c !! h = Some (HBody sid q n buf) → 0 < n → tc_in c = m :: rest →
    tc_step c (set_handler (read_in c rest) h (body_turn sid q n buf m))
| tc_body_done h sid q n buf : tc_handlers c !! h = Some (HBody sid q n buf) → n ≤ 0 →
    tc_step c (set_handler c h (HLocal sid q buf))
| tc_local h sid q body o : tc_handlers c !! h = Some (HLocal sid q body) →
    tc_step c (set_handler c h (local_outcome sid o))
| tc_heartbeat : tc_step c (new_handler c (HWrite (writes_of (NewControlMessage MsgTypeHeartbeat 0 (bytes_of_string "null")))))
| tc_write h w ws : tc_handlers c !! h = Some (HWrite (w :: ws)) →
    tc_step c (mkClient (tc_in c) (tc_wire c ++ [w]) (<[h := HWrite ws]> (tc_handlers c)) (tc_next c)).
End client.

(** ** Registration *)

(** Connect succeeds, with the tunnel id the gateway chose, exactly if the
    gateway's handshake accepted the registration; if instead any other message reaches the
    client first, such as a request another goroutine of the gateway sends to the tunnel
    that is already registered, the client gives the connection up. *)
Theorem connect_iff_accepted cfg authToken maxTunnels m tunnelID remote decode_ok ok_json err_json rest :
  Z.of_nat (length ok_json) < 2 ^ 32 → Z.of_nat (length err_json) < 2 ^ 32 → decode_ok ok_json = Some tunnelID →
  let '(hs, _) := Server_handleConnection authToken maxTunnels m
                    (Some (type_code MsgTypeRegister, Some (register_payload cfg))) tunnelID remote in
  (∀ reply, handshake_reply hs ok_json err_json = Some reply →
     Client_Connect true true (message_bytes reply ++ rest) decode_ok =
       match hs with HsAccepted _ => Ok tunnelID | _ => Err "register rejected" end) ∧
  (∀ sid req, is_u32 sid → Z.of_nat (length req) < 2 ^ 32 →
     Client_Connect true true (message_bytes (NewControlMessage MsgTypeRequest sid req) ++ rest) decode_ok =
       Err "unexpected response type").
Proof.
  intros Hok Herr Hdec. destruct (Server_handleConnection _ _ _ _ _ _) as [hs m'].
  assert (Hread : ∀ t sid data, is_u32 sid → Z.of_nat (length data) < 2 ^ 32 →
    ReadMessage (message_bytes (NewControlMessage t sid data) ++ rest) = Ok (NewControlMessage t sid data, rest)).
  { intros t sid data Hs Hl. unfold message_bytes. rewrite <- app_assoc. apply read_wf.
    by apply (NewDataMessage_wf t). }
  split.
  - intros reply. destruct hs as [|reason|sref]; cbn [handshake_reply]; [done|..]; intros [= <-];
      unfold Client_Connect; cbn [negb]; rewrite Hread by done; [done|]. cbn -[u32]. by rewrite Hdec.
  - intros sid req Hs Hl. unfold Client_Connect. cbn [negb]. by rewrite Hread.
Qed.

(** ** Responses on the wire *)
Section wire.
Context (decode_request : bytes → option HTTPRequestHeader)
        (encode_response : HTTPResponseHeader → bytes) (encode_error : string → bytes).

Lemma writes_of_wf m : msg_wf m → mjoin (writes_of m) = message_bytes m.
Proof.
  intros [_ _ _ Hl _]. unfold writes_of, message_bytes. rewrite Hl, Nat2Z.id.
  destruct (msg_Payload m) as [|b p] eqn:E; [done|].
  rewrite (proj2 (Z.ltb_lt _ _)) by (cbn; lia). cbn [andb]. change (0 <? length (b :: p))%nat with true.
  cbv iota. rewrite firstn_all. cbn. by rewrite app_nil_r.
Qed.

Lemma writes_of_messages ms : Forall msg_wf ms → mjoin (ms ≫= writes_of) = mjoin (message_bytes <$> ms).
Proof.
  induction 1 as [|m ms Hm Hms IH]; [done|]. cbn [mbind list_bind fmap list_fmap].
  rewrite join_app, writes_of_wf by done.
  change (message_bytes m ++ mjoin (ms ≫= writes_of) = message_bytes m ++ mjoin (message_bytes <$> ms)). by rewrite IH.
Qed.

Lemma body_messages_spec sid a :
  is_u32 sid → Forall (λ p, Z.of_nat (length p) ≤ 32768) (la_pieces a) →
  Forall msg_wf (body_messages sid a) ∧ Forall is_data (body_messages sid a) ∧
  Forall (λ m, msg_Payload m ≠ []) (body_messages sid a) ∧ payloads (body_messages sid a) = mjoin (la_pieces a).
Proof.
  intros Hs. unfold body_messages. induction 1 as [|p ps Hp Hps (IH1 & IH2 & IH3 & IH4)].
  - by split_and!; [constructor..|].
  - destruct (decide (p = [])) as [->|Hne].
    + rewrite filter_cons_False by (by intros []). done.
    + rewrite filter_cons_True by done. cbn [fmap list_fmap]. split_and!.
      * constructor; [apply NewDataMessage_wf; [done|lia]|done].
      * by constructor.
      * by constructor.
      * exact (f_equal (app p) IH4).
Qed.


(** Two responses written at the same time corrupt the stream: whenever one
    goroutine is about to write a message with a payload of at least ten bytes and another
    one a message of its own, there is a run after which the gateway reads under the first
    message's header a payload that begins with the other message's header. *)
Theorem interleaved_writes_corrupt c h1 h2 m1 m2 ws1 ws2 :
  msg_wf m1 → msg_wf m2 → h1 ≠ h2 → (10 ≤ length (msg_Payload m1))%nat →
  tc_handlers c !! h1 = Some (HWrite (writes_of m1 ++ ws1)) →
  tc_handlers c !! h2 = Some (HWrite (writes_of m2 ++ ws2)) →
  ∃ c' written payload rest,
    rtc (tc_step decode_request encode_response encode_error) c c' ∧ tc_wire c' = tc_wire c ++ written ∧
    ReadMessage (mjoin written) = Ok (mkMessage (msg_Header m1) payload, rest) ∧
    take 10 payload = header_bytes (msg_Header m2).
Proof.
  intros Hm1 Hm2 Hne Hlen H1 H2.
  assert (Hw1 : writes_of m1 = [header_bytes (msg_Header m1); msg_Payload m1]).
  { unfold writes_of. destruct Hm1 as [_ _ _ Hl _]. rewrite Hl, Nat2Z.id.
    rewrite (proj2 (Z.ltb_lt _ _)) by lia. rewrite (proj2 (Nat.ltb_lt _ _)) by lia. cbn [andb]. by rewrite firstn_all. }
  assert (Hw2 : ∃ tl, writes_of m2 = header_bytes (msg_Header m2) :: tl) by (by eexists).
  destruct Hw2 as [tl Hw2]. rewrite Hw1 in H1. rewrite Hw2 in H2. cbn [app] in H1, H2.
  set (written := [header_bytes (msg_Header m1); header_bytes (msg_Header m2); msg_Payload m1]).
  set (n := length (msg_Payload m1)).
  exists (mkClient (tc_in c) (tc_wire c ++ written)
    (<[h1 := HWrite ws1]> (<[h2 := HWrite (tl ++ ws2)]> (<[h1 := HWrite (msg_Payload m1 :: ws1)]> (tc_handlers c)))) (tc_next c)),
    written, (take n (header_bytes (msg_Header m2) ++ msg_Payload m1)),
    (drop n (header_bytes (msg_Header m2) ++ msg_Payload m1)).
  split_and!.
  - eapply rtc_l; [by apply (tc_write _ _ _ c h1)|]. eapply rtc_l.
    { apply (tc_write _ _ _ _ h2). cbn [tc_handlers]. rewrite lookup_insert_ne by done. exact H2. }
    eapply rtc_l.
    { apply (tc_write _ _ _ _ h1). cbn [tc_handlers]. rewrite lookup_insert_ne by done. apply lookup_insert_eq. }
    cbn [tc_in tc_wire tc_handlers tc_next]. rewrite <- !app_assoc. cbn [app]. apply rtc_refl.
  - done.
  - subst written. cbn [mjoin list_join]. rewrite app_nil_r.
    set (payload := take n _).
    assert (Hread : ReadMessage (header_bytes (msg_Header (mkMessage (msg_Header m1) payload)) ++
        msg_Payload (mkMessage (msg_Header m1) payload) ++ drop n (header_bytes (msg_Header m2) ++ msg_Payload m1)) =
      Ok (mkMessage (msg_Header m1) payload, drop n (header_bytes (msg_Header m2) ++ msg_Payload m1))).
    { apply read_wf. destruct Hm1 as [Ha Hb Hc Hd He]. split; cbn [msg_Header msg_Payload]; try done.
      rewrite Hd. subst payload. rewrite length_take, length_app, length_header. unfold n, HeaderSize. lia. }
    cbn [msg_Header msg_Payload] in Hread. subst payload. by rewrite take_drop in Hread.
  - rewrite take_take. replace (Nat.min 10 n) with 10%nat by (subst n; lia).
    by rewrite take_app_length' by (apply (length_header (msg_Header m2))).
Qed.
End wire.

(** ** From the gateway through the tunnel to the edge agent *)
Definition url_plain (c : ascii) : bool :=
  negb (is_ctl c) && negb (bool_decide (c ∈ to_chars "#?%")).

Lemma url_plain_path l :
  Forall (λ c, url_plain c = true) l → local_url l = Some (of_chars l, []).
Proof.
  intros Hl. assert (Hctl : existsb is_ctl l = false).
  { apply not_true_is_false. rewrite existsb_exists. intros (c & Hc & Hx). apply list_elem_of_In in Hc.
    rewrite Forall_forall in Hl. specialize (Hl c Hc). unfold url_plain in Hl. by rewrite Hx in Hl. }
  assert (Hcut : ∀ c, c ∈ to_chars "#?%" → cut_at c l = (l, None)).
  { intros c Hc. unfold cut_at. replace (index_byte c l) with (@None nat); [done|]. symmetry.
    induction Hl as [|x l Hx Hl IH]; [done|]. cbn [index_byte]. apply orb_false_elim in Hctl as [_ Hctl].
    rewrite bool_decide_eq_false_2; [by rewrite IH|]. intros ->. unfold url_plain in Hx.
    by rewrite (bool_decide_eq_true_2 (c ∈ _)), andb_false_r in Hx. }
  assert (Hun : PathUnescape l = Some l).
  { clear Hcut Hctl. induction Hl as [|x l Hx Hl IH]; [done|]. cbn [PathUnescape].
    rewrite bool_decide_eq_false_2; [by rewrite IH|]. intros ->. by vm_compute in Hx. }
  unfold local_url. rewrite Hctl. rewrite (Hcut (ascii_of_nat 35)) by (by eapply bool_decide_eq_true_1). cbn [fst].
  rewrite (Hcut (ascii_of_nat 63)) by (by eapply bool_decide_eq_true_1). by rewrite Hun.
Qed.

(** A node behind a tunnel serves nothing to the gateway's clients: a request
    that the gateway sends through a tunnel, whatever the resolver did before, reaches the
    edge agent behind it without a token, unless the client brought one of its own, and the
    agent answers 401. *)
Theorem tunnel_node_unauthorized ParseFloat format_verbs xml_Unmarshal env_max gio c r key id c' peer eio es :
  rtc resolver_step NewControlPlaneClient c → gi_cache_now gio ≤ gi_token_now gio →
  resolve_route gio c r key = (RouteTunnel id, c') →
  gr_Method r = "GET" ∨ gr_Method r = "HEAD" →
  has_prefix (to_chars "Bearer ") (to_chars (first_value (gr_Headers r) "Authorization")) = false →
  Forall (λ ch, url_plain ch = true) (to_chars (sanitizeGatewayKey key)) →
  ∃ er, local_request peer (tunnel_request (gi_token_now gio) c' r id key) = Some er ∧
    er_Path er = String.append "/obj/" (sanitizeGatewayKey key) ∧
    (handleObject ParseFloat format_verbs xml_Unmarshal env_max eio es er).1 = http_Error "unauthorized" 401.
Proof.
  intros Hr Hnow Hroute Hm Hauth Hplain.
  destruct (tunnel_request_authorization gio c r key id c' Hr Hnow Hroute) as [Ha Hp].
  set (q := tunnel_request _ _ _ _ _) in *.
  assert (Hurl : local_url (to_chars (hq_Path q)) = Some (hq_Path q, [])).
  { rewrite url_plain_path, of_to_chars; [done|]. rewrite Hp, to_chars_app. apply Forall_app. split; [|done].
    by repeat constructor. }
  unfold local_request. rewrite Hurl. eexists. split; [reflexivity|]. split; [exact Hp|].
  unfold handleObject. cbn [er_Method].
  assert (Hmeth : hq_Method q = gr_Method r) by done. rewrite Hmeth.
  assert (negb (gr_Method r =? "GET")%string && negb (gr_Method r =? "HEAD")%string = false) as ->
    by (by destruct Hm as [-> | ->]).
  assert (Htok : header_value (hq_Headers q) "Authorization" = first_value (gr_Headers r) "Authorization").
  { unfold header_value, first_value. rewrite Ha. destruct (gr_Headers r !! "Authorization") as [[|v vs]|]; done. }
  unfold request_token. cbn [er_Authorization er_QueryToken]. rewrite Htok, Hauth, andb_false_r.
  change (query_get "token" []) with "". done.
Qed.

(** ** Concrete runs *)
Definition demo_decode (b : bytes) : option HTTPRequestHeader := Some (mkHTTPRequestHeader 7 "GET" "/obj/k" ∅ 0).
Definition demo_encode (h : HTTPResponseHeader) : bytes := bytes_of_string "header of a response".
Definition demo_encode_error (m : string) : bytes := bytes_of_string m.
Definition demo_local : localAnswer := mkLocalAnswer 200 ∅ 5 [bytes_of_string "he"; bytes_of_string "llo"] false.

Definition demo_registered : handshake * TunnelManager :=
  Server_handleConnection "secret" 1 NewTunnelManager
    (Some (type_code MsgTypeRegister, Some (register_payload (mkClientConfig "n9" "secret" "127.0.0.1:9090")))) "t1" "peer".

Definition demo_tunnel_id (b : bytes) : option string := if bool_decide (b = bytes_of_string "t1") then Some "t1" else None.

Lemma connect_iff_accepted_witness :
  Client_Connect true true (message_bytes (NewControlMessage MsgTypeRegisterOK 0 (bytes_of_string "t1")))
    demo_tunnel_id = Ok "t1".
Proof.
  pose proof (connect_iff_accepted (mkClientConfig "n9" "secret" "127.0.0.1:9090") "secret" 1 NewTunnelManager "t1" "peer"
    demo_tunnel_id (bytes_of_string "t1") (bytes_of_string "no") []) as Hc.
  assert (Hs : demo_registered.1 = HsAccepted 0) by (vm_compute; reflexivity).
  unfold demo_registered in Hs. destruct (Server_handleConnection _ _ _ _ _ _) as [hs m']. cbn [fst] in Hs. subst hs.
  apply Hc; vm_compute; reflexivity.
Defined.


(** Two requests whose responses are about to be written. *)
Definition demo_request (sid : Z) : Message := NewControlMessage MsgTypeRequest sid (bytes_of_string "request").
Definition two_writers : Client :=
  let start c sid := loop_turn demo_decode demo_encode_error true c (demo_request sid) in
  let c := start (start connected_client 1) 2 in
  set_handler (set_handler c 0 (local_outcome demo_encode demo_encode_error 1 (Some demo_local))) 1
    (local_outcome demo_encode demo_encode_error 2 (Some demo_local)).
Definition demo_head (sid : Z) : Message :=
  NewControlMessage MsgTypeResponse sid (demo_encode (response_header sid demo_local)).

Lemma interleaved_writes_corrupt_witness :
  ∃ c' written payload rest,
    rtc (tc_step demo_decode demo_encode demo_encode_error) two_writers c' ∧ tc_wire c' = [] ++ written ∧
    ReadMessage (mjoin written) = Ok (mkMessage (msg_Header (demo_head 1)) payload, rest) ∧
    take 10 payload = header_bytes (msg_Header (demo_head 2)).
Proof.
  apply (interleaved_writes_corrupt demo_decode demo_encode demo_encode_error two_writers 0 1 (demo_head 1) (demo_head 2)
    (tail (response_messages demo_encode 1 demo_local) ≫= writes_of)
    (tail (response_messages demo_encode 2 demo_local) ≫= writes_of)).
  - apply (NewDataMessage_wf MsgTypeResponse); vm_compute; [split; [discriminate|reflexivity]|reflexivity].
  - apply (NewDataMessage_wf MsgTypeResponse); vm_compute; [split; [discriminate|reflexivity]|reflexivity].
  - discriminate.
  - vm_compute. lia.
  - reflexivity.
  - reflexivity.
Defined.

Lemma tunnel_node_unauthorized_witness :
  ∃ er, local_request "127.0.0.1:5000" (tunnel_request 2 (resolve_route nat_io NewControlPlaneClient (demo_gw_req ∅) "k").2
          (demo_gw_req ∅) "n9" "k") = Some er ∧ er_Path er = "/obj/k" ∧
    (handleObject demo_parse demo_verbs demo_xml 0 EdgeServer.demo_io (demo_edge demo_cache) er).1 = http_Error "unauthorized" 401.
Proof.
  apply (tunnel_node_unauthorized demo_parse demo_verbs demo_xml 0 nat_io NewControlPlaneClient (demo_gw_req ∅) "k" "n9"
    (resolve_route nat_io NewControlPlaneClient (demo_gw_req ∅) "k").2 "127.0.0.1:5000").
  - apply rtc_refl.
  - vm_compute. discriminate.
  - vm_compute. reflexivity.
  - by left.
  - vm_compute. reflexivity.
  - by repeat constructor.
Defined.
