(* ===== verification/AdminTables.v ===== *)
(** * The tables of the admin console ([internal/store/pg.go], from the tenants on, and the
      admin types of [internal/models/models.go])

    A table is a map from its primary key to its rows.  The constraints of the schema are
    part of the statements: primary keys, the unique e-mail address of a user, the tenant a
    project refers to, the versions that go with their policy.  Of each statement the flag
    [ok] says whether the database executes it at all, [now] is the clock and [uuid] the
    random part of a new key.  A JSON column holds a text that stands for its value; [nil]
    is the empty text and is stored as [null].  Rows of one time are listed in the order of
    the table.

    The lemmas say what the statements do to the keys and to the references between the
    tables. *)

From S2P Require Import Prelude GoStrings Models NodeLifecycle Policy.

(** ** Rows *)
Record Tenant := mkTenant {
  tn_CreatedAt : Z; tn_UpdatedAt : Z; tn_TenantID : string; tn_Name : string; tn_Description : string
}.
Record Project := mkProject {
  pj_CreatedAt : Z; pj_UpdatedAt : Z; pj_ProjectID : string; pj_TenantID : string;
  pj_Name : string; pj_Description : string
}.

(** Roles are free texts; these are the constants. *)
Definition UserRoleTenantOwner : string := "tenant_owner".
Definition UserRoleTenantAdmin : string := "tenant_admin".
Definition UserRoleProjectOperator : string := "project_operator".
Definition UserRoleProjectViewer : string := "project_viewer".
Record RoleBinding := mkRoleBinding { rb_Role : string; rb_TenantID : string; rb_ProjectID : string }.

Record User := mkUser {
  us_CreatedAt : Z; us_UpdatedAt : Z; us_UserID : string; us_TenantID : string; us_Email : string;
  us_DisplayName : string; us_Roles : list RoleBinding; us_MustChange : bool
}.
(** A row of [users]; the hashes are not part of [User]. *)
Record userRow := mkUserRow { ur_User : User; ur_passwordHash : string; ur_refreshHash : string }.

Record AdminPolicyVersion := mkAdminPolicyVersion {
  pv_CreatedAt : Z; pv_Content : string; pv_VersionID : string; pv_PolicyID : string; pv_Version : Z
}.
Record Ingress := mkIngress {
  in_CreatedAt : Z; in_UpdatedAt : Z; in_Config : string; in_TenantID : string; in_ProjectID : string;
  in_IngressID : string; in_Name : string; in_Type : string; in_Domain : string
}.

Inductive TaskType := TaskTypePrewarm | TaskTypePurge | TaskTypeBlock | TaskTypeOther (s : string).
Inductive TaskStatus :=
| TaskStatusPending | TaskStatusRunning | TaskStatusCompleted | TaskStatusFailed | TaskStatusCancelled.
#[export] Instance TaskType_eq_dec : EqDecision TaskType. Proof. solve_decision. Defined.
#[export] Instance TaskStatus_eq_dec : EqDecision TaskStatus. Proof. solve_decision. Defined.

Definition task_type_text (t : TaskType) : string :=
  match t with
  | TaskTypePrewarm => "prewarm" | TaskTypePurge => "purge" | TaskTypeBlock => "block" | TaskTypeOther s => s
  end.
Definition task_status_text (s : TaskStatus) : string :=
  match s with
  | TaskStatusPending => "pending" | TaskStatusRunning => "running" | TaskStatusCompleted => "completed"
  | TaskStatusFailed => "failed" | TaskStatusCancelled => "cancelled"
  end.

Record Task := mkTask {
  tk_CreatedAt : Z; tk_UpdatedAt : Z; tk_Params : string; tk_Result : string; tk_TaskID : string;
  tk_TenantID : string; tk_ProjectID : string; tk_CreatorID : string; tk_Type : TaskType;
  tk_Status : TaskStatus; tk_Progress : Z; tk_TotalNodes : Z; tk_DoneNodes : Z
}.

Record AuditEvent := mkAuditEvent {
  ae_ID : string; ae_TenantID : string; ae_ProjectID : string; ae_ActorID : string; ae_ActorEmail : string;
  ae_Action : string; ae_ResourceType : string; ae_ResourceID : string; ae_Before : string; ae_After : string;
  ae_RequestID : string; ae_SourceIP : string; ae_UserAgent : string; ae_Result : string; ae_CreatedAt : Z
}.
Record AuditQuery := mkAuditQuery {
  aq_ActorID : string; aq_Action : string; aq_ResourceType : string; aq_ResourceID : string;
  aq_Result : string; aq_TenantID : string; aq_ProjectID : string; aq_Since : option Z; aq_Until : option Z;
  aq_Limit : Z; aq_Offset : Z
}.

(** ** The tables *)
Record AdminDB := mkAdminDB {
  db_tenants : gmap string Tenant;
  db_projects : gmap string Project;
  db_users : gmap string userRow;
  db_policies : gmap string AdminPolicy;
  db_versions : gmap string AdminPolicyVersion;
  db_ingresses : gmap string Ingress;
  db_tasks : gmap string Task;
  db_audit : list AuditEvent;          (* oldest first *)
  db_auditSeq : Z                      (* the next value of the sequence *)
}.
Definition empty_db : AdminDB := mkAdminDB ∅ ∅ ∅ ∅ ∅ ∅ ∅ [] 1.

Definition with_tenants (d : AdminDB) m : AdminDB :=
  mkAdminDB m (db_projects d) (db_users d) (db_policies d) (db_versions d) (db_ingresses d) (db_tasks d) (db_audit d) (db_auditSeq d).
Definition with_projects (d : AdminDB) m : AdminDB :=
  mkAdminDB (db_tenants d) m (db_users d) (db_policies d) (db_versions d) (db_ingresses d) (db_tasks d) (db_audit d) (db_auditSeq d).
Definition with_users (d : AdminDB) m : AdminDB :=
  mkAdminDB (db_tenants d) (db_projects d) m (db_policies d) (db_versions d) (db_ingresses d) (db_tasks d) (db_audit d) (db_auditSeq d).
Definition with_policies (d : AdminDB) m v : AdminDB :=
  mkAdminDB (db_tenants d) (db_projects d) (db_users d) m v (db_ingresses d) (db_tasks d) (db_audit d) (db_auditSeq d).
Definition with_ingresses (d : AdminDB) m : AdminDB :=
  mkAdminDB (db_tenants d) (db_projects d) (db_users d) (db_policies d) (db_versions d) m (db_tasks d) (db_audit d) (db_auditSeq d).
Definition with_tasks (d : AdminDB) m : AdminDB :=
  mkAdminDB (db_tenants d) (db_projects d) (db_users d) (db_policies d) (db_versions d) (db_ingresses d) m (db_audit d) (db_auditSeq d).
Definition with_audit (d : AdminDB) l : AdminDB :=
  mkAdminDB (db_tenants d) (db_projects d) (db_users d) (db_policies d) (db_versions d) (db_ingresses d) (db_tasks d) l (db_auditSeq d + 1).

(** *** What the statements have in common *)

(** [json.Marshal] of a [json.RawMessage]. *)
Definition marshal_raw (s : string) : string := if String.eqb s "" then "null" else s.

Definition insert_row {R} (ok : bool) (m : gmap string R) (id : string) (r : R) : option (gmap string R) :=
  if negb ok then None else match m !! id with Some _ => None | None => Some (<[id := r]> m) end.
Definition select_row {R} (ok : bool) (m : gmap string R) (id msg : string) : result R :=
  if negb ok then Err msg else match m !! id with Some r => Ok r | None => Err msg end.

(** [ORDER BY created_at DESC]; rows of the same time come as the table yields them. *)
Definition created_before {R} (created : R → Z) (a b : R) : Prop := created b ≤ created a.
#[export] Instance created_before_dec {R} (created : R → Z) : RelDecision (created_before created).
Proof. intros a b. unfold created_before. apply _. Defined.
Definition rows_of {R} (m : gmap string R) : list R := (map_to_list m).*2.
Definition newest_first {R} (created : R → Z) (l : list R) : list R := merge_sort (created_before created) l.

(** [LIMIT] and [OFFSET]; negative numbers are an error. *)
Definition limit_offset {R} (limit offset : Z) (l : list R) : option (list R) :=
  if (limit <? 0) || (offset <? 0) then None
  else Some (take (Z.to_nat limit) (drop (Z.to_nat offset) l)).

(** [AND column=$n], added unless the filter is empty. *)
Definition matches (filter_by column : string) : bool := String.eqb filter_by "" || String.eqb column filter_by.

Definition prefixed (p uuid : string) : string := String.append p uuid.

(** ** Tenants and projects *)
Definition PGStore_CreateTenant (ok : bool) (now : Z) (uuid : string) (d : AdminDB) (t : Tenant)
    : result Tenant * AdminDB :=
  let id := prefixed "t_" uuid in
  let t := mkTenant now now id (tn_Name t) (tn_Description t) in
  match insert_row ok (db_tenants d) id t with
  | Some m => (Ok t, with_tenants d m)
  | None => (Err "insert tenant", d)
  end.
Definition PGStore_GetTenant (ok : bool) (d : AdminDB) (id : string) : result Tenant :=
  select_row ok (db_tenants d) id "get tenant".
Definition PGStore_ListTenants (ok : bool) (d : AdminDB) : result (list Tenant) :=
  if ok then Ok (newest_first tn_CreatedAt (rows_of (db_tenants d))) else Err "list tenants".
Definition PGStore_UpdateTenant (ok : bool) (now : Z) (d : AdminDB) (t : Tenant) : result unit * AdminDB :=
  if negb ok then (Err "update tenant", d)
  else (Ok tt, with_tenants d (alter (λ r, mkTenant (tn_CreatedAt r) now (tn_TenantID r) (tn_Name t) (tn_Description t))
                 (tn_TenantID t) (db_tenants d))).
(** A tenant with projects is protected by their foreign key. *)
Definition PGStore_DeleteTenant (ok : bool) (d : AdminDB) (id : string) : result unit * AdminDB :=
  if negb ok || bool_decide (id ∈ pj_TenantID <$> rows_of (db_projects d)) then (Err "delete tenant", d)
  else (Ok tt, with_tenants d (delete id (db_tenants d))).

Definition PGStore_CreateProject (ok : bool) (now : Z) (uuid : string) (d : AdminDB) (p : Project)
    : result Project * AdminDB :=
  let id := prefixed "p_" uuid in
  let p := mkProject now now id (pj_TenantID p) (pj_Name p) (pj_Description p) in
  match db_tenants d !! pj_TenantID p, insert_row ok (db_projects d) id p with
  | Some _, Some m => (Ok p, with_projects d m)
  | _, _ => (Err "insert project", d)
  end.
Definition PGStore_GetProject (ok : bool) (d : AdminDB) (id : string) : result Project :=
  select_row ok (db_projects d) id "get project".
Definition PGStore_ListProjects (ok : bool) (d : AdminDB) (tenantID : string) : result (list Project) :=
  if ok then Ok (newest_first pj_CreatedAt (filter (λ p, pj_TenantID p = tenantID) (rows_of (db_projects d))))
  else Err "list projects".
Definition PGStore_UpdateProject (ok : bool) (now : Z) (d : AdminDB) (p : Project) : result unit * AdminDB :=
  if negb ok then (Err "update project", d)
  else (Ok tt, with_projects d (alter (λ r, mkProject (pj_CreatedAt r) now (pj_ProjectID r) (pj_TenantID r)
                 (pj_Name p) (pj_Description p)) (pj_ProjectID p) (db_projects d))).
Definition PGStore_DeleteProject (ok : bool) (d : AdminDB) (id : string) : result unit * AdminDB :=
  if negb ok then (Err "delete project", d) else (Ok tt, with_projects d (delete id (db_projects d))).

(** ** Users *)
Definition PGStore_CreateUser (ok : bool) (now : Z) (uuid : string) (d : AdminDB) (u : User) (passwordHash : string)
    : result User * AdminDB :=
  let id := prefixed "u_" uuid in
  let u := mkUser now now id (us_TenantID u) (us_Email u) (us_DisplayName u) (us_Roles u) (us_MustChange u) in
  if bool_decide (us_Email u ∈ (us_Email ∘ ur_User) <$> rows_of (db_users d)) then (Err "insert user", d)
  else
    match insert_row ok (db_users d) id (mkUserRow u passwordHash "") with
    | Some m => (Ok u, with_users d m)
    | None => (Err "insert user", d)
    end.
Definition PGStore_GetUserByEmail (ok : bool) (d : AdminDB) (email : string) : result (User * string) :=
  if negb ok then Err "get user by email"
  else match filter (λ r, us_Email (ur_User r) = email) (rows_of (db_users d)) with
       | r :: _ => Ok (ur_User r, ur_passwordHash r)
       | [] => Err "get user by email"
       end.
Definition PGStore_GetUser (ok : bool) (d : AdminDB) (id : string) : result User :=
  let! r := select_row ok (db_users d) id "get user" in Ok (ur_User r).
Definition PGStore_ListUsers (ok : bool) (d : AdminDB) (tenantID : string) : result (list User) :=
  if ok then Ok (newest_first us_CreatedAt (filter (λ u, us_TenantID u = tenantID) (ur_User <$> rows_of (db_users d))))
  else Err "list users".
Definition update_user (ok : bool) (d : AdminDB) (id : string) (f : userRow → userRow) : result unit * AdminDB :=
  if negb ok then (Err "update user", d) else (Ok tt, with_users d (alter f id (db_users d))).
Definition touched (now : Z) (u : User) (name : string) (roles : list RoleBinding) (must : bool) : User :=
  mkUser (us_CreatedAt u) now (us_UserID u) (us_TenantID u) (us_Email u) name roles must.
Definition PGStore_UpdateUser (ok : bool) (now : Z) (d : AdminDB) (u : User) : result unit * AdminDB :=
  update_user ok d (us_UserID u) (λ r,
    mkUserRow (touched now (ur_User r) (us_DisplayName u) (us_Roles u) (us_MustChange (ur_User r)))
      (ur_passwordHash r) (ur_refreshHash r)).
Definition PGStore_DeleteUser (ok : bool) (d : AdminDB) (id : string) : result unit * AdminDB :=
  if negb ok then (Err "delete user", d) else (Ok tt, with_users d (delete id (db_users d))).
Definition PGStore_UpdateUserRefreshToken (ok : bool) (now : Z) (d : AdminDB) (id refreshHash : string)
    : result unit * AdminDB :=
  update_user ok d id (λ r,
    mkUserRow (touched now (ur_User r) (us_DisplayName (ur_User r)) (us_Roles (ur_User r)) (us_MustChange (ur_User r)))
      (ur_passwordHash r) refreshHash).
Definition PGStore_UpdateUserPassword (ok : bool) (now : Z) (d : AdminDB) (id hash : string) : result unit * AdminDB :=
  update_user ok d id (λ r,
    mkUserRow (touched now (ur_User r) (us_DisplayName (ur_User r)) (us_Roles (ur_User r)) false)
      hash (ur_refreshHash r)).
Definition PGStore_GetUserPasswordHash (ok : bool) (d : AdminDB) (id : string) : result string :=
  let! r := select_row ok (db_users d) id "get user password hash" in Ok (ur_passwordHash r).
Definition PGStore_GetUserIDByRefreshToken (ok : bool) (d : AdminDB) (refreshHash : string) : result string :=
  if String.eqb refreshHash "" then Err "empty refresh hash"
  else if negb ok then Err "find user by refresh token"
  else match filter (λ kr, ur_refreshHash kr.2 = refreshHash) (map_to_list (db_users d)) with
       | (id, _) :: _ => Ok id
       | [] => Err "find user by refresh token"
       end.

(** ** Policies and their versions *)
Definition PGStore_CreateAdminPolicy (ok : bool) (now : Z) (uuid : string) (d : AdminDB) (p : AdminPolicy)
    : result AdminPolicy * AdminDB :=
  let id := prefixed "pol_" uuid in
  let row content := mkAdminPolicy now now content id (ap_TenantID p) (ap_ProjectID p) (ap_Name p) (ap_Type p) 1
                       (ap_IsPublished p) (ap_Description p) in
  match insert_row ok (db_policies d) id (row (marshal_raw (ap_Content p))) with
  | Some m => (Ok (row (ap_Content p)), with_policies d m (db_versions d))
  | None => (Err "insert admin policy", d)
  end.
Definition PGStore_GetAdminPolicy (ok : bool) (d : AdminDB) (id : string) : result AdminPolicy :=
  select_row ok (db_policies d) id "get admin policy".
Definition PGStore_ListAdminPolicies (ok : bool) (d : AdminDB) (tenantID projectID : string) : result (list AdminPolicy) :=
  if ok then Ok (newest_first ap_CreatedAt (filter (λ p, matches tenantID (ap_TenantID p) && matches projectID (ap_ProjectID p) = true)
                   (rows_of (db_policies d))))
  else Err "list admin policies".
Definition update_policy (ok : bool) (d : AdminDB) (id : string) (f : AdminPolicy → AdminPolicy) : result unit * AdminDB :=
  if negb ok then (Err "update policy", d) else (Ok tt, with_policies d (alter f id (db_policies d)) (db_versions d)).
Definition PGStore_UpdateAdminPolicy (ok : bool) (now : Z) (d : AdminDB) (p : AdminPolicy) : result unit * AdminDB :=
  update_policy ok d (ap_PolicyID p) (λ r,
    mkAdminPolicy (ap_CreatedAt r) now (marshal_raw (ap_Content p)) (ap_PolicyID r) (ap_TenantID r) (ap_ProjectID r)
      (ap_Name p) (ap_Type p) (ap_Version r + 1) (ap_IsPublished r) (ap_Description p)).
Definition PGStore_PublishAdminPolicy (ok : bool) (now : Z) (d : AdminDB) (id : string) : result unit * AdminDB :=
  update_policy ok d id (λ r,
    mkAdminPolicy (ap_CreatedAt r) now (ap_Content r) (ap_PolicyID r) (ap_TenantID r) (ap_ProjectID r)
      (ap_Name r) (ap_Type r) (ap_Version r) true (ap_Description r)).
(** The versions of the policy go with it. *)
Definition PGStore_DeleteAdminPolicy (ok : bool) (d : AdminDB) (id : string) : result unit * AdminDB :=
  if negb ok then (Err "delete policy", d)
  else (Ok tt, with_policies d (delete id (db_policies d)) (filter (λ '(_, v), pv_PolicyID v ≠ id) (db_versions d))).
Definition PGStore_SavePolicyVersion (ok : bool) (now : Z) (uuid : string) (d : AdminDB) (policyID : string)
    (version : Z) (content : string) : result unit * AdminDB :=
  let id := prefixed "pv_" uuid in
  match db_policies d !! policyID,
        insert_row ok (db_versions d) id (mkAdminPolicyVersion now (marshal_raw content) id policyID version) with
  | Some _, Some m => (Ok tt, with_policies d (db_policies d) m)
  | _, _ => (Err "insert policy version", d)
  end.
(** [ORDER BY version DESC]. *)
Definition higher_version (a b : AdminPolicyVersion) : Prop := pv_Version b ≤ pv_Version a.
#[export] Instance higher_version_dec : RelDecision higher_version.
Proof. intros a b. unfold higher_version. apply _. Defined.
Definition PGStore_GetPolicyVersions (ok : bool) (d : AdminDB) (policyID : string) : result (list AdminPolicyVersion) :=
  if ok then Ok (merge_sort higher_version (filter (λ v, pv_PolicyID v = policyID) (rows_of (db_versions d))))
  else Err "list policy versions".
Definition PGStore_RollbackPolicy (ok : bool) (now : Z) (d : AdminDB) (id : string) (version : Z) (content : string)
    : result unit * AdminDB :=
  update_policy ok d id (λ r,
    mkAdminPolicy (ap_CreatedAt r) now (marshal_raw content) (ap_PolicyID r) (ap_TenantID r) (ap_ProjectID r)
      (ap_Name r) (ap_Type r) version true (ap_Description r)).

(** ** Ingresses *)
Definition PGStore_CreateIngress (ok : bool) (now : Z) (uuid : string) (d : AdminDB) (i : Ingress)
    : result Ingress * AdminDB :=
  let id := prefixed "ing_" uuid in
  let row config := mkIngress now now config (in_TenantID i) (in_ProjectID i) id (in_Name i) (in_Type i) (in_Domain i) in
  match insert_row ok (db_ingresses d) id (row (marshal_raw (in_Config i))) with
  | Some m => (Ok (row (in_Config i)), with_ingresses d m)
  | None => (Err "insert ingress", d)
  end.
Definition PGStore_GetIngress (ok : bool) (d : AdminDB) (id : string) : result Ingress :=
  select_row ok (db_ingresses d) id "get ingress".
Definition PGStore_ListIngresses (ok : bool) (d : AdminDB) (tenantID projectID : string) : result (list Ingress) :=
  if ok then Ok (newest_first in_CreatedAt (filter (λ i, matches tenantID (in_TenantID i) && matches projectID (in_ProjectID i) = true)
                   (rows_of (db_ingresses d))))
  else Err "list ingresses".
Definition PGStore_UpdateIngress (ok : bool) (now : Z) (d : AdminDB) (i : Ingress) : result unit * AdminDB :=
  if negb ok then (Err "update ingress", d)
  else (Ok tt, with_ingresses d (alter (λ r, mkIngress (in_CreatedAt r) now (marshal_raw (in_Config i)) (in_TenantID r)
                 (in_ProjectID r) (in_IngressID r) (in_Name i) (in_Type i) (in_Domain i)) (in_IngressID i) (db_ingresses d))).
Definition PGStore_DeleteIngress (ok : bool) (d : AdminDB) (id : string) : result unit * AdminDB :=
  if negb ok then (Err "delete ingress", d) else (Ok tt, with_ingresses d (delete id (db_ingresses d))).

(** ** Tasks *)
Definition PGStore_CreateTask (ok : bool) (now : Z) (uuid : string) (d : AdminDB) (t : Task) : result Task * AdminDB :=
  let id := prefixed "task_" uuid in
  let row params res := mkTask now now params res id (tk_TenantID t) (tk_ProjectID t) (tk_CreatorID t) (tk_Type t)
                          (tk_Status t) (tk_Progress t) (tk_TotalNodes t) (tk_DoneNodes t) in
  match insert_row ok (db_tasks d) id (row (marshal_raw (tk_Params t)) (marshal_raw (tk_Result t))) with
  | Some m => (Ok (row (tk_Params t) (tk_Result t)), with_tasks d m)
  | None => (Err "insert task", d)
  end.
Definition PGStore_GetTask (ok : bool) (d : AdminDB) (id : string) : result Task :=
  select_row ok (db_tasks d) id "get task".
Definition task_matches (tenantID statusFilter taskType : string) (t : Task) : Prop :=
  matches tenantID (tk_TenantID t) && matches statusFilter (task_status_text (tk_Status t))
    && matches taskType (task_type_text (tk_Type t)) = true.
#[export] Instance task_matches_dec a b c t : Decision (task_matches a b c t).
Proof. unfold task_matches. apply _. Defined.
(** [count_ok] and [list_ok]: the two statements. *)
Definition PGStore_ListTasks (count_ok list_ok : bool) (d : AdminDB) (tenantID statusFilter taskType : string)
    (limit offset : Z) : result (list Task * Z) :=
  let rows := filter (task_matches tenantID statusFilter taskType) (rows_of (db_tasks d)) in
  if negb count_ok then Err "count tasks"
  else match limit_offset limit offset (newest_first tk_CreatedAt rows) with
       | Some page => if list_ok then Ok (page, Z.of_nat (length rows)) else Err "list tasks"
       | None => Err "list tasks"
       end.
Definition set_task (now : Z) (st : TaskStatus) (res : string) (progress doneNodes : Z) (t : Task) : Task :=
  mkTask (tk_CreatedAt t) now (tk_Params t) (marshal_raw res) (tk_TaskID t) (tk_TenantID t) (tk_ProjectID t)
    (tk_CreatorID t) (tk_Type t) st progress (tk_TotalNodes t) doneNodes.
Definition PGStore_UpdateTaskStatus (ok : bool) (now : Z) (d : AdminDB) (id : string) (st : TaskStatus) (res : string)
    (progress doneNodes : Z) : result unit * AdminDB :=
  if negb ok then (Err "update task", d)
  else (Ok tt, with_tasks d (alter (set_task now st res progress doneNodes) id (db_tasks d))).

(** ** The audit log *)
Definition PGStore_CreateAuditEvent (ok : bool) (now : Z) (d : AdminDB) (e : AuditEvent) : result unit * AdminDB :=
  if negb ok then (Err "insert audit event", with_audit d (db_audit d))
  else
    let row := mkAuditEvent (of_chars (format_int 10 (db_auditSeq d))) (ae_TenantID e) (ae_ProjectID e) (ae_ActorID e)
      (ae_ActorEmail e) (ae_Action e) (ae_ResourceType e) (ae_ResourceID e) (marshal_raw (ae_Before e))
      (marshal_raw (ae_After e)) (ae_RequestID e) (ae_SourceIP e) (ae_UserAgent e) (ae_Result e) now in
    (Ok tt, with_audit d (db_audit d ++ [row])).

Definition audit_matches (q : AuditQuery) (e : AuditEvent) : Prop :=
  matches (aq_ActorID q) (ae_ActorID e) && matches (aq_Action q) (ae_Action e)
    && matches (aq_ResourceType q) (ae_ResourceType e) && matches (aq_ResourceID q) (ae_ResourceID e)
    && matches (aq_Result q) (ae_Result e) && matches (aq_TenantID q) (ae_TenantID e)
    && matches (aq_ProjectID q) (ae_ProjectID e)
    && match aq_Since q with Some t => t <=? ae_CreatedAt e | None => true end
    && match aq_Until q with Some t => ae_CreatedAt e <=? t | None => true end = true.
#[export] Instance audit_matches_dec q e : Decision (audit_matches q e).
Proof. unfold audit_matches. apply _. Defined.

Definition audit_limit (q : AuditQuery) : Z := if aq_Limit q <=? 0 then 50 else aq_Limit q.
Definition PGStore_QueryAuditEvents (count_ok list_ok : bool) (d : AdminDB) (q : AuditQuery)
    : result (list AuditEvent * Z) :=
  let rows := filter (audit_matches q) (db_audit d) in
  if negb count_ok then Err "count audit events"
  else match limit_offset (audit_limit q) (aq_Offset q) (newest_first ae_CreatedAt rows) with
       | Some page => if list_ok then Ok (page, Z.of_nat (length rows)) else Err "query audit events"
       | None => Err "query audit events"
       end.

(** ** Nodes, as the console sees them *)
Definition node_status_text (s : NodeStatus) : string :=
  match s with
  | NodeStatusRegistered => "REGISTERED" | NodeStatusActive => "ACTIVE" | NodeStatusDegraded => "DEGRADED"
  | NodeStatusQuarantined => "QUARANTINED" | NodeStatusOffline => "OFFLINE" | NodeStatusDisabled => "DISABLED"
  | NodeStatusMaintenance => "MAINTENANCE" | NodeStatusOther s => s
  end.
Definition node_matches (tenantID projectID status region isp : string) (n : Node) : Prop :=
  matches tenantID (n_TenantID n) && matches projectID (n_ProjectID n) && matches status (node_status_text (n_Status n))
    && matches region (n_Region n) && matches isp (n_ISP n) = true.
#[export] Instance node_matches_dec a b c d e n : Decision (node_matches a b c d e n).
Proof. unfold node_matches. apply _. Defined.
Definition PGStore_ListNodes (count_ok list_ok : bool) (s : PGStore) (tenantID status region isp projectID : string)
    (limit offset : Z) : result (list Node * Z) :=
  let rows := filter (node_matches tenantID projectID status region isp) (rows_of (pg_nodes s)) in
  if negb count_ok then Err "count nodes"
  else match limit_offset limit offset (newest_first n_CreatedAt rows) with
       | Some page => if list_ok then Ok (page, Z.of_nat (length rows)) else Err "list nodes"
       | None => Err "list nodes"
       end.
Definition PGStore_ListNodeIDsByTenant (ok : bool) (s : PGStore) (tenantID : string) : result (list string) :=
  if ok then Ok (n_NodeID <$> filter (λ n, n_TenantID n = tenantID) (rows_of (pg_nodes s)))
  else Err "list node ids by tenant".

Record DashboardMetrics := mkDashboardMetrics { dm_OnlineNodes : Z; dm_OfflineNodes : Z; dm_TotalNodes : Z }.
Definition count_nodes (P : Node → bool) (l : list Node) : Z := Z.of_nat (length (filter (λ n, P n = true) l)).
(** An error of the query is dropped; every count is then zero. *)
Definition PGStore_GetDashboardData (ok : bool) (s : PGStore) (tenantID : string) : DashboardMetrics :=
  let rows := filter (λ n, n_TenantID n = tenantID) (rows_of (pg_nodes s)) in
  if negb ok then mkDashboardMetrics 0 0 0
  else mkDashboardMetrics (count_nodes listed rows)
         (count_nodes (λ n, bool_decide (n_Status n = NodeStatusOffline)) rows) (Z.of_nat (length rows)).

(** The columns the console may change, each if it is given. *)
Record NodeAdminPatch := mkNodeAdminPatch {
  np_Labels : option (gmap string string); np_Weight : option Z; np_ProjectID : option string;
  np_TenantID : option string; np_Disabled : option bool; np_DisableReason : option string;
  np_DisableUntil : option Z
}.
Definition patch_row (p : NodeAdminPatch) (now : Z) (n : Node) : Node :=
  mkNode (n_LastSeenAt n) (n_CreatedAt n) now (n_Endpoints n) (n_Capabilities n) (n_Scores n)
    (default (n_Labels n) (np_Labels p)) (n_DisableReason n) (n_MaintainUntil n) (n_NodeID n)
    (default (n_TenantID n) (np_TenantID p)) (default (n_ProjectID n) (np_ProjectID p))
    (n_Name n) (n_Region n) (n_ISP n) (n_ASN n) (n_Status n) (default (n_Weight n) (np_Weight p)).

(** ** References between the tables *)
Record db_wf (d : AdminDB) : Prop := {
  wf_tenant : map_Forall (λ id t, tn_TenantID t = id ∧ has_prefix (to_chars "t_") (to_chars id) = true) (db_tenants d);
  wf_project : map_Forall (λ id p, pj_ProjectID p = id ∧ is_Some (db_tenants d !! pj_TenantID p)) (db_projects d);
  wf_user : map_Forall (λ id r, us_UserID (ur_User r) = id) (db_users d);
  wf_email : ∀ id1 id2 r1 r2, db_users d !! id1 = Some r1 → db_users d !! id2 = Some r2 →
    us_Email (ur_User r1) = us_Email (ur_User r2) → id1 = id2;
  wf_policy : map_Forall (λ id p, ap_PolicyID p = id) (db_policies d);
  wf_version : map_Forall (λ id v, pv_VersionID v = id ∧ is_Some (db_policies d !! pv_PolicyID v)) (db_versions d);
  wf_task : map_Forall (λ id t, tk_TaskID t = id) (db_tasks d)
}.

Lemma elem_of_rows {R} (m : gmap string R) r : r ∈ rows_of m ↔ ∃ id, m !! id = Some r.
Proof.
  unfold rows_of. rewrite list_elem_of_fmap. split.
  - intros ([id r'] & -> & Hin%elem_of_map_to_list). by exists id.
  - intros (id & Hid). exists (id, r). by split; [|apply elem_of_map_to_list].
Qed.

Lemma insert_row_spec {R} ok (m : gmap string R) id r m' :
  insert_row ok m id r = Some m' → m !! id = None ∧ m' = <[id := r]> m.
Proof. unfold insert_row. destruct ok, (m !! id) eqn:E; simpl; try done. by intros [= <-]. Qed.

Lemma newest_first_elem {R} created (l : list R) r : r ∈ newest_first created l ↔ r ∈ l.
Proof. unfold newest_first. by rewrite merge_sort_Permutation. Qed.

Lemma email_taken d email :
  email ∈ (us_Email ∘ ur_User) <$> rows_of (db_users d) ↔
  ∃ id r, db_users d !! id = Some r ∧ us_Email (ur_User r) = email.
Proof.
  rewrite list_elem_of_fmap. split.
  - intros (r & -> & (id & Hid)%elem_of_rows). by exists id, r.
  - intros (id & r & Hid & <-). exists r. split; [done|]. apply elem_of_rows. by exists id.
Qed.

(** The user an e-mail address belongs to. *)
Lemma GetUserByEmail_spec d id r :
  db_wf d → db_users d !! id = Some r →
  PGStore_GetUserByEmail true d (us_Email (ur_User r)) = Ok (ur_User r, ur_passwordHash r).
Proof.
  intros Hwf Hid. unfold PGStore_GetUserByEmail. cbn [negb].
  destruct (filter _ _) as [|r' rest] eqn:E.
  - exfalso. assert (Hin : r ∈ filter (λ r', us_Email (ur_User r') = us_Email (ur_User r)) (rows_of (db_users d))).
    { apply list_elem_of_filter. split; [done|]. apply elem_of_rows. by exists id. }
    rewrite E in Hin. by apply not_elem_of_nil in Hin.
  - assert (Hin : r' ∈ filter (λ r', us_Email (ur_User r') = us_Email (ur_User r)) (rows_of (db_users d))).
    { rewrite E. by left. }
    apply list_elem_of_filter in Hin as [Hem (id' & Hid')%elem_of_rows].
    assert (id' = id) as -> by (by eapply wf_email).
    rewrite Hid in Hid'. by injection Hid' as ->.
Qed.

(** One statement of the console, executed or not. *)
Inductive db_step (d : AdminDB) : AdminDB → Prop :=
| ds_tenant_create ok now uuid t : db_step d (PGStore_CreateTenant ok now uuid d t).2
| ds_tenant_update ok now t : db_step d (PGStore_UpdateTenant ok now d t).2
| ds_tenant_delete ok id : db_step d (PGStore_DeleteTenant ok d id).2
| ds_project_create ok now uuid p : db_step d (PGStore_CreateProject ok now uuid d p).2
| ds_project_update ok now p : db_step d (PGStore_UpdateProject ok now d p).2
| ds_project_delete ok id : db_step d (PGStore_DeleteProject ok d id).2
| ds_user_create ok now uuid u h : db_step d (PGStore_CreateUser ok now uuid d u h).2
| ds_user_update ok now u : db_step d (PGStore_UpdateUser ok now d u).2
| ds_user_delete ok id : db_step d (PGStore_DeleteUser ok d id).2
| ds_user_refresh ok now id h : db_step d (PGStore_UpdateUserRefreshToken ok now d id h).2
| ds_user_password ok now id h : db_step d (PGStore_UpdateUserPassword ok now d id h).2
| ds_policy_create ok now uuid p : db_step d (PGStore_CreateAdminPolicy ok now uuid d p).2
| ds_policy_update ok now p : db_step d (PGStore_UpdateAdminPolicy ok now d p).2
| ds_policy_publish ok now id : db_step d (PGStore_PublishAdminPolicy ok now d id).2
| ds_policy_delete ok id : db_step d (PGStore_DeleteAdminPolicy ok d id).2
| ds_version ok now uuid id v c : db_step d (PGStore_SavePolicyVersion ok now uuid d id v c).2
| ds_rollback ok now id v c : db_step d (PGStore_RollbackPolicy ok now d id v c).2
| ds_ingress_create ok now uuid i : db_step d (PGStore_CreateIngress ok now uuid d i).2
| ds_ingress_update ok now i : db_step d (PGStore_UpdateIngress ok now d i).2
| ds_ingress_delete ok id : db_step d (PGStore_DeleteIngress ok d id).2
| ds_task_create ok now uuid t : db_step d (PGStore_CreateTask ok now uuid d t).2
| ds_task_update ok now id st r p n : db_step d (PGStore_UpdateTaskStatus ok now d id st r p n).2
| ds_audit ok now e : db_step d (PGStore_CreateAuditEvent ok now d e).2.

Lemma map_Forall_alter {R} (P : string → R → Prop) (m : gmap string R) f id :
  map_Forall P m → (∀ r, m !! id = Some r → P id r → P id (f r)) → map_Forall P (alter f id m).
Proof.
  intros Hm Hf id' r. destruct (decide (id = id')) as [->|Hne].
  - rewrite lookup_alter_eq. destruct (m !! id') as [r'|] eqn:E; [|done]. intros [= <-]. by apply Hf; [|apply Hm].
  - rewrite lookup_alter_ne by done. apply Hm.
Qed.

Lemma map_Forall_imp {R} (P Q : string → R → Prop) (m : gmap string R) :
  map_Forall P m → (∀ id r, P id r → Q id r) → map_Forall Q m.
Proof. intros Hm HPQ id r Hid. by apply HPQ, Hm. Qed.

Lemma alter_email f (m : gmap string userRow) id :
  (∀ r, us_Email (ur_User (f r)) = us_Email (ur_User r)) →
  ∀ i r, alter f id m !! i = Some r → ∃ r0, m !! i = Some r0 ∧ us_Email (ur_User r) = us_Email (ur_User r0).
Proof.
  intros Hf i r. destruct (decide (id = i)) as [->|Hne].
  - rewrite lookup_alter_eq. destruct (m !! i) as [r0|]; [|done]. intros [= <-]. by exists r0.
  - rewrite lookup_alter_ne by done. intros Hr. by exists r.
Qed.

Lemma user_update_wf ok d id f :
  (∀ r, us_UserID (ur_User (f r)) = us_UserID (ur_User r) ∧ us_Email (ur_User (f r)) = us_Email (ur_User r)) →
  db_wf d → db_wf (update_user ok d id f).2.
Proof.
  intros Hf []. unfold update_user. destruct ok; simpl; [|by split]. split; simpl; try done.
  - apply map_Forall_alter; [done|]. intros r _ Hr. destruct (Hf r) as [-> _]. exact Hr.
  - intros id1 id2 r1 r2 H1 H2 He.
    destruct (alter_email f _ id (λ r, proj2 (Hf r)) _ _ H1) as (s1 & Hs1 & E1).
    destruct (alter_email f _ id (λ r, proj2 (Hf r)) _ _ H2) as (s2 & Hs2 & E2).
    eapply wf_email0; [exact Hs1|exact Hs2|congruence].
Qed.

Lemma policy_update_wf ok d id f :
  (∀ r, ap_PolicyID (f r) = ap_PolicyID r) → db_wf d → db_wf (update_policy ok d id f).2.
Proof.
  intros Hf []. unfold update_policy. destruct ok; simpl; [|by split]. split; simpl; try done.
  - apply map_Forall_alter; [done|]. intros r _ Hr. by rewrite Hf.
  - eapply map_Forall_imp; [exact wf_version0|]. intros i v [Hv Hp]. split; [done|]. by rewrite lookup_alter_is_Some.
Qed.

Lemma CreateTenant_wf d ok now uuid t : db_wf d → db_wf (PGStore_CreateTenant ok now uuid d t).2.
Proof.
  intros []. unfold PGStore_CreateTenant. destruct (insert_row _ _ _ _) as [m|] eqn:E; simpl; [|by split].
  apply insert_row_spec in E as [Hnew ->]. split; simpl; try done.
  - apply map_Forall_insert_2; [|done]. by split.
  - eapply map_Forall_imp; [exact wf_project0|]. intros i p [Hp [t' Ht']]. split; [done|].
    destruct (decide (pj_TenantID p = prefixed "t_" uuid)) as [Heq|Hne]; [rewrite Heq, lookup_insert_eq; by eexists|].
    rewrite lookup_insert_ne by (intros E; exact (Hne (eq_sym E))). by eexists.
Qed.

Lemma UpdateTenant_wf d ok now t : db_wf d → db_wf (PGStore_UpdateTenant ok now d t).2.
Proof.
  intros []. unfold PGStore_UpdateTenant. destruct ok; simpl; [|by split]. split; simpl; try done.
  - by apply map_Forall_alter.
  - eapply map_Forall_imp; [exact wf_project0|]. intros i p [Hp Ht]. split; [done|]. by rewrite lookup_alter_is_Some.
Qed.

Lemma DeleteTenant_wf d ok id : db_wf d → db_wf (PGStore_DeleteTenant ok d id).2.
Proof.
  intros []. unfold PGStore_DeleteTenant. destruct (_ || _) eqn:E; simpl; [by split|].
  apply orb_false_elim in E as [_ E]. apply bool_decide_eq_false_1 in E. split; simpl; try done.
  - by apply map_Forall_delete.
  - intros i p Hp. destruct (wf_project0 i p Hp) as [Hid Ht]. split; [done|].
    rewrite lookup_delete_ne; [done|]. intros ->. apply E, list_elem_of_fmap. exists p. split; [done|].
    apply elem_of_rows. by exists i.
Qed.

Lemma CreateProject_wf d ok now uuid p : db_wf d → db_wf (PGStore_CreateProject ok now uuid d p).2.
Proof.
  intros []. unfold PGStore_CreateProject. cbn [pj_TenantID]. destruct (db_tenants d !! pj_TenantID p) eqn:Et; simpl; [|by split].
  destruct (insert_row _ _ _ _) as [m|] eqn:E; simpl; [|by split].
  apply insert_row_spec in E as [Hnew ->]. split; simpl; try done.
  apply map_Forall_insert_2; [|done]. split; [done|]. by eexists.
Qed.

Lemma UpdateProject_wf d ok now p : db_wf d → db_wf (PGStore_UpdateProject ok now d p).2.
Proof.
  intros []. unfold PGStore_UpdateProject. destruct ok; simpl; [|by split]. split; simpl; try done. by apply map_Forall_alter.
Qed.

Lemma DeleteProject_wf d ok id : db_wf d → db_wf (PGStore_DeleteProject ok d id).2.
Proof.
  intros []. unfold PGStore_DeleteProject. destruct ok; simpl; [|by split]. split; simpl; try done. by apply map_Forall_delete.
Qed.

Lemma CreateUser_wf d ok now uuid u h : db_wf d → db_wf (PGStore_CreateUser ok now uuid d u h).2.
Proof.
  intros []. unfold PGStore_CreateUser. cbn [us_Email]. destruct (bool_decide _) eqn:Em; simpl; [by split|].
  destruct (insert_row _ _ _ _) as [m|] eqn:E; simpl; [|by split].
  apply insert_row_spec in E as [Hnew ->]. apply bool_decide_eq_false_1 in Em. split; simpl; try done.
  - by apply map_Forall_insert_2.
  - rewrite email_taken in Em.
    intros id1 id2 r1 r2 [[<- <-]|[Hn1 H1]]%lookup_insert_Some [[<- <-]|[Hn2 H2]]%lookup_insert_Some He; cbn in He.
    + done.
    + exfalso. apply Em. by exists id2, r2.
    + exfalso. apply Em. by exists id1, r1.
    + by eapply wf_email0.
Qed.

Lemma DeleteUser_wf d ok id : db_wf d → db_wf (PGStore_DeleteUser ok d id).2.
Proof.
  intros []. unfold PGStore_DeleteUser. destruct ok; simpl; [|by split]. split; simpl; try done.
  - by apply map_Forall_delete.
  - intros id1 id2 r1 r2 [_ H1]%lookup_delete_Some [_ H2]%lookup_delete_Some. by eapply wf_email0.
Qed.

Lemma CreateAdminPolicy_wf d ok now uuid p : db_wf d → db_wf (PGStore_CreateAdminPolicy ok now uuid d p).2.
Proof.
  intros []. unfold PGStore_CreateAdminPolicy. destruct (insert_row _ _ _ _) as [m|] eqn:E; simpl; [|by split].
  apply insert_row_spec in E as [Hnew ->]. split; simpl; try done.
  - by apply map_Forall_insert_2.
  - eapply map_Forall_imp; [exact wf_version0|]. intros i v [Hv Hp]. split; [done|]. by apply lookup_insert_is_Some'; right.
Qed.

Lemma DeleteAdminPolicy_wf d ok id : db_wf d → db_wf (PGStore_DeleteAdminPolicy ok d id).2.
Proof.
  intros []. unfold PGStore_DeleteAdminPolicy. destruct ok; simpl; [|by split]. split; simpl; try done.
  - by apply map_Forall_delete.
  - intros i v [Hv Hne]%map_lookup_filter_Some. destruct (wf_version0 i v Hv) as [Hi Hp]. split; [done|].
    by rewrite lookup_delete_ne by done.
Qed.

Lemma SavePolicyVersion_wf d ok now uuid id v c : db_wf d → db_wf (PGStore_SavePolicyVersion ok now uuid d id v c).2.
Proof.
  intros []. unfold PGStore_SavePolicyVersion. destruct (db_policies d !! id) eqn:Ep; simpl; [|by split].
  destruct (insert_row _ _ _ _) as [m|] eqn:E; simpl; [|by split].
  apply insert_row_spec in E as [Hnew ->]. split; simpl; try done.
  apply map_Forall_insert_2; [|done]. split; [done|]. by eexists.
Qed.

Lemma CreateIngress_wf d ok now uuid i : db_wf d → db_wf (PGStore_CreateIngress ok now uuid d i).2.
Proof.
  intros []. unfold PGStore_CreateIngress. destruct (insert_row _ _ _ _); by split.
Qed.

Lemma UpdateIngress_wf d ok now i : db_wf d → db_wf (PGStore_UpdateIngress ok now d i).2.
Proof.
  intros []. unfold PGStore_UpdateIngress. destruct ok; by split.
Qed.

Lemma DeleteIngress_wf d ok id : db_wf d → db_wf (PGStore_DeleteIngress ok d id).2.
Proof.
  intros []. unfold PGStore_DeleteIngress. destruct ok; by split.
Qed.

Lemma CreateTask_wf d ok now uuid t : db_wf d → db_wf (PGStore_CreateTask ok now uuid d t).2.
Proof.
  intros []. unfold PGStore_CreateTask. destruct (insert_row _ _ _ _) as [m|] eqn:E; simpl; [|by split].
  apply insert_row_spec in E as [Hnew ->]. split; simpl; try done. by apply map_Forall_insert_2.
Qed.

Lemma UpdateTaskStatus_wf d ok now id st r p n : db_wf d → db_wf (PGStore_UpdateTaskStatus ok now d id st r p n).2.
Proof.
  intros []. unfold PGStore_UpdateTaskStatus. destruct ok; simpl; [|by split]. split; simpl; try done. by apply map_Forall_alter.
Qed.

Lemma CreateAuditEvent_wf d ok now e : db_wf d → db_wf (PGStore_CreateAuditEvent ok now d e).2.
Proof.
  intros []. unfold PGStore_CreateAuditEvent. destruct ok; by split.
Qed.

Create HintDb admin.
#[export] Hint Resolve CreateTenant_wf UpdateTenant_wf DeleteTenant_wf CreateProject_wf UpdateProject_wf DeleteProject_wf CreateUser_wf DeleteUser_wf CreateAdminPolicy_wf DeleteAdminPolicy_wf SavePolicyVersion_wf CreateIngress_wf UpdateIngress_wf DeleteIngress_wf CreateTask_wf UpdateTaskStatus_wf CreateAuditEvent_wf : admin.

Lemma db_steps_wf d d' : rtc db_step d d' → db_wf d → db_wf d'.
Proof.
  induction 1 as [d|d d' d'' Hs _ IH]; [done|]. intros Hwf. apply IH. clear IH.
  destruct Hs; auto with admin; (apply user_update_wf || apply policy_update_wf); done.
Qed.

(** C16 (type): Whatever statements the console executes, and whichever of them the database
    refuses, the tables stay consistent: a row is stored under its own key, an e-mail address
    belongs to one user, every project refers to a tenant, every version to a policy, and
    the key of every tenant is a generated one. *)
Theorem admin_tables_consistent d : rtc db_step empty_db d → db_wf d.
Proof. intros Hr. by apply (db_steps_wf _ _ Hr). Qed.

(** ** A concrete run *)
Definition demo_db : AdminDB :=
  let d := (PGStore_CreateTenant true 1 "0000000a" empty_db (mkTenant 0 0 "" "Acme" "")).2 in
  let d := (PGStore_CreateProject true 2 "0000000b" d (mkProject 0 0 "" "t_0000000a" "Videos" "")).2 in
  (PGStore_CreateUser true 3 "0000000c" d (mkUser 0 0 "" "t_0000000a" "ann@acme.example" "Ann" [] false) "$secret").2.
Lemma demo_db_reached : rtc db_step empty_db demo_db.
Proof. eapply rtc_l; [apply ds_tenant_create|]. eapply rtc_l; [apply ds_project_create|]. eapply rtc_l; [apply ds_user_create|]. apply rtc_refl. Qed.

(** The tenant of a project cannot be deleted. *)
Lemma admin_tables_consistent_witness :
  db_wf demo_db ∧ (PGStore_DeleteTenant true demo_db "t_0000000a").1 = Err "delete tenant".
Proof.
  split; [|vm_compute; reflexivity]. apply admin_tables_consistent. exact demo_db_reached.
Defined.
