(* ===== verification/ConfigManager.v ===== *)
(** * The global configuration ([internal/controlplane/config_manager.go])

    Handlers of the scheduler: they show and change the small-bandwidth settings it decides
    by, keep a copy in Redis, and push prewarm requests to the nodes of the node list cache.
    A goroutine of [handleAdminPrewarm] is one entry of [outcomes]; [finish] is the order in
    which they append their results.

    The theorems: which fields of a configuration take effect and which are lost; a prewarm
    request reports every target once, but a target whose address does not parse ends the
    process; the dashboard never shows an offline node. *)

From S2P Require Import Prelude GoStrings Models NodeCache NodeLifecycle Scheduler AdminTables.

(** ** Configuration *)
Record sbConfig := mkSbConfig {
  sb_Enabled : bool; sb_SmallBandwidthThreshold : Z; sb_P2PEnabled : bool; sb_PrefetchEnabled : bool;
  sb_PrefetchWorkers : Z; sb_PrefetchBandwidthLimit : Z
}.

Record SmallBandwidthConfig := mkSmallBandwidthConfig { gsb_Enabled : bool; gsb_Threshold : Z }.
Record P2PConfig := mkP2PConfig {
  p2p_Enabled : bool; p2p_DiscoveryIntervalSec : Z; p2p_MaxPeers : Z; p2p_BandwidthLimitMbps : Z
}.
Record NightModeConfig := mkNightModeConfig { nm_Start : string; nm_End : string; nm_BandwidthLimitMbps : Z }.
Record DayModeConfig := mkDayModeConfig { dm_BandwidthLimitMbps : Z; dm_MinPriority : Z }.
Record PrefetchConfig := mkPrefetchConfig {
  pc_Enabled : bool; pc_NightMode : NightModeConfig; pc_DayMode : DayModeConfig
}.
Record OriginFetchConfig := mkOriginFetchConfig {
  of_BandwidthPercent : Z; of_MaxConcurrent : Z; of_TimeoutSec : Z; of_Priority : list string
}.
Record GlobalConfig := mkGlobalConfig {
  gc_SmallBandwidth : SmallBandwidthConfig; gc_P2P : P2PConfig; gc_Prefetch : PrefetchConfig;
  gc_OriginFetch : OriginFetchConfig
}.

Record P2PTopologyNode := mkP2PTopologyNode {
  tpn_NodeID : string; tpn_Name : string; tpn_BandwidthMbps : Z; tpn_IsSmallBandwidth : bool; tpn_Status : NodeStatus
}.
Record nodeResult := mkNodeResult { nr_NodeID : string; nr_Status : string }.

Inductive configReply :=
| CError (status : Z) (text : string)
| CConfig (cfg : GlobalConfig)
| CStatus (status : string)
| CTopology (nodes : list P2PTopologyNode)
| CDashboard (m : DashboardMetrics)
| CPrewarm (keys_total nodes_pushed : Z) (results : list nodeResult).

Record ConfigState := mkConfigState {
  cs_sb : sbConfig;
  cs_redis : option GlobalConfig;   (* what the key [edf:global:config] holds *)
  cs_cache : NodeCache
}.
Definition set_sb (st : ConfigState) (sb : sbConfig) : ConfigState := mkConfigState sb (cs_redis st) (cs_cache st).
Definition SaveGlobalConfig (ok : bool) (st : ConfigState) (cfg : GlobalConfig) : ConfigState :=
  if ok then mkConfigState (cs_sb st) (Some cfg) (cs_cache st) else st.

(** The literal of both [handleAdminGetConfig] and [handleAdminApplyConfig]. *)
Definition shown_config (sb : sbConfig) : GlobalConfig :=
  mkGlobalConfig
    (mkSmallBandwidthConfig (sb_Enabled sb) (sb_SmallBandwidthThreshold sb))
    (mkP2PConfig (sb_P2PEnabled sb) 60 10 20)
    (mkPrefetchConfig (sb_PrefetchEnabled sb)
       (mkNightModeConfig "01:00" "07:00" (sb_PrefetchBandwidthLimit sb))
       (mkDayModeConfig (sb_PrefetchBandwidthLimit sb) 8))
    (mkOriginFetchConfig 80 5 30 ["p2p"; "origin"]).

Definition handleAdminGetConfig (st : ConfigState) : configReply * ConfigState := (CConfig (shown_config (cs_sb st)), st).

(** [body]: the decoded configuration, [None] if decoding fails. *)
Definition handleAdminUpdateConfig (redis_ok : bool) (st : ConfigState) (body : option GlobalConfig)
    : configReply * ConfigState :=
  match body with
  | None => (CError 400 "invalid request body", st)
  | Some cfg =>
      let sb := cs_sb st in
      let threshold := gsb_Threshold (gc_SmallBandwidth cfg) in
      let sb := mkSbConfig (gsb_Enabled (gc_SmallBandwidth cfg))
                  (if 0 <? threshold then threshold else sb_SmallBandwidthThreshold sb)
                  (p2p_Enabled (gc_P2P cfg)) (pc_Enabled (gc_Prefetch cfg))
                  (sb_PrefetchWorkers sb) (sb_PrefetchBandwidthLimit sb) in
      (CStatus "ok", SaveGlobalConfig redis_ok (set_sb st sb) cfg)
  end.

Definition handleAdminApplyConfig (redis_ok : bool) (st : ConfigState) : configReply * ConfigState :=
  (CStatus "applied", SaveGlobalConfig redis_ok st (shown_config (cs_sb st))).

(** ** Nodes *)
Definition small_node (threshold : Z) (n : Node) : bool :=
  let bw := cap_MaxUplinkMbps (n_Capabilities n) in (0 <? bw) && (bw <? threshold).
Definition topology_node (threshold : Z) (n : Node) : P2PTopologyNode :=
  mkP2PTopologyNode (n_NodeID n) (n_Name n) (cap_MaxUplinkMbps (n_Capabilities n)) (small_node threshold n) (n_Status n).

(** [db] is the answer of [ListActiveNodes], [now] and [now'] the times around it. *)
Definition active_nodes (now : Z) (db : result (list Node)) (now' : Z) (st : ConfigState)
    : result (list Node) * ConfigState :=
  let '(r, c) := NodeCache_GetActiveNodes (cs_cache st) now db now' in (r, mkConfigState (cs_sb st) (cs_redis st) c).

Definition handleAdminP2PTopology (now : Z) (db : result (list Node)) (now' : Z) (st : ConfigState)
    : configReply * ConfigState :=
  let '(r, st) := active_nodes now db now' st in
  (match r with
   | Ok nodes => CTopology (topology_node (sb_SmallBandwidthThreshold (cs_sb st)) <$> nodes)
   | _ => CError 500 "internal error"
   end, st).

Definition is_online (n : Node) : bool :=
  bool_decide (n_Status n = NodeStatusActive) || bool_decide (n_Status n = NodeStatusDegraded).
Definition handleAdminDashboard (now : Z) (db : result (list Node)) (now' : Z) (st : ConfigState)
    : configReply * ConfigState :=
  let '(r, st) := active_nodes now db now' st in
  (match r with
   | Ok nodes => CDashboard (mkDashboardMetrics (count_nodes is_online nodes)
                    (count_nodes (λ n, bool_decide (n_Status n = NodeStatusOffline)) nodes) (Z.of_nat (length nodes)))
   | _ => CError 500 "internal error"
   end, st).

(** *** Prewarming *)
Definition prewarm_target (nodeID : string) (n : Node) : bool :=
  negb (negb (String.eqb nodeID "") && negb (String.eqb (n_NodeID n) nodeID))
    && is_online n && negb (bool_decide (n_Endpoints n = [])).

Section prewarm.
(** [http.NewRequestWithContext] accepts the address; the node accepts the connection. *)
Context (url_ok : string → bool) (connects : string → bool).

Definition push_address (n : Node) : string :=
  match n_Endpoints n with e :: _ => String.append (Endpoint_URL e) "/internal/push/prewarm" | [] => "" end.

(** One goroutine.  The error of the request is dropped and its header written to: a [nil]
    request is a run-time panic, outside of any [recover]. *)
Definition push_prewarm (n : Node) : result nodeResult :=
  if negb (url_ok (push_address n)) then Panic
  else Ok (mkNodeResult (n_NodeID n) (if connects (push_address n) then "pushed" else "failed")).

Fixpoint join_results (l : list (result nodeResult)) : result (list nodeResult) :=
  match l with
  | [] => Ok []
  | r :: l => let! x := r in let! xs := join_results l in Ok (x :: xs)
  end.

(** [post]: the method is POST; [body]: the keys and the node, [None] if it does not decode. *)
Definition handleAdminPrewarm (post : bool) (body : option (list string * string))
    (finish : list nodeResult → list nodeResult) (now : Z) (db : result (list Node)) (now' : Z) (st : ConfigState)
    : result configReply * ConfigState :=
  if negb post then (Ok (CError 405 "method not allowed"), st)
  else
    match body with
    | None | Some ([], _) => (Ok (CError 400 "invalid request"), st)
    | Some (keys, nodeID) =>
        let '(r, st) := active_nodes now db now' st in
        match r with
        | Ok nodes =>
            let outcomes := push_prewarm <$> filter (λ n, prewarm_target nodeID n = true) nodes in
            ((let! results := join_results outcomes in
              Ok (CPrewarm (Z.of_nat (length keys)) (Z.of_nat (length results)) (finish results))), st)
        | _ => (Ok (CError 500 "internal error"), st)
        end
    end.
End prewarm.

(** ** What a configuration does *)

(** The settings the scheduler decides by ([Scheduler.SchedConfig]). *)
Definition sched_settings (sb : sbConfig) (cfg : SchedConfig) : SchedConfig :=
  mkSchedConfig (cfg_MaxCandidates cfg) (cfg_DefaultTTLMs cfg) (cfg_DegradeToOrigin cfg) (cfg_OriginURL cfg)
    (cfg_HotContentAwareWeight cfg) (cfg_ContentAwareWeight cfg) (sb_Enabled sb) (sb_SmallBandwidthThreshold sb).

(** An accepted configuration changes the scheduler in its switch and, if it
    is positive, its threshold, and what is shown in these and in the two other switches;
    everything else of it, the limits of the peer-to-peer network, the prefetch hours and the
    origin settings, is shown as before, is never read again, and is overwritten in Redis by
    the next apply; a restart, which starts from [sb0], forgets the configuration. *)
Theorem config_update_effect redis_ok st cfg sb0 sched :
  let st' := (handleAdminUpdateConfig redis_ok st (Some cfg)).2 in
  let threshold := gsb_Threshold (gc_SmallBandwidth cfg) in
  let threshold' := if 0 <? threshold then threshold else sb_SmallBandwidthThreshold (cs_sb st) in
  cfg_SB_Enabled (sched_settings (cs_sb st') sched) = gsb_Enabled (gc_SmallBandwidth cfg) ∧
  cfg_SB_Threshold (sched_settings (cs_sb st') sched) = threshold' ∧
  (handleAdminGetConfig st').1 =
    CConfig (mkGlobalConfig (mkSmallBandwidthConfig (gsb_Enabled (gc_SmallBandwidth cfg)) threshold')
      (mkP2PConfig (p2p_Enabled (gc_P2P cfg)) 60 10 20)
      (mkPrefetchConfig (pc_Enabled (gc_Prefetch cfg)) (pc_NightMode (gc_Prefetch (shown_config (cs_sb st))))
         (pc_DayMode (gc_Prefetch (shown_config (cs_sb st)))))
      (gc_OriginFetch (shown_config (cs_sb st)))) ∧
  (redis_ok = true → cs_redis st' = Some cfg) ∧
  CConfig <$> cs_redis (handleAdminApplyConfig true st').2 = Some (handleAdminGetConfig st').1 ∧
  (handleAdminGetConfig (mkConfigState sb0 (cs_redis st') (cs_cache st'))).1 = CConfig (shown_config sb0).
Proof. by destruct redis_ok. Qed.

Lemma count_nodes_none P l : (∀ n, n ∈ l → P n = false) → count_nodes P l = 0.
Proof.
  intros HP. unfold count_nodes. enough (filter (λ n, P n = true) l = []) as -> by done.
  induction l as [|n l IH]; [done|]. rewrite filter_cons_False; [apply IH; intros m Hm; apply HP; by right|].
  rewrite (HP n); [done|by left].
Qed.
Lemma count_nodes_all P l : (∀ n, n ∈ l → P n = true) → count_nodes P l = Z.of_nat (length l).
Proof.
  intros HP. unfold count_nodes. enough (filter (λ n, P n = true) l = l) as -> by done.
  induction l as [|n l IH]; [done|]. rewrite filter_cons_True; [f_equal; apply IH; intros m Hm; apply HP; by right|].
  apply HP. by left.
Qed.

Lemma listed_online db_ok pg nodes n :
  PGStore_ListActiveNodes db_ok pg = Ok nodes → n ∈ nodes → is_online n = true.
Proof.
  unfold PGStore_ListActiveNodes. destruct db_ok; [|done]. cbn [negb]. intros [= <-].
  intros (m & -> & [Hl _]%list_elem_of_filter)%list_elem_of_fmap. exact Hl.
Qed.

(** The dashboard of the scheduler counts the nodes of the node list cache, which holds no
    offline ones: every node it counts is online, and an outage of nodes shows as a smaller
    total. *)
Theorem dashboard_never_offline now now' db_ok pg st nodes :
  NodeCache_fresh (cs_cache st) now = None → PGStore_ListActiveNodes db_ok pg = Ok nodes →
  (handleAdminDashboard now (PGStore_ListActiveNodes db_ok pg) now' st).1 =
    CDashboard (mkDashboardMetrics (Z.of_nat (length nodes)) 0 (Z.of_nat (length nodes))).
Proof.
  intros Hf Hdb. unfold handleAdminDashboard, active_nodes, NodeCache_GetActiveNodes. rewrite Hf, Hdb. cbn [fst].
  rewrite count_nodes_all, count_nodes_none; [done|..]; intros n Hn; pose proof (listed_online db_ok pg nodes n Hdb Hn) as Ho; [|done].
  unfold is_online in Ho. apply bool_decide_eq_false_2. intros E. by rewrite E in Ho.
Qed.

Section prewarm_laws.
Context (url_ok : string → bool) (connects : string → bool).

Lemma join_results_ok l rs : l = Ok <$> rs → join_results l = Ok rs.
Proof. intros ->. induction rs as [|r rs IH]; [done|]. cbn. rewrite IH. done. Qed.

Lemma push_results_ok l :
  Forall (λ n, url_ok (push_address n) = true) l →
  join_results (push_prewarm url_ok connects <$> l) =
    Ok ((λ n, mkNodeResult (n_NodeID n) (if connects (push_address n) then "pushed" else "failed")) <$> l).
Proof.
  intros Hl. apply join_results_ok. induction Hl as [|n l Hn Hl IH]; [done|].
  cbn [fmap list_fmap]. f_equal; [|exact IH]. unfold push_prewarm. by rewrite Hn.
Qed.

Lemma push_results_panic l n :
  n ∈ l → url_ok (push_address n) = false → join_results (push_prewarm url_ok connects <$> l) = Panic.
Proof.
  intros Hn Hbad. induction l as [|m l IH]; [by apply not_elem_of_nil in Hn|].
  cbn [fmap list_fmap join_results]. apply elem_of_cons in Hn as [<-|Hn].
  - unfold push_prewarm at 1. by rewrite Hbad.
  - unfold push_prewarm at 1. destruct (negb _); [done|]. cbn [result_bind]. rewrite IH by done. done.
Qed.

(** A prewarm request sends the keys once to every active node of the list that
    matches and has an endpoint, and reports each of them once, as pushed exactly if the
    node accepted the connection; but if the address of one of them does not parse, which
    nothing prevents at registration, the goroutine writes to a nil request and the process
    ends. *)
Theorem prewarm_reports_targets keys nodeID finish now db now' st nodes :
  keys ≠ [] → (∀ l, finish l ≡ₚ l) → (active_nodes now db now' st).1 = Ok nodes →
  let targets := filter (λ n, prewarm_target nodeID n = true) nodes in
  let r := (handleAdminPrewarm url_ok connects true (Some (keys, nodeID)) finish now db now' st).1 in
  (Forall (λ n, url_ok (push_address n) = true) targets →
     ∃ results, r = Ok (CPrewarm (Z.of_nat (length keys)) (Z.of_nat (length targets)) results) ∧
       results ≡ₚ (λ n, mkNodeResult (n_NodeID n) (if connects (push_address n) then "pushed" else "failed")) <$> targets) ∧
  ((∃ n, n ∈ targets ∧ url_ok (push_address n) = false) → r = Panic).
Proof.
  intros Hk Hf Ha. unfold handleAdminPrewarm. cbn [negb].
  destruct keys as [|k keys]; [done|]. destruct (active_nodes now db now' st) as [res st'] eqn:E. cbn [fst] in Ha.
  rewrite Ha. cbn [fst]. split.
  - intros Hok. rewrite push_results_ok by exact Hok. cbn [result_bind]. rewrite length_fmap.
    eexists. split; [reflexivity|]. apply Hf.
  - intros (n & Hn & Hbad). by rewrite (push_results_panic _ n).
Qed.
End prewarm_laws.

(** ** A concrete run *)
Definition demo_target (id host : string) : Node :=
  mkNode 0 0 0 [mkEndpoint "http" host 80] (n_Capabilities (demo_node "")) zero_scores ∅ "" None id "" "" id "" "" ""
    NodeStatusActive 100.
Definition demo_config_state : ConfigState :=
  mkConfigState (mkSbConfig true 50 true true 2 20) None (NewNodeCache 30).
Definition demo_url_ok (u : string) : bool := negb (String.eqb u "http://bad host:80/internal/push/prewarm").

Lemma prewarm_reports_targets_witness :
  (∃ results, (handleAdminPrewarm demo_url_ok (λ _, true) true (Some (["k"], "")) id 0
      (Ok [demo_target "n1" "10.0.0.1"]) 1 demo_config_state).1 = Ok (CPrewarm 1 1 results) ∧
      results ≡ₚ [mkNodeResult "n1" "pushed"]) ∧
  (handleAdminPrewarm demo_url_ok (λ _, true) true (Some (["k"], "")) id 0
      (Ok [demo_target "n1" "10.0.0.1"; demo_target "n2" "bad host"]) 1 demo_config_state).1 = Panic.
Proof.
  split.
  - apply (prewarm_reports_targets demo_url_ok (λ _, true) ["k"] "" id 0 (Ok [demo_target "n1" "10.0.0.1"]) 1
      demo_config_state [demo_target "n1" "10.0.0.1"]); [done|done|reflexivity|].
    constructor; [vm_compute; reflexivity|constructor].
  - apply (prewarm_reports_targets demo_url_ok (λ _, true) ["k"] "" id 0
      (Ok [demo_target "n1" "10.0.0.1"; demo_target "n2" "bad host"]) 1
      demo_config_state [demo_target "n1" "10.0.0.1"; demo_target "n2" "bad host"]); [done|done|reflexivity|].
    exists (demo_target "n2" "bad host"). split; [by right; left|vm_compute; reflexivity].
Defined.
