(* ===== verification/TenantRateLimit.v ===== *)
(** * The request limit of a tenant ([internal/controlplane/tenant_ratelimit.go])

    A token bucket per tenant in a Redis hash that expires ten seconds after its last use.
    The Lua script is one atomic step; its numbers are [float64]s, and what it stores reads
    back exactly ([%.17g]).  [nowMs] is the clock of the instance that calls, [rnow] the one
    of Redis, both in milliseconds.

    The theorems: buckets are independent; a tenant is admitted whenever its bucket is new
    or has expired, and when Redis fails, so a client that names a new tenant each time is
    never limited. *)

From S2P Require Import Prelude GoFloat GoStrings.

Record tenantLimit := mkTenantLimit { tl_ReqPerSec : Z; tl_Burst : Z }.
Definition defaultReqPerSec : Z := 100.
Definition defaultBurst : Z := 200.

(** A hash: its two fields, and when it expires. *)
Record bucket := mkBucket { bk_tokens : float64; bk_last_refill : Z; bk_expire : Z }.

Record TenantRateLimiter := mkTenantRateLimiter {
  trl_limits : gmap string tenantLimit;
  trl_rdb : gmap string bucket
}.
Definition NewTenantRateLimiter (rdb : gmap string bucket) : TenantRateLimiter := mkTenantRateLimiter ∅ rdb.
Definition TenantRateLimiter_SetLimit (l : TenantRateLimiter) (tenantID : string) (reqPerSec burst : Z) : TenantRateLimiter :=
  mkTenantRateLimiter (<[tenantID := mkTenantLimit reqPerSec burst]> (trl_limits l)) (trl_rdb l).
Definition TenantRateLimiter_getLimit (l : TenantRateLimiter) (tenantID : string) : Z * Z :=
  match trl_limits l !! tenantID with
  | Some t => (tl_ReqPerSec t, tl_Burst t)
  | None => (defaultReqPerSec, defaultBurst)
  end.

Definition fone : float64 := float_of_Z 1.
(** [math.min(a, b)] of Lua. *)
Definition lua_min (a b : float64) : float64 := if fltb b a then b else a.

(** The bucket the script finds. *)
Definition live_bucket (rdb : gmap string bucket) (key : string) (rnow : Z) : option bucket :=
  match rdb !! key with Some b => if rnow <? bk_expire b then Some b else None | None => None end.

Definition rateLimitScript (rdb : gmap string bucket) (key : string) (rate burst nowMs rnow : Z)
    : Z * gmap string bucket :=
  let '(tokens, last) :=
    match live_bucket rdb key rnow with
    | Some b => (bk_tokens b, bk_last_refill b)
    | None => (float_of_Z burst, nowMs)
    end in
  let elapsed := nowMs - last in
  let '(tokens, last) :=
    if 0 <? elapsed then
      let refill := fdiv (fmul (float_of_Z elapsed) (float_of_Z rate)) (float_of_Z 1000) in
      (lua_min (float_of_Z burst) (fadd tokens refill), nowMs)
    else (tokens, last) in
  let store tokens := <[key := mkBucket tokens last (rnow + 10000)]> rdb in
  if fleb fone tokens then (1, store (fsub tokens fone)) else (0, store tokens).

Definition tenant_key (tenantID : string) : string := String.append "rl:tenant:" tenantID.

Definition TenantRateLimiter_Allow (redis_ok : bool) (nowMs rnow : Z) (l : TenantRateLimiter) (tenantID : string)
    : bool * TenantRateLimiter :=
  let '(reqPerSec, burst) := TenantRateLimiter_getLimit l tenantID in
  if negb redis_ok then (true, l)
  else
    let '(allowed, rdb) := rateLimitScript (trl_rdb l) (tenant_key tenantID) reqPerSec burst nowMs rnow in
    (allowed =? 1, mkTenantRateLimiter (trl_limits l) rdb).

(** [Middleware]: the header names the tenant; [Some 429] is its own answer. *)
Definition tenant_of (header : string) : string := if String.eqb header "" then "default" else header.
Definition TenantRateLimiter_Middleware (redis_ok : bool) (nowMs rnow : Z) (l : TenantRateLimiter) (header : string)
    : option Z * TenantRateLimiter :=
  let '(ok, l) := TenantRateLimiter_Allow redis_ok nowMs rnow l (tenant_of header) in
  (if ok then None else Some 429, l).

(** ** Runs *)
Record tenantCall := mkTenantCall { tc_redis_ok : bool; tc_nowMs : Z; tc_rnow : Z; tc_header : string }.
Definition tenant_call (l : TenantRateLimiter) (c : tenantCall) : option Z * TenantRateLimiter :=
  TenantRateLimiter_Middleware (tc_redis_ok c) (tc_nowMs c) (tc_rnow c) l (tc_header c).
Fixpoint tenant_calls (l : TenantRateLimiter) (cs : list tenantCall) : list (string * option Z) :=
  match cs with
  | [] => []
  | c :: cs => let '(r, l') := tenant_call l c in (tenant_of (tc_header c), r) :: tenant_calls l' cs
  end.

Lemma tenant_key_inj a b : tenant_key a = tenant_key b → a = b.
Proof. unfold tenant_key. simpl. by intros [=]. Qed.

Lemma script_frame rdb key rate burst nowMs rnow k :
  k ≠ key → (rateLimitScript rdb key rate burst nowMs rnow).2 !! k = rdb !! k.
Proof.
  intros Hne. unfold rateLimitScript. destruct (match live_bucket _ _ _ with Some b => _ | None => _ end) as [t last].
  destruct (if 0 <? _ then _ else _) as [t' last'].
  destruct (fleb _ _); cbn [snd]; by rewrite lookup_insert_ne by done.
Qed.

(** The answer depends on the limits and the tenant's own bucket only. *)
Lemma call_local l l' c :
  trl_limits l = trl_limits l' →
  trl_rdb l !! tenant_key (tenant_of (tc_header c)) = trl_rdb l' !! tenant_key (tenant_of (tc_header c)) →
  (tenant_call l c).1 = (tenant_call l' c).1 ∧
  trl_rdb (tenant_call l c).2 !! tenant_key (tenant_of (tc_header c)) =
    trl_rdb (tenant_call l' c).2 !! tenant_key (tenant_of (tc_header c)).
Proof.
  intros Hl Hb. unfold tenant_call, TenantRateLimiter_Middleware, TenantRateLimiter_Allow, TenantRateLimiter_getLimit.
  rewrite Hl. destruct (match trl_limits l' !! _ with Some t => _ | None => _ end) as [rate burst].
  destruct (tc_redis_ok c); cbn [negb]; [|done].
  unfold rateLimitScript, live_bucket. rewrite Hb.
  destruct (match match trl_rdb l' !! _ with Some b => _ | None => _ end with Some b => _ | None => _ end) as [t last].
  destruct (if 0 <? _ then _ else _) as [t' last'].
  destruct (fleb _ _); cbn; by rewrite !lookup_insert_eq.
Qed.

Lemma call_frame l c k :
  k ≠ tenant_of (tc_header c) →
  trl_rdb (tenant_call l c).2 !! tenant_key k = trl_rdb l !! tenant_key k ∧
  trl_limits (tenant_call l c).2 = trl_limits l.
Proof.
  intros Hne. unfold tenant_call, TenantRateLimiter_Middleware, TenantRateLimiter_Allow.
  destruct (TenantRateLimiter_getLimit _ _) as [rate burst]. destruct (tc_redis_ok c); cbn [negb]; [|done].
  destruct (rateLimitScript _ _ _ _ _ _) as [a rdb] eqn:E. cbn. split; [|done].
  replace rdb with (rateLimitScript (trl_rdb l) (tenant_key (tenant_of (tc_header c))) rate burst (tc_nowMs c) (tc_rnow c)).2
    by (by rewrite E). apply script_frame. by intros ?%tenant_key_inj.
Qed.

Lemma call_limits l c : trl_limits (tenant_call l c).2 = trl_limits l.
Proof.
  unfold tenant_call, TenantRateLimiter_Middleware, TenantRateLimiter_Allow.
  destruct (TenantRateLimiter_getLimit _ _) as [rate burst]. destruct (tc_redis_ok c); cbn [negb]; [|done].
  by destruct (rateLimitScript _ _ _ _ _ _).
Qed.

(** The buckets of tenants are independent: in any sequence of requests, with
    whatever clocks and failures, each request of a tenant gets the answer it would get if
    the requests of the other tenants had not been made. *)
Theorem tenant_buckets_independent l cs t :
  filter (λ a, a.1 = t) (tenant_calls l cs) = tenant_calls l (filter (λ c, tenant_of (tc_header c) = t) cs).
Proof.
  assert (H : ∀ l', trl_limits l = trl_limits l' → trl_rdb l !! tenant_key t = trl_rdb l' !! tenant_key t →
    filter (λ a, a.1 = t) (tenant_calls l cs) = tenant_calls l' (filter (λ c, tenant_of (tc_header c) = t) cs)).
  { revert l. induction cs as [|c cs IH]; intros l l' Hl Hb; [done|]. cbn [tenant_calls].
    destruct (tenant_call l c) as [r l1] eqn:E.
    assert (El : l1 = (tenant_call l c).2) by (by rewrite E). assert (Er : r = (tenant_call l c).1) by (by rewrite E).
    destruct (decide (tenant_of (tc_header c) = t)) as [Heq|Hne].
    - rewrite !filter_cons_True by done. cbn [tenant_calls]. destruct (tenant_call l' c) as [r' l2] eqn:E'.
      assert (El' : l2 = (tenant_call l' c).2) by (by rewrite E'). assert (Er' : r' = (tenant_call l' c).1) by (by rewrite E').
      destruct (call_local l l' c Hl) as [H1 H2]; [by rewrite Heq|]. rewrite Heq in H2. f_equal; [congruence|].
      apply IH; rewrite El, El'; [by rewrite !call_limits|exact H2].
    - rewrite !filter_cons_False by done. apply IH; rewrite El; [by rewrite call_limits|].
      rewrite (proj1 (call_frame l c t (λ E, Hne (eq_sym E)))). exact Hb. }
  by apply H.
Qed.

(** A bucket that is not there or has expired admits. *)
Lemma gone_admits l c :
  trl_limits l !! tenant_of (tc_header c) = None →
  live_bucket (trl_rdb l) (tenant_key (tenant_of (tc_header c))) (tc_rnow c) = None →
  (tenant_call l c).1 = None.
Proof.
  intros Hl Hb. unfold tenant_call, TenantRateLimiter_Middleware, TenantRateLimiter_Allow, TenantRateLimiter_getLimit.
  rewrite Hl. destruct (tc_redis_ok c); cbn [negb]; [|done]. unfold rateLimitScript. rewrite Hb.
  rewrite Z.sub_diag. change (0 <? 0) with false. cbv iota.
  change (fleb fone (float_of_Z defaultBurst)) with true. done.
Qed.

(** The limit does not bind a client that chooses its tenant: the header is not
    authenticated, and any number of requests that name tenants without a limit of their
    own whose buckets are new or have been idle for ten seconds are all admitted, at
    whatever rate they come. *)
Theorem tenant_limit_evaded l cs :
  NoDup ((tenant_of ∘ tc_header) <$> cs) →
  Forall (λ c, trl_limits l !! tenant_of (tc_header c) = None ∧
               live_bucket (trl_rdb l) (tenant_key (tenant_of (tc_header c))) (tc_rnow c) = None) cs →
  Forall (λ a, a.2 = None) (tenant_calls l cs).
Proof.
  revert l. induction cs as [|c cs IH]; intros l Hnd Hf; [constructor|].
  apply Forall_cons in Hf as [[Hl Hb] Hf]. apply NoDup_cons in Hnd as [Hnin Hnd].
  cbn [tenant_calls]. destruct (tenant_call l c) as [r l'] eqn:E. constructor.
  - cbn. pose proof (gone_admits l c Hl Hb) as Hg. by rewrite E in Hg.
  - apply IH; [done|]. apply Forall_forall. intros c' Hc'. rewrite Forall_forall in Hf.
    destruct (Hf c' Hc') as [Hl' Hb'].
    assert (Hne : tenant_of (tc_header c') ≠ tenant_of (tc_header c)).
    { intros Heq. apply Hnin. apply list_elem_of_fmap. exists c'. by split. }
    destruct (call_frame l c _ Hne) as [Hr Hlim]. rewrite E in Hr, Hlim. cbn in Hr, Hlim. rewrite Hlim.
    split; [done|]. unfold live_bucket in *. by rewrite Hr.
Qed.

(** ** A concrete run: two hundred requests at once empty a bucket. *)
Definition demo_tenant_call (t : string) : tenantCall := mkTenantCall true 0 0 t.
Example bucket_empties :
  snd <$> drop 199 (tenant_calls (NewTenantRateLimiter ∅) (replicate 201 (demo_tenant_call "a"))) = [None; Some 429].
Proof. vm_compute. reflexivity. Qed.

Lemma tenant_limit_evaded_witness :
  Forall (λ a, a.2 = None) (tenant_calls (NewTenantRateLimiter ∅) [demo_tenant_call "a"; demo_tenant_call "b"]).
Proof.
  apply (tenant_limit_evaded (NewTenantRateLimiter ∅) [demo_tenant_call "a"; demo_tenant_call "b"]).
  - eapply bool_decide_eq_true_1. vm_compute. reflexivity.
  - repeat constructor.
Defined.
