(* ===== verification/AdminApi.v ===== *)
(** * The admin console's API ([internal/controlplane/admin_api.go])

    Handlers over the tables ([AdminTables]), the node table and revocations
    ([NodeLifecycle], inside [Api.ApiState]), the settings and the global configuration
    ([ConfigManager]), behind sessions ([Tokens.JWTSession]) and an address list.  A handler
    takes the outcomes of its statements in order ([ai_db], [ai_redis]), the clock, the
    random parts of keys and tokens, and a request; bodies are decoded values, [None] if
    decoding fails.  bcrypt is an interface ([PasswordHash]); the JSON of task parameters is
    one too ([ParamsCodec]).  [serve] is the router with its middlewares, on matched routes.

    The files [AdminSessions], [AdminConsole] and [AdminLists] hold the theorems. *)

From S2P Require Import Prelude GoStrings GoHash Models NodeCache Scheduler NodeLifecycle Policy Api RateLimiter.
From S2P Require Import GoJson Tokens AdminTables ConfigManager.
From Stdlib Require Import Ascii.

(** ** What the handlers depend on *)

(** [golang.org/x/crypto/bcrypt]: a hash is compared with its password; long passwords are
    refused. *)
Class PasswordHash := {
  GenerateFromPassword : string → string → option string;   (* salt, password *)
  CompareHashAndPassword : string → string → bool;
  compare_generated salt p h : GenerateFromPassword salt p = Some h → CompareHashAndPassword h p = true;
  generate_short salt p : (String.length p ≤ 72)%nat → is_Some (GenerateFromPassword salt p)
}.

Record TaskParams := mkTaskParams {
  tp_ObjectKey : string; tp_KeyPrefix : string; tp_TargetNodes : list string; tp_TargetScope : string;
  tp_Concurrency : Z; tp_RateLimit : Z
}.
(** [json.Marshal] and [json.Unmarshal] of [TaskParams]. *)
Class ParamsCodec := {
  marshal_params : TaskParams → string;
  unmarshal_params : string → option TaskParams;
  params_roundtrip p : unmarshal_params (marshal_params p) = Some p;
  marshal_params_nonempty p : marshal_params p ≠ ""
}.

(** ** Configuration and state *)
Record AdminAPIConfig := mkAdminAPIConfig {
  ac_EnableOIDC : bool; ac_OIDCProviderURL : string; ac_OIDCClientID : string; ac_EnableLocalAuth : bool;
  ac_GrafanaURL : string; ac_PrometheusURL : string; ac_LokiURL : string; ac_IPAllowlist : list string
}.
(** The settings of the console, as they are shown, sent and stored. *)
Record AdminConfig := mkAdminConfig {
  st_OIDCEnabled : bool; st_OIDCProviderURL : string; st_OIDCClientID : string; st_LocalAuthEnabled : bool;
  st_ReadOnlyMode : bool; st_IPAllowlist : list string; st_GrafanaURL : string; st_PrometheusURL : string;
  st_LokiURL : string
}.

Record AdminState := mkAdminState {
  as_api : ApiState;
  as_db : AdminDB;
  as_cfg : AdminAPIConfig;
  as_jwt : JWTSession;
  as_settings : option AdminConfig;     (* the Redis key of the settings *)
  as_sb : sbConfig;
  as_global : option GlobalConfig;
  as_limiter : rateLimiter              (* [adminLoginLimiter] *)
}.
Definition set_api (s : AdminState) a : AdminState :=
  mkAdminState a (as_db s) (as_cfg s) (as_jwt s) (as_settings s) (as_sb s) (as_global s) (as_limiter s).
Definition set_db (s : AdminState) d : AdminState :=
  mkAdminState (as_api s) d (as_cfg s) (as_jwt s) (as_settings s) (as_sb s) (as_global s) (as_limiter s).
Definition set_settings (s : AdminState) c v : AdminState :=
  mkAdminState (as_api s) (as_db s) c (as_jwt s) v (as_sb s) (as_global s) (as_limiter s).
Definition set_config (s : AdminState) sb g : AdminState :=
  mkAdminState (as_api s) (as_db s) (as_cfg s) (as_jwt s) (as_settings s) sb g (as_limiter s).
Definition set_limiter (s : AdminState) l : AdminState :=
  mkAdminState (as_api s) (as_db s) (as_cfg s) (as_jwt s) (as_settings s) (as_sb s) (as_global s) l.
Definition as_pg (s : AdminState) : PGStore := cp_pg (api_cp (as_api s)).
Definition set_pg (s : AdminState) (pg : PGStore) : AdminState := set_api s (with_pgstore (as_api s) pg).
Definition set_rd (s : AdminState) (r : RedisStore) : AdminState :=
  set_api s (with_cp (as_api s) (with_redis (api_cp (as_api s)) r)).

(** Outcomes of one request: of the [n]-th statement to the database or to Redis, of the
    audit entry, the clock, keys, the bytes of a refresh token and the salt of a hash. *)
Record adminIO := mkAdminIO {
  ai_now : Z; ai_db : nat → bool; ai_redis : nat → bool; ai_audit : bool;
  ai_uuid : nat → string; ai_entropy : option bytes; ai_salt : string
}.

(** ** Requests and replies *)

(** The [X-Actor] headers and the request id are what the middleware put there, or, on the
    public routes, what the client sent. *)
Record adminRequest := mkAdminRequest {
  rq_ContentType : string; rq_Authorization : string; rq_ActorUserId : string; rq_ActorTenantId : string;
  rq_ActorEmail : string; rq_RequestId : string; rq_UserAgent : string; rq_addr : httpRequest;
  rq_query : gmap string string
}.
Definition query (r : adminRequest) (name : string) : string := default "" (rq_query r !! name).

Record PaginatedResponse (A : Type) := mkPage {
  pr_Data : list A; pr_Total : Z; pr_Limit : Z; pr_Offset : Z; pr_HasMore : bool
}.
Arguments mkPage {A}.
Arguments pr_Data {A}.
Arguments pr_Total {A}.
Arguments pr_Limit {A}.
Arguments pr_Offset {A}.
Arguments pr_HasMore {A}.

Record LoginResponse := mkLoginResponse {
  lr_Token : string; lr_RefreshToken : string; lr_User : User; lr_ExpiresAt : Z; lr_Roles : list RoleBinding;
  lr_MustChange : bool
}.

Inductive payload :=
| PStatus (fields : list (string * string))
| PLogin (l : LoginResponse)
| PRefreshed (token : string) (exp : Z) (refreshToken : string)
| PUser (u : User) | PUsers (l : list User)
| PTenant (t : Tenant) | PTenants (l : list Tenant)
| PProject (p : Project) | PProjects (l : list Project)
| PNode (n : Node) | PNodes (p : PaginatedResponse Node) | PCredential (nodeID token : string)
| PPolicy (p : AdminPolicy) | PPolicies (l : list AdminPolicy) | PVersions (l : list AdminPolicyVersion)
| PIngress (i : Ingress) | PIngresses (l : list Ingress)
| PTask (t : Task) | PTasks (p : PaginatedResponse Task)
| PAudit (p : PaginatedResponse AuditEvent) | PEvents (l : list AuditEvent)
| PDashboard (m : DashboardMetrics) | PTopology (l : list P2PTopologyNode)
| PConfig (r : configReply) | PSettings (s : AdminConfig).
Inductive adminReply :=
| AError (status : Z) (code : string)
| AJson (status : Z) (v : payload)
| ACsv (text : chars).

(** The test of the media type; an absent one passes. *)
Definition wrong_type (r : adminRequest) : bool :=
  negb (String.eqb (rq_ContentType r) "") && negb (has_prefix (to_chars "application/json") (to_chars (rq_ContentType r))).
Definition media_error : adminReply := AError 415 "UNSUPPORTED_MEDIA_TYPE".
Definition bad_request : adminReply := AError 400 "BAD_REQUEST".

(** [strconv.Atoi], whose value is used also after an error. *)
Definition Atoi (s : string) : Z :=
  let body (neg : bool) ds :=
    match ds with
    | [] => 0
    | _ => match parse_digits 0 ds with Some _ => if neg then - 2 ^ 63 else 2 ^ 63 - 1 | None => 0 end
    end in
  match parse_int (to_chars s) with
  | Some v => v
  | None =>
      match to_chars s with
      | [] => 0
      | c :: l => if bool_decide (c = ascii_of_nat 45) then body true l
                  else if bool_decide (c = ascii_of_nat 43) then body false l
                  else body false (c :: l)
      end
  end.
Definition page_limit (r : adminRequest) : Z :=
  let limit := Atoi (query r "limit") in if limit <=? 0 then 50 else limit.
Definition has_more (offset limit total : Z) : bool := i64 (offset + limit) <? total.

(** [audit]: a failure is logged only. *)
Definition audit (io : adminIO) (s : AdminState) (r : adminRequest) (action resourceType resourceID : string) : AdminState :=
  set_db s (PGStore_CreateAuditEvent (ai_audit io) (ai_now io) (as_db s)
    (mkAuditEvent "" (rq_ActorTenantId r) "" (rq_ActorUserId r) (rq_ActorEmail r) action resourceType resourceID "" ""
       (rq_RequestId r) (clientIP (rq_addr r)) (rq_UserAgent r) "success" 0)).2.
(** The end of a handler that changed something. *)
Definition finish (io : adminIO) (s : AdminState) (r : adminRequest) (action rtype rid : string) (status : Z)
    (v : payload) : adminReply * AdminState := (AJson status v, audit io s r action rtype rid).
Definition status_of (l : list (string * string)) : payload := PStatus l.

(** [sha256Hash]. *)
Definition sha256Hash (s : string) : string := hex_encode (sha256_sum (bytes_of_string s)).
(** [GenerateRefreshToken]: thirty-two random bytes, unless the source fails. *)
Definition GenerateRefreshToken (entropy : option bytes) : option string :=
  match entropy with
  | Some b => Some (of_chars (to_chars "rt_" ++ url_encode (map (λ x, Z.of_N (Byte.to_N x)) b)))
  | None => None
  end.

Section handlers.
Context `{PasswordHash} `{ParamsCodec}.

(** ** Sessions *)
Record LoginRequest := mkLoginRequest { lq_Email : string; lq_Password : string }.

Definition handleLogin (io : adminIO) (s : AdminState) (r : adminRequest) (body : option LoginRequest)
    : adminReply * AdminState :=
  let '(allowed, rl) := rateLimiter_Allow (as_limiter s) (ai_now io) in
  let s := set_limiter s rl in
  if negb allowed then (AError 429 "RATE_LIMITED", s)
  else if negb (ac_EnableLocalAuth (as_cfg s)) then (AError 403 "LOCAL_AUTH_DISABLED", s)
  else if wrong_type r then (media_error, s)
  else
    match body with
    | None => (bad_request, s)
    | Some req =>
        match PGStore_GetUserByEmail (ai_db io 0) (as_db s) (lq_Email req) with
        | Ok (user, passwordHash) =>
            if negb (CompareHashAndPassword passwordHash (lq_Password req)) then (AError 401 "INVALID_CREDENTIALS", s)
            else
              match JWTSession_Sign (as_jwt s) (ai_now io) (us_UserID user) (us_TenantID user) (us_Email user) with
              | Ok (token, exp) =>
                  match GenerateRefreshToken (ai_entropy io) with
                  | None => (AError 500 "AUTH_FAILED", s)
                  | Some refreshToken =>
                      (* a failure is logged only *)
                      let s := set_db s (PGStore_UpdateUserRefreshToken (ai_db io 1) (ai_now io) (as_db s) (us_UserID user)
                                 (sha256Hash refreshToken)).2 in
                      finish io s r "auth.login" "user" (us_UserID user) 200
                        (PLogin (mkLoginResponse token refreshToken user exp (us_Roles user) (us_MustChange user)))
                  end
              | _ => (AError 500 "AUTH_FAILED", s)
              end
        | _ => (AError 401 "INVALID_CREDENTIALS", s)
        end
    end.

(** [body]: the refresh token. *)
Definition handleRefresh (io : adminIO) (s : AdminState) (r : adminRequest) (body : option string)
    : adminReply * AdminState :=
  if wrong_type r then (media_error, s)
  else
    match body with
    | None => (bad_request, s)
    | Some refreshToken =>
        if String.eqb refreshToken "" then (bad_request, s)
        else
          match PGStore_GetUserIDByRefreshToken (ai_db io 0) (as_db s) (sha256Hash refreshToken) with
          | Ok userID =>
              match PGStore_GetUser (ai_db io 1) (as_db s) userID with
              | Ok user =>
                  match JWTSession_Sign (as_jwt s) (ai_now io) (us_UserID user) (us_TenantID user) (us_Email user) with
                  | Ok (token, exp) =>
                      match GenerateRefreshToken (ai_entropy io) with
                      | None => (AError 500 "AUTH_FAILED", s)
                      | Some newToken =>
                          (AJson 200 (PRefreshed token exp newToken),
                           set_db s (PGStore_UpdateUserRefreshToken (ai_db io 2) (ai_now io) (as_db s) (us_UserID user)
                             (sha256Hash newToken)).2)
                      end
                  | _ => (AError 500 "AUTH_FAILED", s)
                  end
              | _ => (AError 401 "INVALID_REFRESH_TOKEN", s)
              end
          | _ => (AError 401 "INVALID_REFRESH_TOKEN", s)
          end
    end.

Definition handleLogout (io : adminIO) (s : AdminState) (r : adminRequest) : adminReply * AdminState :=
  let s := set_db s (PGStore_UpdateUserRefreshToken (ai_db io 0) (ai_now io) (as_db s) (rq_ActorUserId r) "").2 in
  finish io s r "auth.logout" "user" (rq_ActorUserId r) 200 (status_of [("status", "logged_out")]).

Definition handleMe (io : adminIO) (s : AdminState) (r : adminRequest) : adminReply * AdminState :=
  if String.eqb (rq_ActorUserId r) "" then (AError 401 "UNAUTHORIZED", s)
  else match PGStore_GetUser (ai_db io 0) (as_db s) (rq_ActorUserId r) with
       | Ok user => (AJson 200 (PUser user), s)
       | _ => (AError 404 "NOT_FOUND", s)
       end.

Record ChangePasswordRequest := mkChangePasswordRequest { cq_CurrentPassword : string; cq_NewPassword : string }.
Definition handleChangePassword (io : adminIO) (s : AdminState) (r : adminRequest) (body : option ChangePasswordRequest)
    : adminReply * AdminState :=
  if String.eqb (rq_ActorUserId r) "" then (AError 401 "UNAUTHORIZED", s)
  else if wrong_type r then (media_error, s)
  else
    match body with
    | None => (bad_request, s)
    | Some req =>
        if (String.length (cq_NewPassword req) <? 8)%nat then (AError 400 "WEAK_PASSWORD", s)
        else if (72 <? String.length (cq_NewPassword req))%nat then (AError 400 "PASSWORD_TOO_LONG", s)
        else
          match PGStore_GetUserPasswordHash (ai_db io 0) (as_db s) (rq_ActorUserId r) with
          | Ok currentHash =>
              if negb (CompareHashAndPassword currentHash (cq_CurrentPassword req)) then (AError 400 "WRONG_PASSWORD", s)
              else
                match GenerateFromPassword (ai_salt io) (cq_NewPassword req) with
                | None => (AError 500 "AUTH_FAILED", s)
                | Some hash =>
                    let '(res, d) := PGStore_UpdateUserPassword (ai_db io 1) (ai_now io) (as_db s) (rq_ActorUserId r) hash in
                    let s := set_db s d in
                    match res with
                    | Ok _ => (AJson 200 (status_of [("status", "password_changed")]), s)
                    | _ => (AError 500 "UPDATE_FAILED", s)
                    end
                end
          | _ => (AError 500 "AUTH_FAILED", s)
          end
    end.

Definition handleAdminHealthz (s : AdminState) : adminReply * AdminState := (AJson 200 (status_of [("status", "ok")]), s).

(** ** Tenants and projects *)
Definition handleCreateTenant (io : adminIO) (s : AdminState) (r : adminRequest) (body : option Tenant)
    : adminReply * AdminState :=
  if wrong_type r then (media_error, s)
  else
    match body with
    | None => (bad_request, s)
    | Some t =>
        let name := trimmed (tn_Name t) in
        if String.eqb name "" then (bad_request, s)
        else
          match PGStore_CreateTenant (ai_db io 0) (ai_now io) (ai_uuid io 0) (as_db s) (mkTenant 0 0 "" name (tn_Description t)) with
          | (Ok t, d) => finish io (set_db s d) r "policy.create" "tenant" (tn_TenantID t) 201 (PTenant t)
          | (_, d) => (AError 500 "CREATE_FAILED", set_db s d)
          end
    end.
Definition handleListTenants (io : adminIO) (s : AdminState) : adminReply * AdminState :=
  (match PGStore_ListTenants (ai_db io 0) (as_db s) with
   | Ok l => AJson 200 (PTenants l) | _ => AError 500 "LIST_FAILED" end, s).
Definition handleGetTenant (io : adminIO) (s : AdminState) (id : string) : adminReply * AdminState :=
  (match PGStore_GetTenant (ai_db io 0) (as_db s) id with
   | Ok t => AJson 200 (PTenant t) | _ => AError 404 "NOT_FOUND" end, s).

(** [if update != "" { existing = update }]. *)
Definition patched (old new : string) : string := if String.eqb new "" then old else new.
(** The end of an update: the statement may fail. *)
Definition updated (io : adminIO) (r : adminRequest) (s : AdminState) (res : result unit * AdminDB) (code : string)
    (action rtype rid : string) (v : payload) : adminReply * AdminState :=
  match res with
  | (Ok _, d) => finish io (set_db s d) r action rtype rid 200 v
  | (_, d) => (AError 500 code, set_db s d)
  end.

Definition handleUpdateTenant (io : adminIO) (s : AdminState) (r : adminRequest) (id : string) (body : option Tenant)
    : adminReply * AdminState :=
  if wrong_type r then (media_error, s)
  else
    match PGStore_GetTenant (ai_db io 0) (as_db s) id with
    | Ok e =>
        match body with
        | None => (bad_request, s)
        | Some u =>
            let t := mkTenant (tn_CreatedAt e) (tn_UpdatedAt e) (tn_TenantID e) (patched (tn_Name e) (tn_Name u))
                       (patched (tn_Description e) (tn_Description u)) in
            updated io r s (PGStore_UpdateTenant (ai_db io 1) (ai_now io) (as_db s) t) "UPDATE_FAILED"
              "policy.update" "tenant" id (PTenant t)
        end
    | _ => (AError 404 "NOT_FOUND", s)
    end.
Definition deleted : payload := status_of [("status", "deleted")].
Definition handleDeleteTenant (io : adminIO) (s : AdminState) (r : adminRequest) (id : string) : adminReply * AdminState :=
  updated io r s (PGStore_DeleteTenant (ai_db io 0) (as_db s) id) "DELETE_FAILED" "policy.update" "tenant" id deleted.
Definition handleListUsers (io : adminIO) (s : AdminState) (id : string) : adminReply * AdminState :=
  (match PGStore_ListUsers (ai_db io 0) (as_db s) id with
   | Ok l => AJson 200 (PUsers l) | _ => AError 500 "LIST_FAILED" end, s).

Definition handleCreateProject (io : adminIO) (s : AdminState) (r : adminRequest) (tenantID : string) (body : option Project)
    : adminReply * AdminState :=
  if wrong_type r then (media_error, s)
  else
    match body with
    | None => (bad_request, s)
    | Some p =>
        let name := trimmed (pj_Name p) in
        if String.eqb name "" then (bad_request, s)
        else
          match PGStore_CreateProject (ai_db io 0) (ai_now io) (ai_uuid io 0) (as_db s)
                  (mkProject 0 0 "" tenantID name (pj_Description p)) with
          | (Ok p, d) => finish io (set_db s d) r "policy.create" "project" (pj_ProjectID p) 201 (PProject p)
          | (_, d) => (AError 500 "CREATE_FAILED", set_db s d)
          end
    end.
Definition handleListProjects (io : adminIO) (s : AdminState) (tenantID : string) : adminReply * AdminState :=
  (match PGStore_ListProjects (ai_db io 0) (as_db s) tenantID with
   | Ok l => AJson 200 (PProjects l) | _ => AError 500 "LIST_FAILED" end, s).
Definition handleGetProject (io : adminIO) (s : AdminState) (id : string) : adminReply * AdminState :=
  (match PGStore_GetProject (ai_db io 0) (as_db s) id with
   | Ok p => AJson 200 (PProject p) | _ => AError 404 "NOT_FOUND" end, s).
Definition handleUpdateProject (io : adminIO) (s : AdminState) (r : adminRequest) (id : string) (body : option Project)
    : adminReply * AdminState :=
  if wrong_type r then (media_error, s)
  else
    match PGStore_GetProject (ai_db io 0) (as_db s) id with
    | Ok e =>
        match body with
        | None => (bad_request, s)
        | Some u =>
            let p := mkProject (pj_CreatedAt e) (pj_UpdatedAt e) (pj_ProjectID e) (pj_TenantID e)
                       (patched (pj_Name e) (pj_Name u)) (patched (pj_Description e) (pj_Description u)) in
            updated io r s (PGStore_UpdateProject (ai_db io 1) (ai_now io) (as_db s) p) "UPDATE_FAILED"
              "policy.update" "project" id (PProject p)
        end
    | _ => (AError 404 "NOT_FOUND", s)
    end.
Definition handleDeleteProject (io : adminIO) (s : AdminState) (r : adminRequest) (id : string) : adminReply * AdminState :=
  updated io r s (PGStore_DeleteProject (ai_db io 0) (as_db s) id) "DELETE_FAILED" "policy.update" "project" id deleted.

(** ** Users *)
Record UserBody := mkUserBody {
  ub_TenantID : string; ub_Email : string; ub_DisplayName : string; ub_Password : string; ub_Roles : list RoleBinding
}.
Definition handleCreateUser (io : adminIO) (s : AdminState) (r : adminRequest) (body : option UserBody)
    : adminReply * AdminState :=
  if wrong_type r then (media_error, s)
  else
    match body with
    | None => (bad_request, s)
    | Some b =>
        let email := trimmed (ub_Email b) in
        if String.eqb email "" || String.eqb (ub_Password b) "" then (bad_request, s)
        else if (72 <? String.length (ub_Password b))%nat then (bad_request, s)
        else
          match GenerateFromPassword (ai_salt io) (ub_Password b) with
          | None => (AError 500 "CREATE_FAILED", s)
          | Some hash =>
              match PGStore_CreateUser (ai_db io 0) (ai_now io) (ai_uuid io 0) (as_db s)
                      (mkUser 0 0 "" (ub_TenantID b) email (ub_DisplayName b) (ub_Roles b) false) hash with
              | (Ok u, d) => finish io (set_db s d) r "user.create" "user" (us_UserID u) 201 (PUser u)
              | (_, d) => (AError 500 "CREATE_FAILED", set_db s d)
              end
          end
    end.
Definition handleGetUser (io : adminIO) (s : AdminState) (id : string) : adminReply * AdminState :=
  (match PGStore_GetUser (ai_db io 0) (as_db s) id with
   | Ok u => AJson 200 (PUser u) | _ => AError 404 "NOT_FOUND" end, s).
(** [body]: the display name and the roles, if given. *)
Definition handleUpdateUser (io : adminIO) (s : AdminState) (r : adminRequest) (id : string)
    (body : option (string * option (list RoleBinding))) : adminReply * AdminState :=
  if wrong_type r then (media_error, s)
  else
    match PGStore_GetUser (ai_db io 0) (as_db s) id with
    | Ok e =>
        match body with
        | None => (bad_request, s)
        | Some (name, roles) =>
            let u := mkUser (us_CreatedAt e) (us_UpdatedAt e) (us_UserID e) (us_TenantID e) (us_Email e)
                       (patched (us_DisplayName e) name) (default (us_Roles e) roles) (us_MustChange e) in
            updated io r s (PGStore_UpdateUser (ai_db io 1) (ai_now io) (as_db s) u) "UPDATE_FAILED"
              "user.update" "user" id (PUser u)
        end
    | _ => (AError 404 "NOT_FOUND", s)
    end.
Definition handleDeleteUser (io : adminIO) (s : AdminState) (r : adminRequest) (id : string) : adminReply * AdminState :=
  updated io r s (PGStore_DeleteUser (ai_db io 0) (as_db s) id) "DELETE_FAILED" "user.update" "user" id deleted.

(** ** Nodes *)
Definition handleListNodes (io : adminIO) (s : AdminState) (r : adminRequest) : adminReply * AdminState :=
  let limit := page_limit r in
  let offset := Atoi (query r "offset") in
  (match PGStore_ListNodes (ai_db io 0) (ai_db io 1) (as_pg s) (query r "tenant_id") (query r "status") (query r "region")
           (query r "isp") (query r "project_id") limit offset with
   | Ok (nodes, total) => AJson 200 (PNodes (mkPage nodes total limit offset (has_more offset limit total)))
   | _ => AError 500 "LIST_FAILED"
   end, s).
Definition AdminAPI_handleGetNode (io : adminIO) (s : AdminState) (id : string) : adminReply * AdminState :=
  let '(res, pg) := PGStore_GetNode (ai_db io 0) (as_pg s) id (ai_now io) in
  (match res with Ok n => AJson 200 (PNode n) | _ => AError 404 "NOT_FOUND" end, set_pg s pg).
Definition handleGetNodeCredentials (io : adminIO) (s : AdminState) (id : string) : adminReply * AdminState :=
  (match PGStore_GetNodeToken (ai_db io 0) (as_pg s) id with
   | Ok token => AJson 200 (PCredential id token) | _ => AError 404 "NOT_FOUND" end, s).
(** [body]: the reason and the end, [None] if it is absent or does not parse. *)
Definition handleDisableNode (io : adminIO) (s : AdminState) (r : adminRequest) (id : string)
    (body : option (string * option Z)) : adminReply * AdminState :=
  if wrong_type r then (media_error, s)
  else
    match body with
    | None => (bad_request, s)
    | Some (reason, until) =>
        match PGStore_NodeDisable (ai_db io 0) (as_pg s) id reason until (ai_now io) with
        | (Ok _, pg) => finish io (set_pg s pg) r "node.disable" "node" id 200 (status_of [("status", "disabled"); ("node_id", id)])
        | (_, pg) => (AError 500 "DISABLE_FAILED", set_pg s pg)
        end
    end.
Definition handleEnableNode (io : adminIO) (s : AdminState) (r : adminRequest) (id : string) : adminReply * AdminState :=
  match PGStore_NodeEnable (ai_db io 0) (as_pg s) id (ai_now io) with
  | (Ok _, pg) => finish io (set_pg s pg) r "node.enable" "node" id 200 (status_of [("status", "enabled"); ("node_id", id)])
  | (_, pg) => (AError 500 "ENABLE_FAILED", set_pg s pg)
  end.
Definition AdminAPI_handleRevokeNode (io : adminIO) (s : AdminState) (r : adminRequest) (id : string) : adminReply * AdminState :=
  match PGStore_RevokeNode (ai_db io 0) (as_pg s) id with
  | (Ok _, pg) =>
      let s := set_pg s pg in
      let s := set_rd s (RedisStore_MarkNodeRevoked (ai_redis io 0) (cp_redis (api_cp (as_api s))) id (ai_now io)) in
      finish io s r "node.revoke" "node" id 200 (status_of [("status", "revoked"); ("node_id", id)])
  | (_, pg) => (AError 500 "REVOKE_FAILED", set_pg s pg)
  end.

(** The first half of [handlePatchNode]: enabling also removes the revocation mark. *)
Definition patch_status (io : adminIO) (s : AdminState) (id : string) (p : NodeAdminPatch) : result unit * AdminState :=
  match np_Disabled p with
  | Some true =>
      let '(res, pg) := PGStore_NodeDisable (ai_db io 0) (as_pg s) id (default "" (np_DisableReason p))
                          (np_DisableUntil p) (ai_now io) in (res, set_pg s pg)
  | Some false =>
      let '(res, pg) := PGStore_NodeEnable (ai_db io 0) (as_pg s) id (ai_now io) in
      let s := set_pg s pg in
      (res, match res with
            | Ok _ => set_rd s (RedisStore_UnrevokeNode (ai_redis io 0) (cp_redis (api_cp (as_api s))) id)
            | _ => s
            end)
  | None => (Ok tt, s)
  end.
(** The second half of [handlePatchNode]: the columns are changed if any is given; a failure is
    logged only. *)
Definition patch_columns (io : adminIO) (s : AdminState) (id : string) (p : NodeAdminPatch) : AdminState :=
  if bool_decide (np_Labels p = None) && bool_decide (np_Weight p = None) && bool_decide (np_ProjectID p = None)
     && bool_decide (np_TenantID p = None) then s
  else if ai_db io 1 then set_pg s (update_row (as_pg s) id (patch_row p (ai_now io))) else s.
Definition handlePatchNode (io : adminIO) (s : AdminState) (r : adminRequest) (id : string) (body : option NodeAdminPatch)
    : adminReply * AdminState :=
  if wrong_type r then (media_error, s)
  else
    match body with
    | None => (bad_request, s)
    | Some p =>
        let '(res, s) := patch_status io s id p in
        match res with
        | Ok _ => finish io (patch_columns io s id p) r "node.patch" "node" id 200
                    (status_of [("status", "patched"); ("node_id", id)])
        | _ => (AError 500 "PATCH_FAILED", s)
        end
    end.

(** ** Policies *)
Definition no_type (t : AdminPolicyType) : bool := bool_decide (t = AdminPolicyTypeOther "").
Definition handleCreatePolicy (io : adminIO) (s : AdminState) (r : adminRequest) (body : option AdminPolicy)
    : adminReply * AdminState :=
  if wrong_type r then (media_error, s)
  else
    match body with
    | None => (bad_request, s)
    | Some p =>
        let name := trimmed (ap_Name p) in
        if String.eqb name "" then (bad_request, s)
        else
          match PGStore_CreateAdminPolicy (ai_db io 0) (ai_now io) (ai_uuid io 0) (as_db s)
                  (mkAdminPolicy (ap_CreatedAt p) (ap_UpdatedAt p) (ap_Content p) (ap_PolicyID p) (ap_TenantID p)
                     (ap_ProjectID p) name (ap_Type p) (ap_Version p) (ap_IsPublished p) (ap_Description p)) with
          | (Ok p, d) =>
              (* a failure to save the version is dropped *)
              let d := (PGStore_SavePolicyVersion (ai_db io 1) (ai_now io) (ai_uuid io 1) d (ap_PolicyID p) 1 (ap_Content p)).2 in
              finish io (set_db s d) r "policy.create" "policy" (ap_PolicyID p) 201 (PPolicy p)
          | (_, d) => (AError 500 "CREATE_FAILED", set_db s d)
          end
    end.
Definition handleListPolicies (io : adminIO) (s : AdminState) (r : adminRequest) : adminReply * AdminState :=
  (match PGStore_ListAdminPolicies (ai_db io 0) (as_db s) (query r "tenant_id") (query r "project_id") with
   | Ok l => AJson 200 (PPolicies l) | _ => AError 500 "LIST_FAILED" end, s).
Definition handleGetPolicy (io : adminIO) (s : AdminState) (id : string) : adminReply * AdminState :=
  (match PGStore_GetAdminPolicy (ai_db io 0) (as_db s) id with
   | Ok p => AJson 200 (PPolicy p) | _ => AError 404 "NOT_FOUND" end, s).
Definition handleUpdatePolicy (io : adminIO) (s : AdminState) (r : adminRequest) (id : string) (body : option AdminPolicy)
    : adminReply * AdminState :=
  if wrong_type r then (media_error, s)
  else
    match PGStore_GetAdminPolicy (ai_db io 0) (as_db s) id with
    | Ok e =>
        match body with
        | None => (bad_request, s)
        | Some u =>
            let p := mkAdminPolicy (ap_CreatedAt e) (ap_UpdatedAt e) (patched (ap_Content e) (ap_Content u)) (ap_PolicyID e)
                       (ap_TenantID e) (ap_ProjectID e) (patched (ap_Name e) (ap_Name u))
                       (if no_type (ap_Type u) then ap_Type e else ap_Type u) (ap_Version e) (ap_IsPublished e)
                       (patched (ap_Description e) (ap_Description u)) in
            match PGStore_UpdateAdminPolicy (ai_db io 1) (ai_now io) (as_db s) p with
            | (Ok _, d) =>
                (* the row is read again for its version; failures are logged or dropped *)
                let d := match PGStore_GetAdminPolicy (ai_db io 2) d id with
                         | Ok n => (PGStore_SavePolicyVersion (ai_db io 3) (ai_now io) (ai_uuid io 0) d (ap_PolicyID n)
                                      (ap_Version n) (ap_Content n)).2
                         | _ => d
                         end in
                finish io (set_db s d) r "policy.update" "policy" id 200 (PPolicy p)
            | (_, d) => (AError 500 "UPDATE_FAILED", set_db s d)
            end
        end
    | _ => (AError 404 "NOT_FOUND", s)
    end.
Definition handleDeletePolicy (io : adminIO) (s : AdminState) (r : adminRequest) (id : string) : adminReply * AdminState :=
  updated io r s (PGStore_DeleteAdminPolicy (ai_db io 0) (as_db s) id) "DELETE_FAILED" "policy.update" "policy" id deleted.
Definition handlePublishPolicy (io : adminIO) (s : AdminState) (r : adminRequest) (id : string) : adminReply * AdminState :=
  updated io r s (PGStore_PublishAdminPolicy (ai_db io 0) (ai_now io) (as_db s) id) "PUBLISH_FAILED" "policy.publish" "policy" id
    (status_of [("status", "published"); ("policy_id", id)]).

(** The first listed version with the number asked for. *)
Fixpoint find_version (version : Z) (l : list AdminPolicyVersion) : option AdminPolicyVersion :=
  match l with
  | v :: l => if pv_Version v =? version then Some v else find_version version l
  | [] => None
  end.
Definition handleRollbackPolicy (io : adminIO) (s : AdminState) (r : adminRequest) (id : string) : adminReply * AdminState :=
  let versionStr := query r "to" in
  if String.eqb versionStr "" then (bad_request, s)
  else
    match parse_int (to_chars versionStr) with
    | None => (bad_request, s)
    | Some version =>
        match PGStore_GetPolicyVersions (ai_db io 0) (as_db s) id with
        | Ok versions =>
            match find_version version versions with
            | Some v =>
                updated io r s (PGStore_RollbackPolicy (ai_db io 1) (ai_now io) (as_db s) id (pv_Version v) (pv_Content v))
                  "ROLLBACK_FAILED" "policy.rollback" "policy" id
                  (status_of [("status", "rolled_back"); ("version", versionStr)])
            | None => (AError 404 "NOT_FOUND", s)
            end
        | _ => (AError 404 "NOT_FOUND", s)
        end
    end.
Definition handleGetPolicyVersions (io : adminIO) (s : AdminState) (id : string) : adminReply * AdminState :=
  (match PGStore_GetPolicyVersions (ai_db io 0) (as_db s) id with
   | Ok l => AJson 200 (PVersions l) | _ => AError 500 "LIST_FAILED" end, s).

(** ** Ingresses *)
Definition handleCreateIngress (io : adminIO) (s : AdminState) (r : adminRequest) (body : option Ingress)
    : adminReply * AdminState :=
  if wrong_type r then (media_error, s)
  else
    match body with
    | None => (bad_request, s)
    | Some i =>
        let name := trimmed (in_Name i) in
        if String.eqb name "" then (bad_request, s)
        else
          match PGStore_CreateIngress (ai_db io 0) (ai_now io) (ai_uuid io 0) (as_db s)
                  (mkIngress 0 0 (in_Config i) (in_TenantID i) (in_ProjectID i) "" name (in_Type i) (in_Domain i)) with
          | (Ok i, d) => finish io (set_db s d) r "ingress.create" "ingress" (in_IngressID i) 201 (PIngress i)
          | (_, d) => (AError 500 "CREATE_FAILED", set_db s d)
          end
    end.
Definition handleListIngresses (io : adminIO) (s : AdminState) (r : adminRequest) : adminReply * AdminState :=
  (match PGStore_ListIngresses (ai_db io 0) (as_db s) (query r "tenant_id") (query r "project_id") with
   | Ok l => AJson 200 (PIngresses l) | _ => AError 500 "LIST_FAILED" end, s).
Definition handleGetIngress (io : adminIO) (s : AdminState) (id : string) : adminReply * AdminState :=
  (match PGStore_GetIngress (ai_db io 0) (as_db s) id with
   | Ok i => AJson 200 (PIngress i) | _ => AError 404 "NOT_FOUND" end, s).
Definition handleUpdateIngress (io : adminIO) (s : AdminState) (r : adminRequest) (id : string) (body : option Ingress)
    : adminReply * AdminState :=
  if wrong_type r then (media_error, s)
  else
    match PGStore_GetIngress (ai_db io 0) (as_db s) id with
    | Ok e =>
        match body with
        | None => (bad_request, s)
        | Some u =>
            let i := mkIngress (in_CreatedAt e) (in_UpdatedAt e) (patched (in_Config e) (in_Config u)) (in_TenantID e)
                       (in_ProjectID e) (in_IngressID e) (patched (in_Name e) (in_Name u)) (patched (in_Type e) (in_Type u))
                       (patched (in_Domain e) (in_Domain u)) in
            updated io r s (PGStore_UpdateIngress (ai_db io 1) (ai_now io) (as_db s) i) "UPDATE_FAILED"
              "ingress.update" "ingress" id (PIngress i)
        end
    | _ => (AError 404 "NOT_FOUND", s)
    end.
Definition handleDeleteIngress (io : adminIO) (s : AdminState) (r : adminRequest) (id : string) : adminReply * AdminState :=
  updated io r s (PGStore_DeleteIngress (ai_db io 0) (as_db s) id) "DELETE_FAILED" "ingress.delete" "ingress" id deleted.

(** ** Tasks *)
Definition createCacheTask (io : adminIO) (s : AdminState) (r : adminRequest) (taskType : TaskType) (auditAction : string)
    (body : option TaskParams) : adminReply * AdminState :=
  if wrong_type r then (media_error, s)
  else
    match body with
    | None => (bad_request, s)
    | Some params =>
        match PGStore_CreateTask (ai_db io 0) (ai_now io) (ai_uuid io 0) (as_db s)
                (mkTask 0 0 (marshal_params params) "" "" (rq_ActorTenantId r) "" (rq_ActorUserId r) taskType
                   TaskStatusPending 0 0 0) with
        | (Ok t, d) => finish io (set_db s d) r auditAction "task" (tk_TaskID t) 201 (PTask t)
        | (_, d) => (AError 500 "CREATE_FAILED", set_db s d)
        end
    end.
Definition AdminAPI_handlePrewarm io s r := createCacheTask io s r TaskTypePrewarm "cache.prewarm".
Definition AdminAPI_handlePurge io s r := createCacheTask io s r TaskTypePurge "cache.purge".
Definition handleBlock io s r := createCacheTask io s r TaskTypeBlock "object.block".

Definition handleListTasks (io : adminIO) (s : AdminState) (r : adminRequest) : adminReply * AdminState :=
  let limit := page_limit r in
  let offset := Atoi (query r "offset") in
  (match PGStore_ListTasks (ai_db io 0) (ai_db io 1) (as_db s) (rq_ActorTenantId r) (query r "status") (query r "type")
           limit offset with
   | Ok (tasks, total) => AJson 200 (PTasks (mkPage tasks total limit offset (has_more offset limit total)))
   | _ => AError 500 "LIST_FAILED"
   end, s).
Definition handleGetTask (io : adminIO) (s : AdminState) (id : string) : adminReply * AdminState :=
  (match PGStore_GetTask (ai_db io 0) (as_db s) id with
   | Ok t => AJson 200 (PTask t) | _ => AError 404 "NOT_FOUND" end, s).
Definition handleCancelTask (io : adminIO) (s : AdminState) (r : adminRequest) (id : string) : adminReply * AdminState :=
  updated io r s (PGStore_UpdateTaskStatus (ai_db io 0) (ai_now io) (as_db s) id TaskStatusCancelled "" 0 0) "CANCEL_FAILED"
    "task.cancel" "task" id (status_of [("status", "canceled"); ("task_id", id)]).

(** ** The audit log *)
Definition audit_query (r : adminRequest) (limit offset : Z) : AuditQuery :=
  mkAuditQuery (query r "actor_id") (query r "action") (query r "resource_type") (query r "resource_id") (query r "result")
    (rq_ActorTenantId r) "" None None limit offset.
(** The query is passed by value: the limit the store falls back to is not seen here. *)
Definition handleQueryAudit (io : adminIO) (s : AdminState) (r : adminRequest) : adminReply * AdminState :=
  let q := audit_query r (Atoi (query r "limit")) (Atoi (query r "offset")) in
  (match PGStore_QueryAuditEvents (ai_db io 0) (ai_db io 1) (as_db s) q with
   | Ok (events, total) =>
       AJson 200 (PAudit (mkPage events total (aq_Limit q) (aq_Offset q) (has_more (aq_Offset q) (aq_Limit q) total)))
   | _ => AError 500 "QUERY_FAILED"
   end, s).

Definition csvEscape (l : chars) : chars :=
  if existsb (λ c, bool_decide (c = ch 44) || bool_decide (c = quote) || bool_decide (c = ch 10)) l
  then quote :: (l ≫= λ c, if bool_decide (c = quote) then [quote; quote] else [c]) ++ [quote]
  else l.
(** [time.Time.Format(time.RFC3339)] is an argument. *)
Definition csv_fields (format_time : Z → chars) (e : AuditEvent) : list chars :=
  [csvEscape (to_chars (ae_ID e)); format_time (ae_CreatedAt e); csvEscape (to_chars (ae_TenantID e));
   csvEscape (to_chars (ae_ActorID e)); csvEscape (to_chars (ae_ActorEmail e)); csvEscape (to_chars (ae_Action e));
   csvEscape (to_chars (ae_ResourceType e)); csvEscape (to_chars (ae_ResourceID e)); csvEscape (to_chars (ae_Result e));
   csvEscape (to_chars (ae_SourceIP e)); csvEscape (to_chars (ae_RequestID e))].
Definition csv_line (fields : list chars) : chars := join_with (ch 44) fields ++ [ch 10].
Definition csv_head : chars :=
  map ch [239; 187; 191] ++
  to_chars "ID,CreatedAt,TenantID,ActorID,ActorEmail,Action,ResourceType,ResourceID,Result,SourceIP,RequestID" ++ [ch 10].
Definition csv_text (format_time : Z → chars) (events : list AuditEvent) : chars :=
  csv_head ++ mjoin ((csv_line ∘ csv_fields format_time) <$> events).
Definition handleExportAudit (format_time : Z → chars) (io : adminIO) (s : AdminState) (r : adminRequest)
    : adminReply * AdminState :=
  let format := patched "csv" (query r "format") in
  (match PGStore_QueryAuditEvents (ai_db io 0) (ai_db io 1) (as_db s) (audit_query r 10000 0) with
   | Ok (events, _) =>
       if String.eqb format "json" then AJson 200 (PEvents events) else ACsv (csv_text format_time events)
   | _ => AError 500 "EXPORT_FAILED"
   end, s).

(** ** Dashboard, configuration and settings *)
Definition handleDashboard (io : adminIO) (s : AdminState) (r : adminRequest) : adminReply * AdminState :=
  (AJson 200 (PDashboard (PGStore_GetDashboardData (ai_db io 0) (as_pg s) (rq_ActorTenantId r))), s).
Definition handleP2PTopology (io : adminIO) (s : AdminState) : adminReply * AdminState :=
  (match PGStore_ListActiveNodes (ai_db io 0) (as_pg s) with
   | Ok nodes => AJson 200 (PTopology (topology_node 100 <$> nodes))
   | _ => AError 500 "TOPO_FAILED"
   end, s).
Definition config_state (s : AdminState) : ConfigState :=
  mkConfigState (as_sb s) (as_global s) (st_nodeCache (api_sched (as_api s))).
Definition handleGetConfig (s : AdminState) : adminReply * AdminState :=
  (AJson 200 (PConfig (handleAdminGetConfig (config_state s)).1), s).
Definition handleUpdateConfig (io : adminIO) (s : AdminState) (body : option GlobalConfig) : adminReply * AdminState :=
  let '(reply, c) := handleAdminUpdateConfig (ai_redis io 0) (config_state s) body in
  (match reply with CError status text => AError status text | _ => AJson 200 (PConfig reply) end,
   set_config s (cs_sb c) (cs_redis c)).

(** [LoadSettings] fails, or answers what is stored. *)
Definition handleGetSettings (io : adminIO) (s : AdminState) : adminReply * AdminState :=
  let c := as_cfg s in
  let own := mkAdminConfig (ac_EnableOIDC c) (ac_OIDCProviderURL c) (ac_OIDCClientID c) (ac_EnableLocalAuth c) false []
               (ac_GrafanaURL c) (ac_PrometheusURL c) (ac_LokiURL c) in
  (AJson 200 (PSettings (if ai_redis io 0 then default own (as_settings s) else own)), s).
Definition handleUpdateSettings (io : adminIO) (s : AdminState) (r : adminRequest) (body : option AdminConfig)
    : adminReply * AdminState :=
  if wrong_type r then (media_error, s)
  else
    match body with
    | None => (bad_request, s)
    | Some settings =>
        let c := mkAdminAPIConfig (st_OIDCEnabled settings) (st_OIDCProviderURL settings) (st_OIDCClientID settings)
                   (st_LocalAuthEnabled settings) (st_GrafanaURL settings) (st_PrometheusURL settings)
                   (st_LokiURL settings) (st_IPAllowlist settings) in
        finish io (set_settings s c (if ai_redis io 0 then Some settings else as_settings s)) r
          "policy.update" "settings" "global" 200 (PSettings settings)
    end.

(** ** The router *)

(** The protected routes, with the parts of their paths and their bodies. *)
Inductive adminCall :=
| CLogout | CMe | CChangePassword (b : option ChangePasswordRequest)
| CCreateTenant (b : option Tenant) | CListTenants | CGetTenant (id : string)
| CUpdateTenant (id : string) (b : option Tenant) | CDeleteTenant (id : string) | CListUsers (tenantID : string)
| CCreateProject (tenantID : string) (b : option Project) | CListProjects (tenantID : string) | CGetProject (id : string)
| CUpdateProject (id : string) (b : option Project) | CDeleteProject (id : string)
| CCreateUser (b : option UserBody) | CGetUser (id : string)
| CUpdateUser (id : string) (b : option (string * option (list RoleBinding))) | CDeleteUser (id : string)
| CListNodes | CGetNode (id : string) | CGetNodeCredentials (id : string)
| CDisableNode (id : string) (b : option (string * option Z)) | CEnableNode (id : string) | CRevokeNode (id : string)
| CPatchNode (id : string) (b : option NodeAdminPatch)
| CCreatePolicy (b : option AdminPolicy) | CListPolicies | CGetPolicy (id : string)
| CUpdatePolicy (id : string) (b : option AdminPolicy) | CDeletePolicy (id : string) | CPublishPolicy (id : string)
| CRollbackPolicy (id : string) | CGetPolicyVersions (id : string)
| CCreateIngress (b : option Ingress) | CListIngresses | CGetIngress (id : string)
| CUpdateIngress (id : string) (b : option Ingress) | CDeleteIngress (id : string)
| CPrewarmCache (b : option TaskParams) | CPurgeCache (b : option TaskParams) | CBlockObject (b : option TaskParams)
| CListTasks | CGetTask (id : string) | CCancelTask (id : string)
| CQueryAudit | CExportAudit | CShowDashboard | CP2PTopology | CGetConfig | CUpdateConfig (b : option GlobalConfig)
| CGetSettings | CUpdateSettings (b : option AdminConfig).

Context (format_time : Z → chars).

Definition run_call (io : adminIO) (s : AdminState) (r : adminRequest) (c : adminCall) : adminReply * AdminState :=
  match c with
  | CLogout => handleLogout io s r | CMe => handleMe io s r | CChangePassword b => handleChangePassword io s r b
  | CCreateTenant b => handleCreateTenant io s r b | CListTenants => handleListTenants io s
  | CGetTenant id => handleGetTenant io s id | CUpdateTenant id b => handleUpdateTenant io s r id b
  | CDeleteTenant id => handleDeleteTenant io s r id | CListUsers id => handleListUsers io s id
  | CCreateProject id b => handleCreateProject io s r id b | CListProjects id => handleListProjects io s id
  | CGetProject id => handleGetProject io s id | CUpdateProject id b => handleUpdateProject io s r id b
  | CDeleteProject id => handleDeleteProject io s r id
  | CCreateUser b => handleCreateUser io s r b | CGetUser id => handleGetUser io s id
  | CUpdateUser id b => handleUpdateUser io s r id b | CDeleteUser id => handleDeleteUser io s r id
  | CListNodes => handleListNodes io s r | CGetNode id => AdminAPI_handleGetNode io s id
  | CGetNodeCredentials id => handleGetNodeCredentials io s id | CDisableNode id b => handleDisableNode io s r id b
  | CEnableNode id => handleEnableNode io s r id | CRevokeNode id => AdminAPI_handleRevokeNode io s r id
  | CPatchNode id b => handlePatchNode io s r id b
  | CCreatePolicy b => handleCreatePolicy io s r b | CListPolicies => handleListPolicies io s r
  | CGetPolicy id => handleGetPolicy io s id | CUpdatePolicy id b => handleUpdatePolicy io s r id b
  | CDeletePolicy id => handleDeletePolicy io s r id | CPublishPolicy id => handlePublishPolicy io s r id
  | CRollbackPolicy id => handleRollbackPolicy io s r id | CGetPolicyVersions id => handleGetPolicyVersions io s id
  | CCreateIngress b => handleCreateIngress io s r b | CListIngresses => handleListIngresses io s r
  | CGetIngress id => handleGetIngress io s id | CUpdateIngress id b => handleUpdateIngress io s r id b
  | CDeleteIngress id => handleDeleteIngress io s r id
  | CPrewarmCache b => AdminAPI_handlePrewarm io s r b | CPurgeCache b => AdminAPI_handlePurge io s r b
  | CBlockObject b => handleBlock io s r b
  | CListTasks => handleListTasks io s r | CGetTask id => handleGetTask io s id | CCancelTask id => handleCancelTask io s r id
  | CQueryAudit => handleQueryAudit io s r | CExportAudit => handleExportAudit format_time io s r
  | CShowDashboard => handleDashboard io s r | CP2PTopology => handleP2PTopology io s
  | CGetConfig => handleGetConfig s | CUpdateConfig b => handleUpdateConfig io s b
  | CGetSettings => handleGetSettings io s | CUpdateSettings b => handleUpdateSettings io s r b
  end.

(** [ipAllowlistMiddleware]. *)
Definition ip_allowed (s : AdminState) (r : adminRequest) : bool :=
  bool_decide (ac_IPAllowlist (as_cfg s) = []) || bool_decide (clientIP (rq_addr r) ∈ ac_IPAllowlist (as_cfg s)).

(** [JWTSession.Middleware]: the actor is put into the headers. *)
Definition with_actor (r : adminRequest) (c : JWTClaims) (requestID : string) : adminRequest :=
  mkAdminRequest (rq_ContentType r) (rq_Authorization r) (jc_UserID c) (jc_TenantID c) (jc_Email c) requestID
    (rq_UserAgent r) (rq_addr r) (rq_query r).
Definition bearer : chars := to_chars "Bearer ".
Definition JWTSession_Middleware (j : JWTSession) (now : Z) (requestID : string) (r : adminRequest) : option adminRequest :=
  if negb (has_prefix bearer (to_chars (rq_Authorization r))) then None
  else
    match JWTSession_Verify j now (of_chars (trim_prefix bearer (to_chars (rq_Authorization r)))) with
    | Ok claims => Some (with_actor r claims requestID)
    | _ => None
    end.

Inductive adminRoute :=
| RtHealthz | RtLogin (b : option LoginRequest) | RtRefresh (b : option string) | RtProtected (c : adminCall).

(** [requestID] is the fresh id of a protected request. *)
Definition serve (io : adminIO) (requestID : string) (s : AdminState) (r : adminRequest) (rt : adminRoute)
    : adminReply * AdminState :=
  match rt with
  | RtHealthz => handleAdminHealthz s
  | RtLogin b => handleLogin io s r b
  | RtRefresh b => handleRefresh io s r b
  | RtProtected c =>
      match JWTSession_Middleware (as_jwt s) (ai_now io) requestID r with
      | None => (AError 401 "UNAUTHORIZED", s)
      | Some r => if ip_allowed s r then run_call io s r c else (AError 403 "FORBIDDEN", s)
      end
  end.

(** [NewAdminAPI]: the first tenant and user are created unless there is a tenant under the
    key [default]; [None] if the password cannot be hashed. *)
Definition seed_password (env : string) : string := patched "admin123" env.
Definition NewAdminAPI (io : adminIO) (env : string) (s : AdminState) : option AdminState :=
  match PGStore_GetTenant (ai_db io 0) (as_db s) "default" with
  | Ok _ => Some s
  | _ =>
      let d := (PGStore_CreateTenant (ai_db io 1) (ai_now io) (ai_uuid io 0) (as_db s)
                  (mkTenant 0 0 "" "Default" "Default tenant")).2 in
      match GenerateFromPassword (ai_salt io) (seed_password env) with
      | None => None
      | Some hash =>
          Some (set_db s (PGStore_CreateUser (ai_db io 2) (ai_now io) (ai_uuid io 1) d
            (mkUser 0 0 "" "default" "admin@edf.local" "Admin" [mkRoleBinding UserRoleTenantOwner "default" ""] true) hash).2)
      end
  end.
End handlers.

(** ** Instances for concrete runs *)
#[export, refine] Instance demo_bcrypt : PasswordHash := {
  GenerateFromPassword salt p := if (String.length p <=? 72)%nat then Some (String.append "$" p) else None;
  CompareHashAndPassword h p := String.eqb h (String.append "$" p)
}.
Proof.
  - intros salt p h. destruct (_ <=? _)%nat; [|done]. intros [= <-]. apply String.eqb_refl.
  - intros salt p Hp. rewrite (proj2 (Nat.leb_le _ _)) by done. by eexists.
Defined.

#[export] Instance TaskParams_eq_dec : EqDecision TaskParams. Proof. solve_decision. Defined.
#[export] Instance TaskParams_countable : Countable TaskParams.
Proof.
  refine (inj_countable'
    (λ p, (tp_ObjectKey p, tp_KeyPrefix p, tp_TargetNodes p, tp_TargetScope p, tp_Concurrency p, tp_RateLimit p))
    (λ '(a, b, c, d, e, f), mkTaskParams a b c d e f) _).
  by intros [].
Defined.
(** A positive number as text and back. *)
Fixpoint pos_text (p : positive) : chars :=
  match p with
  | xH => [] | xO p => ch 48 :: pos_text p | xI p => ch 49 :: pos_text p
  end.
Fixpoint text_pos (l : chars) : positive :=
  match l with
  | [] => xH
  | c :: l => if bool_decide (c = ch 48) then xO (text_pos l) else xI (text_pos l)
  end.
Lemma text_pos_text p : text_pos (pos_text p) = p.
Proof. induction p as [p IH|p IH|]; simpl; [by rewrite IH..|done]. Qed.
#[export, refine] Instance demo_codec : ParamsCodec := {
  marshal_params p := of_chars (ch 123 :: pos_text (encode p));
  unmarshal_params t := match to_chars t with _ :: l => decode (text_pos l) | [] => None end
}.
Proof.
  - intros p. rewrite to_of_chars, text_pos_text. apply decode_encode.
  - done.
Defined.
