(* ===== verification/AdminSessions.v ===== *)
(** * Sessions of the admin console

    Theorems about the public and protected routes of [AdminApi]: what opens a protected
    route, what a login gives its user and for how long, what refreshing a session does, and
    what the console does when it starts. *)

From S2P Require Import Prelude GoStrings GoHash Models NodeCache Scheduler NodeLifecycle Policy Api RateLimiter.
From S2P Require Import GoJson Tokens AdminTables ConfigManager AdminApi.
From Stdlib Require Import Ascii.

Ltac run_cases :=
  repeat match goal with
  | |- context [match ?x with _ => _ end] => destruct x eqn:?; cbn [fst snd]
  end.

Section sessions.
Context `{PasswordHash} `{ParamsCodec} (format_time : Z → chars).
Abbreviation serve := (serve format_time).
Abbreviation run_call := (run_call format_time).

(** ** What no request changes *)
Lemma patch_status_jwt io s id p : as_jwt (patch_status io s id p).2 = as_jwt s.
Proof. unfold patch_status, set_rd, set_pg, set_api. run_cases; reflexivity. Qed.

Lemma run_call_jwt io s r c : as_jwt (run_call io s r c).2 = as_jwt s.
Proof.
  destruct c; cbn [AdminApi.run_call];
    unfold handleLogout, handleMe, handleChangePassword, handleCreateTenant, handleListTenants, handleGetTenant,
      handleUpdateTenant, handleDeleteTenant, handleListUsers, handleCreateProject, handleListProjects, handleGetProject,
      handleUpdateProject, handleDeleteProject, handleCreateUser, handleGetUser, handleUpdateUser, handleDeleteUser,
      handleListNodes, AdminAPI_handleGetNode, handleGetNodeCredentials, handleDisableNode, handleEnableNode,
      AdminAPI_handleRevokeNode, handlePatchNode, handleCreatePolicy, handleListPolicies, handleGetPolicy,
      handleUpdatePolicy, handleDeletePolicy, handlePublishPolicy, handleRollbackPolicy, handleGetPolicyVersions,
      handleCreateIngress, handleListIngresses, handleGetIngress, handleUpdateIngress, handleDeleteIngress,
      AdminAPI_handlePrewarm, AdminAPI_handlePurge, handleBlock, createCacheTask, handleListTasks, handleGetTask,
      handleCancelTask, handleQueryAudit, handleExportAudit, handleDashboard, handleP2PTopology, handleGetConfig,
      handleUpdateConfig, handleGetSettings, handleUpdateSettings, updated, finish, patch_columns, audit, set_rd, set_pg, set_api;
    run_cases; try reflexivity;
  match goal with E : patch_status ?io ?s ?id ?p = _ |- _ => pose proof (patch_status_jwt io s id p) as Hp; rewrite E in Hp end;
  exact Hp.
Qed.

Lemma serve_jwt io rid s r rt : as_jwt (serve io rid s r rt).2 = as_jwt s.
Proof.
  destruct rt as [|b|b|c]; cbn [AdminApi.serve].
  - done.
  - unfold handleLogin, finish, audit. run_cases; reflexivity.
  - unfold handleRefresh. run_cases; reflexivity.
  - run_cases; [apply run_call_jwt|reflexivity..].
Qed.

(** Requests one after the other. *)
Inductive admin_step (s : AdminState) : AdminState → Prop :=
| ad_request io rid r rt : admin_step s (serve io rid s r rt).2.

Lemma admin_steps_jwt s s' : rtc admin_step s s' → as_jwt s' = as_jwt s.
Proof. induction 1 as [s|s s1 s2 Hs _ IH]; [done|]. rewrite IH. destruct Hs. apply serve_jwt. Qed.

(** ** What opens a protected route *)
Lemma JWTSession_Verify_mac j now token c :
  JWTSession_Verify j now token = Ok c →
  ∃ input, to_chars token = input ++ ch 46 :: mac_text (js_secret j) input ∧ now / sec ≤ jc_ExpiresAt c.
Proof.
  unfold JWTSession_Verify. pose proof (join_split (ch 46) (to_chars token)) as Hj.
  destruct (split_on (ch 46) (to_chars token)) as [|h [|p [|sig [|]]]]; try done. intros Hv.
  exists (h ++ ch 46 :: p). rewrite <- Hj. cbn [join_with].
  repeat case_match; simplify_eq/=. case_bool_decide; [|done]. subst sig. rewrite <- app_assoc. split; [done|].
  match goal with E : (_ <? _) = false |- _ => apply Z.ltb_ge in E; exact E end.
Qed.

(** A request with a token of the console. *)
Definition bears (r : adminRequest) (token : string) : Prop := to_chars (rq_Authorization r) = bearer ++ to_chars token.

(** C3 (safety): Without a session nothing behind the protected routes is done or shown: a
    request on one of them is answered with 401 and changes nothing, unless it carries a
    bearer token that is a text with its HMAC under the console's secret and has not
    expired; a list of addresses, if there is one, must contain the client's; and the
    handler then runs with the user, tenant and e-mail address of the token, whatever the
    client wrote into the headers that name them. *)
Theorem admin_session_required io rid s r c :
  serve io rid s r (RtProtected c) = (AError 401 "UNAUTHORIZED", s) ∨
  ∃ token claims input,
    bears r token ∧
    JWTSession_Verify (as_jwt s) (ai_now io) token = Ok claims ∧
    to_chars token = input ++ ch 46 :: mac_text (js_secret (as_jwt s)) input ∧
    ai_now io / sec ≤ jc_ExpiresAt claims ∧
    serve io rid s r (RtProtected c) =
      if ip_allowed s r
      then run_call io s (with_actor r claims rid) c
      else (AError 403 "FORBIDDEN", s).
Proof.
  cbn [AdminApi.serve]. unfold JWTSession_Middleware.
  destruct (has_prefix bearer (to_chars (rq_Authorization r))) eqn:Hp; cbn [negb]; [|by left].
  apply has_prefix_spec in Hp as [t Ht]. rewrite Ht, trim_prefix_app.
  destruct (JWTSession_Verify _ _ _) as [claims| |] eqn:Hv; [|by left..]. right.
  destruct (JWTSession_Verify_mac _ _ _ _ Hv) as (input & Hmac & Hexp).
  exists (of_chars t), claims, input. unfold bears. rewrite to_of_chars. rewrite to_of_chars in Hmac. done.
Qed.

Lemma bears_admitted io rid s r c token claims :
  bears r token → JWTSession_Verify (as_jwt s) (ai_now io) token = Ok claims → ip_allowed s r = true →
  serve io rid s r (RtProtected c) = run_call io s (with_actor r claims rid) c.
Proof.
  intros Hb Hv Hip. unfold bears in Hb. cbn [AdminApi.serve]. unfold JWTSession_Middleware. rewrite !Hb, (trim_prefix_app bearer), has_prefix_app.
  cbn [negb]. rewrite of_to_chars, Hv. unfold ip_allowed in Hip. cbn [rq_addr with_actor]. unfold ip_allowed.
  cbn [rq_addr with_actor]. by rewrite Hip.
Qed.

(** What a login that succeeds has checked and answers. *)
Lemma login_inv io s r b lr s' :
  handleLogin io s r b = (AJson 200 (PLogin lr), s') →
  ∃ req row id, b = Some req ∧ db_users (as_db s) !! id = Some row ∧ us_Email (ur_User row) = lq_Email req ∧
    CompareHashAndPassword (ur_passwordHash row) (lq_Password req) = true ∧ lr_User lr = ur_User row ∧
    JWTSession_Sign (as_jwt s) (ai_now io) (us_UserID (ur_User row)) (us_TenantID (ur_User row)) (us_Email (ur_User row)) =
      Ok (lr_Token lr, lr_ExpiresAt lr).
Proof.
  unfold handleLogin. destruct (rateLimiter_Allow _ _) as [[] rl]; cbn [negb]; [|done].
  destruct (ac_EnableLocalAuth _); cbn [negb]; [|done]. destruct (wrong_type r); [done|].
  destruct b as [req|]; [|done]. unfold PGStore_GetUserByEmail. cbn [as_db set_limiter].
  destruct (ai_db io 0); cbn [negb]; [|done].
  destruct (filter _ _) as [|row rest] eqn:Ef; [done|].
  assert (Hrow : row ∈ filter (λ r0, us_Email (ur_User r0) = lq_Email req) (rows_of (db_users (as_db s)))).
  { rewrite Ef. by left. }
  apply list_elem_of_filter in Hrow as [Hem (id & Hid)%elem_of_rows].
  destruct (CompareHashAndPassword _ _) eqn:Hc; cbn [negb]; [|done]. cbn [as_jwt set_limiter].
  destruct (JWTSession_Sign _ _ _ _ _) as [[token exp]| |] eqn:Hs; [|done..].
  destruct (GenerateRefreshToken _); [|done]. unfold finish. intros [= <- <-].
  exists req, row, id. done.
Qed.

Lemma audit_users io s r action rtype rid :
  db_users (as_db (audit io s r action rtype rid)) = db_users (as_db s).
Proof. unfold audit, PGStore_CreateAuditEvent. by destruct (ai_audit io). Qed.

Definition user_texts (u : User) : Prop := text_ok (us_UserID u) ∧ text_ok (us_TenantID u) ∧ text_ok (us_Email u).
(** The claims of a login. *)
Definition login_claims (now : Z) (lr : LoginResponse) : JWTClaims :=
  mkJWTClaims (us_UserID (lr_User lr)) (us_TenantID (lr_User lr)) (us_Email (lr_User lr)) (lr_ExpiresAt lr) (now / sec).

Lemma handleLogin_jwt io s r b : as_jwt (handleLogin io s r b).2 = as_jwt s.
Proof. apply (serve_jwt io "" s r (RtLogin b)). Qed.

Lemma login_token_verifies io s r b lr s1 s2 now2 :
  handleLogin io s r b = (AJson 200 (PLogin lr), s1) → user_texts (lr_User lr) → is_i64 (ai_now io / sec) →
  rtc admin_step s1 s2 →
  JWTSession_Verify (as_jwt s2) now2 (lr_Token lr) =
    if lr_ExpiresAt lr <? now2 / sec then Err "token expired" else Ok (login_claims (ai_now io) lr).
Proof.
  intros Hl (Hu & Ht & Hm) Hn Hr. rewrite (admin_steps_jwt _ _ Hr).
  pose proof (handleLogin_jwt io s r b) as Hj. rewrite Hl in Hj. cbn [snd] in Hj. rewrite Hj.
  destruct (login_inv _ _ _ _ _ _ Hl) as (req & row & id & _ & _ & _ & _ & Huser & Hsign).
  unfold login_claims. rewrite Huser in Hu, Ht, Hm |- *. by apply jwt_roundtrip.
Qed.

(** A login needs the password of the user with that e-mail address, and
    what it answers is a session of this user: until the second it expires, and whatever
    requests are served meanwhile, its token runs every protected route as this user, and
    afterwards it is refused. *)
Theorem login_opens_session io s r b lr s1 s2 io2 rid2 r2 c :
  serve io "" s r (RtLogin b) = (AJson 200 (PLogin lr), s1) →
  rtc admin_step s1 s2 → user_texts (lr_User lr) → is_i64 (ai_now io / sec) →
  bears r2 (lr_Token lr) → ip_allowed s2 r2 = true →
  (∃ req row id, b = Some req ∧ db_users (as_db s) !! id = Some row ∧ us_Email (ur_User row) = lq_Email req ∧
     CompareHashAndPassword (ur_passwordHash row) (lq_Password req) = true ∧ lr_User lr = ur_User row) ∧
  serve io2 rid2 s2 r2 (RtProtected c) =
    if lr_ExpiresAt lr <? ai_now io2 / sec then (AError 401 "UNAUTHORIZED", s2)
    else run_call io2 s2 (with_actor r2 (login_claims (ai_now io) lr) rid2) c.
Proof.
  intros Hl Hr Htext Hn Hb Hip. change (handleLogin io s r b = (AJson 200 (PLogin lr), s1)) in Hl. split.
  - destruct (login_inv _ _ _ _ _ _ Hl) as (req & row & id & H1 & H2 & H3 & H4 & H5 & _). by exists req, row, id.
  - pose proof (login_token_verifies _ _ _ _ _ _ _ (ai_now io2) Hl Htext Hn Hr) as Hv.
    destruct (lr_ExpiresAt lr <? ai_now io2 / sec).
    + unfold bears in Hb. cbn [AdminApi.serve]. unfold JWTSession_Middleware.
      rewrite !Hb, (trim_prefix_app bearer), has_prefix_app. cbn [negb]. by rewrite of_to_chars, Hv.
    + by eapply bears_admitted.
Qed.

(** A session outlives its user, and roles are never looked at: after the user
    logged out, changed the password or was deleted, the token of an earlier login still
    gives any user of any tenant any roles. *)
Theorem session_outlives_user io s r b lr s1 s2 io2 rid2 r2 id row roles :
  serve io "" s r (RtLogin b) = (AJson 200 (PLogin lr), s1) →
  rtc admin_step s1 s2 → user_texts (lr_User lr) → is_i64 (ai_now io / sec) →
  bears r2 (lr_Token lr) → ip_allowed s2 r2 = true → wrong_type r2 = false → ai_now io2 / sec ≤ lr_ExpiresAt lr →
  db_users (as_db s2) !! us_UserID (lr_User lr) = None →
  ai_db io2 0 = true → ai_db io2 1 = true → db_users (as_db s2) !! id = Some row → us_UserID (ur_User row) = id →
  let '(reply, s3) := serve io2 rid2 s2 r2 (RtProtected (CUpdateUser id (Some ("", Some roles)))) in
  (∃ u, reply = AJson 200 (PUser u)) ∧
  ∃ row', db_users (as_db s3) !! id = Some row' ∧ us_Roles (ur_User row') = roles ∧
    us_Email (ur_User row') = us_Email (ur_User row) ∧ ur_passwordHash row' = ur_passwordHash row.
Proof.
  intros Hl Hr Htext Hn Hb Hip Hct Hle _ H0' H1' Hrow Hid.
  change (handleLogin io s r b = (AJson 200 (PLogin lr), s1)) in Hl.
  pose proof (login_token_verifies _ _ _ _ _ _ _ (ai_now io2) Hl Htext Hn Hr) as Hv.
  assert ((lr_ExpiresAt lr <? ai_now io2 / sec) = false) as Hlt by (apply Z.ltb_ge; lia). rewrite Hlt in Hv.
  rewrite (bears_admitted _ _ _ _ _ _ _ Hb Hv Hip). cbn [AdminApi.run_call]. unfold handleUpdateUser.
  change (wrong_type (with_actor r2 (login_claims (ai_now io) lr) rid2)) with (wrong_type r2). rewrite Hct, H0'.
  unfold PGStore_GetUser, select_row. cbn [negb]. rewrite Hrow. cbn [result_bind].
  unfold updated, PGStore_UpdateUser, update_user. rewrite H1'. cbn [negb us_UserID]. unfold finish.
  split; [by eexists|]. rewrite audit_users. cbn [as_db set_db db_users with_users]. rewrite Hid, lookup_alter_eq, Hrow.
  eexists. by split.
Qed.

(** ** Refreshing *)

(** A refresh token belongs to one user. *)
Definition refresh_unique (d : AdminDB) : Prop :=
  ∀ id1 id2 r1 r2, db_users d !! id1 = Some r1 → db_users d !! id2 = Some r2 →
    ur_refreshHash r1 = ur_refreshHash r2 → ur_refreshHash r1 ≠ "" → id1 = id2.

Lemma sha256Hash_nonempty t : sha256Hash t ≠ "".
Proof.
  unfold sha256Hash. pose proof (length_sha256 (bytes_of_string t)) as Hl.
  by destruct (sha256_sum _).
Qed.

Lemma refresh_lookup d h id :
  PGStore_GetUserIDByRefreshToken true d h = Ok id → ∃ row, db_users d !! id = Some row ∧ ur_refreshHash row = h ∧ h ≠ "".
Proof.
  unfold PGStore_GetUserIDByRefreshToken. destruct (String.eqb_spec h ""); [done|]. cbn [negb].
  destruct (filter _ _) as [|[k row] rest] eqn:E; [done|]. intros [= <-].
  assert (Hin : (k, row) ∈ filter (λ kr, ur_refreshHash kr.2 = h) (map_to_list (db_users d))) by (rewrite E; by left).
  apply list_elem_of_filter in Hin as [Hh Hin%elem_of_map_to_list]. by exists row.
Qed.

Lemma refresh_found d id row :
  refresh_unique d → db_users d !! id = Some row → ur_refreshHash row ≠ "" →
  PGStore_GetUserIDByRefreshToken true d (ur_refreshHash row) = Ok id.
Proof.
  intros Hu Hid Hne. unfold PGStore_GetUserIDByRefreshToken. destruct (String.eqb_spec (ur_refreshHash row) ""); [done|].
  cbn [negb]. destruct (filter _ _) as [|[k row'] rest] eqn:E.
  - exfalso. assert (Hin : (id, row) ∈ filter (λ kr, ur_refreshHash kr.2 = ur_refreshHash row) (map_to_list (db_users d))).
    { apply list_elem_of_filter. split; [done|]. by apply elem_of_map_to_list. }
    rewrite E in Hin. by apply not_elem_of_nil in Hin.
  - assert (Hin : (k, row') ∈ filter (λ kr, ur_refreshHash kr.2 = ur_refreshHash row) (map_to_list (db_users d))) by (rewrite E; by left).
    apply list_elem_of_filter in Hin as [Hh Hin%elem_of_map_to_list]. cbn in Hh. f_equal.
    eapply Hu; [exact Hin|exact Hid|exact Hh|congruence].
Qed.

Lemma refresh_missing ok d h :
  (∀ id row, db_users d !! id = Some row → ur_refreshHash row ≠ h) →
  ∃ e, PGStore_GetUserIDByRefreshToken ok d h = Err e.
Proof.
  intros Hno. unfold PGStore_GetUserIDByRefreshToken. destruct (String.eqb h ""); [by eexists|].
  destruct ok; [|by eexists]. cbn [negb]. destruct (filter _ _) as [|[k row] rest] eqn:E; [by eexists|]. exfalso.
  assert (Hin : (k, row) ∈ filter (λ kr, ur_refreshHash kr.2 = h) (map_to_list (db_users d))) by (rewrite E; by left).
  apply list_elem_of_filter in Hin as [Hh Hin%elem_of_map_to_list]. by eapply Hno.
Qed.

(** A refresh token that no user holds. *)
Lemma refresh_refused io s r t :
  (∀ id row, db_users (as_db s) !! id = Some row → ur_refreshHash row ≠ sha256Hash t) →
  wrong_type r = false → t ≠ "" → handleRefresh io s r (Some t) = (AError 401 "INVALID_REFRESH_TOKEN", s).
Proof.
  intros Hno Hct Hne. unfold handleRefresh. rewrite Hct. destruct (String.eqb_spec t ""); [done|].
  by destruct (refresh_missing (ai_db io 0) _ _ Hno) as [e ->].
Qed.

Lemma refresh_inv io s r old token exp new s1 :
  handleRefresh io s r (Some old) = (AJson 200 (PRefreshed token exp new), s1) →
  ∃ id row, db_users (as_db s) !! id = Some row ∧ ur_refreshHash row = sha256Hash old ∧ old ≠ "" ∧ wrong_type r = false ∧
    GenerateRefreshToken (ai_entropy io) = Some new ∧
    JWTSession_Sign (as_jwt s) (ai_now io) (us_UserID (ur_User row)) (us_TenantID (ur_User row)) (us_Email (ur_User row)) =
      Ok (token, exp) ∧
    s1 = set_db s (PGStore_UpdateUserRefreshToken (ai_db io 2) (ai_now io) (as_db s) (us_UserID (ur_User row)) (sha256Hash new)).2.
Proof.
  unfold handleRefresh. destruct (wrong_type r); [done|]. destruct (String.eqb_spec old "") as [|Hne]; [done|].
  destruct (ai_db io 0); [|unfold PGStore_GetUserIDByRefreshToken; by destruct (String.eqb _ "")].
  destruct (PGStore_GetUserIDByRefreshToken _ _ _) as [id| |] eqn:Eg; [|done..].
  destruct (refresh_lookup _ _ _ Eg) as (row & Hid & Hh & _).
  unfold PGStore_GetUser, select_row. destruct (ai_db io 1); [|done]. cbn [negb]. rewrite Hid. cbn [result_bind].
  destruct (JWTSession_Sign _ _ _ _ _) as [[tk x]| |] eqn:Es; [|done..].
  destruct (GenerateRefreshToken _) as [nt|] eqn:Er; [|done]. intros [= <- <- <- <-]. by exists id, row.
Qed.

Lemma rotated_unique d id f h :
  refresh_unique d → (∀ id' row, db_users d !! id' = Some row → ur_refreshHash row ≠ h) → (∀ row, ur_refreshHash (f row) = h) →
  refresh_unique (with_users d (alter f id (db_users d))).
Proof.
  intros Hu Hfresh Hf id1 id2 r1 r2. cbn [db_users with_users].
  destruct (decide (id = id1)) as [<-|Hn1], (decide (id = id2)) as [<-|Hn2]; rewrite ?lookup_alter_eq, ?lookup_alter_ne by done;
    [done|..].
  - intros (r1' & _ & ->)%fmap_Some H2 E _. rewrite Hf in E. by destruct (Hfresh _ _ H2).
  - intros H1 (r2' & _ & ->)%fmap_Some E _. rewrite Hf in E. by destruct (Hfresh _ _ H1).
  - apply Hu.
Qed.

Lemma set_db_same s : set_db s (as_db s) = s.
Proof. by destruct s. Qed.

Lemma GenerateRefreshToken_nonempty e t : GenerateRefreshToken e = Some t → t ≠ "".
Proof. destruct e; [|done]. by intros [= <-]. Qed.


(** ** Starting *)

Definition seed_email : string := "admin@edf.local".

(** No tenant is kept under the key the start looks for. *)
Lemma no_default_tenant d ok : db_wf d → ∃ e, PGStore_GetTenant ok d "default" = Err e.
Proof.
  intros Hwf. unfold PGStore_GetTenant, select_row. destruct ok; [|by eexists]. cbn [negb].
  destruct (db_tenants d !! "default") as [t|] eqn:E; [|by eexists].
  destruct (wf_tenant _ Hwf _ _ E) as [_ Hp]. by vm_compute in Hp.
Qed.

Lemma CreateUser_row d now uuid u hash :
  (∀ id row, db_users d !! id = Some row → us_Email (ur_User row) ≠ us_Email u) → db_users d !! prefixed "u_" uuid = None →
  let d' := (PGStore_CreateUser true now uuid d u hash).2 in
  ∃ row, db_users d' !! prefixed "u_" uuid = Some row ∧ us_Email (ur_User row) = us_Email u ∧ ur_passwordHash row = hash ∧
    us_Roles (ur_User row) = us_Roles u ∧ db_tenants d' = db_tenants d.
Proof.
  intros Hno Hnew. unfold PGStore_CreateUser. cbn [us_Email]. rewrite bool_decide_eq_false_2.
  2:{ intros (id & row & Hid & He)%email_taken. by apply (Hno id row). }
  unfold insert_row. rewrite Hnew. cbn. eexists. by rewrite lookup_insert_eq.
Qed.

Lemma login_succeeds io s r email password row id token exp refresh rl :
  rateLimiter_Allow (as_limiter s) (ai_now io) = (true, rl) → ac_EnableLocalAuth (as_cfg s) = true → wrong_type r = false →
  ai_db io 0 = true → db_wf (as_db s) → db_users (as_db s) !! id = Some row → us_Email (ur_User row) = email →
  CompareHashAndPassword (ur_passwordHash row) password = true →
  JWTSession_Sign (as_jwt s) (ai_now io) (us_UserID (ur_User row)) (us_TenantID (ur_User row)) email = Ok (token, exp) →
  GenerateRefreshToken (ai_entropy io) = Some refresh →
  (handleLogin io s r (Some (mkLoginRequest email password))).1 =
    AJson 200 (PLogin (mkLoginResponse token refresh (ur_User row) exp (us_Roles (ur_User row)) (us_MustChange (ur_User row)))).
Proof.
  intros Hrl Hla Hct Hdb Hwf Hid Hem Hcmp Hs Hg. unfold handleLogin. rewrite Hrl. cbn [negb]. cbn [as_cfg set_limiter as_db as_jwt].
  rewrite Hla, Hct, Hdb. cbn [negb lq_Email lq_Password]. rewrite <- Hem at 1. rewrite (GetUserByEmail_spec _ _ _ Hwf Hid), Hcmp. cbn [negb].
  rewrite Hem, Hs, Hg. done.
Qed.

(** The key of a tenant is generated, so that the first tenant is never found
    under the key that the start asks for: every start creates another tenant, and if the
    first administrator was deleted meanwhile, creates it again with the password of the
    environment or else the published one, which then logs in as an owner. *)
Theorem restart_restores_seed io env s r rl refresh io2 :
  rtc db_step empty_db (as_db s) →
  (String.length (seed_password env) ≤ 72)%nat → (∀ n, ai_db io n = true) →
  db_tenants (as_db s) !! prefixed "t_" (ai_uuid io 0) = None → db_users (as_db s) !! prefixed "u_" (ai_uuid io 1) = None →
  (∀ id row, db_users (as_db s) !! id = Some row → us_Email (ur_User row) ≠ seed_email) →
  ac_EnableLocalAuth (as_cfg s) = true → wrong_type r = false → ai_db io2 0 = true →
  rateLimiter_Allow (as_limiter s) (ai_now io2) = (true, rl) → GenerateRefreshToken (ai_entropy io2) = Some refresh →
  ∃ s' lr, NewAdminAPI io env s = Some s' ∧
    size (db_tenants (as_db s')) = S (size (db_tenants (as_db s))) ∧
    (handleLogin io2 s' r (Some (mkLoginRequest seed_email (seed_password env)))).1 = AJson 200 (PLogin lr) ∧
    lr_Roles lr = [mkRoleBinding UserRoleTenantOwner "default" ""].
Proof.
  intros Hsteps Hlen Hio Htn Hun Hno Hla Hct Hdb Hrl Hg.
  assert (Hwf : db_wf (as_db s)) by (by apply (db_steps_wf _ _ Hsteps)).
  unfold NewAdminAPI. destruct (no_default_tenant (as_db s) (ai_db io 0) Hwf) as [e ->].
  destruct (generate_short (ai_salt io) (seed_password env) Hlen) as [hash Hhash]. rewrite Hhash.
  pose proof (compare_generated _ _ _ Hhash) as Hcmp.
  set (u := mkUser _ _ _ _ _ _ _ _). set (d1 := (PGStore_CreateTenant _ _ _ _ _).2).
  assert (Hd1 : db_wf d1) by (by apply CreateTenant_wf).
  assert (E1 : db_users d1 = db_users (as_db s) ∧ size (db_tenants d1) = S (size (db_tenants (as_db s)))).
  { unfold d1, PGStore_CreateTenant, insert_row. rewrite Hio, Htn. cbn [negb snd db_users db_tenants with_tenants].
    split; [done|]. by apply map_size_insert_None. }
  destruct E1 as [E1 E2].
  rewrite <- E1 in Hno, Hun.
  destruct (CreateUser_row d1 (ai_now io) (ai_uuid io 1) u hash Hno Hun) as (row & Hrow & Hem & Hpw & Hroles & Htenants).
  pose proof (CreateUser_wf d1 true (ai_now io) (ai_uuid io 1) u hash Hd1) as Hd2.
  rewrite Hio. set (d2 := (PGStore_CreateUser _ _ _ _ _ _).2) in *.
  eexists (set_db s d2), _. split; [done|]. split; [cbn [as_db set_db]; rewrite Htenants; exact E2|]. split.
  - eapply (login_succeeds io2 (set_db s d2)); try done. by rewrite Hpw.
  - exact Hroles.
Qed.
End sessions.

(** ** A concrete run *)
Definition demo_admin_cfg : AdminAPIConfig := mkAdminAPIConfig false "" "" true "" "" "" [].
Definition demo_admin (d : AdminDB) : AdminState :=
  mkAdminState demo_api d demo_admin_cfg demo_session None (mkSbConfig true 50 true true 2 20) None (newRateLimiter 5 10 0).
(** Every statement is executed; the random parts of keys and tokens are given. *)
Definition demo_io (now : Z) (uuid : string) : adminIO :=
  mkAdminIO (now * sec) (λ _, true) (λ _, true) true (λ _, uuid) (Some (bytes_of_string uuid)) "salt".
Definition demo_request (authorization : string) : adminRequest :=
  mkAdminRequest "application/json" authorization "" "" "" "" "curl" demo_http ∅.
Definition demo_two_users : AdminDB :=
  (PGStore_CreateUser true 4 "0000000d" demo_db (mkUser 0 0 "" "t_0000000a" "bob@acme.example" "Bob" [] false) "$hidden").2.
Definition demo_console : AdminState := demo_admin demo_two_users.
Definition demo_serve : adminIO → string → AdminState → adminRequest → adminRoute → adminReply * AdminState :=
  serve (λ _, []).

Definition demo_login : adminReply * AdminState :=
  demo_serve (demo_io 1000 "first") "" demo_console (demo_request "") (RtLogin (Some (mkLoginRequest "ann@acme.example" "secret"))).
Definition demo_login_reply : LoginResponse :=
  match demo_login.1 with
  | AJson _ (PLogin l) => l | _ => mkLoginResponse "" "" (mkUser 0 0 "" "" "" "" [] false) 0 [] false
  end.
Definition demo_bearer : adminRequest := demo_request (String.append "Bearer " (lr_Token demo_login_reply)).
(** Ann deletes her own user. *)
Definition demo_gone : AdminState :=
  (demo_serve (demo_io 1001 "second") "r1" demo_login.2 demo_bearer (RtProtected (CDeleteUser "u_0000000c"))).2.

Lemma demo_login_succeeds : demo_login = (AJson 200 (PLogin demo_login_reply), demo_login.2).
Proof. vm_compute. reflexivity. Qed.
Lemma demo_gone_reached : rtc (admin_step (λ _, [])) demo_login.2 demo_gone.
Proof. apply rtc_once, ad_request. Qed.
Lemma demo_user_texts : user_texts (lr_User demo_login_reply).
Proof. split; [|split]; apply ascii_text; vm_compute; reflexivity. Qed.
Lemma demo_bears : bears demo_bearer (lr_Token demo_login_reply).
Proof. vm_compute. reflexivity. Qed.

Lemma login_opens_session_witness :
  demo_serve (demo_io 4600 "third") "r2" demo_gone demo_bearer (RtProtected CListTenants) =
    handleListTenants (demo_io 4600 "third") demo_gone ∧
  demo_serve (demo_io 4601 "third") "r2" demo_gone demo_bearer (RtProtected CListTenants) = (AError 401 "UNAUTHORIZED", demo_gone).
Proof.
  assert (Hn : is_i64 (ai_now (demo_io 1000 "first") / sec)) by (vm_compute; split; [discriminate|reflexivity]).
  assert (Hip : ip_allowed demo_gone demo_bearer = true) by (vm_compute; reflexivity).
  unfold demo_serve. split.
  - destruct (login_opens_session (λ _, []) _ _ _ _ _ _ demo_gone (demo_io 4600 "third") "r2" demo_bearer CListTenants
      demo_login_succeeds demo_gone_reached demo_user_texts Hn demo_bears Hip) as [_ ->]. vm_compute. reflexivity.
  - destruct (login_opens_session (λ _, []) _ _ _ _ _ _ demo_gone (demo_io 4601 "third") "r2" demo_bearer CListTenants
      demo_login_succeeds demo_gone_reached demo_user_texts Hn demo_bears Hip) as [_ ->]. vm_compute. reflexivity.
Defined.

(** After that she makes Bob an owner. *)
Definition demo_roles : list RoleBinding := [mkRoleBinding UserRoleTenantOwner "t_0000000a" ""].
Lemma session_outlives_user_witness :
  db_users (as_db demo_gone) !! "u_0000000c" = None ∧
  ∃ row, db_users (as_db (demo_serve (demo_io 1002 "third") "r2" demo_gone demo_bearer
    (RtProtected (CUpdateUser "u_0000000d" (Some ("", Some demo_roles))))).2) !! "u_0000000d" = Some row ∧
    us_Roles (ur_User row) = demo_roles.
Proof.
  split; [vm_compute; reflexivity|].
  assert (Hn : is_i64 (ai_now (demo_io 1000 "first") / sec)) by (vm_compute; split; [discriminate|reflexivity]).
  assert (Hrow : ∃ row, db_users (as_db demo_gone) !! "u_0000000d" = Some row ∧ us_UserID (ur_User row) = "u_0000000d").
  { eexists. split; vm_compute; reflexivity. }
  destruct Hrow as (row & Hrow & Hid).
  pose proof (session_outlives_user (λ _, []) _ _ _ _ _ _ demo_gone (demo_io 1002 "third") "r2" demo_bearer "u_0000000d"
    row demo_roles demo_login_succeeds demo_gone_reached demo_user_texts Hn demo_bears) as Hs.
  unfold demo_serve. destruct (serve _ _ _ _ _ _) as [reply s3].
  destruct Hs as [_ (row' & Hr & Hroles & _)];
    [vm_compute; reflexivity|vm_compute; reflexivity|vm_compute; discriminate|vm_compute; reflexivity..|exact Hrow|exact Hid|].
  cbn [snd]. exists row'. split; [exact Hr|exact Hroles].
Defined.

(** A session of Ann's is refreshed; what is checked of its users can be decided. *)
Definition demo_refreshable : AdminState :=
  set_db demo_console (PGStore_UpdateUserRefreshToken true 5 demo_two_users "u_0000000c" (sha256Hash "rt_first")).2.
Definition demo_refresh_io (ok : nat → bool) : adminIO :=
  mkAdminIO (1000 * sec) ok (λ _, true) true (λ _, "") (Some (bytes_of_string "second")) "salt".
Abbreviation demo_refresh ok := (handleRefresh (demo_refresh_io ok) demo_refreshable (demo_request "") (Some "rt_first")).
Definition demo_new_token : string := match (demo_refresh (λ _, true)).1 with AJson _ (PRefreshed _ _ t) => t | _ => "" end.

Lemma demo_refresh_unique : refresh_unique (as_db demo_refreshable).
Proof.
  assert (H : map_Forall (λ id1 r1, map_Forall (λ id2 r2, ur_refreshHash r1 = ur_refreshHash r2 → ur_refreshHash r1 ≠ "" → id1 = id2)
    (db_users (as_db demo_refreshable))) (db_users (as_db demo_refreshable))).
  { apply (bool_decide_unpack _). vm_compute. exact I. }
  intros id1 id2 r1 r2 H1 H2. exact (H id1 r1 H1 id2 r2 H2).
Qed.
Lemma demo_refresh_fresh id row :
  db_users (as_db demo_refreshable) !! id = Some row → ur_refreshHash row ≠ sha256Hash demo_new_token.
Proof.
  assert (H : map_Forall (λ _ row, ur_refreshHash row ≠ sha256Hash demo_new_token) (db_users (as_db demo_refreshable))).
  { apply (bool_decide_unpack _). vm_compute. exact I. }
  exact (H id row).
Qed.
Lemma demo_refresh_wf : db_wf (as_db demo_refreshable).
Proof.
  apply (db_steps_wf demo_two_users); [apply rtc_once, ds_user_refresh|].
  by apply (db_steps_wf demo_db); [apply rtc_once, ds_user_create|apply (db_steps_wf _ _ demo_db_reached)].
Qed.

Definition demo_unstored (n : nat) : bool := negb (n =? 2)%nat.
Definition refresh_parts (x : adminReply * AdminState) : string * Z :=
  match x.1 with AJson _ (PRefreshed t e _) => (t, e) | _ => ("", 0) end.

Lemma demo_refreshed ok :
  ok = (λ _, true) ∨ ok = demo_unstored →
  demo_refresh ok = (AJson 200 (PRefreshed (refresh_parts (demo_refresh ok)).1 (refresh_parts (demo_refresh ok)).2 demo_new_token),
    (demo_refresh ok).2).
Proof. intros [->| ->]; vm_compute; reflexivity. Qed.
Definition replayed (ok : nat → bool) (token : string) : adminReply :=
  (handleRefresh (demo_io 1001 "third") (demo_refresh ok).2 (demo_request "") (Some token)).1.


(** A console without users: its administrator was deleted. *)
Lemma restart_restores_seed_witness :
  ∃ s' lr, NewAdminAPI (demo_io 2000 "0000000e") "" (demo_admin empty_db) = Some s' ∧
    (handleLogin (demo_io 2001 "first") s' (demo_request "") (Some (mkLoginRequest "admin@edf.local" "admin123"))).1 =
      AJson 200 (PLogin lr).
Proof.
  destruct (restart_restores_seed (demo_io 2000 "0000000e") "" (demo_admin empty_db) (demo_request "")
    (rateLimiter_Allow (as_limiter (demo_admin empty_db)) (2001 * sec)).2
    (default "" (GenerateRefreshToken (Some (bytes_of_string "first")))) (demo_io 2001 "first")) as (s' & lr & H1 & _ & H2 & _).
  - apply rtc_refl.
  - apply Nat.leb_le. vm_compute. reflexivity.
  - done.
  - apply lookup_empty.
  - apply lookup_empty.
  - intros id row H. change ((∅ : gmap string userRow) !! id = Some row) in H. by rewrite lookup_empty in H.
  - done.
  - vm_compute. reflexivity.
  - done.
  - vm_compute. reflexivity.
  - vm_compute. reflexivity.
  - exists s', lr. split; [exact H1|exact H2].
Defined.
