(* ===== verification/WorkerPool.v ===== *)
(** * The goroutines of a task ([internal/controlplane/task_executor.go])

    The three kinds of tasks send one request to every target node, each from a goroutine of
    its own, at most [cap] of them at a time: a goroutine takes a slot of the channel [sem],
    sends its request, counts the node under the mutex if it was answered, and gives the slot
    back; [wg.Wait] returns when all are done.

    [pool_step] is the machine of these goroutines, with what the requests reach as its
    environment.  The theorem of this file: the machine cannot deadlock, stops after at most
    three steps per target, and ends as if the requests had been sent one after the other in
    some order. *)

From S2P Require Import Prelude Models.

Section pool.
Context {E : Type}.
(** The request to an address: whether it is answered, and what it changes. *)
Context (push : string → E → bool * E).

(** A node without endpoints is passed over. *)
Definition node_push (n : Node) (e : E) : bool * E :=
  match n_Endpoints n with [] => (false, e) | ep :: _ => push (Endpoint_URL ep) e end.

(** One request after the other: the number of answers. *)
Fixpoint push_all (nodes : list Node) (e : E) : Z * E :=
  match nodes with
  | [] => (0, e)
  | n :: ns =>
      let '(ok, e) := node_push n e in
      let '(done, e) := push_all ns e in ((if ok : bool then 1 else 0) + done, e)
  end.

(** *** The machine *)
Inductive goroutine := GWait | GHold | GAnswered (ok : bool) | GDone.
Record pool := mkPool {
  po_procs : list (Node * goroutine); po_held : Z; po_done : Z; po_env : E
}.
Definition start_pool (targets : list Node) (e : E) : pool := mkPool ((λ n, (n, GWait)) <$> targets) 0 0 e.
(** [wg.Wait] returns. *)
Definition pool_finished (p : pool) : Prop := Forall (λ x, x.2 = GDone) (po_procs p).

Inductive pool_step (cap : Z) (p : pool) : pool → Prop :=
| ps_take i n :
    po_procs p !! i = Some (n, GWait) → po_held p < cap →
    pool_step cap p (mkPool (<[i := (n, GHold)]> (po_procs p)) (po_held p + 1) (po_done p) (po_env p))
| ps_request i n ok e :
    po_procs p !! i = Some (n, GHold) → node_push n (po_env p) = (ok, e) →
    pool_step cap p (mkPool (<[i := (n, GAnswered ok)]> (po_procs p)) (po_held p) (po_done p) e)
| ps_release i n ok :
    po_procs p !! i = Some (n, GAnswered ok) →
    pool_step cap p (mkPool (<[i := (n, GDone)]> (po_procs p)) (po_held p - 1)
      (po_done p + if ok : bool then 1 else 0) (po_env p)).

(** *** Sums over the goroutines *)
Fixpoint total_of (f : Node * goroutine → Z) (l : list (Node * goroutine)) : Z :=
  match l with [] => 0 | x :: l => f x + total_of f l end.

Lemma total_of_insert f l i x y : l !! i = Some x → total_of f (<[i := y]> l) = total_of f l - f x + f y.
Proof.
  revert i. induction l as [|z l IH]; intros i; [done|]. destruct i as [|i]; simpl.
  - intros [= ->]. lia.
  - intros Hi. rewrite (IH _ Hi). lia.
Qed.

Lemma total_of_nonneg f l : (∀ x, 0 ≤ f x) → 0 ≤ total_of f l.
Proof. intros Hf. induction l as [|x l IH]; simpl; [lia|]. specialize (Hf x). lia. Qed.

Definition steps_left (x : Node * goroutine) : Z :=
  match x.2 with GWait => 3 | GHold => 2 | GAnswered _ => 1 | GDone => 0 end.
Definition holding (x : Node * goroutine) : Z :=
  match x.2 with GHold | GAnswered _ => 1 | _ => 0 end.
Definition uncounted (x : Node * goroutine) : Z := match x.2 with GAnswered true => 1 | _ => 0 end.
Definition has_pushed (x : Node * goroutine) : bool := match x.2 with GAnswered _ | GDone => true | _ => false end.
Definition pushed (l : list (Node * goroutine)) : list Node := (filter (λ x, has_pushed x = true) l).*1.

Lemma pushed_insert_same l i x y :
  l !! i = Some x → x.1 = y.1 → has_pushed x = has_pushed y → pushed (<[i := y]> l) = pushed l.
Proof.
  intros Hi H1 H2. unfold pushed. revert i Hi. induction l as [|z l IH]; intros i; [done|]. destruct i as [|i]; simpl.
  - intros [= ->]. rewrite !filter_cons, H2. destruct (decide _); simpl; by rewrite ?H1.
  - intros Hi. rewrite !filter_cons. destruct (decide _); simpl; by rewrite IH.
Qed.

Lemma pushed_insert_new l i x y :
  l !! i = Some x → has_pushed x = false → has_pushed y = true → pushed (<[i := y]> l) ≡ₚ pushed l ++ [y.1].
Proof.
  intros Hi H1 H2. unfold pushed. revert i Hi. induction l as [|z l IH]; intros i; [done|]. destruct i as [|i]; simpl.
  - intros [= ->]. rewrite !filter_cons, H1, H2. simpl. apply Permutation_cons_append.
  - intros Hi. rewrite !filter_cons. destruct (decide _); simpl; [apply Permutation_skip|]; by apply IH.
Qed.

Lemma push_all_snoc l n e done e1 ok e2 :
  push_all l e = (done, e1) → node_push n e1 = (ok, e2) → push_all (l ++ [n]) e = (done + if ok : bool then 1 else 0, e2).
Proof.
  revert e done. induction l as [|m l IH]; intros e done; simpl.
  - intros [= <- <-] ->. f_equal. lia.
  - destruct (node_push m e) as [okm em]. destruct (push_all l em) as [d d'] eqn:El. intros [= <- <-] Hn.
    rewrite (IH _ _ El Hn). f_equal. destruct okm, ok; lia.
Qed.

(** *** The invariant *)
Record pool_inv (cap : Z) (targets : list Node) (e0 : E) (p : pool) : Prop := {
  pi_targets : (po_procs p).*1 = targets;
  pi_held : po_held p = total_of holding (po_procs p);
  pi_cap : po_held p ≤ cap;
  pi_seq : ∃ order, order ≡ₚ pushed (po_procs p) ∧
    push_all order e0 = (po_done p + total_of uncounted (po_procs p), po_env p)
}.

Lemma start_pool_inv cap targets e0 : 0 < cap → pool_inv cap targets e0 (start_pool targets e0).
Proof.
  intros Hcap. assert (Ht : ∀ f, (∀ n, f (n, GWait) = 0) → total_of f ((λ n, (n, GWait)) <$> targets) = 0).
  { intros f Hf. induction targets as [|n l IH]; [done|]. simpl. rewrite Hf. exact IH. }
  split; unfold start_pool; simpl.
  - rewrite <- list_fmap_compose. apply list_fmap_id.
  - by rewrite Ht.
  - lia.
  - exists []. rewrite Ht by done. split; [|done]. clear Ht. induction targets as [|n l IH]; [done|exact IH].
Qed.

Lemma insert_fst (l : list (Node * goroutine)) i x y : l !! i = Some x → x.1 = y.1 → (<[i := y]> l).*1 = l.*1.
Proof. intros Hi Hxy. rewrite list_fmap_insert. apply list_insert_id. by rewrite list_lookup_fmap, Hi, <- Hxy. Qed.

Lemma pool_step_inv cap targets e0 p p' : pool_step cap p p' → pool_inv cap targets e0 p → pool_inv cap targets e0 p'.
Proof.
  intros Hs [H1 H2 H3 (order & Ho & Hp)]. destruct Hs as [i n Hi Hlt|i n ok e Hi He|i n ok Hi]; split; cbn [po_procs po_held po_done po_env].
  - by rewrite (insert_fst _ _ _ _ Hi).
  - rewrite (total_of_insert _ _ _ _ _ Hi). unfold holding at 2 3. simpl. lia.
  - lia.
  - exists order. rewrite (pushed_insert_same _ _ _ _ Hi), (total_of_insert _ _ _ _ _ Hi) by done. split; [done|].
    rewrite Hp. unfold uncounted at 3 4. simpl. f_equal. lia.
  - by rewrite (insert_fst _ _ _ _ Hi).
  - rewrite (total_of_insert _ _ _ _ _ Hi). unfold holding at 2 3. simpl. lia.
  - done.
  - exists (order ++ [n]). split; [by rewrite (pushed_insert_new _ _ _ _ Hi), Ho|].
    rewrite (push_all_snoc _ _ _ _ _ _ _ Hp He), (total_of_insert _ _ _ _ _ Hi). unfold uncounted at 3 4. simpl. f_equal.
    destruct ok; lia.
  - by rewrite (insert_fst _ _ _ _ Hi).
  - rewrite (total_of_insert _ _ _ _ _ Hi). unfold holding at 2 3. simpl. lia.
  - lia.
  - exists order. rewrite (pushed_insert_same _ _ _ _ Hi), (total_of_insert _ _ _ _ _ Hi) by done. split; [done|].
    rewrite Hp. unfold uncounted at 3 4. simpl. f_equal. destruct ok; lia.
Qed.

Lemma pool_step_measure cap p p' : pool_step cap p p' → total_of steps_left (po_procs p') = total_of steps_left (po_procs p) - 1.
Proof.
  intros Hs. destruct Hs as [i n Hi _|i n ok e Hi _|i n ok Hi]; cbn [po_procs];
    rewrite (total_of_insert _ _ _ _ _ Hi); unfold steps_left at 2 3; simpl; lia.
Qed.

Lemma pool_nsteps cap targets e0 k p :
  nsteps (pool_step cap) k (start_pool targets e0) p → 0 < cap →
  pool_inv cap targets e0 p ∧ total_of steps_left (po_procs p) = 3 * Z.of_nat (length targets) - Z.of_nat k.
Proof.
  intros Hk Hcap. assert (H0 : total_of steps_left (po_procs (start_pool targets e0)) = 3 * Z.of_nat (length targets)).
  { unfold start_pool. cbn [po_procs]. clear. induction targets as [|n l IH]; [done|].
    cbn [fmap list_fmap total_of length]. fold (fmap (M := list) (λ n, (n, GWait)) l). unfold steps_left at 1. cbn [snd]. lia. }
  pose proof (start_pool_inv cap targets e0 Hcap) as Hi. rewrite <- H0. clear H0. revert Hi.
  induction Hk as [p|k p p' p'' Hs _ IH]; intros Hi; [split; [done|lia]|].
  destruct IH as [IH1 IH2]; [by eapply pool_step_inv|]. split; [done|]. rewrite IH2, (pool_step_measure _ _ _ Hs). lia.
Qed.

(** Some goroutine can go on until all are done. *)
Lemma pool_progress cap targets e0 p : 0 < cap → pool_inv cap targets e0 p → pool_finished p ∨ ∃ p', pool_step cap p p'.
Proof.
  intros Hcap [_ H2 H3 _].
  destruct (decide (Forall (λ x, steps_left x = 0) (po_procs p))) as [Hall|Hsome].
  { left. eapply Forall_impl; [exact Hall|]. by intros [n []]. }
  right. destruct (decide (Exists (λ x, holding x = 1) (po_procs p))) as [He|Hno].
  - apply Exists_exists in He as ([n g] & Hin & Hg). apply list_elem_of_lookup in Hin as [i Hi].
    destruct g as [| |ok|]; try done.
    + destruct (node_push n (po_env p)) as [ok e] eqn:En. eexists. by eapply ps_request.
    + eexists. by eapply ps_release.
  - assert (Hz : total_of holding (po_procs p) = 0).
    { clear -Hno. induction (po_procs p) as [|[n g] l IH]; [done|]. simpl. rewrite IH by (intros H; apply Hno; by right).
      destruct g; try done; exfalso; apply Hno; by left. }
    apply not_Forall_Exists in Hsome; [|intros x; apply _]. apply Exists_exists in Hsome as ([n g] & Hin & Hg).
    apply list_elem_of_lookup in Hin as [i Hi]. rewrite Exists_exists in Hno.
    destruct g as [| |ok|]; [eexists; eapply ps_take; [exact Hi|lia]| | |by destruct Hg];
      exfalso; apply Hno; (eexists; split; [by eapply list_elem_of_lookup_2|done]).
Qed.

Lemma finished_sums p :
  pool_finished p → pushed (po_procs p) = (po_procs p).*1 ∧ total_of uncounted (po_procs p) = 0.
Proof.
  unfold pool_finished, pushed. intros Hf. induction Hf as [|[n g] l Hg Hl [IH1 IH2]]; [done|]. simpl in Hg. subst g.
  split; [|exact IH2]. cbn [fmap list_fmap fst]. rewrite filter_cons_True by done. cbn [fmap list_fmap fst]. by f_equal.
Qed.

(** C23 (termination): However the goroutines of a task are scheduled, they never deadlock on
    the semaphore, they are done after three steps for each target, and then every target
    got its request once, with the number of answers and the effect of sending the requests
    one after the other in some order. *)
Theorem pool_runs_out cap targets e0 k p :
  0 < cap → nsteps (pool_step cap) k (start_pool targets e0) p →
  Z.of_nat k ≤ 3 * Z.of_nat (length targets) ∧
  (Z.of_nat k < 3 * Z.of_nat (length targets) → ∃ p', pool_step cap p p') ∧
  (Z.of_nat k = 3 * Z.of_nat (length targets) →
     pool_finished p ∧ ∃ order, order ≡ₚ targets ∧ push_all order e0 = (po_done p, po_env p)).
Proof.
  intros Hcap Hk. destruct (pool_nsteps _ _ _ _ _ Hk Hcap) as [Hinv Hm].
  assert (H0 : ∀ x, 0 ≤ steps_left x) by (intros [n []]; unfold steps_left; simpl; lia).
  pose proof (total_of_nonneg steps_left (po_procs p) H0) as Hn. split; [lia|]. split.
  - intros Hlt. destruct (pool_progress _ _ _ _ Hcap Hinv) as [Hf|Hs]; [|done]. exfalso.
    enough (total_of steps_left (po_procs p) = 0) by lia. unfold pool_finished in Hf. clear -Hf.
    induction Hf as [|[n g] l Hg Hl IH]; [done|]. simpl in *. by subst g.
  - intros Heq. assert (Hz : total_of steps_left (po_procs p) = 0) by lia.
    assert (Hf : pool_finished p).
    { unfold pool_finished. clear -Hz H0. induction (po_procs p) as [|[n g] l IH]; [done|]. simpl in Hz.
      pose proof (total_of_nonneg steps_left l H0). pose proof (H0 (n, g)). constructor; [|apply IH; lia].
      destruct g; unfold steps_left in *; simpl in *; try done; lia. }
    split; [done|]. destruct (finished_sums _ Hf) as [Hp Hu]. destruct (pi_seq _ _ _ _ Hinv) as (order & Ho & He).
    exists order. rewrite Hp, (pi_targets _ _ _ _ Hinv) in Ho. split; [done|]. rewrite He, Hu. f_equal. lia.
Qed.
End pool.

(** ** A concrete run: two targets, one slot *)
Definition demo_worker (id host : string) : Node :=
  mkNode 0 0 0 [mkEndpoint "http" host 80] (mkCapabilities true 0 0 false "" false false GoFloat.fzero GoFloat.fzero false)
    (mkNodeScores GoFloat.fzero GoFloat.fzero GoFloat.fzero) ∅ "" None id "" "" id "" "" "" NodeStatusActive 100.
(** The addresses in the order of the requests; the second host does not answer. *)
Definition demo_log (a : string) (l : list string) : bool * list string := (negb (String.eqb a "http://10.0.0.2:80"), l ++ [a]).
Definition demo_targets : list Node := [demo_worker "n1" "10.0.0.1"; demo_worker "n2" "10.0.0.2"].
Definition demo_pool_end : pool :=
  mkPool ((λ n, (n, GDone)) <$> demo_targets) 0 1 ["http://10.0.0.2:80"; "http://10.0.0.1:80"].

Lemma demo_pool_run : nsteps (pool_step demo_log 1) 6 (start_pool demo_targets []) demo_pool_end.
Proof.
  eapply nsteps_l; [by apply (ps_take _ _ _ 1%nat (demo_worker "n2" "10.0.0.2"))|].
  eapply nsteps_l; [by apply (ps_request _ _ _ 1%nat (demo_worker "n2" "10.0.0.2") false ["http://10.0.0.2:80"])|].
  eapply nsteps_l; [by apply (ps_release _ _ _ 1%nat (demo_worker "n2" "10.0.0.2") false)|].
  eapply nsteps_l; [by apply (ps_take _ _ _ 0%nat (demo_worker "n1" "10.0.0.1"))|].
  eapply nsteps_l; [by apply (ps_request _ _ _ 0%nat (demo_worker "n1" "10.0.0.1") true ["http://10.0.0.2:80"; "http://10.0.0.1:80"])|].
  eapply nsteps_l; [by apply (ps_release _ _ _ 0%nat (demo_worker "n1" "10.0.0.1") true)|].
  apply nsteps_O.
Qed.

Lemma pool_runs_out_witness :
  pool_finished demo_pool_end ∧
  ∃ order, order ≡ₚ demo_targets ∧ push_all demo_log order [] = (1, ["http://10.0.0.2:80"; "http://10.0.0.1:80"]).
Proof.
  destruct (pool_runs_out demo_log 1 demo_targets [] 6 demo_pool_end eq_refl demo_pool_run) as (_ & _ & H).
  by apply H.
Defined.
