(* ===== verification/TaskExecutor.v ===== *)
(** * Background tasks ([internal/controlplane/task_executor.go])

    The console only writes cache tasks into their table ([AdminApi.createCacheTask]); the
    executor polls the table, pushes each pending task to the edge nodes ([EdgeServer], one
    server per address) and writes the outcome back.  The goroutines that push are those of
    [WorkerPool]; here they run one after the other in an order that is an argument, which
    [WorkerPool.pool_runs_out] shows to be general.

    The theorems: the queue drains, a purge asked for on the console reaches the caches of
    the nodes that answer, and what the recorded outcome does and does not say. *)

From S2P Require Import Prelude GoStrings Models NodeCache NodeLifecycle Scheduler EdgeCache EdgeServer WorkerPool.
From S2P Require Import GoJson AdminTables ConfigManager AdminApi.
From S2P Require AdminSessions.

Section executor.
Context `{ParamsCodec}.

(** The edge servers by the address they listen on. *)
Record TaskState := mkTaskState {
  tx_db : AdminDB; tx_pg : PGStore; tx_cache : NodeCache; tx_edges : gmap string Server
}.
Definition set_tasks (x : TaskState) (d : AdminDB) : TaskState := mkTaskState d (tx_pg x) (tx_cache x) (tx_edges x).
Definition set_edges (x : TaskState) (e : gmap string Server) : TaskState := mkTaskState (tx_db x) (tx_pg x) (tx_cache x) e.

(** What happens to the requests to an address: whether the request can be built, whether it
    arrives, whether the answer comes back whole; and the file operations of the edge. *)
Record pushIO := mkPushIO {
  pu_url_ok : string → bool; pu_arrives : string → bool; pu_answers : string → bool;
  pu_files : string → string → bool * bool;
  pu_object : string → nat → objectIO; pu_visit : gmap string Z → list (string * Z)
}.
(** Outcomes of one task: its statements, the lookups of named nodes, the list of active
    nodes, the order of the requests and their fates. *)
Record taskIO := mkTaskIO {
  ti_now : Z; ti_running : bool; ti_final : bool; ti_get : nat → bool; ti_list : bool;
  ti_order : list Node → list Node; ti_push : pushIO
}.

(** A request with a list of keys.  An answer counts if it is JSON, which the edge sends
    exactly if it accepts the request; its status is not looked at. *)
Definition push_to {R : Type} (handler : string → Server → (Z + R) * Server) (io : pushIO) (address : string)
    (edges : gmap string Server) : bool * gmap string Server :=
  if negb (pu_url_ok io address) then (false, edges)
  else
    match edges !! address with
    | Some s =>
        if pu_arrives io address then
          let '(answer, s') := handler address s in
          (match answer with inr _ => pu_answers io address | inl _ => false end, <[address := s']> edges)
        else (false, edges)
    | None => (false, edges)
    end.
Definition push_purge (io : pushIO) (keys : list string) : string → gmap string Server → bool * gmap string Server :=
  push_to (λ a s, handlePurge (pu_files io a) s "POST" (Some keys)) io.
Definition push_prewarm_keys (io : pushIO) (keys : list string) : string → gmap string Server → bool * gmap string Server :=
  push_to (λ a s, EdgeServer.handlePrewarm (pu_object io a) (pu_visit io) s "POST" (Some keys)) io.

(** *** The targets *)
Fixpoint resolve_ids (io : taskIO) (pg : PGStore) (n : nat) (ids : list string) : list Node * PGStore :=
  match ids with
  | [] => ([], pg)
  | id :: ids =>
      let '(r, pg) := PGStore_GetNode (ti_get io n) pg id (ti_now io) in
      let '(nodes, pg) := resolve_ids io pg (S n) ids in
      (match r with Ok node => if is_online node then node :: nodes else nodes | _ => nodes end, pg)
  end.
(** The scope is compared but makes no difference. *)
Definition resolveTargetNodes (io : taskIO) (x : TaskState) (params : TaskParams) : list Node * TaskState :=
  match tp_TargetNodes params with
  | [] =>
      let '(r, c) := NodeCache_GetActiveNodes (tx_cache x) (ti_now io) (PGStore_ListActiveNodes (ti_list io) (tx_pg x)) (ti_now io) in
      (match r with Ok nodes => nodes | _ => [] end, mkTaskState (tx_db x) (tx_pg x) c (tx_edges x))
  | ids =>
      let '(nodes, pg) := resolve_ids io (tx_pg x) 0 ids in
      (nodes, mkTaskState (tx_db x) pg (tx_cache x) (tx_edges x))
  end.

(** *** One task *)
Definition markComplete (io : taskIO) (x : TaskState) (id : string) (st : TaskStatus) (res : string) (progress done : Z)
    : TaskState :=
  set_tasks x (PGStore_UpdateTaskStatus (ti_final io) (ti_now io) (tx_db x) id st (marshal_raw res) progress done).2.

(** The JSON of the outcome. *)
Definition result_text (keysField nodesField : string) (keys done total : Z) : string :=
  of_chars (to_chars "{" ++ quote :: to_chars keysField ++ quote :: to_chars ":" ++ format_int 10 keys ++ to_chars "," ++
    quote :: to_chars nodesField ++ quote :: to_chars ":" ++ format_int 10 done ++ to_chars "," ++
    quote :: to_chars "total_nodes" ++ quote :: to_chars ":" ++ format_int 10 total ++ to_chars "}").
Definition keys_of (params : TaskParams) : list string :=
  if String.eqb (tp_ObjectKey params) "" then [] else [tp_ObjectKey params].

(** What the three kinds have in common. *)
Definition execute_pushed (push : list string → string → gmap string Server → bool * gmap string Server)
    (keysField nodesField : string) (io : taskIO) (x : TaskState) (t : Task) : TaskState :=
  let failed x := markComplete io x (tk_TaskID t) TaskStatusFailed "" 0 0 in
  match unmarshal_params (tk_Params t) with
  | None => failed x
  | Some params =>
      match keys_of params with
      | [] => failed x
      | keys =>
          let '(targets, x) := resolveTargetNodes io x params in
          match targets with
          | [] => failed x
          | _ =>
              let total := Z.of_nat (length targets) in
              let x := set_tasks x (PGStore_UpdateTaskStatus (ti_running io) (ti_now io) (tx_db x) (tk_TaskID t)
                                      TaskStatusRunning "" 0 total).2 in
              let '(done, edges) := push_all (push keys) (ti_order io targets) (tx_edges x) in
              markComplete io (set_edges x edges) (tk_TaskID t) TaskStatusCompleted
                (result_text keysField nodesField (Z.of_nat (length keys)) done total) (Z.quot (done * 100) total) done
          end
      end
  end.
Definition executePurge (io : taskIO) : TaskState → Task → TaskState :=
  execute_pushed (push_purge (ti_push io)) "keys_purged" "nodes_purged" io.
Definition executePrewarm (io : taskIO) : TaskState → Task → TaskState :=
  execute_pushed (push_prewarm_keys (ti_push io)) "keys_prewarmed" "nodes_prewarmed" io.
(** Blocking sends purges. *)
Definition executeBlock (io : taskIO) : TaskState → Task → TaskState :=
  execute_pushed (push_purge (ti_push io)) "keys_blocked" "nodes_blocked" io.

Definition executeTask (io : taskIO) (x : TaskState) (t : Task) : TaskState :=
  match tk_Type t with
  | TaskTypePurge => executePurge io x t
  | TaskTypePrewarm => executePrewarm io x t
  | TaskTypeBlock => executeBlock io x t
  | TaskTypeOther _ => x
  end.

(** *** One poll: the ten newest pending tasks, one after the other *)
Fixpoint execute_tasks (ios : nat → taskIO) (x : TaskState) (tasks : list Task) : TaskState :=
  match tasks with
  | [] => x
  | t :: ts => execute_tasks (λ n, ios (S n)) (executeTask (ios 0%nat) x t) ts
  end.
Definition pending_tasks (d : AdminDB) : result (list Task * Z) :=
  PGStore_ListTasks true true d "" (task_status_text TaskStatusPending) "" 10 0.
Definition processPending (count_ok list_ok : bool) (ios : nat → taskIO) (x : TaskState) : TaskState :=
  match PGStore_ListTasks count_ok list_ok (tx_db x) "" (task_status_text TaskStatusPending) "" 10 0 with
  | Ok (tasks, _) => execute_tasks ios x tasks
  | _ => x
  end.

(** [Start]: [n] ticks. *)
Fixpoint run_polls (n : nat) (ios : nat → nat → taskIO) (x : TaskState) : TaskState :=
  match n with
  | O => x
  | S n => run_polls n (λ k, ios (S k)) (processPending true true (ios 0%nat) x)
  end.

(** ** What a task changes in the table *)
Definition is_finished (st : TaskStatus) : Prop := st = TaskStatusCompleted ∨ st = TaskStatusFailed.
Definition known_type (t : Task) : Prop := match tk_Type t with TaskTypeOther _ => False | _ => True end.

Lemma resolve_db io x params targets x' : resolveTargetNodes io x params = (targets, x') → tx_db x' = tx_db x ∧ tx_edges x' = tx_edges x.
Proof.
  unfold resolveTargetNodes. destruct (tp_TargetNodes params).
  - destruct (NodeCache_GetActiveNodes _ _ _ _). by intros [= _ <-].
  - destruct (resolve_ids _ _ _ _). by intros [= _ <-].
Qed.

(** The row of the task is the only one that changes. *)
Record task_effect (id : string) (d d' : AdminDB) (final : bool) : Prop := {
  te_steps : rtc db_step d d';
  te_other id' : id' ≠ id → db_tasks d' !! id' = db_tasks d !! id';
  te_none : db_tasks d !! id = None → db_tasks d' !! id = None;
  te_row r : db_tasks d !! id = Some r → ∃ r', db_tasks d' !! id = Some r' ∧ tk_Type r' = tk_Type r ∧
    (final = true → is_finished (tk_Status r'))
}.

Lemma set_task_effect d id ok now st res progress done :
  is_finished st → task_effect id d (PGStore_UpdateTaskStatus ok now d id st res progress done).2 ok.
Proof.
  intros Hst. split.
  - apply rtc_once, ds_task_update.
  - intros id' Hne. unfold PGStore_UpdateTaskStatus. destruct ok; [|done]. cbn. by apply lookup_alter_ne.
  - intros Hn. unfold PGStore_UpdateTaskStatus. destruct ok; [|done]. cbn. by rewrite lookup_alter_eq, Hn.
  - intros r Hr. unfold PGStore_UpdateTaskStatus. destruct ok; [|by exists r]. cbn. rewrite lookup_alter_eq, Hr.
    by eexists.
Qed.

Lemma task_effect_before d1 d2 d3 id final ok now st res progress done :
  d2 = (PGStore_UpdateTaskStatus ok now d1 id st res progress done).2 → task_effect id d2 d3 final → task_effect id d1 d3 final.
Proof.
  intros -> [H1 H2 Hn H3]. split.
  - eapply rtc_l; [apply ds_task_update|exact H1].
  - intros id' Hne. rewrite (H2 _ Hne). unfold PGStore_UpdateTaskStatus. destruct ok; [|done]. cbn. by apply lookup_alter_ne.
  - intros H0. apply Hn. unfold PGStore_UpdateTaskStatus. destruct ok; [|done]. cbn. by rewrite lookup_alter_eq, H0.
  - intros r Hr. unfold PGStore_UpdateTaskStatus in H3. destruct ok; [|by apply H3]. cbn in H3.
    destruct (H3 (set_task now st res progress done r)) as (r' & Hr' & Ht & Hf); [by rewrite lookup_alter_eq, Hr|].
    by exists r'.
Qed.

Lemma execute_pushed_effect push kf nf io x t :
  task_effect (tk_TaskID t) (tx_db x) (tx_db (execute_pushed push kf nf io x t)) (ti_final io).
Proof.
  assert (Hfail : ∀ y, task_effect (tk_TaskID t) (tx_db y) (tx_db (markComplete io y (tk_TaskID t) TaskStatusFailed "" 0 0)) (ti_final io)).
  { intros y. apply set_task_effect. by right. }
  unfold execute_pushed. destruct (unmarshal_params _) as [params|]; [|apply Hfail]. destruct (keys_of params) as [|k ks]; [apply Hfail|].
  destruct (resolveTargetNodes _ _ _) as [targets y] eqn:Er. apply resolve_db in Er as [<- _].
  destruct targets as [|n ns]; [apply Hfail|]. destruct (push_all _ _ _) as [done edges].
  eapply task_effect_before; [reflexivity|]. apply set_task_effect. by left.
Qed.

Lemma executeTask_effect io x t :
  task_effect (tk_TaskID t) (tx_db x) (tx_db (executeTask io x t)) (match tk_Type t with TaskTypeOther _ => false | _ => ti_final io end).
Proof.
  unfold executeTask. destruct (tk_Type t); try apply execute_pushed_effect.
  split; [apply rtc_refl|done|done|]. intros r Hr. by exists r.
Qed.

(** ** The queue *)
Definition queue (d : AdminDB) : gmap string Task := filter (λ it, tk_Status it.2 = TaskStatusPending) (db_tasks d).
Definition all_known (d : AdminDB) : Prop := map_Forall (λ _ t, known_type t) (db_tasks d).

Lemma task_effect_queue id d d' : task_effect id d d' true → queue d' = delete id (queue d).
Proof.
  intros [_ H2 Hn H3]. apply map_eq. intros id'. unfold queue. destruct (decide (id' = id)) as [->|Hne].
  - rewrite lookup_delete_eq. apply map_lookup_filter_None. right. intros r' Hr' Hp. simpl in Hp.
    destruct (db_tasks d !! id) as [r|] eqn:Hr; [|rewrite Hn in Hr' by done; done].
    destruct (H3 r eq_refl) as (r2 & Hr2 & _ & Hf). assert (r2 = r') as -> by congruence. destruct (Hf eq_refl); congruence.
  - rewrite lookup_delete_ne by done. apply option_eq. intros r. by rewrite !map_lookup_filter_Some, H2.
Qed.

Lemma task_effect_known id d d' final : task_effect id d d' final → all_known d → all_known d'.
Proof.
  intros [_ H2 Hn H3] Hk id' r' Hr'. destruct (decide (id' = id)) as [->|Hne].
  - destruct (db_tasks d !! id) as [r|] eqn:Hr; [|rewrite Hn in Hr' by done; done].
    destruct (H3 r eq_refl) as (r2 & Hr2 & Ht & _). assert (r2 = r') as -> by congruence.
    pose proof (Hk id r Hr) as Hkr. unfold known_type in *. by rewrite Ht.
  - apply (Hk id'). by rewrite <- H2.
Qed.

(** The tasks a poll reads. *)
Lemma queue_to_list d :
  map_to_list (queue d) ≡ₚ filter (λ it, tk_Status it.2 = TaskStatusPending) (map_to_list (db_tasks d)).
Proof.
  unfold queue. rewrite map_filter_alt. apply map_to_list_to_map. apply (sublist_NoDup _ (map_to_list (db_tasks d)).*1); [apply NoDup_fst_map_to_list|].
  apply fmap_sublist, sublist_filter.
Qed.

Lemma matches_pending t : task_matches "" (task_status_text TaskStatusPending) "" t ↔ tk_Status t = TaskStatusPending.
Proof. unfold task_matches. by destruct t as [? ? ? ? ? ? ? ? ? [] ? ? ?]. Qed.

Lemma pending_rows d :
  filter (task_matches "" (task_status_text TaskStatusPending) "") (rows_of (db_tasks d)) ≡ₚ (map_to_list (queue d)).*2.
Proof.
  rewrite queue_to_list. unfold rows_of. induction (map_to_list (db_tasks d)) as [|[i t] l IH]; [done|].
  cbn [fmap list_fmap snd]. rewrite !filter_cons. destruct (decide (task_matches _ _ _ t)) as [Hm|Hm], (decide _) as [Hs|Hs];
    [|destruct Hs; by apply matches_pending|destruct Hm; by apply matches_pending|exact IH].
  cbn [fmap list_fmap snd]. by apply Permutation_skip.
Qed.

Lemma pending_tasks_spec d tasks total :
  db_wf d → pending_tasks d = Ok (tasks, total) →
  NoDup (tk_TaskID <$> tasks) ∧ length tasks = (size (queue d) `min` 10)%nat ∧
  Forall (λ t, queue d !! tk_TaskID t = Some t) tasks.
Proof.
  intros Hwf. unfold pending_tasks, PGStore_ListTasks, limit_offset. cbn [negb orb Z.ltb Z.compare].
  change (Z.to_nat 10) with 10%nat. change (Z.to_nat 0) with 0%nat. rewrite drop_0.
  set (rows := newest_first _ _). intros [= <- _].
  assert (Hrows : rows ≡ₚ (map_to_list (queue d)).*2) by (unfold rows, newest_first; rewrite merge_sort_Permutation; apply pending_rows).
  assert (Hids : tk_TaskID <$> rows ≡ₚ (map_to_list (queue d)).*1).
  { rewrite Hrows, <- list_fmap_compose. assert (Hall : Forall (λ it : string * Task, tk_TaskID it.2 = it.1) (map_to_list (queue d))).
    { apply Forall_forall. intros [i t] Hin%elem_of_map_to_list. unfold queue in Hin. apply map_lookup_filter_Some in Hin as [Hin _].
      exact (wf_task _ Hwf _ _ Hin). }
    by rewrite (Forall_fmap_ext_1 (tk_TaskID ∘ snd) fst). }
  split; [|split].
  - apply (sublist_NoDup _ (tk_TaskID <$> rows)); [rewrite Hids; apply NoDup_fst_map_to_list|apply fmap_sublist, sublist_take].
  - rewrite length_take, Hrows, length_fmap, length_map_to_list. lia.
  - apply Forall_take, Forall_forall. intros t Hin. rewrite Hrows in Hin.
    apply list_elem_of_fmap in Hin as ([i t'] & -> & Hin%elem_of_map_to_list). cbn [snd].
    pose proof Hin as Hq. unfold queue in Hq. apply map_lookup_filter_Some in Hq as [Hq _].
    rewrite (wf_task _ Hwf _ _ Hq). exact Hin.
Qed.

(** A round of tasks that are pending when the round starts. *)
Lemma execute_tasks_queue ios x tasks :
  (∀ n, ti_final (ios n) = true) → all_known (tx_db x) → NoDup (tk_TaskID <$> tasks) →
  Forall (λ t, known_type t ∧ queue (tx_db x) !! tk_TaskID t = Some t) tasks →
  let x' := execute_tasks ios x tasks in
  (size (queue (tx_db x')) + length tasks = size (queue (tx_db x)))%nat ∧ rtc db_step (tx_db x) (tx_db x') ∧ all_known (tx_db x').
Proof.
  revert ios x. induction tasks as [|t tasks IH]; intros ios x Hfin Hk Hnd Hall; cbn [execute_tasks].
  - split; [simpl; lia|]. split; [apply rtc_refl|done].
  - apply Forall_cons in Hall as [[Ht Hq] Hall]. cbn [fmap list_fmap] in Hnd. apply NoDup_cons in Hnd as [Hni Hnd].
    assert (He : task_effect (tk_TaskID t) (tx_db x) (tx_db (executeTask (ios 0%nat) x t)) true).
    { pose proof (executeTask_effect (ios 0%nat) x t) as He. unfold known_type in Ht. rewrite Hfin in He. by destruct (tk_Type t). }
    pose proof (task_effect_queue _ _ _ He) as Hqd.
    destruct (IH (λ n, ios (S n)) (executeTask (ios 0%nat) x t)) as (IH1 & IH2 & IH3); [done|by eapply task_effect_known|done| |].
    { eapply Forall_impl; [apply Forall_and; split; [exact Hall|apply Forall_forall; intros u Hu; exact Hu]|].
      intros u [[Hu1 Hu2] Hu3]. split; [done|]. rewrite Hqd, lookup_delete_ne; [done|].
      intros E. apply Hni. rewrite E. by apply list_elem_of_fmap_2. }
    split; [|split; [etrans; [apply (te_steps _ _ _ _ He)|exact IH2]|done]].
    rewrite Hqd, map_size_delete, Hq in IH1. cbn [length].
    assert (size (queue (tx_db x)) ≠ 0%nat) by (apply map_size_ne_0_lookup; by eexists _, _). lia.
Qed.

Lemma pending_tasks_reads d : db_wf d → ∃ tasks total, pending_tasks d = Ok (tasks, total).
Proof. intros _. unfold pending_tasks, PGStore_ListTasks, limit_offset. cbn [negb orb Z.ltb Z.compare]. by eexists _, _. Qed.

(** A poll takes up to ten tasks off the queue. *)
Lemma poll_queue ios x :
  (∀ n, ti_final (ios n) = true) → db_wf (tx_db x) → all_known (tx_db x) →
  let x' := processPending true true ios x in
  size (queue (tx_db x')) = (size (queue (tx_db x)) - 10)%nat ∧ rtc db_step (tx_db x) (tx_db x') ∧ all_known (tx_db x').
Proof.
  intros Hfin Hwf Hk. unfold processPending. destruct (pending_tasks_reads _ Hwf) as (tasks & total & E).
  pose proof (pending_tasks_spec _ _ _ Hwf E) as (Hnd & Hlen & Hall). unfold pending_tasks in E. rewrite E.
  destruct (execute_tasks_queue ios x tasks) as (H1 & H2 & H3); [done..| |].
  - eapply Forall_impl; [exact Hall|]. intros t Hq. split; [|done]. unfold queue in Hq. apply map_lookup_filter_Some in Hq as [Hq _].
    exact (Hk _ _ Hq).
  - split; [lia|done].
Qed.

(** Statements of the executor never lose a row, and a task is pending or finished. *)
Definition settled (d0 d : AdminDB) : Prop :=
  ∀ id t, queue d0 !! id = Some t → ∃ t', db_tasks d !! id = Some t' ∧ (tk_Status t' = TaskStatusPending ∨ is_finished (tk_Status t')).

Lemma task_effect_settled d0 id d d' : task_effect id d d' true → settled d0 d → settled d0 d'.
Proof.
  intros [_ H2 Hn H3] Hs id' t Hq. destruct (Hs id' t Hq) as (t' & Ht' & Hst). destruct (decide (id' = id)) as [->|Hne].
  - destruct (H3 t' Ht') as (r' & Hr' & _ & Hf). exists r'. split; [done|]. right. by apply Hf.
  - exists t'. by rewrite H2.
Qed.

Lemma execute_tasks_settled d0 ios x tasks :
  (∀ n, ti_final (ios n) = true) → Forall known_type tasks → settled d0 (tx_db x) → settled d0 (tx_db (execute_tasks ios x tasks)).
Proof.
  revert ios x. induction tasks as [|t tasks IH]; intros ios x Hfin Hall Hs; [done|]. cbn [execute_tasks].
  apply Forall_cons in Hall as [Ht Hall]. apply IH; [done..|].
  pose proof (executeTask_effect (ios 0%nat) x t) as He. unfold known_type in Ht. rewrite Hfin in He.
  apply (task_effect_settled _ (tk_TaskID t) (tx_db x)); [by destruct (tk_Type t)|done].
Qed.

Lemma poll_settled d0 ios x :
  (∀ n, ti_final (ios n) = true) → db_wf (tx_db x) → all_known (tx_db x) → settled d0 (tx_db x) →
  settled d0 (tx_db (processPending true true ios x)).
Proof.
  intros Hfin Hwf Hk Hs. unfold processPending. destruct (pending_tasks_reads _ Hwf) as (tasks & total & E).
  pose proof (pending_tasks_spec _ _ _ Hwf E) as (_ & _ & Hall). unfold pending_tasks in E. rewrite E.
  apply execute_tasks_settled; [done| |done]. eapply Forall_impl; [exact Hall|]. intros t Hq. unfold queue in Hq.
  apply map_lookup_filter_Some in Hq as [Hq _]. exact (Hk _ _ Hq).
Qed.

(** C24 (liveness): The queue drains: as long as the outcomes of tasks are recorded, every
    poll finishes the ten newest pending tasks, whatever becomes of their requests, so that
    [n] polls finish a queue of up to [10 * n] tasks, each task as completed or failed. *)
Theorem queue_drains n ios x :
  (∀ k i, ti_final (ios k i) = true) → db_wf (tx_db x) → all_known (tx_db x) → (size (queue (tx_db x)) ≤ 10 * n)%nat →
  let d' := tx_db (run_polls n ios x) in
  queue d' = ∅ ∧
  ∀ id t, queue (tx_db x) !! id = Some t → ∃ t', db_tasks d' !! id = Some t' ∧ is_finished (tk_Status t').
Proof.
  intros Hfin Hwf Hk Hsize. enough (queue (tx_db (run_polls n ios x)) = ∅ ∧ settled (tx_db x) (tx_db (run_polls n ios x))) as [Hq Hs].
  { split; [done|]. intros id t Hid. destruct (Hs id t Hid) as (t' & Ht' & [Hp|Hf]); [|by exists t']. exfalso.
    assert (Hin : queue (tx_db (run_polls n ios x)) !! id = Some t') by (apply map_lookup_filter_Some; by split).
    by rewrite Hq, lookup_empty in Hin. }
  assert (Hs0 : settled (tx_db x) (tx_db x)).
  { intros id t Hid. unfold queue in Hid. apply map_lookup_filter_Some in Hid as [Hid Hp]. exists t. by split; [|left]. }
  revert Hs0. generalize (tx_db x) at 1 3 as d0. intros d0. revert ios x Hfin Hwf Hk Hsize.
  induction n as [|n IH]; intros ios x Hfin Hwf Hk Hsize Hs; cbn [run_polls].
  - split; [|done]. apply map_size_empty_inv. lia.
  - destruct (poll_queue (ios 0%nat) x) as (H1 & H2 & H3); [done..|].
    apply IH; [done|by eapply db_steps_wf|done|lia|by apply poll_settled].
Qed.

(** ** What a push reaches *)

(** The request to a node arrives at an edge server. *)
Definition edge_address (io : pushIO) (edges : gmap string Server) (n : Node) : option string :=
  match n_Endpoints n with
  | ep :: _ =>
      let a := Endpoint_URL ep in
      if pu_url_ok io a && pu_arrives io a && bool_decide (is_Some (edges !! a)) then Some a else None
  | [] => None
  end.
(** It is also answered. *)
Definition answers (io : pushIO) (edges : gmap string Server) (n : Node) : bool :=
  match edge_address io edges n with Some a => pu_answers io a | None => false end.

(** The purge of the keys at one edge. *)
Definition purged_at (io : pushIO) (keys : list string) (a : string) (s : Server) : Server :=
  set_cache s (Cache_DeleteKeys (pu_files io a) (sv_cache s) keys).2.

Lemma node_push_purge io k ks n edges :
  node_push (push_purge io (k :: ks)) n edges =
    (answers io edges n, match edge_address io edges n with Some a => alter (purged_at io (k :: ks) a) a edges | None => edges end).
Proof.
  unfold node_push, push_purge, push_to, answers, edge_address. destruct (n_Endpoints n) as [|ep rest]; [done|].
  destruct (pu_url_ok io _); cbn [negb andb]; [|done]. destruct (edges !! Endpoint_URL ep) as [s|] eqn:E.
  - destruct (pu_arrives io _); cbn [andb]; [|done]. rewrite bool_decide_eq_true_2 by (by eexists).
    unfold handlePurge. cbn [String.eqb negb]. destruct (String.eqb_spec "POST" "POST") as [_|Hne]; [|done]. cbn [negb].
    unfold purged_at. destruct (Cache_DeleteKeys _ _ _) as [res c] eqn:Ed. f_equal. symmetry. apply map_eq. intros a.
    destruct (decide (Endpoint_URL ep = a)) as [<-|Hne]; [rewrite lookup_alter_eq, lookup_insert_eq, E; cbn [fmap option_fmap option_map]; by rewrite Ed|].
    by rewrite lookup_alter_ne, lookup_insert_ne.
  - rewrite bool_decide_eq_false_2 by (by intros [? ?]). by rewrite andb_false_r.
Qed.

(** The addresses stay the same, so that the answers do not depend on the order. *)
Lemma same_dom_address io edges edges' n : dom edges = dom edges' → edge_address io edges n = edge_address io edges' n.
Proof.
  intros Hd. unfold edge_address. destruct (n_Endpoints n) as [|ep rest]; [done|].
  enough (bool_decide (is_Some (edges !! Endpoint_URL ep)) = bool_decide (is_Some (edges' !! Endpoint_URL ep))) as -> by done.
  apply bool_decide_ext. by rewrite <- !elem_of_dom, Hd.
Qed.

Definition requests_to (io : pushIO) (edges : gmap string Server) (a : string) (nodes : list Node) : nat :=
  length (filter (λ n, edge_address io edges n = Some a) nodes).
Definition count_answers (io : pushIO) (edges : gmap string Server) (nodes : list Node) : Z :=
  Z.of_nat (length (filter (λ n, answers io edges n = true) nodes)).

Lemma push_all_purge io k ks nodes edges :
  let r := push_all (push_purge io (k :: ks)) nodes edges in
  r.1 = count_answers io edges nodes ∧
  ∀ a, r.2 !! a = Nat.iter (requests_to io edges a nodes) (purged_at io (k :: ks) a) <$> edges !! a.
Proof.
  cbv zeta. revert edges. induction nodes as [|n nodes IH]; intros edges.
  - split; [done|]. intros a. cbn. by destruct (edges !! a).
  - cbn [push_all]. rewrite node_push_purge. set (edges1 := match edge_address io edges n with Some a => _ | None => edges end).
    assert (Hd : dom edges = dom edges1) by (unfold edges1; destruct (edge_address _ _ _); [by rewrite dom_alter_L|done]).
    destruct (IH edges1) as [IH1 IH2]. destruct (push_all _ _ edges1) as [done edges2]. cbn [fst snd] in IH1, IH2 |- *.
    assert (Hf : ∀ m, edge_address io edges1 m = edge_address io edges m) by (intros m; symmetry; by apply same_dom_address).
    split.
    + rewrite IH1. unfold count_answers. rewrite filter_cons.
      rewrite (list_filter_iff (λ m, answers io edges1 m = true) (λ m, answers io edges m = true)) by (intros m; unfold answers; by rewrite Hf).
      destruct (answers io edges n); cbn [length decide]; simpl; lia.
    + intros a. rewrite IH2. unfold requests_to. rewrite filter_cons.
      rewrite (list_filter_iff (λ m, edge_address io edges1 m = Some a) (λ m, edge_address io edges m = Some a)) by (intros m; by rewrite Hf).
      destruct (decide (edge_address io edges n = Some a)) as [Ha|Hna].
      * unfold edges1. rewrite Ha, lookup_alter_eq. destruct (edges !! a) as [s|]; [|done]. cbn [length fmap option_fmap option_map].
        f_equal. symmetry. apply Nat.iter_succ_r.
      * unfold edges1. destruct (edge_address io edges n) as [b|]; [|done]. by rewrite lookup_alter_ne by congruence.
Qed.

Lemma count_answers_perm io edges l l' : l ≡ₚ l' → count_answers io edges l = count_answers io edges l'.
Proof. intros Hl. unfold count_answers. by rewrite Hl. Qed.
Lemma requests_to_perm io edges a l l' : l ≡ₚ l' → requests_to io edges a l = requests_to io edges a l'.
Proof. intros Hl. unfold requests_to. by rewrite Hl. Qed.

Lemma purged_has io key a s : (pu_files io a key).2 = true → Cache_Has (sv_cache (purged_at io [key] a s)) key = false.
Proof.
  intros Hok. unfold purged_at. cbn [Cache_DeleteKeys]. destruct (Cache_Delete _ _ _ _) as [r c] eqn:E. cbn [sv_cache set_cache snd].
  unfold Cache_Delete in E. rewrite Hok in E. cbn [negb] in E. unfold Cache_Has. apply bool_decide_eq_false_2.
  assert (Hd : c_disk c = delete (entryName key) (c_disk (sv_cache s))) by (by destruct (if (pu_files io a key).1 then _ else MetaAbsent); injection E as _ <-).
  unfold dir_content. rewrite Hd, lookup_delete_eq. by intros [? ?].
Qed.

Lemma edge_address_some io edges n a : edge_address io edges n = Some a → ∃ s, edges !! a = Some s.
Proof.
  unfold edge_address. destruct (n_Endpoints n); [done|]. destruct (_ && _) eqn:E; [|done]. intros [= <-].
  apply andb_prop in E as [_ E]. by apply bool_decide_eq_true_1 in E.
Qed.
Lemma requests_to_pos io edges a l n : n ∈ l → edge_address io edges n = Some a → ∃ m, requests_to io edges a l = S m.
Proof.
  intros Hin Ha. unfold requests_to. destruct (filter _ l) as [|y ys] eqn:E; [|by eexists]. exfalso.
  assert (Hn : n ∈ filter (λ n, edge_address io edges n = Some a) l) by (by apply list_elem_of_filter).
  rewrite E in Hn. by apply not_elem_of_nil in Hn.
Qed.
Lemma requests_to_none io edges a l : (∀ n, n ∈ l → edge_address io edges n ≠ Some a) → requests_to io edges a l = 0%nat.
Proof.
  intros Hno. unfold requests_to. destruct (filter _ l) as [|y ys] eqn:E; [done|]. exfalso.
  assert (Hy : y ∈ filter (λ n, edge_address io edges n = Some a) l) by (rewrite E; by left).
  apply list_elem_of_filter in Hy as [Ha Hin]. by apply (Hno y).
Qed.

(** *** From the console to the edges *)

(** What creating a task leaves in the table. *)
Lemma createCacheTask_inv io s r ty action params t s' :
  createCacheTask io s r ty action (Some params) = (AJson 201 (PTask t), s') →
  rtc db_step (as_db s) (as_db s') ∧ db_tasks (as_db s) !! tk_TaskID t = None ∧
  ∃ row, db_tasks (as_db s') = <[tk_TaskID t := row]> (db_tasks (as_db s)) ∧ tk_TaskID row = tk_TaskID t ∧ tk_Type row = ty ∧
    tk_Status row = TaskStatusPending ∧ tk_Params row = marshal_params params.
Proof.
  unfold createCacheTask. destruct (wrong_type r); [done|]. unfold PGStore_CreateTask. cbv zeta.
  destruct (insert_row _ _ _ _) as [m|] eqn:E; [|done]. unfold finish. intros [= <- <-].
  pose proof E as E2. apply insert_row_spec in E2 as [Hnew ->]. split; [|split; [exact Hnew|]].
  - eapply rtc_l; [apply (ds_task_create _ (ai_db io 0) (ai_now io) (ai_uuid io 0) (mkTask 0 0 (marshal_params params) "" ""
      (rq_ActorTenantId r) "" (rq_ActorUserId r) ty TaskStatusPending 0 0 0))|].
    unfold PGStore_CreateTask. cbv zeta. rewrite E. cbn [snd]. unfold audit. apply rtc_once, ds_audit.
  - eexists. unfold audit, PGStore_CreateAuditEvent. cbn [as_db set_db]. destruct (ai_audit io); cbn [negb snd db_tasks with_audit with_tasks];
      (split; [reflexivity|]); cbn; unfold marshal_raw; destruct (String.eqb_spec (marshal_params params) "") as [En|_]; try done;
      by destruct (marshal_params_nonempty params).
Qed.

(** The only pending task is the one that a poll reads. *)
Lemma only_pending d id row :
  db_wf d → queue d = {[id := row]} → ∃ total, pending_tasks d = Ok ([row], total).
Proof.
  intros Hwf Hq. destruct (pending_tasks_reads _ Hwf) as (tasks & total & E). exists total. rewrite E.
  destruct (pending_tasks_spec _ _ _ Hwf E) as (_ & Hlen & Hall). rewrite Hq, map_size_singleton in Hlen.
  destruct tasks as [|t [|]]; try done. apply Forall_cons in Hall as [Hall _]. rewrite Hq in Hall.
  by apply lookup_singleton_Some in Hall as [_ ->].
Qed.

(** A purge with targets. *)
Lemma executePurge_run io x t params targets x1 :
  unmarshal_params (tk_Params t) = Some params → tp_ObjectKey params ≠ "" →
  resolveTargetNodes io x params = (targets, x1) → targets ≠ [] →
  let r := push_all (push_purge (ti_push io) [tp_ObjectKey params]) (ti_order io targets) (tx_edges x1) in
  let total := Z.of_nat (length targets) in
  executePurge io x t =
    markComplete io (set_edges (set_tasks x1 (PGStore_UpdateTaskStatus (ti_running io) (ti_now io) (tx_db x1) (tk_TaskID t)
        TaskStatusRunning "" 0 total).2) r.2) (tk_TaskID t) TaskStatusCompleted
      (result_text "keys_purged" "nodes_purged" 1 r.1 total) (Z.quot (r.1 * 100) total) r.1.
Proof.
  intros Hu Hk Hr Hne. cbv zeta. unfold executePurge, execute_pushed. rewrite Hu. unfold keys_of.
  destruct (String.eqb_spec (tp_ObjectKey params) "") as [|_]; [done|]. rewrite Hr. destruct targets as [|n ns]; [done|].
  cbn [tx_edges set_tasks]. by destruct (push_all _ _ _) as [done edges].
Qed.

Lemma markComplete_row io x id st res progress done row :
  ti_final io = true → db_tasks (tx_db x) !! id = Some row →
  db_tasks (tx_db (markComplete io x id st res progress done)) !! id =
    Some (set_task (ti_now io) st (marshal_raw res) progress done row).
Proof. intros Hf Hr. unfold markComplete, PGStore_UpdateTaskStatus. rewrite Hf. cbn. by rewrite lookup_alter_eq, Hr. Qed.

Lemma running_row ok now d id st res p n row :
  db_tasks d !! id = Some row → ∃ row', db_tasks (PGStore_UpdateTaskStatus ok now d id st res p n).2 !! id = Some row'.
Proof. intros Hr. unfold PGStore_UpdateTaskStatus. destruct ok; [|by exists row]. cbn. rewrite lookup_alter_eq, Hr. by eexists. Qed.

(** The effect of one purge on the edges and on its row. *)
Lemma purge_effect io x t params targets x1 :
  unmarshal_params (tk_Params t) = Some params → tp_ObjectKey params ≠ "" →
  resolveTargetNodes io x params = (targets, x1) → targets ≠ [] → (∀ l, ti_order io l ≡ₚ l) → ti_final io = true →
  (∀ a, (pu_files (ti_push io) a (tp_ObjectKey params)).2 = true) →
  ∀ row, db_tasks (tx_db x) !! tk_TaskID t = Some row →
  let x' := executePurge io x t in
  (∀ n a, n ∈ targets → edge_address (ti_push io) (tx_edges x) n = Some a →
     ∃ srv, tx_edges x' !! a = Some srv ∧ Cache_Has (sv_cache srv) (tp_ObjectKey params) = false) ∧
  (∀ a, (∀ n, n ∈ targets → edge_address (ti_push io) (tx_edges x) n ≠ Some a) → tx_edges x' !! a = tx_edges x !! a) ∧
  ∃ row', db_tasks (tx_db x') !! tk_TaskID t = Some row' ∧ tk_Status row' = TaskStatusCompleted ∧
    tk_DoneNodes row' = count_answers (ti_push io) (tx_edges x) targets ∧
    tk_Progress row' = Z.quot (tk_DoneNodes row' * 100) (Z.of_nat (length targets)).
Proof.
  intros Hun Hkey Hres Hne Hord Hfin Hfiles row Hrow x'.
  pose proof (executePurge_run io x t params targets x1 Hun Hkey Hres Hne) as Hrun. cbv zeta in Hrun.
  destruct (resolve_db _ _ _ _ _ Hres) as [Hdb1 Hed1]. rewrite Hed1 in Hrun. fold x' in Hrun.
  destruct (push_all_purge (ti_push io) (tp_ObjectKey params) [] (ti_order io targets) (tx_edges x)) as [Hcount Hedges].
  rewrite (count_answers_perm _ _ _ _ (Hord targets)) in Hcount. set (ran := push_all _ _ _) in *.
  assert (Hx : tx_edges x' = ran.2) by (by rewrite Hrun). rewrite Hx. clear Hx. split; [|split].
  - intros n a Hin Ha. rewrite Hedges, (requests_to_perm _ _ _ _ _ (Hord targets)).
    destruct (edge_address_some _ _ _ _ Ha) as [srv ->]. cbn [fmap option_fmap option_map]. eexists. split; [done|].
    destruct (requests_to_pos (ti_push io) (tx_edges x) a targets n Hin Ha) as [m ->]. cbn [Nat.iter]. by apply purged_has.
  - intros a Ha. rewrite Hedges, (requests_to_perm _ _ _ _ _ (Hord targets)), requests_to_none by done.
    cbn. by destruct (tx_edges x !! a).
  - rewrite <- Hdb1 in Hrow.
    destruct (running_row (ti_running io) (ti_now io) (tx_db x1) (tk_TaskID t) TaskStatusRunning "" 0
      (Z.of_nat (length targets)) row Hrow) as [row' Hrow'].
    rewrite Hrun. erewrite markComplete_row; [|done|exact Hrow']. eexists. split; [done|]. cbn [tk_Status tk_DoneNodes tk_Progress set_task].
    by rewrite Hcount.
Qed.


(** ** What the outcome does not say *)

(** Cancelling a task that a poll has already read stops nothing: the console
    reports it as canceled, but the purge is sent all the same and the row ends as completed,
    even if not one node answered. *)
Theorem cancel_is_overwritten io s r t io' x row params targets x1 :
  ai_db io 0 = true → db_tasks (as_db s) !! tk_TaskID t = Some row → tk_Type t = TaskTypePurge →
  unmarshal_params (tk_Params t) = Some params → tp_ObjectKey params ≠ "" →
  let '(reply, s') := handleCancelTask io s r (tk_TaskID t) in
  tx_db x = as_db s' → resolveTargetNodes io' x params = (targets, x1) → targets ≠ [] → (∀ l, ti_order io' l ≡ₚ l) →
  ti_final io' = true → (∀ a, (pu_files (ti_push io') a (tp_ObjectKey params)).2 = true) →
  reply = AJson 200 (PStatus [("status", "canceled"); ("task_id", tk_TaskID t)]) ∧
  (tk_Status <$> db_tasks (as_db s') !! tk_TaskID t = Some TaskStatusCancelled) ∧
  let x' := executeTask io' x t in
  (tk_Status <$> db_tasks (tx_db x') !! tk_TaskID t = Some TaskStatusCompleted) ∧
  (tk_DoneNodes <$> db_tasks (tx_db x') !! tk_TaskID t = Some (count_answers (ti_push io') (tx_edges x) targets)) ∧
  ∀ n a, n ∈ targets → edge_address (ti_push io') (tx_edges x) n = Some a →
    ∃ srv, tx_edges x' !! a = Some srv ∧ Cache_Has (sv_cache srv) (tp_ObjectKey params) = false.
Proof.
  intros Hok Hrow Hty Hun Hkey. unfold handleCancelTask, updated, PGStore_UpdateTaskStatus. rewrite Hok. cbn [negb]. unfold finish.
  intros Hdb Hres Hne Hord Hfin Hfiles.
  set (cancelled := set_task (ai_now io) TaskStatusCancelled "" 0 0 row).
  assert (Hrow' : db_tasks (tx_db x) !! tk_TaskID t = Some cancelled).
  { rewrite Hdb. unfold audit, PGStore_CreateAuditEvent. cbn [as_db set_db]. destruct (ai_audit io); cbn; by rewrite lookup_alter_eq, Hrow. }
  split; [done|]. split; [rewrite <- Hdb, Hrow'; done|].
  destruct (purge_effect io' x t params targets x1 Hun Hkey Hres Hne Hord Hfin Hfiles cancelled Hrow')
    as (H1 & _ & row' & H2 & H3 & H4 & _).
  unfold executeTask. rewrite Hty. cbv zeta. rewrite H2. cbn [fmap option_fmap option_map]. by rewrite H3, H4.
Qed.

(** A row without its outcome. *)
Definition without_result (t : Task) : Task :=
  mkTask (tk_CreatedAt t) (tk_UpdatedAt t) (tk_Params t) "" (tk_TaskID t) (tk_TenantID t) (tk_ProjectID t)
    (tk_CreatorID t) (tk_Type t) (tk_Status t) (tk_Progress t) (tk_TotalNodes t) (tk_DoneNodes t).

Lemma alter_without_result f g id (m : gmap string Task) :
  (∀ t, without_result (f t) = without_result (g t)) → without_result <$> alter f id m = without_result <$> alter g id m.
Proof.
  intros Hfg. apply map_eq. intros id'. rewrite !lookup_fmap. destruct (decide (id = id')) as [<-|Hne].
  - rewrite !lookup_alter_eq. destruct (m !! id) as [t|]; [|done]. cbn. by rewrite Hfg.
  - by rewrite !lookup_alter_ne.
Qed.

(** Blocking an object is purging it: apart from the names in the recorded
    outcome a block task does what a purge task does, and it leaves the policies alone, so
    that nothing keeps the object from being fetched and cached again. *)
Theorem block_is_purge io x t :
  let b := executeBlock io x t in
  let p := executePurge io x t in
  tx_edges b = tx_edges p ∧ tx_pg b = tx_pg p ∧ tx_cache b = tx_cache p ∧
  without_result <$> db_tasks (tx_db b) = without_result <$> db_tasks (tx_db p) ∧
  db_policies (tx_db b) = db_policies (tx_db x).
Proof.
  unfold executeBlock, executePurge, execute_pushed. destruct (unmarshal_params _) as [params|].
  2:{ repeat split. unfold markComplete, PGStore_UpdateTaskStatus. by destruct (ti_final io). }
  assert (Hpol : ∀ y st res pr dn, db_policies (tx_db (markComplete io y (tk_TaskID t) st res pr dn)) = db_policies (tx_db y)).
  { intros y st res pr dn. unfold markComplete, PGStore_UpdateTaskStatus. by destruct (ti_final io). }
  destruct (keys_of params) as [|k ks]; [by repeat split; rewrite ?Hpol|].
  destruct (resolveTargetNodes _ _ _) as [targets y] eqn:Er. apply resolve_db in Er as [Hdb _].
  destruct targets as [|n ns]; [by repeat split; rewrite ?Hpol, ?Hdb|]. destruct (push_all _ _ _) as [done edges].
  repeat split.
  - unfold markComplete, PGStore_UpdateTaskStatus. destruct (ti_final io); [|done]. cbn. by apply alter_without_result.
  - rewrite Hpol. cbn [tx_db set_edges set_tasks]. unfold PGStore_UpdateTaskStatus. rewrite Hdb. by destruct (ti_running io).
Qed.
End executor.

(** ** A concrete run *)
Definition demo_task_params : TaskParams := mkTaskParams "k" "" [] "all" 0 0.
Definition demo_purge : adminReply * AdminState :=
  AdminAPI_handlePurge (AdminSessions.demo_io 1000 "00000001") AdminSessions.demo_console (AdminSessions.demo_request "")
    (Some demo_task_params).
Definition demo_task : Task :=
  match demo_purge.1 with AJson _ (PTask t) => t | _ => mkTask 0 0 "" "" "" "" "" "" TaskTypePurge TaskStatusPending 0 0 0 end.
(** Two nodes: the first has the object and answers, the second is down. *)
Definition demo_task_state (d : AdminDB) : TaskState :=
  mkTaskState d (mkPGStore {["n1" := demo_worker "n1" "10.0.0.1"; "n2" := demo_worker "n2" "10.0.0.2"]} ∅ ∅ 30)
    (NewNodeCache 30) {["http://10.0.0.1:80" := demo_edge EdgeServer.demo_warm]}.
Definition demo_push : pushIO :=
  mkPushIO (λ _, true) (λ _, true) (λ _, true) (λ _ _, (true, true)) (λ _ _, EdgeServer.demo_io) map_to_list.
Definition demo_task_io : taskIO := mkTaskIO 2000 true true (λ _, true) true id demo_push.
Definition demo_task_targets : list Node := (resolveTargetNodes demo_task_io (demo_task_state empty_db) demo_task_params).1.

Lemma demo_two_users_wf : db_wf AdminSessions.demo_two_users.
Proof. by apply (db_steps_wf demo_db); [apply rtc_once, ds_user_create|apply (db_steps_wf _ _ demo_db_reached)]. Qed.
Lemma demo_address : edge_address demo_push (tx_edges (demo_task_state empty_db)) (active_view (demo_worker "n1" "10.0.0.1")) = Some "http://10.0.0.1:80".
Proof. vm_compute. reflexivity. Qed.
Lemma demo_target : active_view (demo_worker "n1" "10.0.0.1") ∈ demo_task_targets.
Proof. apply list_elem_of_In. vm_compute. auto. Qed.


Lemma queue_drains_witness :
  let x := demo_task_state (as_db demo_purge.2) in
  (queue (tx_db x) !! tk_TaskID demo_task ≠ None) ∧ queue (tx_db (run_polls 1 (λ _ _, demo_task_io) x)) = ∅.
Proof.
  cbv zeta. split; [vm_compute; discriminate|].
  assert (Hwf : db_wf (as_db demo_purge.2)).
  { destruct (createCacheTask_inv (AdminSessions.demo_io 1000 "00000001") AdminSessions.demo_console (AdminSessions.demo_request "")
      TaskTypePurge "cache.purge" demo_task_params demo_task demo_purge.2) as (H & _); [vm_compute; reflexivity|].
    exact (db_steps_wf _ _ H demo_two_users_wf). }
  apply (queue_drains 1 (λ _ _, demo_task_io) (demo_task_state (as_db demo_purge.2))).
  - done.
  - exact Hwf.
  - intros id t. change (tx_db (demo_task_state (as_db demo_purge.2))) with (as_db demo_purge.2).
    intros Hid. assert (Hall : map_Forall (λ _ t, tk_Type t = TaskTypePurge) (db_tasks (as_db demo_purge.2))).
    { apply (bool_decide_unpack _). vm_compute. exact I. }
    unfold known_type. by rewrite (Hall id t Hid).
  - apply Nat.leb_le. vm_compute. reflexivity.
Defined.

Lemma cancel_is_overwritten_witness :
  let s' := (handleCancelTask (AdminSessions.demo_io 1001 "00000002") demo_purge.2 (AdminSessions.demo_request "") (tk_TaskID demo_task)).2 in
  tk_Status <$> db_tasks (as_db s') !! tk_TaskID demo_task = Some TaskStatusCancelled ∧
  tk_Status <$> db_tasks (tx_db (executeTask demo_task_io (demo_task_state (as_db s')) demo_task)) !! tk_TaskID demo_task =
    Some TaskStatusCompleted.
Proof.
  cbv zeta. assert (Hrow : ∃ row, db_tasks (as_db demo_purge.2) !! tk_TaskID demo_task = Some row) by (eexists; vm_compute; reflexivity).
  destruct Hrow as [row Hrow].
  pose proof (cancel_is_overwritten (AdminSessions.demo_io 1001 "00000002") demo_purge.2 (AdminSessions.demo_request "") demo_task
    demo_task_io (demo_task_state (as_db (handleCancelTask (AdminSessions.demo_io 1001 "00000002") demo_purge.2
      (AdminSessions.demo_request "") (tk_TaskID demo_task)).2)) row demo_task_params demo_task_targets
    (resolveTargetNodes demo_task_io (demo_task_state (as_db (handleCancelTask (AdminSessions.demo_io 1001 "00000002") demo_purge.2
      (AdminSessions.demo_request "") (tk_TaskID demo_task)).2)) demo_task_params).2 eq_refl Hrow) as Hc.
  destruct (handleCancelTask _ _ _ _) as [reply s'].
  destruct Hc as (_ & H1 & H2 & _);
    [vm_compute; reflexivity|vm_compute; reflexivity|discriminate|reflexivity|vm_compute; reflexivity|vm_compute; discriminate|done|reflexivity|done|].
  split; [exact H1|exact H2].
Defined.
