(* ===== verification/AdminConsole.v ===== *)
(** * What the handlers of the console promise

    Theorems about [AdminApi] beyond its sessions: policies and their version history, the
    pages of its lists, and what disabling a node on the console does to dispatching. *)

From S2P Require Import Prelude GoStrings Models ContentIndex NodeCache Scheduler NodeLifecycle Policy Api RateLimiter.
From S2P Require Import GoJson EdgeServer AdminTables ConfigManager AdminApi.
From S2P Require AdminSessions.
From Stdlib Require Import Ascii.

(** ** Policies and their history *)
Section policies.

(** The versions of a policy are numbered from 1, and hold the texts [cs] in turn. *)
Record history (d : AdminDB) (id : string) (cs : list string) : Prop := {
  hi_only k row : db_versions d !! k = Some row → pv_PolicyID row = id →
    1 ≤ pv_Version row ∧ cs !! Z.to_nat (pv_Version row - 1) = Some (pv_Content row);
  hi_all i c : cs !! i = Some c → ∃ k row, db_versions d !! k = Some row ∧ pv_PolicyID row = id ∧ pv_Version row = Z.of_nat i + 1;
  hi_policy : ∃ p, db_policies d !! id = Some p ∧ ap_PolicyID p = id ∧ ap_Version p = Z.of_nat (length cs)
}.

Lemma marshal_raw_idem s : marshal_raw (marshal_raw s) = marshal_raw s.
Proof. unfold marshal_raw. by destruct (String.eqb_spec s "") as [->|]; [|destruct (String.eqb_spec s "")]. Qed.
Lemma marshal_raw_id s : s ≠ "" → marshal_raw s = s.
Proof. intros Hs. unfold marshal_raw. by destruct (String.eqb_spec s ""). Qed.

Lemma audit_policies io s r a b c :
  db_policies (as_db (audit io s r a b c)) = db_policies (as_db s) ∧ db_versions (as_db (audit io s r a b c)) = db_versions (as_db s).
Proof. unfold audit, PGStore_CreateAuditEvent. by destruct (ai_audit io). Qed.

Lemma history_same d d' id cs :
  db_policies d' = db_policies d → db_versions d' = db_versions d → history d id cs → history d' id cs.
Proof. intros H1 H2 []. split; rewrite ?H1, ?H2; done. Qed.

(** Saving the next version. *)
Lemma save_version_history d d' id cs now uuid c p :
  (∀ k row, db_versions d !! k = Some row → pv_PolicyID row = id →
    1 ≤ pv_Version row ∧ cs !! Z.to_nat (pv_Version row - 1) = Some (pv_Content row)) →
  (∀ i c, cs !! i = Some c → ∃ k row, db_versions d !! k = Some row ∧ pv_PolicyID row = id ∧ pv_Version row = Z.of_nat i + 1) →
  db_policies d !! id = Some p → ap_PolicyID p = id → ap_Version p = Z.of_nat (length cs) + 1 →
  db_versions d !! prefixed "pv_" uuid = None →
  d' = (PGStore_SavePolicyVersion true now uuid d id (Z.of_nat (length cs) + 1) c).2 →
  history d' id (cs ++ [marshal_raw c]) ∧ db_policies d' = db_policies d.
Proof.
  intros Ho Ha Hp Hid Hv Hf ->. unfold PGStore_SavePolicyVersion, insert_row. rewrite Hp, Hf. cbn [negb snd].
  split; [|done]. split; cbn [db_versions db_policies with_policies].
  - intros k row [[<- <-]|[Hne Hk]]%lookup_insert_Some Hrow.
    + cbn [pv_Version pv_Content]. split; [lia|]. rewrite lookup_app_r by lia.
      by replace (Z.to_nat _ - length cs)%nat with 0%nat by lia.
    + destruct (Ho _ _ Hk Hrow) as [H1 H2]. split; [done|]. by apply lookup_app_l_Some.
  - intros i c' Hi. apply lookup_app_Some in Hi as [Hi|[Hge Hi]].
    + destruct (Ha _ _ Hi) as (k & row & Hk & Hrow). exists k, row. split; [|done].
      rewrite lookup_insert_ne; [done|]. intros <-. congruence.
    + apply list_lookup_singleton_Some in Hi as [Hi <-]. eexists _, _. split; [apply lookup_insert_eq|]. cbn. split; [done|lia].
  - exists p. rewrite length_app. cbn. split; [done|]. split; [done|lia].
Qed.

Lemma create_policy_history io s r p q s1 :
  handleCreatePolicy io s r (Some p) = (AJson 201 (PPolicy q), s1) → db_wf (as_db s) → ai_db io 1 = true →
  db_versions (as_db s) !! prefixed "pv_" (ai_uuid io 1) = None →
  history (as_db s1) (ap_PolicyID q) [marshal_raw (ap_Content p)].
Proof.
  unfold handleCreatePolicy. destruct (wrong_type r); [done|]. destruct (String.eqb _ ""); [done|].
  unfold PGStore_CreateAdminPolicy. cbv zeta. destruct (insert_row _ _ _ _) as [m|] eqn:E; [|done]. unfold finish. intros [= <- <-].
  intros Hwf H1 Hf. apply insert_row_spec in E as [Hnew ->]. rewrite H1. cbn [ap_PolicyID ap_Content] in *.
  set (d := with_policies _ _ _). set (id := prefixed "pol_" _) in *. destruct (audit_policies io
    (set_db s (PGStore_SavePolicyVersion true (ai_now io) (ai_uuid io 1) d id 1 (ap_Content p)).2) r "policy.create" "policy" id) as [E1 E2].
  eapply history_same; [exact E1|exact E2|]. cbn [as_db set_db].
  apply (save_version_history d _ id [] (ai_now io) (ai_uuid io 1) (ap_Content p)
    (mkAdminPolicy (ai_now io) (ai_now io) (marshal_raw (ap_Content p)) id (ap_TenantID p) (ap_ProjectID p) (trimmed (ap_Name p))
       (ap_Type p) 1 (ap_IsPublished p) (ap_Description p))); try done.
  - intros k row Hk Hrow. destruct (wf_version _ Hwf _ _ Hk) as [_ [p' Hp']]. rewrite Hrow, Hnew in Hp'. done.
  - apply lookup_insert_eq.
Qed.

(** An accepted update with a new text. *)
Record accepted_update (io : adminIO) (s : AdminState) (r : adminRequest) (u : AdminPolicy) : Prop := {
  au_type : wrong_type r = false;
  au_db n : ai_db io n = true;
  au_text : ap_Content u ≠ "";
  au_key : db_versions (as_db s) !! prefixed "pv_" (ai_uuid io 0) = None
}.

Lemma update_policy_saves io s r id u p s1 reply :
  accepted_update io s r u → db_policies (as_db s) !! id = Some p → ap_PolicyID p = id →
  handleUpdatePolicy io s r id (Some u) = (reply, s1) →
  ∃ p' d, db_policies d !! id = Some p' ∧ ap_PolicyID p' = id ∧ ap_Version p' = ap_Version p + 1 ∧
    ap_IsPublished p' = ap_IsPublished p ∧ ap_Content p' = ap_Content u ∧ db_versions d = db_versions (as_db s) ∧
    db_policies (as_db s1) = db_policies (PGStore_SavePolicyVersion true (ai_now io) (ai_uuid io 0) d id (ap_Version p + 1) (ap_Content u)).2 ∧
    db_versions (as_db s1) = db_versions (PGStore_SavePolicyVersion true (ai_now io) (ai_uuid io 0) d id (ap_Version p + 1) (ap_Content u)).2.
Proof.
  intros [Hct Hdb Htext Hkey] Hp Hid. unfold handleUpdatePolicy, PGStore_GetAdminPolicy, PGStore_UpdateAdminPolicy, update_policy, select_row.
  rewrite Hct, !Hdb. cbn [negb]. rewrite Hp. cbv zeta. cbn [ap_PolicyID ap_Content]. rewrite Hid.
  cbn [db_policies with_policies]. rewrite lookup_alter_eq, Hp. cbn [fmap option_fmap option_map ap_PolicyID ap_Version ap_Content].
  unfold patched. destruct (String.eqb_spec (ap_Content u) "") as [|_]; [done|]. rewrite (marshal_raw_id (ap_Content u)) by done. unfold finish.
  intros [= _ <-]. set (d := with_policies _ _ _). rewrite Hid.
  match goal with |- context [audit io ?s0 r ?a ?b ?c] => destruct (audit_policies io s0 r a b c) as [-> ->] end.
  eexists _, d. split; [unfold d; cbn [db_policies with_policies]; by rewrite lookup_alter_eq, Hp|]. cbn. by rewrite Hid.
Qed.

Lemma update_policy_history io s r id u cs s1 reply :
  accepted_update io s r u → history (as_db s) id cs → handleUpdatePolicy io s r id (Some u) = (reply, s1) →
  history (as_db s1) id (cs ++ [ap_Content u]).
Proof.
  intros Hu [Ho Ha (p & Hp & Hid & Hv)] He.
  destruct (update_policy_saves _ _ _ _ _ _ _ _ Hu Hp Hid He) as (p' & d & H1 & H2 & H3 & _ & _ & H4 & H5 & H6).
  rewrite Hv in *. eapply history_same; [exact H5|exact H6|]. rewrite <- (marshal_raw_id (ap_Content u)) by apply Hu.
  eapply save_version_history; [by rewrite H4|by rewrite H4|exact H1|done|done|rewrite H4; apply Hu|].
  by rewrite marshal_raw_id by apply Hu.
Qed.

(** Updates one after the other, with the texts they bring. *)
Inductive edits (id : string) : AdminState → list string → AdminState → Prop :=
| ed_none s : edits id s [] s
| ed_more io s r u reply s1 cs s2 :
    accepted_update io s r u → handleUpdatePolicy io s r id (Some u) = (reply, s1) → edits id s1 cs s2 →
    edits id s (ap_Content u :: cs) s2.

Lemma edits_history id s cs s' cs0 : edits id s cs s' → history (as_db s) id cs0 → history (as_db s') id (cs0 ++ cs).
Proof.
  intros He. revert cs0. induction He as [s|io s r u reply s1 cs s2 Hu He _ IH]; intros cs0 H0; [by rewrite app_nil_r|].
  rewrite cons_middle, app_assoc. apply IH. by eapply update_policy_history.
Qed.
End policies.

(** ** Rolling back *)
Lemma find_version_some v l row : row ∈ l → pv_Version row = v → ∃ row', find_version v l = Some row' ∧ row' ∈ l ∧ pv_Version row' = v.
Proof.
  induction l as [|x l IH]; intros Hin Hv; [by apply not_elem_of_nil in Hin|]. cbn [find_version].
  destruct (pv_Version x =? v) eqn:E.
  - exists x. split; [done|]. split; [by left|by apply Z.eqb_eq].
  - apply elem_of_cons in Hin as [<-|Hin]; [by apply Z.eqb_neq in E|]. destruct (IH Hin Hv) as (row' & H1 & H2 & H3).
    exists row'. split; [done|]. by split; [right|].
Qed.

(** The versions a handler reads. *)
Definition versions_of (d : AdminDB) (id : string) : list AdminPolicyVersion :=
  merge_sort higher_version (filter (λ v, pv_PolicyID v = id) (rows_of (db_versions d))).
Lemma versions_of_elem d id row :
  row ∈ versions_of d id ↔ ∃ k, db_versions d !! k = Some row ∧ pv_PolicyID row = id.
Proof.
  unfold versions_of. rewrite merge_sort_Permutation, list_elem_of_filter, elem_of_rows. split.
  - intros [H1 (k & H2)]. by exists k.
  - intros (k & H1 & H2). split; [done|by exists k].
Qed.

Lemma parse_decimal n : is_i64 n → parse_int (to_chars (decimal n)) = Some n.
Proof. intros Hn. unfold decimal. rewrite to_of_chars. by apply parse_int_format. Qed.

(** What a rollback does that is accepted. *)
Lemma rollback_effect io s r id n p :
  ai_db io 0 = true → ai_db io 1 = true → query r "to" = decimal n → is_i64 n → db_policies (as_db s) !! id = Some p →
  match find_version n (versions_of (as_db s) id) with
  | Some v =>
      let s' := (handleRollbackPolicy io s r id).2 in
      (handleRollbackPolicy io s r id).1 = AJson 200 (PStatus [("status", "rolled_back"); ("version", decimal n)]) ∧
      db_policies (as_db s') = <[id := mkAdminPolicy (ap_CreatedAt p) (ai_now io) (marshal_raw (pv_Content v)) (ap_PolicyID p)
        (ap_TenantID p) (ap_ProjectID p) (ap_Name p) (ap_Type p) (pv_Version v) true (ap_Description p)]> (db_policies (as_db s)) ∧
      db_versions (as_db s') = db_versions (as_db s)
  | None => handleRollbackPolicy io s r id = (AError 404 "NOT_FOUND", s)
  end.
Proof.
  intros H0 H1 Hq Hn Hp. unfold handleRollbackPolicy, PGStore_GetPolicyVersions. rewrite Hq, H0. cbv zeta.
  assert (Hne : decimal n ≠ "").
  { intros E. assert (Hl : to_chars (decimal n) = to_chars "") by (by rewrite E). unfold decimal in Hl. rewrite to_of_chars in Hl.
    destruct (format_int_first n) as (c & l & E2 & _). by rewrite E2 in Hl. }
  destruct (String.eqb_spec (decimal n) "") as [|_]; [done|].
  rewrite (parse_decimal n Hn).
  fold (versions_of (as_db s) id). destruct (find_version _ _) as [v|]; [|done].
  unfold updated, PGStore_RollbackPolicy, update_policy. rewrite H1. cbn [negb]. unfold finish. cbn [fst snd].
  match goal with |- context [audit io ?s0 r ?a ?b ?c] => destruct (audit_policies io s0 r a b c) as [-> ->] end.
  split; [done|]. split; [|done]. cbn [as_db set_db db_policies with_policies]. by rewrite (alter_alt_Some _ _ _ p).
Qed.

(** The text that the version with number [n] holds. *)
Lemma history_version d id cs n c :
  history d id cs → 1 ≤ n → cs !! Z.to_nat (n - 1) = Some c →
  ∃ row, find_version n (versions_of d id) = Some row ∧ pv_Version row = n ∧ pv_Content row = c.
Proof.
  intros [Ho Ha _] Hn Hc. destruct (Ha _ _ Hc) as (k & row & Hk & Hrow & Hv).
  destruct (find_version_some n (versions_of d id) row) as (row' & Hf & Hin & Hv'); [apply versions_of_elem; by exists k|lia|].
  exists row'. split; [done|]. split; [done|]. apply versions_of_elem in Hin as (k' & Hk' & Hrow').
  destruct (Ho _ _ Hk' Hrow') as [_ Hc']. rewrite Hv' in Hc'. congruence.
Qed.

(** The texts are stored as they are. *)
Lemma stored_text id s cs s' t c : edits id s cs s' → c ∈ marshal_raw t :: cs → marshal_raw c = c.
Proof.
  intros He Hc. apply elem_of_cons in Hc as [->|Hc]; [apply marshal_raw_idem|].
  induction He as [s|io s r u reply s1 cs s2 Hu He _ IH]; [by apply not_elem_of_nil in Hc|].
  apply elem_of_cons in Hc as [->|Hc]; [by apply marshal_raw_id, Hu|by apply IH].
Qed.

(** Every version can be had back: if a policy was created and then updated
    with new texts, each time with its version saved, then rolling back to a version number
    gives the policy exactly the text it had then, stored as it was and published, and
    changes no other policy and no version. *)
Theorem policy_rollback_restores io s r p q s1 cs s2 io3 r3 n c :
  handleCreatePolicy io s r (Some p) = (AJson 201 (PPolicy q), s1) → db_wf (as_db s) → ai_db io 1 = true →
  db_versions (as_db s) !! prefixed "pv_" (ai_uuid io 1) = None →
  edits (ap_PolicyID q) s1 cs s2 →
  (marshal_raw (ap_Content p) :: cs) !! Z.to_nat (n - 1) = Some c → 1 ≤ n → is_i64 n →
  ai_db io3 0 = true → ai_db io3 1 = true → query r3 "to" = decimal n →
  let '(reply, s3) := handleRollbackPolicy io3 s2 r3 (ap_PolicyID q) in
  (∃ fields, reply = AJson 200 (PStatus fields)) ∧
  (∃ row, db_policies (as_db s3) !! ap_PolicyID q = Some row ∧ ap_Content row = c ∧ ap_Version row = n ∧ ap_IsPublished row = true) ∧
  (∀ id, id ≠ ap_PolicyID q → db_policies (as_db s3) !! id = db_policies (as_db s2) !! id) ∧
  db_versions (as_db s3) = db_versions (as_db s2).
Proof.
  intros Hc Hwf Hv Hf He Hn H1 Hi H0' H1' Hq.
  pose proof (edits_history _ _ _ _ _ He (create_policy_history _ _ _ _ _ _ Hc Hwf Hv Hf)) as Hh.
  destruct (hi_policy _ _ _ Hh) as (row & Hrow & _). pose proof (rollback_effect _ _ _ _ _ _ H0' H1' Hq Hi Hrow) as Hr.
  destruct (history_version _ _ _ _ _ Hh H1 Hn) as (v & Hfv & Hnum & Hcon). rewrite Hfv in Hr.
  destruct (handleRollbackPolicy _ _ _ _) as [reply s3]. cbn [fst snd] in Hr. destruct Hr as (-> & Hp & Hvs).
  split; [by eexists|]. split; [|split; [|exact Hvs]].
  - rewrite Hp, lookup_insert_eq. eexists. split; [done|]. cbn. split; [|done]. rewrite Hcon.
    by apply (stored_text _ _ _ _ (ap_Content p) c He), (list_elem_of_lookup_2 _ (Z.to_nat (n - 1))).
  - intros id Hne. rewrite Hp. by apply lookup_insert_ne.
Qed.

Lemma rolled_back io s r id n cs c :
  history (as_db s) id cs → 1 ≤ n → is_i64 n → cs !! Z.to_nat (n - 1) = Some c →
  ai_db io 0 = true → ai_db io 1 = true → query r "to" = decimal n →
  let s1 := (handleRollbackPolicy io s r id).2 in
  ∃ p, db_policies (as_db s1) !! id = Some p ∧ ap_PolicyID p = id ∧ ap_Version p = n ∧ db_versions (as_db s1) = db_versions (as_db s).
Proof.
  intros Hh H1 Hn Hc H0 H01 Hq. destruct (hi_policy _ _ _ Hh) as (p & Hp & Hid & _).
  pose proof (rollback_effect _ _ _ _ _ _ H0 H01 Hq Hn Hp) as Hr.
  destruct (history_version _ _ _ _ _ Hh H1 Hc) as (v & Hfv & Hnum & _). rewrite Hfv in Hr. destruct Hr as (_ & Ep & Ev).
  cbv zeta. rewrite Ep, Ev, lookup_insert_eq. eexists. by split.
Qed.

Lemma old_version d id cs n old :
  history d id cs → 1 ≤ n → cs !! Z.to_nat n = Some old →
  ∃ k v, db_versions d !! k = Some v ∧ pv_PolicyID v = id ∧ pv_Version v = n + 1 ∧ pv_Content v = old.
Proof.
  intros Hh H1 Hold. destruct (hi_all _ _ _ Hh _ _ Hold) as (k & v & Hk & Hv & Hn). exists k, v.
  destruct (hi_only _ _ _ Hh _ _ Hk Hv) as [_ Hc]. rewrite Hn in Hc. replace (Z.to_nat _) with (Z.to_nat n) in Hc by lia.
  repeat split; [done|done|lia|congruence].
Qed.

(** A version number is not a name: an update after a rollback to [n] is saved as
    version [n + 1] a second time.  If its text differs from the one this version had, then
    from then on one of the two texts cannot be had back by any rollback to that number,
    although both are listed under it. *)
Theorem rollback_reuses_version s id cs n old io1 r1 io2 r2 u reply s2 :
  history (as_db s) id cs → 1 ≤ n → is_i64 n → is_i64 (n + 1) → cs !! Z.to_nat n = Some old →
  ai_db io1 0 = true → ai_db io1 1 = true → query r1 "to" = decimal n →
  let s1 := (handleRollbackPolicy io1 s r1 id).2 in
  accepted_update io2 s1 r2 u → ap_Content u ≠ marshal_raw old →
  handleUpdatePolicy io2 s1 r2 id (Some u) = (reply, s2) →
  (∃ k1 k2 v1 v2, k1 ≠ k2 ∧ db_versions (as_db s2) !! k1 = Some v1 ∧ db_versions (as_db s2) !! k2 = Some v2 ∧
     pv_PolicyID v1 = id ∧ pv_PolicyID v2 = id ∧ pv_Version v1 = n + 1 ∧ pv_Version v2 = n + 1 ∧
     pv_Content v1 = old ∧ pv_Content v2 = ap_Content u) ∧
  ∃ lost, (lost = marshal_raw old ∨ lost = ap_Content u) ∧
    ∀ io3 r3, ai_db io3 0 = true → ai_db io3 1 = true → query r3 "to" = decimal (n + 1) →
      ap_Content <$> db_policies (as_db (handleRollbackPolicy io3 s2 r3 id).2) !! id ≠ Some lost.
Proof.
  intros Hh H1 Hn Hn1 Hold H0 H01 Hq s1 Hu Hne Hup.
  assert (Hlt : (Z.to_nat (n - 1) < length cs)%nat) by (apply lookup_lt_Some in Hold; lia).
  destruct (lookup_lt_is_Some_2 _ _ Hlt) as [c Hc].
  destruct (rolled_back _ _ _ _ _ _ _ Hh H1 Hn Hc H0 H01 Hq) as (p & Hp & Hpid & Hpv & Hvs). fold s1 in Hp, Hvs.
  destruct (update_policy_saves _ _ _ _ _ _ _ _ Hu Hp Hpid Hup) as (p' & d & Hp' & _ & _ & _ & _ & Hd & E1 & E2).
  rewrite Hpv in E1, E2. set (key := prefixed "pv_" (ai_uuid io2 0)) in *. set (new := mkAdminPolicyVersion (ai_now io2) (ap_Content u) key id (n + 1)).
  assert (Hkey : db_versions (as_db s1) !! key = None) by apply Hu.
  assert (Ev : db_versions (as_db s2) = <[key := new]> (db_versions (as_db s)) ∧ db_policies (as_db s2) !! id = Some p').
  { rewrite E1, E2. unfold PGStore_SavePolicyVersion, insert_row. fold key. rewrite Hp', Hd, Hkey. cbn [negb snd].
    cbn [db_versions db_policies with_policies]. rewrite Hvs, marshal_raw_id by apply Hu. done. }
  destruct Ev as [Ev Hp2]. assert (Hfresh : db_versions (as_db s) !! key = None) by (by rewrite <- Hvs).
  destruct (old_version _ _ _ _ _ Hh H1 Hold) as (k1 & v1 & Hk1 & Hv1 & Hn1' & Hc1).
  assert (Hk : k1 ≠ key) by congruence. split.
  { exists k1, key, v1, new. rewrite Ev, lookup_insert_ne, lookup_insert_eq by done. by repeat split. }
  destruct (find_version_some (n + 1) (versions_of (as_db s2) id) new) as (v & Hfv & Hin & Hnum).
  { apply versions_of_elem. exists key. by rewrite Ev, lookup_insert_eq. }
  { done. }
  assert (Hcase : pv_Content v = old ∨ pv_Content v = ap_Content u).
  { apply versions_of_elem in Hin as (k & Hin & Hvid). rewrite Ev in Hin. apply lookup_insert_Some in Hin as [[_ <-]|[_ Hin]]; [by right|left].
    destruct (hi_only _ _ _ Hh _ _ Hin Hvid) as [_ Hcs]. rewrite Hnum in Hcs. replace (n + 1 - 1) with n in Hcs by lia. congruence. }
  assert (Hrb : ∀ io3 r3, ai_db io3 0 = true → ai_db io3 1 = true → query r3 "to" = decimal (n + 1) →
    ap_Content <$> db_policies (as_db (handleRollbackPolicy io3 s2 r3 id).2) !! id = Some (marshal_raw (pv_Content v))).
  { intros io3 r3 H3 H31 Hq3. pose proof (rollback_effect io3 s2 r3 id (n + 1) p' H3 H31 Hq3 Hn1 Hp2) as Hr. rewrite Hfv in Hr.
    destruct Hr as (_ & -> & _). by rewrite lookup_insert_eq. }
  destruct Hcase as [E|E]; rewrite E in Hrb.
  - exists (ap_Content u). split; [by right|]. intros io3 r3 H3 H31 Hq3. rewrite (Hrb _ _ H3 H31 Hq3). congruence.
  - exists (marshal_raw old). split; [by left|]. intros io3 r3 H3 H31 Hq3. rewrite (Hrb _ _ H3 H31 Hq3).
    rewrite marshal_raw_id by apply Hu. congruence.
Qed.

(** ** Nodes *)

Lemma audit_api io s r a b c : as_api (audit io s r a b c) = as_api s.
Proof. unfold audit, PGStore_CreateAuditEvent. by destruct (ai_audit io). Qed.

(** While the node list is fresh, a dispatch does not see the database. *)
Lemma dispatch_same_cache {CI : Type} `{ContentIndexLookup CI} {SG : Type} `{TokenSigner SG} (sch : Scheduler CI SG) (t : Clock)
    db_ok st pg hr body nodes :
  NodeCache_fresh (st_nodeCache (api_sched st)) (t_get t) = Some nodes →
  (handleDispatch sch t db_ok (with_pgstore st pg) hr body).1 = (handleDispatch sch t db_ok st hr body).1.
Proof.
  intros Hf. unfold handleDispatch. destruct (decodeJSON body) as [e|req]; [done|]. cbn [api_ipCache with_pgstore with_cp].
  destruct (if String.eqb _ _ then _ else _) as [ip ips]. cbn [api_policy with_ips with_pgstore with_cp api_sched].
  destruct (String.eqb (trimmed (res_Key _)) ""); [done|]. destruct (Policy_IsBlocked _ _); [done|].
  unfold Scheduler_Resolve, NodeCache_GetActiveNodes. rewrite Hf. by repeat case_match.
Qed.

Definition stored_status (s : AdminState) (id : string) : option NodeStatus := n_Status <$> pg_nodes (as_pg s) !! id.

(** Disabling a node on the console writes its row but leaves the node list cache
    of the scheduler, which the signed interface empties: as long as the list is fresh every
    dispatch is answered as before, the disabled node among the candidates. *)
Theorem console_disable_not_dispatched {CI : Type} `{ContentIndexLookup CI} {SG : Type} `{TokenSigner SG}
    (sch : Scheduler CI SG) (t : Clock) io s r id reason until row nodes db_ok hr body :
  wrong_type r = false → ai_db io 0 = true → pg_nodes (as_pg s) !! id = Some row →
  NodeCache_fresh (st_nodeCache (api_sched (as_api s))) (t_get t) = Some nodes →
  let '(reply, s') := handleDisableNode io s r id (Some (reason, until)) in
  (∃ fields, reply = AJson 200 (PStatus fields)) ∧
  stored_status s' id = Some NodeStatusDisabled ∧
  (handleDispatch sch t db_ok (as_api s') hr body).1 = (handleDispatch sch t db_ok (as_api s) hr body).1.
Proof.
  intros Hct Hdb Hrow Hfresh. destruct (handleDisableNode _ _ _ _ _) as [reply s'] eqn:E.
  unfold handleDisableNode, PGStore_NodeDisable in E. rewrite Hct, Hdb in E. cbn [negb] in E. unfold finish in E.
  injection E as <- <-. split; [by eexists|].
  match goal with |- context [audit io ?s0 r ?a ?b ?c] => pose proof (audit_api io s0 r a b c) as Ha; set (s2 := audit io s0 r a b c) in * end.
  split.
  - unfold stored_status, as_pg at 1. rewrite Ha. cbn. rewrite lookup_alter_eq, Hrow. cbn. by destruct until.
  - rewrite Ha. by apply (dispatch_same_cache _ _ _ _ _ _ _ nodes).
Qed.

(** ** A concrete run *)
Definition demo_policy (text : string) : AdminPolicy :=
  mkAdminPolicy 0 0 text "" "t_0000000a" "" "Blocked" AdminPolicyTypeBlock 0 false "".
Definition demo_created : adminReply * AdminState :=
  handleCreatePolicy (AdminSessions.demo_io 10 "1") AdminSessions.demo_console (AdminSessions.demo_request "") (Some (demo_policy "one")).
Definition demo_policy_of (x : adminReply * AdminState) : AdminPolicy :=
  match x.1 with AJson _ (PPolicy p) => p | _ => demo_policy "" end.
Definition demo_edit (uuid text : string) (s : AdminState) : adminReply * AdminState :=
  handleUpdatePolicy (AdminSessions.demo_io 11 uuid) s (AdminSessions.demo_request "") "pol_1" (Some (demo_policy text)).
Definition demo_edited : AdminState := (demo_edit "3" "three" (demo_edit "2" "two" demo_created.2).2).2.
Definition demo_to (n : Z) : adminRequest :=
  mkAdminRequest "" "" "" "" "" "" "" (AdminSessions.demo_request "" ).(rq_addr) {["to" := decimal n]}.

Lemma demo_accepted_update uuid text s :
  text ≠ "" → db_versions (as_db s) !! prefixed "pv_" uuid = None →
  accepted_update (AdminSessions.demo_io 11 uuid) s (AdminSessions.demo_request "") (demo_policy text).
Proof. intros Ht Hk. by split. Qed.

Lemma demo_edits : edits "pol_1" demo_created.2 ["two"; "three"] demo_edited.
Proof.
  apply (ed_more _ (AdminSessions.demo_io 11 "2") _ (AdminSessions.demo_request "") (demo_policy "two")
    (demo_edit "2" "two" demo_created.2).1 (demo_edit "2" "two" demo_created.2).2).
  - apply demo_accepted_update; [done|vm_compute; reflexivity].
  - apply surjective_pairing.
  - apply (ed_more _ (AdminSessions.demo_io 11 "3") _ (AdminSessions.demo_request "") (demo_policy "three")
      (demo_edit "3" "three" (demo_edit "2" "two" demo_created.2).2).1 demo_edited).
    + apply demo_accepted_update; [done|vm_compute; reflexivity].
    + apply surjective_pairing.
    + apply ed_none.
Qed.
Lemma demo_console_wf : db_wf (as_db AdminSessions.demo_console).
Proof. by apply (db_steps_wf demo_db); [apply rtc_once, ds_user_create|apply (db_steps_wf _ _ demo_db_reached)]. Qed.
Lemma demo_created_ok : demo_created = (AJson 201 (PPolicy (demo_policy_of demo_created)), demo_created.2).
Proof. vm_compute. reflexivity. Qed.

(** Back to the second version, published. *)
Lemma policy_rollback_restores_witness :
  ap_Content <$> db_policies (as_db demo_edited) !! "pol_1" = Some "three" ∧
  ap_Content <$> db_policies (as_db (handleRollbackPolicy (AdminSessions.demo_io 12 "") demo_edited (demo_to 2) "pol_1").2) !! "pol_1" =
    Some "two".
Proof.
  split; [vm_compute; reflexivity|].
  pose proof (policy_rollback_restores (AdminSessions.demo_io 10 "1") AdminSessions.demo_console (AdminSessions.demo_request "")
    (demo_policy "one") (demo_policy_of demo_created) demo_created.2 ["two"; "three"] demo_edited (AdminSessions.demo_io 12 "")
    (demo_to 2) 2 "two" demo_created_ok demo_console_wf eq_refl) as H.
  change (ap_PolicyID (demo_policy_of demo_created)) with "pol_1" in H.
  destruct (handleRollbackPolicy _ _ _ _) as [reply s3].
  destruct H as (_ & (row & Hrow & Hc & _) & _);
    [vm_compute; reflexivity|exact demo_edits|reflexivity|lia|vm_compute; split; [discriminate|reflexivity]|reflexivity|reflexivity|vm_compute; reflexivity|].
  cbn [snd]. rewrite Hrow. cbn [fmap option_fmap option_map]. by rewrite Hc.
Defined.

(** After a rollback to the first version the next one is again called the second. *)
Definition demo_rolled : AdminState := (handleRollbackPolicy (AdminSessions.demo_io 12 "") demo_edited (demo_to 1) "pol_1").2.
Lemma rollback_reuses_version_witness :
  ∃ k1 k2 v1 v2, k1 ≠ k2 ∧ db_versions (as_db (demo_edit "4" "other" demo_rolled).2) !! k1 = Some v1 ∧
    db_versions (as_db (demo_edit "4" "other" demo_rolled).2) !! k2 = Some v2 ∧ pv_Version v1 = pv_Version v2 ∧
    pv_Content v1 = "two" ∧ pv_Content v2 = "other".
Proof.
  assert (Hh : history (as_db demo_edited) "pol_1" (["one"] ++ ["two"; "three"])).
  { apply (edits_history _ _ _ _ _ demo_edits). change "pol_1" with (ap_PolicyID (demo_policy_of demo_created)).
    apply (create_policy_history _ _ _ _ _ _ demo_created_ok demo_console_wf eq_refl). vm_compute. reflexivity. }
  destruct (rollback_reuses_version demo_edited "pol_1" _ 1 "two" (AdminSessions.demo_io 12 "") (demo_to 1) (AdminSessions.demo_io 11 "4")
    (AdminSessions.demo_request "") (demo_policy "other") (demo_edit "4" "other" demo_rolled).1 (demo_edit "4" "other" demo_rolled).2 Hh)
    as [(k1 & k2 & v1 & v2 & H1 & H2 & H3 & _ & _ & H6 & H7 & H8 & H9) _];
    [lia|vm_compute; split; [discriminate|reflexivity]|vm_compute; split; [discriminate|reflexivity]|reflexivity|reflexivity|reflexivity
    |vm_compute; reflexivity|apply demo_accepted_update; [done|vm_compute; reflexivity]|vm_compute; discriminate|apply surjective_pairing|].
  exists k1, k2, v1, v2. rewrite H6, H7. by repeat split.
Defined.

(** A node is disabled after a dispatch filled the node list cache. *)
Definition demo_busy : AdminState := set_api AdminSessions.demo_console Api.demo_warm.
Definition demo_off : AdminState :=
  (handleDisableNode (AdminSessions.demo_io 13 "") demo_busy (AdminSessions.demo_request "") "n2" (Some ("broken", None))).2.
Lemma console_disable_not_dispatched_witness :
  n_Status <$> pg_nodes (as_pg demo_off) !! "n2" = Some NodeStatusDisabled ∧
  cand_ID <$> resp_Candidates (answer_of (handleDispatch demo_sched demo_clock true (as_api demo_off) demo_http (Body demo_req)).1) =
    ["n2"; "n1"].
Proof.
  assert (Hn : ∃ row nodes, pg_nodes (as_pg demo_busy) !! "n2" = Some row ∧
    NodeCache_fresh (st_nodeCache (api_sched (as_api demo_busy))) (t_get demo_clock) = Some nodes).
  { eexists _, _. split; vm_compute; reflexivity. }
  destruct Hn as (row & nodes & Hrow & Hfresh).
  pose proof (console_disable_not_dispatched demo_sched demo_clock (AdminSessions.demo_io 13 "") demo_busy (AdminSessions.demo_request "")
    "n2" "broken" None row nodes true demo_http (Body demo_req) eq_refl eq_refl Hrow Hfresh) as H.
  unfold demo_off. destruct (handleDisableNode _ _ _ _ _) as [reply s']. destruct H as (_ & H1 & H2). cbn [snd].
  split; [exact H1|]. rewrite H2. vm_compute. reflexivity.
Defined.
