(* ===== verification/AdminLists.v ===== *)
(** * The lists and the export of the console

    Theorems about the handlers of [AdminApi] that show many rows: a client that follows
    [has_more] through the pages of a list, and a program that reads the exported audit
    log. *)

From S2P Require Import Prelude GoStrings Models EdgeServer.
From S2P Require Import GoJson AdminTables AdminApi.
From S2P Require AdminSessions.
From Stdlib Require Import Ascii.

(** ** Following the pages *)

(** A client asks for the next offset while there is more; [None] if the requests run out or
    one fails. *)
Fixpoint follow {A} (fuel : nat) (get : Z → option (PaginatedResponse A)) (offset : Z) : option (list A) :=
  match fuel with
  | O => None
  | S fuel =>
      match get offset with
      | Some p => if pr_HasMore p then (λ l, pr_Data p ++ l) <$> follow fuel get (offset + pr_Limit p) else Some (pr_Data p)
      | None => None
      end
  end.

(** The pages of [all]. *)
Definition page_of {A} (all : list A) (limit offset : Z) : PaginatedResponse A :=
  mkPage (take (Z.to_nat limit) (drop (Z.to_nat offset) all)) (Z.of_nat (length all)) limit offset
    (has_more offset limit (Z.of_nat (length all))).

Lemma follow_pages {A} (all : list A) limit get fuel offset :
  0 < limit → Z.of_nat (length all) + limit < 2 ^ 63 → (∀ o, 0 ≤ o ≤ Z.of_nat (length all) → get o = Some (page_of all limit o)) →
  0 ≤ offset ≤ Z.of_nat (length all) → Z.of_nat (length all) - offset ≤ Z.of_nat fuel * limit → (0 < fuel)%nat →
  follow fuel get offset = Some (drop (Z.to_nat offset) all).
Proof.
  intros Hl Hb Hget. revert offset. induction fuel as [|fuel IH]; intros offset Ho Hf Hpos; [lia|]. cbn [follow].
  rewrite Hget by done. unfold page_of, has_more. cbn [pr_HasMore pr_Data pr_Limit].
  assert (Hi : i64 (offset + limit) = offset + limit) by (apply i64_id; unfold is_i64; lia). rewrite Hi.
  destruct (offset + limit <? Z.of_nat (length all)) eqn:E.
  - apply Z.ltb_lt in E. rewrite IH; [|lia|lia|destruct fuel; lia].
    cbn [fmap option_fmap option_map]. f_equal. replace (Z.to_nat (offset + limit)) with (Z.to_nat offset + Z.to_nat limit)%nat by lia.
    by rewrite <- drop_drop, take_drop.
  - apply Z.ltb_ge in E. f_equal. apply take_ge. rewrite length_drop. lia.
Qed.

(** *** Tasks *)

(** The request for a page. *)
Definition page_request (r : adminRequest) (limit offset : Z) : adminRequest :=
  mkAdminRequest (rq_ContentType r) (rq_Authorization r) (rq_ActorUserId r) (rq_ActorTenantId r) (rq_ActorEmail r)
    (rq_RequestId r) (rq_UserAgent r) (rq_addr r) (<["limit" := decimal limit]> (<["offset" := decimal offset]> (rq_query r))).
Definition task_page (io : adminIO) (s : AdminState) (r : adminRequest) : option (PaginatedResponse Task) :=
  match (handleListTasks io s r).1 with AJson _ (PTasks p) => Some p | _ => None end.

Lemma Atoi_decimal n : is_i64 n → Atoi (decimal n) = n.
Proof. intros Hn. unfold Atoi, decimal. by rewrite to_of_chars, parse_int_format. Qed.

Lemma page_request_query r limit offset :
  query (page_request r limit offset) "limit" = decimal limit ∧ query (page_request r limit offset) "offset" = decimal offset ∧
  ∀ name, name ≠ "limit" → name ≠ "offset" → query (page_request r limit offset) name = query r name.
Proof.
  unfold query, page_request. cbn [rq_query]. rewrite lookup_insert_eq, lookup_insert_ne, lookup_insert_eq by done.
  split; [done|]. split; [done|]. intros name H1 H2. by rewrite !lookup_insert_ne by congruence.
Qed.

(** The tasks a request is about. *)
Definition task_rows (s : AdminState) (r : adminRequest) : list Task :=
  filter (task_matches (rq_ActorTenantId r) (query r "status") (query r "type")) (rows_of (db_tasks (as_db s))).

(** A client that follows the pages of the tasks while nothing changes is
    done after one request for each page of the list, and has then seen every task that
    matches once, newest first.  Tasks of the same time must come in the same order each
    time, which here they do. *)
Theorem task_pages_complete io s r limit :
  ai_db io 0 = true → ai_db io 1 = true → 0 < limit → Z.of_nat (length (task_rows s r)) + limit < 2 ^ 63 →
  let pages := Z.to_nat (Z.of_nat (length (task_rows s r)) / limit) in
  follow (S pages) (λ o, task_page io s (page_request r limit o)) 0 = Some (newest_first tk_CreatedAt (task_rows s r)) ∧
  newest_first tk_CreatedAt (task_rows s r) ≡ₚ task_rows s r ∧
  Sorted (created_before tk_CreatedAt) (newest_first tk_CreatedAt (task_rows s r)).
Proof.
  intros H0 H1 Hl Hb. set (rows := task_rows s r) in *. cbv zeta.
  assert (Hlen : length (newest_first tk_CreatedAt rows) = length rows) by (apply Permutation_length, merge_sort_Permutation).
  split; [|split; [apply merge_sort_Permutation|apply Sorted_merge_sort; intros a b; unfold created_before; lia]].
  rewrite (follow_pages (newest_first tk_CreatedAt rows) limit); [done|done|by rewrite Hlen| |lia| |lia].
  - intros o Ho. unfold task_page, handleListTasks, page_limit.
    destruct (page_request_query r limit o) as (E1 & E2 & E3).
    rewrite E1, E2, !E3, !Atoi_decimal by (done || (unfold is_i64; lia)).
    rewrite (proj2 (Z.leb_gt limit 0)) by lia. unfold PGStore_ListTasks, limit_offset. rewrite H0, H1. cbn [negb fst].
    rewrite (proj2 (Z.ltb_ge limit 0)), (proj2 (Z.ltb_ge o 0)) by lia. cbn [orb]. unfold page_of. rewrite Hlen. done.
  - rewrite Hlen. pose proof (Z.div_mod (Z.of_nat (length rows)) limit). pose proof (Z.mod_pos_bound (Z.of_nat (length rows)) limit).
    assert (0 ≤ Z.of_nat (length rows) / limit) by (apply Z.div_pos; lia). nia.
Qed.

(** *** The audit log *)
Definition audit_page (io : adminIO) (s : AdminState) (r : adminRequest) (offset : Z) : option (PaginatedResponse AuditEvent) :=
  match (handleQueryAudit io s (page_request r 0 offset)).1 with AJson _ (PAudit p) => Some p | _ => None end.
Definition audit_rows (s : AdminState) (r : adminRequest) : list AuditEvent :=
  filter (audit_matches (audit_query r 0 0)) (db_audit (as_db s)).

(** The audit log falls back to fifty entries if no limit is given, but reports
    the limit as zero: a client that follows its pages asks for the first one forever, also
    when it has long seen every entry. *)
Theorem audit_pages_repeat io s r :
  ai_db io 0 = true → ai_db io 1 = true → audit_rows s r ≠ [] → Z.of_nat (length (audit_rows s r)) < 2 ^ 63 →
  (∃ p, audit_page io s r 0 = Some p ∧ pr_Limit p = 0 ∧ pr_HasMore p = true ∧
     pr_Data p = take 50 (newest_first ae_CreatedAt (audit_rows s r))) ∧
  ∀ fuel, follow fuel (audit_page io s r) 0 = None.
Proof.
  intros H0 H1 Hne Hb. set (rows := audit_rows s r) in *.
  assert (Hp : audit_page io s r 0 = Some (mkPage (take 50 (newest_first ae_CreatedAt rows)) (Z.of_nat (length rows)) 0 0 true)).
  { unfold audit_page, handleQueryAudit, audit_query. destruct (page_request_query r 0 0) as (E1 & E2 & E3).
    rewrite E1, E2, !E3, !Atoi_decimal by (done || (unfold is_i64; lia)).
    unfold PGStore_QueryAuditEvents, limit_offset. rewrite H0, H1. cbn [negb fst aq_Limit aq_Offset audit_limit Z.ltb Z.leb Z.compare orb].
    change (Z.to_nat 50) with 50%nat. change (Z.to_nat 0) with 0%nat. rewrite drop_0. unfold has_more. change (i64 (0 + 0)) with 0.
    match goal with |- context [mkPage (take _ (newest_first _ ?l))] => change l with rows end.
    rewrite (proj2 (Z.ltb_lt 0 (Z.of_nat (length rows)))); [done|]. destruct rows; [done|cbn; lia]. }
  split; [by eexists|]. intros fuel. induction fuel as [|fuel IH]; [done|]. cbn [follow]. rewrite Hp. cbn [pr_HasMore pr_Limit].
  change (0 + 0) with 0. by rewrite IH.
Qed.

(** ** Reading the export *)

(** A reader of comma-separated values, as RFC 4180 has them, with a line feed at the end of
    a record. *)
Inductive csvMode := CsvStart | CsvPlain | CsvQuoted | CsvQuoteSeen.
Abbreviation comma := (ch 44).
Abbreviation line_feed := (ch 10).

Fixpoint csv_parse (m : csvMode) (field : chars) (fields : list chars) (records : list (list chars)) (l : chars)
    : option (list (list chars)) :=
  match l with
  | [] => match m, fields with CsvQuoted, _ => None | CsvStart, [] => Some records | _, _ => Some (records ++ [fields ++ [field]]) end
  | c :: l =>
      match m with
      | CsvQuoted =>
          if bool_decide (c = quote) then csv_parse CsvQuoteSeen field fields records l
          else csv_parse CsvQuoted (field ++ [c]) fields records l
      | _ =>
          if bool_decide (c = comma) then csv_parse CsvStart [] (fields ++ [field]) records l
          else if bool_decide (c = line_feed) then csv_parse CsvStart [] [] (records ++ [fields ++ [field]]) l
          else
            match m, bool_decide (c = quote) with
            | CsvStart, true => csv_parse CsvQuoted [] fields records l
            | CsvQuoteSeen, true => csv_parse CsvQuoted (field ++ [quote]) fields records l
            | CsvPlain, true | CsvQuoteSeen, false => None
            | _, false => csv_parse CsvPlain (field ++ [c]) fields records l
            | CsvQuoted, true => None
            end
      end
  end.
Definition byte_order_mark : chars := map ch [239; 187; 191].
Definition csv_read (l : chars) : option (list (list chars)) := csv_parse CsvStart [] [] [] (trim_prefix byte_order_mark l).

(** Characters that make [csvEscape] quote a field. *)
Definition csv_special (c : ascii) : bool :=
  bool_decide (c = comma) || bool_decide (c = quote) || bool_decide (c = line_feed).
Definition csv_plain (l : chars) : Prop := Forall (λ c, csv_special c = false) l.

Lemma csv_special_not c : csv_special c = false → c ≠ comma ∧ c ≠ quote ∧ c ≠ line_feed.
Proof.
  unfold csv_special. intros Hc. apply orb_false_elim in Hc as [[H1 H2]%orb_false_elim H3].
  by rewrite !bool_decide_eq_false in *.
Qed.

Definition is_separator (c : ascii) : Prop := c = comma ∨ c = line_feed.
(** After a field. *)
Definition csv_after (sep : ascii) (field : chars) (fields : list chars) (records : list (list chars)) (l : chars) :=
  if bool_decide (sep = comma) then csv_parse CsvStart [] (fields ++ [field]) records l
  else csv_parse CsvStart [] [] (records ++ [fields ++ [field]]) l.

Lemma csv_separator m sep field fields records l :
  is_separator sep → m ≠ CsvQuoted → csv_parse m field fields records (sep :: l) = csv_after sep field fields records l.
Proof. intros [->| ->] Hm; by destruct m. Qed.

Lemma csv_plain_parse f sep m field fields records l :
  csv_plain f → is_separator sep → m = CsvStart ∨ m = CsvPlain →
  csv_parse m field fields records (f ++ sep :: l) = csv_after sep (field ++ f) fields records l.
Proof.
  intros Hf Hs. revert m field. induction Hf as [|c f Hc Hf IH]; intros m field Hm.
  - rewrite app_nil_r. apply csv_separator; [done|]. by destruct Hm as [->| ->].
  - destruct (csv_special_not _ Hc) as (H1 & H2 & H3). cbn [app csv_parse]. rewrite !bool_decide_eq_false_2 by done.
    replace (field ++ c :: f) with ((field ++ [c]) ++ f) by (by rewrite <- app_assoc).
    destruct Hm as [->| ->]; apply IH; by right.
Qed.

Definition double_quotes (f : chars) : chars := f ≫= λ c, if bool_decide (c = quote) then [quote; quote] else [c].

Lemma csv_quote_end field fields records l :
  csv_parse CsvQuoted field fields records (quote :: l) = csv_parse CsvQuoteSeen field fields records l.
Proof. reflexivity. Qed.
Lemma csv_quote_begin fields records l :
  csv_parse CsvStart [] fields records (quote :: l) = csv_parse CsvQuoted [] fields records l.
Proof. reflexivity. Qed.
Lemma csv_quote_twice field fields records l :
  csv_parse CsvQuoted field fields records (quote :: quote :: l) = csv_parse CsvQuoted (field ++ [quote]) fields records l.
Proof. reflexivity. Qed.

Lemma csv_quoted_parse f sep field fields records l :
  is_separator sep →
  csv_parse CsvQuoted field fields records (double_quotes f ++ quote :: sep :: l) = csv_after sep (field ++ f) fields records l.
Proof.
  intros Hs. revert field. induction f as [|c f IH]; intros field.
  - rewrite app_nil_r. change (double_quotes [] ++ quote :: sep :: l) with (quote :: sep :: l).
    rewrite csv_quote_end. by apply csv_separator.
  - unfold double_quotes. rewrite bind_cons. fold (double_quotes f). destruct (bool_decide_reflect (c = quote)) as [->|Hne].
    + cbn [app]. rewrite csv_quote_twice, IH. by rewrite <- app_assoc.
    + cbn [app csv_parse]. rewrite (bool_decide_eq_false_2 (c = quote)) by done. rewrite IH. by rewrite <- app_assoc.
Qed.

(** An escaped field is read back. *)
Lemma csv_escape_parse f sep fields records l :
  is_separator sep → csv_parse CsvStart [] fields records (csvEscape f ++ sep :: l) = csv_after sep f fields records l.
Proof.
  intros Hs. unfold csvEscape. fold csv_special. destruct (existsb _ f) eqn:E.
  - fold (double_quotes f). rewrite <- app_comm_cons, <- app_assoc. cbn [app]. rewrite csv_quote_begin. by rewrite csv_quoted_parse.
  - rewrite csv_plain_parse; [done| |done|by left]. apply Forall_forall. intros c Hc. apply not_true_is_false. intros Ht.
    apply not_true_iff_false in E. apply E. apply existsb_exists. exists c. split; [by apply list_elem_of_In|exact Ht].
Qed.

(** A field of a record, as it is written and as it is meant. *)
Definition csv_written (w f : chars) : Prop :=
  ∀ sep fields records l, is_separator sep → csv_parse CsvStart [] fields records (w ++ sep :: l) = csv_after sep f fields records l.

Lemma csv_record_parse ws fs fields records l :
  Forall2 csv_written ws fs → ws ≠ [] →
  csv_parse CsvStart [] fields records (join_with comma ws ++ line_feed :: l) =
    csv_parse CsvStart [] [] (records ++ [fields ++ fs]) l.
Proof.
  intros Hw. revert fields. induction Hw as [|w f ws fs Hw Hws IH]; intros fields Hne; [done|].
  destruct Hws as [|w2 f2 ws fs Hw2 Hws].
  - cbn [join_with]. rewrite Hw by (by right). unfold csv_after. by rewrite bool_decide_eq_false_2 by (vm_compute; discriminate).
  - cbn [join_with] in *. rewrite <- app_assoc. cbn [app]. rewrite Hw by (by left). unfold csv_after.
    rewrite bool_decide_eq_true_2 by done. rewrite IH by done. by rewrite <- app_assoc.
Qed.

(** The columns of an entry. *)
Definition raw_fields (format_time : Z → chars) (e : AuditEvent) : list chars :=
  [to_chars (ae_ID e); format_time (ae_CreatedAt e); to_chars (ae_TenantID e); to_chars (ae_ActorID e);
   to_chars (ae_ActorEmail e); to_chars (ae_Action e); to_chars (ae_ResourceType e); to_chars (ae_ResourceID e);
   to_chars (ae_Result e); to_chars (ae_SourceIP e); to_chars (ae_RequestID e)].
Definition column_names : list chars :=
  map to_chars ["ID"; "CreatedAt"; "TenantID"; "ActorID"; "ActorEmail"; "Action"; "ResourceType"; "ResourceID"; "Result"; "SourceIP"; "RequestID"].

Lemma escaped_written f : csv_written (csvEscape f) f.
Proof. intros sep fields records l Hs. by apply csv_escape_parse. Qed.
Lemma plain_written f : csv_plain f → csv_written f f.
Proof. intros Hf sep fields records l Hs. rewrite csv_plain_parse; [done|done|done|by left]. Qed.

Lemma csv_line_parse format_time e records l :
  csv_plain (format_time (ae_CreatedAt e)) →
  csv_parse CsvStart [] [] records (csv_line (csv_fields format_time e) ++ l) =
    csv_parse CsvStart [] [] (records ++ [raw_fields format_time e]) l.
Proof.
  intros Ht. unfold csv_line. rewrite <- app_assoc. cbn [app]. rewrite (csv_record_parse _ (raw_fields format_time e)); [done| |done].
  unfold csv_fields, raw_fields. repeat constructor; try apply escaped_written. by apply plain_written.
Qed.

Lemma csv_lines_parse format_time events records :
  (∀ t, csv_plain (format_time t)) →
  csv_parse CsvStart [] [] records (mjoin ((csv_line ∘ csv_fields format_time) <$> events)) =
    Some (records ++ (raw_fields format_time <$> events)).
Proof.
  intros Ht. revert records. induction events as [|e events IH]; intros records; [by rewrite app_nil_r|].
  rewrite fmap_cons. change (mjoin (?x :: ?l)) with (x ++ mjoin l). unfold compose at 1. rewrite csv_line_parse by done.
  rewrite IH. by rewrite <- app_assoc.
Qed.

Lemma csv_head_parse l : csv_read (csv_head ++ l) = csv_parse CsvStart [] [] [column_names] l.
Proof. reflexivity. Qed.

(** The exported audit log can be read back: whatever texts the entries hold,
    commas, quotes and line feeds included, a reader of comma-separated values gets the names
    of the columns and then, for each of the ten thousand newest entries of the tenant that
    match, its columns as they are. *)
Theorem audit_export_roundtrip format_time io s r :
  ai_db io 0 = true → ai_db io 1 = true → query r "format" ≠ "json" → (∀ t, csv_plain (format_time t)) →
  let events := take (Z.to_nat 10000) (newest_first ae_CreatedAt (audit_rows s r)) in
  ∃ text, (handleExportAudit format_time io s r).1 = ACsv text ∧
    csv_read text = Some (column_names :: (raw_fields format_time <$> events)).
Proof.
  intros H0 H1 Hf Ht events. exists (csv_text format_time events). split.
  - unfold handleExportAudit, PGStore_QueryAuditEvents, limit_offset. rewrite H0, H1. cbn [negb fst aq_Limit aq_Offset audit_query audit_limit].
    change (Z.to_nat (audit_limit (audit_query r 10000 0))) with (Z.to_nat 10000).
    change ((audit_limit (audit_query r 10000 0) <? 0) || (0 <? 0)) with false.
    replace (String.eqb (patched "csv" (query r "format")) "json") with false; [done|]. symmetry. apply String.eqb_neq.
    unfold patched. by destruct (String.eqb_spec (query r "format") "").
  - unfold csv_text. rewrite csv_head_parse, csv_lines_parse by done. done.
Qed.

(** ** A concrete run *)
Definition demo_event (action : string) : AuditEvent :=
  mkAuditEvent "" "" "" "u_1" "ann" action "policy" "p,1" "" "" "" "" "" "success" 0.
Definition demo_log_db : AdminDB :=
  let d := (PGStore_CreateAuditEvent true 1 empty_db (demo_event (of_chars (to_chars "say " ++ [quote; line_feed; comma])))).2 in
  (PGStore_CreateAuditEvent true 2 d (demo_event "policy.update")).2.
Definition demo_list_state : AdminState :=
  AdminSessions.demo_admin (with_tasks demo_log_db
    {["a" := mkTask 1 1 "{}" "" "a" "" "" "" TaskTypePurge TaskStatusPending 0 0 0;
      "b" := mkTask 2 2 "{}" "" "b" "" "" "" TaskTypeBlock TaskStatusFailed 0 0 0;
      "c" := mkTask 3 3 "{}" "" "c" "" "" "" TaskTypePurge TaskStatusPending 0 0 0]}).
Definition demo_list_io : adminIO := AdminSessions.demo_io 1 "".
Definition demo_list_request : adminRequest := AdminSessions.demo_request "".

(** Three tasks on two pages of two. *)
Lemma task_pages_complete_witness :
  (fmap (M := list) tk_TaskID <$>
     follow 2 (λ o, task_page demo_list_io demo_list_state (page_request demo_list_request 2 o)) 0) = Some ["c"; "b"; "a"].
Proof.
  pose proof (task_pages_complete demo_list_io demo_list_state demo_list_request 2 eq_refl eq_refl eq_refl) as H.
  destruct H as [H _]; [vm_compute; reflexivity|].
  change (Z.to_nat (Z.of_nat (length (task_rows demo_list_state demo_list_request)) / 2)) with 1%nat in H.
  rewrite H. vm_compute. reflexivity.
Defined.

Lemma audit_pages_repeat_witness : follow 7 (audit_page demo_list_io demo_list_state demo_list_request) 0 = None.
Proof.
  apply audit_pages_repeat; [reflexivity|reflexivity|vm_compute; discriminate|vm_compute; reflexivity].
Defined.

Lemma audit_export_roundtrip_witness :
  ∃ text, (handleExportAudit (λ _, to_chars "now") demo_list_io demo_list_state demo_list_request).1 = ACsv text ∧
    (λ l, length l) <$> csv_read text = Some 3%nat ∧
    ∃ row, csv_read text = Some row ∧ (λ r, r !! 5%nat) <$> row !! 2%nat = Some (Some (to_chars "say " ++ [quote; line_feed; comma])).
Proof.
  destruct (audit_export_roundtrip (λ _, to_chars "now") demo_list_io demo_list_state demo_list_request eq_refl eq_refl)
    as (text & H1 & H2).
  - vm_compute. discriminate.
  - intros t. repeat constructor.
  - exists text. split; [exact H1|]. rewrite H2. split; [vm_compute; reflexivity|]. eexists. split; [reflexivity|]. vm_compute. reflexivity.
Defined.
