(* ===== verification/EdgeHTTP.v ===== *)
(** * Responses on the wire ([internal/edgeagent/server.go], the middleware)

    The handlers of [EdgeServer] say which status, headers and body they write.  Between them
    and the client stand [withRecovery], [withCommonHeaders] and [withCompression], and the
    response writer of [net/http], which refuses what goes beyond a declared Content-Length.

    A compressor ([gzip.Writer], [brotli.Writer]) is a [codec]: the pieces it writes for the
    writes it gets, those of [Close] included, and the decoder of the client; the law
    [codec_ok] says that the decoder reads back what was compressed and refuses a stream that
    was cut off.  When a piece is refused
    the compressor stops and so does the handler that copies into it; the pieces that follow
    would be refused as well, so [deliver] may be given all of them.

    The theorems: an object from the cache reaches the client unchanged whatever encodings it
    accepts, and so does every compressible response without a declared length after
    decoding; but an object fetched from the origin whose type is compressible is sent
    compressed under the length of the uncompressed object, a response without a declared
    length that is not compressible is followed by an empty compressed stream, and a panic is
    answered with status 200. *)

From S2P Require Import Prelude GoStrings GoHash GoJson StreamKeys SlidingWindow EdgeCache.
From S2P Require Import Manifest Fetcher Prefetch Tokens EdgeServer GoFloat.
From Stdlib Require Import Ascii ZifyBool.

(** ** The response writer *)

(** What a handler did: status and headers at [WriteHeader], and its writes. *)
Record handled := mkHandled { h_status : Z; h_headers : gmap string string; h_writes : list bytes }.

(** What the client gets; [w_complete]: the body has the declared length, if one is declared. *)
Record wire := mkWire {
  w_status : Z; w_headers : gmap string string; w_body : bytes; w_complete : bool
}.

(** The Content-Length header as a number; other texts are dropped by the writer. *)
Definition declared (h : gmap string string) : option Z :=
  match h !! "Content-Length" with
  | Some t => match parse_int (to_chars t) with Some n => if 0 <=? n then Some n else None | None => None end
  | None => None
  end.

Definition bodyAllowedForStatus (status : Z) : bool :=
  negb ((100 <=? status) && (status <=? 199)) && negb (status =? 204) && negb (status =? 304).

(** [response.Write]: a write that exceeds the declared length fails as a whole, and with it
    all later ones. *)
Fixpoint deliver (cl : option Z) (written : Z) (pieces : list bytes) : bytes :=
  match pieces with
  | [] => []
  | p :: ps =>
      let written := written + Z.of_nat (length p) in
      match cl with
      | Some n => if n <? written then [] else p ++ deliver cl written ps
      | None => p ++ deliver cl written ps
      end
  end.

(** A response to a HEAD request ([head]) has no body. *)
Definition respond (head : bool) (status : Z) (headers : gmap string string) (pieces : list bytes) : wire :=
  if head || negb (bodyAllowedForStatus status) then mkWire status headers [] true
  else
    let body := deliver (declared headers) 0 pieces in
    mkWire status headers body
      match declared headers with Some n => Z.of_nat (length body) =? n | None => true end.

(** ** Compression *)
Record codec := mkCodec {
  zip_name : string;
  zip_pieces : list bytes → list bytes;
  unzip : bytes → option bytes
}.

Record codec_ok (z : codec) : Prop := {
  unzip_zip ws : unzip z (concat (zip_pieces z ws)) = Some (concat ws);
  unzip_cut ws p : p `prefix_of` concat (zip_pieces z ws) → p ≠ concat (zip_pieces z ws) → unzip z p = None
}.

Definition isCompressible (ct : string) : bool :=
  if String.eqb ct "" then true
  else
    has_prefix (to_chars "application/json") (to_chars ct) ||
    has_prefix (to_chars "text/") (to_chars ct) ||
    has_prefix (to_chars "application/javascript") (to_chars ct) ||
    has_prefix (to_chars "application/xml") (to_chars ct).

Section middleware.
Context (gzip brotli : codec).

(** The encoding for a request with the header Accept-Encoding. *)
Definition accepted_codec (ae : string) : option codec :=
  if contains (to_chars "br") (to_chars ae) then Some brotli
  else if contains (to_chars "gzip") (to_chars ae) then Some gzip
  else None.

Definition commonRespHeaders : gmap string string :=
  {[ "Connection" := "keep-alive"; "Keep-Alive" := "timeout=120, max=1000"; "X-Content-Type-Options" := "nosniff" ]}.

(** The headers before the handler runs. *)
Definition base_headers (c : option codec) : gmap string string :=
  match c with
  | None => commonRespHeaders
  | Some z => delete "Content-Length" (<["Content-Encoding" := zip_name z]> commonRespHeaders)
  end.

(** [compressedResponseWriter.WriteHeader] and [Write], and the deferred [Close]: for a type
    that is not compressible the writes go to the client as they are, but the compressor is
    closed all the same. *)
Definition withCompression (c : option codec) (head : bool) (h : handled) : wire :=
  let headers := h_headers h ∪ base_headers c in
  match c with
  | None => respond head (h_status h) headers (h_writes h)
  | Some z =>
      if isCompressible (default "" (headers !! "Content-Type"))
      then respond head (h_status h) headers (zip_pieces z (h_writes h))
      else respond head (h_status h) (delete "Content-Encoding" headers) (h_writes h ++ zip_pieces z [])
  end.

(** A panic of a handler that has not written: the compressor is closed before the panic is
    recovered, and so begins the response. *)
Definition recovered (c : option codec) (head : bool) : wire :=
  let msg := bytes_of_string "internal server error" ++ [byte.of_Z 10] in
  match c with
  | None =>
      respond head 500 (<["Content-Type" := "text/plain; charset=utf-8"]>
        (<["X-Content-Type-Options" := "nosniff"]> (base_headers c))) [msg]
  | Some z => respond head 200 (base_headers c) (zip_pieces z [] ++ [msg])
  end.

(** The chain of [Handler]: [None] is a handler that panicked. *)
Definition withRecovery (ae : string) (head : bool) (h : option handled) : wire :=
  match h with
  | Some h => withCompression (accepted_codec ae) head h
  | None => recovered (accepted_codec ae) head
  end.

(** A response of [EdgeServer] on the wire; [split] is how the handler's copy cuts the body. *)
Definition on_wire (split : bytes → list bytes) (ae : string) (r : edgeRequest) (resp : response) : wire :=
  withRecovery ae (is_head r) (Some (mkHandled (rs_status resp) (rs_headers resp) (split (rs_body resp)))).
End middleware.

(** [io.Copy] goes by 32 KiB; a handler may also write the body at once. *)
Definition valid_split (split : bytes → list bytes) : Prop := ∀ b, concat (split b) = b.

(** What a client makes of a response. *)
Definition read_wire (gzip brotli : codec) (w : wire) : option bytes :=
  if w_complete w then
    match w_headers w !! "Content-Encoding" with
    | None => Some (w_body w)
    | Some name =>
        if String.eqb name (zip_name brotli) then unzip brotli (w_body w)
        else if String.eqb name (zip_name gzip) then unzip gzip (w_body w)
        else None
    end
  else None.

(** ** Lemmas on the response writer *)
Lemma deliver_none n ps : deliver None n ps = concat ps.
Proof. revert n. induction ps as [|p ps IH]; intros n; cbn; [done|]. by rewrite IH. Qed.

Lemma deliver_prefix cl n ps : deliver cl n ps `prefix_of` concat ps.
Proof.
  revert n. induction ps as [|p ps IH]; intros n; cbn; [done|].
  destruct cl as [m|]; [destruct (m <? _)|]; [apply prefix_nil|by apply prefix_app..].
Qed.

Lemma deliver_bound m n ps : n ≤ m → n + Z.of_nat (length (deliver (Some m) n ps)) ≤ m.
Proof.
  revert n. induction ps as [|p ps IH]; intros n Hn; cbn; [lia|].
  destruct (m <? _) eqn:E; cbn; [lia|]. bool_to_prop. rewrite length_app. specialize (IH _ E). lia.
Qed.

(** Everything arrives while the declared length is not exceeded; once it is reached, only
    empty writes succeed. *)
Lemma deliver_fits m n ps : n + Z.of_nat (length (concat ps)) ≤ m → deliver (Some m) n ps = concat ps.
Proof.
  revert n. induction ps as [|p ps IH]; intros n Hn; cbn in *; [done|]. rewrite length_app in Hn.
  rewrite (proj2 (Z.ltb_ge _ _)) by lia. by rewrite IH by lia.
Qed.

Lemma deliver_full m ps : deliver (Some m) m ps = [].
Proof.
  induction ps as [|p ps IH]; cbn; [done|]. destruct p as [|b p]; cbn [length app].
  - replace (m + Z.of_nat 0) with m by lia. rewrite Z.ltb_irrefl. exact IH.
  - by rewrite (proj2 (Z.ltb_lt _ _)) by lia.
Qed.

Lemma deliver_then_full m n a b :
  n + Z.of_nat (length (concat a)) = m → deliver (Some m) n (a ++ b) = concat a.
Proof.
  revert n. induction a as [|p a IH]; intros n Hn; cbn in *.
  - replace n with m by lia. apply deliver_full.
  - rewrite length_app in Hn. rewrite (proj2 (Z.ltb_ge _ _)) by lia. by rewrite IH by lia.
Qed.

(** A body of the declared length is the whole stream exactly if the stream is that long. *)
Lemma deliver_whole m ps :
  0 ≤ m → Z.of_nat (length (deliver (Some m) 0 ps)) = m ∧ deliver (Some m) 0 ps = concat ps ↔
  Z.of_nat (length (concat ps)) = m.
Proof.
  intros Hm. split; [intros [Hl Hd]; by rewrite Hd in Hl|]. intros Hl. by rewrite (deliver_fits m 0 ps) by lia.
Qed.

Lemma declared_decimal h n : h !! "Content-Length" = Some (decimal n) → 0 ≤ n < 2 ^ 63 → declared h = Some n.
Proof.
  intros Hh Hn. unfold declared, decimal in *. rewrite Hh, to_of_chars, parse_int_format by (unfold is_i64; lia).
  by rewrite (proj2 (Z.leb_le 0 n)) by lia.
Qed.

Lemma declared_none h : h !! "Content-Length" = None → declared h = None.
Proof. unfold declared. by intros ->. Qed.

Section wire.
Context (gzip brotli : codec) (gzip_ok : codec_ok gzip) (brotli_ok : codec_ok brotli)
        (gzip_name : zip_name gzip = "gzip") (brotli_name : zip_name brotli = "br").

Lemma accepted_codec_ok ae z : accepted_codec gzip brotli ae = Some z → codec_ok z ∧ (z = gzip ∨ z = brotli).
Proof. unfold accepted_codec. repeat case_match; intros [= <-]; auto. Qed.

(** What the middleware adds to the handler's headers. *)
Lemma base_length c : base_headers c !! "Content-Length" = None.
Proof. destruct c; cbn [base_headers]; [by rewrite lookup_delete_eq|reflexivity]. Qed.
Lemma base_type c : base_headers c !! "Content-Type" = None.
Proof.
  destruct c; cbn [base_headers]; [|reflexivity]. rewrite lookup_delete_ne, lookup_insert_ne by done. reflexivity.
Qed.
Lemma base_encoding z : base_headers (Some z) !! "Content-Encoding" = Some (zip_name z).
Proof. cbn [base_headers]. by rewrite lookup_delete_ne, lookup_insert_eq by done. Qed.
Lemma base_encoding_none : base_headers None !! "Content-Encoding" = None.
Proof. reflexivity. Qed.

(** A client decodes what is sent compressed with its own decoder. *)
Lemma read_encoded w z :
  z = gzip ∨ z = brotli → w_headers w !! "Content-Encoding" = Some (zip_name z) → w_complete w = true →
  read_wire gzip brotli w = unzip z (w_body w).
Proof.
  intros Hz Hh Hc. unfold read_wire. rewrite Hc, Hh.
  destruct Hz as [-> | ->]; rewrite ?gzip_name, ?brotli_name; done.
Qed.

Lemma read_plain w :
  w_headers w !! "Content-Encoding" = None → w_complete w = true → read_wire gzip brotli w = Some (w_body w).
Proof. intros Hh Hc. unfold read_wire. by rewrite Hc, Hh. Qed.
(** ** Responses that are sent as they are *)

(** A response that declares its length, of a type that is not compressed. *)
Record exact_opaque (r : edgeRequest) (resp : response) (ct : string) : Prop := {
  eo_length : if is_head r then rs_body resp = []
              else declared (rs_headers resp) = Some (Z.of_nat (length (rs_body resp)));
  eo_type : rs_headers resp !! "Content-Type" = Some ct;
  eo_opaque : isCompressible ct = false;
  eo_encoding : rs_headers resp !! "Content-Encoding" = None;
  eo_status : bodyAllowedForStatus (rs_status resp) = true
}.

Lemma declared_union h c : declared (h ∪ base_headers c) = declared h.
Proof.
  unfold declared. rewrite lookup_union, base_length. by destruct (h !! "Content-Length").
Qed.
Lemma declared_delete h : declared (delete "Content-Encoding" h) = declared h.
Proof. unfold declared. by rewrite lookup_delete_ne. Qed.

Lemma type_union h c : (h ∪ base_headers c) !! "Content-Type" = h !! "Content-Type".
Proof. rewrite lookup_union, base_type. by destruct (h !! "Content-Type"). Qed.

(** What is sent of a response of a type that is not compressed. *)
Lemma opaque_wire split ae r resp ct :
  rs_headers resp !! "Content-Type" = Some ct → isCompressible ct = false →
  rs_headers resp !! "Content-Encoding" = None →
  ∃ headers extra, on_wire gzip brotli split ae r resp = respond (is_head r) (rs_status resp) headers (split (rs_body resp) ++ extra) ∧
    headers !! "Content-Encoding" = None ∧ declared headers = declared (rs_headers resp) ∧
    extra = match accepted_codec gzip brotli ae with Some z => zip_pieces z [] | None => [] end.
Proof.
  intros Hct Hop He. unfold on_wire, withRecovery, withCompression. cbn [h_status h_headers h_writes].
  destruct (accepted_codec gzip brotli ae) as [z|].
  - rewrite type_union, Hct. cbn [default]. unfold id. rewrite Hop. eexists _, _. split; [done|].
    rewrite lookup_delete_eq, declared_delete, declared_union. done.
  - eexists _, []. rewrite app_nil_r. split; [done|]. rewrite declared_union, lookup_union, He, base_encoding_none. done.
Qed.

Lemma exact_wire split ae r resp ct :
  valid_split split → exact_opaque r resp ct →
  let w := on_wire gzip brotli split ae r resp in
  w_status w = rs_status resp ∧ w_body w = rs_body resp ∧ w_headers w !! "Content-Encoding" = None ∧
  read_wire gzip brotli w = Some (rs_body resp).
Proof.
  intros Hs [Hl Ht Ho He Hst] w. subst w.
  destruct (opaque_wire split ae r resp ct Ht Ho He) as (headers & extra & -> & Hce & Hd & _).
  unfold respond. rewrite Hst. cbn [negb]. rewrite orb_false_r. destruct (is_head r).
  - rewrite Hl. split_and!; try done. by apply read_plain.
  - rewrite Hd, Hl. rewrite (deliver_then_full _ 0) by (rewrite Hs; lia). rewrite Hs. cbn [w_status w_body w_headers].
    split_and!; try done. apply read_plain; [done|]. cbn [w_complete]. lia.
Qed.

Context (ParseFloat : string → option float64) (format_verbs : chars → Z → chars)
        (xml_Unmarshal : bytes → option mpdRoot) (env_max : Z).
Local Abbreviation handle := (handleObject ParseFloat format_verbs xml_Unmarshal env_max).

Lemma octet_declared n : 0 ≤ n < 2 ^ 63 → declared (octet_stream n) = Some n.
Proof. intros Hn. apply declared_decimal; [|done]. unfold octet_stream. by rewrite lookup_insert_eq. Qed.

Lemma whole_exact io s r data :
  oi_copy io = None → Z.of_nat (length data) < 2 ^ 63 →
  exact_opaque r (serve_whole io s r data (Z.of_nat (length data))).1 "application/octet-stream".
Proof.
  intros Hc Hn. unfold serve_whole. rewrite Hc.
  destruct (is_head r) eqn:Hh; split; cbn [fst rs_headers rs_body rs_status io_Copy cp_written body_data];
    rewrite ?Hh; try done; apply octet_declared; lia.
Qed.

Lemma range_exact io s r data :
  oi_copy io = None → oi_seek_ok io = true → Z.of_nat (length data) < 2 ^ 63 →
  exact_opaque r (serveRangeFromCache io s r data (Z.of_nat (length data))).1 "application/octet-stream".
Proof.
  intros Hc Hk Hn. unfold serveRangeFromCache.
  destruct (parseRangeHeader _ _) as [[a b]| |] eqn:Hp; [|by apply whole_exact..].
  destruct (range_header_bounds _ _ _ _ Hp) as [Hab Hb]. rewrite Hk. cbn [negb]. rewrite Hc.
  destruct (is_head r) eqn:Hh; split; cbn [fst rs_headers rs_body rs_status io_Copy cp_written body_data];
    rewrite ?Hh; try done.
  unfold declared. rewrite lookup_insert_ne by done. fold (declared (octet_stream (b - a + 1))).
  rewrite octet_declared by lia. f_equal. rewrite length_take, length_drop. lia.
Qed.

(** ** Responses that are compressed *)

(** What is sent of a response of a compressible type. *)
Lemma compressed_wire split ae z r resp :
  accepted_codec gzip brotli ae = Some z → isCompressible (default "" (rs_headers resp !! "Content-Type")) = true →
  rs_headers resp !! "Content-Encoding" = None →
  ∃ headers, on_wire gzip brotli split ae r resp =
      respond (is_head r) (rs_status resp) headers (zip_pieces z (split (rs_body resp))) ∧
    headers !! "Content-Encoding" = Some (zip_name z) ∧ headers !! "Content-Length" = rs_headers resp !! "Content-Length".
Proof.
  intros Hz Hct He. unfold on_wire, withRecovery, withCompression. cbn [h_status h_headers h_writes]. rewrite Hz.
  rewrite type_union, Hct. eexists. split; [done|]. split.
  - by rewrite lookup_union, He, base_encoding.
  - rewrite lookup_union, base_length. by destruct (rs_headers resp !! "Content-Length").
Qed.

(** A client that accepts no encoding. *)
Lemma plain_read split ae r resp :
  valid_split split → accepted_codec gzip brotli ae = None → is_head r = false →
  bodyAllowedForStatus (rs_status resp) = true → rs_headers resp !! "Content-Encoding" = None →
  default (Z.of_nat (length (rs_body resp))) (declared (rs_headers resp)) = Z.of_nat (length (rs_body resp)) →
  read_wire gzip brotli (on_wire gzip brotli split ae r resp) = Some (rs_body resp).
Proof.
  intros Hs Hz Hh Hst He Hd. unfold on_wire, withRecovery. rewrite Hz. cbn [withCompression h_status h_headers h_writes].
  unfold respond. rewrite Hh, Hst. cbn [orb negb]. rewrite declared_union.
  rewrite read_plain; cbn [w_headers w_complete w_body].
  - destruct (declared _) as [n|]; cbn in Hd; [rewrite deliver_fits by (rewrite Hs; lia)|rewrite deliver_none]; by rewrite Hs.
  - by rewrite lookup_union, He, base_encoding_none.
  - destruct (declared _) as [n|]; [|done]. cbn in Hd. rewrite deliver_fits by (rewrite Hs; lia). rewrite Hs. lia.
Qed.

(** Compressible answers without a declared length (health, prewarm, purge, errors) are read
    back by every client. *)
Lemma undeclared_read_back split ae r resp :
  valid_split split → is_head r = false → bodyAllowedForStatus (rs_status resp) = true →
  isCompressible (default "" (rs_headers resp !! "Content-Type")) = true →
  rs_headers resp !! "Content-Encoding" = None → rs_headers resp !! "Content-Length" = None →
  read_wire gzip brotli (on_wire gzip brotli split ae r resp) = Some (rs_body resp).
Proof.
  intros Hs Hh Hst Hct He Hl. destruct (accepted_codec gzip brotli ae) as [z|] eqn:Hz.
  - destruct (compressed_wire split ae z r resp Hz Hct He) as (headers & -> & Hce & Hcl). unfold respond. rewrite Hh, Hst.
    destruct (accepted_codec_ok _ _ Hz) as [Hok Hor].
    rewrite (read_encoded _ z Hor); [|done|cbn [w_complete]; by rewrite declared_none by congruence].
    cbn [orb negb w_body]. rewrite declared_none by congruence. rewrite deliver_none, (unzip_zip _ Hok). by rewrite Hs.
  - apply plain_read; try done. by rewrite declared_none.
Qed.

(** A compressed body under a declared length: what the client can read of it. *)
Lemma compressed_declared headers n z ws status :
  codec_ok z → z = gzip ∨ z = brotli → headers !! "Content-Encoding" = Some (zip_name z) →
  declared headers = Some n → bodyAllowedForStatus status = true →
  let size := Z.of_nat (length (concat (zip_pieces z ws))) in
  read_wire gzip brotli (respond false status headers (zip_pieces z ws)) = if size =? n then Some (concat ws) else None.
Proof.
  intros Hok Hor Hce Hd Hst size. unfold respond. rewrite Hst. cbn [orb negb]. rewrite Hd.
  set (body := deliver (Some n) 0 (zip_pieces z ws)).
  destruct (Z.of_nat (length body) =? n) eqn:Hl.
  - rewrite (read_encoded _ z Hor) by done. cbn [w_body]. destruct (size =? n) eqn:Hsz; bool_to_prop.
    + unfold body. rewrite deliver_fits by (unfold size in *; lia). by rewrite (unzip_zip _ Hok).
    + apply (unzip_cut _ Hok ws); [apply deliver_prefix|]. intros Hb. unfold size in Hsz. rewrite <- Hb in Hsz. done.
  - unfold read_wire. cbn [w_complete]. rewrite (proj2 (Z.eqb_neq size n)); [done|]. intros Hsz. bool_to_prop.
    apply Hl. unfold body. rewrite deliver_fits by (unfold size in *; lia). done.
Qed.

(** The answer to the request of an uncached object whose body arrives completely. *)
Lemma miss_answer io s r p key fr :
  cold_miss io s r p key fr → er_Method r = "GET" → body_fails (fr_Body fr) = false → oi_copy io = None →
  (handle io s r).1 = mkResponse (fr_StatusCode fr) (fetched_headers fr) (body_data (fr_Body fr)).
Proof.
  intros Hmiss Hm Hb Hc. assert (Hh : is_head r = false) by (unfold is_head; by rewrite Hm).
  destruct (miss_serves ParseFloat format_verbs xml_Unmarshal env_max _ _ _ _ _ _ Hmiss) as (s0 & _ & _ & _ & ->).
  unfold serveAndCacheLarge, serveFromFetchResult. rewrite Hh, Hc. cbn [io_Copy cp_err cp_written cp_read]. rewrite Hb.
  by repeat case_match.
Qed.

Lemma fetched_type fr : fr_ContentType fr ≠ "" → fetched_headers fr !! "Content-Type" = Some (fr_ContentType fr).
Proof.
  intros Hne. unfold fetched_headers. rewrite (proj2 (String.eqb_neq _ _) Hne).
  by repeat case_match; rewrite ?lookup_insert_ne, ?lookup_singleton_eq by done.
Qed.
Lemma fetched_encoding fr : fetched_headers fr !! "Content-Encoding" = None.
Proof. unfold fetched_headers. by repeat case_match; rewrite ?lookup_insert_ne, ?lookup_singleton_ne by done. Qed.
Lemma fetched_length fr :
  0 < fr_ContentLength fr → fr_StatusCode fr ≠ 206 →
  fetched_headers fr !! "Content-Length" = Some (decimal (fr_ContentLength fr)).
Proof.
  intros Hl Hs. unfold fetched_headers. rewrite (proj2 (Z.ltb_lt _ _) Hl), (proj2 (Z.eqb_neq _ _) Hs).
  cbn [negb andb]. by rewrite lookup_insert_eq.
Qed.

(** An object of a compressible type that is fetched from the origin is sent
    compressed under the Content-Length of the uncompressed object: a client that accepts
    br or gzip can read it only in the case that its compressed form happens to be as long
    as the object, and gets a body that is cut off or never ends otherwise; a client that
    accepts neither reads the object. *)
Theorem compressed_object_unreadable split ae z plain io s r p key fr :
  let data := body_data (fr_Body fr) in
  valid_split split → accepted_codec gzip brotli ae = Some z → accepted_codec gzip brotli plain = None →
  cold_miss io s r p key fr → er_Method r = "GET" → body_fails (fr_Body fr) = false → oi_copy io = None →
  fr_ContentType fr ≠ "" → isCompressible (fr_ContentType fr) = true → fr_StatusCode fr = 200 →
  fr_ContentLength fr = Z.of_nat (length data) → data ≠ [] → Z.of_nat (length data) < 2 ^ 63 →
  let answer ae := on_wire gzip brotli split ae r (handle io s r).1 in
  w_headers (answer ae) !! "Content-Length" = Some (decimal (Z.of_nat (length data))) ∧
  w_headers (answer ae) !! "Content-Encoding" = Some (zip_name z) ∧
  read_wire gzip brotli (answer ae) =
    (if Z.of_nat (length (concat (zip_pieces z (split data)))) =? Z.of_nat (length data) then Some data else None) ∧
  read_wire gzip brotli (answer plain) = Some data.
Proof.
  intros data Hs Hz Hp Hmiss Hm Hb Hc Hne Hct Hst Hlen Hdata Hn answer. subst answer. cbv beta.
  assert (Hh : is_head r = false) by (unfold is_head; by rewrite Hm). assert (Hpos : 0 < Z.of_nat (length data)) by (destruct data; cbn; lia || done).
  rewrite (miss_answer _ _ _ _ _ _ Hmiss Hm Hb Hc). fold data.
  set (resp := mkResponse _ _ data).
  assert (Hty : rs_headers resp !! "Content-Type" = Some (fr_ContentType fr)) by (by apply fetched_type).
  assert (Hcl : rs_headers resp !! "Content-Length" = Some (decimal (Z.of_nat (length data)))).
  { rewrite <- Hlen. apply fetched_length; [by rewrite Hlen|by rewrite Hst]. }
  destruct (compressed_wire split ae z r resp Hz) as (headers & -> & Hce & Hcl'); [by rewrite Hty|apply fetched_encoding|].
  assert (Hd : declared headers = Some (Z.of_nat (length data))) by (apply declared_decimal; [by rewrite Hcl'|lia]).
  destruct (accepted_codec_ok _ _ Hz) as [Hok Hor]. change (rs_status resp) with (fr_StatusCode fr). rewrite Hst, Hh.
  change (rs_body resp) with data.
  split; [exact (eq_trans Hcl' Hcl)|split; [exact Hce|split]].
  - rewrite (compressed_declared _ _ _ _ _ Hok Hor Hce Hd) by done. by rewrite Hs.
  - apply (plain_read split plain r resp); try done; [by change (rs_status resp) with (fr_StatusCode fr); rewrite Hst|apply fetched_encoding|].
    by rewrite (declared_decimal _ _ Hcl) by lia.
Qed.
(** ** Responses that are followed by an empty stream *)

Lemma empty_stream z : codec_ok z → concat (zip_pieces z []) ≠ [].
Proof.
  intros Hok He. pose proof (unzip_zip _ Hok []) as H0. rewrite He in H0.
  pose proof (unzip_zip _ Hok [[byte.of_Z 0]]) as H1. rewrite (unzip_cut _ Hok [[byte.of_Z 0]] []) in H0; [done|apply prefix_nil|].
  intros H2. rewrite <- H2, H0 in H1. discriminate.
Qed.

(** A type that is not compressed, without a declared length. *)
Lemma trailer_appended split ae z r resp ct :
  valid_split split → accepted_codec gzip brotli ae = Some z → is_head r = false →
  rs_headers resp !! "Content-Type" = Some ct → isCompressible ct = false →
  rs_headers resp !! "Content-Encoding" = None → rs_headers resp !! "Content-Length" = None →
  bodyAllowedForStatus (rs_status resp) = true →
  read_wire gzip brotli (on_wire gzip brotli split ae r resp) = Some (rs_body resp ++ concat (zip_pieces z [])).
Proof.
  intros Hs Hz Hh Hct Hop He Hl Hst.
  destruct (opaque_wire split ae r resp ct Hct Hop He) as (headers & extra & -> & Hce & Hd & ->). rewrite Hz.
  rewrite (declared_none _ Hl) in Hd. unfold respond. rewrite Hh, Hst, Hd. cbn [orb negb]. rewrite deliver_none, concat_app.
  rewrite read_plain; [|done|done]. cbn [w_body]. by rewrite Hs.
Qed.

Lemma manifest_answer io s h key :
  let resp := (handleManifestRequest ParseFloat format_verbs xml_Unmarshal env_max io s h key).1 in
  rs_status resp = 200 → rs_headers resp = {["Content-Type" := "application/vnd.apple.mpegurl"]}.
Proof.
  cbv zeta. unfold handleManifestRequest. case_match. destruct (Prefetch.HandleManifestRequest _ _ _ _ _ _ _) as [r h0].
  destruct r as [[[m [data|]] e]| |]; cbn [fst]; done.
Qed.

(** Playlists get a tail: the answer to a request of an HLS or DASH playlist has
    no declared length and a type that is not compressed, so that for a client that accepts
    br or gzip the bytes of an empty compressed stream, at least one, follow the playlist. *)
Theorem playlist_followed_by_garbage split ae z plain io s r p key h :
  valid_split split → accepted_codec gzip brotli ae = Some z → accepted_codec gzip brotli plain = None →
  accepted (sv_secret s) (oi_now io) r p key → er_Method r = "GET" →
  ProxyHandler_IsWebSocket (sv_proxy s) r = false → ProxyHandler_IsGRPC (sv_proxy s) r = false →
  sv_streamH s = Some h → IsManifestRequest key = true → rs_status (handle io s r).1 = 200 →
  let answer ae := read_wire gzip brotli (on_wire gzip brotli split ae r (handle io s r).1) in
  let playlist := rs_body (handle io s r).1 in
  answer plain = Some playlist ∧
  answer ae = Some (playlist ++ concat (zip_pieces z [])) ∧ concat (zip_pieces z []) ≠ [].
Proof.
  intros Hs Hz Hp Ha Hm Hws Hg Hh Hk Hst answer playlist. subst answer playlist. cbv beta.
  assert (Hhead : is_head r = false) by (unfold is_head; by rewrite Hm).
  assert (Hhd : rs_headers (handle io s r).1 = {["Content-Type" := "application/vnd.apple.mpegurl"]}).
  { revert Hst. rewrite (handle_accepted _ _ _ _ _ _ _ _ _ Ha). destruct (admitted_same s r) as [_ _ _ Hsh _ Hpx _].
    unfold serve_object. rewrite Hpx, Hws, Hg, Hsh, Hh. cbn [orb].
    assert (IsStreamingRequest key = true) as ->.
    { unfold IsManifestRequest in Hk. unfold IsStreamingRequest. by rewrite <- !orb_assoc, Hk, !orb_true_r. }
    unfold handleStreamingRequest. rewrite Hk. apply manifest_answer. }
  split_and!.
  - apply plain_read; try done; rewrite ?Hst, ?Hhd; done.
  - apply (trailer_appended _ _ _ _ _ "application/vnd.apple.mpegurl"); try done; rewrite ?Hst, ?Hhd; done.
  - apply empty_stream. by apply (accepted_codec_ok ae).
Qed.
End wire.

(** ** A concrete codec: runs of equal bytes with their count, ended by a zero *)
Abbreviation run := (nat * Init.Byte.byte)%type.
Definition runs_of (b : bytes) : list run :=
  match b with
  | [] => []
  | x :: _ => if bool_decide (b = replicate (length b) x) && (length b <? 256)%nat then [(length b, x)]
              else (λ c, (1%nat, c)) <$> b
  end.
Definition run_piece (r : run) : bytes := [byte.of_Z (Z.of_nat r.1); r.2].
Definition expand_runs (rs : list run) : bytes := rs ≫= λ r, replicate r.1 r.2.
Definition run_zip (ws : list bytes) : list bytes := (run_piece <$> runs_of (concat ws)) ++ [[byte.of_Z 0]].
Fixpoint run_unzip (l : bytes) : option bytes :=
  match l with
  | [] => None
  | n :: l =>
      if byte.unsigned n =? 0 then match l with [] => Some [] | _ => None end
      else match l with
           | [] => None
           | x :: l => app (replicate (Z.to_nat (byte.unsigned n)) x) <$> run_unzip l
           end
  end.
Definition run_codec (name : string) : codec := mkCodec name run_zip run_unzip.

Definition run_ok (r : run) : Prop := (1 ≤ r.1 < 256)%nat.

Lemma run_count r : run_ok r → byte.unsigned (byte.of_Z (Z.of_nat r.1)) = Z.of_nat r.1.
Proof. intros Hr. rewrite byte.unsigned_of_Z. unfold byte.wrap. unfold run_ok in Hr. apply Z.mod_small. lia. Qed.

Lemma runs_of_ok b : Forall run_ok (runs_of b) ∧ expand_runs (runs_of b) = b.
Proof.
  destruct b as [|x b]; [by split|]. unfold runs_of.
  destruct (bool_decide _ && _) eqn:E; bool_to_prop.
  - split; [apply Forall_singleton; unfold run_ok; cbn [fst length] in *; lia|]. unfold expand_runs. cbn [mbind list_bind]. by rewrite app_nil_r.
  - clear E. generalize (x :: b) as l. intros l. split; [apply Forall_fmap, Forall_true; intros ?; unfold run_ok; cbn; lia|].
    unfold expand_runs. induction l as [|c l IH]; [done|]. cbn. by rewrite IH.
Qed.

Lemma run_unzip_stream rs :
  Forall run_ok rs → run_unzip (concat (run_piece <$> rs) ++ [byte.of_Z 0]) = Some (expand_runs rs).
Proof.
  induction 1 as [|r rs Hr _ IH]; [reflexivity|]. cbn [fmap list_fmap concat run_piece app run_unzip].
  rewrite (run_count _ Hr). unfold run_ok in Hr. rewrite (proj2 (Z.eqb_neq _ _)) by lia. rewrite IH. cbn. by rewrite Nat2Z.id.
Qed.

Lemma run_unzip_cut rs p :
  Forall run_ok rs → p `prefix_of` concat (run_piece <$> rs) ++ [byte.of_Z 0] →
  p ≠ concat (run_piece <$> rs) ++ [byte.of_Z 0] → run_unzip p = None.
Proof.
  intros Hrs. revert p. induction Hrs as [|r rs Hr _ IH]; intros p Hp Hne.
  - destruct p as [|b p]; [done|]. destruct Hp as [k Hk]. destruct p; [|done]. injection Hk as <- _. done.
  - cbn [fmap list_fmap concat run_piece app] in Hp, Hne. destruct p as [|n p]; [done|].
    apply prefix_cons_inv_1 in Hp as Hn. apply prefix_cons_inv_2 in Hp. subst n. cbn [run_unzip].
    rewrite (run_count _ Hr). unfold run_ok in Hr. rewrite (proj2 (Z.eqb_neq _ _)) by lia.
    destruct p as [|x p]; [done|]. apply prefix_cons_inv_1 in Hp as Hx. apply prefix_cons_inv_2 in Hp. subst x.
    rewrite IH; [done|done|]. intros ->. by apply Hne.
Qed.

Lemma concat_run_zip ws : concat (run_zip ws) = concat (run_piece <$> runs_of (concat ws)) ++ [byte.of_Z 0].
Proof. unfold run_zip. by rewrite concat_app. Qed.

Lemma run_codec_ok name : codec_ok (run_codec name).
Proof.
  split; cbn [unzip zip_pieces run_codec]; intros ws; [|intros p]; rewrite concat_run_zip;
    destruct (runs_of_ok (concat ws)) as [Hok Hex].
  - by rewrite run_unzip_stream, Hex.
  - by apply run_unzip_cut.
Qed.

Definition demo_gzip : codec := run_codec "gzip".
Definition demo_br : codec := run_codec "br".
Definition demo_split (b : bytes) : list bytes := [b].
Lemma demo_split_valid : valid_split demo_split.
Proof. intros b. apply app_nil_r. Qed.

Local Abbreviation demo_handle := (handleObject demo_parse demo_verbs demo_xml 0).
Definition demo_payload : TokenPayload := mkTokenPayload "other" 2000 "203.0.113.0/24".


(** "hello" becomes longer, and eight times the same letter shorter. *)
Definition run_answer (text : string) : FetchResult :=
  mkFetchResult (mkRespBody (bytes_of_string text) false) (Z.of_nat (String.length text)) "text/plain" "" 200.
Definition run_io (text : string) : objectIO :=
  mkObjectIO (1000 * sec) OpenFine None (λ _, mkAttempt 0 0 true (Response (run_answer text))) None true true true 0 true
    put_fine (mkResponse 101 ∅ []).
Definition run_wire (text ae : string) : wire :=
  on_wire demo_gzip demo_br demo_split ae (demo_edge_req "GET" "")
    (demo_handle (run_io text) (demo_edge demo_cache) (demo_edge_req "GET" "")).1.

Lemma compressed_object_unreadable_witness :
  read_wire demo_gzip demo_br (run_wire "hello" "gzip") = None ∧
  read_wire demo_gzip demo_br (run_wire "aaaaaaaa" "br") = None ∧
  read_wire demo_gzip demo_br (run_wire "aaa" "br") = Some (bytes_of_string "aaa") ∧
  read_wire demo_gzip demo_br (run_wire "hello" "") = Some demo_body.
Proof.
  assert (Hcold : ∀ text, cold_miss (run_io text) (demo_edge demo_cache) (demo_edge_req "GET" "") demo_payload "k" (run_answer text)).
  { intros text. split; [apply demo_accepted; by left|apply demo_plain|done|reflexivity|reflexivity]. }
  pose proof (λ ae z text, compressed_object_unreadable demo_gzip demo_br (run_codec_ok _) (run_codec_ok _) eq_refl eq_refl
    demo_parse demo_verbs demo_xml 0 demo_split ae z "" (run_io text) (demo_edge demo_cache) (demo_edge_req "GET" "")
    demo_payload "k" (run_answer text) demo_split_valid) as H.
  destruct (H "gzip" demo_gzip "hello" eq_refl eq_refl (Hcold _)) as (_ & _ & H1 & H4); [reflexivity|reflexivity|reflexivity|discriminate|reflexivity|reflexivity|reflexivity|discriminate|vm_compute; reflexivity|].
  destruct (H "br" demo_br "aaaaaaaa" eq_refl eq_refl (Hcold _)) as (_ & _ & H2 & _); [reflexivity|reflexivity|reflexivity|discriminate|reflexivity|reflexivity|reflexivity|discriminate|vm_compute; reflexivity|].
  destruct (H "br" demo_br "aaa" eq_refl eq_refl (Hcold _)) as (_ & _ & H3 & _); [reflexivity|reflexivity|reflexivity|discriminate|reflexivity|reflexivity|reflexivity|discriminate|vm_compute; reflexivity|].
  split; [exact H1|split; [exact H2|split; [exact H3|exact H4]]].
Defined.

(** A playlist that a streaming edge fetches. *)
Definition demo_playlist : FetchResult :=
  mkFetchResult (mkRespBody (bytes_of_string "#EXTM3U") false) 7 "application/vnd.apple.mpegurl" "" 200.
Definition playlist_io : objectIO :=
  mkObjectIO (1000 * sec) OpenFine None (λ _, mkAttempt 0 0 true (Response demo_playlist)) None true true true 0 true
    put_fine (mkResponse 101 ∅ []).
Definition stream_edge : Server := set_streamH (demo_edge demo_cache) (Some (NewHandler demo_pm)).
Definition playlist_req : edgeRequest :=
  mkEdgeRequest "GET" "/obj/live/index.m3u8" (String.append "Bearer " demo_edge_token) "" "" "" "" "203.0.113.9:4711" 0 "" "" "".

Lemma playlist_followed_by_garbage_witness :
  let answer ae := read_wire demo_gzip demo_br (on_wire demo_gzip demo_br demo_split ae playlist_req
                     (demo_handle playlist_io stream_edge playlist_req).1) in
  answer "" = Some (bytes_of_string "#EXTM3U") ∧
  answer "gzip, deflate, br" = Some (bytes_of_string "#EXTM3U" ++ [byte.of_Z 0]).
Proof.
  destruct (playlist_followed_by_garbage demo_gzip demo_br (run_codec_ok _) (run_codec_ok _) demo_parse demo_verbs demo_xml 0
    demo_split "gzip, deflate, br" demo_br "" playlist_io stream_edge playlist_req demo_payload "live/index.m3u8"
    (NewHandler demo_pm)) as (H1 & H2 & _).
  - exact demo_split_valid.
  - reflexivity.
  - reflexivity.
  - split; [by left| | | |]; vm_compute; (reflexivity || discriminate).
  - reflexivity.
  - reflexivity.
  - reflexivity.
  - reflexivity.
  - reflexivity.
  - vm_compute. reflexivity.
  - assert (Hb : rs_body (demo_handle playlist_io stream_edge playlist_req).1 = bytes_of_string "#EXTM3U")
      by (vm_compute; reflexivity).
    rewrite Hb in H1, H2. split; [exact H1|exact H2].
Defined.
