(* ===== verification/Origin.v ===== *)
(** * The origin server ([cmd/origin/main.go]) and the edge in front of it

    The origin serves the files of a directory, whole or by a byte range.  The file system
    is an argument ([originFS]); [filepath.Clean] and [Join] are those of [Fetcher], and
    [http.ServeFile] is modelled for requests without conditional headers, which the edge
    does not send: the redirect away from "index.html", directories and their listing, files.
    The router hands over the part of the path behind "/obj/"; its middleware only logs.

    [origin_do] is one exchange of the edge's client with this server, so that a request can
    be followed from the client through [EdgeServer] to the file.  The theorems: the origin
    and the edge read a range in the same way, up to one overflow; a served file lies in the
    data directory, at the place the key names, and the check that guards this never fires;
    an unsatisfiable range is answered in different ways by a warm and a cold edge; and
    requests of objects that do not exist close the edge's way to the origin. *)

From S2P Require Import Prelude GoStrings GoHash GoJson GoFloat StreamKeys SlidingWindow EdgeCache.
From S2P Require Import Manifest Fetcher Prefetch Tokens EdgeServer EdgeHTTP.
From Stdlib Require Import Ascii ZifyBool.

(** ** Ranges *)
Definition parseHTTPRange (rangeHeader : string) (fileSize : Z) : result (Z * Z) :=
  let header := to_chars rangeHeader in
  let rangeStr := trim_prefix (to_chars "bytes=") header in
  if bool_decide (rangeStr = header) then Err "invalid range prefix"
  else
    match index_byte (ascii_of_nat 45) rangeStr with
    | None => Err "invalid range format"
    | Some i =>
        let part0 := take i rangeStr in
        let part1 := drop (S i) rangeStr in
        let finish start end_ :=
          if (start <? 0) || (end_ <? 0) || (end_ <? start) || (fileSize <=? start) then Err "range not satisfiable"
          else Ok (start, if fileSize <=? end_ then fileSize - 1 else end_) in
        if bool_decide (part0 = []) then
          match parse_int part1 with
          | None => Err "invalid suffix range"
          | Some suffix =>
              if suffix <=? 0 then Err "invalid suffix range"
              else
                let start := i64 (fileSize - suffix) in
                finish (if start <? 0 then 0 else start) (i64 (fileSize - 1))
          end
        else
          match parse_int part0 with
          | None => Err "invalid range start"
          | Some start =>
              if bool_decide (part1 = []) then finish start (i64 (fileSize - 1))
              else match parse_int part1 with
                   | None => Err "invalid range end"
                   | Some end_ => finish start end_
                   end
          end
    end.

(** ** Files *)
Inductive fileEntry :=
| EntryMissing
| EntryError
| EntryFile (data : bytes)
| EntryDir (size : Z) (index : option bytes) (listing : bytes).

(** The file system, the working directory, the type [http.ServeFile] finds for a file and
    the one [net/http] finds for a body that comes without a type. *)
Record originFS := mkOriginFS {
  fs_stat : chars → fileEntry;
  fs_cwd : chars;
  fs_type : chars → bytes → string;
  fs_sniff : bytes → string
}.

Definition filepath_Abs (fs : originFS) (p : chars) : chars :=
  if bool_decide (head p = Some slash) then path_Clean p else path_Join [fs_cwd fs; p].

Definition info_Size (e : fileEntry) : Z :=
  match e with EntryFile data => Z.of_nat (length data) | EntryDir n _ _ => n | _ => 0 end.
(** What can be read of an open file; reading a directory fails. *)
Definition file_data (e : fileEntry) : bytes := match e with EntryFile data => data | _ => [] end.

Definition accept_ranges : gmap string string := {["Accept-Ranges" := "bytes"]}.

Definition serve_content (fs : originFS) (name : chars) (data : bytes) : response :=
  mkResponse 200 (<["Content-Type" := fs_type fs name data]>
    (<["Content-Length" := decimal (Z.of_nat (length data))]> accept_ranges)) data.

Definition redirect (to : chars) : response := mkResponse 301 (<["Location" := of_chars to]> accept_ranges) [].

(** [path.Base] of a path that does not end with a slash. *)
Definition path_Base (p : chars) : chars :=
  match last_index [slash] p with Some i => drop (S i) p | None => p end.

(** [http.ServeFile]; [path] is the path of the request. *)
Definition ServeFile (fs : originFS) (path filePath : chars) (e : fileEntry) : response :=
  if has_suffix (to_chars "/index.html") path then redirect (to_chars "./")
  else
    match e with
    | EntryFile data => serve_content fs filePath data
    | EntryDir _ index listing =>
        if negb (has_suffix [slash] path) then redirect (path_Base path ++ [slash])
        else match index with
             | Some data => serve_content fs (trim_suffix [slash] filePath ++ to_chars "/index.html") data
             | None => mkResponse 200 (<["Content-Type" := "text/html; charset=utf-8"]> accept_ranges) listing
             end
    | EntryMissing => http_Error "404 page not found" 404
    | EntryError => http_Error "500 Internal Server Error" 500
    end.

(** [http.Error] on a writer that has headers already. *)
Definition error_with (h : gmap string string) (msg : string) (code : Z) : response :=
  mkResponse code (rs_headers (http_Error msg code) ∪ h) (rs_body (http_Error msg code)).

(** The part of the handler that follows the checks of the path. *)
Definition serve_entry (fs : originFS) (open_ok : bool) (path rangeHeader : string) (filePath : chars) : response :=
  let info := fs_stat fs filePath in
  match info with
  | EntryMissing => http_Error "not found" 404
  | EntryError => http_Error "internal server error" 500
  | _ =>
      if negb (String.eqb rangeHeader "") then
        match parseHTTPRange rangeHeader (info_Size info) with
        | Ok (start, end_) =>
            let headers := <["Content-Length" := decimal (end_ - start + 1)]>
              (<["Content-Range" := content_range start end_ (info_Size info)]> accept_ranges) in
            mkResponse 206 headers
              (if open_ok then take (Z.to_nat (end_ - start + 1)) (drop (Z.to_nat start) (file_data info)) else [])
        | _ => error_with (<["Content-Range" := of_chars (to_chars "bytes */" ++ format_int 10 (info_Size info))]> accept_ranges)
                 "invalid range" 416
        end
      else ServeFile fs (to_chars path) filePath info
  end.

(** The handler of "/obj/*": [key] is the route's wildcard and [path] the path of the
    request; [open_ok] is the outcome of [os.Open] and [Seek]. *)
Definition serveOrigin (fs : originFS) (dataDir : chars) (open_ok : bool) (key path rangeHeader : string) : response :=
  if String.eqb key "" || String.eqb key "." || contains (to_chars "..") (to_chars path) then http_Error "invalid key" 400
  else
    let filePath := path_Clean (path_Join [dataDir; to_chars key]) in
    let absDataDir := filepath_Abs fs dataDir in
    let absFilePath := filepath_Abs fs filePath in
    if negb (has_prefix (absDataDir ++ [slash]) absFilePath) && negb (bool_decide (absFilePath = absDataDir))
    then http_Error "forbidden" 403
    else serve_entry fs open_ok path rangeHeader filePath.

(** ** One exchange *)

(** The length the client is told: the declared one, that of a short body, or none. *)
Definition response_length (resp : response) : Z :=
  match declared (rs_headers resp) with
  | Some n => n
  | None => if (length (rs_body resp) <=? 2048)%nat then Z.of_nat (length (rs_body resp)) else -1
  end.

Definition response_type (fs : originFS) (resp : response) : string :=
  match rs_headers resp !! "Content-Type" with
  | Some t => t
  | None => if bool_decide (rs_body resp = []) then "" else fs_sniff fs (rs_body resp)
  end.

(** A body that is shorter than declared ends with an error. *)
Definition fetch_result (fs : originFS) (resp : response) : FetchResult :=
  mkFetchResult
    (mkRespBody (rs_body resp)
       (match declared (rs_headers resp) with
        | Some n => negb (Z.of_nat (length (rs_body resp)) =? n)
        | None => false
        end))
    (response_length resp) (response_type fs resp) (default "" (rs_headers resp !! "ETag")) (rs_status resp).

(** The path of an object on the origin: the edge asks for "/obj/" and the key. *)
Definition origin_path (key : string) : string := String.append "/obj/" key.

(** What the client of the edge makes of a request that is not redirected. *)
Definition origin_do (fs : originFS) (dataDir : chars) (open_ok : bool) (key rangeHeader : string) : exchange :=
  Response (fetch_result fs (serveOrigin fs dataDir open_ok key (origin_path key) rangeHeader)).

(** ** Ranges are read alike *)
Definition same_range (a b : result (Z * Z)) : Prop :=
  match a, b with
  | Ok x, Ok y => x = y
  | Err _, Err _ => True
  | _, _ => False
  end.

Lemma parse_int_i64 l z : parse_int l = Some z → is_i64 z.
Proof. unfold parse_int, is_i64. intros H. repeat (case_match; simplify_eq; try done); bool_to_prop; lia. Qed.

Lemma trim_bytes_prefix l : bool_decide (trim_prefix (to_chars "bytes=") l = l) = negb (has_prefix (to_chars "bytes=") l).
Proof.
  destruct (has_prefix (to_chars "bytes=") l) eqn:E; cbn [negb].
  - apply has_prefix_spec in E as [t ->]. rewrite trim_prefix_app. apply bool_decide_eq_false_2.
    intros H. apply (f_equal (@length _)) in H. rewrite length_app in H. cbn in H. lia.
  - apply bool_decide_eq_true_2. unfold trim_prefix. by rewrite E.
Qed.

Lemma same_finish size start end_ :
  same_range
    (if (start <? 0) || (end_ <? 0) || (end_ <? start) || (size <=? start) then Err "range not satisfiable"
     else Ok (start, if size <=? end_ then size - 1 else end_))
    (if (start <? 0) || (size <=? start) || (end_ <? start) then Err "range not satisfiable"
     else Ok (start, if size <=? end_ then size - 1 else end_)).
Proof.
  assert ((start <? 0) || (end_ <? 0) || (end_ <? start) || (size <=? start) =
    (start <? 0) || (size <=? start) || (end_ <? start)) as -> by lia.
  by destruct (_ || _).
Qed.

Lemma same_ranges rh size :
  0 ≤ size < 2 ^ 63 →
  same_range (parseHTTPRange rh size) (parseRangeHeader rh size) ∨
  ∃ t n, to_chars rh = to_chars "bytes=-" ++ t ∧ parse_int t = Some n ∧ n ≤ size - 2 ^ 63.
Proof.
  intros Hs. unfold parseHTTPRange, parseRangeHeader. cbv zeta. rewrite trim_bytes_prefix.
  destruct (String.eqb_spec rh "") as [->|_]; [by left|].
  destruct (has_prefix (to_chars "bytes=") (to_chars rh)) eqn:Hp; cbn [negb]; [|by left].
  apply has_prefix_spec in Hp as [l Hl]. rewrite Hl, trim_prefix_app.
  destruct (index_byte _ l) as [i|] eqn:Hi; [|by left].
  destruct (bool_decide (take i l = [])) eqn:Ht.
  - destruct (parse_int (drop (S i) l)) as [n|] eqn:Hn; [|by left]. pose proof (parse_int_i64 _ _ Hn) as Hr. unfold is_i64 in Hr.
    destruct (decide (n ≤ size - 2 ^ 63)) as [Hov|Hno].
    + right. exists (drop (S i) l), n. split_and!; [|done|done]. bool_to_prop.
      destruct l as [|c l]; [done|]. destruct i; [|done]. cbn [index_byte] in Hi.
      case_bool_decide as Hc; [by subst|]. by destruct (index_byte _ l).
    + left. destruct (n <=? 0) eqn:Hn0; bool_to_prop; [|apply same_finish].
      rewrite !i64_id by (unfold is_i64; lia). rewrite (proj2 (Z.ltb_ge (size - n) 0)) by lia.
      by rewrite (proj2 (Z.leb_le size (size - n))), orb_true_r by lia.
  - left. destruct (parse_int (take i l)) as [start|]; [|done].
    destruct (bool_decide (drop (S i) l = [])); [apply same_finish|].
    destruct (parse_int (drop (S i) l)) as [end_|]; [apply same_finish|done].
Qed.


(** ** Where files are served from *)

(** A path from the root, and the segments it may have. *)
Definition rooted (segs : list chars) : chars := slash :: join_with slash segs.
Definition plain_segment (p : chars) : Prop := p ≠ [] ∧ p ≠ [dot] ∧ p ≠ [dot; dot] ∧ slash ∉ p.

(** The segments of a key, less the empty ones and the single dots. *)
Definition key_segments (key : chars) : list chars := filter (λ s, s ≠ [] ∧ s ≠ [dot]) (split_on slash key).

Lemma clean_rooted_plain out segs :
  Forall (λ s, slash ∉ s) segs → Forall plain_segment out → Forall plain_segment (clean_path true out segs).
Proof.
  intros Hs. revert out. induction Hs as [|s segs Hs _ IH]; intros out Ho; cbn [clean_path]; [done|].
  destruct (bool_decide (s = []) || _) eqn:E; [by apply IH|]. bool_to_prop.
  case_bool_decide.
  - destruct out as [|o out]; [by apply IH|]. apply Forall_cons in Ho as [Ho Hout].
    rewrite bool_decide_eq_false_2 by apply Ho. by apply IH.
  - apply IH. constructor; [by split_and!|done].
Qed.

Lemma clean_no_dots out segs :
  Forall (λ s, s ≠ [dot; dot]) segs →
  clean_path true out segs = rev (filter (λ s, s ≠ [] ∧ s ≠ [dot]) segs) ++ out.
Proof.
  intros Hs. revert out. induction Hs as [|s segs Hs _ IH]; intros out; cbn [clean_path]; [done|].
  destruct (bool_decide (s = []) || _) eqn:E.
  - rewrite IH, filter_cons_False; [done|]. intros [? ?]. by rewrite !bool_decide_eq_false_2 in E.
  - bool_to_prop. rewrite bool_decide_eq_false_2, IH, filter_cons_True by done. cbn [rev]. by rewrite <- app_assoc.
Qed.

Lemma split_rooted segs : Forall plain_segment segs → segs ≠ [] → split_on slash (rooted segs) = [] :: segs.
Proof.
  intros Hs Hne. unfold rooted. cbn [split_on]. rewrite bool_decide_eq_true_2 by done. f_equal.
  apply split_join; [done|]. eapply Forall_impl; [exact Hs|]. intros p Hp. apply Hp.
Qed.

Lemma clean_rooted segs : Forall plain_segment segs → path_Clean (rooted segs) = rooted segs.
Proof.
  intros Hs. destruct segs as [|s segs]; [reflexivity|]. unfold path_Clean. rewrite split_rooted by done.
  cbn [head rooted]. rewrite bool_decide_eq_true_2 by done. unfold rooted. do 2 f_equal.
  rewrite clean_no_dots.
  - rewrite filter_cons_False by (by intros [? _]). rewrite app_nil_r, rev_involutive. apply filter_all.
    intros p Hp. eapply Forall_forall in Hs; [|exact Hp]. split; apply Hs.
  - constructor; [done|]. eapply Forall_impl; [exact Hs|]. intros p Hp. apply Hp.
Qed.

Lemma contains_infix p a b : contains p (a ++ p ++ b) = true.
Proof.
  induction a as [|c a IH]; cbn [app].
  - pose proof (has_prefix_app p b) as H. destruct (p ++ b); cbn [contains]; by rewrite H.
  - cbn [contains]. by rewrite IH, orb_true_r.
Qed.

Lemma contains_app_r p a b : contains p b = true → contains p (a ++ b) = true.
Proof. induction a as [|c a IH]; intros H; [done|]. cbn [app contains]. by rewrite IH, orb_true_r. Qed.

Lemma join_infix c ps (p : chars) : p ∈ ps → ∃ a b, join_with c ps = a ++ p ++ b.
Proof.
  induction ps as [|q ps IH]; [by intros ?%elem_of_nil|]. intros [->|Hp]%elem_of_cons.
  - destruct ps; [exists [], []; cbn; by rewrite app_nil_r|]. by eexists [], _.
  - destruct (IH Hp) as (a & b & Hj). destruct ps as [|r ps]; [by apply elem_of_nil in Hp|].
    exists (q ++ c :: a), b. cbn [join_with] in *. rewrite Hj. by rewrite <- !app_assoc.
Qed.

Lemma no_dots_segments l : contains (to_chars "..") l = false → Forall (λ s, s ≠ [dot; dot]) (split_on slash l).
Proof.
  intros Hc. apply Forall_forall. intros p Hp ->. destruct (join_infix slash _ _ Hp) as (a & b & Hj).
  rewrite join_split in Hj. pose proof (contains_infix [dot; dot] a b) as Ht. rewrite <- Hj in Ht.
  change (to_chars "..") with [dot; dot] in Hc. congruence.
Qed.

Lemma key_segments_plain key :
  contains (to_chars "..") key = false → Forall plain_segment (key_segments key).
Proof.
  intros Hc. apply Forall_forall. intros p [[H1 H2] Hp]%list_elem_of_filter. split_and!; [done|done| |by eapply split_on_no_sep].
  eapply Forall_forall in Hp; [|by apply no_dots_segments]. done.
Qed.

Lemma base_segments_plain base : head base = Some slash → Forall plain_segment (base_segments base).
Proof.
  intros Hb. unfold base_segments. rewrite bool_decide_eq_true_2 by done. apply Forall_rev, clean_rooted_plain; [|done].
  apply Forall_forall. intros p Hp. by eapply split_on_no_sep.
Qed.

Lemma clean_of_rooted l : head l = Some slash → path_Clean l = rooted (base_segments l).
Proof. intros Hl. unfold path_Clean, base_segments, rooted. by rewrite Hl, bool_decide_eq_true_2. Qed.

Lemma joined_file dataDir key :
  head dataDir = Some slash → key ≠ [] → contains (to_chars "..") key = false →
  path_Join [dataDir; key] = rooted (base_segments dataDir ++ key_segments key).
Proof.
  intros Hd Hk Hc. unfold path_Join. rewrite !filter_cons_True, filter_nil by (done || by intros ->).
  cbn [join_with]. rewrite clean_of_rooted by (by destruct dataDir). f_equal. unfold base_segments.
  assert (head (dataDir ++ slash :: key) = Some slash) as -> by (by destruct dataDir).
  rewrite Hd, bool_decide_eq_true_2 by done. rewrite split_on_app, clean_path_app.
  rewrite (clean_no_dots _ (split_on slash key)) by (by apply no_dots_segments).
  by rewrite rev_app_distr, rev_involutive.
Qed.

Lemma join_app c (a b : list chars) : a ≠ [] → b ≠ [] → join_with c (a ++ b) = join_with c a ++ c :: join_with c b.
Proof.
  intros Ha Hb. induction a as [|p a IH]; [done|]. destruct a as [|q a].
  - destruct b; [done|]. reflexivity.
  - cbn [app join_with] in *. rewrite IH by done. by rewrite <- app_assoc.
Qed.

(** Nothing lies below "//". *)
Lemma rooted_below segs :
  Forall plain_segment segs → segs ≠ [] →
  has_prefix (rooted [] ++ [slash]) (rooted segs) = false ∧ rooted segs ≠ rooted [].
Proof.
  intros Hs Hne. destruct segs as [|p segs]; [done|]. apply Forall_cons in Hs as [(Hp & _ & _ & Hsl) _].
  destruct p as [|c p]; [done|]. unfold rooted. split; [|by destruct segs].
  assert (∃ l, join_with slash ((c :: p) :: segs) = c :: l) as [l ->] by (destruct segs; by eexists).
  cbn [app join_with has_prefix]. rewrite andb_true_r. rewrite bool_decide_eq_true_2 by done. cbn [andb].
  apply bool_decide_eq_false_2. intros <-. apply Hsl. left.
Qed.

(** A request that passes the checks of its key. *)
Lemma origin_serves fs dataDir open_ok key rh :
  head dataDir = Some slash → key ≠ "" → key ≠ "." → contains (to_chars "..") (to_chars (origin_path key)) = false →
  let dir := base_segments dataDir in
  let file := dir ++ key_segments (to_chars key) in
  Forall plain_segment file ∧
  serveOrigin fs dataDir open_ok key (origin_path key) rh =
    if bool_decide (dir = [] ∧ key_segments (to_chars key) ≠ []) then http_Error "forbidden" 403
    else serve_entry fs open_ok (origin_path key) rh (rooted file).
Proof.
  intros Hd Hne Hdot Hc dir file. unfold serveOrigin. rewrite Hc.
  rewrite (proj2 (String.eqb_neq _ _) Hne), (proj2 (String.eqb_neq _ _) Hdot). cbn [orb].
  assert (Hck : contains (to_chars "..") (to_chars key) = false).
  { destruct (contains (to_chars "..") (to_chars key)) eqn:E; [|done]. unfold origin_path in Hc.
    rewrite to_chars_app, (contains_app_r _ _ _ E) in Hc. done. }
  assert (Hfile : Forall plain_segment file).
  { apply Forall_app. split; [by apply base_segments_plain|by apply key_segments_plain]. }
  split; [exact Hfile|]. rewrite joined_file; [|done| |done].
  2: { intros E. apply Hne. by rewrite <- (of_to_chars key), E. }
  fold dir file.
  rewrite (clean_rooted _ Hfile). unfold filepath_Abs. rewrite Hd. cbn [head rooted]. rewrite !bool_decide_eq_true_2 by done.
  rewrite (clean_rooted _ Hfile), clean_of_rooted by done. fold dir.
  destruct (decide (key_segments (to_chars key) = [])) as [Hk|Hk].
  - unfold file. rewrite Hk, app_nil_r. rewrite (bool_decide_eq_true_2 (rooted dir = rooted dir)) by done.
    rewrite andb_false_r. rewrite bool_decide_eq_false_2 by tauto. done.
  - destruct (decide (dir = [])) as [Hdir|Hdir].
    + rewrite (bool_decide_eq_true_2 (dir = [] ∧ _)) by done. unfold file in *. rewrite Hdir in *. cbn [app] in *.
      destruct (rooted_below _ Hfile Hk) as [-> Hn]. by rewrite bool_decide_eq_false_2.
    + rewrite (bool_decide_eq_false_2 (dir = [] ∧ _)) by tauto. unfold file, rooted. rewrite join_app by done.
      assert (has_prefix ((slash :: join_with slash dir) ++ [slash])
        (slash :: join_with slash dir ++ slash :: join_with slash (key_segments (to_chars key))) = true) as ->; [|done].
      apply has_prefix_spec. exists (join_with slash (key_segments (to_chars key))). cbn. by rewrite <- app_assoc.
Qed.

Lemma origin_refuses_or_serves fs dataDir open_ok key rh :
  head dataDir = Some slash →
  let dir := base_segments dataDir in
  let file := dir ++ key_segments (to_chars key) in
  let answer := serveOrigin fs dataDir open_ok key (origin_path key) rh in
  answer = http_Error "invalid key" 400 ∨
  Forall plain_segment file ∧
  answer = if bool_decide (dir = [] ∧ key_segments (to_chars key) ≠ []) then http_Error "forbidden" 403
           else serve_entry fs open_ok (origin_path key) rh (rooted file).
Proof.
  intros Hd. cbv zeta.
  destruct (String.eqb key "" || String.eqb key "." || contains (to_chars "..") (to_chars (origin_path key))) eqn:E.
  - left. unfold serveOrigin. by rewrite E.
  - right. bool_to_prop. by apply origin_serves.
Qed.


(** ** The edge in front of the origin *)
Section edge.
Context (ParseFloat : string → option float64) (format_verbs : chars → Z → chars)
        (xml_Unmarshal : bytes → option mpdRoot) (env_max : Z).
Local Abbreviation handle := (handleObject ParseFloat format_verbs xml_Unmarshal env_max).
Context (fs : originFS) (dataDir : chars) (dataDir_abs : head dataDir = Some slash).

(** The file of a resource key, as the edge asks for it. *)
Definition object_file (key : string) : chars :=
  rooted (base_segments dataDir ++ key_segments (to_chars (sanitizeKey key))).

(** The fetches of a request go to this origin. *)
Record faces_origin (io : objectIO) (s : Server) (key rh : string) : Prop := {
  fo_own : oi_shared io = None;
  fo_url : is_Some (f_originURL (sv_fetcher s));
  fo_request i : at_request_ok (oi_attempts io i) = true;
  fo_origin i : at_do (oi_attempts io i) = origin_do fs dataDir true (sanitizeKey key) rh
}.

(** A request that reaches the cache and misses it. *)
Record uncached (io : objectIO) (s : Server) (r : edgeRequest) (p : TokenPayload) (key : string) : Prop := {
  un_accepted : accepted (sv_secret s) (oi_now io) r p key;
  un_plain : plain_request s r key;
  un_cold : dir_content (c_disk (sv_cache s)) (entryName key) = None;
  un_range : er_Range r = "" ∨ validRangeHeader (er_Range r) = true
}.

Lemma cold_handle io s r p key :
  uncached io s r p key →
  ∃ s0, handle io s r = handle_miss io s0 r key ∧ same_config s s0 ∧ sv_cb s0 = sv_cb s ∧
    sv_fetcher s0 = sv_fetcher s ∧ c_disk (sv_cache s0) = c_disk (sv_cache s).
Proof.
  intros [Ha Hp Hc _]. pose proof (admitted_same s r) as Hs.
  rewrite (handle_accepted ParseFloat format_verbs xml_Unmarshal env_max _ _ _ _ _ Ha), serve_plain by (by apply (plain_same s)).
  rewrite (ss_cache _ _ Hs). destruct (Cache_Get_frame (oi_open io) (sv_cache s) key) as (Hd & _).
  assert (Hmiss : ∀ v, (Cache_Get (oi_open io) (sv_cache s) key).1 ≠ Ok v) by (unfold Cache_Get; rewrite Hc; by destruct (oi_open io)).
  destruct (Cache_Get (oi_open io) (sv_cache s) key) as [got c]. cbn [fst snd] in *.
  exists (set_cache (admitted s r) c). destruct Hs. split; [|done].
  destruct got as [[data n]| |]; [by destruct (Hmiss (data, n))|done..].
Qed.

(** One exchange with the origin, the breaker being closed. *)
Lemma fetch_from_origin io s key rh :
  faces_origin io s key rh → rh = "" ∨ validRangeHeader rh = true → cb_state (sv_cb s) = 0 →
  let fr := fetch_result fs (serveOrigin fs dataDir true (sanitizeKey key) (origin_path (sanitizeKey key)) rh) in
  server_fetch io s key rh =
    if 400 <=? fr_StatusCode fr
    then ((None, Some "origin returned an error status"),
          set_cb s (circuitBreaker_RecordFailure (at_failure (oi_attempts io 0%nat)) (sv_cb s)))
    else ((Some fr, None), set_cb s (circuitBreaker_RecordSuccess (sv_cb s))).
Proof.
  intros [Hown [u Hu] Hreq Hdo] Hrh Hcb fr. unfold server_fetch, Fetcher_executeFetch. rewrite Hown.
  cbn [executeFetchWithRetry]. rewrite closed_allows by done. unfold Fetcher_buildOriginURL. rewrite Hu, !Hreq. cbn [negb].
  assert (negb (rh =? "")%string && negb (validRangeHeader rh) = false) as ->
    by (destruct Hrh as [->| ->]; [done|by rewrite andb_false_r]).
  cbn [Nat.sub]. rewrite Hdo. unfold origin_do. fold fr. by destruct (400 <=? fr_StatusCode fr).
Qed.
(** *** Ranges *)

(** A key that is its own cleaned form, with a file behind it. *)
Record object_on_origin (key : string) (data : bytes) : Prop := {
  on_clean : sanitizeKey key = key;
  on_dir : base_segments dataDir ≠ [];
  on_file : fs_stat fs (object_file key) = EntryFile data;
  on_size : Z.of_nat (length data) < 2 ^ 63
}.

Lemma origin_object key data rh :
  object_on_origin key data → bad_key key = false →
  serveOrigin fs dataDir true key (origin_path key) rh =
    if negb (String.eqb rh "") then
      match parseHTTPRange rh (Z.of_nat (length data)) with
      | Ok (start, end_) =>
          mkResponse 206 (<["Content-Length" := decimal (end_ - start + 1)]>
            (<["Content-Range" := content_range start end_ (Z.of_nat (length data))]> accept_ranges))
            (take (Z.to_nat (end_ - start + 1)) (drop (Z.to_nat start) data))
      | _ => error_with (<["Content-Range" := of_chars (to_chars "bytes */" ++ format_int 10 (Z.of_nat (length data)))]> accept_ranges)
               "invalid range" 416
      end
    else ServeFile fs (to_chars (origin_path key)) (object_file key) (EntryFile data).
Proof.
  intros [Hc Hd Hf _] Hb. unfold bad_key in Hb. bool_to_prop.
  destruct (origin_serves fs dataDir true key rh dataDir_abs) as [_ ->]; [done|done| |].
  - unfold origin_path. rewrite to_chars_app. assumption.
  - rewrite bool_decide_eq_false_2 by tauto. unfold serve_entry. unfold object_file in *. rewrite Hc in *. by rewrite Hf.
Qed.

(** What a cold edge answers to a range request of such an object. *)
Definition cold_range (size : Z) (data : bytes) (rh : string) (resp : response) : Prop :=
  match parseHTTPRange rh size with
  | Ok (start, end_) =>
      rs_status resp = 206 ∧ rs_body resp = take (Z.to_nat (end_ - start + 1)) (drop (Z.to_nat start) data) ∧
      rs_headers resp !! "Content-Range" = None
  | _ => resp = http_Error "upstream error" 502
  end.

Lemma parse_http_bounds rh size start end_ :
  parseHTTPRange rh size = Ok (start, end_) → 0 ≤ start ≤ end_ ∧ end_ < size.
Proof.
  unfold parseHTTPRange. intros Hp. repeat (case_match; simplify_eq; try done); bool_to_prop; lia.
Qed.

Lemma fetched_no_range fr : fetched_headers fr !! "Content-Range" = None.
Proof. unfold fetched_headers. by repeat case_match; rewrite ?lookup_insert_ne, ?lookup_singleton_ne by done. Qed.

Lemma cold_range_answer io s r p key data :
  uncached io s r p key → faces_origin io s key (er_Range r) → object_on_origin key data →
  cb_state (sv_cb s) = 0 → er_Method r = "GET" → er_Range r ≠ "" → oi_copy io = None →
  cold_range (Z.of_nat (length data)) data (er_Range r) (handle io s r).1.
Proof.
  intros Hu Hf Hobj Hcb Hm Hne Hcopy. pose proof Hobj as [Hc _ _ Hsz]. pose proof Hu as [Ha _ _ Hr].
  destruct (cold_handle _ _ _ _ _ Hu) as (s0 & -> & _ & Hcb0 & Hft & _). unfold handle_miss.
  rewrite (fetch_from_origin io (count_miss s0) key (er_Range r)); [|..]; [| |done|exact (eq_trans (f_equal cb_state Hcb0) Hcb)].
  2: { destruct Hf as [Ho Hur Hreq Hdo]. split; try done. change (sv_fetcher (count_miss s0)) with (sv_fetcher s0). by rewrite Hft. }
  rewrite Hc, (origin_object key data _ Hobj (ac_good _ _ _ _ _ Ha)).
  rewrite (proj2 (String.eqb_neq _ _) Hne). cbn [negb]. unfold cold_range.
  destruct (parseHTTPRange _ _) as [[a b]| |] eqn:Hp; [|done..].
  destruct (parse_http_bounds _ _ _ _ Hp) as [Hab Hb]. cbn [fr_StatusCode fetch_result rs_status].
  assert (Hd : declared (<["Content-Length" := decimal (b - a + 1)]>
    (<["Content-Range" := content_range a b (Z.of_nat (length data))]> accept_ranges)) = Some (b - a + 1)).
  { apply declared_decimal; [by rewrite lookup_insert_eq|lia]. }
  cbn [Z.leb Z.compare Pos.compare Pos.compare_cont]. cbv iota.
  unfold fetch_result, response_length. cbn [rs_headers rs_body rs_status fr_ContentLength]. rewrite Hd.
  rewrite (proj2 (Z.ltb_lt 0 (b - a + 1))) by lia. unfold serveFromFetchResult, is_head. rewrite Hm. cbn [String.eqb Ascii.eqb Bool.eqb].
  rewrite Hcopy. cbn [fst rs_status rs_body rs_headers fr_StatusCode fr_Body io_Copy cp_written body_data].
  split_and!; [done|done|apply fetched_no_range].
Qed.

(** A byte range of an object is the same whether the edge has the object
    in its cache or fetches the range from the origin, in status and bytes; but the answer
    of the cold edge lacks the Content-Range header, and a range that names no byte of the
    object is answered with the whole object by the warm edge and with 502 by the cold one,
    since the origin's 416 is taken for a failure. *)
Theorem range_depends_on_cache io s io2 s2 r p p2 key data :
  uncached io s r p key → faces_origin io s key (er_Range r) → object_on_origin key data → cb_state (sv_cb s) = 0 →
  accepted (sv_secret s2) (oi_now io2) r p2 key → plain_request s2 r key → cached io2 s2 key data →
  oi_copy io = None → oi_copy io2 = None → oi_seek_ok io2 = true → er_Method r = "GET" → er_Range r ≠ "" →
  (∀ t n, to_chars (er_Range r) = to_chars "bytes=-" ++ t → parse_int t = Some n → 0 ≤ n) →
  let cold := (handle io s r).1 in
  let warm := (handle io2 s2 r).1 in
  match parseRangeHeader (er_Range r) (Z.of_nat (length data)) with
  | Ok (first, last) =>
      rs_status cold = 206 ∧ rs_status warm = 206 ∧ rs_body cold = rs_body warm ∧
      rs_body warm = take (Z.to_nat (last - first + 1)) (drop (Z.to_nat first) data) ∧
      rs_headers warm !! "Content-Range" = Some (content_range first last (Z.of_nat (length data))) ∧
      rs_headers cold !! "Content-Range" = None
  | _ => cold = http_Error "upstream error" 502 ∧ rs_status warm = 200 ∧ rs_body warm = data
  end.
Proof.
  intros Hu Hf Hobj Hcb Ha2 Hp2 Hc2 Hcopy Hcopy2 Hseek Hm Hne Hsuf cold warm.
  pose proof (cold_range_answer _ _ _ _ _ _ Hu Hf Hobj Hcb Hm Hne Hcopy) as Hcold. fold cold in Hcold.
  pose proof (on_size _ _ Hobj) as Hsz.
  assert (Hsame : same_range (parseHTTPRange (er_Range r) (Z.of_nat (length data))) (parseRangeHeader (er_Range r) (Z.of_nat (length data)))).
  { destruct (same_ranges (er_Range r) (Z.of_nat (length data))) as [?|(t & n & Ht & Hn & ?)]; [lia|done|].
    specialize (Hsuf t n Ht Hn). lia. }
  subst warm. destruct (hit_serves ParseFloat format_verbs xml_Unmarshal env_max _ _ _ _ _ _ Ha2 Hp2 Hc2) as (s' & -> & _).
  rewrite (proj2 (String.eqb_neq _ _) Hne). cbn [negb]. unfold serveRangeFromCache, cold_range in *.
  assert (Hhead : is_head r = false) by (unfold is_head; by rewrite Hm).
  destruct (parseRangeHeader _ _) as [[a b]| |], (parseHTTPRange _ _) as [[a' b']| |]; try done.
  - cbn in Hsame. injection Hsame as -> ->. destruct Hcold as (H1 & H2 & H3). rewrite Hseek, Hhead, Hcopy2.
    cbn [negb fst rs_status rs_body rs_headers io_Copy cp_written body_data]. rewrite lookup_insert_eq. by rewrite H2.
  - destruct (serve_whole_fine io2 s' r data Hcopy2) as (H1 & H2 & _). by rewrite Hhead in H2.
Qed.

(** *** Objects that do not exist *)

(** A request of an object without a file. *)
Definition missing_request (s : Server) (x : objectIO * edgeRequest) : Prop :=
  ∃ p key, uncached x.1 s x.2 p key ∧ faces_origin x.1 s key (er_Range x.2) ∧
    fs_stat fs (object_file key) = EntryMissing.

(** Requests one after the other. *)
Definition edge_run (reqs : list (objectIO * edgeRequest)) (s : Server) : Server :=
  foldl (λ s x, (handle x.1 s x.2).2) s reqs.

Lemma missing_refused key rh :
  fs_stat fs (object_file key) = EntryMissing →
  400 ≤ rs_status (serveOrigin fs dataDir true (sanitizeKey key) (origin_path (sanitizeKey key)) rh).
Proof.
  intros Hm. destruct (origin_refuses_or_serves fs dataDir true (sanitizeKey key) rh dataDir_abs) as [->|[_ ->]]; [done|].
  case_match; [done|]. unfold serve_entry. unfold object_file in Hm. by rewrite Hm.
Qed.

(** What requests of missing objects leave as it is. *)
Record same_edge (s s' : Server) : Prop := {
  se_config : same_config s s';
  se_fetcher : sv_fetcher s' = sv_fetcher s;
  se_disk : c_disk (sv_cache s') = c_disk (sv_cache s)
}.

Lemma same_edge_refl s : same_edge s s.
Proof. by split. Qed.
Lemma same_edge_trans s1 s2 s3 : same_edge s1 s2 → same_edge s2 s3 → same_edge s1 s3.
Proof. intros [[] ? ?] [[] ? ?]. split; [split|..]; congruence. Qed.

Lemma uncached_same s s' io r p key : same_edge s s' → uncached io s r p key → uncached io s' r p key.
Proof.
  intros [Hc _ Hd] [Ha Hp Hcold Hr]. split; [|by apply (plain_config s)|congruence|done].
  destruct Hc as [_ Hsec _]. by rewrite Hsec.
Qed.

Lemma missing_request_same s s' x : same_edge s s' → missing_request s x → missing_request s' x.
Proof.
  intros Hs (p & key & Hu & [Ho Hur Hr Hd] & Hm). exists p, key. split; [by eapply uncached_same|]. split; [|done].
  split; try done. by rewrite (se_fetcher _ _ Hs).
Qed.

Lemma missing_step s x :
  missing_request s x → cb_state (sv_cb s) = 0 →
  let '(resp, s') := handle x.1 s x.2 in
  resp = http_Error "upstream error" 502 ∧ same_edge s s' ∧
  sv_cb s' = circuitBreaker_RecordFailure (at_failure (oi_attempts x.1 0%nat)) (sv_cb s).
Proof.
  intros (p & key & Hu & Hf & Hm) Hcb. destruct x as [io r]. cbn [fst snd] in *.
  destruct (cold_handle _ _ _ _ _ Hu) as (s0 & -> & Hcfg & Hcb0 & Hft & Hd). unfold handle_miss.
  rewrite (fetch_from_origin io (count_miss s0) key (er_Range r)); [| |by destruct Hu|exact (eq_trans (f_equal cb_state Hcb0) Hcb)].
  2: { destruct Hf as [Ho Hur Hr Hdo]. split; try done. change (sv_fetcher (count_miss s0)) with (sv_fetcher s0). by rewrite Hft. }
  pose proof (missing_refused key (er_Range r) Hm) as Hst. cbn [fr_StatusCode fetch_result] in *.
  rewrite (proj2 (Z.leb_le _ _) Hst). cbv iota. split_and!; [done| |].
  - split; [by destruct Hcfg; split|exact Hft|exact Hd].
  - exact (f_equal (circuitBreaker_RecordFailure _) Hcb0).
Qed.

Lemma missing_run reqs x s :
  Forall (missing_request s) (reqs ++ [x]) → cb_state (sv_cb s) = 0 → 0 ≤ cb_failures (sv_cb s) →
  Z.of_nat (length (reqs ++ [x])) = cb_threshold (sv_cb s) - cb_failures (sv_cb s) → cb_threshold (sv_cb s) < 2 ^ 31 →
  let s' := edge_run (reqs ++ [x]) s in
  same_edge s s' ∧ cb_state (sv_cb s') = 1 ∧ cb_recovery (sv_cb s') = cb_recovery (sv_cb s) ∧
  cb_lastFailure (sv_cb s') = at_failure (oi_attempts x.1 0%nat).
Proof.
  revert s. induction reqs as [|y reqs IH]; intros s Hall Hcb Hpos Hlen Hthr; cbn [app edge_run foldl].
  - cbn [app] in Hall. apply (proj1 (Forall_singleton _ _)) in Hall. pose proof (missing_step s x Hall Hcb) as Hstep.
    destruct (handle x.1 s x.2) as [resp s']. destruct Hstep as (_ & Hs & Hc). cbn [snd]. split; [exact Hs|].
    rewrite Hc. unfold circuitBreaker_RecordFailure. cbn in *. rewrite i32_id by lia.
    rewrite (proj2 (Z.leb_le _ _)) by lia. done.
  - cbn [app] in Hall. apply Forall_cons in Hall as [Hy Hall]. pose proof (missing_step s y Hy Hcb) as Hstep.
    destruct (handle y.1 s y.2) as [resp s1]. destruct Hstep as (_ & Hs & Hc). cbn [snd]. cbn [app length] in Hlen.
    assert (Hlen1 : (0 < length (reqs ++ [x]))%nat) by (rewrite length_app; cbn; lia).
    destruct (closed_failure (at_failure (oi_attempts y.1 0%nat)) (sv_cb s) Hcb Hpos ltac:(lia)) as (H1 & H2 & H3).
    rewrite <- Hc in H1, H2, H3. destruct (IH s1) as (Hs2 & H4 & H5 & H6); try lia.
    + eapply Forall_impl; [exact Hall|]. intros z. by apply missing_request_same.
    + split_and!; [by eapply same_edge_trans|done| |done]. etrans; [exact H5|]. by rewrite Hc.
Qed.

(** C40 (error): A client with one valid token shuts the edge off from its origin: after as
    many requests of objects that do not exist as the circuit breaker has failures left,
    each of which the origin answers at once, every request of an object that is not cached
    is answered with 502 and without a request to the origin, whatever the object, until
    the recovery time after the last of them has passed. *)
Theorem missing_objects_close_origin s reqs x io r p key :
  Forall (missing_request s) (reqs ++ [x]) → cb_state (sv_cb s) = 0 → 0 ≤ cb_failures (sv_cb s) →
  Z.of_nat (length (reqs ++ [x])) = cb_threshold (sv_cb s) - cb_failures (sv_cb s) → cb_threshold (sv_cb s) < 2 ^ 31 →
  uncached io s r p key → oi_shared io = None →
  at_allow (oi_attempts io 0%nat) - at_failure (oi_attempts x.1 0%nat) < cb_recovery (sv_cb s) →
  let s' := edge_run (reqs ++ [x]) s in
  (handle io s' r).1 = http_Error "upstream error" 502 ∧
  (Fetcher_executeFetch (sv_fetcher s') (oi_attempts io) (sv_cb s') key (er_Range r)).2 = [] ∧
  (∃ s1, handle io s' r = handle_miss io s1 r key ∧ sv_cb s1 = sv_cb s').
Proof.
  intros Hall Hcb Hpos Hlen Hthr Hu Hown Htime s'.
  destruct (missing_run reqs x s Hall Hcb Hpos Hlen Hthr) as (Hs & H1 & Hrec & Hlast). fold s' in Hs, H1, Hrec, Hlast.
  assert (Hallow : ∀ f rh, Fetcher_executeFetch f (oi_attempts io) (sv_cb s') key rh = (Err "circuit breaker open", sv_cb s', [])).
  { intros f rh. unfold Fetcher_executeFetch. cbn [executeFetchWithRetry Nat.sub]. unfold circuitBreaker_Allow.
    rewrite H1, Hrec, Hlast. cbn [Z.eqb]. by rewrite (proj2 (Z.leb_gt _ _)) by lia. }
  destruct (cold_handle _ _ _ _ _ (uncached_same _ _ _ _ _ _ Hs Hu)) as (s1 & Hh & _ & Hcb1 & _ & _).
  split_and!; [|by rewrite Hallow|by exists s1]. rewrite Hh. unfold handle_miss, server_fetch. rewrite Hown.
  change (sv_cb (count_miss s1)) with (sv_cb s1). by rewrite Hcb1, Hallow.
Qed.
End edge.

(** ** Concrete requests *)
Definition demo_fs : originFS :=
  mkOriginFS (λ p, if bool_decide (p = to_chars "/data/k") then EntryFile demo_body else EntryMissing) (to_chars "/")
    (λ _ _, "text/plain; charset=utf-8") (λ _, "text/plain; charset=utf-8").
Definition demo_dir : chars := to_chars "/data/".
Local Abbreviation demo_handle := (handleObject demo_parse demo_verbs demo_xml 0).



(** An exchange of the edge with this origin. *)
Definition origin_io (t : Z) (key rh : string) : objectIO :=
  mkObjectIO (1000 * sec) OpenFine None (λ _, mkAttempt t t true (origin_do demo_fs demo_dir true key rh)) None true true true 0 true
    put_fine (mkResponse 101 ∅ []).
Definition object_req (key range : string) : edgeRequest :=
  mkEdgeRequest "GET" (String.append "/obj/" key) (String.append "Bearer " demo_edge_token) "" range "" "" "203.0.113.9:4711" 0 "" "" "".

Lemma demo_uncached t key rh :
  object_key "/obj/" (String.append "/obj/" key) = key → bad_key key = false →
  rh = "" ∨ validRangeHeader rh = true →
  uncached (origin_io t key rh) (demo_edge demo_cache) (object_req key rh) demo_payload key.
Proof.
  intros Hk Hb Hr. split; [|split; [reflexivity|reflexivity|by left]|reflexivity|exact Hr].
  split; [by left|vm_compute; discriminate|vm_compute; reflexivity|exact Hk|exact Hb].
Qed.

Lemma range_depends_on_cache_witness :
  (demo_handle (origin_io 0 "k" "bytes=9-") (demo_edge demo_cache) (object_req "k" "bytes=9-")).1 = http_Error "upstream error" 502 ∧
  rs_body (demo_handle demo_io (demo_edge demo_warm) (object_req "k" "bytes=9-")).1 = demo_body.
Proof.
  destruct (range_depends_on_cache demo_parse demo_verbs demo_xml 0 demo_fs demo_dir eq_refl (origin_io 0 "k" "bytes=9-")
    (demo_edge demo_cache) demo_io (demo_edge demo_warm) (object_req "k" "bytes=9-") demo_payload demo_payload "k" demo_body)
    as (H1 & _ & H2).
  - apply demo_uncached; [reflexivity|reflexivity|by right].
  - split; [reflexivity|by eexists|reflexivity|reflexivity].
  - split; [reflexivity|vm_compute; discriminate|vm_compute; reflexivity|vm_compute; reflexivity].
  - reflexivity.
  - split; [by left|vm_compute; discriminate|vm_compute; reflexivity|reflexivity|reflexivity].
  - split; [reflexivity|reflexivity|by left].
  - exact demo_cached.
  - reflexivity.
  - reflexivity.
  - reflexivity.
  - reflexivity.
  - discriminate.
  - intros t n Ht _. discriminate Ht.
  - split; [exact H1|exact H2].
Defined.

(** Five requests of "gone", and one of "k". *)
Definition gone : objectIO * edgeRequest := (origin_io 2000 "gone" "", object_req "gone" "").
Lemma missing_objects_close_origin_witness :
  (demo_handle (origin_io 2010 "k" "") (edge_run demo_parse demo_verbs demo_xml 0 (replicate 4 gone ++ [gone]) (demo_edge demo_cache))
    (object_req "k" "")).1 = http_Error "upstream error" 502.
Proof.
  apply (missing_objects_close_origin demo_parse demo_verbs demo_xml 0 demo_fs demo_dir eq_refl (demo_edge demo_cache)
    (replicate 4 gone) gone (origin_io 2010 "k" "") (object_req "k" "") demo_payload "k").
  - assert (H : missing_request demo_fs demo_dir (demo_edge demo_cache) gone).
    { exists demo_payload, "gone". split; [apply demo_uncached; [reflexivity|reflexivity|by left]|].
      split; [split; [reflexivity|by eexists|reflexivity|reflexivity]|vm_compute; reflexivity]. }
    repeat constructor; exact H.
  - reflexivity.
  - vm_compute. discriminate.
  - reflexivity.
  - reflexivity.
  - apply demo_uncached; [reflexivity|reflexivity|by left].
  - reflexivity.
  - vm_compute. reflexivity.
Defined.
