(* ===== verification/SmartPrefetch.v ===== *)
(** * Prefetching at night ([internal/edgeagent/smart_prefetch.go])

    A bounded channel of tasks and workers that fetch what is not cached, outside the night
    only with a high priority.  The cache and the fetcher are those of the [Server] of the
    same agent.  A worker's turn is [worker_turn]; the hour, the outcome of the fetch and
    the faults of the cache are arguments.

    The theorems: the night is the cyclic interval of hours from start to end, the whole day
    when they are equal; what a worker prefetched completely is served from the cache without
    asking the origin, and an incomplete body is not cached; the channel is bounded, and
    scheduling or stopping after [Stop] panics. *)

From S2P Require Import Prelude GoStrings GoHash GoFloat StreamKeys SlidingWindow EdgeCache.
From S2P Require Import Manifest Fetcher Prefetch Tokens EdgeServer.
From Stdlib Require Import ZifyBool.

Record PrefetchTask := mkPrefetchTask { tk_Key : string; tk_Priority : Z; tk_ScheduledAt : Z }.

Record SmartPrefetchManager := mkSmartPrefetchManager {
  spm_tasks : list PrefetchTask;
  spm_closed : bool;               (* the channel *)
  spm_cancelled : bool;            (* the context *)
  spm_maxConcurrent : Z;
  spm_bandwidthLimit : Z;
  spm_nightModeStart : Z;
  spm_nightModeEnd : Z;
  spm_nightBandwidth : Z
}.

Definition tasks_capacity : nat := 1000.

Definition NewSmartPrefetchManager (maxConcurrent bandwidthLimit : Z) : SmartPrefetchManager :=
  mkSmartPrefetchManager [] false false maxConcurrent bandwidthLimit 1 7 50.

Definition with_tasks (m : SmartPrefetchManager) (l : list PrefetchTask) : SmartPrefetchManager :=
  mkSmartPrefetchManager l (spm_closed m) (spm_cancelled m) (spm_maxConcurrent m) (spm_bandwidthLimit m)
    (spm_nightModeStart m) (spm_nightModeEnd m) (spm_nightBandwidth m).

Definition SetNightMode (m : SmartPrefetchManager) (start end_ bandwidth : Z) : SmartPrefetchManager :=
  mkSmartPrefetchManager (spm_tasks m) (spm_closed m) (spm_cancelled m) (spm_maxConcurrent m) (spm_bandwidthLimit m)
    start end_ bandwidth.

(** A send on a closed channel panics, also in a [select] with a default case. *)
Definition SchedulePrefetch (now : Z) (m : SmartPrefetchManager) (key : string) (priority : Z) : result SmartPrefetchManager :=
  if spm_closed m then Panic
  else if (length (spm_tasks m) <? tasks_capacity)%nat
       then Ok (with_tasks m (spm_tasks m ++ [mkPrefetchTask key priority now]))
       else Ok m.

(** [Stop], up to the point where it waits for the workers. *)
Definition SmartPrefetch_Stop (m : SmartPrefetchManager) : result SmartPrefetchManager :=
  if spm_closed m then Panic
  else Ok (mkSmartPrefetchManager (spm_tasks m) true true (spm_maxConcurrent m) (spm_bandwidthLimit m)
             (spm_nightModeStart m) (spm_nightModeEnd m) (spm_nightBandwidth m)).

Definition isNightMode (m : SmartPrefetchManager) (h : Z) : bool :=
  if spm_nightModeStart m <? spm_nightModeEnd m
  then (spm_nightModeStart m <=? h) && (h <? spm_nightModeEnd m)
  else (spm_nightModeStart m <=? h) || (h <? spm_nightModeEnd m).

(** One turn of the loop with a received task: does the worker go on, and the server after
    it; a nil result of the fetch panics. *)
Definition worker_turn (io : objectIO) (visit : gmap string Z → list (string * Z)) (hour : Z)
    (m : SmartPrefetchManager) (s : Server) (task : PrefetchTask) : result bool * Server :=
  if spm_cancelled m then (Ok false, s)
  else if negb (isNightMode m hour) && (tk_Priority task <? 8) then (Ok true, s)
  else if Cache_Has (sv_cache s) (tk_Key task) then (Ok true, s)
  else
    let '(o, s) := server_fetch io s (tk_Key task) "" in
    match o with
    | (_, Some _) => (Ok true, s)
    | (None, None) => (Panic, s)
    | (Some fr, None) =>
        if body_fails (fr_Body fr) then (Ok true, s)
        else (Ok true, set_cache s (Cache_Put (oi_put io) visit (oi_now io) (sv_cache s) (tk_Key task) (body_data (fr_Body fr))).2)
    end.

(** The steps of the manager: calls from outside, and a worker that takes the oldest task. *)
Inductive spm_step : SmartPrefetchManager → SmartPrefetchManager → Prop :=
| spm_schedule m now key priority m' : SchedulePrefetch now m key priority = Ok m' → spm_step m m'
| spm_stop m m' : SmartPrefetch_Stop m = Ok m' → spm_step m m'
| spm_night m start end_ bw : spm_step m (SetNightMode m start end_ bw)
| spm_take m t ts : spm_tasks m = t :: ts → spm_step m (with_tasks m ts).

(** ** The night *)

(** The hours from [start] up to [end_], around the clock. *)
Definition in_night (start end_ h : Z) : Prop := start = end_ ∨ (h - start) mod 24 < (end_ - start) mod 24.

Lemma mod24 z : -24 < z < 24 → z mod 24 = if z <? 0 then z + 24 else z.
Proof.
  intros Hz. destruct (z <? 0) eqn:E; bool_to_prop.
  - rewrite <- (Z_mod_plus_full z 1 24). apply Z.mod_small. lia.
  - apply Z.mod_small. lia.
Qed.

(** The night mode is on exactly during the hours from the configured start
    up to the configured end, counted around midnight if the end is the smaller hour, and
    during the whole day if both are the same hour. *)
Theorem night_is_cyclic m h :
  0 ≤ spm_nightModeStart m < 24 → 0 ≤ spm_nightModeEnd m < 24 → 0 ≤ h < 24 →
  isNightMode m h = true ↔ in_night (spm_nightModeStart m) (spm_nightModeEnd m) h.
Proof.
  intros Hs He Hh. unfold isNightMode, in_night. rewrite !mod24 by lia.
  destruct (_ <? _) eqn:E1; destruct (h - _ <? 0) eqn:E2, (spm_nightModeEnd m - _ <? 0) eqn:E3; lia.
Qed.

(** ** The queue *)
Record spm_ok (m : SmartPrefetchManager) : Prop := {
  so_bound : (length (spm_tasks m) ≤ tasks_capacity)%nat;
  so_closed : spm_closed m = spm_cancelled m
}.

Lemma spm_step_ok m m' : spm_ok m → spm_step m m' → spm_ok m'.
Proof.
  intros [Hb Hc]. destruct 1 as [m now key p m' H|m m' H|m start end_ bw|m t ts H].
  - unfold SchedulePrefetch in H. destruct (spm_closed m) eqn:E; [done|].
    destruct (_ <? _)%nat eqn:El; injection H as <-; [|by split; rewrite ?E]. bool_to_prop. split; [|exact (eq_trans E Hc)].
    cbn [spm_tasks with_tasks]. rewrite length_app. cbn. lia.
  - unfold SmartPrefetch_Stop in H. destruct (spm_closed m); [done|]. by injection H as <-.
  - by split.
  - split; [|done]. rewrite H in Hb. cbn in *. lia.
Qed.

(** A stopped manager: nothing is scheduled any more, and no worker fetches. *)
Lemma stopped_panics m m' now key p :
  SmartPrefetch_Stop m = Ok m' → SchedulePrefetch now m' key p = Panic ∧ SmartPrefetch_Stop m' = Panic ∧
  ∀ io visit hour s task, worker_turn io visit hour m' s task = (Ok false, s).
Proof. unfold SmartPrefetch_Stop. destruct (spm_closed m); [done|]. by intros [= <-]. Qed.

(** ** What is prefetched *)
Section prefetched.
Context (ParseFloat : string → option float64) (format_verbs : chars → Z → chars)
        (xml_Unmarshal : bytes → option mpdRoot) (env_max : Z).
Local Abbreviation handle := (handleObject ParseFloat format_verbs xml_Unmarshal env_max).

(** A task a worker acts on. *)
Record due (m : SmartPrefetchManager) (hour : Z) (s : Server) (task : PrefetchTask) : Prop := {
  du_running : spm_cancelled m = false;
  du_time : isNightMode m hour = true ∨ 8 ≤ tk_Priority task;
  du_missing : Cache_Has (sv_cache s) (tk_Key task) = false
}.

Lemma due_turn io visit hour m s task fr :
  due m hour s task → (server_fetch io s (tk_Key task) "").1 = (Some fr, None) →
  ∃ cb, worker_turn io visit hour m s task =
    (Ok true, if body_fails (fr_Body fr) then set_cb s cb
              else set_cache (set_cb s cb) (Cache_Put (oi_put io) visit (oi_now io) (sv_cache s) (tk_Key task) (body_data (fr_Body fr))).2).
Proof.
  intros [Hr Ht Hm] Hf. unfold worker_turn. rewrite Hr, Hm.
  assert (negb (isNightMode m hour) && (tk_Priority task <? 8) = false) as -> by (destruct (isNightMode m hour), Ht; cbn; done || lia).
  destruct (server_fetch_frame io s s (tk_Key task) "" eq_refl eq_refl) as (_ & cb & Hcb). exists cb.
  destruct (server_fetch io s (tk_Key task) "") as [o s1]. cbn [fst snd] in *. subst o s1. by destruct (body_fails _).
Qed.

(** What a prefetch worker fetched completely is served from the cache: in
    the night, or with a priority of at least 8 at any hour, a task for an object that is
    not cached whose body arrives completely leaves the object in the cache, so that every
    accepted GET is answered with it and status 200 without asking the origin; a body that
    breaks off leaves the cache as it was. *)
Theorem prefetched_object_served io visit hour m s task fr io2 r2 p2 :
  due m hour s task → (server_fetch io s (tk_Key task) "").1 = (Some fr, None) → oi_put io = put_fine →
  valid_visit visit → room_for (sv_cache s) (oi_now io) (tk_Key task) (body_data (fr_Body fr)) →
  accepted (sv_secret s) (oi_now io2) r2 p2 (tk_Key task) → plain_request s r2 (tk_Key task) →
  er_Method r2 = "GET" → er_Range r2 = "" → oi_open io2 = OpenFine → oi_copy io2 = None →
  let '(again, s1) := worker_turn io visit hour m s task in
  again = Ok true ∧
  if body_fails (fr_Body fr) then sv_cache s1 = sv_cache s
  else let '(resp, s2) := handle io2 s1 r2 in
       rs_status resp = 200 ∧ rs_body resp = body_data (fr_Body fr) ∧ sv_cb s2 = sv_cb s1.
Proof.
  intros Hdue Hf Hput Hv Hroom Ha Hp Hm Hr Hopen Hcopy.
  destruct (due_turn io visit hour m s task fr Hdue Hf) as (cb & ->). split; [done|].
  destruct (body_fails (fr_Body fr)); [done|]. rewrite Hput.
  pose proof (put_then_hit ParseFloat format_verbs xml_Unmarshal env_max visit (oi_now io) (set_cb s cb) io2 r2 p2 (tk_Key task)
    (body_data (fr_Body fr)) Hv Hroom Ha) as Hhit.
  destruct Hhit as (H1 & H2 & H3); try done.
  - apply (plain_config s); [by split|done].
  - unfold run_job in H1, H2, H3. change (sv_cache (set_cb s cb)) with (sv_cache s) in *.
    by destruct (handle io2 _ r2).
Qed.
End prefetched.

(** ** A concrete run *)
Definition demo_spm : SmartPrefetchManager := NewSmartPrefetchManager 2 20.
Definition demo_task : PrefetchTask := mkPrefetchTask "k" 1 0.

Lemma night_is_cyclic_witness : isNightMode (SetNightMode demo_spm 22 6 10) 23 = true.
Proof. apply (night_is_cyclic (SetNightMode demo_spm 22 6 10) 23); [cbn; lia|cbn; lia|lia|right; vm_compute; reflexivity]. Defined.

Lemma prefetched_object_served_witness :
  let s1 := (worker_turn demo_io map_to_list 3 demo_spm (demo_edge demo_cache) demo_task).2 in
  rs_body (handleObject demo_parse demo_verbs demo_xml 0 demo_io s1 (demo_edge_req "GET" "")).1 = demo_body.
Proof.
  assert (Hdue : due demo_spm 3 (demo_edge demo_cache) demo_task) by (split; [reflexivity|by left|reflexivity]).
  assert (Hf : (server_fetch demo_io (demo_edge demo_cache) (tk_Key demo_task) "").1 = (Some demo_answer, None)) by (vm_compute; reflexivity).
  assert (Hroom : room_for (sv_cache (demo_edge demo_cache)) (oi_now demo_io) (tk_Key demo_task) (body_data (fr_Body demo_answer)))
    by (apply demo_room; vm_compute; discriminate).
  assert (Hfine : body_fails (fr_Body demo_answer) = false) by reflexivity.
  pose proof (prefetched_object_served demo_parse demo_verbs demo_xml 0 demo_io map_to_list 3 demo_spm (demo_edge demo_cache)
    demo_task demo_answer demo_io (demo_edge_req "GET" "") (mkTokenPayload "other" 2000 "203.0.113.0/24") Hdue Hf eq_refl
    map_to_list_visit Hroom (demo_accepted "GET" "" ltac:(by left)) (demo_plain demo_cache "GET" "") eq_refl eq_refl eq_refl eq_refl) as H.
  rewrite Hfine in H. destruct (worker_turn demo_io map_to_list 3 demo_spm (demo_edge demo_cache) demo_task) as [again s1].
  destruct H as [_ H]. cbv zeta. unfold snd. destruct (handleObject demo_parse demo_verbs demo_xml 0 demo_io s1 _) as [resp s2].
  exact (proj1 (proj2 H)).
Defined.
