(* ===== verification/P2P.v ===== *)
(** * Peers ([internal/edgeagent/p2p_discovery.go], [p2p_fetcher.go], and the choice between
    peer and origin in [fetcher.go])

    Announcements arrive over a Redis channel; each makes a peer that is shared by pointer
    between the table of the discovery and that of the fetcher, so peers live in a store and
    the tables hold their addresses.  A fetch asks the peers one after the other, in an order
    that depends on how [range] visits the table ([visit]).

    The theorems: a fetch asks every peer at most once, shields that have the object first,
    then the others that have it, then the rest, and gives the first answer with status 200;
    but no announcement says what a peer has, so that with discovery alone no object is ever
    fetched from a peer; and a peer that fell silent is asked for ever. *)

From S2P Require Import Prelude GoStrings GoHash GoFloat StreamKeys SlidingWindow EdgeCache.
From S2P Require Import Manifest Fetcher Deduper Prefetch Tokens EdgeServer.

Record PeerInfo := mkPeerInfo {
  pi_NodeID : string;
  pi_Endpoint : string;
  pi_LatencyMs : Z;
  pi_HasContent : gmap string bool;
  pi_LastSeen : Z;
  pi_IsShield : bool
}.

Record P2PAnnounce := mkP2PAnnounce { an_NodeID : string; an_Endpoint : string; an_IsShield : bool; an_TS : Z }.

Abbreviation peerRef := nat.

(** The store of the process, and the tables of discovery and fetcher. *)
Record P2PState := mkP2PState {
  p2_store : gmap peerRef PeerInfo;
  p2_next : peerRef;
  p2_knownPeers : gmap string peerRef;
  p2_peers : gmap string peerRef;
  p2_nodeID : string;
  p2_endpoint : string;
  p2_isShield : bool
}.

Definition NewP2PDiscovery (nodeID endpoint : string) (isShield : bool) : P2PState :=
  mkP2PState ∅ 0 ∅ ∅ nodeID endpoint isShield.

(** What is announced about the node itself. *)
Definition P2PDiscovery_publish (st : P2PState) (now : Z) : P2PAnnounce :=
  mkP2PAnnounce (p2_nodeID st) (p2_endpoint st) (p2_isShield st) (now / sec).

Definition seen (now : Z) (p : PeerInfo) : PeerInfo :=
  mkPeerInfo (pi_NodeID p) (pi_Endpoint p) (pi_LatencyMs p) (pi_HasContent p) now (pi_IsShield p).

(** [UpdatePeers] for one peer. *)
Definition P2PFetcher_UpdatePeer (st : P2PState) (now : Z) (ref : peerRef) : P2PState :=
  match p2_store st !! ref with
  | Some p => mkP2PState (<[ref := seen now p]> (p2_store st)) (p2_next st) (p2_knownPeers st)
                (<[pi_NodeID p := ref]> (p2_peers st)) (p2_nodeID st) (p2_endpoint st) (p2_isShield st)
  | None => st
  end.
Definition P2PFetcher_UpdatePeers (st : P2PState) (now : Z) (refs : list peerRef) : P2PState :=
  foldl (λ st ref, P2PFetcher_UpdatePeer st now ref) st refs.

(** [None] is a payload that is not an announcement. *)
Definition P2PDiscovery_handleAnnounce (st : P2PState) (now : Z) (payload : option P2PAnnounce) : P2PState :=
  match payload with
  | None => st
  | Some a =>
      if String.eqb (an_NodeID a) (p2_nodeID st) then st
      else
        let ref := p2_next st in
        let peer := mkPeerInfo (an_NodeID a) (an_Endpoint a) 0 ∅ now (an_IsShield a) in
        P2PFetcher_UpdatePeers
          (mkP2PState (<[ref := peer]> (p2_store st)) (S ref) (<[an_NodeID a := ref]> (p2_knownPeers st)) (p2_peers st)
             (p2_nodeID st) (p2_endpoint st) (p2_isShield st)) now [ref]
  end.

Definition p2pAnnounceTTL : Z := 90 * sec.

Definition stale (st : P2PState) (now : Z) (ref : peerRef) : bool :=
  match p2_store st !! ref with Some p => pi_LastSeen p <? now - p2pAnnounceTTL | None => false end.

Definition P2PDiscovery_cleanup (st : P2PState) (now : Z) : P2PState :=
  mkP2PState (p2_store st) (p2_next st)
    (filter (λ x, stale st now x.2 = false) (p2_knownPeers st))
    (p2_peers st) (p2_nodeID st) (p2_endpoint st) (p2_isShield st).

Definition deref (st : P2PState) (l : list (string * peerRef)) : list PeerInfo := omap (λ x, p2_store st !! x.2) l.

(** [visit] is the order in which [range] visits a map. *)
Definition P2PDiscovery_GetPeers (visit : gmap string peerRef → list (string * peerRef)) (st : P2PState) : list PeerInfo :=
  deref st (visit (p2_knownPeers st)).

Definition PeerCount (st : P2PState) : nat := size (p2_peers st).

Definition has_content (key : string) (p : PeerInfo) : bool := default false (pi_HasContent p !! key).

Definition HasPeerWithContent (visit : gmap string peerRef → list (string * peerRef)) (st : P2PState) (key : string) : bool :=
  existsb (has_content key) (deref st (visit (p2_peers st))).

(** ** Fetching from a peer *)

(** The order in which the peers are asked. *)
Fixpoint sort_peers (key : string) (l shieldPeers peers : list PeerInfo) : list PeerInfo :=
  match l with
  | [] => shieldPeers ++ peers
  | p :: l =>
      if has_content key p then
        if pi_IsShield p then sort_peers key l (shieldPeers ++ [p]) peers
        else sort_peers key l shieldPeers (p :: peers)
      else sort_peers key l shieldPeers (peers ++ [p])
  end.

Definition peer_url (p : PeerInfo) (key : string) : string :=
  String.append (pi_Endpoint p) (String.append "/internal/p2p/obj/" key).

(** [net] is what a GET of an address comes to. *)
Definition tryFetch (net : string → exchange) (p : PeerInfo) (key : string) : result (respBody * Z) :=
  match net (peer_url p key) with
  | DoFails => Err "request"
  | Response r => if fr_StatusCode r =? 200 then Ok (fr_Body r, fr_ContentLength r) else Err "peer returned an error status"
  end.

Fixpoint ask_peers (net : string → exchange) (key : string) (l : list PeerInfo) : result (respBody * Z) :=
  match l with
  | [] => Err "p2p fetch failed from all peers"
  | p :: l => match tryFetch net p key with Ok r => Ok r | _ => ask_peers net key l end
  end.

Definition FetchFromPeer (visit : gmap string peerRef → list (string * peerRef)) (net : string → exchange)
    (st : P2PState) (key : string) : result (respBody * Z) :=
  ask_peers net key (sort_peers key (deref st (visit (p2_peers st))) [] []).

(** [Fetcher.FetchWithStrategy]; [useP2P] holds if the agent was configured for peers. *)
Definition FetchWithStrategy (visit : gmap string peerRef → list (string * peerRef)) (net : string → exchange)
    (useP2P : bool) (st : P2PState) (io : objectIO) (s : Server) (key rangeHeader : string) : outcome * Server :=
  if useP2P && HasPeerWithContent visit st key then
    match FetchFromPeer visit net st key with
    | Ok (body, size) => ((Some (mkFetchResult body size "" "" 200), None), s)
    | _ => server_fetch io s key rangeHeader
    end
  else server_fetch io s key rangeHeader.

(** ** Order and outcome of a fetch *)

(** What comes before what: shields with the object, others with it, the rest. *)
Definition peer_class (key : string) (p : PeerInfo) : nat :=
  if has_content key p then if pi_IsShield p then 0 else 1 else 2.

Definition classes_le (key : string) (p q : PeerInfo) : Prop := (peer_class key p ≤ peer_class key q)%nat.

Lemma sort_peers_perm key l : ∀ a b, sort_peers key l a b ≡ₚ l ++ a ++ b.
Proof.
  induction l as [|p l IH]; intros a b; cbn [sort_peers app]; [done|].
  repeat case_match; rewrite IH; solve_Permutation.
Qed.

Record sorted_parts (key : string) (a b : list PeerInfo) : Prop := {
  sp_shields : Forall (λ p, peer_class key p = 0%nat) a;
  sp_rest : StronglySorted (classes_le key) b;
  sp_others : Forall (λ p, (1 ≤ peer_class key p)%nat) b
}.

Lemma sort_peers_sorted key l : ∀ a b, sorted_parts key a b → StronglySorted (classes_le key) (sort_peers key l a b).
Proof.
  induction l as [|p l IH]; intros a b [Ha Hb Ho]; cbn [sort_peers].
  - apply StronglySorted_app. split_and!; [|induction Ha; constructor; [done|]|done].
    + intros x y Hx Hy. unfold classes_le. eapply Forall_forall in Ha; [|exact Hx]. rewrite Ha. lia.
    + eapply Forall_impl; [exact Ha|]. intros q Hq. unfold classes_le. rewrite H, Hq. lia.
  - destruct (has_content key p) eqn:Hc; [destruct (pi_IsShield p) eqn:Hs|]; apply IH; split; try done.
    + apply Forall_app. split; [done|]. constructor; [|done]. unfold peer_class. by rewrite Hc, Hs.
    + constructor; [done|]. eapply Forall_impl; [exact Ho|]. intros q Hq. unfold classes_le, peer_class at 1. by rewrite Hc, Hs.
    + constructor; [|done]. unfold peer_class. by rewrite Hc, Hs.
    + apply StronglySorted_app. split_and!; [|done|by repeat constructor].
      intros x y _ ->%list_elem_of_singleton. unfold classes_le, peer_class. rewrite Hc. by repeat case_match; lia.
    + apply Forall_app. split; [done|]. constructor; [|done]. unfold peer_class. rewrite Hc. lia.
Qed.

(** A peer that does not deliver the object. *)
Definition peer_fails (net : string → exchange) (key : string) (p : PeerInfo) : Prop := ∀ v, tryFetch net p key ≠ Ok v.

Lemma ask_peers_spec net key l :
  match ask_peers net key l with
  | Ok v => ∃ before p after, l = before ++ p :: after ∧ tryFetch net p key = Ok v ∧ Forall (peer_fails net key) before
  | Err _ => Forall (peer_fails net key) l
  | Panic => False
  end.
Proof.
  induction l as [|p l IH]; cbn [ask_peers]; [constructor|].
  destruct (tryFetch net p key) as [v|e|] eqn:E.
  - exists [], p, l. by split_and!.
  - destruct (ask_peers net key l) as [v| |]; [|constructor; [intros v; by rewrite E|done]|done].
    destruct IH as (b & q & a & -> & Hq & Hb). exists (p :: b), q, a. split_and!; [done|done|].
    constructor; [intros v'; by rewrite E|done].
  - exfalso. unfold tryFetch in E. by repeat case_match.
Qed.

(** A fetch from the peers asks each known peer at most once, in an order
    in which the shields that have the object come first, then the other peers that have
    it, then the rest; it gives the answer of the first one that answers with status 200,
    and fails exactly if none does. *)
Theorem peers_asked_in_order visit net st key :
  let known := deref st (visit (p2_peers st)) in
  ∃ order, order ≡ₚ known ∧ StronglySorted (classes_le key) order ∧
  match FetchFromPeer visit net st key with
  | Ok v => ∃ before p after, order = before ++ p :: after ∧ tryFetch net p key = Ok v ∧
              Forall (peer_fails net key) before
  | Err _ => Forall (peer_fails net key) known
  | Panic => False
  end.
Proof.
  intros known. exists (sort_peers key known [] []).
  assert (Hperm : sort_peers key known [] [] ≡ₚ known) by (rewrite sort_peers_perm; by rewrite app_nil_r).
  split_and!; [done|apply sort_peers_sorted; split; constructor|].
  unfold FetchFromPeer. fold known. pose proof (ask_peers_spec net key (sort_peers key known [] [])) as H.
  destruct (ask_peers _ _ _); [done|by rewrite Hperm in H|done].
Qed.

(** ** What discovery knows *)
Inductive p2_step : P2PState → P2PState → Prop :=
| p2_announce st now payload : p2_step st (P2PDiscovery_handleAnnounce st now payload)
| p2_cleanup st now : p2_step st (P2PDiscovery_cleanup st now).

Definition no_content (st : P2PState) : Prop := ∀ ref p, p2_store st !! ref = Some p → pi_HasContent p = ∅.

Lemma p2_step_no_content st st' : no_content st → p2_step st st' → no_content st'.
Proof.
  intros Hn. destruct 1 as [st now [a|]|st now]; [|done|done]. unfold P2PDiscovery_handleAnnounce. case_match; [done|].
  cbn. unfold P2PFetcher_UpdatePeer. cbn. rewrite lookup_insert_eq. intros ref p. cbn.
  rewrite insert_insert_eq. intros [[<- <-]|[_ Hp]]%lookup_insert_Some; [done|by eapply Hn].
Qed.

(** Discovery alone never leads to a fetch from a peer: whatever announcements
    arrive, nobody is known to have any object, so that an agent that is configured for
    peers asks the origin for everything, exactly as one that is not. *)
Theorem discovery_never_used nodeID endpoint isShield st visit net useP2P io s key rh :
  rtc p2_step (NewP2PDiscovery nodeID endpoint isShield) st →
  HasPeerWithContent visit st key = false ∧
  FetchWithStrategy visit net useP2P st io s key rh = server_fetch io s key rh.
Proof.
  intros Hst. assert (Hn : no_content st).
  { assert (no_content (NewP2PDiscovery nodeID endpoint isShield)) as H0 by (intros ref p; cbn; by rewrite lookup_empty).
    revert H0. clear -Hst. induction Hst as [|? ? ? Hs _ IH]; [done|]. intros H0. apply IH. by eapply p2_step_no_content. }
  assert (Hf : HasPeerWithContent visit st key = false).
  { unfold HasPeerWithContent, deref. induction (visit (p2_peers st)) as [|[id ref] l IH]; [done|]. cbn.
    destruct (p2_store st !! ref) as [p|] eqn:Hp; [|done]. cbn. unfold has_content. by rewrite (Hn _ _ Hp), lookup_empty. }
  split; [done|]. unfold FetchWithStrategy. by rewrite Hf, andb_false_r.
Qed.

(** A peer that was announced once stays with the fetcher. *)
Lemma p2_step_keeps st st' id : p2_step st st' → is_Some (p2_peers st !! id) → is_Some (p2_peers st' !! id).
Proof.
  destruct 1 as [st now [a|]|st now]; [|done|done]. unfold P2PDiscovery_handleAnnounce. case_match; [done|].
  cbn. unfold P2PFetcher_UpdatePeer. cbn. rewrite lookup_insert_eq. cbn.
  intros Hs. destruct (decide (an_NodeID a = id)) as [->|]; [by rewrite lookup_insert_eq|by rewrite lookup_insert_ne].
Qed.

(** Every peer the fetcher knows was announced. *)
Lemma silent_peer_kept st st' id :
  rtc p2_step st st' → is_Some (p2_peers st !! id) → is_Some (p2_peers st' !! id).
Proof. induction 1 as [|? ? ? Hs _ IH]; [done|]. intros H. apply IH. by eapply p2_step_keeps. Qed.

(** ** A concrete run: an announcement, and a cleanup after the peer fell silent *)
Definition demo_p2p : P2PState :=
  P2PDiscovery_handleAnnounce (NewP2PDiscovery "n1" "http://n1" false) 0 (Some (mkP2PAnnounce "n2" "http://n2" true 0)).
Definition demo_silent : P2PState := P2PDiscovery_cleanup demo_p2p (91 * sec).
Definition demo_net (u : string) : exchange := if String.eqb u "http://n2/internal/p2p/obj/k" then Response demo_answer else DoFails.

Example demo_known : (P2PDiscovery_GetPeers map_to_list demo_silent, PeerCount demo_silent) = ([], 1%nat).
Proof. vm_compute. reflexivity. Qed.

Example demo_peer_fetch :
  FetchFromPeer map_to_list demo_net demo_silent "k" = Ok (mkRespBody demo_body false, 5).
Proof. vm_compute. reflexivity. Qed.

Lemma discovery_never_used_witness :
  (FetchWithStrategy map_to_list demo_net true demo_silent demo_io (demo_edge demo_cache) "k" "").1 = (Some demo_answer, None).
Proof.
  destruct (discovery_never_used "n1" "http://n1" false demo_silent map_to_list demo_net true demo_io (demo_edge demo_cache) "k" "")
    as [_ H].
  - apply (rtc_l _ _ demo_p2p); [apply p2_announce|]. apply rtc_once, p2_cleanup.
  - rewrite H. vm_compute. reflexivity.
Defined.
