(* ===== verification/Reporter.v ===== *)
(** * The reporter of an edge agent ([internal/edgeagent/reporter.go])

    An agent registers with the control plane when it starts and then sends heartbeats.  The
    configuration ([Config]) is shared with the other parts of the agent by pointer and read
    at each use; the server gives the counters, the cache the content summary.  The answers
    of the control plane come from a function of the request and of a state of its own, so
    that the agent can be run against the handlers of [Api].

    The theorems: an agent that registers and reports once is an active node under its own
    address, and the rest of the node table is as before; but an agent whose node was
    disabled is active again after a restart, as a new node, and an agent behind a NAT
    registers as if it were reachable; every byte is in the figures of exactly one snapshot
    of the meter, whoever takes it. *)

From S2P Require Import Prelude GoStrings NetAddr GoHash GoFloat Bloom ContentIndex StreamKeys SlidingWindow EdgeCache.
From S2P Require Import Models NodeCache Scheduler NodeLifecycle Policy ResourceKeys Api.
From S2P Require Import Manifest Fetcher Prefetch Tokens EdgeServer Config.
From Stdlib Require Import Ascii.

(** ** The bandwidth meter *)

(** [bytesIn] and [bytesOut] are the counters [sv_bwIn] and [sv_bwOut] of the server. *)
Record BandwidthMeter := mkBandwidthMeter {
  bm_lastIn : Z;
  bm_lastOut : Z;
  bm_lastCheck : Z;
  bm_ingressMbps : float64;
  bm_egressMbps : float64
}.

Definition NewBandwidthMeter (now : Z) : BandwidthMeter := mkBandwidthMeter 0 0 now fzero fzero.

(** [Duration.Seconds]. *)
Definition Duration_Seconds (d : Z) : float64 :=
  fadd (float_of_Z (Z.quot d 1000000000)) (fdiv (float_of_Z (Z.rem d 1000000000)) (float_of_Z 1000000000)).

Definition mbps (bytes : Z) (elapsed : float64) : float64 :=
  fdiv (fdiv (fmul (float_of_Z bytes) (float_of_Z 8)) elapsed) (float_of_Z 1000000).
Definition not_negative (x : float64) : float64 := if fltb x fzero then fzero else x.

(** [Snapshot]: ingress and egress since the last one. *)
Definition BandwidthMeter_Snapshot (now : Z) (s : Server) (b : BandwidthMeter) : (float64 * float64) * BandwidthMeter :=
  let elapsed := Duration_Seconds (now - bm_lastCheck b) in
  let '(ingress, egress) :=
    if fltb fzero elapsed
    then (mbps (i64 (sv_bwIn s - bm_lastIn b)) elapsed, mbps (i64 (sv_bwOut s - bm_lastOut b)) elapsed)
    else (bm_ingressMbps b, bm_egressMbps b) in
  let ingress := not_negative ingress in
  let egress := not_negative egress in
  ((ingress, egress), mkBandwidthMeter (sv_bwIn s) (sv_bwOut s) now ingress egress).

Definition BandwidthMeter_Current (b : BandwidthMeter) : float64 * float64 := (bm_ingressMbps b, bm_egressMbps b).

(** ** Where the agent is *)

(** [net.SplitHostPort]. *)
Definition SplitHostPort (addr : string) : option (string * string) :=
  match SplitHost addr, last_index [char_colon] (to_chars addr) with
  | Some host, Some i => Some (host, of_chars (drop (S i) (to_chars addr)))
  | _, _ => None
  end.

Definition parsePort (addr : string) : Z :=
  match SplitHostPort addr with
  | None => 9090
  | Some (_, portStr) => match parse_int (to_chars portStr) with Some port => port | None => 9090 end
  end.

(** [IP.IsPrivate]. *)
Definition IP_IsPrivate (ip : IP) : bool :=
  match To4 ip with
  | Some q =>
      match q with
      | a :: b :: _ => (a =? 10) || (a =? 172) && (Z.land b 240 =? 16) || (a =? 192) && (b =? 168)
      | _ => false
      end
  | None => match ip with a :: _ => Z.land a 254 =? 252 | [] => false end
  end.

(** What the three address services answer: [None] for an error. *)
Fixpoint detectPublicIP (services : list (option string)) : string :=
  match services with
  | [] => "localhost"
  | None :: l => detectPublicIP l
  | Some body :: l =>
      let ip := of_chars (trim_space (to_chars body)) in
      match ParseIP ip with Some _ => ip | None => detectPublicIP l end
  end.

Record GeoIPResult := mkGeoIPResult { geo_Country : string; geo_Region : string; geo_City : string; geo_ISP : string }.

(** [lookup] is the decoded answer of the service, [None] for an error. *)
Definition detectGeoIP (lookup : string → option GeoIPResult) (ip : string) : GeoIPResult :=
  let unknown := mkGeoIPResult "" "unknown" "" "unknown" in
  if String.eqb ip "" || String.eqb ip "localhost" then unknown
  else match ParseIP ip with
       | None => unknown
       | Some addr =>
           if IP_IsPrivate addr then mkGeoIPResult "" "local" "" "local"
           else match lookup ip with
                | None => unknown
                | Some geo =>
                    let region := if String.eqb (geo_Region geo) "" then geo_City geo else geo_Region geo in
                    let region := if String.eqb region "" then geo_Country geo else region in
                    mkGeoIPResult (geo_Country geo) region "" (geo_ISP geo)
                end
       end.

(** ** The agent *)

(** What the reporter and its neighbours share. *)
Record agent := mkAgent {
  ag_cfg : EdgeAgentConfig;
  ag_server : Server;
  ag_meter : BandwidthMeter;
  ag_nodeID : string;
  ag_stopped : bool
}.

Definition set_agent_server (a : agent) (s : Server) (m : BandwidthMeter) : agent :=
  mkAgent (ag_cfg a) s m (ag_nodeID a) (ag_stopped a).
Definition SetNodeID (a : agent) (id : string) : agent :=
  mkAgent (ag_cfg a) (ag_server a) (ag_meter a) id (ag_stopped a).
Definition Reporter_Stop (a : agent) : agent := mkAgent (ag_cfg a) (ag_server a) (ag_meter a) (ag_nodeID a) true.

(** A request to the control plane. *)
Record post (B : Type) := mkPost { po_URL : string; po_Authorization : string; po_Body : B }.
Arguments mkPost {B} po_URL po_Authorization po_Body.
Arguments po_URL {B} p.
Arguments po_Authorization {B} p.
Arguments po_Body {B} p.

Definition authorization (cfg : EdgeAgentConfig) : string :=
  if String.eqb (eac_NodeToken cfg) "" then "" else String.append "Bearer " (eac_NodeToken cfg).

Definition collectCapabilities (cfg : EdgeAgentConfig) : Capabilities :=
  mkCapabilities true (eac_CacheMaxGB cfg) (if eac_MaxUplinkMbps cfg <=? 0 then 100 else eac_MaxUplinkMbps cfg)
    false "" false (eac_P2PEnabled cfg) fzero fzero (eac_ShieldMode cfg).

(** What the surroundings tell an agent about its place. *)
Record placeIO := mkPlaceIO { pl_services : list (option string); pl_geo : string → option GeoIPResult }.

Definition is_auto (s : string) : bool := String.eqb s "" || String.eqb s "auto".

Definition register_request (pl : placeIO) (cfg : EdgeAgentConfig) : RegisterRequest :=
  let host := if String.eqb (eac_PublicHost cfg) "" then detectPublicIP (pl_services pl) else eac_PublicHost cfg in
  let '(region, isp) :=
    if is_auto (eac_Region cfg) || is_auto (eac_ISP cfg) then
      let geo := detectGeoIP (pl_geo pl) host in
      (if is_auto (eac_Region cfg) then geo_Region geo else eac_Region cfg,
       if is_auto (eac_ISP cfg) then geo_ISP geo else eac_ISP cfg)
    else (eac_Region cfg, eac_ISP cfg) in
  mkRegisterRequest "edge-agent" [mkEndpoint "http" host (parsePort (eac_ListenAddr cfg))] region isp "" ""
    (collectCapabilities cfg).

(** The answers of the control plane: none, a status, a node. *)
Inductive cpAnswer :=
| CPFails
| CPStatus (status : Z)
| CPNode (nodeID token : string) (exp : Z).

Definition Reporter_Register {S : Type} (pl : placeIO) (cp : post RegisterRequest → S → cpAnswer * S) (a : agent) (st : S)
    : result unit * agent * S :=
  let req := mkPost (String.append (eac_ControlPlaneURL (ag_cfg a)) "/v1/nodes/register") (authorization (ag_cfg a))
               (register_request pl (ag_cfg a)) in
  let '(ans, st) := cp req st in
  match ans with
  | CPFails => (Err "register", a, st)
  | CPStatus status => if 400 <=? status then (Err "register rejected", a, st) else (Err "decode register response", a, st)
  | CPNode nodeID _ _ => (Ok tt, SetNodeID a nodeID, st)
  end.

(** ** Heartbeats *)
Record NodeRuntime := mkNodeRuntime { nr_CPU : float64; nr_MemMB : Z; nr_DiskFreeGB : Z; nr_Conn : Z }.
Record NodeTraffic := mkNodeTraffic { nt_EgressMbps : float64; nt_IngressMbps : float64; nt_Err5xxRate : float64 }.

(** [models.HeartbeatRequest] with the load figures. *)
Record heartbeat := mkHeartbeat {
  hbt_NodeID : string;
  hbt_TS : Z;
  hbt_Runtime : NodeRuntime;
  hbt_Traffic : NodeTraffic;
  hbt_HitRatio : float64;
  hbt_ContentSummary : option ContentSummary
}.

(** The circumstances of a report: the clock, the runtime's figures, the logarithm and the
    order of map visits for the summary. *)
Record reportIO := mkReportIO {
  rp_now : Z;
  rp_alloc : Z;
  rp_goroutines : Z;
  rp_cpus : Z;
  rp_log : float64 → float64;
  rp_visit : gmap string Z → list (string * Z)
}.

Definition ratio (a b : Z) : float64 := fdiv (float_of_Z a) (float_of_Z b).

Definition Reporter_ReportOnce {S : Type} (io : reportIO) (cp : post heartbeat → S → option Z * S) (a : agent) (st : S)
    : result unit * agent * S :=
  if String.eqb (ag_nodeID a) "" then (Err "node not yet registered", a, st)
  else
    let cfg := ag_cfg a in
    let cs := Cache_Stats (sv_cache (ag_server a)) in
    let lookups := i64 (stat_Hits cs + stat_Misses cs) in
    let hitRatio := if 0 <? lookups then ratio (stat_Hits cs) lookups else fzero in
    let '((requests, bytesSent, errors), server) := GetMetricsDelta (ag_server a) in
    let '((ingress, egress), meter) := BandwidthMeter_Snapshot (rp_now io) server (ag_meter a) in
    let a := set_agent_server a server meter in
    let interval := Duration_Seconds (eac_HeartbeatInterval cfg) in
    let egress := if fleb egress fzero && fltb fzero interval
                  then fdiv (float_of_Z (i64 (bytesSent * 8))) (fmul interval (float_of_Z 1000000)) else egress in
    let errRate := if 0 <? requests then ratio errors requests else fzero in
    match Reporter_buildContentSummary (rp_log io) (rp_visit io) (ag_nodeID a) (rp_now io / sec) (sv_cache server) with
    | Ok summary =>
        let hb := mkHeartbeat (ag_nodeID a) (rp_now io / sec)
          (mkNodeRuntime (ratio (rp_goroutines io) (rp_cpus io)) (rp_alloc io / (1024 * 1024))
             (i64 (stat_MaxGB cs - Z.quot (stat_Size cs) (1024 * 1024 * 1024))) (sm_requests (sv_metrics server)))
          (mkNodeTraffic egress ingress errRate) hitRatio summary in
        let '(ans, st) := cp (mkPost (String.append (eac_ControlPlaneURL cfg) "/v1/nodes/heartbeat") (authorization cfg) hb) st in
        (match ans with
         | None => Err "send heartbeat"
         | Some status => if 400 <=? status then Err "heartbeat rejected" else Ok tt
         end, a, st)
    | Err e => (Err e, a, st)
    | Panic => (Panic, a, st)
    end.

(** ** The control plane at the other end *)
Definition reply_status (r : reply) : Z := match r with RError status _ => status | _ => 200 end.

Definition register_at (db_ok : bool) (nodeID token : string) (now : Z) (p : post RegisterRequest) (st : ApiState)
    : cpAnswer * ApiState :=
  let '(r, st) := handleRegister db_ok nodeID token now st (Body (po_Body p)) in
  (match r with RRegistered id tok exp => CPNode id tok exp | r => CPStatus (reply_status r) end, st).

Definition heartbeat_at (get_ok redis_ok : bool) (io : hbIO) (now : Z) (p : post heartbeat) (st : ApiState) : option Z * ApiState :=
  let hb := po_Body p in
  let '(r, st) := handleHeartbeat get_ok redis_ok io now st
                    (Body (mkHeartbeatRequest (hbt_NodeID hb) (hbt_TS hb) (hbt_ContentSummary hb))) in
  (Some (reply_status r), st).

(** The start of an agent and its first report. *)
Definition register_and_report (pl : placeIO) (io : reportIO) (nodeID token : string) (t1 t2 : Z) (a : agent) (st : ApiState)
    : result unit * result unit * agent * ApiState :=
  let '(r1, a, st) := Reporter_Register pl (register_at true nodeID token t1) a st in
  let '(r2, a, st) := Reporter_ReportOnce io (heartbeat_at true true hb_fine t2) a st in
  (r1, r2, a, st).

Definition nodes_of (st : ApiState) : gmap string Node := pg_nodes (cp_pg (api_cp st)).

(** An identifier the control plane can give to a new node. *)
Record fresh_id (st : ApiState) (id : string) (t : Z) : Prop := {
  fi_text : trimmed id = id ∧ id ≠ "";
  fi_new : nodes_of st !! id = None;
  fi_uncached : pg_cache (cp_pg (api_cp st)) !! id = None;
  fi_valid : RedisStore_IsNodeRevoked true (cp_redis (api_cp st)) id t = false
}.

Lemma get_uncached pg id now n :
  pg_cache pg !! id = None → pg_nodes pg !! id = Some n →
  PGStore_GetNode true pg id now =
    (Ok n, mkPGStore (pg_nodes pg) (pg_tokens pg) (<[id := (n, now + pg_cacheTTL pg)]> (pg_cache pg)) (pg_cacheTTL pg)).
Proof. intros Hc Hn. unfold PGStore_GetNode, query_node. by rewrite Hc, Hn. Qed.

(** The first heartbeat of a registered node. *)
Lemma heartbeat_activates st id n hb t :
  trimmed id = id → id ≠ "" → pg_cache (cp_pg (api_cp st)) !! id = None → nodes_of st !! id = Some n →
  n_Status n = NodeStatusRegistered → RedisStore_IsNodeRevoked true (cp_redis (api_cp st)) id t = false → hb_NodeID hb = id →
  let '(r, st') := handleHeartbeat true true hb_fine t st (Body hb) in
  r = RStatus "ok" ∧
  nodes_of st' = <[id := set_status NodeStatusActive t (set_seen t n)]> (nodes_of st) ∧
  hb_alive (cp_redis (api_cp st')) id t = bool_decide (0 < cp_HeartbeatTTL (api_cp st)).
Proof.
  intros Ht Hne Hc Hn Hreg Hrev Hid. unfold handleHeartbeat. cbn [decodeJSON]. rewrite Hid, Ht, (proj2 (String.eqb_neq _ _) Hne).
  rewrite (get_uncached _ _ _ _ Hc Hn). cbn [api_cp with_pgstore with_cp with_pg cp_redis].
  unfold Heartbeat_ProcessHeartbeat. cbn [cp_redis with_pg]. rewrite Hrev. unfold Heartbeat_processOne.
  cbn -[PGStore_GetNode]. rewrite (get_uncached _ _ _ (set_seen t n)); cbn.
  2: by rewrite lookup_delete_eq.
  2: { unfold nodes_of in Hn. by rewrite lookup_alter_eq, Hn. }
  rewrite Hreg. rewrite (bool_decide_eq_false_2 (NodeStatusRegistered = NodeStatusDisabled)),
    (bool_decide_eq_false_2 (NodeStatusRegistered = NodeStatusMaintenance)),
    (bool_decide_eq_true_2 (NodeStatusRegistered = NodeStatusRegistered)) by done.
  cbn. rewrite lookup_alter_eq. unfold nodes_of in Hn. rewrite Hn. cbn.
  assert (Halt : alter (set_status NodeStatusActive t) id (alter (set_seen t) id (pg_nodes (cp_pg (api_cp st)))) =
    <[id := set_status NodeStatusActive t (set_seen t n)]> (pg_nodes (cp_pg (api_cp st)))).
  { apply map_eq. intros i. destruct (decide (i = id)) as [->|].
    - by rewrite lookup_insert_eq, !lookup_alter_eq, Hn.
    - by rewrite lookup_insert_ne, !lookup_alter_ne by done. }
  assert (Halive : hb_alive (mkRedisStore (<[id := (hb_TS hb, t + cp_HeartbeatTTL (api_cp st))]> (rd_heartbeats (cp_redis (api_cp st))))
      (rd_revoked (cp_redis (api_cp st)))) id t = bool_decide (0 < cp_HeartbeatTTL (api_cp st))).
  { unfold hb_alive. cbn [rd_heartbeats]. rewrite lookup_insert_eq. case_bool_decide; [apply Z.ltb_lt|apply Z.ltb_ge]; lia. }
  destruct (cp_content (api_cp st)), (hb_ContentSummary hb); (split; [done|split; [exact Halt|exact Halive]]).
Qed.

(** The summary of the report can be built (a panic of the filter aside). *)
Definition summary_built (io : reportIO) (id : string) (a : agent) : Prop :=
  ∃ sm, Reporter_buildContentSummary (rp_log io) (rp_visit io) id (rp_now io / sec) (sv_cache (ag_server a)) = Ok sm.

(** The row of the agent after its first report. *)
Definition joined_row (pl : placeIO) (cfg : EdgeAgentConfig) (id : string) (t1 t2 : Z) : Node :=
  let req := register_request pl cfg in
  set_status NodeStatusActive t2 (set_seen t2
    (new_row id (mkRegisterRequest "edge-agent" (rr_Endpoints req) (trimmed (rr_Region req)) (trimmed (rr_ISP req)) "" ""
       (collectCapabilities cfg)) t1)).

Lemma register_request_parts pl cfg :
  rr_NodeName (register_request pl cfg) = "edge-agent" ∧ rr_TenantID (register_request pl cfg) = "" ∧
  rr_ProjectID (register_request pl cfg) = "" ∧ rr_Capabilities (register_request pl cfg) = collectCapabilities cfg.
Proof. unfold register_request. by case_match. Qed.

Lemma joins pl io id token t1 t2 a st :
  fresh_id st id t2 → summary_built io id a →
  let '(r1, r2, a', st') := register_and_report pl io id token t1 t2 a st in
  r1 = Ok tt ∧ r2 = Ok tt ∧ ag_nodeID a' = id ∧ ag_cfg a' = ag_cfg a ∧
  nodes_of st' = <[id := joined_row pl (ag_cfg a) id t1 t2]> (nodes_of st) ∧
  hb_alive (cp_redis (api_cp st')) id t2 = bool_decide (0 < cp_HeartbeatTTL (api_cp st)).
Proof.
  intros [[Ht Hne] Hnew Hunc Hrev] [sm Hsm]. unfold register_and_report, Reporter_Register, register_at.
  cbn [po_Body]. unfold handleRegister. cbn [decodeJSON]. destruct (register_request_parts pl (ag_cfg a)) as (E1 & E2 & E3 & E4).
  cbn [rr_NodeName]. rewrite E1, E2, E3, E4. unfold Registry_Register, PGStore_CreateNode. unfold nodes_of in Hnew. rewrite Hnew.
  cbn [negb rr_NodeName String.eqb trimmed]. change (trimmed "edge-agent") with "edge-agent".
  cbn [String.eqb]. unfold Reporter_ReportOnce. cbn [SetNodeID n_NodeID new_row ag_nodeID ag_server ag_cfg ag_meter]. rewrite (proj2 (String.eqb_neq _ _) Hne).
  destruct (GetMetricsDelta (ag_server a)) as [[[requests bytesSent] errors] server] eqn:Hd.
  assert (Hcache : sv_cache server = sv_cache (ag_server a)).
  { revert Hd. unfold GetMetricsDelta. destruct (sv_lastSnapshot _) as [[? ?] ?]. by intros [= _ _ _ <-]. }
  destruct (BandwidthMeter_Snapshot _ _ _) as [[ingress egress] meter]. rewrite Hcache.
  cbn [set_agent_server SetNodeID ag_nodeID ag_cfg n_NodeID new_row]. rewrite Hsm. unfold heartbeat_at. cbn [po_Body hbt_NodeID hbt_TS hbt_ContentSummary].
  match goal with |- context [handleHeartbeat true true hb_fine t2 ?st1 (Body ?hb)] =>
    pose proof (heartbeat_activates st1 id (new_row id (mkRegisterRequest "edge-agent" (rr_Endpoints (register_request pl (ag_cfg a)))
      (trimmed (rr_Region (register_request pl (ag_cfg a)))) (trimmed (rr_ISP (register_request pl (ag_cfg a)))) "" ""
      (collectCapabilities (ag_cfg a))) t1) hb t2 Ht Hne Hunc) as Hact;
    destruct (handleHeartbeat true true hb_fine t2 st1 (Body hb)) as [r st']
  end.
  destruct Hact as (-> & Hrow & Halive); [by apply lookup_insert_eq|done|exact Hrev|done|].
  cbn [reply_status Z.leb Z.compare Pos.compare Pos.compare_cont]. unfold set_agent_server. cbn [ag_nodeID ag_cfg].
  split_and!; try done. etrans; [exact Hrow|]. unfold nodes_of. cbn. by rewrite insert_insert_eq.
Qed.

(** The nodes a dispatch chooses from. *)
Definition listed_nodes (st : ApiState) : list Node :=
  match PGStore_ListActiveNodes true (cp_pg (api_cp st)) with Ok l => l | _ => [] end.

Lemma joined_listed st id n : nodes_of st !! id = Some n → n_Status n = NodeStatusActive → active_view n ∈ listed_nodes st.
Proof.
  intros Hn Hs. unfold listed_nodes, PGStore_ListActiveNodes. cbn [negb]. apply list_elem_of_fmap. exists n. split; [done|].
  apply list_elem_of_filter. split; [unfold listed; by rewrite Hs, bool_decide_eq_true_2|].
  apply list_elem_of_fmap. exists (id, n). split; [done|]. by apply elem_of_map_to_list.
Qed.


(** Disabling a node does not survive a restart of its agent: an agent whose
    node is disabled registers anew when it is started again, as another node with the same
    address, and after its first report that node is among those dispatches choose from,
    while the disabled row stays as it was. *)
Theorem disabled_agent_returns pl io old oldrow id token t1 t2 a st :
  nodes_of st !! old = Some oldrow → n_Status oldrow = NodeStatusDisabled →
  n_Endpoints oldrow = rr_Endpoints (register_request pl (ag_cfg a)) →
  fresh_id st id t2 → summary_built io id a →
  let '(r1, r2, a', st') := register_and_report pl io id token t1 t2 a st in
  r1 = Ok tt ∧ r2 = Ok tt ∧ nodes_of st' !! old = Some oldrow ∧
  ∃ n, n ∈ listed_nodes st' ∧ n_NodeID n = id ∧ n_Endpoints n = n_Endpoints oldrow.
Proof.
  intros Hold Hdis Hep Hf Hs. pose proof (joins pl io id token t1 t2 a st Hf Hs) as H.
  destruct (register_and_report pl io id token t1 t2 a st) as [[[r1 r2] a'] st'].
  destruct H as (-> & -> & _ & _ & Hrow & _). split; [done|]. split; [done|]. rewrite Hrow. split.
  - rewrite lookup_insert_ne; [done|]. intros ->. destruct Hf as [_ Hnew _ _]. congruence.
  - exists (active_view (joined_row pl (ag_cfg a) id t1 t2)). split_and!; [|done|by rewrite Hep].
    apply (joined_listed _ id); [|done]. by rewrite Hrow, lookup_insert_eq.
Qed.

(** An agent behind a NAT is never dispatched through its tunnel: also with NAT
    mode configured its row says that it is reachable and needs no tunnel, so that whatever
    scores the probes give it and whether or not its tunnel is connected, the scheduler keeps
    it exactly if its reachability score is at least 10, and a candidate made of it is
    announced for direct access. *)
Theorem nat_agent_dispatched_directly {CI : Type} `{ContentIndexLookup CI} {SG : Type} `{TokenSigner SG}
    (sch : Scheduler CI SG) pl io id token t1 t2 a st scores t req :
  eac_NATMode (ag_cfg a) = true → fresh_id st id t2 → summary_built io id a →
  let '(r1, r2, a', st') := register_and_report pl io id token t1 t2 a st in
  ∃ n, nodes_of st' !! id = Some n ∧
    let probed := set_scores scores t n in
    filter_keep sch probed = fleb (float_of_Z 10) (ns_ReachableScore scores) ∧
    cm_ProxyMode (cand_Meta (candidate_of (scored_of sch req probed))) = "direct".
Proof.
  intros _ Hf Hs. pose proof (joins pl io id token t1 t2 a st Hf Hs) as Hj.
  destruct (register_and_report pl io id token t1 t2 a st) as [[[r1 r2] a'] st'].
  destruct Hj as (_ & _ & _ & _ & Hrow & _). eexists. split; [by rewrite Hrow, lookup_insert_eq|]. split.
  - unfold filter_keep. cbn [set_scores joined_row set_status n_Status n_Capabilities n_Scores set_seen new_row rr_Capabilities
      collectCapabilities cap_InboundReachable]. by rewrite !bool_decide_eq_false_2.
  - unfold scored_of. destruct (lookup_content _ _) as [hot bloom]. reflexivity.
Qed.

(** ** The meter *)

(** The bytes that went out and are in the figures of a snapshot. *)
Definition snapshot_bytes (s : Server) (b : BandwidthMeter) : Z := i64 (sv_bwOut s - bm_lastOut b).

(** Snapshots one after the other, of whatever caller. *)
Fixpoint snapshots (l : list (Z * Server)) (b : BandwidthMeter) : list Z * BandwidthMeter :=
  match l with
  | [] => ([], b)
  | (now, s) :: l =>
      let '(bs, b') := snapshots l (BandwidthMeter_Snapshot now s b).2 in (snapshot_bytes s b :: bs, b')
  end.

Lemma snapshot_last now s b : bm_lastOut (BandwidthMeter_Snapshot now s b).2 = sv_bwOut s.
Proof. unfold BandwidthMeter_Snapshot. by destruct (if fltb _ _ then _ else _). Qed.

(** Every byte is counted by exactly one snapshot: they add up to what was sent. *)
Lemma snapshots_telescope l now s b :
  0 ≤ bm_lastOut b < 2 ^ 63 → Forall (λ x, 0 ≤ sv_bwOut x.2 < 2 ^ 63) (l ++ [(now, s)]) →
  foldr Z.add 0 (snapshots (l ++ [(now, s)]) b).1 = sv_bwOut s - bm_lastOut b.
Proof.
  revert b. induction l as [|[t x] l IH]; intros b Hb Hall; cbn [app snapshots].
  - apply (proj1 (Forall_singleton _ _)) in Hall. cbn in *. unfold snapshot_bytes. rewrite i64_id by (unfold is_i64; lia). lia.
  - apply Forall_cons in Hall as [Hx Hall]. cbn [snd] in Hx.
    specialize (IH (BandwidthMeter_Snapshot t x b).2). rewrite snapshot_last in IH. specialize (IH Hx Hall).
    destruct (snapshots (l ++ [(now, s)]) _) as [bs b']. cbn [fst] in *. cbn. rewrite IH. unfold snapshot_bytes.
    rewrite i64_id by (unfold is_i64; lia). lia.
Qed.

(** ** A concrete run *)
Definition demo_cfg : EdgeAgentConfig :=
  LoadEdgeAgent demo_parsers {["EA_PUBLIC_HOST" := "203.0.113.7"; "EA_REGION" := "eu"; "EA_ISP" := "isp"; "EA_NAT_MODE" := "true"]}.
Definition demo_agent : agent := mkAgent demo_cfg (demo_edge demo_cache) (NewBandwidthMeter 0) "" false.
Definition demo_place : placeIO := mkPlaceIO [] (λ _, None).
Definition demo_report : reportIO := mkReportIO (5 * sec) 0 8 4 (λ x, x) map_to_list.
Definition demo_joined : result unit * result unit * agent * ApiState :=
  register_and_report demo_place demo_report "n9" "tok" 5 6 demo_agent Api.demo_api.

Lemma demo_fresh : fresh_id Api.demo_api "n9" 6.
Proof. split; [split; [vm_compute; reflexivity|discriminate]|vm_compute; reflexivity..]. Qed.
Lemma demo_summary_built : summary_built demo_report "n9" demo_agent.
Proof. exists None. vm_compute. reflexivity. Qed.


(** The node "n1" of the table gets the address of the agent and is disabled. *)
Definition demo_old : Node :=
  set_admin NodeStatusDisabled "broken" None 4 (new_row "n1" (register_request demo_place demo_cfg) 1).
Definition demo_banned : ApiState :=
  with_pgstore Api.demo_api (set_nodes (cp_pg (api_cp Api.demo_api)) {["n1" := demo_old]}).

Lemma disabled_agent_returns_witness :
  ∃ n, n ∈ listed_nodes (register_and_report demo_place demo_report "n9" "tok" 5 6 demo_agent demo_banned).2 ∧
    n_Endpoints n = n_Endpoints demo_old.
Proof.
  assert (Hfresh : fresh_id demo_banned "n9" 6) by (split; [split; [vm_compute; reflexivity|discriminate]|vm_compute; reflexivity..]).
  pose proof (disabled_agent_returns demo_place demo_report "n1" demo_old "n9" "tok" 5 6 demo_agent demo_banned
    ltac:(vm_compute; reflexivity) eq_refl ltac:(vm_compute; reflexivity) Hfresh demo_summary_built) as H.
  destruct (register_and_report _ _ _ _ _ _ _ _) as [[[r1 r2] a'] st'].
  destruct H as (_ & _ & _ & n & Hin & _ & Hep). exists n. split; [exact Hin|exact Hep].
Defined.

Lemma nat_agent_dispatched_directly_witness :
  ∃ n, nodes_of demo_joined.2 !! "n9" = Some n ∧
    filter_keep demo_sched (set_scores (mkNodeScores (float_of_Z 50) fzero fzero) 7 n) = true.
Proof.
  pose proof (nat_agent_dispatched_directly demo_sched demo_place demo_report "n9" "tok" 5 6 demo_agent Api.demo_api
    (mkNodeScores (float_of_Z 50) fzero fzero) 7 demo_req ltac:(vm_compute; reflexivity) demo_fresh demo_summary_built) as H.
  unfold demo_joined. destruct (register_and_report _ _ _ _ _ _ _ _) as [[[r1 r2] a'] st'].
  destruct H as (n & Hn & Hk & _). exists n. split; [exact Hn|]. rewrite Hk. vm_compute. reflexivity.
Defined.
