(* ===== verification/EdgeProxy.v ===== *)
(** * Relaying WebSocket and gRPC ([internal/edgeagent/proxy.go])

    A request that [handleObject] takes for a WebSocket handshake or a gRPC call is relayed
    to the origin.  Headers are lists of names and values.  What the two connections carry
    and what [http.ReadResponse] makes of a stream are arguments; it is a function of the
    stream alone, and an empty stream is no response ([read_empty]).

    The theorems: a WebSocket client that waits for the answer to its handshake gets none,
    because the answer is awaited on the client's own connection, the origin is never asked
    for an upgrade, and a client that accepts br or gzip gets status 500; a gRPC call is
    refused before it reaches the proxy; a relayed GET answer is passed on unchanged. *)

From S2P Require Import Prelude GoStrings NetAddr GoHash GoFloat StreamKeys SlidingWindow EdgeCache.
From S2P Require Import Manifest Fetcher Prefetch Tokens EdgeServer EdgeHTTP.
From Stdlib Require Import Ascii.

Abbreviation headers := (list (string * string)).

Definition same_name (a b : string) : bool := bool_decide (lower a = lower b).
(** [Header.Get] and [Header.Set]. *)
Definition header_get (h : headers) (name : string) : string :=
  match filter (λ x, same_name x.1 name = true) h with x :: _ => x.2 | [] => "" end.
Definition header_set (h : headers) (name value : string) : headers :=
  filter (λ x, same_name x.1 name = false) h ++ [(name, value)].

(** A configured proxy: its origin and the node token. *)
Record proxyConfig := mkProxyConfig { pc_origin : option URL; pc_nodeToken : string }.

Definition ProxyHandler_buildURL (p : proxyConfig) (key : string) : option URL :=
  match pc_origin p with
  | None => None
  | Some base =>
      Some (mkURL (u_Host base)
        (of_chars (trim_suffix [slash] (to_chars (u_Path base)) ++ to_chars "/obj/" ++ to_chars key)))
  end.

(** A relayed request. *)
Record relayed := mkRelayed { rl_Method : string; rl_URL : URL; rl_Headers : headers }.

Definition relay_headers (p : proxyConfig) (src : headers) (remote : string) (extra : headers) : headers :=
  let h := ProxyHandler_copyHeaders src ++ extra in
  let h := if String.eqb (pc_nodeToken p) "" then h else header_set h "Authorization" (String.append "Bearer " (pc_nodeToken p)) in
  header_set h "X-Forwarded-For" remote.

(** ** WebSocket *)

(** The circumstances: can the request be built, the origin reached and written to; can the
    writer be hijacked, and does it succeed; what the client sends after its request, and
    what the origin sends; the parser gives a status, the bytes [Response.Write] makes of
    the response, and the rest of the stream. *)
Record wsIO := mkWsIO {
  ws_request_ok : bool;
  ws_dial_ok : bool;
  ws_write_ok : bool;
  ws_hijack_ok : bool;
  ws_client : bytes;
  ws_origin : bytes;
  ws_relayed : bytes;             (* what the client sends after an answer *)
  ws_read : bytes → option (Z * bytes)
}.

Inductive wsOutcome :=
| WsRefused (resp : response)                       (* answered as a plain response *)
| WsRelayed (sent : option relayed) (to_client : bytes) (to_origin : bytes).

Definition bad_gateway : wsOutcome := WsRefused (http_Error "bad gateway" 502).

(** [hijackable] holds for the writer of [net/http] and not for [compressedResponseWriter],
    which has no [Hijack] method. *)
Definition HandleWebSocket (io : wsIO) (hijackable : bool) (p : proxyConfig) (method remote : string) (src : headers) (key : string)
    : wsOutcome :=
  match ProxyHandler_buildURL p key with
  | None => bad_gateway
  | Some u =>
      if negb (ws_request_ok io) then bad_gateway
      else
        let req := mkRelayed method u (relay_headers p src remote []) in
        if negb (ws_dial_ok io) then bad_gateway
        else if negb (ws_write_ok io) then bad_gateway
        else if negb hijackable then WsRefused (http_Error "websocket not supported" 500)
        else if negb (ws_hijack_ok io) then WsRefused (http_Error "internal error" 500)
        else
          (* the response of the origin is read from the connection of the client *)
          match ws_read io (ws_client io) with
          | None => WsRelayed (Some req) [] []
          | Some (status, text) =>
              if negb (status =? 101) then WsRelayed (Some req) text []
              else WsRelayed (Some req) (text ++ ws_origin io) (ws_relayed io)
          end
  end.

(** ** gRPC *)

(** The answer of the origin: status, headers, body, trailers. *)
Record grpcAnswer := mkGrpcAnswer { ga_status : Z; ga_headers : headers; ga_body : respBody; ga_trailer : headers }.

Record grpcIO := mkGrpcIO { gi_request_ok : bool; gi_do : option grpcAnswer; gi_copy : copyFate }.

Definition HandleGRPC (io : grpcIO) (p : proxyConfig) (method remote : string) (src : headers) (key : string)
    : option relayed * (response + (Z * headers * bytes * headers)) :=
  match ProxyHandler_buildURL p key with
  | None => (None, inl (http_Error "bad gateway" 502))
  | Some u =>
      if negb (gi_request_ok io) then (None, inl (http_Error "bad gateway" 502))
      else
        let h := header_set (ProxyHandler_copyHeaders src) "Te" "trailers" in
        let h := if String.eqb (pc_nodeToken p) "" then h else header_set h "Authorization" (String.append "Bearer " (pc_nodeToken p)) in
        let req := mkRelayed method u (header_set h "X-Forwarded-For" remote) in
        match gi_do io with
        | None => (Some req, inl (http_Error "bad gateway" 502))
        | Some a =>
            let out := ProxyHandler_copyHeaders (ga_headers a) in
            let out := header_set out "Trailer" "Grpc-Status, Grpc-Message, Grpc-Status-Details-Bin" in
            let c := io_Copy (gi_copy io) (ga_body a) in
            let trailer := if String.eqb (header_get (ga_trailer a) "Grpc-Status") "" then [] else ga_trailer a in
            (Some req, inr (ga_status a, out, cp_written c, trailer))
        end
  end.

(** [ServeHTTP] as a choice. *)
Inductive proxied := ProxiedWs (o : wsOutcome) | ProxiedGrpc (x : option relayed * (response + (Z * headers * bytes * headers))) | NotProxied.
Definition Proxy_ServeHTTP (wio : wsIO) (gio : grpcIO) (hijackable : bool) (ph : ProxyHandler) (p : proxyConfig)
    (r : edgeRequest) (src : headers) (key : string) : proxied :=
  if ProxyHandler_IsWebSocket ph r then ProxiedWs (HandleWebSocket wio hijackable p (er_Method r) (er_RemoteAddr r) src key)
  else if ProxyHandler_IsGRPC ph r then ProxiedGrpc (HandleGRPC gio p (er_Method r) (er_RemoteAddr r) src key)
  else NotProxied.

(** ** What is relayed *)
Definition hop_by_hop (name : string) : Prop := lower name ∈ skipped_headers.

Lemma copied_not_hop src n v : (n, v) ∈ ProxyHandler_copyHeaders src → ¬ hop_by_hop n.
Proof. unfold ProxyHandler_copyHeaders. by intros [H _]%list_elem_of_filter. Qed.

Lemma header_set_elem h name value n v : (n, v) ∈ header_set h name value → (n, v) ∈ h ∨ n = name.
Proof.
  unfold header_set. intros [[_ H]%list_elem_of_filter|H%list_elem_of_singleton]%elem_of_app; [by left|]. right. congruence.
Qed.

Lemma relay_headers_no_hop p src remote n v : (n, v) ∈ relay_headers p src remote [] → ¬ hop_by_hop n.
Proof.
  unfold relay_headers. rewrite app_nil_r. assert (Hset : ∀ m, m = "X-Forwarded-For" ∨ m = "Authorization" → ¬ hop_by_hop m).
  { unfold hop_by_hop. intros m [-> | ->]; vm_compute; intros H; repeat (apply elem_of_cons in H as [H|H]; [discriminate H|]); by apply elem_of_nil in H. }
  intros [H|H]%header_set_elem; [|subst; auto]. destruct (String.eqb (pc_nodeToken p) ""); [by eapply copied_not_hop|].
  apply header_set_elem in H as [H|H]; [by eapply copied_not_hop|subst; auto].
Qed.

(** Which writer the proxy gets behind the middleware. *)
Definition proxy_writer_hijackable (gzip brotli : codec) (ae : string) : bool :=
  match accepted_codec gzip brotli ae with None => true | Some _ => false end.

Section proxy.
Context (ParseFloat : string → option float64) (format_verbs : chars → Z → chars)
        (xml_Unmarshal : bytes → option mpdRoot) (env_max : Z).
Local Abbreviation handle := (handleObject ParseFloat format_verbs xml_Unmarshal env_max).

(** No WebSocket is ever opened through the edge: whatever the origin sends, a
    client that waits for the answer to its handshake receives no byte, since the answer is
    read from the client's own connection; the request the origin gets carries no Upgrade
    and no Connection header, so that it is not asked for a WebSocket at all; and for a
    client that accepts br or gzip the answer is 500 instead. *)
Theorem websocket_never_answered gzip brotli ae io ph p r src key :
  ws_read io [] = None → ws_client io = [] → ProxyHandler_IsWebSocket ph r = true →
  ∃ o, Proxy_ServeHTTP io (mkGrpcIO true None None) (proxy_writer_hijackable gzip brotli ae) ph p r src key = ProxiedWs o ∧
  match o with
  | WsRefused resp => 500 ≤ rs_status resp
  | WsRelayed sent to_client to_origin =>
      accepted_codec gzip brotli ae = None ∧ to_client = [] ∧ to_origin = [] ∧
      ∀ req n v, sent = Some req → (n, v) ∈ rl_Headers req → ¬ hop_by_hop n
  end.
Proof.
  intros Hread Hclient Hws. unfold Proxy_ServeHTTP. rewrite Hws. eexists. split; [done|].
  unfold HandleWebSocket. destruct (ProxyHandler_buildURL p key) as [u|]; [|done].
  destruct (ws_request_ok io); [|done]. destruct (ws_dial_ok io); [|done]. destruct (ws_write_ok io); [|done].
  unfold proxy_writer_hijackable. destruct (accepted_codec gzip brotli ae); [done|]. cbn [negb].
  destruct (ws_hijack_ok io); [|done]. rewrite Hclient, Hread. split_and!; [done..|].
  intros req n v [= <-]. apply relay_headers_no_hop.
Qed.

(** A gRPC call, which is a POST request, is refused before the proxy is asked. *)
Lemma grpc_call_refused io s r :
  er_Method r = "POST" → (handle io s r).1 = http_Error "method not allowed" 405 ∧ sv_jobs (handle io s r).2 = sv_jobs s.
Proof.
  intros Hm. unfold handleObject. fold (admitted s r). rewrite Hm. cbn [String.eqb Ascii.eqb Bool.eqb negb andb].
  split; [done|]. exact (ss_jobs _ _ (admitted_same s r)).
Qed.
End proxy.

(** What the origin answers to a relayed call is passed on: status, body, and the trailers if
    there is a gRPC status among them. *)
Lemma grpc_relayed io p method remote src key u a :
  ProxyHandler_buildURL p key = Some u → gi_request_ok io = true → gi_do io = Some a → gi_copy io = None →
  ∃ req out, HandleGRPC io p method remote src key =
    (Some req, inr (ga_status a, out, body_data (ga_body a),
       if String.eqb (header_get (ga_trailer a) "Grpc-Status") "" then [] else ga_trailer a)) ∧
    rl_URL req = u ∧ rl_Method req = method.
Proof.
  intros Hu Hr Ha Hc. unfold HandleGRPC. rewrite Hu, Hr, Ha, Hc. eexists _, _. split; [reflexivity|done].
Qed.

(** ** A concrete handshake *)
Definition demo_proxy : proxyConfig := mkProxyConfig (Some (mkURL "http://origin:7070" "/")) "secret".
Definition demo_ws_req : edgeRequest :=
  mkEdgeRequest "GET" "/obj/chat" "Bearer t" "" "" "" "" "203.0.113.9:4711" 0 "websocket" "Upgrade" "".
Definition demo_ws_headers : headers :=
  [("Upgrade", "websocket"); ("Connection", "Upgrade"); ("Sec-WebSocket-Key", "x3JJHMbDL1EzLkh9GBhXDw==")].
Definition demo_ws_io : wsIO :=
  mkWsIO true true true true [] (bytes_of_string "HTTP/1.1 101 Switching Protocols") [] (λ b, if bool_decide (b = []) then None else Some (101, b)).

Example demo_relayed_headers :
  (relay_headers demo_proxy demo_ws_headers "203.0.113.9:4711" []).*1 = ["Sec-WebSocket-Key"; "Authorization"; "X-Forwarded-For"].
Proof. vm_compute. reflexivity. Qed.

Lemma websocket_never_answered_witness :
  ∃ sent, Proxy_ServeHTTP demo_ws_io (mkGrpcIO true None None) true (mkProxyHandler true true) demo_proxy demo_ws_req demo_ws_headers "chat"
    = ProxiedWs (WsRelayed sent [] []).
Proof.
  destruct (websocket_never_answered demo_gzip demo_br "" demo_ws_io (mkProxyHandler true true) demo_proxy demo_ws_req demo_ws_headers
    "chat" eq_refl eq_refl eq_refl) as (o & Ho & H).
  assert (Hj : proxy_writer_hijackable demo_gzip demo_br "" = true) by reflexivity. rewrite Hj in Ho. rewrite Ho.
  destruct o as [resp|sent c t].
  - exfalso. vm_compute in Ho. discriminate Ho.
  - destruct H as (_ & -> & -> & _). exists sent. reflexivity.
Defined.
