(* ===== verification/ApiRoutes.v ===== *)
(** * The routes of the control plane ([NewAPI] and its middleware in
      [internal/controlplane/api.go], [main] in [cmd/control-plane/main.go])

    The handlers of [Api] and [ConfigManager] behind what a request passes first: the rate
    limiter, the API key, the signatures of the admin routes.  The router of the chi library
    is not the program's: a request comes with the route it matches.  The circumstances of a
    call, its clocks and the failures of the stores, come with the route.

    The theorems: nothing behind the API key is done or shown without it; an edge node that
    could register accepts the tokens of the dispatcher; the signed admin routes are never
    reached. *)

From S2P Require Import Prelude GoStrings GoFloat GoHash NetAddr ContentIndex Models NodeCache Scheduler NodeLifecycle.
From S2P Require Import Policy AdminAuth Api RateLimiter EdgeCache Manifest Fetcher Prefetch Tokens EdgeServer ConfigManager Config.
From S2P Require Import Reporter LocalConfig.
From Stdlib Require Import Ascii.

(** ** The API key *)
Record apiKeyAuth := mkApiKeyAuth { ak_validKeys : gset string; ak_enabled : bool }.

Definition newAPIKeyAuth (secret : string) : apiKeyAuth :=
  if String.eqb secret "" then mkApiKeyAuth ∅ false else mkApiKeyAuth {[secret]} true.

Definition bearer : chars := to_chars "Bearer ".

(** [None] lets the request through. *)
Definition apiKeyAuth_middleware (a : apiKeyAuth) (auth : string) : option (Z * string) :=
  if negb (ak_enabled a) then None
  else if String.eqb auth "" || negb (has_prefix bearer (to_chars auth)) then Some (401, "UNAUTHORIZED")
  else if bool_decide (of_chars (trim_prefix bearer (to_chars auth)) ∈ ak_validKeys a) then None
  else Some (403, "FORBIDDEN").

(** ** The server *)
Record apiServer := mkApiServer {
  as_api : ApiState;
  as_sb : sbConfig;                 (* [cfg.SmallBandwidthOptimization] *)
  as_global : option GlobalConfig;  (* the stored configuration *)
  as_limiter : rateLimiter;
  as_admin : option internalAuth
}.
Definition set_api (st : apiServer) (a : ApiState) : apiServer :=
  mkApiServer a (as_sb st) (as_global st) (as_limiter st) (as_admin st).
Definition set_limiter (st : apiServer) (rl : rateLimiter) : apiServer :=
  mkApiServer (as_api st) (as_sb st) (as_global st) rl (as_admin st).
Definition set_admin_auth (st : apiServer) (a : internalAuth) : apiServer :=
  mkApiServer (as_api st) (as_sb st) (as_global st) (as_limiter st) (Some a).

(** The part the handlers of [ConfigManager] see; the node list is the scheduler's. *)
Definition config_of (st : apiServer) : ConfigState :=
  mkConfigState (as_sb st) (as_global st) (st_nodeCache (api_sched (as_api st))).
Definition set_config (st : apiServer) (c : ConfigState) : apiServer :=
  mkApiServer (with_sched (as_api st) (mkSchedState (cs_cache c) (st_requestSeq (api_sched (as_api st)))))
    (cs_sb c) (cs_redis c) (as_limiter st) (as_admin st).

Inductive apiReply :=
| AReply (r : reply)
| AConfig (c : configReply)
| AHealth (status pg redis : string)
| AMetrics.

Definition api_status (r : apiReply) : Z :=
  match r with
  | AReply r => reply_status r
  | AConfig (CError status _) => status
  | _ => 200
  end.

(** What the middleware reads of a request. *)
Record apiRequest := mkApiRequest { aq_http : httpRequest; aq_Authorization : string; aq_signed : internalRequest }.

(** The routes behind the API key, with what their handlers get. *)
Inductive keyedCall :=
| KRegister (db_ok : bool) (nodeID token : string) (body : requestBody RegisterRequest)
| KHeartbeat (get_ok redis_ok : bool) (io : hbIO) (body : requestBody HeartbeatRequest)
| KGetNode (db_ok : bool) (nodeID : string)
| KRevokeNode (db_ok : bool) (nodeID : string)
| KDispatch (t : Clock) (db_ok : bool) (body : requestBody DispatchRequest)
| KPrewarm (url_ok connects : string → bool) (finish : list nodeResult → list nodeResult) (db_ok : bool) (now' : Z)
    (body : option (list string * string))
| KObject (t : Clock) (db_ok : bool) (rawKey : string).

(** The signed routes below [/internal/admin/v1]. *)
Inductive signedCall :=
| SDisable (get_ok update_ok : bool) (nodeID : string) (body : option string)
| SEnable (get_ok update_ok : bool) (nodeID : string)
| SRevoke (db_ok : bool) (nodeID : string)
| SGetConfig
| SUpdateConfig (redis_ok : bool) (body : option GlobalConfig)
| SApplyConfig (redis_ok : bool)
| STopology (db_ok : bool) (now' : Z)
| SDashboard (db_ok : bool) (now' : Z)
| SPrewarm (url_ok connects : string → bool) (finish : list nodeResult → list nodeResult) (db_ok : bool) (now' : Z)
    (body : option (list string * string)).

(** The route a request matches; the texts are the errors of the health checks. *)
Inductive apiRoute :=
| RtKeyed (c : keyedCall)
| RtSigned (c : signedCall)
| RtHealthz (pg redis : option string)
| RtMetrics
| RtNone.

Definition handleHealthz (pg redis : option string) : apiReply :=
  let shown e := match e with None => "ok" | Some e => String.append "error: " e end in
  AHealth (match pg, redis with None, None => "ok" | _, _ => "degraded" end) (shown pg) (shown redis).

Section serve.
Context {CI : Type} `{ContentIndexLookup CI} {SG : Type} `{TokenSigner SG}.

(** The scheduler reads the configuration the page changes. *)
Definition sched_now (s : Scheduler CI SG) (st : apiServer) : Scheduler CI SG :=
  mkScheduler (sc_contentIndex s) (sc_signer s) (sched_settings (as_sb st) (sc_cfg s)) (sc_tunnelMgr s) (sc_streamStrat s).

Definition api_answer (st : apiServer) (x : reply * ApiState) : result apiReply * apiServer :=
  (Ok (AReply x.1), set_api st x.2).
Definition config_answer (st : apiServer) (x : configReply * ConfigState) : result apiReply * apiServer :=
  (Ok (AConfig x.1), set_config st x.2).

Definition active_rows (db_ok : bool) (st : apiServer) : result (list Node) :=
  PGStore_ListActiveNodes db_ok (cp_pg (api_cp (as_api st))).

(** [Panic]: a goroutine of the handler ends the process. *)
Definition run_prewarm (url_ok connects : string → bool) (finish : list nodeResult → list nodeResult) (db_ok : bool)
    (now now' : Z) (body : option (list string * string)) (st : apiServer) : result apiReply * apiServer :=
  let '(r, c) := handleAdminPrewarm url_ok connects true body finish now (active_rows db_ok st) now' (config_of st) in
  ((let! r := r in Ok (AConfig r)), set_config st c).

Definition run_keyed (s : Scheduler CI SG) (now : Z) (q : apiRequest) (c : keyedCall) (st : apiServer)
    : result apiReply * apiServer :=
  let a := as_api st in
  match c with
  | KRegister db_ok nodeID token body => api_answer st (handleRegister db_ok nodeID token now a body)
  | KHeartbeat get_ok redis_ok io body => api_answer st (handleHeartbeat get_ok redis_ok io now a body)
  | KGetNode db_ok nodeID => api_answer st (handleGetNode db_ok now a nodeID)
  | KRevokeNode db_ok nodeID => api_answer st (handleRevokeNode db_ok a nodeID)
  | KDispatch t db_ok body => api_answer st (handleDispatch (sched_now s st) t db_ok a (aq_http q) body)
  | KPrewarm url_ok connects finish db_ok now' body => run_prewarm url_ok connects finish db_ok now now' body st
  | KObject t db_ok rawKey => api_answer st (handleObjectIngress (sched_now s st) t db_ok a (aq_http q) rawKey)
  end.

Definition run_signed (now : Z) (c : signedCall) (st : apiServer) : result apiReply * apiServer :=
  let a := as_api st in
  match c with
  | SDisable get_ok update_ok nodeID body => api_answer st (handleAdminDisableNode get_ok update_ok now a nodeID body)
  | SEnable get_ok update_ok nodeID => api_answer st (handleAdminEnableNode get_ok update_ok now a nodeID)
  | SRevoke db_ok nodeID => api_answer st (handleAdminRevokeNode db_ok a nodeID)
  | SGetConfig => config_answer st (handleAdminGetConfig (config_of st))
  | SUpdateConfig redis_ok body => config_answer st (handleAdminUpdateConfig redis_ok (config_of st) body)
  | SApplyConfig redis_ok => config_answer st (handleAdminApplyConfig redis_ok (config_of st))
  | STopology db_ok now' => config_answer st (handleAdminP2PTopology now (active_rows db_ok st) now' (config_of st))
  | SDashboard db_ok now' => config_answer st (handleAdminDashboard now (active_rows db_ok st) now' (config_of st))
  | SPrewarm url_ok connects finish db_ok now' body => run_prewarm url_ok connects finish db_ok now now' body st
  end.

(** The status of a refusal of [adminAuth.middleware]. *)
Definition signed_refusal (e : string) : reply :=
  if String.eqb e "client ip not allowed" || String.eqb e "invalid key id" then RError 403 "FORBIDDEN"
  else if String.eqb e "invalid timestamp" || String.eqb e "failed to read body" || String.eqb e "missing actor headers"
  then RError 400 "BAD_REQUEST"
  else RError 401 "UNAUTHORIZED".

(** The router of [NewAPI]. *)
Definition serve_api (auth : apiKeyAuth) (s : Scheduler CI SG) (now : Z) (q : apiRequest) (rt : apiRoute) (st : apiServer)
    : result apiReply * apiServer :=
  let '(allowed, rl) := rateLimiter_Allow (as_limiter st) now in
  let st := set_limiter st rl in
  if negb allowed then (Ok (AReply (RError 429 "RATE_LIMITED")), st)
  else
    match rt with
    | RtKeyed c =>
        match apiKeyAuth_middleware auth (aq_Authorization q) with
        | Some (status, code) => (Ok (AReply (RError status code)), st)
        | None => run_keyed s now q c st
        end
    | RtSigned c =>
        match as_admin st with
        | None => (Ok (AReply (RError 404 "")), st)
        | Some a =>
            let '(verdict, a) := internalAuth_middleware a now (aq_signed q) in
            let st := set_admin_auth st a in
            match verdict with
            | Ok _ => run_signed now c st
            | Err e => (Ok (AReply (signed_refusal e)), st)
            | Panic => (Ok (AReply (RError 500 "")), st)
            end
        end
    | RtHealthz pg redis => (Ok (handleHealthz pg redis), st)
    | RtMetrics => (Ok AMetrics, st)
    | RtNone => (Ok (AReply (RError 404 "")), st)
    end.
End serve.

(** [NewAPI]: the signed routes exist if the console is enabled. *)
Definition NewAPI (cfg : ControlPlaneConfig) (sb : sbConfig) (global : option GlobalConfig) (a : ApiState) (now : Z) : apiServer :=
  mkApiServer a sb global (newRateLimiter 100000 200000 now)
    (if adc_Enabled (cpc_Admin cfg)
     then Some (newAdminAuth (adc_AdminAccessKey (cpc_Admin cfg)) (adc_AdminSecretKey (cpc_Admin cfg))) else None).

(** *** The handlers of the process *)
Inductive cpTarget := ToConsole | ToPages | ToAPI.

(** [combinedHandler]; [console]: [NewAdminAPI] gave a handler, which it does if the console
    is enabled. *)
Definition combined_target (console : bool) (path : string) : cpTarget :=
  let p := to_chars path in
  if has_prefix (to_chars "/internal/admin/v1") p && console then ToConsole
  else if has_prefix (to_chars "/admin/") p || String.eqb path "/admin" then ToPages
  else ToAPI.
Definition has_console (cfg : ControlPlaneConfig) : bool := adc_Enabled (cpc_Admin cfg).

(** The router mounts the signed routes below their prefix. *)
Definition routed (path : string) (rt : apiRoute) : Prop :=
  match rt with RtSigned _ => has_prefix (to_chars "/internal/admin/v1/") (to_chars path) = true | _ => True end.

(** *** A header on its way *)

(** The client of [net/http] refuses control characters in a value, the server trims it. *)
Definition is_blank (c : ascii) : bool := bool_decide (c = ascii_of_nat 32) || bool_decide (c = ascii_of_nat 9).
Definition header_char (c : ascii) : bool :=
  is_blank c || ((32 <=? nat_of_ascii c)%nat && negb (nat_of_ascii c =? 127)%nat).
Fixpoint drop_blanks (l : chars) : chars :=
  match l with c :: l' => if is_blank c then drop_blanks l' else l | [] => [] end.
Definition trim_blanks (l : chars) : chars := rev (drop_blanks (rev (drop_blanks l))).
Definition header_arrives (v : string) : option string :=
  if forallb header_char (to_chars v) then Some (of_chars (trim_blanks (to_chars v))) else None.

(** [Reporter.Register] against the routes. *)
Definition register_through {CI SG : Type} `{ContentIndexLookup CI} `{TokenSigner SG} (auth : apiKeyAuth)
    (s : Scheduler CI SG) (db_ok : bool) (nodeID token : string) (now : Z) (http : httpRequest) (signed : internalRequest)
    (p : post RegisterRequest) (st : apiServer) : cpAnswer * apiServer :=
  match header_arrives (po_Authorization p) with
  | None => (CPFails, st)
  | Some v =>
      let '(r, st) := serve_api auth s now (mkApiRequest http v signed)
                        (RtKeyed (KRegister db_ok nodeID token (Body (po_Body p)))) st in
      (match r with
       | Ok (AReply (RRegistered id tok exp)) => CPNode id tok exp
       | Ok r => CPStatus (api_status r)
       | _ => CPFails
       end, st)
  end.

(** ** Who gets past the key *)
Lemma key_verdict secret auth :
  secret ≠ "" →
  (auth = String.append "Bearer " secret ∧ apiKeyAuth_middleware (newAPIKeyAuth secret) auth = None) ∨
  (auth ≠ String.append "Bearer " secret ∧
   ∃ status code, (status = 401 ∨ status = 403) ∧ apiKeyAuth_middleware (newAPIKeyAuth secret) auth = Some (status, code)).
Proof.
  intros Hs. unfold newAPIKeyAuth. rewrite (proj2 (String.eqb_neq _ _) Hs). unfold apiKeyAuth_middleware. cbn [ak_enabled ak_validKeys negb].
  assert (Hb : ∀ t, to_chars (String.append "Bearer " t) = bearer ++ to_chars t) by (intros t; apply to_chars_app).
  destruct (decide (auth = String.append "Bearer " secret)) as [->|Hne].
  - left. split; [done|]. rewrite Hb, has_prefix_app, trim_prefix_app, of_to_chars.
    by rewrite bool_decide_eq_true_2 by set_solver.
  - right. split; [done|]. destruct (String.eqb auth ""); cbn [orb]; [by exists 401, "UNAUTHORIZED"; auto|].
    destruct (has_prefix bearer (to_chars auth)) eqn:Hp; cbn [negb]; [|by exists 401, "UNAUTHORIZED"; auto].
    exists 403, "FORBIDDEN". split; [auto|]. rewrite bool_decide_eq_false_2; [done|].
    apply has_prefix_spec in Hp as [t Ht]. rewrite Ht, trim_prefix_app, elem_of_singleton. intros Heq.
    apply Hne. rewrite <- (of_to_chars auth), Ht, <- Heq. rewrite <- (of_to_chars (String.append _ _)), Hb. by rewrite to_of_chars.
Qed.

Section routes.
Context {CI : Type} `{ContentIndexLookup CI} {SG : Type} `{TokenSigner SG}.

Lemma keyed_runs secret (s : Scheduler CI SG) now q c st rl :
  secret ≠ "" → rateLimiter_Allow (as_limiter st) now = (true, rl) → aq_Authorization q = String.append "Bearer " secret →
  serve_api (newAPIKeyAuth secret) s now q (RtKeyed c) st = run_keyed s now q c (set_limiter st rl).
Proof.
  intros Hs Hrl Ha. unfold serve_api. rewrite Hrl. cbn [negb].
  destruct (key_verdict secret (aq_Authorization q) Hs) as [[_ ->]|[? _]]; done.
Qed.

Lemma keyed_refused secret (s : Scheduler CI SG) now q c st ok rl :
  secret ≠ "" → rateLimiter_Allow (as_limiter st) now = (ok, rl) → ok = false ∨ aq_Authorization q ≠ String.append "Bearer " secret →
  ∃ status code, (status = 401 ∨ status = 403 ∨ status = 429) ∧
    serve_api (newAPIKeyAuth secret) s now q (RtKeyed c) st = (Ok (AReply (RError status code)), set_limiter st rl).
Proof.
  intros Hs Hrl Ha. unfold serve_api. rewrite Hrl. destruct ok; cbn [negb]; [|by eexists _, _; auto].
  destruct Ha as [?|Ha]; [done|].
  destruct (key_verdict secret (aq_Authorization q) Hs) as [[? _]|(_ & status & code & Hst & ->)]; [done|].
  exists status, code. split; [naive_solver|done].
Qed.

(** C9 (safety): The control plane never serves its nodes and clients without the key: for
    every configuration it starts with, a request to a route for nodes, dispatches, prewarms
    or objects reaches its handler exactly if the rate limiter lets it through and its
    Authorization header is "Bearer " followed by the token secret; any other request is
    answered with 401, 403 or 429 and changes nothing but the limiter. *)
Theorem api_key_required ps e cfg (s : Scheduler CI SG) now q c st :
  LoadControlPlane ps e = Some cfg →
  let secret := cpc_TokenSecret cfg in
  let '(allowed, rl) := rateLimiter_Allow (as_limiter st) now in
  let answer := serve_api (newAPIKeyAuth secret) s now q (RtKeyed c) st in
  if allowed && String.eqb (aq_Authorization q) (String.append "Bearer " secret)
  then answer = run_keyed s now q c (set_limiter st rl)
  else ∃ status code, (status = 401 ∨ status = 403 ∨ status = 429) ∧
         answer = (Ok (AReply (RError status code)), set_limiter st rl).
Proof.
  intros Hl secret. pose proof (control_plane_keyed _ _ _ Hl) as Hs. destruct (rateLimiter_Allow _ _) as [ok rl] eqn:Hrl.
  destruct (String.eqb_spec (aq_Authorization q) (String.append "Bearer " secret)) as [Ha|Ha]; destruct ok; cbn [andb].
  - by apply keyed_runs.
  - apply (keyed_refused _ _ _ _ _ _ false); auto.
  - apply (keyed_refused _ _ _ _ _ _ true); auto.
  - apply (keyed_refused _ _ _ _ _ _ false); auto.
Qed.
End routes.

(** ** The signed routes *)
Section signed.
Context {CI : Type} `{ContentIndexLookup CI} {SG : Type} `{TokenSigner SG}.

(** The process at work: requests, and whatever the background tasks do to the stores. *)
Inductive api_step (auth : apiKeyAuth) : apiServer → apiServer → Prop :=
| api_request s now q rt st r st' : serve_api (CI := CI) (SG := SG) auth s now q rt st = (r, st') → api_step auth st st'
| api_background st a : api_step auth st (set_api st a).

Lemma run_prewarm_admin url_ok connects finish db_ok now now' body st :
  as_admin (run_prewarm url_ok connects finish db_ok now now' body st).2 = as_admin st.
Proof. unfold run_prewarm. by destruct (handleAdminPrewarm _ _ _ _ _ _ _ _ _) as [r c]. Qed.

Lemma run_keyed_admin (s : Scheduler CI SG) now q c st : as_admin (run_keyed s now q c st).2 = as_admin st.
Proof. destruct c; try done. apply run_prewarm_admin. Qed.

Lemma unsigned_step auth st st' : as_admin st = None → api_step auth st st' → as_admin st' = None.
Proof.
  intros Hn Hstep. destruct Hstep as [s now q rt st1 r st2 Hs|st1 a]; [|done]. revert Hs. unfold serve_api.
  destruct (rateLimiter_Allow _ _) as [ok rl]. destruct ok; cbn [negb]; [|by intros [= _ <-]].
  destruct rt as [c|c|pg redis| |]; try (by intros [= _ <-]).
  - destruct (apiKeyAuth_middleware _ _) as [[status code]|]; [by intros [= _ <-]|].
    intros Hr. pose proof (run_keyed_admin s now q c (set_limiter st1 rl)) as Ha. rewrite Hr in Ha. by etrans; [exact Ha|].
  - cbn [set_limiter as_admin]. rewrite Hn. by intros [= _ <-].
Qed.

(** The signed admin routes are never reached: whatever the control plane is
    configured to, and after any requests and background work, a request whose path lies
    under their prefix goes to the console if that is enabled, and if it is not the routes
    do not exist: the API answers 404 (or 429), and no state but the limiter's changes. *)
Theorem signed_admin_unreachable cfg sb g a now0 st (s : Scheduler CI SG) now q path c :
  rtc (api_step (newAPIKeyAuth (cpc_TokenSecret cfg))) (NewAPI cfg sb g a now0) st →
  routed path (RtSigned c) →
  match combined_target (has_console cfg) path with
  | ToConsole => adc_Enabled (cpc_Admin cfg) = true
  | ToPages => False
  | ToAPI =>
      let '(ok, rl) := rateLimiter_Allow (as_limiter st) now in
      serve_api (newAPIKeyAuth (cpc_TokenSecret cfg)) s now q (RtSigned c) st =
        (Ok (AReply (if ok then RError 404 "" else RError 429 "RATE_LIMITED")), set_limiter st rl)
  end.
Proof.
  intros Hrun Hp. unfold combined_target, has_console.
  assert (has_prefix (to_chars "/internal/admin/v1") (to_chars path) = true) as Hpre.
  { cbn [routed] in Hp. apply has_prefix_spec in Hp as [t Ht]. apply has_prefix_spec. rewrite Ht.
    exists (to_chars "/" ++ t). reflexivity. }
  rewrite Hpre. cbn [andb]. destruct (adc_Enabled (cpc_Admin cfg)) eqn:Hen; [done|].
  assert (has_prefix (to_chars "/admin/") (to_chars path) || String.eqb path "/admin" = false) as ->.
  { apply has_prefix_spec in Hpre as [t Ht]. apply orb_false_intro.
    - rewrite Ht. reflexivity.
    - apply String.eqb_neq. intros ->. discriminate Ht. }
  assert (Hadm : as_admin st = None).
  { assert (as_admin (NewAPI cfg sb g a now0) = None) as H1 by (unfold NewAPI; by rewrite Hen). revert H1. clear -Hrun.
    induction Hrun as [|? ? ? Hs _ IH]; [done|]. intros H1. apply IH. by eapply unsigned_step. }
  unfold serve_api. destruct (rateLimiter_Allow _ _) as [[] rl]; cbn [negb set_limiter as_admin]; by rewrite ?Hadm.
Qed.
End signed.

(** ** From registration to a served object *)

(** The node token survives the way of a header. *)
Definition clean_token (t : string) : Prop := from_option (λ c, is_blank c = false) True (last (to_chars t)).

Lemma drop_blanks_kept c l : is_blank c = false → drop_blanks (c :: l) = c :: l.
Proof. intros Hc. cbn. by rewrite Hc. Qed.

Lemma trim_blanks_bearer t : t ≠ "" → clean_token t → trim_blanks (bearer ++ to_chars t) = bearer ++ to_chars t.
Proof.
  intros Hne Hc. unfold trim_blanks. cbn [bearer to_chars String.list_ascii_of_string app].
  rewrite drop_blanks_kept by reflexivity. change (_ :: _ :: _ :: _ :: _ :: _ :: _ :: to_chars t) with (bearer ++ to_chars t).
  unfold clean_token in Hc. destruct (to_chars t) as [|c l _] eqn:Et using rev_ind.
  - exfalso. apply Hne. by rewrite <- (of_to_chars t), Et.
  - rewrite last_snoc in Hc. cbn [from_option] in Hc. rewrite app_assoc, rev_app_distr. cbn [rev app].
    rewrite drop_blanks_kept by done. cbn [rev]. by rewrite rev_involutive.
Qed.

Lemma authorization_arrives cfg v :
  clean_token (eac_NodeToken cfg) → header_arrives (authorization cfg) = Some v → v = authorization cfg.
Proof.
  intros Hc. unfold header_arrives, authorization. destruct (String.eqb_spec (eac_NodeToken cfg) "") as [E|E].
  - by intros [= <-].
  - case_match; [|done]. intros Hv. apply (inj Some) in Hv as <-. rewrite to_chars_app. change (to_chars "Bearer ") with bearer.
    rewrite trim_blanks_bearer by done. by rewrite <- (to_chars_app "Bearer "), of_to_chars.
Qed.

Lemma append_inj p a b : String.append p a = String.append p b → a = b.
Proof. induction p as [|c p IH]; cbn; [done|]. intros [= H]. by apply IH. Qed.

(** A client that follows a dispatch answer: the object under its key, with its token. *)
Record follows (r : edgeRequest) (key token : string) : Prop := {
  fo_method : er_Method r = "GET" ∧ er_Range r = "";
  fo_path : object_key "/obj/" (er_Path r) = key;
  fo_token : request_token r = token
}.

(** The token of an answer while it lasts. *)
Record token_lives (resp : DispatchResponse) (now : Z) : Prop := {
  tl_some : resp_Token resp ≠ no_token;
  tl_exp : is_i64 (tok_Exp (resp_Token resp)) ∧ tok_Exp (resp_Token resp) ≠ 0;
  tl_now : now / sec ≤ tok_Exp (resp_Token resp)
}.

(** The edge sees the client at an address of the network the request named. *)
Definition same_client (ip ip' : string) : Prop :=
  match ParseIP ip, ParseIP ip' with
  | None, _ => True
  | Some a, Some b => same_network a b = true
  | Some _, None => False
  end.

Section deployed.
Context {CI : Type} `{ContentIndexLookup CI}.
Context (secret : string) (secret_set : secret ≠ "").
(** [main] gives the scheduler a signer with the token secret. *)
Context (s : Scheduler CI tokenSigner) (signer_secret : tsg_secret (sc_signer s) = bytes_of_string secret).
Local Abbreviation auth := (newAPIKeyAuth secret).

Lemma registered_has_secret pl db_ok nodeID token now http signed a st :
  clean_token (eac_NodeToken (ag_cfg a)) →
  (Reporter_Register pl (register_through auth s db_ok nodeID token now http signed) a st).1.1 = Ok tt →
  eac_NodeToken (ag_cfg a) = secret.
Proof.
  intros Hc. unfold Reporter_Register, register_through. cbn [po_Authorization po_Body].
  destruct (header_arrives _) as [v|] eqn:Hv; [|done]. apply authorization_arrives in Hv as ->; [|done].
  destruct (rateLimiter_Allow (as_limiter st) now) as [ok rl] eqn:Hrl. unfold authorization.
  destruct (String.eqb_spec (eac_NodeToken (ag_cfg a)) "") as [E|E].
  - destruct (keyed_refused secret s now (mkApiRequest http "" signed)
      (KRegister db_ok nodeID token (Body (register_request pl (ag_cfg a)))) st ok rl secret_set Hrl) as (status & code & Hst & ->); [by right|].
    cbn. by destruct Hst as [->|[->| ->]].
  - destruct (decide (eac_NodeToken (ag_cfg a) = secret)) as [|Hne]; [done|].
    destruct (keyed_refused secret s now (mkApiRequest http (String.append "Bearer " (eac_NodeToken (ag_cfg a))) signed)
      (KRegister db_ok nodeID token (Body (register_request pl (ag_cfg a)))) st ok rl secret_set Hrl) as (status & code & Hst & ->).
    { right. cbn [aq_Authorization]. by intros ?%append_inj. }
    cbn. by destruct Hst as [->|[->| ->]].
Qed.

(** The request a dispatch answers, its texts trimmed. *)
Definition dispatched (req : DispatchRequest) : DispatchRequest :=
  mkDispatchRequest (mkClientInfo (trimmed (cl_IP (dr_Client req))) (cl_Region (dr_Client req)) (cl_ISP (dr_Client req)))
    (mkResourceInfo (res_Type (dr_Resource req)) (trimmed (res_Key (dr_Resource req))) (res_Scheme (dr_Resource req)))
    (dr_NeedRange req).

Lemma dispatch_resolved now q t db_ok req st resp st' :
  trimmed (cl_IP (dr_Client req)) ≠ "" →
  serve_api auth s now q (RtKeyed (KDispatch t db_ok (Body req))) st = (Ok (AReply (RDispatch resp)), st') →
  ∃ s1 db st1 st2, tsg_secret (sc_signer s1) = bytes_of_string secret ∧
    Scheduler_Resolve s1 t db st1 (dispatched req) = (Ok resp, st2).
Proof.
  intros Hip. unfold serve_api. destruct (rateLimiter_Allow _ _) as [[] rl]; cbn [negb]; [|done].
  destruct (apiKeyAuth_middleware _ _) as [[status code]|]; [done|]. unfold run_keyed, api_answer, handleDispatch.
  cbn [decodeJSON]. rewrite (proj2 (String.eqb_neq _ _) Hip). cbv zeta.
  destruct (String.eqb _ ""); [done|]. destruct (Policy_IsBlocked _ _); [done|].
  destruct (Scheduler_Resolve _ _ _ _ _) as [res sched] eqn:Hr. destruct res as [resp'| |]; cbn [fst snd]; try done.
  intros Heq. injection Heq as -> _. eexists _, _, _, _. split; [|exact Hr]. exact signer_secret.
Qed.
End deployed.

Section end_to_end.
Context (ParseFloat : string → option float64) (format_verbs : chars → Z → chars)
        (xml_Unmarshal : bytes → option mpdRoot) (env_max : Z).
Local Abbreviation handle := (handleObject ParseFloat format_verbs xml_Unmarshal env_max).
Context {CI : Type} `{ContentIndexLookup CI}.

(** C8 (functional): From registration to a served object: an edge node that could register
    through the API of a control plane has the control plane's own secret as node token, and
    so accepts what the dispatcher signs: a client that was given a dispatch answer for some
    key, and asks this node for that key with the token of the answer before it expires and
    from the network it named, gets the object from the node's cache, with status 200. *)
Theorem registered_edge_serves_dispatched secret (s : Scheduler CI tokenSigner) pl db_ok nodeID token now0 http signed a st0
    now q t db req st resp st' io r data :
  secret ≠ "" → tsg_secret (sc_signer s) = bytes_of_string secret →
  clean_token (eac_NodeToken (ag_cfg a)) → configured (ag_server a) (ag_cfg a) →
  (Reporter_Register pl (register_through (newAPIKeyAuth secret) s db_ok nodeID token now0 http signed) a st0).1.1 = Ok tt →
  serve_api (newAPIKeyAuth secret) s now q (RtKeyed (KDispatch t db (Body req))) st = (Ok (AReply (RDispatch resp)), st') →
  let key := trimmed (res_Key (dr_Resource req)) in
  let ip := trimmed (cl_IP (dr_Client req)) in
  text_ok key → bad_key key = false → ip ≠ "" → token_lives resp (oi_now io) →
  follows r key (tok_Value (resp_Token resp)) → same_client ip (extractClientIP r) →
  plain_request (ag_server a) r key → cached io (ag_server a) key data → oi_copy io = None →
  eac_NodeToken (ag_cfg a) = secret ∧
  rs_status (handle io (ag_server a) r).1 = 200 ∧ rs_body (handle io (ag_server a) r).1 = data.
Proof.
  intros Hs Hsig Hc Hconf Hreg Hdisp key ip Hkey Hgood Hip [Hne [He H0] Hle] [[Hm Hr] Hpath Htok] Hclient Hp Hcached Hcopy.
  pose proof (registered_has_secret secret Hs s _ _ _ _ _ _ _ _ _ Hc Hreg) as Hsecret. split; [done|].
  destruct (dispatch_resolved secret s Hsig _ _ _ _ _ _ _ _ Hip Hdisp) as (s1 & d & st1 & st2 & Hs1 & Hres).
  pose proof (dispatch_token_verdict s1 t d st1 (dispatched req) resp st2 (oi_now io) (extractClientIP r) Hres Hne Hkey He H0 Hle) as Hv.
  cbv zeta in Hv. rewrite Hs1, <- Hsecret in Hv. cbn [dispatched dr_Client cl_IP] in Hv. unfold configured in Hconf.
  set (pay := mkTokenPayload _ _ _) in Hv.
  assert (Ha : accepted (sv_secret (ag_server a)) (oi_now io) r pay key).
  { rewrite Hconf. split; [by left| | |done|done].
    - rewrite Htok. intros E. rewrite E in Hv. revert Hv. unfold same_client in Hclient. fold ip.
      destruct (ParseIP ip), (ParseIP (extractClientIP r)); try done; rewrite Hclient; done.
    - rewrite Htok, Hv. unfold same_client in Hclient. fold ip.
      destruct (ParseIP ip), (ParseIP (extractClientIP r)); try done; by rewrite Hclient. }
  destruct (hit_serves ParseFloat format_verbs xml_Unmarshal env_max io (ag_server a) r pay key data Ha Hp Hcached) as (s' & -> & _).
  rewrite Hr. cbn [String.eqb negb]. destruct (serve_whole_fine io s' r data Hcopy) as (-> & -> & _).
  split; [done|]. unfold is_head. by rewrite Hm.
Qed.
End end_to_end.

(** ** Concrete requests *)
Definition demo_sb : sbConfig := mkSbConfig true 50 true true 2 20.
Definition demo_server : apiServer :=
  mkApiServer Api.demo_api demo_sb None (newRateLimiter 100000 200000 0) None.
Definition no_signature : internalRequest := mkInternalRequest "" "" "" "" "" "" None None "" "" "".
Definition demo_query (auth : string) : apiRequest := mkApiRequest demo_http auth no_signature.

Lemma api_key_required_witness :
  ∃ cfg, LoadControlPlane demo_parsers {["CP_TOKEN_SECRET" := "s3cret"]} = Some cfg ∧
    (serve_api (newAPIKeyAuth (cpc_TokenSecret cfg)) demo_tok_sched 5 (demo_query "Bearer s3cret")
      (RtKeyed (KRevokeNode true "n1")) demo_server).1 = Ok (AReply (RStatus "revoked")).
Proof.
  destruct (LoadControlPlane demo_parsers {["CP_TOKEN_SECRET" := "s3cret"]}) as [cfg|] eqn:E; [|exfalso; vm_compute in E; discriminate E].
  exists cfg. split; [done|].
  pose proof (api_key_required demo_parsers _ cfg demo_tok_sched 5 (demo_query "Bearer s3cret") (KRevokeNode true "n1") demo_server E) as H.
  assert (cpc_TokenSecret cfg = "s3cret") as Hs by (pose proof demo_started as Hd; rewrite E in Hd; by injection Hd).
  rewrite Hs in H |- *. assert (rateLimiter_Allow (as_limiter demo_server) 5 = (true, mkRateLimiter 100000 200000 199999 0)) as Hrl by (vm_compute; reflexivity).
  rewrite Hrl in H. change (String.eqb _ _) with true in H. cbn [andb] in H. rewrite H. vm_compute. reflexivity.
Defined.

Lemma signed_admin_unreachable_witness :
  ∃ cfg, LoadControlPlane demo_parsers {["CP_TOKEN_SECRET" := "s3cret"]} = Some cfg ∧
    combined_target (has_console cfg) "/internal/admin/v1/config" = ToAPI ∧
    (serve_api (newAPIKeyAuth (cpc_TokenSecret cfg)) demo_tok_sched 5 (demo_query "") (RtSigned SGetConfig)
      (NewAPI cfg demo_sb None Api.demo_api 0)).1 = Ok (AReply (RError 404 "")).
Proof.
  destruct (LoadControlPlane demo_parsers {["CP_TOKEN_SECRET" := "s3cret"]}) as [cfg|] eqn:E; [|exfalso; vm_compute in E; discriminate E].
  exists cfg. split; [done|].
  assert (Hen : adc_Enabled (cpc_Admin cfg) = false) by (vm_compute in E; injection E as <-; reflexivity).
  pose proof (signed_admin_unreachable cfg demo_sb None Api.demo_api 0 (NewAPI cfg demo_sb None Api.demo_api 0) demo_tok_sched 5
    (demo_query "") "/internal/admin/v1/config" SGetConfig ltac:(apply rtc_refl) ltac:(reflexivity)) as H.
  unfold has_console in *. rewrite Hen in *. change (combined_target false _) with ToAPI in *. split; [done|].
  change (as_limiter _) with (newRateLimiter 100000 200000 0) in H.
  assert (rateLimiter_Allow (newRateLimiter 100000 200000 0) 5 = (true, mkRateLimiter 100000 200000 199999 0)) as Hrl by (vm_compute; reflexivity).
  rewrite Hrl in H. cbv zeta iota beta in H. by rewrite H.
Defined.

(** An agent with the secret, the object "a/b" in its cache, and a client of it. *)
Definition demo_keyed : agent :=
  mkAgent demo_secret_cfg (demo_edge (Cache_Put put_fine map_to_list 5 demo_cache "a/b" demo_body).2) (NewBandwidthMeter 0) "" false.
Definition demo_dispatch : apiReply :=
  match (serve_api (newAPIKeyAuth "secret") demo_tok_sched 5 (demo_query "Bearer secret")
           (RtKeyed (KDispatch demo_clock true (Body demo_tok_req))) demo_server).1 with Ok r => r | _ => AMetrics end.
Definition demo_given : DispatchResponse := match demo_dispatch with AReply r => answer_of r | _ => mkDispatchResponse "" 0 no_token [] end.
Definition demo_follow : edgeRequest :=
  mkEdgeRequest "GET" "/obj/a/b" "" (tok_Value (resp_Token demo_given)) "" "" "" "203.0.113.77:4711" 0 "" "" "".
Definition demo_follow_io : objectIO :=
  mkObjectIO (30 * sec) OpenFine None (λ _, mkAttempt 0 0 true (Response demo_answer)) None true true true 0 true
    put_fine (mkResponse 101 ∅ []).

Lemma registered_edge_serves_dispatched_witness :
  rs_status (handleObject demo_parse demo_verbs demo_xml 0 demo_follow_io (ag_server demo_keyed) demo_follow).1 = 200.
Proof.
  pose proof (registered_edge_serves_dispatched demo_parse demo_verbs demo_xml 0 "secret" demo_tok_sched demo_place true "n9" "tok" 5
    demo_http no_signature demo_keyed demo_server 5 (demo_query "Bearer secret") demo_clock true demo_tok_req demo_server demo_given
    (serve_api (newAPIKeyAuth "secret") demo_tok_sched 5 (demo_query "Bearer secret")
      (RtKeyed (KDispatch demo_clock true (Body demo_tok_req))) demo_server).2
    demo_follow_io demo_follow demo_body) as H.
  apply H.
  - discriminate.
  - vm_compute. reflexivity.
  - vm_compute. reflexivity.
  - vm_compute. reflexivity.
  - vm_compute. reflexivity.
  - vm_compute. reflexivity.
  - apply ascii_text. vm_compute. reflexivity.
  - vm_compute. reflexivity.
  - vm_compute. discriminate.
  - split; [vm_compute; discriminate|vm_compute; split; [split; [discriminate|reflexivity]|discriminate]|vm_compute; discriminate].
  - split; [split; reflexivity|vm_compute; reflexivity|reflexivity].
  - vm_compute. reflexivity.
  - split; [reflexivity|reflexivity|by left].
  - split; [reflexivity|vm_compute; reflexivity].
  - reflexivity.
Defined.
