(* ===== verification/HeartbeatQueue.v ===== *)
(** * The batch queue of heartbeats ([Heartbeat.Start], [processBatch] and the channel of
      [ProcessHeartbeat] in [internal/controlplane/heartbeat.go]) and their storage
      ([marshalHB], [unmarshalHB] in [internal/store/pg.go])

    Every heartbeat request is a goroutine that sends its request to a channel and waits for
    the answer on a channel of its own; one loop receives, gathers a batch until it is full
    or a timer fires, and processes the batch.  [queue_step] is the machine of these
    goroutines and the loop.

    The theorems: while the loop runs every heartbeat is answered, after a bounded number of
    steps and as if the heartbeats had been processed one after the other; when the loop has
    stopped, or on an instance that never started it, no further heartbeat is answered; what
    is stored of a heartbeat is read back. *)

From S2P Require Import Prelude GoStrings GoHash EdgeHTTP ContentIndex Models NodeLifecycle.

Section queue.
Context {A R E : Type}.
(** [processOne]. *)
Context (process : A → E → R * E).

Definition batch_cap : nat := 32.
Definition chan_cap : nat := 256.

(** The loop: in its [select]; in [processBatch], before its last batch or not; returned. *)
Inductive loopState := LSelect | LBatch (last : bool) | LExit.

Record queue := mkQueue {
  q_wait : list A;            (* goroutines before their send *)
  q_chan : list A;            (* [batchCh] *)
  q_batch : list A;           (* what is left of [batch] *)
  q_timer : bool;             (* the timer runs or has fired *)
  q_loop : loopState;
  q_answers : list (A * R);   (* answers sent, the first one first *)
  q_env : E
}.

Definition start_queue (calls : list A) (e : E) : queue := mkQueue calls [] [] true LSelect [] e.
(** An instance that is not the leader does not call [Start]. *)
Definition follower_queue (calls : list A) (e : E) : queue := mkQueue calls [] [] false LExit [] e.

Definition after_batch (last : bool) (rest : list A) : loopState :=
  match rest with [] => if last then LExit else LSelect | _ => LBatch last end.

Inductive queue_step (q : queue) : queue → Prop :=
| qs_send l1 a l2 :
    q_wait q = l1 ++ a :: l2 → (length (q_chan q) < chan_cap)%nat →
    queue_step q (mkQueue (l1 ++ l2) (q_chan q ++ [a]) (q_batch q) (q_timer q) (q_loop q) (q_answers q) (q_env q))
| qs_receive a chan :
    q_loop q = LSelect → q_chan q = a :: chan →
    let batch := q_batch q ++ [a] in
    queue_step q
      (if (batch_cap <=? length batch)%nat
       then mkQueue (q_wait q) chan batch false (LBatch false) (q_answers q) (q_env q)
       else mkQueue (q_wait q) chan batch
              (match q_batch q with [] => true | _ => q_timer q end) LSelect (q_answers q) (q_env q))
| qs_timer :
    q_loop q = LSelect → q_timer q = true →
    queue_step q (mkQueue (q_wait q) (q_chan q) (q_batch q) false
                    (match q_batch q with [] => LSelect | _ => LBatch false end) (q_answers q) (q_env q))
| qs_process last a rest r e :
    q_loop q = LBatch last → q_batch q = a :: rest → process a (q_env q) = (r, e) →
    queue_step q (mkQueue (q_wait q) (q_chan q) rest (q_timer q) (after_batch last rest) (q_answers q ++ [(a, r)]) e).

(** [Stop], when the loop sees in its [select] that the context has ended. *)
Definition stop_queue (q : queue) : queue :=
  mkQueue (q_wait q) (q_chan q) (q_batch q) (q_timer q)
    (match q_loop q with LSelect => after_batch true (q_batch q) | l => l end) (q_answers q) (q_env q).

(** One after the other. *)
Fixpoint serve_all (l : list A) (e : E) : list R * E :=
  match l with
  | [] => ([], e)
  | a :: l => let '(r, e) := process a e in let '(rs, e) := serve_all l e in (r :: rs, e)
  end.

Lemma serve_all_snoc l a e rs e1 r e2 :
  serve_all l e = (rs, e1) → process a e1 = (r, e2) → serve_all (l ++ [a]) e = (rs ++ [r], e2).
Proof.
  revert e rs. induction l as [|b l IH]; intros e rs; cbn; [intros [= <- <-] ->; done|].
  destruct (process b e) as [rb eb]. destruct (serve_all l eb) as [rs' e'] eqn:El. intros [= <- <-] Ha.
  by rewrite (IH _ _ El Ha).
Qed.

(** *** The invariant *)
Definition in_line (q : queue) : list A := (q_answers q).*1 ++ q_batch q ++ q_chan q.

Record queue_inv (calls : list A) (e0 : E) (q : queue) : Prop := {
  qi_calls : in_line q ++ q_wait q ≡ₚ calls;
  qi_served : serve_all (q_answers q).*1 e0 = ((q_answers q).*2, q_env q);
  qi_chan : (length (q_chan q) ≤ chan_cap)%nat;
  qi_loop : match q_loop q with
            | LSelect => (length (q_batch q) < batch_cap)%nat ∧ (q_batch q ≠ [] → q_timer q = true)
            | LBatch last => q_batch q ≠ [] ∧ last = false
            | LExit => False
            end
}.

Lemma start_queue_inv calls e : queue_inv calls e (start_queue calls e).
Proof. split; cbn; [done|done|lia|]. split; [unfold batch_cap; lia|done]. Qed.

(** The line is first in, first out. *)
Lemma queue_step_line q q' : queue_step q q' → in_line q `prefix_of` in_line q'.
Proof.
  destruct 1 as [l1 a l2 Hw Hc|a chan Hl Hc batch|Hl Ht|last a rest r e Hl Hb Hp]; unfold in_line.
  - cbn. exists [a]. by rewrite <- !app_assoc.
  - exists []. rewrite app_nil_r. case_match; cbn; rewrite Hc; subst batch; by rewrite <- !app_assoc.
  - cbn. done.
  - cbn. rewrite Hb, fmap_app, <- !app_assoc. done.
Qed.

Lemma queue_step_inv calls e0 q q' : queue_inv calls e0 q → queue_step q q' → queue_inv calls e0 q'.
Proof.
  intros [H1 H2 H3 H4] Hs. destruct Hs as [l1 a l2 Hw Hc|a chan Hl Hc batch|Hl Ht|last a rest r e Hl Hb Hp].
  - split; cbn; [|done|rewrite length_app; cbn; lia|done]. rewrite <- H1, Hw. unfold in_line. cbn. solve_Permutation.
  - rewrite Hl in H4. destruct H4 as [H4 H5].
    assert (Hline : ∀ t l, in_line (mkQueue (q_wait q) chan batch t l (q_answers q) (q_env q)) ++ q_wait q ≡ₚ calls).
    { intros t l. rewrite <- H1. unfold in_line. cbn. rewrite Hc. subst batch. by rewrite <- !app_assoc. }
    rewrite Hc in H3. cbn in H3. destruct (batch_cap <=? length batch)%nat eqn:Hf; (split; [apply Hline|done|cbn; lia|cbn]).
    + split; [|done]. subst batch. by destruct (q_batch q).
    + split; [apply Nat.leb_gt in Hf; lia|]. intros _. destruct (q_batch q) eqn:Eb; [done|by apply H5].
  - rewrite Hl in H4. destruct H4 as [H4 _]. split; cbn; try done. destruct (q_batch q) eqn:Eb; [|done]. cbn. done.
  - rewrite Hl in H4. destruct H4 as [_ ->]. split; cbn; [| |done|].
    + rewrite <- H1. unfold in_line. cbn. by rewrite Hb, fmap_app, <- !app_assoc.
    + rewrite !fmap_app. by eapply serve_all_snoc.
    + destruct rest as [|b rest]; cbn; [unfold batch_cap; split; [lia|done]|done].
Qed.

(** *** Its end *)
Definition queue_work (q : queue) : nat :=
  4 * length (q_wait q) + 3 * length (q_chan q) + length (q_batch q) + (if q_timer q then 1 else 0).

Lemma queue_step_work q q' : queue_step q q' → (queue_work q' < queue_work q)%nat.
Proof.
  unfold queue_work. destruct 1 as [l1 a l2 Hw Hc|a chan Hl Hc batch|Hl Ht|last a rest r e Hl Hb Hp].
  - cbn. rewrite Hw, !length_app. cbn. lia.
  - assert (Hn : length batch = S (length (q_batch q))) by (subst batch; rewrite length_app; cbn; lia).
    clearbody batch. rewrite Hc. destruct (batch_cap <=? length batch)%nat; cbn -[Nat.mul]; rewrite Hn; destruct (q_timer q), (q_batch q); cbn; lia.
  - rewrite Ht. destruct (q_batch q); cbn; lia.
  - rewrite Hb. cbn. lia.
Qed.

Definition queue_finished (q : queue) : Prop := q_wait q = [] ∧ q_chan q = [] ∧ q_batch q = [].

Lemma queue_progress calls e0 q : queue_inv calls e0 q → queue_finished q ∨ ∃ q', queue_step q q'.
Proof.
  intros [_ _ _ H4]. destruct (q_loop q) as [|last|] eqn:Hl; [| |done].
  - destruct H4 as [_ H5]. destruct (q_chan q) as [|a chan] eqn:Hc.
    + destruct (q_batch q) as [|b bs] eqn:Hb; [|right; eexists; by apply qs_timer, H5].
      destruct (q_wait q) as [|a l] eqn:Hw; [by left|]. right. eexists. apply (qs_send q [] a l); [done|].
      rewrite Hc. cbn. unfold chan_cap. lia.
    + right. eexists. by apply qs_receive.
  - destruct H4 as [H4 _]. destruct (q_batch q) as [|a rest] eqn:Hb; [done|]. right.
    destruct (process a (q_env q)) as [r e] eqn:Hp. eexists. by eapply qs_process.
Qed.

Lemma queue_runs calls e0 k q :
  nsteps queue_step k (start_queue calls e0) q →
  queue_inv calls e0 q ∧ (k + queue_work q ≤ 4 * length calls + 1)%nat.
Proof.
  intros Hk. assert (H0 : queue_work (start_queue calls e0) = (4 * length calls + 1)%nat) by (unfold queue_work; cbn; lia).
  rewrite <- H0. pose proof (start_queue_inv calls e0) as Hi. clear H0. revert Hi.
  induction Hk as [q|k q q' q'' Hs _ IH]; intros Hi; [split; [done|lia]|].
  destruct IH as [IH1 IH2]; [by eapply queue_step_inv|]. split; [done|]. apply queue_step_work in Hs. lia.
Qed.

Lemma queue_answers_all calls e0 k q :
  nsteps queue_step k (start_queue calls e0) q →
  (k ≤ 4 * length calls + 1)%nat ∧
  (in_line q ++ q_wait q ≡ₚ calls ∧ serve_all (q_answers q).*1 e0 = ((q_answers q).*2, q_env q)) ∧
  ((∃ q', queue_step q q') ∨ (q_answers q).*1 ≡ₚ calls).
Proof.
  intros Hk. destruct (queue_runs _ _ _ _ Hk) as [Hi Hw]. destruct (queue_progress _ _ _ Hi) as [(H1 & H2 & H3)|Hs].
  - destruct Hi as [Hc Hv _ _]. split_and!; [lia|done|done|]. right. rewrite <- Hc. unfold in_line.
    by rewrite H1, H2, H3, !app_nil_r.
  - destruct Hi as [Hc Hv _ _]. split_and!; [lia|done|done|by left].
Qed.

(** *** After the loop *)
Lemma exited_steps q q' : q_loop q = LExit → rtc queue_step q q' → q_loop q' = LExit ∧ q_answers q' = q_answers q ∧ q_env q' = q_env q.
Proof.
  intros Hl Hs. induction Hs as [|q q1 q2 Hs _ IH]; [done|].
  assert (H1 : q_loop q1 = LExit ∧ q_answers q1 = q_answers q ∧ q_env q1 = q_env q) by (destruct Hs; cbn in *; congruence || done).
  destruct H1 as (H1 & H2 & H3). destruct (IH H1) as (H4 & H5 & H6). split_and!; [done|by rewrite H5|by rewrite H6].
Qed.
End queue.

(** ** The heartbeats of the control plane *)
Record hbCall := mkHbCall {
  hc_io : hbIO; hc_NodeID : string; hc_TS : Z; hc_now : Z; hc_Summary : option ContentSummary
}.
Definition process_call (c : hbCall) (h : ControlPlane) : result unit * ControlPlane :=
  Heartbeat_processOne (hc_io c) h (hc_NodeID c) (hc_TS c) (hc_now c) (hc_Summary c).

(** C18 (termination): While the loop of the heartbeat service runs, every heartbeat is
    answered: however the goroutines of the requests, the loop and its timer interleave, no
    more than four steps per heartbeat and one are possible, some step is possible as long as
    a heartbeat has no answer, none is lost or answered twice, and the answers given so far
    and the state of the control plane are those of processing the answered heartbeats one
    after the other. *)
Theorem heartbeats_answered calls h k q :
  nsteps (queue_step process_call) k (start_queue calls h) q →
  (k ≤ 4 * length calls + 1)%nat ∧
  (in_line q ++ q_wait q ≡ₚ calls ∧
   serve_all process_call (q_answers q).*1 h = ((q_answers q).*2, q_env q)) ∧
  ((∃ q', queue_step process_call q q') ∨ (q_answers q).*1 ≡ₚ calls).
Proof. apply queue_answers_all. Qed.

(** Without its loop the heartbeat service leaves requests waiting for ever: on
    an instance that does not lead, and on any after the service was stopped with nothing
    left in the batch, no heartbeat gets an answer any more, whatever happens, and nothing
    that was sent is processed. *)
Theorem stopped_queue_strands calls h k q q' :
  q = follower_queue calls h ∨
  (∃ q0, nsteps (queue_step process_call) k (start_queue calls h) q0 ∧ q_batch q0 = [] ∧ q = stop_queue q0) →
  rtc (queue_step process_call) q q' →
  q_answers q' = q_answers q ∧ q_env q' = q_env q ∧ (q = follower_queue calls h → q_answers q' = []).
Proof.
  intros Hq Hrun. assert (Hl : q_loop q = LExit).
  { destruct Hq as [->|(q0 & Hk & Hb & ->)]; [done|]. apply queue_runs in Hk as [[_ _ _ Hi] _]. unfold stop_queue. cbn.
    rewrite Hb in *. destruct (q_loop q0); [done|by destruct Hi|done]. }
  destruct (exited_steps _ _ _ Hl Hrun) as (_ & H1 & H2). split_and!; [done|done|]. intros ->. by rewrite H1.
Qed.

(** ** What is stored of a heartbeat *)
Section storage.
Context {HB : Type}.

(** The JSON text of a heartbeat and how it is read; a text that is cut off is no JSON. *)
Record heartbeatJSON := mkHeartbeatJSON { hj_marshal : HB → bytes; hj_unmarshal : bytes → option HB }.
Record heartbeatJSON_ok (j : heartbeatJSON) : Prop := {
  hj_read hb : hj_unmarshal j (hj_marshal j hb) = Some hb;
  hj_object hb : head (hj_marshal j hb) = Some (byte.of_Z 123);
  hj_cut hb p : p `prefix_of` hj_marshal j hb → p ≠ hj_marshal j hb → hj_unmarshal j p = None
}.

Context (j : heartbeatJSON) (gzip : codec).
Definition gzip_magic : bytes := [byte.of_Z 31; byte.of_Z 139].
Definition has_magic (data : bytes) : bool := bool_decide (take 2 data = gzip_magic).
Definition hbCompressThreshold : nat := 256.
Definition maxHBDecompressedSize : Z := Z.shiftl 10 20.

Definition marshalHB (hb : HB) : bytes :=
  let raw := hj_marshal j hb in
  if (length raw <? hbCompressThreshold)%nat then raw else concat (zip_pieces gzip [raw]).

(** [io.LimitReader] ends the text after the limit; its length is compared afterwards. *)
Definition unmarshalHB (data : bytes) : result HB :=
  match data with
  | [] => Err "empty heartbeat data"
  | _ =>
      match (if has_magic data then take (Z.to_nat maxHBDecompressedSize) <$> unzip gzip data else Some data) with
      | None => Err "gzip"
      | Some raw =>
          if maxHBDecompressedSize <? Z.of_nat (length raw) then Err "heartbeat data too large"
          else match hj_unmarshal j raw with Some hb => Ok hb | None => Err "json" end
      end
  end.

(** What is stored of a heartbeat is read back: a heartbeat whose text has at
    most ten mebibytes comes back as it was, compressed or not; one with a longer text is an
    error to read, never a different heartbeat. *)
Theorem heartbeat_storage_roundtrip hb :
  heartbeatJSON_ok j → codec_ok gzip → (∀ ws, take 2 (concat (zip_pieces gzip ws)) = gzip_magic) →
  unmarshalHB (marshalHB hb) =
    if Z.of_nat (length (hj_marshal j hb)) <=? maxHBDecompressedSize then Ok hb else Err "json".
Proof.
  intros [Hread Hobj Hcut] [Hzip _] Hmagic. unfold marshalHB. destruct (Nat.ltb_spec (length (hj_marshal j hb)) hbCompressThreshold) as [Hs|Hs].
  - assert (Hlen : Z.of_nat (length (hj_marshal j hb)) ≤ maxHBDecompressedSize).
    { unfold hbCompressThreshold in Hs. change maxHBDecompressedSize with 10485760. lia. }
    rewrite (proj2 (Z.leb_le _ _) Hlen). specialize (Hobj hb). specialize (Hread hb). unfold unmarshalHB, has_magic.
    destruct (hj_marshal j hb) as [|b bs]; [done|]. injection Hobj as ->.
    rewrite bool_decide_eq_false_2 by (destruct bs; discriminate).
    by rewrite (proj2 (Z.ltb_ge _ _) Hlen), Hread.
  - unfold unmarshalHB, has_magic. rewrite (bool_decide_eq_true_2 _ (Hmagic _)), Hzip. cbn [fmap option_fmap option_map concat].
    rewrite app_nil_r. specialize (Hmagic [hj_marshal j hb]). destruct (concat _) as [|b bs]; [done|]. clear Hmagic b bs.
    assert (Hmax : 0 < maxHBDecompressedSize) by reflexivity. revert Hmax. generalize maxHBDecompressedSize. intros m Hmax.
    rewrite (proj2 (Z.ltb_ge _ _)) by (rewrite length_take; lia).
    destruct (Z.leb_spec (Z.of_nat (length (hj_marshal j hb))) m) as [Hl|Hl].
    + by rewrite take_ge, Hread by lia.
    + rewrite (Hcut hb _ (prefix_take _ _)); [done|]. intros Heq. apply (f_equal length) in Heq. rewrite length_take in Heq. lia.
Qed.
End storage.

(** ** Concrete runs *)
Definition demo_hb (id : string) : hbCall := mkHbCall hb_fine id 5 5 None.
Definition demo_pending : ControlPlane := demo_cp NodeStatusRegistered.
Definition demo_processed : result unit * ControlPlane := process_call (demo_hb "n1") demo_pending.
Definition demo_queue_end : queue := mkQueue [] [] [] false LSelect [(demo_hb "n1", demo_processed.1)] demo_processed.2.

Lemma demo_queue_run :
  nsteps (queue_step process_call) 4 (start_queue [demo_hb "n1"] demo_pending) demo_queue_end.
Proof.
  eapply nsteps_l; [by apply (qs_send _ _ [] (demo_hb "n1") []); [reflexivity|cbn; unfold chan_cap; lia]|].
  eapply nsteps_l; [by eapply qs_receive|]. eapply nsteps_l; [by apply qs_timer|].
  eapply nsteps_l; [|apply nsteps_O].
  apply (qs_process process_call (mkQueue [] [] [demo_hb "n1"] false (LBatch false) [] demo_pending) false (demo_hb "n1") []
    demo_processed.1 demo_processed.2 eq_refl eq_refl). unfold demo_processed. cbn [q_env]. by destruct (process_call _ _).
Qed.

Lemma heartbeats_answered_witness :
  serve_all process_call [demo_hb "n1"] demo_pending = ([demo_processed.1], q_env demo_queue_end) ∧
  n_Status <$> pg_nodes (cp_pg (q_env demo_queue_end)) !! "n1" = Some NodeStatusActive.
Proof.
  destruct (heartbeats_answered [demo_hb "n1"] demo_pending 4 demo_queue_end demo_queue_run) as (_ & [_ H] & _).
  split; [exact H|vm_compute; reflexivity].
Defined.

(** A follower takes a heartbeat into its channel and leaves it there. *)
Lemma stopped_queue_strands_witness :
  ∃ q, rtc (queue_step process_call) (follower_queue [demo_hb "n1"] demo_pending) q ∧
    q_chan q = [demo_hb "n1"] ∧ q_answers q = [].
Proof.
  assert (Hs : rtc (queue_step process_call) (follower_queue [demo_hb "n1"] demo_pending)
    (mkQueue [] [demo_hb "n1"] [] false LExit [] demo_pending)).
  { apply rtc_once. apply (qs_send process_call (follower_queue [demo_hb "n1"] demo_pending) [] (demo_hb "n1") []);
      [reflexivity|cbn; unfold chan_cap; lia]. }
  eexists. split; [exact Hs|]. split; [reflexivity|].
  destruct (stopped_queue_strands [demo_hb "n1"] demo_pending 0 (follower_queue [demo_hb "n1"] demo_pending) _ (or_introl eq_refl) Hs)
    as (_ & _ & H). by apply H.
Defined.

(** A heartbeat as its number of letters, between braces. *)
Definition letters (n : nat) : bytes := byte.of_Z 123 :: replicate n (byte.of_Z 97) ++ [byte.of_Z 125].
Definition demo_json : heartbeatJSON (HB := nat) :=
  mkHeartbeatJSON letters (λ l, if decide (l = letters (length l - 2)) then Some (length l - 2)%nat else None).

Lemma letters_length n : length (letters n) = (n + 2)%nat.
Proof. unfold letters. cbn. rewrite length_app, length_replicate. cbn. lia. Qed.

Lemma letters_prefix n m : letters n `prefix_of` letters m → n = m.
Proof.
  intros [t Ht]. assert (Hl : (n ≤ m)%nat).
  { apply (f_equal length) in Ht. rewrite length_app, !letters_length in Ht. lia. }
  destruct (decide (n = m)) as [|Hne]; [done|]. exfalso.
  unfold letters in Ht. cbn [app] in Ht. injection Ht as Ht. apply (f_equal (λ l, l !! n)) in Ht. cbv beta in Ht.
  rewrite lookup_app_l in Ht by (rewrite length_replicate; lia). rewrite lookup_replicate_2 in Ht by lia.
  rewrite <- app_assoc, lookup_app_r in Ht by (rewrite length_replicate; lia). rewrite length_replicate, Nat.sub_diag in Ht.
  cbn in Ht. discriminate Ht.
Qed.

Lemma demo_json_ok : heartbeatJSON_ok demo_json.
Proof.
  split; cbn [demo_json hj_marshal hj_unmarshal].
  - intros n. rewrite letters_length. replace (n + 2 - 2)%nat with n by lia. by rewrite decide_True.
  - done.
  - intros n p Hp Hne. case_decide as Hd; [|done]. exfalso. apply Hne. rewrite Hd in Hp |- *. f_equal.
    by apply letters_prefix.
Qed.

(** The codec of the demonstration behind the two bytes every gzip stream begins with. *)
Definition demo_zip : codec :=
  mkCodec "gzip" (λ ws, gzip_magic :: run_zip ws) (λ l, match l with _ :: _ :: s => run_unzip s | _ => None end).

Lemma demo_zip_ok : codec_ok demo_zip.
Proof.
  destruct (run_codec_ok "gzip") as [Hz Hcut]. split; cbn [demo_zip zip_pieces unzip concat gzip_magic app].
  - exact Hz.
  - intros ws p Hp Hne. destruct p as [|a [|b p]]; [done|done|].
    apply prefix_cons_inv_2 in Hp as Hp1. apply prefix_cons_inv_1 in Hp as ->.
    apply prefix_cons_inv_2 in Hp1 as Hp2. apply prefix_cons_inv_1 in Hp1 as ->.
    apply (Hcut ws); [done|]. intros ->. by apply Hne.
Qed.

Lemma heartbeat_storage_roundtrip_witness :
  unmarshalHB demo_json demo_zip (marshalHB demo_json demo_zip 300%nat) = Ok 300%nat.
Proof.
  rewrite (heartbeat_storage_roundtrip demo_json demo_zip 300%nat demo_json_ok demo_zip_ok); [reflexivity|reflexivity].
Defined.
