(* ===== verification/HeartbeatStore.v ===== *)
(** * The heartbeats in Redis, key by key ([RedisStore] in [internal/store/pg.go])

    [NodeLifecycle.RedisStore] keeps a heartbeat as a timestamp and an expiry.  Here the
    store is the data base of hashes the code writes: the fields [d], [ts] and [lseen] of the
    key [h:] plus the node, with the expiry Redis keeps for the key.  The operations are the
    commands the code sends, in their order, each of which may fail; [SCAN] is an argument,
    the batches of keys it returned.

    The theorems: run without failures the operations refine a map from nodes to heartbeats,
    and those of them that [NodeLifecycle] uses refine its store; a save whose [EXPIRE] is
    lost leaves a key that never expires; the clean-up deletes stale keys only, but between
    its look at a key and its [DEL] a new heartbeat is lost. *)

From stdpp Require Import gmap strings list.
From S2P Require Import Prelude GoStrings GoHash EdgeHTTP ContentIndex Models NodeLifecycle HeartbeatQueue.

(** ** Hashes with an expiry, and the commands *)
Record redisHash := mkRedisHash { rh_fields : gmap string bytes; rh_expiry : option Z }.
Abbreviation hashDB := (gmap string redisHash).

Definition hash_alive (h : redisHash) (now : Z) : bool :=
  match rh_expiry h with Some e => now <? e | None => true end.
Definition live (db : hashDB) (now : Z) (key : string) : option redisHash :=
  match db !! key with Some h => if hash_alive h now then Some h else None | None => None end.

(** [HSET] creates the hash or adds to it and leaves its expiry. *)
Definition cmd_hset (db : hashDB) (now : Z) (key : string) (fields : gmap string bytes) : hashDB :=
  match live db now key with
  | Some h => <[key := mkRedisHash (fields ∪ rh_fields h) (rh_expiry h)]> db
  | None => <[key := mkRedisHash fields None]> db
  end.
(** [EXPIRE] with a duration that is not positive deletes the key. *)
Definition cmd_expire (db : hashDB) (now : Z) (key : string) (ttl : Z) : hashDB :=
  match live db now key with
  | Some h => if ttl <=? 0 then delete key db else <[key := mkRedisHash (rh_fields h) (Some (now + ttl))]> db
  | None => db
  end.
Definition cmd_hget (db : hashDB) (now : Z) (key field : string) : option bytes :=
  h ← live db now key; rh_fields h !! field.

Definition hKey (nodeID : string) : string := "h:" +:+ nodeID.

(** The eight bytes of a timestamp, and how the clean-up reads them. *)
Definition ts_bytes (ts : Z) : bytes := be_split 8 (u64 ts).
Definition ts_of (b : bytes) : Z := i64 (be_combine (take 8 b)).

Section store.
Context {HB : Type} (hb_NodeID : HB → string) (hb_TS : HB → Z).
Context (j : heartbeatJSON (HB := HB)) (gzip : codec).

Abbreviation saved := (marshalHB j gzip).

(** ** The operations *)
Definition hb_fields (hb : HB) : gmap string bytes :=
  <["d" := saved hb]> (<["ts" := ts_bytes (hb_TS hb)]> {["lseen" := ts_bytes (hb_TS hb)]}).

(** Which commands of a pipeline were carried out. *)
Record saveIO := mkSaveIO { sv_hset : bool; sv_expire : bool }.
Definition save_fine : saveIO := mkSaveIO true true.

Definition save_commands (io : saveIO) (db : hashDB) (hb : HB) (ttl now : Z) : hashDB :=
  let key := hKey (hb_NodeID hb) in
  let db := if sv_hset io then cmd_hset db now key (hb_fields hb) else db in
  if sv_expire io then cmd_expire db now key ttl else db.

Definition SaveHeartbeat (io : saveIO) (db : hashDB) (hb : HB) (ttl now : Z) : result unit * hashDB :=
  (if sv_hset io && sv_expire io then Ok tt else Err "redis", save_commands io db hb ttl now).

Fixpoint PipelineSaveHeartbeats (ios : list saveIO) (db : hashDB) (hbs : list HB) (ttl now : Z)
    : result unit * hashDB :=
  match hbs, ios with
  | hb :: hbs, io :: ios =>
      let '(r, db) := PipelineSaveHeartbeats ios (save_commands io db hb ttl now) hbs ttl now in
      (if sv_hset io && sv_expire io then r else Err "redis", db)
  | _, _ => (Ok tt, db)
  end.

Definition GetHeartbeat (get_ok exp_ok : bool) (db : hashDB) (nodeID : string) (now : Z) : result HB * hashDB :=
  if negb get_ok then (Err "redis", db) else
  match cmd_hget db now (hKey nodeID) "d" with
  | None => (Err "redis: nil", db)
  | Some data =>
      match unmarshalHB j gzip data with
      | Ok hb => (Ok hb, if exp_ok then cmd_expire db now (hKey nodeID) (60 * second) else db)
      | r => (r, db)
      end
  end.

(** The hashes were read in one pipeline; the keys are prolonged one by one. *)
Definition read_heartbeat (db : hashDB) (now : Z) (nodeID : string) : option HB :=
  h ← live db now (hKey nodeID);
  d ← rh_fields h !! "d";
  match unmarshalHB j gzip d with Ok hb => Some hb | _ => None end.

Fixpoint collect_heartbeats (exp_ok : string → bool) (read db : hashDB) (now : Z) (ids : list string)
    (res : gmap string HB) : gmap string HB * hashDB :=
  match ids with
  | [] => (res, db)
  | id :: ids =>
      match read_heartbeat read now id with
      | None => collect_heartbeats exp_ok read db now ids res
      | Some hb =>
          collect_heartbeats exp_ok read
            (if exp_ok id then cmd_expire db now (hKey id) (60 * second) else db) now ids (<[id := hb]> res)
      end
  end.

Definition GetAllHeartbeats (exec_ok : bool) (exp_ok : string → bool) (db : hashDB) (ids : list string) (now : Z)
    : result (gmap string HB) * hashDB :=
  match ids with
  | [] => (Ok ∅, db)
  | _ => if negb exec_ok then (Err "redis", db)
         else let '(m, db) := collect_heartbeats exp_ok db db now ids ∅ in (Ok m, db)
  end.

(** [heartbeatCheckScript]. *)
Definition heartbeatCheckScript (db : hashDB) (now : Z) (key : string) (lseen : bytes) (ttl : Z) : Z * hashDB :=
  match live db now key with
  | None => (0, db)
  | Some _ => (1, cmd_expire (cmd_hset db now key {["lseen" := lseen]}) now key ttl)
  end.

Definition HasHeartbeat (script_ok exists_ok : bool) (db : hashDB) (nodeID : string) (now : Z) : bool * hashDB :=
  if script_ok then
    let '(r, db) := heartbeatCheckScript db now (hKey nodeID) (ts_bytes (now / second)) (60 * second) in
    (Z.eqb r 1, db)
  else (exists_ok && bool_decide (is_Some (live db now (hKey nodeID))), db).

(** One [SCAN] from the beginning: its first batch of keys, the cursor is dropped. *)
Definition GetAllHeartbeatNodes (batch : option (list string)) : result (list string) :=
  match batch with
  | None => Err "redis"
  | Some keys => Ok ((λ k, of_chars (drop 2 (to_chars k))) <$> keys)
  end.

(** The look of the clean-up at a key, and its [DEL]. *)
Record cleanIO := mkCleanIO { ci_get : bool; ci_del : bool; ci_now : Z }.
Definition clean_look (io : cleanIO) (db : hashDB) (key : string) : bool :=
  ci_get io &&
  match cmd_hget db (ci_now io) key "ts" with
  | Some b => (8 <=? length b)%nat && (300 <? i64 (ci_now io / second - ts_of b))
  | None => false
  end.
(** Other requests run between the two. *)
Definition clean_around (between : hashDB → hashDB) (io : cleanIO) (db : hashDB) (key : string) : hashDB :=
  if clean_look io db key && ci_del io then delete key (between db) else between db.
Definition clean_key : cleanIO → hashDB → string → hashDB := clean_around (λ db, db).

(** The batches [SCAN] returned; [None] is an error, the end of the list the cursor 0. *)
Fixpoint cleanupStale (scan : list (option (list (string * cleanIO)))) (db : hashDB) : hashDB :=
  match scan with
  | Some keys :: scan => cleanupStale scan (foldl (λ db '(key, io), clean_key io db key) db keys)
  | _ => db
  end.

(** ** What the store promises: the last heartbeat of every node, until it expires *)
Abbreviation hbSpec := (gmap string (HB * Z)).

Definition spec_live (s : hbSpec) (now : Z) (id : string) : option (HB * Z) :=
  match s !! id with Some (hb, e) => if now <? e then Some (hb, e) else None | None => None end.
Definition spec_save (s : hbSpec) (hb : HB) (ttl now : Z) : hbSpec := <[hb_NodeID hb := (hb, now + ttl)]> s.
Definition spec_renew (s : hbSpec) (now : Z) (id : string) : hbSpec :=
  match spec_live s now id with Some (hb, _) => <[id := (hb, now + 60 * second)]> s | None => s end.
Definition readable (hb : HB) : bool := Z.of_nat (length (hj_marshal j hb)) <=? maxHBDecompressedSize.
Definition spec_get (s : hbSpec) (now : Z) (id : string) : result HB * hbSpec :=
  match spec_live s now id with
  | None => (Err "redis: nil", s)
  | Some (hb, _) => if readable hb then (Ok hb, spec_renew s now id) else (Err "json", s)
  end.
Definition spec_clean (s : hbSpec) (now : Z) : hbSpec :=
  filter (λ '(_, (hb, _)), i64 (now / second - hb_TS hb) ≤ 300) s.

(** The store of [NodeLifecycle]. *)
Definition spec_redis (s : hbSpec) (revoked : gmap string Z) : RedisStore :=
  mkRedisStore ((λ '(hb, e), (hb_TS hb, e)) <$> s) revoked.

(** A hash stands for a heartbeat of a node. *)
Definition holds_heartbeat (id : string) (oh : option redisHash) (os : option (HB * Z)) : Prop :=
  match oh, os with
  | Some h, Some (hb, e) =>
      rh_fields h !! "d" = Some (saved hb) ∧ rh_fields h !! "ts" = Some (ts_bytes (hb_TS hb)) ∧
      rh_expiry h = Some e ∧ is_i64 (hb_TS hb)
  | None, None => True
  | _, _ => False
  end.
Definition stands_for (db : hashDB) (s : hbSpec) (now : Z) : Prop :=
  ∀ id, holds_heartbeat id (live db now (hKey id)) (spec_live s now id).

(** *** Lemmas on the commands *)
Lemma hKey_inj a b : hKey a = hKey b → a = b.
Proof. unfold hKey. intros [= H]. exact H. Qed.

Lemma live_insert db now key h k :
  live (<[key := h]> db) now k = if decide (k = key) then (if hash_alive h now then Some h else None) else live db now k.
Proof. unfold live. destruct (decide (k = key)) as [->|Hne]; [by rewrite lookup_insert_eq|by rewrite lookup_insert_ne]. Qed.

Lemma live_delete db now key k :
  live (delete key db) now k = if decide (k = key) then None else live db now k.
Proof. unfold live. destruct (decide (k = key)) as [->|Hne]; [by rewrite lookup_delete_eq|by rewrite lookup_delete_ne]. Qed.

Lemma live_alive db now key h : live db now key = Some h → hash_alive h now = true.
Proof. unfold live. destruct (db !! key); [|done]. case_match eqn:Ha; [|done]. by intros [= ->]. Qed.

Lemma live_hset db now key fs k :
  live (cmd_hset db now key fs) now k =
    if decide (k = key)
    then Some (match live db now key with
               | Some h => mkRedisHash (fs ∪ rh_fields h) (rh_expiry h) | None => mkRedisHash fs None end)
    else live db now k.
Proof.
  unfold cmd_hset. destruct (live db now key) as [h|] eqn:Hl; rewrite live_insert; destruct (decide (k = key)); try done.
  apply live_alive in Hl. unfold hash_alive in *. cbn. by rewrite Hl.
Qed.

Lemma live_expire db now key ttl k :
  live (cmd_expire db now key ttl) now k =
    if decide (k = key)
    then match live db now key with
         | Some h => if ttl <=? 0 then None else Some (mkRedisHash (rh_fields h) (Some (now + ttl))) | None => None end
    else live db now k.
Proof.
  unfold cmd_expire. destruct (live db now key) as [h|] eqn:Hl.
  - destruct (Z.leb_spec ttl 0).
    + rewrite live_delete. by destruct (decide (k = key)).
    + rewrite live_insert. destruct (decide (k = key)); [|done]. unfold hash_alive. cbn.
      by rewrite (proj2 (Z.ltb_lt now (now + ttl))) by lia.
  - destruct (decide (k = key)) as [->|]; [done|done].
Qed.

Lemma spec_live_insert s now id hb e k :
  spec_live (<[id := (hb, e)]> s) now k =
    if decide (k = id) then (if now <? e then Some (hb, e) else None) else spec_live s now k.
Proof. unfold spec_live. destruct (decide (k = id)) as [->|Hne]; [by rewrite lookup_insert_eq|by rewrite lookup_insert_ne]. Qed.

Lemma ts_bytes_read ts : is_i64 ts → ts_of (ts_bytes ts) = ts ∧ length (ts_bytes ts) = 8%nat.
Proof.
  intros Hts. unfold ts_of, ts_bytes. rewrite length_be_split. split; [|done].
  rewrite take_ge by (by rewrite length_be_split). rewrite be_combine_split. change (2 ^ (Z.of_nat 8 * 8)) with (2 ^ 64).
  rewrite <- (i64_id ts Hts) at 2. unfold i64, u64. f_equal. rewrite Z.mod_mod by lia.
  rewrite <- Zplus_mod_idemp_l. rewrite Z.mod_mod by lia. by rewrite Zplus_mod_idemp_l.
Qed.

(** *** The operations against the specification *)
Lemma stands_for_later db s now now' : now ≤ now' → stands_for db s now → stands_for db s now'.
Proof.
  intros Hle Hst id. specialize (Hst id). unfold live, spec_live in *.
  destruct (db !! hKey id) as [h|], (s !! id) as [[hb e]|]; [| | |done].
  - unfold hash_alive in *. destruct (rh_expiry h) as [x|] eqn:Hx.
    + destruct (Z.ltb_spec now x), (Z.ltb_spec now e), (Z.ltb_spec now' x), (Z.ltb_spec now' e); cbn in *; try done; try lia;
        destruct Hst as (_ & _ & Hst & _); rewrite Hx in Hst; injection Hst; lia.
    + destruct (now <? e); [|done]. cbn in Hst. destruct Hst as (_ & _ & Hst & _). congruence.
  - unfold hash_alive in *. destruct (rh_expiry h) as [x|]; [|done].
    destruct (Z.ltb_spec now x); [done|]. by rewrite (proj2 (Z.ltb_ge now' x)) by lia.
  - destruct (Z.ltb_spec now e); [done|]. by rewrite (proj2 (Z.ltb_ge now' e)) by lia.
Qed.

Lemma save_stands db s hb ttl now :
  is_i64 (hb_TS hb) → stands_for db s now →
  stands_for (save_commands save_fine db hb ttl now) (spec_save s hb ttl now) now.
Proof.
  intros Hts Hst id. unfold save_commands, spec_save. cbn [sv_hset sv_expire save_fine].
  rewrite live_expire, !live_hset, spec_live_insert. destruct (decide (id = hb_NodeID hb)) as [->|Hne].
  - rewrite !decide_True by done. destruct (Z.leb_spec ttl 0).
    + by rewrite (proj2 (Z.ltb_ge _ _)) by lia.
    + rewrite (proj2 (Z.ltb_lt now (now + ttl))) by lia. unfold hb_fields.
      destruct (live db now _) as [h|]; cbn [holds_heartbeat rh_fields rh_expiry]; split_and!; try done;
        rewrite lookup_union; by destruct (rh_fields h !! _).
  - rewrite !decide_False by (by intros ?%hKey_inj). apply Hst.
Qed.

Lemma renew_stands db s now id :
  stands_for db s now → stands_for (cmd_expire db now (hKey id) (60 * second)) (spec_renew s now id) now.
Proof.
  intros Hst k. rewrite live_expire. unfold spec_renew. pose proof (Hst id) as Hid.
  destruct (decide (k = id)) as [->|Hne].
  - rewrite decide_True by done. destruct (live db now (hKey id)) as [h|], (spec_live s now id) as [[hb e]|] eqn:Hs;
      [|done|done|by rewrite Hs].
    rewrite spec_live_insert, decide_True by done. unfold second. cbn [Z.leb Z.mul Pos.mul Z.compare].
    rewrite (proj2 (Z.ltb_lt now _)) by lia. cbn [holds_heartbeat] in Hid |- *. destruct Hid as (?&?&?&?). by split_and!.
  - rewrite decide_False by (by intros ?%hKey_inj). specialize (Hst k).
    destruct (spec_live s now id) as [[hb e]|]; [|done]. by rewrite spec_live_insert, decide_False.
Qed.

(** The check of a heartbeat writes its own field and renews the key. *)
Lemma lseen_stands db s now id b :
  stands_for db s now → is_Some (live db now (hKey id)) →
  stands_for (cmd_hset db now (hKey id) {["lseen" := b]}) s now.
Proof.
  intros Hst [h Hl] k. rewrite live_hset, Hl. destruct (decide (hKey k = hKey id)) as [->%hKey_inj|]; [|apply Hst].
  specialize (Hst id). rewrite Hl in Hst. unfold holds_heartbeat in *. destruct (spec_live s now id) as [[hb e]|]; [|done].
  cbn. by rewrite !lookup_union, !lookup_singleton_ne, !(left_id_L None _).
Qed.

Lemma stands_alive db s now id :
  stands_for db s now → bool_decide (is_Some (live db now (hKey id))) = bool_decide (is_Some (spec_live s now id)).
Proof.
  intros Hst. specialize (Hst id). apply bool_decide_ext.
  destruct (live db now (hKey id)), (spec_live s now id) as [[]|]; cbn in Hst; (done || by split; intros []).
Qed.

Lemma has_stands db s now id :
  stands_for db s now →
  (HasHeartbeat true true db id now).1 = bool_decide (is_Some (spec_live s now id)) ∧
  stands_for (HasHeartbeat true true db id now).2 (spec_renew s now id) now.
Proof.
  intros Hst. rewrite <- (stands_alive db s now id Hst). unfold HasHeartbeat, heartbeatCheckScript.
  destruct (live db now (hKey id)) as [h|] eqn:Hl; cbn [fst snd].
  - split; [done|]. apply renew_stands, lseen_stands; [done|by rewrite Hl].
  - split; [done|]. pose proof (Hst id) as Hid. rewrite Hl in Hid. unfold spec_renew.
    destruct (spec_live s now id) as [[]|]; [done|exact Hst].
Qed.

(** *** The clean-up *)
Lemma clean_key_live io db key k :
  live (clean_key io db key) (ci_now io) k =
    if decide (k = key) then (if clean_look io db key && ci_del io then None else live db (ci_now io) k)
    else live db (ci_now io) k.
Proof.
  unfold clean_key, clean_around. destruct (clean_look io db key && ci_del io); [by rewrite live_delete|by destruct (decide _)].
Qed.

Definition stale_hash (now : Z) (h : redisHash) : bool :=
  match rh_fields h !! "ts" with
  | Some b => (8 <=? length b)%nat && (300 <? i64 (now / second - ts_of b)) | None => false end.

(** With commands that all succeed at one moment every key of the batches is looked at. *)
Definition clean_fine (now : Z) : cleanIO := mkCleanIO true true now.
Definition at_once (now : Z) (keys : list string) : list (string * cleanIO) := (λ k, (k, clean_fine now)) <$> keys.
Definition scan_of (now : Z) (batches : list (list string)) : list (option (list (string * cleanIO))) :=
  (λ keys, Some (at_once now keys)) <$> batches.

Lemma clean_batch_live now keys db k :
  live (foldl (λ db '(key, io), clean_key io db key) db (at_once now keys)) now k =
    match live db now k with
    | Some h => if bool_decide (k ∈ keys) && stale_hash now h then None else Some h
    | None => None
    end.
Proof.
  revert db. induction keys as [|key keys IH]; intros db; cbn [at_once fmap list_fmap foldl].
  { destruct (live db now k); [|done]. by rewrite bool_decide_eq_false_2 by set_solver. }
  rewrite IH. change now with (ci_now (clean_fine now)) at 1. rewrite clean_key_live. cbn [ci_now clean_fine ci_del].
  rewrite andb_true_r. destruct (decide (k = key)) as [->|Hne].
  - unfold clean_look, cmd_hget. cbn [ci_get ci_now clean_fine]. destruct (live db now key) as [h|] eqn:Hl; cbn [mbind option_bind]; [|by destruct (_ && _)].
    rewrite (bool_decide_eq_true_2 (key ∈ key :: keys)) by by left. fold (stale_hash now h).
    cbn [andb]. destruct (stale_hash now h) eqn:Hs; [done|]. by rewrite Hs, andb_false_r.
  - destruct (live db now k); [|done].
    by rewrite (bool_decide_ext (k ∈ key :: keys) (k ∈ keys)) by set_solver.
Qed.

Lemma clean_live now batches db k :
  live (cleanupStale (scan_of now batches) db) now k =
    match live db now k with
    | Some h => if bool_decide (k ∈ concat batches) && stale_hash now h then None else Some h
    | None => None
    end.
Proof.
  revert db. induction batches as [|keys batches IH]; intros db.
  { cbn. destruct (live db now k); [|done]. by rewrite bool_decide_eq_false_2 by set_solver. }
  cbn [scan_of fmap list_fmap cleanupStale]. change (list_fmap _ _ _ batches) with (scan_of now batches).
  rewrite IH, clean_batch_live. destruct (live db now k) as [h|]; [|done]. cbn [concat].
  rewrite (bool_decide_ext (k ∈ keys ++ concat batches) (k ∈ keys ∨ k ∈ concat batches)) by set_solver.
  destruct (stale_hash now h) eqn:Hs; [rewrite !andb_true_r|by rewrite !andb_false_r, Hs, andb_false_r].
  repeat case_bool_decide; rewrite ?Hs; (done || tauto).
Qed.

Lemma clean_stands db s now batches :
  stands_for db s now → (∀ id, is_Some (live db now (hKey id)) → hKey id ∈ concat batches) →
  stands_for (cleanupStale (scan_of now batches) db) (spec_clean s now) now.
Proof.
  intros Hst Hcov id. rewrite clean_live. specialize (Hcov id). specialize (Hst id). unfold spec_live, spec_clean in *.
  rewrite map_lookup_filter. destruct (live db now (hKey id)) as [h|].
  - rewrite bool_decide_eq_true_2 by eauto. destruct (s !! id) as [[hb e]|]; [|done].
    destruct (now <? e) eqn:He; [|done]. cbn in Hst. destruct Hst as (Hd & Ht & Hx & Hts). cbn [andb].
    unfold stale_hash. rewrite Ht. destruct (ts_bytes_read _ Hts) as [-> ->]. cbn [Nat.leb andb mbind option_bind].
    destruct (Z.ltb_spec 300 (i64 (now / second - hb_TS hb))).
    + by rewrite option_guard_False by lia.
    + rewrite option_guard_True by lia. cbn. by rewrite He.
  - destruct (s !! id) as [[hb e]|]; [|done]. cbn. case_guard; cbn; [|done]. by destruct (now <? e).
Qed.

(** ** The store of the node life cycle *)
(** The operations [NodeLifecycle] uses are those of the map, seen through the
    timestamps. *)
Theorem lifecycle_store_refined s revoked hb ttl id now :
  RedisStore_SaveHeartbeat true (spec_redis s revoked) (hb_NodeID hb) (hb_TS hb) ttl now =
    (Ok tt, spec_redis (spec_save s hb ttl now) revoked) ∧
  RedisStore_HasHeartbeat true true (spec_redis s revoked) id now =
    (bool_decide (is_Some (spec_live s now id)), spec_redis (spec_renew s now id) revoked) ∧
  RedisStore_cleanupStale (spec_redis s revoked) now = spec_redis (spec_clean s now) revoked.
Proof.
  unfold RedisStore_SaveHeartbeat, RedisStore_HasHeartbeat, RedisStore_cleanupStale, spec_redis, hb_alive, spec_save,
    spec_renew, spec_live, spec_clean. cbn [negb rd_heartbeats rd_revoked].
  split; [by rewrite fmap_insert|]. split.
  - rewrite lookup_fmap. destruct (s !! id) as [[hb0 e]|] eqn:Hs; cbn [fmap option_fmap option_map]; [|done].
    destruct (now <? e); cbn; [|done]. rewrite fmap_insert. do 2 f_equal. apply map_eq. intros k.
    destruct (decide (id = k)) as [<-|Hne]; [|by rewrite lookup_alter_ne, lookup_insert_ne].
    by rewrite lookup_alter_eq, lookup_insert_eq, lookup_fmap, Hs.
  - f_equal. rewrite map_filter_fmap. f_equal. apply map_filter_ext. intros i [hb0 e] _. done.
Qed.

(** ** Commands that fail *)
Lemma live_no_expiry (db : hashDB) (key : string) (fs : gmap string bytes) (later : Z) :
  live (<[key := mkRedisHash fs None]> db) later key = Some (mkRedisHash fs None).
Proof. by rewrite live_insert, decide_True. Qed.

(** A save whose [EXPIRE] is lost reports an error, but of a node without a key
    it leaves one that no time ends: the node counts as alive until a clean-up. *)
Theorem save_without_expiry db hb ttl now later :
  live db now (hKey (hb_NodeID hb)) = None →
  let '(r, db') := SaveHeartbeat (mkSaveIO true false) db hb ttl now in
  r = Err "redis" ∧ live db' later (hKey (hb_NodeID hb)) = Some (mkRedisHash (hb_fields hb) None) ∧
  (HasHeartbeat false true db' (hb_NodeID hb) later).1 = true.
Proof.
  intros Hl. cbn -[live hb_fields hKey]. unfold cmd_hset. rewrite Hl. split; [done|].
  unfold HasHeartbeat. rewrite live_no_expiry. by split.
Qed.

Lemma clean_key_lookup io db key k :
  clean_key io db key !! k = db !! k ∨ clean_key io db key !! k = None ∧ k = key ∧ clean_look io db k = true.
Proof.
  unfold clean_key, clean_around. destruct (clean_look io db key && ci_del io) eqn:Hc; [|by left].
  destruct (decide (k = key)) as [->|Hne]; [|left; by rewrite lookup_delete_ne].
  right. split; [by rewrite lookup_delete_eq|]. by apply andb_true_iff in Hc as [? _].
Qed.

(** A look sees one key only. *)
Lemma clean_look_same io db db' k : db' !! k = db !! k → clean_look io db' k = clean_look io db k.
Proof. intros He. unfold clean_look, cmd_hget, live. by rewrite He. Qed.

Lemma clean_batch_lookup (keys : list (string * cleanIO)) db k :
  let db' := foldl (λ db '(key, io), clean_key io db key) db keys in
  db' !! k = db !! k ∨ db' !! k = None ∧ ∃ io, (k, io) ∈ keys ∧ clean_look io db k = true.
Proof.
  revert db. induction keys as [|[key io] keys IH]; intros db; cbn; [by left|].
  specialize (IH (clean_key io db key)). cbv zeta in IH. destruct (clean_key_lookup io db key k) as [Hk|(Hk & -> & Hl)].
  - rewrite Hk in IH. destruct IH as [|[? (io' & Hin & Hl)]]; [by left|]. right. split; [done|]. exists io'.
    split; [by right|]. by rewrite <- (clean_look_same io' db (clean_key io db key)).
  - right. split; [|exists io; split; [by left|done]]. destruct IH as [->|[-> _]]; done.
Qed.

Lemma clean_look_stale io db k :
  clean_look io db k = true →
  ∃ h b, live db (ci_now io) k = Some h ∧ rh_fields h !! "ts" = Some b ∧ (8 ≤ length b)%nat ∧
    300 < i64 (ci_now io / second - ts_of b).
Proof.
  unfold clean_look, cmd_hget. destruct (ci_get io); [|done]. destruct (live db (ci_now io) k) as [h|]; [|done]. cbn.
  destruct (rh_fields h !! "ts") as [b|] eqn:Hb; [|done]. intros [Hlen Hold]%andb_true_iff.
  exists h, b. split_and!; [done|done|by apply Nat.leb_le|lia].
Qed.

(** Whatever commands of a clean-up fail, and whatever [SCAN] returned, a key is
    kept as it was, or it was looked at when its timestamp was more than five minutes old. *)
Theorem cleanup_only_stale scan db k :
  cleanupStale scan db !! k = db !! k ∨
  cleanupStale scan db !! k = None ∧
  ∃ keys io h b, Some keys ∈ scan ∧ (k, io) ∈ keys ∧ live db (ci_now io) k = Some h ∧
    rh_fields h !! "ts" = Some b ∧ (8 ≤ length b)%nat ∧ 300 < i64 (ci_now io / second - ts_of b).
Proof.
  revert db. induction scan as [|[keys|] scan IH]; intros db; cbn [cleanupStale]; [by left| |by left].
  specialize (IH (foldl (λ db '(key, io), clean_key io db key) db keys)).
  destruct (clean_batch_lookup keys db k) as [He|[He (io & Hin & Hl)]].
  - rewrite He in IH. destruct IH as [|[Hn (ks & io & h & b & Hs & Hin & Hl & Hrest)]]; [by left|].
    right. split; [done|]. exists ks, io, h, b. split; [by right|]. split; [done|]. split; [|done].
    revert Hl. unfold live. by rewrite He.
  - right. split; [destruct IH as [->|[-> _]]; done|]. apply clean_look_stale in Hl as (h & b & Hl).
    exists keys, io, h, b. split; [by left|]. by split.
Qed.

(** A heartbeat saved between the look of the clean-up at an old one and its
    [DEL] is lost although its save succeeded. *)
Theorem cleanup_race_loses_heartbeat io db hb ttl now :
  clean_look io db (hKey (hb_NodeID hb)) = true → ci_del io = true → 0 < ttl →
  (SaveHeartbeat save_fine db hb ttl now).1 = Ok tt ∧
  is_Some (live (save_commands save_fine db hb ttl now) now (hKey (hb_NodeID hb))) ∧
  (GetHeartbeat true true
     (clean_around (λ db, save_commands save_fine db hb ttl now) io db (hKey (hb_NodeID hb)))
     (hb_NodeID hb) now).1 = Err "redis: nil".
Proof.
  intros Hl Hd Httl. split; [done|]. split.
  - unfold save_commands. cbn [sv_hset sv_expire save_fine]. rewrite live_expire, live_hset, !decide_True by done.
    by rewrite (proj2 (Z.leb_gt _ _)) by lia.
  - unfold clean_around. rewrite Hl, Hd. cbn [andb]. unfold GetHeartbeat, cmd_hget. cbn [negb]. by rewrite live_delete, decide_True.
Qed.

(** *** Reading heartbeats *)
Hypothesis json_ok : heartbeatJSON_ok j.
Hypothesis zip_ok : codec_ok gzip.
Hypothesis zip_magic : ∀ ws, take 2 (concat (zip_pieces gzip ws)) = gzip_magic.

Lemma get_stands db s now id :
  stands_for db s now →
  (GetHeartbeat true true db id now).1 = (spec_get s now id).1 ∧
  stands_for (GetHeartbeat true true db id now).2 (spec_get s now id).2 now.
Proof.
  intros Hst. unfold GetHeartbeat, cmd_hget, spec_get. cbn [negb]. pose proof (Hst id) as Hid.
  destruct (live db now (hKey id)) as [h|], (spec_live s now id) as [[hb e]|]; try done. cbn in Hid |- *.
  destruct Hid as (-> & _). rewrite (heartbeat_storage_roundtrip j gzip hb json_ok zip_ok zip_magic). fold (readable hb).
  destruct (readable hb); [|done]. split; [done|]. by apply renew_stands.
Qed.

Lemma read_spec db s now id :
  stands_for db s now →
  read_heartbeat db now id = match (spec_get s now id).1 with Ok hb => Some hb | _ => None end.
Proof.
  intros Hst. unfold read_heartbeat, spec_get. specialize (Hst id).
  destruct (live db now (hKey id)) as [h|], (spec_live s now id) as [[hb e]|]; try done. cbn in Hst |- *.
  destruct Hst as (-> & _). cbn. rewrite (heartbeat_storage_roundtrip j gzip hb json_ok zip_ok zip_magic).
  fold (readable hb). by destruct (readable hb).
Qed.

(** Every node of the list, as of the beginning; those that were read are renewed. *)
Definition spec_get_all (s : hbSpec) (now : Z) (ids : list string) : gmap string HB * hbSpec :=
  (foldl (λ m id, match (spec_get s now id).1 with Ok hb => <[id := hb]> m | _ => m end) ∅ ids,
   foldl (λ s' id, match (spec_get s now id).1 with Ok _ => spec_renew s' now id | _ => s' end) s ids).

Lemma collect_stands read s now ids db s' res :
  stands_for read s now → stands_for db s' now →
  (collect_heartbeats (λ _, true) read db now ids res).1 =
    foldl (λ m id, match (spec_get s now id).1 with Ok hb => <[id := hb]> m | _ => m end) res ids ∧
  stands_for (collect_heartbeats (λ _, true) read db now ids res).2
    (foldl (λ s' id, match (spec_get s now id).1 with Ok _ => spec_renew s' now id | _ => s' end) s' ids) now.
Proof.
  intros Hread. revert db s' res. induction ids as [|id ids IH]; intros db s' res Hst; cbn [collect_heartbeats foldl]; [done|].
  rewrite (read_spec read s now id Hread). destruct (spec_get s now id).1; apply IH; [by apply renew_stands|done..].
Qed.

Lemma save_all_stands ttl now hbs db s :
  Forall (λ hb, is_i64 (hb_TS hb)) hbs → stands_for db s now →
  (PipelineSaveHeartbeats (replicate (length hbs) save_fine) db hbs ttl now).1 = Ok tt ∧
  stands_for (PipelineSaveHeartbeats (replicate (length hbs) save_fine) db hbs ttl now).2
    (foldl (λ s hb, spec_save s hb ttl now) s hbs) now.
Proof.
  intros Hall. revert db s. induction Hall as [|hb hbs Hts _ IH]; intros db s Hst; cbn [PipelineSaveHeartbeats length replicate foldl]; [done|].
  destruct (IH _ _ (save_stands _ _ _ ttl _ Hts Hst)) as [H1 H2].
  by destruct (PipelineSaveHeartbeats _ _ _ _ _).
Qed.

(** ** Runs of the store *)
Inductive hbOp :=
| OpSave (hb : HB) (ttl : Z)
| OpSaveAll (hbs : list HB) (ttl : Z)
| OpGet (id : string)
| OpGetAll (ids : list string)
| OpHas (id : string)
| OpClean (batches : list (list string)).
Inductive hbAns :=
| AnsUnit (r : result unit) | AnsHB (r : result HB) | AnsAll (r : result (gmap string HB)) | AnsBool (b : bool).

Definition store_op (op : hbOp) (now : Z) (db : hashDB) : hbAns * hashDB :=
  match op with
  | OpSave hb ttl => let '(r, db) := SaveHeartbeat save_fine db hb ttl now in (AnsUnit r, db)
  | OpSaveAll hbs ttl =>
      let '(r, db) := PipelineSaveHeartbeats (replicate (length hbs) save_fine) db hbs ttl now in (AnsUnit r, db)
  | OpGet id => let '(r, db) := GetHeartbeat true true db id now in (AnsHB r, db)
  | OpGetAll ids => let '(r, db) := GetAllHeartbeats true (λ _, true) db ids now in (AnsAll r, db)
  | OpHas id => let '(b, db) := HasHeartbeat true true db id now in (AnsBool b, db)
  | OpClean batches => (AnsUnit (Ok tt), cleanupStale (scan_of now batches) db)
  end.

Definition spec_op (op : hbOp) (now : Z) (s : hbSpec) : hbAns * hbSpec :=
  match op with
  | OpSave hb ttl => (AnsUnit (Ok tt), spec_save s hb ttl now)
  | OpSaveAll hbs ttl => (AnsUnit (Ok tt), foldl (λ s hb, spec_save s hb ttl now) s hbs)
  | OpGet id => let '(r, s) := spec_get s now id in (AnsHB r, s)
  | OpGetAll ids => let '(m, s) := spec_get_all s now ids in (AnsAll (Ok m), s)
  | OpHas id => (AnsBool (bool_decide (is_Some (spec_live s now id))), spec_renew s now id)
  | OpClean _ => (AnsUnit (Ok tt), spec_clean s now)
  end.

(** Timestamps are 64 bits wide, and [SCAN] returns every key that exists. *)
Definition fair_op (op : hbOp) (now : Z) (db : hashDB) : Prop :=
  match op with
  | OpSave hb _ => is_i64 (hb_TS hb)
  | OpSaveAll hbs _ => Forall (λ hb, is_i64 (hb_TS hb)) hbs
  | OpClean batches => ∀ id, is_Some (live db now (hKey id)) → hKey id ∈ concat batches
  | _ => True
  end.

Fixpoint run_store (ops : list (Z * hbOp)) (db : hashDB) : list hbAns :=
  match ops with
  | [] => []
  | (now, op) :: ops => let '(a, db) := store_op op now db in a :: run_store ops db
  end.
Fixpoint run_spec (ops : list (Z * hbOp)) (s : hbSpec) : list hbAns :=
  match ops with
  | [] => []
  | (now, op) :: ops => let '(a, s) := spec_op op now s in a :: run_spec ops s
  end.
(** The clock does not run backwards. *)
Fixpoint fair_run (t : Z) (ops : list (Z * hbOp)) (db : hashDB) : Prop :=
  match ops with
  | [] => True
  | (now, op) :: ops => t ≤ now ∧ fair_op op now db ∧ fair_run now ops (store_op op now db).2
  end.

Lemma op_stands op now db s :
  stands_for db s now → fair_op op now db →
  (store_op op now db).1 = (spec_op op now s).1 ∧ stands_for (store_op op now db).2 (spec_op op now s).2 now.
Proof.
  intros Hst Hf. destruct op as [hb ttl|hbs ttl|id|ids|id|batches]; cbn [store_op spec_op fair_op] in *.
  - unfold SaveHeartbeat. cbn. split; [done|]. by apply save_stands.
  - destruct (save_all_stands ttl now hbs db s Hf Hst) as [H1 H2]. destruct (PipelineSaveHeartbeats _ _ _ _ _). cbn in *. by subst.
  - destruct (get_stands db s now id Hst) as [H1 H2]. destruct (GetHeartbeat _ _ _ _ _), (spec_get _ _ _). cbn in *. by subst.
  - unfold GetAllHeartbeats, spec_get_all. destruct ids as [|id ids]; [done|]. cbn [negb].
    destruct (collect_stands db s now (id :: ids) db s ∅ Hst Hst) as [H1 H2]. destruct (collect_heartbeats _ _ _ _ _ _). cbn [fst snd] in *. by subst.
  - destruct (has_stands db s now id Hst) as [H1 H2]. destruct (HasHeartbeat _ _ _ _ _). cbn in *. by subst.
  - cbn. split; [done|]. by apply clean_stands.
Qed.

(** C19 (refinement): The heartbeats in Redis are a map from nodes to heartbeats: in any run of
    saves, batches of saves, reads, checks and clean-ups whose commands succeed, every answer
    is the one of the map that holds the last heartbeat of each node until it expires, is
    renewed for a minute by every read and check, and loses the heartbeats whose timestamp is
    more than five minutes old at a clean-up; the bytes of the hash, its compression and the
    batches of [SCAN] cannot be seen. *)
Theorem heartbeat_store_refines t ops db s :
  stands_for db s t → fair_run t ops db → run_store ops db = run_spec ops s.
Proof.
  revert t db s. induction ops as [|[now op] ops IH]; intros t db s Hst; cbn [run_store run_spec fair_run]; [done|].
  intros (Hle & Hf & Hrun). apply (stands_for_later db s t now Hle) in Hst.
  destruct (op_stands op now db s Hst Hf) as [H1 H2].
  destruct (store_op op now db) as [a db'], (spec_op op now s) as [a' s']. cbn [fst snd] in *. subst a'.
  f_equal. by apply (IH now).
Qed.
End store.

(** ** A concrete run *)
Definition demo_node (n : nat) : string := if Nat.even n then "even" else "odd".
Definition demo_ts (n : nat) : Z := Z.of_nat n.
Definition demo_ops : list (Z * hbOp) :=
  [(0, OpSave 300%nat (60 * second)); (second, OpSaveAll [301%nat; 12%nat] (60 * second)); (2 * second, OpGet "even");
   (50 * second, OpGetAll ["odd"; "none"; "even"]); (100 * second, OpHas "odd"); (101 * second, OpHas "none");
   (130 * second, OpGet "even"); (400 * second, OpClean [["h:odd"]; ["h:even"]]); (401 * second, OpHas "odd")].

Lemma heartbeat_store_refines_witness :
  run_store demo_node demo_ts demo_json demo_zip demo_ops ∅ =
    [AnsUnit (Ok tt); AnsUnit (Ok tt); AnsHB (Ok 12%nat); AnsAll (Ok {["odd" := 301%nat; "even" := 12%nat]});
     AnsBool true; AnsBool false; AnsHB (Err "redis: nil"); AnsUnit (Ok tt); AnsBool false].
Proof.
  rewrite (heartbeat_store_refines demo_node demo_ts demo_json demo_zip demo_json_ok demo_zip_ok (λ _, eq_refl) 0 demo_ops ∅ ∅);
    [vm_compute; reflexivity|done|].
  assert (Hts : ∀ n, (n < 1000)%nat → is_i64 (demo_ts n)) by (intros; unfold is_i64, demo_ts; lia).
  unfold demo_ops. cbn [fair_run fair_op]. split_and!; try (unfold second; lia); try done.
  - repeat constructor; apply Hts; lia.
  - intros id [h Hl]. revert Hl. unfold live. case_match eqn:Hk; [|done]. intros _.
    apply elem_of_dom_2 in Hk. revert Hk. match goal with |- _ ∈ dom ?db → _ => assert (Hd : dom db = {["h:odd"; "h:even"]}) by (vm_compute; reflexivity) end.
    rewrite Hd. clear. rewrite elem_of_union, !elem_of_singleton. intros [->| ->]; set_solver.
Defined.
