(* ===== verification/Metrics.v ===== *)
(** * Metrics ([internal/metrics/metrics.go]; [promMetrics], [handleMetrics] and [handleHealthz]
      in [internal/edgeagent/server.go]; [newAPIMetrics] and [handleMetrics] in
      [internal/controlplane/api.go])

    One registry per process holds gauges and counters by name, each with one number per
    combination of label values; the combination is kept as one text with a NUL byte between
    the values, and taken apart again when the metrics are shown.  The formatting of a number
    is an argument.

    The theorems: what is set for some label values is shown under exactly these, and touches
    no other combination; what the edge adds to its counters at each request of the page
    is what was counted since the last one; the page of the control plane shows the node
    table. *)

From S2P Require Import Prelude GoStrings GoFloat Models EdgeCache Manifest Fetcher Prefetch Tokens EdgeServer NodeLifecycle Reporter.
From Stdlib Require Import Ascii.

(** ** The registry *)
Inductive metricType := typeGauge | typeCounter.
Record metricEntry := mkMetricEntry {
  me_name : string; me_help : string; me_mtype : metricType; me_labels : list string
}.
Record metric := mkMetric { mt_entry : metricEntry; mt_values : gmap string float64 }.
Record registry := mkRegistry {
  rg_gauges : gmap string metric; rg_counters : gmap string metric; rg_entries : list metricEntry
}.
Definition empty_registry : registry := mkRegistry ∅ ∅ [].

(** [GaugeFn] and [CounterFn]: the metric, by its name, and the labels of the caller. *)
Record metricFn := mkMetricFn { fn_name : string; fn_labels : list string }.

(** A name that is registered already keeps its entry. *)
Definition NewGauge (name help : string) (labels : list string) (r : registry) : metricFn * registry :=
  (mkMetricFn name labels,
   match rg_gauges r !! name with
   | Some _ => r
   | None => let e := mkMetricEntry name help typeGauge labels in
             mkRegistry (<[name := mkMetric e ∅]> (rg_gauges r)) (rg_counters r) (rg_entries r ++ [e])
   end).
Definition NewCounter (name help : string) (labels : list string) (r : registry) : metricFn * registry :=
  (mkMetricFn name labels,
   match rg_counters r !! name with
   | Some _ => r
   | None => let e := mkMetricEntry name help typeCounter labels in
             mkRegistry (rg_gauges r) (<[name := mkMetric e ∅]> (rg_counters r)) (rg_entries r ++ [e])
   end).

Definition nul : ascii := ascii_of_nat 0.

Definition makeLabelKey (labels values : list string) : string :=
  if negb (length labels =? length values)%nat then "_" else of_chars (join_with nul (to_chars <$> values)).

Definition set_value (key : string) (f : float64 → float64) (m : metric) : metric :=
  mkMetric (mt_entry m) (<[key := f (default fzero (mt_values m !! key))]> (mt_values m)).

Definition GaugeFn_Set (g : metricFn) (value : float64) (labelVals : list string) (r : registry) : registry :=
  mkRegistry (alter (set_value (makeLabelKey (fn_labels g) labelVals) (λ _, value)) (fn_name g) (rg_gauges r))
    (rg_counters r) (rg_entries r).
Definition CounterFn_Add (c : metricFn) (delta : float64) (labelVals : list string) (r : registry) : registry :=
  mkRegistry (rg_gauges r)
    (alter (set_value (makeLabelKey (fn_labels c) labelVals) (λ v, fadd v delta)) (fn_name c) (rg_counters r)) (rg_entries r).
Definition CounterFn_Inc (c : metricFn) (labelVals : list string) (r : registry) : registry :=
  CounterFn_Add c (float_of_Z 1) labelVals r.

(** ** The page *)
Section page.
(** [%g]. *)
Context (format_g : float64 → string).

Definition quote : ascii := ascii_of_nat 34.
Definition label_text (label value : chars) : chars := label ++ [ascii_of_nat 61; quote] ++ value ++ [quote].

Definition formatLabels (labels : list string) (key : string) : chars :=
  if String.eqb key "_" || bool_decide (labels = []) then []
  else
    let values := split_on nul (to_chars key) in
    if negb (length values =? length labels)%nat then []
    else [ascii_of_nat 123] ++ join_with (ascii_of_nat 44) (zip_with (λ l v, label_text (to_chars l) v) labels values)
           ++ [ascii_of_nat 125].

(** [sort.Strings]. *)
#[local] Instance string_le_dec : RelDecision (λ a b : string, String.leb a b = true) := λ a b, decide _.
Definition sorted_keys (m : metric) : list string :=
  merge_sort (λ a b : string, String.leb a b = true) (map_to_list (mt_values m)).*1.

Definition value_line (e : metricEntry) (key : string) (v : float64) : chars :=
  to_chars (me_name e) ++ formatLabels (me_labels e) key ++ [ascii_of_nat 32] ++ to_chars (format_g v).
Definition writeValues (e : metricEntry) (m : metric) : list chars :=
  (λ key, value_line e key (default fzero (mt_values m !! key))) <$> sorted_keys m.

Definition type_text (t : metricType) : chars := to_chars (match t with typeCounter => "counter" | typeGauge => "gauge" end).
(** The lines of [writeTo]. *)
Definition write_entry (r : registry) (e : metricEntry) : list chars :=
  let metrics := match me_mtype e with typeGauge => rg_gauges r | typeCounter => rg_counters r end in
  [to_chars "# HELP " ++ to_chars (me_name e) ++ [ascii_of_nat 32] ++ to_chars (me_help e);
   to_chars "# TYPE " ++ to_chars (me_name e) ++ [ascii_of_nat 32] ++ type_text (me_mtype e)] ++
  match metrics !! me_name e with Some m => writeValues e m | None => [] end.
Definition writeTo (r : registry) : list chars := rg_entries r ≫= write_entry r.

(** ** Series *)
Definition plain_values (labels values : list string) : Prop :=
  length values = length labels ∧ values ≠ [] ∧ Forall (λ v, nul ∉ to_chars v) values ∧ values ≠ ["_"].

Lemma label_key_values labels values :
  plain_values labels values → split_on nul (to_chars (makeLabelKey labels values)) = to_chars <$> values.
Proof.
  intros (Hl & Hne & Hf & _). unfold makeLabelKey. rewrite Hl, Nat.eqb_refl. cbn [negb]. rewrite to_of_chars.
  apply split_join; [by destruct values|]. by apply Forall_fmap.
Qed.

Lemma label_key_plain labels values : plain_values labels values → makeLabelKey labels values ≠ "_".
Proof.
  intros Hp Hk. pose proof (label_key_values _ _ Hp) as Hs. rewrite Hk in Hs. change (split_on nul (to_chars "_")) with [to_chars "_"] in Hs.
  destruct Hp as (_ & _ & _ & Hne). apply Hne. destruct values as [|v [|w values]]; try done. injection Hs as Hs.
  by rewrite <- (of_to_chars v), <- Hs.
Qed.

Lemma label_key_inj labels values values' :
  plain_values labels values → plain_values labels values' → makeLabelKey labels values = makeLabelKey labels values' → values = values'.
Proof.
  intros H1 H2 Hk. apply label_key_values in H1. apply label_key_values in H2. rewrite Hk, H2 in H1.
  assert (Hback : ∀ l : list string, of_chars <$> (to_chars <$> l) = l).
  { intros l. induction l as [|x l IH]; [done|]. cbn [fmap list_fmap]. f_equal; [apply of_to_chars|exact IH]. }
  rewrite <- (Hback values), <- (Hback values'). f_equal. symmetry. exact H1.
Qed.

(** How label values are shown: by name and in order. *)
Definition shown_labels (labels values : list string) : chars :=
  [ascii_of_nat 123] ++ join_with (ascii_of_nat 44) (zip_with (λ l v, label_text (to_chars l) (to_chars v)) labels values)
    ++ [ascii_of_nat 125].

Lemma formatted labels values : plain_values labels values → formatLabels labels (makeLabelKey labels values) = shown_labels labels values.
Proof.
  intros Hp. unfold formatLabels. rewrite (proj2 (String.eqb_neq _ _) (label_key_plain _ _ Hp)), (label_key_values _ _ Hp).
  destruct Hp as (Hl & Hne & _). rewrite bool_decide_eq_false_2 by (by destruct labels, values). cbn [orb].
  rewrite length_fmap, Hl, Nat.eqb_refl. cbn [negb]. unfold shown_labels. by rewrite zip_with_fmap_r.
Qed.

(** A gauge that is registered under the labels of its caller. *)
Record registered (g : metricFn) (r : registry) (e : metricEntry) (m : metric) : Prop := {
  re_metric : rg_gauges r !! fn_name g = Some m;
  re_entry : e ∈ rg_entries r ∧ me_name e = fn_name g ∧ me_mtype e = typeGauge ∧ me_labels e = fn_labels g
}.

(** A number that a registered gauge has for some label values has its line on the page. *)
Lemma number_shown g r e m values v :
  registered g r e m → plain_values (fn_labels g) values → mt_values m !! makeLabelKey (fn_labels g) values = Some v →
  (to_chars (fn_name g) ++ shown_labels (fn_labels g) values ++ [ascii_of_nat 32] ++ to_chars (format_g v)) ∈ writeTo r.
Proof.
  intros [Hm (Hin & Hname & Ht & Hl)] Hp Hv. unfold writeTo. apply list_elem_of_bind. exists e. split; [|done].
  unfold write_entry. rewrite Ht, Hname, Hm. apply elem_of_app. right. unfold writeValues. apply list_elem_of_fmap.
  exists (makeLabelKey (fn_labels g) values). split.
  - unfold value_line. by rewrite Hv, Hname, Hl, <- formatted.
  - unfold sorted_keys. rewrite merge_sort_Permutation. apply list_elem_of_fmap. eexists (_, v).
    split; [done|by apply elem_of_map_to_list].
Qed.

(** What is set is what is shown: after a gauge was set for some label
    values the page has the line with its name, each label with its value, and the number;
    the numbers of all other label values, and all other metrics, stay as they were. *)
Theorem set_value_shown g v values r e m :
  registered g r e m → plain_values (fn_labels g) values →
  let r' := GaugeFn_Set g v values r in
  (to_chars (fn_name g) ++ shown_labels (fn_labels g) values ++ [ascii_of_nat 32] ++ to_chars (format_g v)) ∈ writeTo r' ∧
  (∀ values', plain_values (fn_labels g) values' → values' ≠ values →
     ∃ m', rg_gauges r' !! fn_name g = Some m' ∧
       mt_values m' !! makeLabelKey (fn_labels g) values' = mt_values m !! makeLabelKey (fn_labels g) values') ∧
  rg_counters r' = rg_counters r ∧ (∀ name, name ≠ fn_name g → rg_gauges r' !! name = rg_gauges r !! name).
Proof.
  intros [Hm (Hin & Hname & Ht & Hl)] Hp r'. set (key := makeLabelKey (fn_labels g) values).
  set (m' := set_value key (λ _, v) m). assert (Hm' : rg_gauges r' !! fn_name g = Some m').
  { unfold r'. cbn. by rewrite lookup_alter_eq, Hm. }
  assert (Hv : mt_values m' !! key = Some v) by apply lookup_insert_eq.
  split_and!; [| |done|].
  - apply (number_shown g r' e m'); [by split|done|exact Hv].
  - intros values' Hp' Hne. exists m'. split; [done|]. unfold m', set_value. cbn. rewrite lookup_insert_ne; [done|].
    intros Hk. apply Hne. symmetry. by eapply label_key_inj.
  - intros name Hne. unfold r'. cbn. by rewrite lookup_alter_ne.
Qed.

(** Values that do not fit the labels share one number, which is shown without labels. *)
Lemma misfits_share g v values w values' r m :
  length values ≠ length (fn_labels g) → length values' ≠ length (fn_labels g) → rg_gauges r !! fn_name g = Some m →
  (λ m, mt_values m !! "_") <$> rg_gauges (GaugeFn_Set g w values' (GaugeFn_Set g v values r)) !! fn_name g = Some (Some w).
Proof.
  intros H1 H2 Hm. unfold GaugeFn_Set, makeLabelKey. cbn.
  rewrite (proj2 (Nat.eqb_neq _ _) (not_eq_sym H1)), (proj2 (Nat.eqb_neq _ _) (not_eq_sym H2)). cbn.
  rewrite !lookup_alter_eq, Hm. cbn. by rewrite lookup_insert_eq.
Qed.
End page.

(** ** The metrics of the edge *)

(** [promMetrics]: what the counters were at the last page. *)
Record promMetrics := mkPromMetrics { pm_last : serverMetrics }.

Definition add_delta (name : string) (current last : Z) (r : registry) : registry :=
  let delta := i64 (current - last) in
  if 0 <? delta then CounterFn_Add (mkMetricFn name []) (float_of_Z delta) [] r else r.

Definition addDeltas (m : serverMetrics) (p : promMetrics) (r : registry) : promMetrics * registry :=
  let l := pm_last p in
  let r := add_delta "edge_requests_total" (sm_requests m) (sm_requests l) r in
  let r := add_delta "edge_cache_hits_total" (sm_cacheHits m) (sm_cacheHits l) r in
  let r := add_delta "edge_cache_misses_total" (sm_cacheMisses m) (sm_cacheMisses l) r in
  let r := add_delta "edge_bytes_sent_total" (sm_bytesSent m) (sm_bytesSent l) r in
  let r := add_delta "edge_errors_total" (sm_errors m) (sm_errors l) r in
  (mkPromMetrics m, r).

(** The metrics [NewServer] registers. *)
Definition edge_registry (r : registry) : registry :=
  let r := (NewCounter "edge_requests_total" "Total number of requests" [] r).2 in
  let r := (NewCounter "edge_cache_hits_total" "Total number of cache hits" [] r).2 in
  let r := (NewCounter "edge_cache_misses_total" "Total number of cache misses" [] r).2 in
  let r := (NewCounter "edge_bytes_sent_total" "Total number of bytes sent" [] r).2 in
  let r := (NewCounter "edge_errors_total" "Total number of errors" [] r).2 in
  (NewGauge "edge_cache_size_bytes" "Current cache size in bytes" [] r).2.

Inductive metricsReply :=
| MetricsJSON (m : serverMetrics) (ingress egress : float64) (goroutines cpus : Z) (cache : CacheStats)
    (streaming : option StreamingMetrics)
| MetricsText (lines : list chars).

(** [handleMetrics]; [format] is the query parameter. *)
Definition handleMetrics (format_g : float64 → string) (now goroutines cpus : Z) (format : string) (s : Server)
    (b : BandwidthMeter) (p : promMetrics) (r : registry) : metricsReply * BandwidthMeter * promMetrics * registry :=
  let cs := Cache_Stats (sv_cache s) in
  let '((ingress, egress), b) := BandwidthMeter_Snapshot now s b in
  let '(p, r) := addDeltas (sv_metrics s) p r in
  let r := GaugeFn_Set (mkMetricFn "edge_cache_size_bytes" []) (float_of_Z (stat_Size cs)) [] r in
  (if String.eqb format "json"
   then MetricsJSON (sv_metrics s) ingress egress goroutines cpus cs (Handler_Metrics <$> sv_streamH s)
   else MetricsText (writeTo format_g r), b, p, r).

(** The status and the members of the answer. *)
Definition handleHealthz : Z * list (string * string) := (200, [("status", "ok")]).

(** Successive requests of the page, whatever their format: clock, figures and server. *)
Record scrape := mkScrape { sc_now : Z; sc_format : string; sc_server : Server }.
Fixpoint scrapes (format_g : float64 → string) (l : list scrape) (b : BandwidthMeter) (p : promMetrics) (r : registry)
    : promMetrics * registry :=
  match l with
  | [] => (p, r)
  | x :: l => let '(_, b, p, r) := handleMetrics format_g (sc_now x) 0 1 (sc_format x) (sc_server x) b p r in
              scrapes format_g l b p r
  end.

(** The counters of the page and what they count. *)
Definition edge_counters : list (string * (serverMetrics → Z)) :=
  [("edge_requests_total", sm_requests); ("edge_cache_hits_total", sm_cacheHits);
   ("edge_cache_misses_total", sm_cacheMisses); ("edge_bytes_sent_total", sm_bytesSent);
   ("edge_errors_total", sm_errors)].

Definition counter_value (r : registry) (name : string) : option float64 :=
  (λ m, default fzero (mt_values m !! "")) <$> rg_counters r !! name.

(** What [add_delta] does to a counter. *)
Definition grown (current last : Z) (v : float64) : float64 :=
  let delta := i64 (current - last) in if 0 <? delta then fadd v (float_of_Z delta) else v.

Lemma add_delta_value name name' current last r :
  counter_value (add_delta name current last r) name' =
    if String.eqb name name' then grown current last <$> counter_value r name' else counter_value r name'.
Proof.
  unfold add_delta, grown, counter_value. destruct (0 <? i64 (current - last)).
  - cbn. destruct (String.eqb_spec name name') as [->|Hne].
    + rewrite lookup_alter_eq. destruct (rg_counters r !! name'); [|done]. cbn. by rewrite lookup_insert_eq.
    + by rewrite lookup_alter_ne.
  - destruct (String.eqb name name'); [|done]. by destruct (rg_counters r !! name').
Qed.

Lemma scrape_value format_g now g c fmt s b p r name get :
  (name, get) ∈ edge_counters →
  let '(_, _, p', r') := handleMetrics format_g now g c fmt s b p r in
  p' = mkPromMetrics (sv_metrics s) ∧
  counter_value r' name = grown (get (sv_metrics s)) (get (pm_last p)) <$> counter_value r name.
Proof.
  intros Hin. unfold handleMetrics. destruct (BandwidthMeter_Snapshot now s b) as [[ingress egress] b'].
  unfold addDeltas. split; [done|].
  change (counter_value (GaugeFn_Set ?g ?v ?l ?r) name) with (counter_value r name).
  unfold edge_counters in Hin.
  repeat (apply elem_of_cons in Hin as [[= -> ->]|Hin]; [by rewrite !add_delta_value|]). by apply elem_of_nil in Hin.
Qed.

(** The increments of a counter over the requests of the page. *)
Fixpoint increments (get : serverMetrics → Z) (l : list scrape) (last : Z) : list Z :=
  match l with
  | [] => []
  | x :: l => let current := get (sv_metrics (sc_server x)) in
              (if last <? current then [current - last] else []) ++ increments get l current
  end.

(** The server's counters only grow from one request of the page to the next. *)
Fixpoint growing (get : serverMetrics → Z) (l : list scrape) (last : Z) : Prop :=
  match l with
  | [] => True
  | x :: l => let current := get (sv_metrics (sc_server x)) in last ≤ current < 2 ^ 63 ∧ growing get l current
  end.

(** What a counter of the server was at the last request of the page. *)
Definition counted (get : serverMetrics → Z) (l : list scrape) (start : Z) : Z :=
  foldl (λ _ x, get (sv_metrics (sc_server x))) start l.

Lemma increments_sum get l : ∀ start,
  growing get l start → Forall (λ d, 0 < d) (increments get l start) ∧
  start + foldr Z.add 0 (increments get l start) = counted get l start.
Proof.
  induction l as [|x l IH]; intros start; cbn [growing increments counted foldl foldr]; [intros _; split; [done|lia]|].
  intros [[Hle _] Hg]. destruct (IH _ Hg) as [IH1 IH2]. unfold counted in IH2. rewrite <- IH2.
  destruct (Z.ltb_spec start (get (sv_metrics (sc_server x)))); cbn [app foldr].
  - split; [constructor; [lia|done]|lia].
  - split; [done|lia].
Qed.

Lemma scrapes_value format_g name get l : (name, get) ∈ edge_counters → ∀ b p r,
  0 ≤ get (pm_last p) → growing get l (get (pm_last p)) →
  counter_value (scrapes format_g l b p r).2 name =
    (λ v, foldl (λ v d, fadd v (float_of_Z d)) v (increments get l (get (pm_last p)))) <$> counter_value r name.
Proof.
  intros Hin. induction l as [|x l IH]; intros b p r Hp Hg; cbn [scrapes increments foldl snd]; [by destruct (counter_value r name)|].
  pose proof (scrape_value format_g (sc_now x) 0 1 (sc_format x) (sc_server x) b p r name get Hin) as Hs.
  destruct (handleMetrics _ _ _ _ _ _ _ _ _) as [[[rep b'] p'] r']. destruct Hs as [-> Hv].
  cbn [growing] in Hg. destruct Hg as [[Hle Hlt] Hg]. rewrite IH; [|cbn [pm_last]; lia|exact Hg]. rewrite Hv. cbn [pm_last].
  destruct (counter_value r name) as [v|]; [|done]. cbn [fmap option_fmap option_map]. f_equal. rewrite foldl_app. f_equal.
  unfold grown. rewrite i64_id by (unfold is_i64; lia).
  destruct (Z.ltb_spec (get (pm_last p)) (get (sv_metrics (sc_server x)))), (Z.ltb_spec 0 (get (sv_metrics (sc_server x)) - get (pm_last p)));
    (done || lia).
Qed.

(** The counters of the page follow those of the server, whoever asks for
    the page, how often and in which format: over any requests of it each counter grows by
    the increments of the server's counter between them, each of them positive, which add up
    to what was counted from the first to the last; nothing is added twice or left out. *)
Theorem page_follows_server format_g name get l b p r v :
  (name, get) ∈ edge_counters → 0 ≤ get (pm_last p) → growing get l (get (pm_last p)) → counter_value r name = Some v →
  ∃ ds, Forall (λ d, 0 < d) ds ∧ get (pm_last p) + foldr Z.add 0 ds = counted get l (get (pm_last p)) ∧
    counter_value (scrapes format_g l b p r).2 name = Some (foldl (λ v d, fadd v (float_of_Z d)) v ds).
Proof.
  intros Hin Hp Hg Hv. exists (increments get l (get (pm_last p))). destruct (increments_sum _ _ _ Hg) as [H1 H2].
  split_and!; [done|done|]. by rewrite (scrapes_value _ _ _ _ Hin _ _ _ Hp Hg), Hv.
Qed.

(** ** The metrics of the control plane ([newAPIMetrics] and [handleMetrics] in
       [internal/controlplane/api.go]) *)
Definition status_gauge : metricFn := mkMetricFn "controlplane_node_status" ["status"].

Definition newAPIMetrics (r : registry) : registry :=
  let r := (NewCounter "controlplane_dispatch_requests_total" "Total number of dispatch requests" [] r).2 in
  let r := (NewCounter "controlplane_dispatch_errors_total" "Total number of dispatch errors" [] r).2 in
  let r := (NewCounter "controlplane_heartbeat_total" "Total number of heartbeat requests" [] r).2 in
  let r := (NewCounter "controlplane_register_total" "Total number of node registrations" [] r).2 in
  let r := (NewGauge "controlplane_node_status" "Current node status count" ["status"] r).2 in
  (NewCounter "controlplane_rate_limited_total" "Total number of rate-limited requests" [] r).2.

Definition Registry_CountByStatus (db_ok : bool) (pg : PGStore) (st : NodeStatus) : Z :=
  match PGStore_CountByStatus db_ok pg st with Ok n => n | _ => 0 end.

Definition counted_statuses : list (NodeStatus * string) :=
  [(NodeStatusActive, "active"); (NodeStatusDegraded, "degraded"); (NodeStatusOffline, "offline");
   (NodeStatusRegistered, "registered"); (NodeStatusQuarantined, "quarantined")].

(** [db_ok]: which of the counts the database answers. *)
Definition API_handleMetrics (format_g : float64 → string) (db_ok : NodeStatus → bool) (pg : PGStore) (r : registry)
    : list chars * registry :=
  let r := foldl (λ r '(st, name), GaugeFn_Set status_gauge (float_of_Z (Registry_CountByStatus (db_ok st) pg st)) [name] r)
             r counted_statuses in
  (writeTo format_g r, r).

Lemma no_nul (l : chars) : forallb (λ c, negb (nat_of_ascii c =? 0)%nat) l = true → nul ∉ l.
Proof.
  intros H Hin. rewrite forallb_forall in H. apply list_elem_of_In, H in Hin. by vm_compute in Hin.
Qed.

Lemma counted_plain st name : (st, name) ∈ counted_statuses → plain_values ["status"] [name].
Proof.
  unfold counted_statuses. intros Hin.
  repeat (apply elem_of_cons in Hin as [[= -> ->]|Hin];
    [split_and!; [done|done|apply Forall_singleton, no_nul; vm_compute; reflexivity|discriminate]|]).
  by apply elem_of_nil in Hin.
Qed.

(** The page of the control plane shows the table: whatever was counted
    before, it has for each of the five statuses the line of the gauge with that status and
    the number of nodes which have it now, or zero if the database did not answer that count;
    the counters stay as they were. *)
Theorem node_counts_shown format_g db_ok pg r e m st name :
  registered status_gauge r e m → (st, name) ∈ counted_statuses →
  let '(page, r') := API_handleMetrics format_g db_ok pg r in
  (to_chars "controlplane_node_status" ++ shown_labels ["status"] [name] ++ [ascii_of_nat 32] ++
   to_chars (format_g (float_of_Z (if db_ok st then Z.of_nat (size (filter (λ '(_, n), n_Status n = st) (pg_nodes pg))) else 0))))
    ∈ page ∧ rg_counters r' = rg_counters r.
Proof.
  intros [Hm He] Hin. unfold API_handleMetrics. set (r' := foldl _ _ _). split; [|done].
  destruct (rg_gauges r' !! fn_name status_gauge) as [m'|] eqn:Hm'; revert Hm'; unfold r', GaugeFn_Set; cbn [foldl counted_statuses rg_gauges];
    rewrite !lookup_alter_eq, Hm; cbn [fmap option_fmap option_map]; [|done]. intros [= Hm'].
  apply (number_shown format_g status_gauge r' e m').
  - split; [|exact He]. unfold r', GaugeFn_Set. cbn [foldl counted_statuses rg_gauges]. by rewrite !lookup_alter_eq, Hm, <- Hm'.
  - by apply (counted_plain st).
  - subst m'. unfold counted_statuses in Hin. unfold set_value. cbn [mt_values fn_labels status_gauge].
    repeat (apply elem_of_cons in Hin as [[= -> ->]|Hin];
      [repeat (rewrite lookup_insert_eq || rewrite lookup_insert_ne by discriminate); f_equal;
       unfold Registry_CountByStatus, PGStore_CountByStatus; by destruct (db_ok _)|]).
    by apply elem_of_nil in Hin.
Qed.

(** ** Concrete metrics *)
Definition demo_format (v : float64) : string := "1".
Definition demo_gauge : metricFn * registry := NewGauge "controlplane_node_status" "Current node status count" ["status"] empty_registry.

Lemma set_value_shown_witness :
  to_chars "controlplane_node_status" ++ shown_labels ["status"] ["active"] ++ to_chars " 1" ∈
    writeTo demo_format (GaugeFn_Set demo_gauge.1 (float_of_Z 1) ["active"] demo_gauge.2).
Proof.
  set (e := mkMetricEntry "controlplane_node_status" "Current node status count" typeGauge ["status"]).
  destruct (set_value_shown demo_format demo_gauge.1 (float_of_Z 1) ["active"] demo_gauge.2 e (mkMetric e ∅)) as [H _]; [| |exact H].
  - split; [reflexivity|]. split_and!; [by left|reflexivity..].
  - split_and!; [reflexivity|discriminate| |discriminate].
    apply Forall_singleton, no_nul. vm_compute. reflexivity.
Defined.

Definition demo_page : list scrape :=
  [mkScrape 1 "" (demo_edge demo_cache); mkScrape 2 "json" (demo_edge demo_cache)].
Lemma page_follows_server_witness :
  ∃ ds, foldr Z.add 0 ds = 0 ∧
    counter_value (scrapes demo_format demo_page (NewBandwidthMeter 0) (mkPromMetrics (mkServerMetrics 0 0 0 0 0)) (edge_registry empty_registry)).2
      "edge_requests_total" = Some (foldl (λ v d, fadd v (float_of_Z d)) fzero ds).
Proof.
  destruct (page_follows_server demo_format "edge_requests_total" sm_requests demo_page (NewBandwidthMeter 0)
    (mkPromMetrics (mkServerMetrics 0 0 0 0 0)) (edge_registry empty_registry) fzero) as (ds & _ & Hs & Hv).
  - by left.
  - vm_compute. discriminate.
  - vm_compute. repeat split; discriminate.
  - vm_compute. reflexivity.
  - exists ds. split; [|exact Hv]. change (counted _ _ _) with 0 in Hs. cbn in Hs. lia.
Defined.

Definition demo_counted : ControlPlane := demo_cp NodeStatusActive.

Lemma node_counts_shown_witness :
  to_chars "controlplane_node_status" ++ shown_labels ["status"] ["active"] ++ [ascii_of_nat 32] ++ to_chars "1"
    ∈ (API_handleMetrics demo_format (λ _, true) (cp_pg demo_counted) (newAPIMetrics empty_registry)).1.
Proof.
  set (e := mkMetricEntry "controlplane_node_status" "Current node status count" typeGauge ["status"]).
  pose proof (node_counts_shown demo_format (λ _, true) (cp_pg demo_counted) (newAPIMetrics empty_registry) e (mkMetric e ∅)
    NodeStatusActive "active") as H.
  destruct (API_handleMetrics _ _ _ _) as [page r']. destruct H as [H _]; [|by left|exact H].
  split; [vm_compute; reflexivity|]. split_and!; [|reflexivity..]. cbn. set_solver.
Defined.
