(* ===== verification/Agent.v ===== *)
(** * The edge agent as a whole ([internal/edgeagent/edge.go]; [NewServer] and [Start] in
      [server.go], [NewFetcher] in [fetcher.go], [ratelimiter.go])

    [New] builds the parts of an agent from its configuration, [Start] registers the agent
    and starts the loops of the parts, [Shutdown] stops them.  A loop is what a part runs in
    goroutines of its own; what the loops do is modelled in the files of the parts.

    The theorems: an agent that does not register starts nothing, one that does runs the loops
    its configuration asks for, the tunnel under the identifier it was given, and shutting it
    down stops every loop; a listener for TLS that cannot be opened is not reported, and the
    agent dies when it serves. *)

From S2P Require Import Prelude GoStrings GoFloat GoHash StreamKeys SlidingWindow EdgeCache Manifest Fetcher Prefetch Models.
From S2P Require Import Tokens EdgeServer TunnelClient Config SmartPrefetch NodeLifecycle Reporter LocalConfig.
From Stdlib Require Import Ascii.

(** ** The bandwidth limiter *)

(** [rate.Limiter] is used with this many bytes per second, also as burst. *)
Definition limiter_bytes (bandwidthMbps : Z) : Z := Z.quot (i64 (bandwidthMbps * 1024 * 1024)) 8.
Record BandwidthLimiter := mkBandwidthLimiter { bl_limit : Z; bl_burst : Z; bl_burstSize : Z }.
Definition NewBandwidthLimiter (bandwidthMbps : Z) : BandwidthLimiter :=
  let n := limiter_bytes bandwidthMbps in mkBandwidthLimiter n n n.
Definition SetBandwidth (bandwidthMbps : Z) (bl : BandwidthLimiter) : BandwidthLimiter :=
  let n := limiter_bytes bandwidthMbps in mkBandwidthLimiter n n (bl_burstSize bl).

(** [limitedReader.Read]: [wait] is [WaitN]. *)
Definition limitedReader_Read (wait : Z → option string) (read : Z * option string) : Z * option string :=
  let '(n, err) := read in
  if 0 <? n then match wait n with Some e => (n, Some e) | None => (n, err) end else (n, err).

(** ** The parts *)
Definition small_bandwidth (cfg : EdgeAgentConfig) : bool :=
  (0 <? eac_MaxUplinkMbps cfg) && (eac_MaxUplinkMbps cfg <? 50) && negb (eac_ShieldMode cfg).

(** The fetcher, its breaker, whether it knows peers, and its limiter. *)
Record fetcherParts := mkFetcherParts {
  fp_fetcher : Fetcher; fp_cb : circuitBreaker; fp_useP2P : bool; fp_bwLimiter : option BandwidthLimiter
}.
Definition NewFetcher (parse_url : string → option URL) (cfg : EdgeAgentConfig) : fetcherParts :=
  mkFetcherParts (mkFetcher (parse_url (eac_OriginURL cfg)) (eac_NodeToken cfg)) (newCircuitBreaker 5 (30 * sec))
    (eac_P2PEnabled cfg)
    (if small_bandwidth cfg
     then Some (NewBandwidthLimiter (int_of_float (fmul (float_of_Z (eac_MaxUplinkMbps cfg)) (float_const 8 10)))) else None).

Definition NewServer (cache : Cache) (f : fetcherParts) (cfg : EdgeAgentConfig) : Server :=
  mkServer cache (fp_fetcher f) (fp_cb f) (bytes_of_string (eac_NodeToken cfg))
    (mkProxyHandler (eac_WSProxyEnabled cfg) (eac_GRPCProxyEnabled cfg)) None (mkServerMetrics 0 0 0 0 0) 0 0 [] (0, 0, 0).

Definition WithStreaming (s : Server) (h : @Handler ClockedCache) : Server := set_streamH s (Some h).

(** What the streaming packages read of their configuration. *)
Definition streaming_of (c : Config.StreamingConfig) : Prefetch.StreamingConfig :=
  Prefetch.mkStreamingConfig (stc_Enabled c) (stc_PrefetchCount c) (stc_ChunkDurationMs c).

(** What [Server.Start] serves on: the listener is nil after a failure it did not see. *)
Inductive listener := LnPlain | LnTLS | LnNil.

Inductive loop :=
| LpTunnel (cfg : ClientConfig)
| LpReporter (interval : Z)
| LpPrefetch (workers : Z)
| LpSmart (workers : Z)
| LpPage
| LpServer (ln : listener).

(** A panic in a goroutine ends the process: [time.NewTicker] of an interval that is not
    positive, and accepting on the nil listener. *)
Definition loop_panics (x : loop) : bool :=
  match x with LpReporter interval => interval <=? 0 | LpServer LnNil => true | _ => false end.

Record Edge := mkEdge {
  ed_agent : agent;
  ed_limiter : option BandwidthLimiter;
  ed_tunnel : option ClientConfig;
  ed_prefetchMgr : option (@PrefetchManager ClockedCache);
  ed_smart : option SmartPrefetchManager;
  ed_running : list loop
}.

Definition tls_files (cfg : EdgeAgentConfig) (cert key : string) : EdgeAgentConfig := {|
  eac_ListenAddr := eac_ListenAddr cfg; eac_ControlPlaneURL := eac_ControlPlaneURL cfg; eac_NodeToken := eac_NodeToken cfg;
  eac_CacheDir := eac_CacheDir cfg; eac_CacheMaxGB := eac_CacheMaxGB cfg; eac_OriginURL := eac_OriginURL cfg;
  eac_HeartbeatInterval := eac_HeartbeatInterval cfg; eac_MaxConns := eac_MaxConns cfg; eac_TLSCertFile := cert; eac_TLSKeyFile := key;
  eac_NATMode := eac_NATMode cfg; eac_TunnelServerAddr := eac_TunnelServerAddr cfg; eac_TunnelAuthToken := eac_TunnelAuthToken cfg;
  eac_Streaming := eac_Streaming cfg; eac_Quic := eac_Quic cfg; eac_MaxUplinkMbps := eac_MaxUplinkMbps cfg;
  eac_P2PEnabled := eac_P2PEnabled cfg; eac_P2PDiscoveryIntervalSec := eac_P2PDiscoveryIntervalSec cfg;
  eac_P2PMaxPeers := eac_P2PMaxPeers cfg; eac_PrefetchEnabled := eac_PrefetchEnabled cfg; eac_PrefetchWorkers := eac_PrefetchWorkers cfg;
  eac_PrefetchBandwidthLimit := eac_PrefetchBandwidthLimit cfg; eac_PrefetchNightModeStart := eac_PrefetchNightModeStart cfg;
  eac_PrefetchNightModeEnd := eac_PrefetchNightModeEnd cfg; eac_OriginFetchBWLimit := eac_OriginFetchBWLimit cfg;
  eac_PublicHost := eac_PublicHost cfg; eac_Region := eac_Region cfg; eac_ISP := eac_ISP cfg; eac_WSProxyEnabled := eac_WSProxyEnabled cfg;
  eac_GRPCProxyEnabled := eac_GRPCProxyEnabled cfg; eac_TLSAutoCert := eac_TLSAutoCert cfg; eac_TLSCertDir := eac_TLSCertDir cfg;
  eac_TLSEnabled := true; eac_ShieldMode := eac_ShieldMode cfg
|}.

(** A certificate of the agent's own, if that is asked for and could be made. *)
Definition auto_cert (cert_made : bool) (cfg : EdgeAgentConfig) : EdgeAgentConfig :=
  if eac_TLSAutoCert cfg && cert_made
  then tls_files cfg (String.append (eac_TLSCertDir cfg) "/cert.pem") (String.append (eac_TLSCertDir cfg) "/key.pem") else cfg.

Definition tunnel_config (cfg : EdgeAgentConfig) (nodeID : string) : ClientConfig :=
  mkClientConfig nodeID (eac_TunnelAuthToken cfg) (eac_ListenAddr cfg).

Definition new_smart (cfg : EdgeAgentConfig) : SmartPrefetchManager :=
  let workers := if eac_PrefetchWorkers cfg <=? 0 then 2 else eac_PrefetchWorkers cfg in
  let limit := if eac_PrefetchBandwidthLimit cfg <=? 0 then 20 else eac_PrefetchBandwidthLimit cfg in
  let m := NewSmartPrefetchManager workers limit in
  if 0 <? eac_PrefetchNightModeStart cfg
  then SetNightMode m (eac_PrefetchNightModeStart cfg) (eac_PrefetchNightModeEnd cfg) (eac_PrefetchBandwidthLimit cfg) else m.

(** [New]: [disk] is what is left of the cache directory. *)
Definition NewEdge (parse_url : string → option URL) (mkdir_ok cert_made : bool) (disk : gmap string entryDir) (now : Z)
    (cfg : EdgeAgentConfig) : result Edge :=
  let! cache := NewCache mkdir_ok disk (eac_CacheMaxGB cfg) in
  let f := NewFetcher parse_url cfg in
  let server := NewServer cache f cfg in
  let pm := match eac_Streaming cfg with
            | Some sc => if stc_Enabled sc
                         then Some (NewPrefetchManager (streaming_of sc) (NewSlidingWindow (cache, now) (stc_WindowSize sc))
                                      (eac_OriginURL cfg) (parse_url (eac_OriginURL cfg)))
                         else None
            | None => None
            end in
  let server := match pm with Some pm => WithStreaming server (NewHandler pm) | None => server end in
  let cfg := auto_cert cert_made cfg in
  Ok (mkEdge (mkAgent cfg server (NewBandwidthMeter now) "" false) (fp_bwLimiter f)
        (if eac_NATMode cfg && negb (String.eqb (eac_TunnelServerAddr cfg) "") then Some (tunnel_config cfg "") else None)
        pm (if eac_PrefetchEnabled cfg then Some (new_smart cfg) else None) []).

(** ** Starting *)

(** [Server.Start]: [listen tls addr] opens a listener.  The error of [tls.Listen] is assigned
    to a variable of the inner block, which nothing reads: the listener is nil then.  The
    second attempt takes the address from its last colon on. *)
Definition Server_Start (cert_ok : bool) (listen : bool → string → bool) (cfg : EdgeAgentConfig) : result listener :=
  let addr := if String.eqb (eac_ListenAddr cfg) "" then ":9090" else eac_ListenAddr cfg in
  if negb (String.eqb (eac_TLSCertFile cfg) "") && negb (String.eqb (eac_TLSKeyFile cfg) "") then
    if cert_ok then Ok (if listen true addr then LnTLS else LnNil) else Err "load tls cert"
  else if listen false addr then Ok LnPlain
  else
    match last_index (to_chars ":") (to_chars addr) with
    | None => Panic
    | Some i => if listen false (of_chars (to_chars "[::]" ++ drop i (to_chars addr))) then Ok LnPlain else Err "listen"
    end.

Definition set_running (e : Edge) (a : agent) (tunnel : option ClientConfig) (l : list loop) : Edge :=
  mkEdge a (ed_limiter e) tunnel (ed_prefetchMgr e) (ed_smart e) l.

Definition prefetch_loops (cfg : EdgeAgentConfig) (e : Edge) : list loop :=
  match ed_prefetchMgr e, eac_Streaming cfg with
  | Some pm, Some sc => if scf_Enabled (pm_cfg pm)
                        then [LpPrefetch (if stc_PrefetchWorkers sc <? 1 then 2 else stc_PrefetchWorkers sc)] else []
  | _, _ => []
  end.

(** The loops that run before the listener is opened. *)
Definition inner_loops (page_ok : bool) (e : Edge) (tunnel : option ClientConfig) : list loop :=
  match tunnel with Some c => [LpTunnel c] | None => [] end ++
  [LpReporter (eac_HeartbeatInterval (ag_cfg (ed_agent e)))] ++ prefetch_loops (ag_cfg (ed_agent e)) e ++
  match ed_smart e with Some m => [LpSmart (spm_maxConcurrent m)] | None => [] end ++ if page_ok then [LpPage] else [].

Definition Edge_Start {S : Type} (pl : placeIO) (cp : post RegisterRequest → S → cpAnswer * S) (page_ok cert_ok : bool)
    (listen : bool → string → bool) (e : Edge) (st : S) : result unit * Edge * S :=
  let '(r, a, st) := Reporter_Register pl cp (ed_agent e) st in
  match r with
  | Ok _ =>
      let tunnel := (λ c, mkClientConfig (ag_nodeID a) (tcf_NodeToken c) (tcf_ServiceAddr c)) <$> ed_tunnel e in
      let inner := inner_loops page_ok e tunnel in
      match Server_Start cert_ok listen (ag_cfg a) with
      | Ok ln => (Ok tt, set_running e a tunnel (inner ++ [LpServer ln]), st)
      | Err _ => (Err "start server", set_running e a tunnel inner, st)
      | Panic => (Panic, set_running e a tunnel inner, st)
      end
  | _ => (Err "register", set_running e a (ed_tunnel e) (ed_running e), st)
  end.

(** ** Shutting down *)
Inductive part := PtTunnel | PtReporter | PtPrefetch | PtSmart | PtPage | PtServer.
#[export] Instance part_eq_dec : EqDecision part.
Proof. solve_decision. Defined.

Definition part_of (x : loop) : part :=
  match x with
  | LpTunnel _ => PtTunnel | LpReporter _ => PtReporter | LpPrefetch _ => PtPrefetch
  | LpSmart _ => PtSmart | LpPage => PtPage | LpServer _ => PtServer
  end.
Definition without (ps : list part) (l : list loop) : list loop := filter (λ x, part_of x ∉ ps) l.

Definition stopped_edge (e : Edge) (ps : list part) : Edge :=
  mkEdge (Reporter_Stop (ed_agent e)) (ed_limiter e) (ed_tunnel e) (PrefetchManager_Stop <$> ed_prefetchMgr e) (ed_smart e)
    (without ps (ed_running e)).
Definition set_smart (e : Edge) (m : SmartPrefetchManager) : Edge :=
  mkEdge (ed_agent e) (ed_limiter e) (ed_tunnel e) (ed_prefetchMgr e) (Some m) (ed_running e).
Definition stop_loops (ps : list part) (e : Edge) : Edge :=
  mkEdge (ed_agent e) (ed_limiter e) (ed_tunnel e) (ed_prefetchMgr e) (ed_smart e) (without ps (ed_running e)).

(** [Edge.Shutdown]: [served_out] is whether the requests end before the deadline; the
    listeners are closed in either case, and the page's error is only logged. *)
Definition Edge_Shutdown (served_out : bool) (e : Edge) : result unit * Edge :=
  let e := stopped_edge e [PtTunnel; PtReporter; PtPrefetch] in
  match (match ed_smart e with
         | Some m => let! m := SmartPrefetch_Stop m in Ok (stop_loops [PtSmart] (set_smart e m))
         | None => Ok e
         end) with
  | Ok e => (if served_out then Ok tt else Err "shutdown server", stop_loops [PtPage; PtServer] e)
  | Err x => (Err x, e)
  | Panic => (Panic, e)
  end.

(** ** The life of an agent *)

Lemma elem_of_when {A} (b : bool) (x y : A) : x ∈ (if b then [y] else []) ↔ b = true ∧ x = y.
Proof. destruct b; set_solver. Qed.

(** The loops that the configuration asks for, of an agent with the identifier [nodeID]. *)
Definition wanted (cfg : EdgeAgentConfig) (nodeID : string) (page_ok : bool) (ln : listener) (x : loop) : Prop :=
  match x with
  | LpTunnel c => eac_NATMode cfg = true ∧ eac_TunnelServerAddr cfg ≠ "" ∧ c = tunnel_config cfg nodeID
  | LpReporter interval => interval = eac_HeartbeatInterval cfg
  | LpPrefetch w => ∃ sc, eac_Streaming cfg = Some sc ∧ stc_Enabled sc = true ∧
                          w = if stc_PrefetchWorkers sc <? 1 then 2 else stc_PrefetchWorkers sc
  | LpSmart w => eac_PrefetchEnabled cfg = true ∧ w = if eac_PrefetchWorkers cfg <=? 0 then 2 else eac_PrefetchWorkers cfg
  | LpPage => page_ok = true
  | LpServer l => l = ln
  end.

Section new_edge.
Context (parse_url : string → option URL) (mkdir_ok cert_made : bool) (disk : gmap string entryDir) (now : Z).
Context (cfg : EdgeAgentConfig) (e : Edge).
Hypothesis Hnew : NewEdge parse_url mkdir_ok cert_made disk now cfg = Ok e.
Local Abbreviation cfg' := (auto_cert cert_made cfg).

(** A certificate of its own changes nothing else in the configuration. *)
Lemma auto_cert_keeps :
  eac_NATMode cfg' = eac_NATMode cfg ∧ eac_Streaming cfg' = eac_Streaming cfg ∧ eac_NodeToken cfg' = eac_NodeToken cfg ∧
  eac_PrefetchEnabled cfg' = eac_PrefetchEnabled cfg ∧ eac_HeartbeatInterval cfg' = eac_HeartbeatInterval cfg ∧
  eac_TunnelServerAddr cfg' = eac_TunnelServerAddr cfg ∧ eac_PrefetchWorkers cfg' = eac_PrefetchWorkers cfg ∧
  (∀ id, tunnel_config cfg' id = tunnel_config cfg id).
Proof. unfold auto_cert. by destruct (eac_TLSAutoCert cfg && cert_made). Qed.

Lemma new_edge_parts :
  ag_cfg (ed_agent e) = cfg' ∧ ed_running e = [] ∧
  ed_tunnel e = (if eac_NATMode cfg && negb (String.eqb (eac_TunnelServerAddr cfg) "") then Some (tunnel_config cfg "") else None) ∧
  (eac_PrefetchEnabled cfg = true → ∃ m, ed_smart e = Some m ∧ spm_closed m = false ∧
     spm_maxConcurrent m = if eac_PrefetchWorkers cfg <=? 0 then 2 else eac_PrefetchWorkers cfg) ∧
  (eac_PrefetchEnabled cfg = false → ed_smart e = None) ∧
  prefetch_loops cfg e =
    match eac_Streaming cfg with
    | Some sc => if stc_Enabled sc then [LpPrefetch (if stc_PrefetchWorkers sc <? 1 then 2 else stc_PrefetchWorkers sc)] else []
    | None => []
    end.
Proof.
  destruct auto_cert_keeps as (E1 & _ & _ & E4 & _ & E6 & E7 & E8). revert Hnew. unfold NewEdge.
  destruct (NewCache _ _ _) as [cache|?|]; cbn; [|done..]. intros [= <-]. cbn. rewrite E1, E4, E6, E8.
  split_and!; try done.
  - intros ->. eexists. split; [done|]. unfold new_smart. rewrite E7. by destruct (0 <? eac_PrefetchNightModeStart _).
  - by intros ->.
  - unfold prefetch_loops. cbn. destruct (eac_Streaming cfg) as [sc|]; [|done]. destruct (stc_Enabled sc) eqn:E; [|done]. cbn. by rewrite E.
Qed.

(** The server of a new agent takes the tokens that its node token signs. *)
Lemma new_edge_configured : configured (ag_server (ed_agent e)) (ag_cfg (ed_agent e)).
Proof.
  destruct auto_cert_keeps as (_ & _ & E3 & _). destruct new_edge_parts as (Ec & _). unfold configured. rewrite Ec, E3. revert Hnew. unfold NewEdge.
  destruct (NewCache _ _ _) as [cache|?|]; cbn; [|done..]. intros [= <-]. cbn.
  destruct (eac_Streaming cfg) as [sc|]; [|done]. by destruct (stc_Enabled sc).
Qed.

Lemma prefetch_loops_cfg (c : EdgeAgentConfig) : eac_Streaming c = eac_Streaming cfg → prefetch_loops c e = prefetch_loops cfg e.
Proof. unfold prefetch_loops. by intros ->. Qed.

(** The loops that are started before the server are the wanted ones. *)
Lemma inner_loops_wanted tunnel page_ok ln id x :
  tunnel = (λ c, mkClientConfig id (tcf_NodeToken c) (tcf_ServiceAddr c)) <$> ed_tunnel e →
  x ∈ inner_loops page_ok e tunnel ++ [LpServer ln] ↔ wanted cfg id page_ok ln x.
Proof.
  intros ->. destruct auto_cert_keeps as (_ & E2 & _ & _ & E5 & _). destruct new_edge_parts as (Ha & _ & -> & Hon & Hoff & Hpre).
  unfold inner_loops. rewrite Ha, E5.
  replace (prefetch_loops cfg' _) with (prefetch_loops cfg e) by (symmetry; by apply (prefetch_loops_cfg cfg')).
  assert (Hs : match ed_smart e with Some m => [LpSmart (spm_maxConcurrent m)] | None => [] end =
               if eac_PrefetchEnabled cfg then [LpSmart (if eac_PrefetchWorkers cfg <=? 0 then 2 else eac_PrefetchWorkers cfg)] else []).
  { destruct (eac_PrefetchEnabled cfg); [by destruct (Hon eq_refl) as (m & -> & _ & ->)|by rewrite (Hoff eq_refl)]. }
  assert (Ht : ∀ b : bool, match (λ c, mkClientConfig id (tcf_NodeToken c) (tcf_ServiceAddr c)) <$>
                                   (if b then Some (tunnel_config cfg "") else None) with Some c => [LpTunnel c] | None => [] end =
               if b then [LpTunnel (tunnel_config cfg id)] else []) by by intros [].
  assert (Hn : negb (String.eqb (eac_TunnelServerAddr cfg) "") = true ↔ eac_TunnelServerAddr cfg ≠ "").
  { by rewrite negb_true_iff, String.eqb_neq. }
  rewrite Hpre, Hs, Ht, !elem_of_app, !elem_of_when, !list_elem_of_singleton, andb_true_iff, Hn.
  clear. unfold wanted, tunnel_config.
  destruct (eac_Streaming cfg) as [sc|]; [rewrite elem_of_when|rewrite elem_of_nil]; destruct x.
  all: try by intuition congruence.
  - split; [|intros (s' & [= <-] & ? & ->); auto 10]. intros [[[_ [=]]|[[=]|[[? [= ->]]|[[_ [=]]|[_ [=]]]]]]|[=]]. eauto.
  - split; [intuition congruence|by intros (s' & [=] & _)].
Qed.
End new_edge.

(** Stopping two groups of parts, and stopping every part. *)
Lemma without_app ps qs l : without ps (without qs l) = without (ps ++ qs) l.
Proof.
  unfold without. rewrite list_filter_filter. apply list_filter_iff. intros x. rewrite elem_of_app. tauto.
Qed.
Lemma without_nil ps l : (∀ x, x ∈ l → part_of x ∈ ps) → without ps l = [].
Proof.
  unfold without. induction l as [|x l IH]; intros H; [done|]. rewrite filter_cons_False.
  - apply IH. intros y Hy. apply H. by right.
  - intros Hn. apply Hn, H. by left.
Qed.


Definition uses_tls (cfg : EdgeAgentConfig) : bool :=
  negb (String.eqb (eac_TLSCertFile cfg) "") && negb (String.eqb (eac_TLSKeyFile cfg) "").
Definition listen_addr (cfg : EdgeAgentConfig) : string := if String.eqb (eac_ListenAddr cfg) "" then ":9090" else eac_ListenAddr cfg.

(** A listener that cannot be opened.  Without TLS a second attempt is made, and
    when that fails too the start fails, with loops that run on if the heartbeat interval is
    positive.  With TLS there is no second attempt and no error: the agent says that it has
    started, and the goroutine that serves panics on a nil listener, which ends the process. *)
Theorem tls_listener_failure_crashes {S : Type} parse_url mkdir_ok cert_made disk now cfg0 cfg e pl cp page_ok listen (st : S) u a st' :
  NewEdge parse_url mkdir_ok cert_made disk now cfg0 = Ok e → cfg = auto_cert cert_made cfg0 →
  Reporter_Register pl cp (ed_agent e) st = (Ok u, a, st') →
  (∀ tls addr, listen tls addr = false) → last_index (to_chars ":") (to_chars (listen_addr cfg)) ≠ None →
  let '(res, e1, _) := Edge_Start pl cp page_ok true listen e st in
  if uses_tls cfg then res = Ok tt ∧ ∃ x, x ∈ ed_running e1 ∧ loop_panics x = true
  else res = Err "start server" ∧ (0 < eac_HeartbeatInterval cfg → ∀ x, x ∈ ed_running e1 → loop_panics x = false).
Proof.
  intros Hnew -> Hreg Hl Haddr. destruct (new_edge_parts _ _ _ _ _ _ _ Hnew) as (Hcfg & _). unfold Edge_Start. rewrite Hreg.
  assert (Ha : ag_cfg a = ag_cfg (ed_agent e)).
  { revert Hreg. unfold Reporter_Register. destruct (cp _ _) as [[|status|id tok exp] s']; try destruct (400 <=? status); by intros [= _ <- _]. }
  rewrite Ha, Hcfg. unfold Server_Start. fold (listen_addr (auto_cert cert_made cfg0)). fold (uses_tls (auto_cert cert_made cfg0)).
  rewrite !Hl. destruct (uses_tls _).
  - split; [done|]. exists (LpServer LnNil). split; [|done]. cbn [set_running ed_running]. rewrite elem_of_app. right. by left.
  - destruct (last_index _ _) as [i|]; [|done]. rewrite Hl. split; [done|]. intros Hi x Hx. cbn [set_running ed_running] in Hx.
    set (tunnel := _ <$> _) in Hx.
    assert (Hw : x ∈ inner_loops page_ok e tunnel ++ [LpServer LnPlain]) by (apply elem_of_app; by left).
    apply (inner_loops_wanted _ _ _ _ _ _ _ Hnew _ _ _ (ag_nodeID a)) in Hw; [|done]. destruct x; cbn in *; try done.
    + subst. destruct (auto_cert_keeps cert_made cfg0) as (_ & _ & _ & _ & E & _). rewrite E in Hi. apply Z.leb_gt. lia.
    + by subst.
Qed.

(** The night cannot begin at midnight, and an uplink of 1 Mbps leaves a limiter of no bytes. *)
Example midnight_is_ignored cfg :
  eac_PrefetchNightModeStart cfg = 0 → spm_nightModeStart (new_smart cfg) = 1.
Proof. unfold new_smart. by intros ->. Qed.
Example one_mbps_allows_nothing cfg parse_url :
  eac_MaxUplinkMbps cfg = 1 → eac_ShieldMode cfg = false → fp_bwLimiter (NewFetcher parse_url cfg) = Some (mkBandwidthLimiter 0 0 0).
Proof. intros E1 E2. unfold NewFetcher, small_bandwidth. rewrite E1, E2. vm_compute. reflexivity. Qed.

(** ** A concrete life *)
Definition demo_life_cfg : EdgeAgentConfig :=
  LoadEdgeAgent demo_parsers
    {["EA_NAT_MODE" := "true"; "EA_TUNNEL_SERVER_ADDR" := "cp:7700"; "EA_TLS_AUTO_CERT" := "true"; "EA_PREFETCH_ENABLED" := "true"]}.
Definition demo_registers (_ : post RegisterRequest) (st : nat) : cpAnswer * nat := (CPNode "n9" "tok" 7, S st).


Lemma tls_listener_failure_crashes_witness :
  ∃ e, NewEdge (λ _, None) true true ∅ 0 demo_life_cfg = Ok e ∧
  (Edge_Start demo_place demo_registers true true (λ _ _, false) e 0%nat).1.1 = Ok tt.
Proof.
  eexists. split; [reflexivity|].
  pose proof (tls_listener_failure_crashes (λ _, None) true true ∅ 0 demo_life_cfg _ _ demo_place demo_registers true (λ _ _, false) 0%nat
    _ _ _ eq_refl eq_refl eq_refl ltac:(done) ltac:(vm_compute; discriminate)) as H.
  destruct (Edge_Start _ _ _ _ _ _ _) as [[res e1] st1]. cbn [fst snd].
  replace (uses_tls _) with true in H by (vm_compute; reflexivity). by destruct H.
Defined.
