(* ===== verification/TunnelAccept.v ===== *)
(** * Connections of the tunnel server ([handleConnection] in [internal/tunnel/server.go])

    Every connection has a goroutine of its own: it reads the registration, checks the token
    and the number of tunnels, registers its session, and serves it until the connection
    ends, when it unregisters its node.  Between the check and the registration other
    connections may do the same; [accept_step] interleaves them.  [TunnelServer] has the
    manager they share and the same handler run without interruption.

    The theorems: the manager has a tunnel exactly for the connections that serve one, so that
    no connection ever ends the tunnel of another; a connection that is no longer answered
    keeps its node out; the limit of tunnels can be exceeded by the connections that pass the
    check together, and by no more. *)

From stdpp Require Import pretty.
From S2P Require Import Prelude TunnelCodec TunnelServer.

(** ** One connection *)
Inductive connState :=
| CnReading                                                     (* before the check *)
| CnAdmitted (reg : RegisterPayload) (tunnelID remote : string) (* between check and [Register] *)
| CnServing (node : string) (sref : nat)
| CnDone (h : handshake).

Record acceptor := mkAcceptor { av_manager : TunnelManager; av_conns : gmap nat connState }.
Definition start_acceptor : acceptor := mkAcceptor NewTunnelManager ∅.
Definition set_conn (v : acceptor) (m : TunnelManager) (c : nat) (x : connState) : acceptor :=
  mkAcceptor m (<[c := x]> (av_conns v)).

(** Up to the check of the number of tunnels. *)
Definition check_conn (authToken : string) (maxTunnels : Z) (m : TunnelManager) (first : option (Z * option RegisterPayload))
    (tunnelID remote : string) : connState :=
  match first with
  | None => CnDone HsDropped
  | Some (t, payload) =>
      if negb (t =? type_code MsgTypeRegister) then CnDone (HsRejected "expected register message")
      else
        match payload with
        | None => CnDone (HsRejected "invalid register payload")
        | Some reg =>
            if negb (String.eqb authToken "") && negb (String.eqb (rp_NodeToken reg) authToken)
            then CnDone (HsRejected "invalid token")
            else if maxTunnels <=? TunnelManager_ActiveTunnels m then CnDone (HsRejected "max tunnels reached")
            else CnAdmitted reg tunnelID remote
        end
  end.

(** From the new session to the answer. *)
Definition enter (m : TunnelManager) (reg : RegisterPayload) (tunnelID remote : string) : connState * TunnelManager :=
  let sref := tm_next m in
  let s := NewTunnelSession tunnelID (rp_NodeID reg) (rp_ServiceAddr reg) (String.append "tunnel://" remote) in
  let m1 := mkTunnelManager (tm_tunnels m) (<[sref := s]> (tm_sessions m)) (S sref) in
  match TunnelManager_Register m1 sref with
  | Ok m2 => (CnServing (rp_NodeID reg) sref, m2)
  | _ => (CnDone (HsRejected "tunnel already exists for node"), m1)
  end.

(** What goes on inside a session leaves the manager's map alone. *)
Record session_change (s s' : TunnelSession) : Prop := {
  sx_ok : sess_ok s'; sx_node : ts_NodeID s' = ts_NodeID s; sx_closed : ts_closed s' = ts_closed s
}.

(** The connection number [c] of a step is its label. *)
Inductive accept_step (authToken : string) (maxTunnels : Z) (v : acceptor) : nat → acceptor → Prop :=
| as_accept c : av_conns v !! c = None → accept_step authToken maxTunnels v c (set_conn v (av_manager v) c CnReading)
| as_admit c first tunnelID remote :
    av_conns v !! c = Some CnReading →
    accept_step authToken maxTunnels v c
      (set_conn v (av_manager v) c (check_conn authToken maxTunnels (av_manager v) first tunnelID remote))
| as_enter c reg tunnelID remote x m :
    av_conns v !! c = Some (CnAdmitted reg tunnelID remote) → enter (av_manager v) reg tunnelID remote = (x, m) →
    accept_step authToken maxTunnels v c (set_conn v m c x)
| as_end c node sref m :
    av_conns v !! c = Some (CnServing node sref) → TunnelManager_Unregister (av_manager v) node = Ok m →
    accept_step authToken maxTunnels v c (set_conn v m c (CnDone (HsAccepted sref)))
| as_session c node sref s s' :
    av_conns v !! c = Some (CnServing node sref) → tm_sessions (av_manager v) !! sref = Some s → session_change s s' →
    accept_step authToken maxTunnels v c
      (mkAcceptor (mkTunnelManager (tm_tunnels (av_manager v)) (<[sref := s']> (tm_sessions (av_manager v))) (tm_next (av_manager v)))
         (av_conns v)).

Definition any_step (authToken : string) (maxTunnels : Z) (v v' : acceptor) : Prop := ∃ c, accept_step authToken maxTunnels v c v'.

(** Without interruption the steps are the handler. *)
Lemma uninterrupted authToken maxTunnels m first tunnelID remote :
  Server_handleConnection authToken maxTunnels m first tunnelID remote =
  match check_conn authToken maxTunnels m first tunnelID remote with
  | CnAdmitted reg t r => match enter m reg t r with
                          | (CnServing _ sref, m) => (HsAccepted sref, m)
                          | (CnDone h, m) => (h, m)
                          | (_, m) => (HsDropped, m)
                          end
  | CnDone h => (h, m)
  | _ => (HsDropped, m)
  end.
Proof.
  unfold Server_handleConnection, check_conn, enter. destruct first as [[t [reg|]]|]; [|by destruct (t =? _)|done].
  destruct (t =? _); [|done]. cbn [negb]. destruct (negb _ && negb _); [done|]. destruct (maxTunnels <=? _); [done|].
  by destruct (TunnelManager_Register _ _).
Qed.

(** ** Tunnels and connections *)
Record accept_inv (v : acceptor) : Prop := {
  ai_mgr : mgr_ok (av_manager v);
  ai_tunnels : ∀ node sref, tm_tunnels (av_manager v) !! node = Some sref ↔ ∃ c, av_conns v !! c = Some (CnServing node sref);
  ai_unique : ∀ c c' node sref sref', av_conns v !! c = Some (CnServing node sref) → av_conns v !! c' = Some (CnServing node sref') → c = c'
}.

Lemma start_accept_inv : accept_inv start_acceptor.
Proof.
  split; [apply NewTunnelManager_ok| |]; cbn.
  - intros node sref. rewrite lookup_empty. split; [done|]. intros [c Hc]. by rewrite lookup_empty in Hc.
  - intros c c' node sref sref' Hc. by rewrite lookup_empty in Hc.
Qed.

Lemma new_session_ok m s : mgr_ok m → sess_ok s →
  mgr_ok (mkTunnelManager (tm_tunnels m) (<[tm_next m := s]> (tm_sessions m)) (S (tm_next m))).
Proof.
  intros [H1 H2] Hs. split; cbn.
  - intros node r Hr. destruct (H1 _ _ Hr) as (s0 & Hs0 & Hrest). exists s0.
    rewrite lookup_insert_ne; [done|]. intros <-. destruct (H2 _ _ Hs0). lia.
  - apply map_Forall_insert_2; [split; [done|lia]|]. eapply map_Forall_impl; [exact H2|]. cbn. intros ? ? []. split; [done|lia].
Qed.

Lemma enter_spec m reg tunnelID remote x m' :
  mgr_ok m → enter m reg tunnelID remote = (x, m') →
  mgr_ok m' ∧
  match tm_tunnels m !! rp_NodeID reg with
  | Some _ => x = CnDone (HsRejected "tunnel already exists for node") ∧ tm_tunnels m' = tm_tunnels m
  | None => ∃ sref, x = CnServing (rp_NodeID reg) sref ∧ tm_tunnels m' = <[rp_NodeID reg := sref]> (tm_tunnels m)
  end.
Proof.
  intros Hm. unfold enter. set (s := NewTunnelSession _ _ _ _). set (m1 := mkTunnelManager _ _ _).
  assert (Hm1 : mgr_ok m1) by (apply new_session_ok; [done|apply NewTunnelSession_ok]).
  pose proof (Register_spec m1 (tm_next m) s Hm1 ltac:(apply lookup_insert_eq) eq_refl) as Hreg.
  assert (He : TunnelManager_Register m1 (tm_next m) =
    match tm_tunnels m !! rp_NodeID reg with
    | Some _ => Err "tunnel already exists for node"
    | None => Ok (mkTunnelManager (<[rp_NodeID reg := tm_next m]> (tm_tunnels m)) (tm_sessions m1) (tm_next m1))
    end) by (unfold TunnelManager_Register; cbn; by rewrite lookup_insert_eq).
  rewrite He in Hreg |- *. change (ts_NodeID s) with (rp_NodeID reg) in Hreg.
  destruct (tm_tunnels m !! rp_NodeID reg) eqn:El; intros [= <- <-]; [done|]. split; [|by eexists].
  case_decide; [done|]. by destruct Hreg as (m2 & [= <-] & Hok & _).
Qed.

Lemma Unregister_tunnels m node m' :
  TunnelManager_Unregister m node = Ok m' → tm_tunnels m' = delete node (tm_tunnels m).
Proof.
  unfold TunnelManager_Unregister. destruct (tm_tunnels m !! node) as [sref|] eqn:E.
  - destruct (close_session _ _); cbn; by intros [= <-].
  - intros [= <-]. by rewrite delete_id.
Qed.

Definition serving (x : connState) : option (string * nat) := match x with CnServing node sref => Some (node, sref) | _ => None end.

(** A connection that is not served before or after a step. *)
Lemma idle_step v m c x :
  accept_inv v → mgr_ok m → tm_tunnels m = tm_tunnels (av_manager v) →
  av_conns v !! c ≫= serving = None → serving x = None → accept_inv (set_conn v m c x).
Proof.
  intros [_ Ht Hu] Hm Hsame Hold Hnew.
  assert (Hconn : ∀ c' node sref, av_conns (set_conn v m c x) !! c' = Some (CnServing node sref) ↔ av_conns v !! c' = Some (CnServing node sref)).
  { intros c' node sref. cbn. destruct (decide (c' = c)) as [->|Hne]; [|by rewrite lookup_insert_ne].
    rewrite lookup_insert_eq. split; [intros [= ->]; done|]. intros Hc. by rewrite Hc in Hold. }
  split; [done| |].
  - intros node sref. cbn [av_manager set_conn]. rewrite Hsame, Ht. split; intros [c' Hc']; exists c'; by apply Hconn.
  - intros c1 c2 node r1 r2 H1%Hconn H2%Hconn. by eapply Hu.
Qed.

Lemma enter_inv v c reg tid rem x m :
  accept_inv v → av_conns v !! c = Some (CnAdmitted reg tid rem) → enter (av_manager v) reg tid rem = (x, m) → accept_inv (set_conn v m c x).
Proof.
  intros Hv Hc He. pose proof Hv as [Hm Ht Hu]. apply enter_spec in He as [Hm' He]; [|done].
  destruct (tm_tunnels (av_manager v) !! rp_NodeID reg) as [r|] eqn:El.
  { destruct He as [-> Hsame]. apply idle_step; [done..|by rewrite Hc|done]. }
  destruct He as (sref & -> & Hnew).
  assert (Hfree : ∀ c' r, av_conns v !! c' = Some (CnServing (rp_NodeID reg) r) → False).
  { intros c' r Hc'. assert (H : tm_tunnels (av_manager v) !! rp_NodeID reg = Some r) by (apply Ht; eauto). by rewrite El in H. }
  split; [done| |]; cbn [av_manager av_conns set_conn].
  - intros node r. rewrite Hnew, lookup_insert_Some. rewrite Ht. split.
    + intros [[<- <-]|[Hne [c' Hc']]]; [exists c; apply lookup_insert_eq|]. exists c'. rewrite lookup_insert_ne; [done|].
      intros <-. by rewrite Hc in Hc'.
    + intros [c' Hc']. apply lookup_insert_Some in Hc' as [[<- [= <- <-]]|[Hne Hc']]; [by left|]. right. split; [|eauto].
      intros <-. by eapply Hfree.
  - intros c1 c2 node r1 r2 H1 H2. apply lookup_insert_Some in H1 as [[<- [= <- <-]]|[Hn1 H1]], H2 as [[<- H2]|[Hn2 H2]]; try done.
    + exfalso. by eapply Hfree.
    + injection H2 as <- <-. exfalso. by eapply Hfree.
    + by eapply Hu.
Qed.

Lemma end_inv v c node sref m :
  accept_inv v → av_conns v !! c = Some (CnServing node sref) → TunnelManager_Unregister (av_manager v) node = Ok m →
  accept_inv (set_conn v m c (CnDone (HsAccepted sref))).
Proof.
  intros [Hm Ht Hu] Hc He. destruct (Unregister_spec _ node Hm) as (m' & He' & Hm' & _). rewrite He' in He. injection He as <-.
  apply Unregister_tunnels in He'. split; [done| |]; cbn [av_manager av_conns set_conn].
  - intros n r. rewrite He', lookup_delete_Some, Ht. split.
    + intros [Hne [c' Hc']]. exists c'. rewrite lookup_insert_ne; [done|]. intros <-. rewrite Hc in Hc'. by injection Hc' as ->.
    + intros [c' Hc']. apply lookup_insert_Some in Hc' as [[_ [=]]|[Hne Hc']]. split; [|eauto]. intros <-. by apply Hne, (Hu c c' node sref r).
  - intros c1 c2 n r1 r2 H1 H2. apply lookup_insert_Some in H1 as [[_ [=]]|[_ H1]], H2 as [[_ [=]]|[_ H2]]. by eapply Hu.
Qed.

Lemma session_inv v sref s s' :
  accept_inv v → tm_sessions (av_manager v) !! sref = Some s → session_change s s' →
  accept_inv (mkAcceptor (mkTunnelManager (tm_tunnels (av_manager v)) (<[sref := s']> (tm_sessions (av_manager v))) (tm_next (av_manager v))) (av_conns v)).
Proof.
  intros [Hm Ht Hu] Hs [Hok Hnode Hcl].
  assert (Hlt : (sref < tm_next (av_manager v))%nat) by (by destruct (mo_sessions _ Hm _ _ Hs)).
  split; [|exact Ht|exact Hu]. split; cbn.
  - intros n r Hr. destruct (mo_tunnels _ Hm _ _ Hr) as (s0 & Hs0 & Hn & Hc). rewrite lookup_insert. case_decide as Hd; [|by eauto].
    subst r. exists s'. rewrite Hs in Hs0. injection Hs0 as ->. by rewrite Hnode, Hcl.
  - apply map_Forall_insert_2; [done|by destruct Hm].
Qed.

Lemma accept_step_inv authToken maxTunnels v c v' : accept_inv v → accept_step authToken maxTunnels v c v' → accept_inv v'.
Proof.
  intros Hv Hs. pose proof (ai_mgr _ Hv) as Hm.
  destruct Hs as [c Hc|c first tid rem Hc|c reg tid rem x m Hc He|c node sref m Hc He|c node sref s s' Hc Hs Hx].
  - apply idle_step; [done..|by rewrite Hc|done].
  - apply idle_step; [done..|by rewrite Hc|]. unfold check_conn. by repeat case_match.
  - by eapply enter_inv.
  - by eapply end_inv.
  - by eapply session_inv.
Qed.

Lemma reachable_inv authToken maxTunnels v : rtc (any_step authToken maxTunnels) start_acceptor v → accept_inv v.
Proof.
  intros Hr. pose proof start_accept_inv as Hi. revert Hi. induction Hr as [v|v v1 v2 [c Hs] _ IH]; intros Hi; [done|].
  by eapply IH, accept_step_inv.
Qed.

(** A step is about one connection. *)
Lemma step_label authToken maxTunnels v c v' c' : accept_step authToken maxTunnels v c v' → c' ≠ c → av_conns v' !! c' = av_conns v !! c'.
Proof. intros Hs Hne. destruct Hs; cbn; try done; by rewrite lookup_insert_ne. Qed.

(** C25 (invariant): Tunnels and connections correspond: whatever the connections do and
    however their goroutines interleave, the manager has a tunnel for a node exactly if one
    connection serves it, with the session that connection registered, and no two connections
    serve one node; no step of a connection takes the tunnel of another away. *)
Theorem one_connection_per_tunnel authToken maxTunnels v :
  rtc (any_step authToken maxTunnels) start_acceptor v →
  (∀ node sref, tm_tunnels (av_manager v) !! node = Some sref ↔ ∃ c, av_conns v !! c = Some (CnServing node sref)) ∧
  (∀ c c' node sref sref', av_conns v !! c = Some (CnServing node sref) → av_conns v !! c' = Some (CnServing node sref') → c = c') ∧
  (∀ c c' v' node sref, accept_step authToken maxTunnels v c v' → c' ≠ c → av_conns v !! c' = Some (CnServing node sref) →
     tm_tunnels (av_manager v') !! node = Some sref).
Proof.
  intros Hr. apply reachable_inv in Hr as Hi. split_and!; [apply Hi..|]. intros c c' v' node sref Hs Hne Hc'.
  apply (ai_tunnels _ (accept_step_inv _ _ _ _ _ Hi Hs)). exists c'. by rewrite (step_label _ _ _ _ _ _ Hs Hne).
Qed.

(** A connection that is no longer answered keeps its node out: the server ends no
    connection of its own accord, so as long as a connection does not end, whatever all others
    do, every new registration of its node, with the right token too, is refused. *)
Theorem dead_connection_locks_out authToken maxTunnels v c node sref v' reg tunnelID remote :
  rtc (any_step authToken maxTunnels) start_acceptor v → av_conns v !! c = Some (CnServing node sref) →
  rtc (λ v1 v2, ∃ c', c' ≠ c ∧ accept_step authToken maxTunnels v1 c' v2) v v' → rp_NodeID reg = node →
  TunnelManager_Get (av_manager v') node = Some sref ∧
  (enter (av_manager v') reg tunnelID remote).1 = CnDone (HsRejected "tunnel already exists for node").
Proof.
  intros Hr Hc Hrun Hn. apply reachable_inv in Hr as Hi.
  assert (Hend : accept_inv v' ∧ av_conns v' !! c = Some (CnServing node sref)).
  { clear Hr. induction Hrun as [v|v v1 v2 (c' & Hne & Hs) _ IH]; [done|]. apply IH; [|by eapply accept_step_inv].
    by rewrite (step_label _ _ _ _ _ _ Hs (not_eq_sym Hne)). }
  destruct Hend as [Hi' Hc']. assert (Ht : tm_tunnels (av_manager v') !! node = Some sref) by (apply (ai_tunnels _ Hi'); eauto).
  split; [done|]. destruct (enter _ _ _ _) as [x m] eqn:He. apply enter_spec in He as [_ He]; [|apply Hi']. rewrite Hn, Ht in He.
  by destruct He as [-> _].
Qed.

(** ** The limit *)
Definition is_admitted (x : connState) : bool := match x with CnAdmitted _ _ _ => true | _ => false end.
Definition admitted (v : acceptor) : nat := size (filter (λ '(_, x), is_admitted x = true) (av_conns v)).

(** A step while at most [K] connections are between the check and the registration. *)
Definition step_within (authToken : string) (maxTunnels : Z) (K : nat) (v v' : acceptor) : Prop :=
  any_step authToken maxTunnels v v' ∧ (admitted v' ≤ K)%nat.

Lemma admitted_set v m c x :
  (admitted (set_conn v m c x) + (if default false (is_admitted <$> av_conns v !! c) then 1 else 0) =
   admitted v + (if is_admitted x then 1 else 0))%nat.
Proof.
  unfold admitted. cbn [av_conns set_conn]. set (P := λ '(_, x), is_admitted x = true).
  assert (Hv : filter P (av_conns v) !! c = av_conns v !! c ≫= λ x, if is_admitted x then Some x else None).
  { rewrite map_lookup_filter. destruct (av_conns v !! c) as [y|]; [|done]. cbn. case_guard as H; cbn in H; destruct (is_admitted y); cbn; congruence. }
  rewrite map_filter_insert. destruct (decide (P (c, x))) as [H|H]; cbn in H.
  - rewrite H, map_size_insert, Hv. destruct (av_conns v !! c) as [y|] eqn:Ey; cbn; [|lia]. destruct (is_admitted y) eqn:Ea; cbn; lia.
  - rewrite map_filter_delete, map_size_delete, Hv. destruct (is_admitted x); [done|].
    destruct (av_conns v !! c) as [y|] eqn:Ey; cbn; [|lia]. destruct (is_admitted y) eqn:Ea; cbn; [|lia].
    enough (size (filter P (av_conns v)) ≠ 0)%nat by lia. intros H0%map_size_empty_inv.
    rewrite H0, lookup_empty in Hv. cbn in Hv. by rewrite Ea in Hv.
Qed.

Lemma tunnels_of v : TunnelManager_ActiveTunnels v = Z.of_nat (size (tm_tunnels v)).
Proof. done. Qed.

Lemma within_bound authToken maxTunnels K v v' :
  accept_inv v → TunnelManager_ActiveTunnels (av_manager v) + Z.of_nat (admitted v) ≤ maxTunnels - 1 + Z.of_nat K →
  step_within authToken maxTunnels K v v' →
  TunnelManager_ActiveTunnels (av_manager v') + Z.of_nat (admitted v') ≤ maxTunnels - 1 + Z.of_nat K.
Proof.
  rewrite !tunnels_of. intros Hi Hb [[c Hs] HK].
  destruct Hs as [c Hc|c first tid rem Hc|c reg tid rem x m Hc He|c node sref m Hc He|c node sref s s' Hc Hs Hx]; [| | | |exact Hb].
  - pose proof (admitted_set v (av_manager v) c CnReading) as Ha. rewrite Hc in Ha. cbn in Ha |- *. lia.
  - revert HK. set (x := check_conn _ _ _ _ _ _). pose proof (admitted_set v (av_manager v) c x) as Ha. rewrite Hc in Ha. cbn in Ha. intros HK.
    cbn [av_manager set_conn] in *. destruct (is_admitted x) eqn:Hx; [|lia].
    assert (Hlt : Z.of_nat (size (tm_tunnels (av_manager v))) < maxTunnels); [|lia]. revert Hx. unfold x, check_conn.
    repeat case_match; try done. bool_to_prop. unfold TunnelManager_ActiveTunnels in *. lia.
  - pose proof (admitted_set v m c x) as Ha. rewrite Hc in Ha. apply enter_spec in He as [_ He]; [|apply Hi]. cbn [av_manager set_conn].
    destruct (tm_tunnels (av_manager v) !! rp_NodeID reg) eqn:El.
    + destruct He as [-> ->]. cbn in Ha. lia.
    + destruct He as (r & -> & ->). rewrite map_size_insert_None by done. cbn in Ha. lia.
  - pose proof (admitted_set v m c (CnDone (HsAccepted sref))) as Ha. rewrite Hc in Ha. cbn in Ha.
    apply Unregister_tunnels in He. cbn [av_manager set_conn]. rewrite He, map_size_delete. case_match; cbn [id] in *; lia.
Qed.

(** *** Reaching it *)
Section reach.
Context (authToken : string) (maxTunnels : Z) (K : nat).
Definition node_name (n : nat) : string := pretty n.
Definition node_reg (n : nat) : RegisterPayload := mkRegisterPayload (node_name n) authToken "".

(** [i] nodes have tunnels and [j] more have passed the check. *)
Record stage (i j : nat) (v : acceptor) : Prop := {
  sg_inv : accept_inv v;
  sg_serving c : (c < i)%nat → ∃ sref, av_conns v !! c = Some (CnServing (node_name c) sref);
  sg_admitted c : (i ≤ c < i + j)%nat → av_conns v !! c = Some (CnAdmitted (node_reg c) "" "");
  sg_none c : (i + j ≤ c)%nat → av_conns v !! c = None;
  sg_size : size (tm_tunnels (av_manager v)) = i ∧ admitted v = j
}.
Local Abbreviation run := (rtc (step_within authToken maxTunnels K)).

Lemma stage_admit i j v : stage i j v → Z.of_nat i < maxTunnels → (j < K)%nat → ∃ v', run v v' ∧ stage i (S j) v'.
Proof.
  intros [Hi Hs Ha Hn [Hz Hj]] Hlt HjK. set (c := (i + j)%nat). set (m := av_manager v).
  set (v1 := set_conn v m c CnReading). set (v2 := set_conn v1 m c (CnAdmitted (node_reg c) "" "")).
  assert (Hc : av_conns v !! c = None) by (apply Hn; lia).
  assert (H1 : accept_step authToken maxTunnels v c v1) by by apply as_accept.
  assert (Hadm : check_conn authToken maxTunnels m (Some (type_code MsgTypeRegister, Some (node_reg c))) "" "" = CnAdmitted (node_reg c) "" "").
  { unfold check_conn. rewrite Z.eqb_refl. cbn [negb rp_NodeToken node_reg]. rewrite String.eqb_refl, andb_false_r. cbn [negb].
    rewrite (proj2 (Z.leb_gt _ _)); [done|]. unfold m. rewrite tunnels_of, Hz. done. }
  assert (Hc1 : av_conns v1 !! c = Some CnReading) by (cbn; apply lookup_insert_eq).
  assert (H2 : accept_step authToken maxTunnels v1 c v2).
  { unfold v2. rewrite <- Hadm. by apply (as_admit _ _ v1 c). }
  assert (A1 : admitted v1 = j). { pose proof (admitted_set v m c CnReading) as Hx. rewrite Hc in Hx. cbn in Hx. fold v1 in Hx. lia. }
  assert (A2 : admitted v2 = S j). { pose proof (admitted_set v1 m c (CnAdmitted (node_reg c) "" "")) as Hx. rewrite Hc1 in Hx. cbn in Hx. fold v2 in Hx. lia. }
  exists v2. split.
  - eapply rtc_l; [split; [by eexists|lia]|]. eapply rtc_l; [split; [by eexists|lia]|]. done.
  - split; [by do 2 (eapply accept_step_inv; [|done])| | | |done].
    all: intros c' Hc'; unfold v2, v1; cbn [av_conns set_conn]; destruct (decide (c' = c)) as [->|Hne]; unfold c in *.
    all: try lia.
    all: rewrite ?insert_insert_eq, ?lookup_insert_eq, ?lookup_insert_ne by done; try done.
    + by apply Hs.
    + apply Ha. lia.
    + apply Hn. lia.
Qed.

Lemma stage_enter i j v : stage i (S j) v → (S j ≤ K)%nat → ∃ v', run v v' ∧ stage (S i) j v'.
Proof.
  intros [Hi Hs Ha Hn [Hz Hj]] HjK. assert (Hc : av_conns v !! i = Some (CnAdmitted (node_reg i) "" "")) by (apply Ha; lia).
  destruct (enter (av_manager v) (node_reg i) "" "") as [x m] eqn:He.
  assert (Hstep : accept_step authToken maxTunnels v i (set_conn v m i x)) by by eapply as_enter.
  apply enter_spec in He as [_ He]; [|apply Hi]. cbn [rp_NodeID node_reg] in He.
  destruct (tm_tunnels (av_manager v) !! node_name i) as [r|] eqn:El.
  { exfalso. apply (ai_tunnels _ Hi) in El as [c El]. destruct (Nat.lt_total c i) as [Hlt|[->|Hgt]].
    - destruct (Hs c Hlt) as [sref Hsv]. rewrite Hsv in El. injection El as El _. apply (inj pretty) in El. lia.
    - by rewrite Hc in El.
    - destruct (decide (c < i + S j)%nat); [rewrite Ha in El by lia; done|rewrite Hn in El by lia; done]. }
  destruct He as (sref & -> & Ht). pose proof (admitted_set v m i (CnServing (node_name i) sref)) as Hx. rewrite Hc in Hx. cbn in Hx.
  eexists. split; [apply rtc_once; split; [by eexists|lia]|]. split; [by eapply accept_step_inv| | | |].
  - intros c Hlt. cbn. destruct (decide (c = i)) as [->|Hne]; [rewrite lookup_insert_eq; eauto|]. rewrite lookup_insert_ne by done. apply Hs. lia.
  - intros c Hlt. cbn. rewrite lookup_insert_ne by lia. apply Ha. lia.
  - intros c Hlt. cbn. rewrite lookup_insert_ne by lia. apply Hn. lia.
  - split; [|lia]. cbn. by rewrite Ht, map_size_insert_None, Hz.
Qed.

Lemma start_stage : stage 0 0 start_acceptor.
Proof. split; [apply start_accept_inv|intros c Hc; lia|intros c Hc; lia|done|done]. Qed.

(** Nodes that connect one after the other. *)
Lemma stages_serial i : (1 ≤ K)%nat → Z.of_nat i ≤ maxTunnels → ∃ v, run start_acceptor v ∧ stage i 0 v.
Proof.
  intros HK. induction i as [|i IH]; intros Hi; [exists start_acceptor; split; [done|apply start_stage]|].
  destruct IH as (v & Hr & Hv); [lia|]. destruct (stage_admit i 0 v Hv) as (v1 & Hr1 & Hv1); [lia..|].
  destruct (stage_enter i 0 v1 Hv1) as (v2 & Hr2 & Hv2); [lia|]. exists v2. split; [|done]. by etrans; [|etrans].
Qed.

(** Nodes that pass the check together. *)
Lemma stages_admit i v j : stage i 0 v → Z.of_nat i < maxTunnels → (j ≤ K)%nat → ∃ v', run v v' ∧ stage i j v'.
Proof.
  intros Hv Hi. induction j as [|j IH]; intros Hj; [by exists v|].
  destruct IH as (v1 & Hr1 & Hv1); [lia|]. destruct (stage_admit i j v1 Hv1) as (v2 & Hr2 & Hv2); [lia..|].
  exists v2. split; [by etrans|done].
Qed.

Lemma stages_enter j : ∀ i v, stage i j v → (j ≤ K)%nat → ∃ v', run v v' ∧ stage (i + j) 0 v'.
Proof.
  induction j as [|j IH]; intros i v Hv Hj; [exists v; by rewrite Nat.add_0_r|].
  destruct (stage_enter i j v Hv Hj) as (v1 & Hr1 & Hv1). destruct (IH _ _ Hv1) as (v2 & Hr2 & Hv2); [lia|].
  exists v2. split; [by etrans|]. by replace (i + S j)%nat with (S i + j)%nat by lia.
Qed.
End reach.

(** The limit of tunnels and what it is worth: as long as at most K connections
    are between the check and the registration, there are never more than MaxTunnels - 1 + K
    tunnels, so that the limit holds if registrations do not overlap; and for every K there is
    a run of nodes with the right token that reaches this number. *)
Theorem tunnel_limit_exact authToken maxTunnels K :
  1 ≤ maxTunnels → (1 ≤ K)%nat →
  (∀ v, rtc (step_within authToken maxTunnels K) start_acceptor v →
     TunnelManager_ActiveTunnels (av_manager v) ≤ maxTunnels - 1 + Z.of_nat K) ∧
  ∃ v, rtc (step_within authToken maxTunnels K) start_acceptor v ∧
     TunnelManager_ActiveTunnels (av_manager v) = maxTunnels - 1 + Z.of_nat K.
Proof.
  intros Hmax HK. split.
  - intros v Hr. enough (TunnelManager_ActiveTunnels (av_manager v) + Z.of_nat (admitted v) ≤ maxTunnels - 1 + Z.of_nat K) by lia.
    assert (H0 : TunnelManager_ActiveTunnels (av_manager start_acceptor) + Z.of_nat (admitted start_acceptor) ≤ maxTunnels - 1 + Z.of_nat K)
      by (change (TunnelManager_ActiveTunnels _) with 0; change (admitted start_acceptor) with 0%nat; lia).
    revert H0. pose proof start_accept_inv as Hi. revert Hi.
    induction Hr as [v|v v1 v2 Hs _ IH]; intros Hi Hb; [done|]. apply IH.
    + destruct Hs as [[c Hs] _]. by eapply accept_step_inv.
    + by eapply within_bound.
  - destruct (stages_serial authToken maxTunnels K (Z.to_nat (maxTunnels - 1))) as (v & Hr & Hv); [done|lia|].
    destruct (stages_admit authToken maxTunnels K _ v K Hv) as (v1 & Hr1 & Hv1); [lia|done|].
    destruct (stages_enter authToken maxTunnels K K _ v1 Hv1) as (v2 & Hr2 & Hv2); [done|].
    exists v2. split; [by etrans; [|etrans]|]. rewrite tunnels_of. destruct Hv2 as [_ _ _ _ [-> _]]. lia.
Qed.

(** ** Concrete runs *)
Lemma tunnel_limit_exact_witness :
  ∃ v, rtc (step_within "s" 100 20) start_acceptor v ∧ TunnelManager_ActiveTunnels (av_manager v) = 119.
Proof. destruct (tunnel_limit_exact "s" 100 20) as [_ H]; [lia|lia|exact H]. Defined.

Definition demo_accept_reg : RegisterPayload := mkRegisterPayload "n1" "s" "127.0.0.1:80".
Definition demo_accepted : connState * TunnelManager := enter NewTunnelManager demo_accept_reg "t" "x".
Definition demo_acceptor : acceptor := mkAcceptor demo_accepted.2 {[7%nat := demo_accepted.1]}.

Lemma demo_acceptor_runs : rtc (any_step "s" 100) start_acceptor demo_acceptor.
Proof.
  eapply rtc_l; [exists 7%nat; by apply (as_accept _ _ _ 7)|].
  eapply rtc_l; [exists 7%nat; apply (as_admit _ _ _ 7 (Some (type_code MsgTypeRegister, Some demo_accept_reg)) "t" "x"); apply lookup_insert_eq|].
  eapply rtc_l; [exists 7%nat; eapply (as_enter _ _ _ 7 demo_accept_reg "t" "x"); [apply lookup_insert_eq|unfold demo_accepted; reflexivity]|].
  apply rtc_refl.
Qed.

Lemma one_connection_per_tunnel_witness : ∃ c, av_conns demo_acceptor !! c = Some (CnServing "n1" 0).
Proof. apply (proj1 (one_connection_per_tunnel "s" 100 demo_acceptor demo_acceptor_runs) "n1" 0%nat). vm_compute. reflexivity. Defined.

Lemma dead_connection_locks_out_witness :
  (enter (av_manager demo_acceptor) demo_accept_reg "t2" "y").1 = CnDone (HsRejected "tunnel already exists for node").
Proof.
  apply (dead_connection_locks_out "s" 100 demo_acceptor 7 "n1" 0 demo_acceptor demo_accept_reg "t2" "y" demo_acceptor_runs);
    [vm_compute; reflexivity|apply rtc_refl|reflexivity].
Defined.
