(* ===== verification/GatewayServer.v ===== *)
(** * The gateway as a process ([New], [Start], [Stop], [handleHealth], [handleMetrics] and the
      middleware in [internal/gateway/gateway.go]; [internal/waf/waf.go]; [Start] and [Stop]
      in [internal/tunnel/server.go])

    [Gateway] has the handler of objects, [TunnelServer] the manager of the tunnels; here are
    the listeners, the routes, the headers every answer gets, and the firewall in front of
    them.  The engine of the firewall is the library Coraza: an argument, with the documented
    law that the headers of a request are checked by rules of phase 1 only.

    The theorems: the firewall lets every request pass whose address contains no traversal,
    since the program never runs the phase its other rules are for; a gateway whose listener
    fails leaves nothing behind, and stopping one ends every tunnel. *)

From S2P Require Import Prelude GoStrings GoFloat StreamKeys Models Manifest Fetcher EdgeServer TunnelCodec TunnelServer Gateway Metrics.
From Stdlib Require Import Ascii.

(** ** The firewall *)
Inductive wafTarget := REQUEST_URI | ARGS | ARGS_NAMES | REQUEST_COOKIES | REQUEST_HEADERS.
Record wafRule := mkWafRule { wr_targets : list wafTarget; wr_rx : string; wr_id : Z; wr_phase : Z; wr_status : Z }.

Definition traversal_rx : string := "(?:\.\./|\.\\.)".
(** The rules of [New]. *)
Definition waf_rules : list wafRule :=
  [mkWafRule [REQUEST_URI] traversal_rx 1 1 403;
   mkWafRule [ARGS; ARGS_NAMES; REQUEST_COOKIES; REQUEST_HEADERS]
     "(?i:(?:union\s+select|insert\s+into|delete\s+from|drop\s+table|update\s+\w+\s+set))" 2 2 403;
   mkWafRule [ARGS; ARGS_NAMES] "(?:<script|javascript:)" 3 2 403;
   mkWafRule [ARGS] "(?:https?|ftp|php|data)://" 4 2 403].

(** A transaction after [ProcessConnection], [ProcessURI] and [AddRequestHeader]. *)
Record wafTx := mkWafTx {
  wt_client : string; wt_server : string; wt_URI : string; wt_Method : string; wt_Proto : string;
  wt_headers : gmap string (list string)
}.
Definition waf_transaction (uri proto : string) (r : gwRequest) : wafTx :=
  mkWafTx (gr_RemoteAddr r) (gr_Host r) uri (gr_Method r) proto
    (<["Host" := default [] (gr_Headers r !! "Host") ++ [gr_Host r]]> (gr_Headers r)).

(** [Middleware]: [ProcessRequestHeaders] gives the rule that interrupts, if any. *)
Definition waf_Middleware (ProcessRequestHeaders : option (wafTx → option Z)) (denyStatusCode : Z)
    (next : gwRequest → response) (uri proto : string) (r : gwRequest) : response :=
  match ProcessRequestHeaders with
  | None => next r
  | Some process =>
      match process (waf_transaction uri proto r) with
      | Some _ => http_Error "Forbidden" denyStatusCode
      | None => next r
      end
  end.

(** What a rule of phase 1 looks at; arguments of the query are read from the address. *)
Section coraza.
Context (rx : string → string → bool) (arguments : string → list string) (cookies : gmap string (list string) → list string).
Definition waf_texts (t : wafTarget) (tx : wafTx) : list string :=
  match t with
  | REQUEST_URI => [wt_URI tx]
  | ARGS | ARGS_NAMES => arguments (wt_URI tx)
  | REQUEST_COOKIES => cookies (wt_headers tx)
  | REQUEST_HEADERS => concat (map_to_list (wt_headers tx)).*2
  end.

(** The engine: an interruption by the headers is one by a rule of phase 1 that matches. *)
Record coraza_ok (process : wafTx → option Z) : Prop := {
  cz_rule tx id : process tx = Some id →
    ∃ rule t s, rule ∈ waf_rules ∧ wr_id rule = id ∧ wr_phase rule = 1 ∧
      t ∈ wr_targets rule ∧ s ∈ waf_texts t tx ∧ rx (wr_rx rule) s = true;
  cz_traversal s : rx traversal_rx s = true → contains (to_chars "../") (to_chars s) = true ∨ contains (to_chars ".\") (to_chars s) = true
}.
End coraza.

(** The firewall checks addresses for traversals and nothing else: a request whose
    address contains neither "../" nor ".\" passes unchanged, whatever its arguments, headers
    and cookies are; the three rules against injections are for phase 2, which the middleware
    never runs.  A request that is denied was denied by rule 1. *)
Theorem waf_lets_injections_through rx arguments cookies process denyStatusCode next uri proto r :
  coraza_ok rx arguments cookies process →
  (contains (to_chars "../") (to_chars uri) = false → contains (to_chars ".\") (to_chars uri) = false →
   waf_Middleware (Some process) denyStatusCode next uri proto r = next r) ∧
  (∀ id, process (waf_transaction uri proto r) = Some id → id = 1).
Proof.
  intros [Hrule Htrav].
  assert (H1 : ∀ id, process (waf_transaction uri proto r) = Some id → id = 1 ∧ rx traversal_rx uri = true).
  { intros id Hid. destruct (Hrule _ _ Hid) as (rule & t & s & Hin & <- & Hph & Ht & Hs & Hm). unfold waf_rules in Hin.
    repeat (apply elem_of_cons in Hin as [->|Hin]; [cbn in Hph, Ht, Hs, Hm; try done|]); [|by apply elem_of_nil in Hin].
    apply list_elem_of_singleton in Ht as ->. cbn in Hs. apply list_elem_of_singleton in Hs as ->. done. }
  split; [|intros id Hid; by destruct (H1 _ Hid)]. intros Hn1 Hn2. unfold waf_Middleware.
  destruct (process _) as [id|] eqn:Hp; [|done]. destruct (H1 _ eq_refl) as [_ Hm]. destruct (Htrav _ Hm) as [H|H]; congruence.
Qed.

(** ** The listener of the tunnels *)
Record tunnelListener := mkTunnelListener { tl_manager : TunnelManager; tl_open : bool }.
Definition new_tunnelListener : tunnelListener := mkTunnelListener NewTunnelManager false.

(** [tunnel.Server.Start]. *)
Definition tunnel_Start (certFile keyFile : string) (cert_ok : bool) (listen : bool → bool) (l : tunnelListener)
    : result unit * tunnelListener :=
  let tls := negb (String.eqb certFile "") && negb (String.eqb keyFile "") in
  if tls && negb cert_ok then (Err "load tls cert", l)
  else if listen tls then (Ok tt, mkTunnelListener (tl_manager l) true) else (Err "listen tunnel", l).

(** [tunnel.Server.Stop]. *)
Definition tunnel_Stop (l : tunnelListener) : result tunnelListener :=
  let! m := TunnelManager_Close (tl_manager l) in Ok (mkTunnelListener m false).

(** ** The gateway *)
Record gateway := mkGateway {
  gt_tunnels : tunnelListener;
  gt_serving : bool;                       (* [g.server] and its listener *)
  gt_resolver : ControlPlaneClient;
  gt_waf : option (wafTx → option Z)       (* [SetWAFMiddleware] with status 403 *)
}.
(** [New] and [NewControlPlaneClient]. *)
Definition NewGateway : gateway := mkGateway new_tunnelListener false NewControlPlaneClient None.
Definition SetWAFMiddleware (g : gateway) (waf : wafTx → option Z) : gateway :=
  mkGateway (gt_tunnels g) (gt_serving g) (gt_resolver g) (Some waf).
Definition set_tunnels (g : gateway) (l : tunnelListener) (serving : bool) : gateway :=
  mkGateway l serving (gt_resolver g) (gt_waf g).

(** [Start]: [New] gives the tunnel server no certificate. *)
Definition Gateway_Start (listen_tunnels : bool → bool) (listen_http : bool) (g : gateway) : result unit * gateway :=
  let '(r, l) := tunnel_Start "" "" true listen_tunnels (gt_tunnels g) in
  match r with
  | Ok _ =>
      if listen_http then (Ok tt, set_tunnels g l true)
      else
        match tunnel_Stop l with
        | Ok l => (Err "listen gateway", set_tunnels g l false)
        | Err e => (Err e, g)
        | Panic => (Panic, g)
        end
  | Err _ => (Err "start tunnel server", set_tunnels g l false)
  | Panic => (Panic, g)
  end.

Definition Gateway_Stop (g : gateway) : result gateway :=
  let! l := tunnel_Stop (gt_tunnels g) in Ok (set_tunnels g l false).

(** What is left open by a gateway. *)
Definition closed_gateway (g : gateway) : Prop :=
  gt_serving g = false ∧ tl_open (gt_tunnels g) = false ∧ connected (tl_manager (gt_tunnels g)) = ∅.

Lemma tunnel_Stop_closes l : mgr_ok (tl_manager l) →
  ∃ l', tunnel_Stop l = Ok l' ∧ tl_open l' = false ∧ mgr_ok (tl_manager l') ∧ connected (tl_manager l') = ∅.
Proof.
  intros Hm. unfold tunnel_Stop. destruct (Manager_Close_spec _ Hm) as (m' & -> & Hok & Hc). cbn. by eexists.
Qed.

(** The life of a gateway: a new one that cannot open both of its listeners
    says which one failed and leaves neither open; one that can serves, and keeps whatever
    tunnels its clients build; stopping it then, with any consistent set of tunnels, never
    fails, closes both listeners and leaves no node connected. *)
Theorem gateway_lifecycle listen_tunnels listen_http :
  let '(r, g) := Gateway_Start listen_tunnels listen_http NewGateway in
  (r = (if listen_tunnels false then if listen_http then Ok tt else Err "listen gateway" else Err "start tunnel server")) ∧
  (if listen_tunnels false && listen_http
   then gt_serving g = true ∧ tl_open (gt_tunnels g) = true ∧
        ∀ m, mgr_ok m → ∃ g', Gateway_Stop (set_tunnels g (mkTunnelListener m true) true) = Ok g' ∧ closed_gateway g'
   else closed_gateway g).
Proof.
  unfold Gateway_Start, tunnel_Start. cbn [String.eqb negb andb]. destruct (listen_tunnels false); cbn [andb]; [|by split_and!].
  destruct listen_http; cbn -[TunnelManager_Close].
  - split; [done|]. split_and!; [done|done|]. intros m Hm. unfold Gateway_Stop. cbn [gt_tunnels set_tunnels].
    destruct (tunnel_Stop_closes (mkTunnelListener m true) Hm) as (l' & -> & Ho & _ & Hc). cbn. eexists. split; [done|]. by split_and!.
  - destruct (tunnel_Stop_closes (mkTunnelListener NewTunnelManager true) NewTunnelManager_ok) as (l' & -> & Ho & _ & Hc).
    cbn. split; [done|]. by split_and!.
Qed.

(** ** Routes and pages *)
Inductive gwReply :=
| GwResponse (resp : response)
| GwHealth (tunnels : Z)              (* {status: ok, tunnels: n} *)
| GwMetricsJSON (active_tunnels : Z)
| GwMetrics (lines : list chars).

Definition tunnel_gauge : metricFn := mkMetricFn "gateway_active_tunnels" [].
(** The metrics [New] registers. *)
Definition gateway_registry (r : registry) : registry :=
  let r := (NewCounter "gateway_requests_total" "Total number of proxy requests" [] r).2 in
  let r := (NewCounter "gateway_errors_total" "Total number of proxy errors" [] r).2 in
  (NewGauge "gateway_active_tunnels" "Number of active tunnel connections" [] r).2.

Definition handleHealth (g : gateway) : gwReply := GwHealth (TunnelManager_ActiveTunnels (tl_manager (gt_tunnels g))).

Definition gw_handleMetrics (format_g : float64 → string) (format : string) (g : gateway) (r : registry) : gwReply * registry :=
  let n := TunnelManager_ActiveTunnels (tl_manager (gt_tunnels g)) in
  let r := GaugeFn_Set tunnel_gauge (float_of_Z n) [] r in
  (if String.eqb format "json" then GwMetricsJSON n else GwMetrics (writeTo format_g r), r).

(** [withSecurityHeaders], which sets its headers before the handler runs. *)
Definition withSecurityHeaders (tls : bool) (resp : response) : response :=
  let h := (if tls then <["Strict-Transport-Security" := "max-age=63072000; includeSubDomains"]> else id)
    (<["X-Content-Type-Options" := "nosniff"]> (<["X-Frame-Options" := "DENY"]>
     (<["X-XSS-Protection" := "1; mode=block"]> {["Referrer-Policy" := "strict-origin-when-cross-origin"]}))) in
  mkResponse (rs_status resp) (rs_headers resp ∪ h) (rs_body resp).

(** The paths of the multiplexer; it redirects a path that is not clean. *)
Definition mux_clean (path : string) : string :=
  let p := to_chars path in
  let np := path_Clean p in
  of_chars (if has_suffix [slash] p && negb (bool_decide (np = [slash])) then np ++ [slash] else np).
Inductive muxTarget := MuxRedirect (path : string) | MuxObject | MuxHealth | MuxMetrics | MuxNotFound.
Definition gateway_mux (path : string) : muxTarget :=
  if negb (String.eqb (mux_clean path) path) then MuxRedirect (mux_clean path)
  else if has_prefix (to_chars "/obj/") (to_chars path) then MuxObject
  else if String.eqb path "/healthz" then MuxHealth
  else if String.eqb path "/metrics" then MuxMetrics
  else MuxNotFound.

(** A key that climbs is redirected before any handler sees it; one without segments that
    climb reaches the handler of objects. *)
Example climbing_redirected : gateway_mux "/obj/a/../../secret" = MuxRedirect "/secret".
Proof. reflexivity. Qed.
Example object_routed : gateway_mux "/obj/a/b" = MuxObject.
Proof. reflexivity. Qed.

(** The gauge of the page is the number of connected nodes. *)
Lemma tunnel_count_shown format_g format g r m :
  rg_gauges r !! fn_name tunnel_gauge = Some m →
  (λ m, mt_values m !! "") <$> rg_gauges (gw_handleMetrics format_g format g r).2 !! fn_name tunnel_gauge =
    Some (Some (float_of_Z (Z.of_nat (size (connected (tl_manager (gt_tunnels g))))))).
Proof.
  intros Hm. unfold gw_handleMetrics. cbn [snd]. unfold GaugeFn_Set. cbn [rg_gauges]. rewrite lookup_alter_eq, Hm. cbn [fmap option_fmap option_map].
  unfold set_value, tunnel_gauge. cbn [fn_labels mt_values]. rewrite lookup_insert_eq. unfold connected, TunnelManager_ActiveTunnels.
  by rewrite size_dom.
Qed.

(** ** A concrete engine *)
Definition demo_rx (p s : string) : bool :=
  String.eqb p traversal_rx && (contains (to_chars "../") (to_chars s) || contains (to_chars ".\") (to_chars s)).
Definition demo_waf (tx : wafTx) : option Z := if demo_rx traversal_rx (wt_URI tx) then Some 1 else None.
Lemma demo_waf_ok : coraza_ok demo_rx (λ _, []) (λ _, []) demo_waf.
Proof.
  split.
  - intros tx id. unfold demo_waf. destruct (demo_rx _ _) eqn:E; [|done]. intros [= <-].
    eexists _, REQUEST_URI, (wt_URI tx). split_and!; [by left|done|done|by left|by left|exact E].
  - intros s H. unfold demo_rx in H. apply andb_true_iff in H as [_ H]. by apply orb_true_iff in H.
Qed.
Definition demo_gw_request : gwRequest := mkGwRequest "GET" "/obj/a" ∅ false ∅ "gw" "192.0.2.1:5" false 0.

Lemma waf_lets_injections_through_witness :
  waf_Middleware (Some demo_waf) 403 (λ _, http_Error "next" 200) "/obj/a?q=1%20union%20select&u=http://x" "HTTP/1.1" demo_gw_request
    = http_Error "next" 200.
Proof.
  apply (waf_lets_injections_through demo_rx (λ _, []) (λ _, []) demo_waf 403 (λ _, http_Error "next" 200)
    "/obj/a?q=1%20union%20select&u=http://x" "HTTP/1.1" demo_gw_request demo_waf_ok); vm_compute; reflexivity.
Defined.
