(* ===== verification/ControlMain.v ===== *)
(** * The background tasks of the control plane ([cmd/control-plane/main.go])

    Heartbeats, probes and the tasks of the queue are worked off by loops that an instance
    starts when it leads: [main] looks at [IsLeader] once at the start, a goroutine of its own
    looks a second time and then every second, and starts the loops when it sees the
    leadership begin.  Nothing stops them but the end of the process.  [sys_step] interleaves
    these looks with the election of [Leader].

    The theorems: an instance has started the loops as often as its looks have seen the
    leadership begin; so the single leader of a timely election need not be the instance, or
    the only one, that runs them. *)

From S2P Require Import Prelude Leader.

(** ** One instance *)

(** Before the first look, between the two, in the loop of the goroutine with [wasLeader],
    and after the shutdown. *)
Inductive mainPhase := MStarting | MLooked | MWatching (wasLeader : bool) | MStopped.

(** [mi_loops]: how often the loops run (the heartbeat batches, the prober, the executor). *)
Record mainInstance := mkMainInstance { mi_phase : mainPhase; mi_loops : nat }.
Definition new_main : mainInstance := mkMainInstance MStarting 0.

(** One look at [leader.IsLeader()]. *)
Definition look (isNow : bool) (x : mainInstance) : mainInstance :=
  match mi_phase x with
  | MStarting => mkMainInstance MLooked (if isNow then S (mi_loops x) else mi_loops x)
  | MLooked => mkMainInstance (MWatching isNow) (mi_loops x)
  | MWatching wasLeader => mkMainInstance (MWatching isNow) (if isNow && negb wasLeader then S (mi_loops x) else mi_loops x)
  | MStopped => x
  end.

(** [cancelBg]. *)
Definition stop_main (x : mainInstance) : mainInstance := mkMainInstance MStopped 0.

Definition looks (bs : list bool) (x : mainInstance) : mainInstance := foldl (λ x b, look b x) x bs.

(** How often the leadership begins in a sequence of looks that follow [was]. *)
Fixpoint begins (was : bool) (bs : list bool) : nat :=
  match bs with [] => 0 | b :: bs => (if b && negb was then 1 else 0) + begins b bs end.

Lemma looks_watching bs : ∀ was n,
  looks bs (mkMainInstance (MWatching was) n) = mkMainInstance (MWatching (foldl (λ _ b, b) was bs)) (n + begins was bs).
Proof.
  induction bs as [|b bs IH]; intros was n; cbn [looks foldl begins]; [f_equal; lia|].
  unfold look at 2. cbn [mi_phase mi_loops]. unfold looks in IH. rewrite IH. f_equal. destruct (b && negb was); lia.
Qed.

(** The loops of an instance: after the first look [b0], the second [b1] and
    any further ones, an instance that has not been stopped runs the loops once if the first
    look saw it lead, and once more for each time the leadership began between two looks from
    the second one on; no look ever stops one. *)
Theorem loops_started b0 b1 bs :
  mi_loops (looks (b0 :: b1 :: bs) new_main) = ((if b0 then 1 else 0) + begins b1 bs)%nat ∧
  ∀ more, (mi_loops (looks (b0 :: b1 :: bs) new_main) ≤ mi_loops (looks (b0 :: b1 :: bs ++ more) new_main))%nat.
Proof.
  assert (Hn : ∀ l, mi_loops (looks (b0 :: b1 :: l) new_main) = ((if b0 then 1 else 0) + begins b1 l)%nat).
  { intros l. change (looks (b0 :: b1 :: l) new_main) with (looks l (mkMainInstance (MWatching b1) (if b0 then 1 else 0))).
    by rewrite looks_watching. }
  split; [apply Hn|]. intros more. rewrite !Hn. enough (begins b1 bs ≤ begins b1 (bs ++ more))%nat by lia.
  clear Hn. revert b1. induction bs as [|b bs IH]; intros b1; cbn; [lia|]. specialize (IH b). lia.
Qed.

(** ** The instances and their election *)
Record system := mkSystem { sy_cluster : Cluster; sy_mains : gmap string mainInstance }.
Definition start_system (names : list string) : system :=
  mkSystem (start_cluster names) (list_to_map ((λ n, (n, new_main)) <$> names)).

Section runs.
Context (may_wait : Cluster → Z → Prop).
Inductive sys_step (s : system) : system → Prop :=
| sy_election c : le_step may_wait (sy_cluster s) c → sys_step s (mkSystem c (sy_mains s))
| sy_look i l x :
    cl_insts (sy_cluster s) !! i = Some l → sy_mains s !! i = Some x →
    sys_step s (mkSystem (sy_cluster s) (<[i := look (LeaderElection_IsLeader l) x]> (sy_mains s)))
| sy_stop i x : sy_mains s !! i = Some x → sys_step s (mkSystem (sy_cluster s) (<[i := stop_main x]> (sy_mains s))).
End runs.

Definition loops_of (s : system) (i : string) : nat := default 0%nat (mi_loops <$> sy_mains s !! i).

(** ** Running scenarios *)
Inductive sy_event := SElection (e : le_event) | SLook (i : string).
Definition sy_exec (s : system) (e : sy_event) : option system :=
  match e with
  | SElection e => c ← le_exec timelyb (sy_cluster s) e; Some (mkSystem c (sy_mains s))
  | SLook i =>
      l ← cl_insts (sy_cluster s) !! i; x ← sy_mains s !! i;
      Some (mkSystem (sy_cluster s) (<[i := look (LeaderElection_IsLeader l) x]> (sy_mains s)))
  end.
Fixpoint sy_execs (es : list sy_event) (s : system) : option system :=
  match es with [] => Some s | e :: es => s ← sy_exec s e; sy_execs es s end.

Lemma sy_execs_sound es s s' : sy_execs es s = Some s' → rtc (sys_step timely) s s'.
Proof.
  revert s. induction es as [|e es IH]; intros s; cbn; [intros [= <-]; apply rtc_refl|].
  destruct (sy_exec s e) as [s1|] eqn:He; [|done]. intros H. eapply rtc_l; [|by apply IH]. revert He. clear. destruct e as [e|i]; cbn.
  - destruct (le_exec timelyb _ e) as [c|] eqn:Hc; [|done]. intros [= <-]. apply sy_election.
    by eapply le_exec_sound; [exact timelyb_timely|].
  - destruct (cl_insts _ !! i) as [l|] eqn:Hl; [|done]. destruct (sy_mains s !! i) as [x|] eqn:Hx; [|done]. intros [= <-]. by apply sy_look.
Qed.

(** "a" leads, a renewal fails so that it steps down, "b" takes over, "b" fails likewise and
    "a" leads again; each looks in between. *)
Definition handover_events : list sy_event :=
  [SElection (ESetNX "a" Reply); SLook "a"; SLook "a"; SLook "b"; SLook "b";
   SElection (EWait 3000); SElection (ESetNX "a" Reply); SElection (EGet "a" Reply); SElection (EExpire "a" (Failure false));
   SLook "a"; SElection (EWait 10000); SElection (ESetNX "b" Reply); SLook "b"].
Definition return_events : list sy_event :=
  handover_events ++
  [SElection (EWait 13000); SElection (ESetNX "b" Reply); SElection (EGet "b" Reply); SElection (EExpire "b" (Failure false));
   SLook "b"; SElection (EWait 20000); SElection (ESetNX "a" Reply); SLook "a"].

(** "a" gets the key between its two looks. *)
Definition missed_events : list sy_event := [SLook "a"; SElection (ESetNX "a" Reply); SLook "a"; SLook "b"; SLook "b"].

(** The instance and no other answers [IsLeader] with true. *)
Definition only_leader (c : Cluster) (i : string) : Prop :=
  (∃ l, cl_insts c !! i = Some l) ∧ ∀ j l, cl_insts c !! j = Some l → LeaderElection_IsLeader l = String.eqb j i.
Definition only_leaderb (c : Cluster) (i : string) : bool :=
  match cl_insts c !! i with Some _ => true | None => false end &&
  bool_decide (map_Forall (λ j l, LeaderElection_IsLeader l = String.eqb j i) (cl_insts c)).
Lemma only_leaderb_sound c i : only_leaderb c i = true → only_leader c i.
Proof.
  unfold only_leaderb. intros [H1 H2]%andb_true_iff. apply bool_decide_eq_true in H2. split; [|exact H2].
  destruct (cl_insts c !! i) as [l|]; [by exists l|done].
Qed.

(** A step that leaves [i] the only leader. *)
Definition steady_step (i : string) (s s' : system) : Prop := sys_step any_time s s' ∧ only_leader (sy_cluster s') i.

(** No instance has a loop, and each has seen who leads. *)
Definition silent (i : string) (s : system) : Prop :=
  only_leader (sy_cluster s) i ∧
  ∀ j x, sy_mains s !! j = Some x → mi_loops x = 0%nat ∧ (mi_phase x = MStopped ∨ mi_phase x = MWatching (String.eqb j i)).

Lemma silent_step i s s' : silent i s → steady_step i s s' → silent i s'.
Proof.
  intros [Ho Hs] [Hstep Ho']. split; [done|]. destruct Hstep as [c Hc|j l x Hl Hx|j x Hx]; cbn in *; [exact Hs|..].
  - intros j' x' [[<- <-]|[_ Hj]]%lookup_insert_Some; [|by apply Hs]. destruct (Hs _ _ Hx) as [H0 Hp].
    destruct Ho as [_ Ho]. rewrite (Ho _ _ Hl). unfold look. destruct Hp as [Hp|Hp]; rewrite Hp; [by auto|]. cbn.
    split; [|by right]. destruct (String.eqb j i); cbn; lia.
  - intros j' x' [[<- <-]|[_ Hj]]%lookup_insert_Some; [by auto|by apply Hs].
Qed.

Definition silentb (i : string) (s : system) : bool :=
  only_leaderb (sy_cluster s) i &&
  forallb (λ '(j, x), (mi_loops x =? 0)%nat && match mi_phase x with MWatching w => eqb w (String.eqb j i) | _ => false end) (map_to_list (sy_mains s)).
Lemma silentb_sound i s : silentb i s = true → silent i s.
Proof.
  unfold silentb. intros [H1 H2]%andb_true_iff. split; [by apply only_leaderb_sound|]. intros j x Hj.
  rewrite forallb_forall in H2. apply elem_of_map_to_list, list_elem_of_In, H2 in Hj. cbn in Hj.
  apply andb_true_iff in Hj as [Hn Hp]. apply Nat.eqb_eq in Hn. split; [done|]. right.
  destruct (mi_phase x) as [| |w|]; try done. by apply eqb_prop in Hp as ->.
Qed.

(** C39 (error): Leading and working are different things, in elections without any fault but
    one failed renewal: after a handover the old leader's loops run on beside the new one's,
    and when it leads again it runs them twice; and an instance that gets the leadership
    between its first two looks leads without running them, and no other instance does, for as
    long as it is the only leader. *)
Theorem leadership_does_not_guard_tasks :
  let runs := rtc (sys_step timely) (start_system ["a"; "b"]) in
  (∃ s, runs s ∧ only_leader (sy_cluster s) "b" ∧ loops_of s "a" = 1%nat ∧ loops_of s "b" = 1%nat) ∧
  (∃ s, runs s ∧ only_leader (sy_cluster s) "a" ∧ loops_of s "a" = 2%nat ∧ loops_of s "b" = 1%nat) ∧
  (∃ s, runs s ∧ only_leader (sy_cluster s) "a" ∧
     ∀ s' i, rtc (steady_step "a") s s' → loops_of s' i = 0%nat).
Proof.
  split_and!.
  - eexists. split; [apply (sy_execs_sound handover_events); vm_compute; reflexivity|].
    split_and!; [apply only_leaderb_sound; vm_compute; reflexivity|vm_compute; reflexivity..].
  - eexists. split; [apply (sy_execs_sound return_events); vm_compute; reflexivity|].
    split_and!; [apply only_leaderb_sound; vm_compute; reflexivity|vm_compute; reflexivity..].
  - eexists. split; [apply (sy_execs_sound missed_events); vm_compute; reflexivity|].
    split; [apply only_leaderb_sound; vm_compute; reflexivity|]. intros s' i Hr.
    match type of Hr with rtc _ ?s _ => assert (Hs : silent "a" s) by (apply silentb_sound; vm_compute; reflexivity) end.
    assert (Hs' : silent "a" s') by (induction Hr as [|s1 s2 s3 H12 _ IH]; [done|by eapply IH, silent_step]).
    unfold loops_of. destruct (sy_mains s' !! i) as [x|] eqn:Hx; [|done]. destruct Hs' as [_ Hs']. by destruct (Hs' _ _ Hx) as [H0 _].
Qed.
