(* ===== verification/DnsAdapter.v ===== *)
(** * The DNS adapter as a process ([Start], [refreshLoop], [dispatchResolve], [resolveRegion] and
      [extractIP] in [internal/dns/server.go])

    [DNS] has the parser, the answers and the handler of one query.  Here are the requests the
    adapter sends: to the dispatch API, and to the service that knows the regions of
    addresses; and the process, which receives datagrams and refreshes its cache until it
    ends.  A query is handled in a goroutine without [recover]: a panic ends the process.

    The theorems: the adapter never sends an answer, and lives until the first datagram that
    is a query; the region of a client is never part of a dispatch request. *)

From S2P Require Import Prelude GoStrings NetAddr GoHash GoFloat Bloom ContentIndex StreamKeys SlidingWindow EdgeCache Models.
From S2P Require Import NodeCache Scheduler NodeLifecycle Policy ResourceKeys Api Manifest Fetcher Prefetch Tokens EdgeServer Config Reporter DNS.
From Stdlib Require Import Ascii.

Section adapter.
(** [url.Parse] of an endpoint: host and host name; [strings.ToLower] beyond ASCII. *)
Context (parse_endpoint : string → option (string * string)) (unicode_lower : chars → chars).

Definition extractIP (endpoint : string) : option bytes :=
  match parse_endpoint endpoint with
  | Some (host, name) => if String.eqb host "" then None
                         else option_map (map byte.of_Z) (ParseIP (if String.eqb name "" then host else name))
  | None => None
  end.

(** ** Regions *)

(** The decoded answer of the region service: region and status, empty if absent. *)
Record geoipResponse := mkGeoipResponse { gr_Region : string; gr_Status : string }.

Definition resolveRegion (ask : string → option geoipResponse) (geoCache : gmap string string) (ip : string)
    : string * gmap string string :=
  if String.eqb ip "" || String.eqb ip "127.0.0.1" || String.eqb ip "::1" then ("", geoCache)
  else
    match geoCache !! ip with
    | Some region => (region, geoCache)
    | None =>
        match ask ip with
        | Some gr => if String.eqb (gr_Status gr) "success" then (gr_Region gr, <[ip := gr_Region gr]> geoCache) else ("", geoCache)
        | None => ("", geoCache)
        end
    end.

(** ** Dispatches *)
Inductive dispatchAnswer := DaFails | DaStatus (status : Z) | DaCandidates (cs : list Candidate).

Definition dispatch_post (cfg : DNSAdapterConfig) (req : DispatchRequest) : post DispatchRequest :=
  mkPost (String.append (dnc_ControlPlaneURL cfg) "/v1/dispatch/resolve")
    (if String.eqb (dnc_TokenSecret cfg) "" then "" else String.append "Bearer " (dnc_TokenSecret cfg)) req.

Definition dispatchResolve (cp : post DispatchRequest → dispatchAnswer) (p : post DispatchRequest) : result (list Candidate) :=
  match cp p with
  | DaFails => Err "dispatch request"
  | DaStatus status => if status =? 200 then Err "decode dispatch" else Err "dispatch status"
  | DaCandidates cs => Ok cs
  end.

Definition refresh_request (cfg : DNSAdapterConfig) : DispatchRequest :=
  mkDispatchRequest (mkClientInfo "0.0.0.0" "" "") (mkResourceInfo "dns" (dnc_Domain cfg) "") false.
Definition query_request (ip region key : string) : DispatchRequest :=
  mkDispatchRequest (mkClientInfo ip region "") (mkResourceInfo "object" key "") false.

(** ** The process *)
Record adapter := mkAdapter {
  ad_cfg : DNSAdapterConfig;
  ad_server : DnsServer;
  ad_geoCache : gmap string string;
  ad_posts : list (post DispatchRequest);   (* what was sent, the last one first *)
  ad_sent : list (string * bytes)           (* answers to clients, the last one first *)
}.
Definition NewAdapter (cfg : DNSAdapterConfig) : adapter :=
  mkAdapter cfg (mkDnsServer (dnc_Domain cfg) (dnc_TTLSeconds cfg) ∅ 0) ∅ [] [].

(** The key a query is dispatched for, if it is. *)
Definition dispatched_key (s : DnsServer) (now : Z) (query : bytes) : option chars :=
  if (length query <? 12)%nat then None
  else
    match parseQuestion query with
    | Ok (name, _) =>
        match resource_of unicode_lower (to_chars (dns_Domain s)) (to_chars (string_of_bytes name)) with
        | Some key => if (now <? dns_cacheExpires s) && bool_decide (key = []) then None else Some key
        | None => None
        end
    | _ => None
    end.

Inductive dnsEvent :=
| DnRefresh (now : Z) (cp : post DispatchRequest → dispatchAnswer)
| DnQuery (now : Z) (client : string) (query pooled : bytes) (ask : string → option geoipResponse)
    (cp : post DispatchRequest → dispatchAnswer).

(** A datagram is cut at 512 bytes. *)
Definition adapter_step (a : adapter) (ev : dnsEvent) : result unit * adapter :=
  match ev with
  | DnRefresh now cp =>
      let p := dispatch_post (ad_cfg a) (refresh_request (ad_cfg a)) in
      (Ok tt, mkAdapter (ad_cfg a) (Server_refreshCache (ad_server a) now (dispatchResolve cp p)) (ad_geoCache a)
                (p :: ad_posts a) (ad_sent a))
  | DnQuery now client query pooled ask cp =>
      let query := take 512 query in
      let '(region, geo) := resolveRegion ask (ad_geoCache a) client in
      let post_of key := dispatch_post (ad_cfg a) (query_request client region (of_chars key)) in
      let '(posts, geo) :=
        match dispatched_key (ad_server a) now query with
        | Some key => (post_of key :: ad_posts a, geo)
        | None => (ad_posts a, ad_geoCache a)
        end in
      let a' sent := mkAdapter (ad_cfg a) (ad_server a) geo posts sent in
      match Server_handleQuery extractIP unicode_lower (ad_server a) now (λ key, dispatchResolve cp (post_of key)) pooled query with
      | Ok (Some resp) => (Ok tt, a' ((client, resp) :: ad_sent a))
      | Ok None => (Ok tt, a' (ad_sent a))
      | Err e => (Err e, a' (ad_sent a))
      | Panic => (Panic, a' (ad_sent a))
      end
  end.

(** Events one after the other, until a panic. *)
Fixpoint adapter_run (evs : list dnsEvent) (a : adapter) : result unit * adapter :=
  match evs with
  | [] => (Ok tt, a)
  | ev :: evs => match adapter_step a ev with (Panic, a) => (Panic, a) | (_, a) => adapter_run evs a end
  end.

(** The datagram is a query: it has a question the parser accepts. *)
Definition is_query (ev : dnsEvent) : Prop :=
  match ev with DnQuery _ _ query _ _ _ => ∃ q, parseQuestion (take 512 query) = Ok q | DnRefresh _ _ => False end.

Lemma handle_query_cases s now dispatch pooled query :
  match parseQuestion query with
  | Ok _ => Server_handleQuery extractIP unicode_lower s now dispatch pooled query = Panic
  | _ => Server_handleQuery extractIP unicode_lower s now dispatch pooled query = Ok None
  end.
Proof.
  destruct (parseQuestion query) as [[name qtype]|e|] eqn:Hp; unfold Server_handleQuery; rewrite Hp.
  - destruct (length query <? 12)%nat eqn:E; bool_to_prop.
    { unfold parseQuestion in Hp. destruct (length query <? 16)%nat eqn:E'; [done|]. bool_to_prop. lia. }
    rewrite buildNXDOMAIN_panics. destruct (resource_of _ _ _); [|done].
    destruct (if _ && _ then _ else _) as [[|c cs]| |]; [done| |done|done]. by rewrite buildDNSResponse_panics.
  - by destruct (length query <? 12)%nat.
  - by pose proof (parseQuestion_no_panic query).
Qed.

Lemma step_cases a ev :
  let '(r, a') := adapter_step a ev in
  ad_sent a' = ad_sent a ∧ ((r = Panic ∧ is_query ev) ∨ (r = Ok tt ∧ ¬ is_query ev)).
Proof.
  destruct ev as [now cp|now client query pooled ask cp]; cbn [adapter_step]; [split; [done|]; right; split; [done|by intros []]|].
  destruct (resolveRegion _ _ _) as [region geo]. pose proof (handle_query_cases (ad_server a) now
    (λ key, dispatchResolve cp (dispatch_post (ad_cfg a) (query_request client region (of_chars key)))) pooled (take 512 query)) as Hq.
  destruct (dispatched_key _ _ _) as [key|]; destruct (parseQuestion (take 512 query)) as [q|e|] eqn:Hp; rewrite Hq; (split; [done|]).
  all: cbn [is_query]; rewrite Hp; first [left; split; [done|by eexists]|right; split; [done|by intros [? ?]]].
Qed.

(** The adapter answers nobody: whatever datagrams it gets and whatever the
    dispatch API and the region service say, it sends no answer at all; it lives on exactly
    if none of the datagrams is a query, and the first that is one ends it. *)
Theorem adapter_never_answers cfg evs :
  let '(r, a) := adapter_run evs (NewAdapter cfg) in
  ad_sent a = [] ∧ (r = Panic ↔ ∃ ev, ev ∈ evs ∧ is_query ev) ∧ (r = Ok tt ↔ ∀ ev, ev ∈ evs → ¬ is_query ev).
Proof.
  assert (Hrun : ∀ a, let '(r, a') := adapter_run evs a in
    ad_sent a' = ad_sent a ∧ ((r = Panic ∧ ∃ ev, ev ∈ evs ∧ is_query ev) ∨ (r = Ok tt ∧ ∀ ev, ev ∈ evs → ¬ is_query ev))).
  { induction evs as [|ev evs IH]; intros a; cbn [adapter_run]; [split; [done|]; right; split; [done|]; by intros ev Hev%elem_of_nil|].
    pose proof (step_cases a ev) as Hs. destruct (adapter_step a ev) as [r a1]. destruct Hs as [Hsent [[-> Hq]|[-> Hq]]].
    - split; [done|]. left. split; [done|]. exists ev. split; [by left|done].
    - specialize (IH a1). destruct (adapter_run evs a1) as [r a2]. rewrite Hsent in IH. destruct IH as [IH1 [[IH2 (e & He & Hqe)]|[IH2 IH3]]].
      + split; [done|]. left. split; [done|]. exists e. split; [by right|done].
      + split; [done|]. right. split; [done|]. intros e He. apply elem_of_cons in He as [->|He]; [done|by apply IH3]. }
  specialize (Hrun (NewAdapter cfg)). destruct (adapter_run evs (NewAdapter cfg)) as [r a].
  destruct Hrun as [H1 [[-> (ev & Hin & Hq)]|[-> H3]]]; split_and!; try done; split; try done.
  - intros _. by exists ev.
  - intros H. by destruct (H ev Hin).
  - intros (e & Hin & Hq). by destruct (H3 e Hin).
Qed.

(** The service answers with the requested fields only: the address asks for the region. *)
Definition only_requested (ev : dnsEvent) : Prop :=
  match ev with DnQuery _ _ _ _ ask _ => ∀ ip gr, ask ip = Some gr → gr_Status gr = "" | DnRefresh _ _ => True end.

Lemma resolve_nothing ask ip :
  (∀ ip gr, ask ip = Some gr → gr_Status gr = "") → resolveRegion ask ∅ ip = ("", ∅).
Proof.
  intros Hask. unfold resolveRegion. destruct (_ || _); [done|]. rewrite lookup_empty. destruct (ask ip) as [gr|] eqn:E; [|done].
  by rewrite (Hask _ _ E).
Qed.

Lemma step_regions a ev :
  only_requested ev → ad_geoCache a = ∅ → Forall (λ p, cl_Region (dr_Client (po_Body p)) = "") (ad_posts a) →
  let a' := (adapter_step a ev).2 in
  ad_geoCache a' = ∅ ∧ Forall (λ p, cl_Region (dr_Client (po_Body p)) = "") (ad_posts a').
Proof.
  intros Hev Hg Hp. destruct ev as [now cp|now client query pooled ask cp]; cbn [adapter_step].
  - split; [done|]. by constructor.
  - rewrite Hg, (resolve_nothing _ _ Hev).
    destruct (dispatched_key _ _ _) as [key|]; destruct (Server_handleQuery _ _ _ _ _ _ _) as [[resp|]|e|];
      (split; [done|]); try done; by constructor.
Qed.

(** The regions of clients stay unknown: the adapter asks for the field "region"
    and believes an answer only if its field "status" says success; of a service that answers
    with the requested fields it believes nothing, keeps nothing, and every dispatch request
    it ever sends has an empty region. *)
Theorem regions_stay_unknown cfg evs :
  Forall only_requested evs →
  let a := (adapter_run evs (NewAdapter cfg)).2 in
  ad_geoCache a = ∅ ∧ Forall (λ p, cl_Region (dr_Client (po_Body p)) = "") (ad_posts a).
Proof.
  intros Hevs. assert (H : ∀ a, ad_geoCache a = ∅ → Forall (λ p, cl_Region (dr_Client (po_Body p)) = "") (ad_posts a) →
    let a' := (adapter_run evs a).2 in ad_geoCache a' = ∅ ∧ Forall (λ p, cl_Region (dr_Client (po_Body p)) = "") (ad_posts a')).
  { induction Hevs as [|ev evs Hev _ IH]; intros a Hg Hp; cbn [adapter_run]; [done|].
    destruct (step_regions a ev Hev Hg Hp) as [H1 H2]. destruct (adapter_step a ev) as [[u|e|] a1]; [by apply IH..|done]. }
  by apply H.
Qed.
End adapter.

(** ** A concrete run: a refresh, and the query that ends the process. *)
Definition demo_dns_cfg : DNSAdapterConfig := mkDNSAdapterConfig ":5353" "http://cp" "example" 30 10 "s" (float_of_Z 25).
Definition demo_dns_events : list dnsEvent :=
  [DnRefresh 1 (λ _, DaCandidates []);
   DnQuery 2 "192.0.2.7" demo_query [] (λ _, Some (mkGeoipResponse "BE" "")) (λ _, DaCandidates [])].

Lemma regions_stay_unknown_witness :
  cl_Region ∘ dr_Client ∘ po_Body <$> ad_posts (adapter_run (λ _, None) (λ l, l) demo_dns_events (NewAdapter demo_dns_cfg)).2 = [""; ""].
Proof.
  destruct (regions_stay_unknown (λ _, None) (λ l, l) demo_dns_cfg demo_dns_events) as [_ H].
  - constructor; [done|]. constructor; [|done]. by intros ip gr [= <-].
  - set (posts := ad_posts _) in *. assert (Hl : length posts = 2%nat) by (vm_compute; reflexivity). clearbody posts.
    destruct posts as [|p [|q [|? ?]]]; try discriminate Hl. apply Forall_cons in H as [H1 H]. apply Forall_cons in H as [H2 _].
    cbn. by rewrite H1, H2.
Defined.
