(* ===== verification/StressStats.v ===== *)
(** * The figures of the load generator ([stats] in [cmd/stress/main.go])

    Every worker records its requests in one [stats] without a lock: counters are added to
    atomically, the least and the greatest latency are replaced in compare-and-swap loops,
    the counts of status codes live in a concurrent map, every fiftieth latency is kept.
    [rec_step] interleaves any number of calls of [record] at their atomic operations; the
    requests of one worker follow each other, which is one of these interleavings.

    The theorems: the loops end, within a number of steps quadratic in the number of calls;
    when all calls have returned the counters are exact, and so are the greatest latency and,
    if no latency is zero, the least one; a percentile splits the samples as it says. *)

From stdpp Require Import gmap strings list sorting.
From S2P Require Import Prelude GoFloat GoStrings GoJson.

(** ** The figures and one call of [record] *)
Record recCall := mkRecCall { rc_status : Z; rc_latUs : Z; rc_bytes : Z }.

Record stats := mkStats {
  totalReqs : Z; successReqs : Z; failedReqs : Z; totalBytes : Z; totalLatencyUs : Z;
  minLatency : Z; maxLatency : Z;
  statusCodes : gmap string Z;
  latencySamples : list Z
}.
Definition new_stats : stats := mkStats 0 0 0 0 0 0 0 ∅ [].

Definition status_key (status : Z) : string := of_chars (format_int 10 status).
Definition succeeded (c : recCall) : bool := (200 <=? rc_status c) && (rc_status c <? 400).

(** Before the atomic operation of that name; [PhMinCas m] has loaded [m]. *)
Inductive recPhase :=
| PhTotal | PhClass | PhBytes | PhLatency | PhMin | PhMinCas (min : Z) | PhMax | PhMaxCas (max : Z)
| PhCode | PhCount | PhSample | PhAppend | PhDone.
#[export] Instance recPhase_eq_dec : EqDecision recPhase.
Proof. solve_decision. Defined.

Definition set_counts (s : stats) (t o f b l : Z) : stats :=
  mkStats t o f b l (minLatency s) (maxLatency s) (statusCodes s) (latencySamples s).
Definition set_min (s : stats) (m : Z) : stats :=
  mkStats (totalReqs s) (successReqs s) (failedReqs s) (totalBytes s) (totalLatencyUs s) m (maxLatency s)
    (statusCodes s) (latencySamples s).
Definition set_max (s : stats) (m : Z) : stats :=
  mkStats (totalReqs s) (successReqs s) (failedReqs s) (totalBytes s) (totalLatencyUs s) (minLatency s) m
    (statusCodes s) (latencySamples s).
Definition set_codes (s : stats) (codes : gmap string Z) (samples : list Z) : stats :=
  mkStats (totalReqs s) (successReqs s) (failedReqs s) (totalBytes s) (totalLatencyUs s) (minLatency s)
    (maxLatency s) codes samples.

Definition record_turn (c : recCall) (ph : recPhase) (s : stats) : recPhase * stats :=
  let lat := rc_latUs c in
  let '(mkStats t o f b l mn mx codes samples) := s in
  match ph with
  | PhTotal => (PhClass, set_counts s (i64 (t + 1)) o f b l)
  | PhClass => (PhBytes, if succeeded c then set_counts s t (i64 (o + 1)) f b l else set_counts s t o (i64 (f + 1)) b l)
  | PhBytes => (PhLatency, set_counts s t o f (i64 (b + rc_bytes c)) l)
  | PhLatency => (PhMin, set_counts s t o f b (i64 (l + lat)))
  | PhMin => (if (mn =? 0) || (lat <? mn) then PhMinCas mn else PhMax, s)
  | PhMinCas m => if mn =? m then (PhMax, set_min s lat) else (PhMin, s)
  | PhMax => (if mx <? lat then PhMaxCas mx else PhCode, s)
  | PhMaxCas m => if mx =? m then (PhCode, set_max s lat) else (PhMax, s)
  | PhCode =>
      (PhCount, match codes !! status_key (rc_status c) with
                | Some _ => s | None => set_codes s (<[status_key (rc_status c) := 0]> codes) samples end)
  | PhCount => (PhSample, set_codes s (alter (λ n, i64 (n + 1)) (status_key (rc_status c)) codes) samples)
  | PhSample => (if Z.rem t 50 =? 0 then PhAppend else PhDone, s)
  | PhAppend => (PhDone, set_codes s codes (samples ++ [lat]))
  | PhDone => (PhDone, s)
  end.

(** ** Interleaved calls *)
Abbreviation recSystem := (stats * list (recCall * recPhase))%type.
Definition start_record (calls : list recCall) : recSystem := (new_stats, (λ c, (c, PhTotal)) <$> calls).

Inductive rec_step : recSystem → recSystem → Prop :=
| rec_turn s g i c ph ph' s' :
    g !! i = Some (c, ph) → ph ≠ PhDone → record_turn c ph s = (ph', s') →
    rec_step (s, g) (s', <[i := (c, ph')]> g).

Definition all_done (g : list (recCall * recPhase)) : Prop := Forall (λ x, x.2 = PhDone) g.

(** ** Sums over the calls *)
Definition tally (f : recCall * recPhase → Z) (g : list (recCall * recPhase)) : Z := foldr (λ x, Z.add (f x)) 0 g.

Lemma tally_insert f g i x y : g !! i = Some x → tally f (<[i := y]> g) = tally f g - f x + f y.
Proof.
  revert i. induction g as [|z g IH]; intros [|i] Hi; cbn in Hi; [done|done| |].
  - injection Hi as ->. change (f y + tally f g = f x + tally f g - f x + f y). lia.
  - change (f z + tally f (<[i:=y]> g) = f z + tally f g - f x + f y). rewrite (IH i Hi). lia.
Qed.

Lemma tally_le f f' d g : (∀ x, x ∈ g → f' x ≤ f x + d) → tally f' g ≤ tally f g + d * Z.of_nat (length g).
Proof.
  induction g as [|x g IH]; intros H; [cbn; lia|]. cbn [tally foldr length]. fold (tally f g) (tally f' g).
  pose proof (H x ltac:(by left)). specialize (IH ltac:(intros; apply H; by right)). lia.
Qed.

Lemma tally_zero g : tally (λ _, 0) g = 0.
Proof. by induction g. Qed.

Lemma tally_nonneg f g : (∀ x, 0 ≤ f x) → 0 ≤ tally f g.
Proof. intros H. induction g as [|x g IH]; cbn; [done|]. fold (tally f g). specialize (H x). lia. Qed.

Lemma tally_ext_in f f' g : (∀ x, x ∈ g → f x = f' x) → tally f g = tally f' g.
Proof.
  induction g as [|x g IH]; intros H; [done|]. cbn. fold (tally f g) (tally f' g).
  rewrite (H x) by by left. rewrite IH; [done|]. intros. apply H. by right.
Qed.

(** ** The loops end *)
Definition ph_rank (ph : recPhase) : Z :=
  match ph with
  | PhTotal => 10 | PhClass => 9 | PhBytes => 8 | PhLatency => 7 | PhMin | PhMinCas _ => 6 | PhMax | PhMaxCas _ => 5
  | PhCode => 4 | PhCount => 3 | PhSample => 2 | PhAppend => 1 | PhDone => 0
  end.
(** A loaded value that is still current is one step from success; each success may spoil
    the loaded values of all calls. *)
Definition ph_weight (n : Z) (s : stats) (x : recCall * recPhase) : Z :=
  2 * ph_rank x.2 + (if 6 <=? ph_rank x.2 then 2 * n else 0) + (if 5 <=? ph_rank x.2 then 2 * n else 0) +
  match x.2 with
  | PhMinCas m => if m =? minLatency s then -1 else 1
  | PhMaxCas m => if m =? maxLatency s then -1 else 1
  | _ => 0
  end.
Definition sys_weight (p : recSystem) : Z := tally (ph_weight (Z.of_nat (length p.2)) p.1) p.2.

Lemma ph_weight_nonneg n s x : 0 ≤ n → 0 ≤ ph_weight n s x.
Proof. intros Hn. unfold ph_weight. destruct x as [c []]; cbn; repeat case_match; lia. Qed.

Lemma ph_weight_other n s s' x :
  ph_weight n s' x ≤ ph_weight n s x +
    (if (minLatency s' =? minLatency s) && (maxLatency s' =? maxLatency s) then 0 else 2).
Proof.
  destruct (Z.eqb_spec (minLatency s') (minLatency s)) as [H1|], (Z.eqb_spec (maxLatency s') (maxLatency s)) as [H2|];
    cbn [andb]; unfold ph_weight; rewrite ?H1, ?H2; destruct x as [c []]; cbn; repeat case_match; lia.
Qed.

(** The step of the call itself: it pays for the values it spoils. *)
Lemma ph_weight_turn n s c ph ph' s' :
  0 ≤ n → ph ≠ PhDone → record_turn c ph s = (ph', s') →
  ph_weight n s' (c, ph') + (if (minLatency s' =? minLatency s) && (maxLatency s' =? maxLatency s) then 0 else 2 * n)
    < ph_weight n s (c, ph) ∧
  ph_weight n s (c, ph) ≤ ph_weight n s' (c, ph).
Proof.
  intros Hn Hd Ht. assert (ph' = (record_turn c ph s).1 ∧ s' = (record_turn c ph s).2) as [-> ->] by by rewrite Ht.
  clear Ht. destruct s as [t o f b l mn mx codes samples].
  destruct ph; try done; unfold ph_weight; cbn; repeat case_match; cbn in *; rewrite ?Z.eqb_refl in *; try done; split; lia.
Qed.

Lemma rec_step_weight p q : rec_step p q → length q.2 = length p.2 ∧ sys_weight q < sys_weight p.
Proof.
  destruct 1 as [s g i c ph ph' s' Hi Hd Ht]. unfold sys_weight. cbn [fst snd]. rewrite length_insert. split; [done|].
  destruct (ph_weight_turn (Z.of_nat (length g)) s c ph ph' s' ltac:(lia) Hd Ht) as [H1 H2].
  rewrite (tally_insert _ _ _ _ _ Hi). set (n := Z.of_nat (length g)) in *.
  pose proof (tally_le (ph_weight n s) (ph_weight n s') _ g (λ x _, ph_weight_other n s s' x)) as H3. fold n in H3.
  destruct ((minLatency s' =? minLatency s) && (maxLatency s' =? maxLatency s)); lia.
Qed.

(** ** Exact figures *)
(** The calls that have carried out the operation before rank [k]. *)
Definition reached (k : Z) (g : list (recCall * recPhase)) : list recCall :=
  (filter (λ x, ph_rank x.2 < k) g).*1.
Definition sum_reached (k : Z) (v : recCall → Z) (g : list (recCall * recPhase)) : Z :=
  tally (λ x, if ph_rank x.2 <? k then v x.1 else 0) g.

Lemma elem_of_reached k g c : c ∈ reached k g ↔ ∃ ph, (c, ph) ∈ g ∧ ph_rank ph < k.
Proof.
  unfold reached. rewrite list_elem_of_fmap. split.
  - intros ([c' ph] & -> & [Hr Hin]%list_elem_of_filter). by exists ph.
  - intros (ph & Hin & Hr). exists (c, ph). split; [done|]. by apply list_elem_of_filter.
Qed.

Lemma record_turn_rank c ph s : ph_rank (record_turn c ph s).1 ≤ ph_rank ph.
Proof. destruct s, ph; cbn; repeat case_match; cbn; lia. Qed.

Lemma reached_turn k g i c ph ph' :
  g !! i = Some (c, ph) → ph_rank ph' ≤ ph_rank ph →
  ∀ c0, c0 ∈ reached k (<[i := (c, ph')]> g) ↔ c0 ∈ reached k g ∨ c0 = c ∧ ph_rank ph' < k.
Proof.
  intros Hi Hle c0. rewrite !elem_of_reached. split.
  - intros (p & Hin & Hr). apply list_elem_of_lookup in Hin as [n Hn].
    apply list_lookup_insert_Some in Hn as [(-> & [= <- <-] & _)|[_ Hn]]; [by right|].
    left. exists p. split; [by eapply list_elem_of_lookup_2|done].
  - intros [(p & Hin & Hr)|[-> Hr]].
    + apply list_elem_of_lookup in Hin as [n Hn]. destruct (decide (i = n)) as [<-|Hne].
      * exists ph'. assert ((c0, p) = (c, ph)) as [= -> ->] by congruence. split; [|lia].
        eapply list_elem_of_lookup_2. apply list_lookup_insert_eq. by eapply lookup_lt_Some.
      * exists p. split; [|done]. eapply list_elem_of_lookup_2. by rewrite list_lookup_insert_ne.
    + exists ph'. split; [|done]. eapply list_elem_of_lookup_2. apply list_lookup_insert_eq. by eapply lookup_lt_Some.
Qed.

Lemma sum_turn k v g i c ph ph' :
  g !! i = Some (c, ph) →
  sum_reached k v (<[i := (c, ph')]> g) =
    sum_reached k v g - (if ph_rank ph <? k then v c else 0) + (if ph_rank ph' <? k then v c else 0).
Proof. intros Hi. unfold sum_reached. by rewrite (tally_insert _ _ _ _ _ Hi). Qed.

(** *** The counters *)
Record counts_inv (s : stats) (g : list (recCall * recPhase)) : Prop := {
  ci_total : totalReqs s = i64 (sum_reached 10 (λ _, 1) g);
  ci_success : successReqs s = i64 (sum_reached 9 (λ c, if succeeded c then 1 else 0) g);
  ci_failed : failedReqs s = i64 (sum_reached 9 (λ c, if succeeded c then 0 else 1) g);
  ci_bytes : totalBytes s = i64 (sum_reached 8 rc_bytes g);
  ci_latency : totalLatencyUs s = i64 (sum_reached 7 rc_latUs g)
}.

Lemma counts_turn s g i c ph :
  g !! i = Some (c, ph) → counts_inv s g →
  counts_inv (record_turn c ph s).2 (<[i := (c, (record_turn c ph s).1)]> g).
Proof.
  intros Hi [H1 H2 H3 H4 H5]. destruct s as [t o f b l mn mx codes samples]. cbn in H1, H2, H3, H4, H5.
  split; rewrite (sum_turn _ _ _ _ _ _ _ Hi), ?H1, ?H2, ?H3, ?H4, ?H5; clear H1 H2 H3 H4 H5;
    destruct ph; cbn; repeat case_match; cbn in *; try done; rewrite ?i64_add_l; (f_equal; lia).
Qed.

(** *** The least and the greatest latency *)
(** A loaded value is never greater news than the current one. *)
Definition phase_ok (x : recCall * recPhase) : Prop :=
  match x.2 with
  | PhMinCas m => m = 0 ∨ rc_latUs x.1 < m
  | PhMaxCas m => m < rc_latUs x.1
  | _ => True
  end.
Definition min_inv (s : stats) (g : list (recCall * recPhase)) : Prop :=
  minLatency s = 0 ∧ reached 6 g = [] ∨
  0 < minLatency s ∧ (∀ c, c ∈ reached 6 g → minLatency s ≤ rc_latUs c) ∧
  ∃ c, c ∈ reached 6 g ∧ rc_latUs c = minLatency s.
Definition max_inv (s : stats) (g : list (recCall * recPhase)) : Prop :=
  (∀ c, c ∈ reached 5 g → rc_latUs c ≤ maxLatency s) ∧
  (maxLatency s = 0 ∨ ∃ c, c ∈ reached 5 g ∧ rc_latUs c = maxLatency s).

Lemma phase_turn c ph s : phase_ok (c, ph) → phase_ok (c, (record_turn c ph s).1).
Proof.
  destruct s as [t o f b l mn mx codes samples]. destruct ph; unfold phase_ok; cbn; intros Hok; try done.
  - destruct (Z.ltb_spec (rc_latUs c) mn), (Z.eqb_spec mn 0); cbn; try done; (by left) || (by right).
  - by destruct (mn =? min).
  - by destruct (Z.ltb_spec mx (rc_latUs c)).
  - by destruct (mx =? max).
  - by destruct (Z.rem t 50 =? 0).
Qed.

(** A turn that neither reaches the next group of operations nor changes the value. *)
Lemma reached_same k g i c ph ph' :
  g !! i = Some (c, ph) → ph_rank ph' ≤ ph_rank ph → (k ≤ ph_rank ph' ∨ ph_rank ph < k) →
  ∀ c0, c0 ∈ reached k (<[i := (c, ph')]> g) ↔ c0 ∈ reached k g.
Proof.
  intros Hi Hle Hk c0. rewrite (reached_turn k g i c ph ph' Hi Hle). split; [|by left]. intros [|[-> Hr]]; [done|].
  apply elem_of_reached. exists ph. split; [by eapply list_elem_of_lookup_2|lia].
Qed.

Lemma reached_nil k g : reached k g = [] ↔ ∀ c, c ∉ reached k g.
Proof. split; [intros ->; set_solver|]. intros H. destruct (reached k g) as [|c l]; [done|]. by destruct (H c (list_elem_of_here _ _)). Qed.

Lemma min_inv_ext s s' g g' :
  minLatency s' = minLatency s → (∀ c, c ∈ reached 6 g' ↔ c ∈ reached 6 g) → min_inv s g → min_inv s' g'.
Proof.
  unfold min_inv. rewrite !reached_nil. intros -> He [[H1 H2]|(H1 & H2 & c & H3 & H4)].
  - left. split; [done|]. intros c. by rewrite He.
  - right. split; [done|]. split; [intros c0; rewrite He; apply H2|]. exists c. by rewrite He.
Qed.

Lemma max_inv_ext s s' g g' :
  maxLatency s' = maxLatency s → (∀ c, c ∈ reached 5 g' ↔ c ∈ reached 5 g) → max_inv s g → max_inv s' g'.
Proof.
  unfold max_inv. intros -> He [H1 H2]. split; [intros c; rewrite He; apply H1|].
  destruct H2 as [|(c & H3 & H4)]; [by left|]. right. exists c. by rewrite He.
Qed.

Lemma min_turn s g i c ph :
  g !! i = Some (c, ph) → 0 < rc_latUs c → phase_ok (c, ph) → min_inv s g →
  min_inv (record_turn c ph s).2 (<[i := (c, (record_turn c ph s).1)]> g).
Proof.
  intros Hi Hpos Hok Hm. pose proof (record_turn_rank c ph s) as Hr.
  pose proof (reached_turn 6 g i c ph _ Hi Hr) as Hin. destruct s as [t o f b l mn mx codes samples].
  assert (Hsame : minLatency (record_turn c ph (mkStats t o f b l mn mx codes samples)).2 = mn →
    (6 ≤ ph_rank (record_turn c ph (mkStats t o f b l mn mx codes samples)).1 ∨ ph_rank ph < 6) →
    min_inv (record_turn c ph (mkStats t o f b l mn mx codes samples)).2
      (<[i := (c, (record_turn c ph (mkStats t o f b l mn mx codes samples)).1)]> g)).
  { intros H1 H2. apply (min_inv_ext (mkStats t o f b l mn mx codes samples) _ g); [exact H1|by apply (reached_same 6 g i c ph)|done]. }
  destruct ph; try (apply Hsame; cbn; repeat case_match; cbn; (done || lia)); clear Hsame.
  - cbn in *. destruct ((mn =? 0) || (rc_latUs c <? mn)) eqn:Hc.
    + apply (min_inv_ext (mkStats t o f b l mn mx codes samples) _ g); [done|by apply (reached_same 6 g i c PhMin); [done|cbn; lia|cbn; lia]|done].
    + destruct Hm as [[H1 _]|(H1 & H2 & c1 & H3 & H4)]; cbn in *; [lia|]. right. cbn. split; [done|]. split.
      * intros c0 [?|[-> _]]%Hin; [by apply H2|lia].
      * exists c1. split; [apply Hin; by left|done].
  - cbn in *. destruct (Z.eqb_spec mn min) as [->|Hne].
    + right. cbn. split; [done|]. split; [|exists c; split; [apply Hin; right; split; [done|cbn; lia]|done]].
      intros c0 [H0|[-> _]]%Hin; [|lia]. destruct Hm as [[_ Hn]|(H1 & H2 & _)]; [rewrite reached_nil in Hn; by destruct (Hn c0)|].
      specialize (H2 _ H0). cbn in *. lia.
    + apply (min_inv_ext (mkStats t o f b l mn mx codes samples) _ g); [done|by apply (reached_same 6 g i c (PhMinCas min)); [done|cbn; lia|cbn; lia]|done].
Qed.

Lemma max_turn s g i c ph :
  g !! i = Some (c, ph) → phase_ok (c, ph) → max_inv s g →
  max_inv (record_turn c ph s).2 (<[i := (c, (record_turn c ph s).1)]> g).
Proof.
  intros Hi Hok Hm. pose proof (record_turn_rank c ph s) as Hr.
  pose proof (reached_turn 5 g i c ph _ Hi Hr) as Hin. destruct s as [t o f b l mn mx codes samples].
  assert (Hsame : maxLatency (record_turn c ph (mkStats t o f b l mn mx codes samples)).2 = mx →
    (5 ≤ ph_rank (record_turn c ph (mkStats t o f b l mn mx codes samples)).1 ∨ ph_rank ph < 5) →
    max_inv (record_turn c ph (mkStats t o f b l mn mx codes samples)).2
      (<[i := (c, (record_turn c ph (mkStats t o f b l mn mx codes samples)).1)]> g)).
  { intros H1 H2. apply (max_inv_ext (mkStats t o f b l mn mx codes samples) _ g); [exact H1|by apply (reached_same 5 g i c ph)|done]. }
  destruct ph; try (apply Hsame; cbn; repeat case_match; cbn; (done || lia)); clear Hsame.
  - cbn in *. destruct (Z.ltb_spec mx (rc_latUs c)) as [Hc|Hc].
    + apply (max_inv_ext (mkStats t o f b l mn mx codes samples) _ g); [done|by apply (reached_same 5 g i c PhMax); [done|cbn; lia|cbn; lia]|done].
    + destruct Hm as [H1 H2]. split; cbn in *.
      * intros c0 [?|[-> _]]%Hin; [by apply H1|lia].
      * destruct H2 as [|(c1 & H3 & H4)]; [by left|]. right. exists c1. split; [apply Hin; by left|done].
  - cbn in *. destruct (Z.eqb_spec mx max) as [->|Hne].
    + unfold phase_ok in Hok. cbn in Hok. destruct Hm as [H1 _]. cbn in H1. split; cbn.
      * intros c0 [H0|[-> _]]%Hin; [|lia]. specialize (H1 _ H0). lia.
      * right. exists c. split; [apply Hin; right; split; [done|cbn; lia]|done].
    + apply (max_inv_ext (mkStats t o f b l mn mx codes samples) _ g); [done|by apply (reached_same 5 g i c (PhMaxCas max)); [done|cbn; lia|cbn; lia]|done].
Qed.

(** *** The counts of status codes and the samples *)
Definition same_code (key : string) (c : recCall) : Z := if decide (status_key (rc_status c) = key) then 1 else 0.

Definition codes_inv (s : stats) (g : list (recCall * recPhase)) : Prop :=
  ∀ key, (is_Some (statusCodes s !! key) ↔ ∃ c, c ∈ reached 4 g ∧ status_key (rc_status c) = key) ∧
         default 0 (statusCodes s !! key) = i64 (sum_reached 3 (same_code key) g).

Lemma codes_turn s g i c ph :
  g !! i = Some (c, ph) → codes_inv s g →
  codes_inv (record_turn c ph s).2 (<[i := (c, (record_turn c ph s).1)]> g).
Proof.
  intros Hi Hinv key. pose proof (record_turn_rank c ph s) as Hr. destruct (Hinv key) as [Hdom Hval].
  rewrite (sum_turn _ _ _ _ _ _ _ Hi). pose proof (reached_turn 4 g i c ph _ Hi Hr) as Hin. clear Hr.
  setoid_rewrite Hin. destruct s as [t o f b l mn mx codes samples]. cbn in Hdom, Hval.
  assert (Hold : ∀ r, (4 ≤ r ∨ ph_rank ph < 4) →
    (is_Some (codes !! key) ↔ ∃ c0, (c0 ∈ reached 4 g ∨ c0 = c ∧ r < 4) ∧ status_key (rc_status c0) = key)).
  { intros r Hk. rewrite Hdom. split; [intros (c0 & H0 & H1); exists c0; tauto|].
    intros (c0 & [H0|[-> H0]] & H1); [by exists c0|]. exists c. split; [|done].
    apply elem_of_reached. exists ph. split; [by eapply list_elem_of_lookup_2|lia]. }
  destruct ph; cbn -[status_key].
  9: { (* LoadOrStore *)
    destruct (codes !! status_key (rc_status c)) as [n|] eqn:Hc; cbn -[status_key].
    - split; [|rewrite Hval; f_equal; lia]. rewrite Hdom. split; [intros (c0 & ? & ?); exists c0; tauto|].
      intros (c0 & [?|[-> _]] & <-); [by exists c0|]. apply Hdom. by rewrite Hc.
    - destruct (decide (status_key (rc_status c) = key)) as [<-|Hne].
      + rewrite lookup_insert_eq. split; [split; [intros _; exists c; split; [right; split; [done|lia]|done]|done]|]. rewrite Hc in Hval. cbn in Hval |- *.
        rewrite Hval. f_equal. lia.
      + rewrite lookup_insert_ne by done. split; [|rewrite Hval; f_equal; lia]. rewrite Hdom.
        split; [intros (c0 & ? & ?); exists c0; tauto|]. intros (c0 & [?|[-> _]] & ?); [by exists c0|done]. }
  9: { (* Add *)
    assert (Hex : is_Some (codes !! status_key (rc_status c))).
    { apply (proj1 (Hinv _)). exists c. split; [|done]. apply elem_of_reached. exists PhCount. split; [by eapply list_elem_of_lookup_2|cbn; lia]. }
    unfold same_code. destruct (decide (status_key (rc_status c) = key)) as [<-|Hne].
    - rewrite lookup_alter_eq. destruct Hex as [n Hn]. rewrite Hn in *. cbn in Hval |- *. split.
      + rewrite <- (Hold 2) by (cbn; lia). done.
      + rewrite Hval, i64_add_l. f_equal. unfold same_code. lia.
    - rewrite lookup_alter_ne by done. split; [apply (Hold 2); cbn; lia|]. rewrite Hval. f_equal. unfold same_code. lia. }
  all: repeat case_match; cbn -[status_key] in *; try done;
    (split; [apply Hold; cbn; lia|rewrite Hval; f_equal; lia]).
Qed.

Definition samples_inv (s : stats) (g : list (recCall * recPhase)) : Prop :=
  (∀ v, v ∈ latencySamples s → ∃ c, c ∈ reached 1 g ∧ rc_latUs c = v) ∧
  Z.of_nat (length (latencySamples s)) ≤ sum_reached 1 (λ _, 1) g.

Lemma samples_turn s g i c ph :
  g !! i = Some (c, ph) → samples_inv s g →
  samples_inv (record_turn c ph s).2 (<[i := (c, (record_turn c ph s).1)]> g).
Proof.
  intros Hi [H1 H2]. pose proof (record_turn_rank c ph s) as Hr. unfold samples_inv.
  rewrite (sum_turn _ _ _ _ _ _ _ Hi). pose proof (reached_turn 1 g i c ph _ Hi Hr) as Hin.
  setoid_rewrite Hin. destruct s as [t o f b l mn mx codes samples]. cbn in H1, H2.
  assert (Hold : ∀ r v, v ∈ samples → ∃ c0, (c0 ∈ reached 1 g ∨ c0 = c ∧ r < 1) ∧ rc_latUs c0 = v).
  { intros r v Hv. destruct (H1 v Hv) as (c0 & ? & ?). exists c0. tauto. }
  destruct ph; cbn; repeat case_match; cbn in *; try done; try (split; [by apply Hold|lia]).
  - split; [|rewrite length_app; cbn; lia]. intros v [Hv|Hv]%elem_of_app; [by apply Hold|].
    apply list_elem_of_singleton in Hv as ->. exists c. split; [right; split; [done|lia]|done].
Qed.

(** *** All figures together *)
Record rec_inv (calls : list recCall) (p : recSystem) : Prop := {
  ri_calls : p.2.*1 = calls;
  ri_phases : Forall phase_ok p.2;
  ri_counts : counts_inv p.1 p.2;
  ri_codes : codes_inv p.1 p.2;
  ri_samples : samples_inv p.1 p.2;
  ri_max : max_inv p.1 p.2;
  ri_min : (∀ c, c ∈ calls → 0 < rc_latUs c) → min_inv p.1 p.2
}.

Lemma start_sum k v calls : k ≤ 10 → sum_reached k v ((λ c, (c, PhTotal)) <$> calls) = 0.
Proof.
  intros Hk. unfold sum_reached. induction calls as [|c calls IH]; [done|]. cbn. fold (tally (λ x, if ph_rank x.2 <? k then v x.1 else 0)).
  rewrite (proj2 (Z.ltb_ge 10 k)) by lia. unfold tally in IH. cbn in IH. rewrite IH. done.
Qed.

Lemma start_reached k calls : k ≤ 10 → reached k ((λ c, (c, PhTotal)) <$> calls) = [].
Proof.
  intros Hk. apply reached_nil. intros c (ph & Hin & Hr)%elem_of_reached.
  apply list_elem_of_fmap in Hin as (c' & [= -> ->] & _). cbn in Hr. lia.
Qed.

Lemma start_rec_inv calls : rec_inv calls (start_record calls).
Proof.
  split; cbn [start_record fst snd].
  - rewrite <- list_fmap_compose. by rewrite list_fmap_id.
  - apply Forall_fmap, Forall_true. done.
  - split; by rewrite start_sum.
  - intros key. rewrite start_sum, start_reached by lia. split; [|done]. cbn. rewrite lookup_empty.
    split; [by intros [? ?]|]. intros (c & Hc & _). set_solver.
  - split; [set_solver|]. by rewrite start_sum.
  - split; [rewrite start_reached by lia; set_solver|by left].
  - intros _. left. by rewrite start_reached.
Qed.

Lemma rec_step_inv calls p q : rec_inv calls p → rec_step p q → rec_inv calls q.
Proof.
  intros [H1 H2 H3 H4 H5 H6 H7] Hs. destruct Hs as [s g i c ph ph' s' Hi Hd Ht]. cbn [fst snd] in *.
  assert (ph' = (record_turn c ph s).1 ∧ s' = (record_turn c ph s).2) as [-> ->] by by rewrite Ht.
  assert (Hok : phase_ok (c, ph)) by (by eapply Forall_lookup_1).
  split; cbn [fst snd].
  - rewrite list_fmap_insert. cbn. rewrite H1. apply list_insert_id. by rewrite <- H1, list_lookup_fmap, Hi.
  - apply Forall_insert; [done|]. by apply phase_turn.
  - by apply counts_turn.
  - by apply codes_turn.
  - by apply samples_turn.
  - by apply max_turn.
  - intros Hpos. apply min_turn; [done| |done|by apply H7]. apply Hpos. rewrite <- H1.
    apply list_elem_of_fmap. exists (c, ph). split; [done|]. by eapply list_elem_of_lookup_2.
Qed.

Lemma rec_runs calls p : rtc rec_step (start_record calls) p → rec_inv calls p.
Proof. apply rtc_ind_r; [apply start_rec_inv|]. intros q r _ Hs Hi. by apply (rec_step_inv _ q). Qed.

Definition sum_calls (v : recCall → Z) (calls : list recCall) : Z := foldr (λ c, Z.add (v c)) 0 calls.

Lemma done_sum k v g : 1 ≤ k → all_done g → sum_reached k v g = sum_calls v g.*1.
Proof.
  intros Hk Hd. unfold sum_reached. induction Hd as [|[c ph] g Hph _ IH]; [done|]. cbn in Hph |- *. subst ph.
  rewrite (proj2 (Z.ltb_lt (ph_rank PhDone) k)) by (cbn; lia). unfold tally in IH. rewrite IH. done.
Qed.

Lemma done_reached k g c : 1 ≤ k → all_done g → c ∈ reached k g ↔ c ∈ g.*1.
Proof.
  intros Hk Hd. rewrite elem_of_reached, list_elem_of_fmap. split.
  - intros (ph & Hin & _). by exists (c, ph).
  - intros ([c' ph] & -> & Hin). exists ph. split; [done|].
    assert (ph = PhDone) as -> by exact (proj1 (Forall_forall _ _) Hd _ Hin). cbn. lia.
Qed.

(** However the calls of [record] interleave, once all of them have returned the
    figures are those of the requests: the counters and the counts of status codes are exact
    up to the wrap-around of 64 bits, a status is listed exactly if it occurred, the greatest
    latency is the greatest (or zero), the least one is the least if no latency was zero, and
    the samples are latencies of requests. *)
Theorem stress_figures calls p :
  rtc rec_step (start_record calls) p → all_done p.2 →
  let s := p.1 in
  (totalReqs s = i64 (Z.of_nat (length calls)) ∧
   successReqs s = i64 (sum_calls (λ c, if succeeded c then 1 else 0) calls) ∧
   failedReqs s = i64 (sum_calls (λ c, if succeeded c then 0 else 1) calls) ∧
   totalBytes s = i64 (sum_calls rc_bytes calls) ∧ totalLatencyUs s = i64 (sum_calls rc_latUs calls)) ∧
  (∀ key, (is_Some (statusCodes s !! key) ↔ ∃ c, c ∈ calls ∧ status_key (rc_status c) = key) ∧
     default 0 (statusCodes s !! key) = i64 (sum_calls (same_code key) calls)) ∧
  ((∀ c, c ∈ calls → rc_latUs c ≤ maxLatency s) ∧
   (maxLatency s = 0 ∨ ∃ c, c ∈ calls ∧ rc_latUs c = maxLatency s)) ∧
  ((∀ c, c ∈ calls → 0 < rc_latUs c) → calls ≠ [] →
   (∀ c, c ∈ calls → minLatency s ≤ rc_latUs c) ∧ ∃ c, c ∈ calls ∧ rc_latUs c = minLatency s) ∧
  (∀ v, v ∈ latencySamples s → ∃ c, c ∈ calls ∧ rc_latUs c = v).
Proof.
  intros Hrun Hd. apply rec_runs in Hrun as [<- _ [H1 H2 H3 H4 H5] H6 [H7 _] H8 H9]. cbv zeta.
  assert (Hc : ∀ k c, 1 ≤ k → c ∈ reached k p.2 ↔ c ∈ p.2.*1) by (intros; by apply done_reached).
  assert (Hlen : sum_calls (λ _, 1) p.2.*1 = Z.of_nat (length p.2.*1)).
  { generalize (p.2.*1). intros l. induction l as [|c l IH]; [done|]. cbn [sum_calls foldr length]. fold (sum_calls (λ _, 1) l). lia. }
  rewrite !done_sum in * by (done || lia). rewrite Hlen in H1. unfold max_inv in H8. setoid_rewrite Hc in H8; [|lia..].
  setoid_rewrite Hc in H7; [|lia]. split_and!; try done.
  - intros key. destruct (H6 key) as [H61 H62]. rewrite done_sum in H62 by (done || lia). setoid_rewrite Hc in H61; [|lia]. done.
  - apply H8.
  - apply H8.
  - intros Hpos Hne. unfold min_inv in H9. rewrite reached_nil in H9. setoid_rewrite Hc in H9; [|lia..].
    destruct (H9 Hpos) as [[_ Hn]|(_ & ? & ?)]; [|done]. exfalso.
    destruct (p.2.*1) as [|c l]; [done|]. by destruct (Hn c (list_elem_of_here _ _)).
Qed.

(** The compare-and-swap loops end: any interleaving of [n] calls of [record]
    is over after at most [20 n + 4 n²] atomic operations, and one is possible as long as a
    call has not returned. *)
Theorem stress_records_end calls k p :
  nsteps rec_step k (start_record calls) p →
  Z.of_nat k ≤ 20 * Z.of_nat (length calls) + 4 * Z.of_nat (length calls) * Z.of_nat (length calls) ∧
  (all_done p.2 ∨ ∃ q, rec_step p q).
Proof.
  intros Hk. split.
  - assert (Hw : ∀ q, nsteps rec_step k (start_record calls) q → length q.2 = length calls ∧
      sys_weight q + Z.of_nat k ≤ sys_weight (start_record calls)).
    { clear p Hk. induction k as [|k IH]; intros q Hq.
      - inversion Hq; subst. cbn [start_record snd]. rewrite length_fmap. split; [done|lia].
      - apply nsteps_inv_r in Hq as (r & Hr & Hs). apply IH in Hr as [Hl Hw].
        apply rec_step_weight in Hs as [Hl' Hw']. split; [by rewrite Hl'|lia]. }
    apply Hw in Hk as [_ Hk].
    assert (0 ≤ sys_weight p) by (apply tally_nonneg; intros; apply ph_weight_nonneg; lia).
    assert (Hstart : sys_weight (start_record calls) ≤
      0 + (20 + 4 * Z.of_nat (length calls)) * Z.of_nat (length calls)); [|lia].
    unfold sys_weight. cbn [start_record fst snd]. rewrite length_fmap.
    pose proof (tally_le (λ _, 0) (ph_weight (Z.of_nat (length calls)) new_stats) (20 + 4 * Z.of_nat (length calls))
      ((λ c, (c, PhTotal)) <$> calls)) as Ht. rewrite length_fmap in Ht.
    assert (Hz : tally (λ _, 0) ((λ c, (c, PhTotal)) <$> calls) = 0) by apply tally_zero.
    rewrite Hz in Ht. apply Ht. intros [c ph] (c' & [= -> ->] & _)%list_elem_of_fmap. unfold ph_weight. cbn. lia.
  - destruct p as [s g]. clear. induction g as [|[c ph] g [Hd|[q Hs]]] using rev_ind; cbn [snd] in *.
    + left. constructor.
    + destruct (decide (ph = PhDone)) as [->|Hne]; [left; by apply Forall_app; split; [|constructor]|].
      right. destruct (record_turn c ph s) as [ph' s'] eqn:Ht. eexists. apply (rec_turn s _ (length g) c ph ph' s'); [|done|done].
      rewrite lookup_app_r, Nat.sub_diag by lia. done.
    + right. inversion Hs as [? ? i c' ph0 ph' s' Hi Hd' Ht]; subst. eexists. eapply (rec_turn s _ i c' ph0); [|done|done].
      by apply lookup_app_l_Some.
Qed.

(** ** The percentiles ([print]) *)
(** [samples[len(samples)*p/100]] of the sorted samples; [None] is an index out of range. *)
Definition percentile (p : Z) (samples : list Z) : option Z :=
  merge_sort Z.le samples !! Z.to_nat (Z.of_nat (length samples) * p / 100).
Definition printed_percentiles (samples : list Z) : list (option Z) :=
  match samples with [] => [] | _ => [percentile 50 samples; percentile 95 samples; percentile 99 samples] end.

(** ** The report ([print]): the numbers, before they are rounded to text *)
Definition pct (v total : Z) : float64 :=
  if total =? 0 then fzero else fmul (fdiv (float_of_Z v) (float_of_Z total)) (float_of_Z 100).

(** [Duration.Seconds]: the whole seconds and the rest. *)
Definition seconds (dur : Z) : float64 :=
  fadd (float_of_Z (Z.quot dur 1000000000)) (fdiv (float_of_Z (Z.rem dur 1000000000)) (float_of_Z 1000000000)).

Record stressReport := mkStressReport {
  sp_total : Z; sp_qps : option float64;
  sp_success : Z * float64; sp_failed : Z * float64;
  sp_latencies : option (float64 * float64 * float64);     (* average, least, greatest, in ms *)
  sp_percentiles : list (option Z);                          (* in µs *)
  sp_totalMB : float64; sp_throughput : option float64;
  sp_codes : gmap string Z
}.

Definition stats_print (s : stats) (dur : Z) : stressReport :=
  let total := totalReqs s in
  let thousand := float_of_Z 1000 in
  let totalMB := fdiv (float_of_Z (totalBytes s)) (float_of_Z (1024 * 1024)) in
  mkStressReport total
    (if 0 <? total then Some (fdiv (float_of_Z total) (seconds dur)) else None)
    (successReqs s, pct (successReqs s) total) (failedReqs s, pct (failedReqs s) total)
    (if 0 <? total
     then Some (fdiv (fdiv (float_of_Z (totalLatencyUs s)) (float_of_Z total)) thousand,
                fdiv (float_of_Z (minLatency s)) thousand, fdiv (float_of_Z (maxLatency s)) thousand)
     else None)
    (printed_percentiles (latencySamples s))
    totalMB
    (if fltb fzero (seconds dur) then Some (fdiv totalMB (seconds dur)) else None)
    (statusCodes s).

(** A run without a request prints no average and no percentile, and zero per cent. *)
Lemma empty_report dur :
  let r := stats_print new_stats dur in
  sp_qps r = None ∧ sp_latencies r = None ∧ sp_percentiles r = [] ∧ sp_success r = (0, fzero) ∧ sp_failed r = (0, fzero).
Proof. done. Qed.

Lemma sorted_at_most (l : list Z) i (v : Z) :
  StronglySorted Z.le l → l !! i = Some v →
  (i < length (filter (λ x, x ≤ v)%Z l))%nat ∧ (length (filter (λ x, x < v)%Z l) ≤ i)%nat.
Proof.
  intros Hs. revert i. induction Hs as [|x l Hs IH Hall]; intros i Hi; [done|]. destruct i as [|i]; cbn in Hi.
  - injection Hi as ->. rewrite filter_cons_True by lia. split; [cbn; lia|]. rewrite filter_cons_False by lia.
    assert (filter (λ x, x < v) l = []) as ->; [|cbn; lia]. clear -Hall.
    induction Hall as [|y l Hy _ IH]; [done|]. rewrite filter_cons_False by lia. done.
  - destruct (IH i Hi) as [H1 H2]. assert (Hx : x ≤ v) by (eapply (Forall_lookup_1 _ _ _ _ Hall Hi)).
    rewrite filter_cons_True by done. split; [cbn; lia|]. rewrite filter_cons. case_decide; cbn; lia.
Qed.

(** The percentiles are defined whenever there is a sample, and the value for
    [p] is a sample below which lie at most [p] per cent of the samples, and more than that
    are at most as large. *)
Theorem percentile_splits p samples :
  0 ≤ p < 100 → samples ≠ [] →
  ∃ v, percentile p samples = Some v ∧ v ∈ samples ∧
    Z.of_nat (length (filter (λ x, x < v) samples)) * 100 ≤ Z.of_nat (length samples) * p ∧
    Z.of_nat (length samples) * p < Z.of_nat (length (filter (λ x, x ≤ v) samples)) * 100.
Proof.
  intros Hp Hne. unfold percentile. set (n := Z.of_nat (length samples)).
  assert (Hn : 0 < n) by (destruct samples; [done|]; subst n; cbn; lia).
  pose proof (Z.div_mod (n * p) 100 ltac:(lia)). pose proof (Z.mod_pos_bound (n * p) 100 ltac:(lia)).
  assert (Hi : 0 ≤ n * p / 100 < n) by (split; [apply Z.div_pos; nia|apply Z.div_lt_upper_bound; nia]).
  destruct (lookup_lt_is_Some_2 (merge_sort Z.le samples) (Z.to_nat (n * p / 100))) as [v Hv].
  { rewrite merge_sort_Permutation. lia. }
  exists v. split; [done|]. split; [rewrite <- (merge_sort_Permutation Z.le samples); by eapply list_elem_of_lookup_2|].
  assert (Hs : StronglySorted Z.le (merge_sort Z.le samples)) by (apply StronglySorted_merge_sort; apply _).
  destruct (sorted_at_most _ _ _ Hs Hv) as [H1 H2].
  rewrite (merge_sort_Permutation Z.le samples) in H1, H2. lia.
Qed.

(** ** Concrete runs *)
Fixpoint schedule (l : list nat) (p : recSystem) : recSystem :=
  match l with
  | [] => p
  | i :: l =>
      match p.2 !! i with
      | Some (c, ph) =>
          if decide (ph = PhDone) then schedule l p
          else let '(ph', s') := record_turn c ph p.1 in schedule l (s', <[i := (c, ph')]> p.2)
      | None => schedule l p
      end
  end.

Lemma schedule_runs l p : rtc rec_step p (schedule l p).
Proof.
  revert p. induction l as [|i l IH]; intros [s g]; cbn; [done|].
  destruct (g !! i) as [[c ph]|] eqn:Hi; [|apply IH]. case_decide as Hd; [apply IH|].
  destruct (record_turn c ph s) as [ph' s'] eqn:Ht. eapply rtc_l; [|apply IH]. by eapply rec_turn.
Qed.

(** The least latency starts at zero, which also stands for none: a request
    answered within a microsecond is forgotten as soon as a slower one follows. *)
Theorem zero_latency_forgotten :
  ∃ p, rtc rec_step (start_record [mkRecCall 200 0 1; mkRecCall 200 5 1]) p ∧ all_done p.2 ∧ minLatency p.1 = 5.
Proof.
  exists (schedule (replicate 13 0%nat ++ replicate 13 1%nat) (start_record [mkRecCall 200 0 1; mkRecCall 200 5 1])).
  split; [apply schedule_runs|]. split; [by apply (bool_decide_unpack _); vm_compute|vm_compute; reflexivity].
Qed.

Definition demo_calls : list recCall := [mkRecCall 200 7 10; mkRecCall 404 3 0; mkRecCall 200 9 5].
(** All three load the same value before the first of them replaces it. *)
Definition demo_schedule : list nat :=
  concat (replicate 5 [0; 1; 2])%nat ++ [2; 1; 0; 2; 1; 0]%nat ++ concat (replicate 14 [1; 0; 2])%nat.

Definition demo_end : recSystem := Eval vm_compute in schedule demo_schedule (start_record demo_calls).

Lemma demo_end_runs : rtc rec_step (start_record demo_calls) demo_end.
Proof.
  assert (Heq : schedule demo_schedule (start_record demo_calls) = demo_end) by (vm_compute; reflexivity).
  rewrite <- Heq. apply schedule_runs.
Qed.

Lemma demo_end_done : all_done demo_end.2.
Proof. by repeat constructor. Qed.

Lemma stress_figures_witness : totalReqs demo_end.1 = 3 ∧ minLatency demo_end.1 ≤ 3 ∧ 9 ≤ maxLatency demo_end.1.
Proof.
  destruct (stress_figures demo_calls demo_end demo_end_runs demo_end_done) as ([H1 _] & _ & [H2 _] & H3 & _).
  split; [exact H1|]. split.
  - assert (Hpos : ∀ c, c ∈ demo_calls → 0 < rc_latUs c).
    { intros c Hc. unfold demo_calls in Hc. rewrite !elem_of_cons in Hc. by destruct Hc as [->|[->|[->|?%elem_of_nil]]]. }
    destruct (H3 Hpos) as [H4 _]; [done|]. apply (H4 (mkRecCall 404 3 0)). by right; left.
  - apply (H2 (mkRecCall 200 9 5)). by right; right; left.
Defined.

Lemma stress_records_end_witness :
  ∃ k, nsteps rec_step k (start_record demo_calls) demo_end ∧ Z.of_nat k ≤ 96.
Proof.
  destruct (rtc_nsteps_1 _ _ demo_end_runs) as [k Hk].
  exists k. split; [exact Hk|]. destruct (stress_records_end demo_calls k _ Hk) as [H _]. exact H.
Defined.

Lemma percentile_splits_witness : ∃ v, percentile 95 [4; 1; 3] = Some v ∧ v ∈ [4; 1; 3].
Proof. destruct (percentile_splits 95 [4; 1; 3]) as (v & H1 & H2 & _); [lia|done|]. exists v. by split. Defined.
