(* ===== verification/Stress.v ===== *)
(** * The load generator ([cmd/stress/main.go])

    The modes with the requests each worker sends, the tokens it signs for an edge, the loop
    of a worker with what it records, and the delays of the ramp-up.  The figures are those
    of [StressStats].

    The theorems: a signed request is accepted by the edge whose secret was given, unless a
    bearer token is configured as well, which hides the signature; each worker asks for one
    object only, so that a run asks for no more objects than it has workers; the calls a
    worker records are those of its answers. *)

From stdpp Require Import gmap strings list.
From S2P Require Import Prelude GoFloat GoStrings NetAddr GoHash GoJson Tokens EdgeServer StressStats.

(** ** Configuration and modes *)
Record stressConfig := mkStressConfig {
  sg_controlPlaneURL : string; sg_originURL : string; sg_edgeEndpoint : string;
  sg_concurrency : Z; sg_workers : Z; sg_rampUp : Z; sg_objects : Z;
  sg_noBodyRead : bool; sg_key : string; sg_signKey : string; sg_authToken : string; sg_natMode : bool
}.

Inductive stressMode := MDirect | MDispatch | MBenchDispatch | MBenchOrigin | MBenchEdge.

(** [None] ends the program; two of the names switch [natMode] on. *)
Definition stress_mode (cfg : stressConfig) (name : string) : option (stressMode * bool) :=
  let nat_mode := sg_natMode cfg in
  if String.eqb name "direct" then Some (MDirect, nat_mode)
  else if String.eqb name "dispatch" then Some (MDispatch, nat_mode)
  else if String.eqb name "bench-dispatch" then Some (MBenchDispatch, nat_mode)
  else if String.eqb name "bench-origin" then Some (MBenchOrigin, nat_mode)
  else if String.eqb name "bench-edge" then Some (MBenchEdge, nat_mode)
  else if String.eqb name "bench-gateway" then Some (MBenchEdge, true)
  else if String.eqb name "bench-nat" then Some (MDispatch, true)
  else None.

(** ** The requests *)
Definition numbered (prefix : string) (i : Z) : string :=
  prefix +:+ of_chars (format_int_pad 4 i) +:+ ".mp4".

(** [keys[w%len(keys)]]: making a slice of negative length and dividing by zero panic. *)
Definition worker_key (cfg : stressConfig) (prefix : string) (w : Z) : result string :=
  if sg_objects cfg <=? 0 then Panic else Ok (numbered prefix (Z.rem w (sg_objects cfg))).

Definition signToken (secret key : string) (now : Z) : string :=
  if String.eqb secret "" then ""
  else
    let encoded := url_encode (code_list (payload_json (mkTokenPayload key ((now + 3600 * sec) / sec) ""))) in
    of_chars (encoded ++ ch 46 :: mac_text (bytes_of_string secret) encoded).

Record stressReq := mkStressReq {
  sr_Method : string; sr_URL : string; sr_Authorization : string; sr_ContentType : string; sr_Body : string
}.
Definition bearer_of (cfg : stressConfig) : string :=
  if String.eqb (sg_authToken cfg) "" then "" else "Bearer " +:+ sg_authToken cfg.
Definition get_object (base key auth : string) : stressReq := mkStressReq "GET" (base +:+ "/obj/" +:+ key) auth "" "".

(** The members of the maps in the order of their names. *)
Definition dispatch_text (key : string) : string :=
  of_chars (to_chars "{" ++ enc_string (to_chars "client") ++ to_chars ":" ++
    json_object [(to_chars "ip", FStr (to_chars "10.0.0.1")); (to_chars "isp", FStr (to_chars "ctcc"));
                 (to_chars "region", FStr (to_chars "cn-sh"))] ++
    to_chars "," ++ enc_string (to_chars "resource") ++ to_chars ":" ++
    json_object [(to_chars "key", FStr (to_chars key)); (to_chars "type", FStr (to_chars "object"))] ++ to_chars "}").

(** What a request ends with, and what is recorded of it. *)
Inductive stressAnswer :=
| AnError (text : string) (latUs : Z)
| AnAnswer (status latUs body : Z).      (* [body] bytes can be read *)

Definition isCanceled (text : string) : bool := contains (to_chars "context canceled") (to_chars text).
Definition drainBody (body : Z) (skip : bool) : Z := if skip then 0 else body.

Definition recorded (cfg : stressConfig) (canceled_too : bool) (a : stressAnswer) : option recCall :=
  match a with
  | AnError text lat => if canceled_too || negb (isCanceled text) then Some (mkRecCall 0 lat 0) else None
  | AnAnswer status lat body => Some (mkRecCall status lat (drainBody body (sg_noBodyRead cfg)))
  end.

(** One turn of a worker in each mode: the request, and what is recorded.  Two of the modes
    record a request that the end of the run cut off as a failed one. *)
Definition runDirect (cfg : stressConfig) (w : Z) (a : stressAnswer) : result (stressReq * option recCall) :=
  let! key := worker_key cfg "video/stress-" w in
  Ok (get_object (sg_originURL cfg) key "", recorded cfg false a).

Definition runDispatch (cfg : stressConfig) (nat_mode : bool) (w : Z) (a : stressAnswer)
    : result (stressReq * option recCall) :=
  let! key := worker_key cfg "video/stress-" w in
  Ok (get_object (if nat_mode then sg_edgeEndpoint cfg else sg_controlPlaneURL cfg) key (bearer_of cfg),
      recorded cfg false a).

Definition runBenchDispatch (cfg : stressConfig) (w : Z) (a : stressAnswer) : result (stressReq * option recCall) :=
  let! key := worker_key cfg "bench/video-" w in
  Ok (mkStressReq "POST" (sg_controlPlaneURL cfg +:+ "/v1/dispatch/resolve") (bearer_of cfg) "application/json"
        (dispatch_text key), recorded cfg true a).

(** The key of every request has the last two digits of the clock. *)
Definition runBenchOrigin (cfg : stressConfig) (w now : Z) (a : stressAnswer) : result (stressReq * option recCall) :=
  let! key :=
    if negb (String.eqb (sg_key cfg) "") then Ok (sg_key cfg)
    else if sg_objects cfg =? 0 then Panic
    else Ok ("bench/stress-" +:+ of_chars (format_int_pad 4 (Z.rem w (sg_objects cfg))) +:+ "-" +:+
             of_chars (format_int 10 (Z.rem now 100)) +:+ ".mp4") in
  Ok (get_object (sg_originURL cfg) key "", recorded cfg true a).

Definition runBenchEdge (cfg : stressConfig) (nat_mode : bool) (w now : Z) (a : stressAnswer)
    : result (stressReq * option recCall) :=
  let! key := worker_key cfg "video/stress-" w in
  let base := if nat_mode then sg_controlPlaneURL cfg else sg_edgeEndpoint cfg in
  let url := base +:+ "/obj/" +:+ key in
  Ok (mkStressReq "GET"
        (if String.eqb (sg_signKey cfg) "" then url else url +:+ "?token=" +:+ signToken (sg_signKey cfg) key now)
        (bearer_of cfg) "" "", recorded cfg false a).

Definition stress_turn (cfg : stressConfig) (m : stressMode) (nat_mode : bool) (w now : Z) (a : stressAnswer)
    : result (stressReq * option recCall) :=
  match m with
  | MDirect => runDirect cfg w a
  | MDispatch => runDispatch cfg nat_mode w a
  | MBenchDispatch => runBenchDispatch cfg w a
  | MBenchOrigin => runBenchOrigin cfg w now a
  | MBenchEdge => runBenchEdge cfg nat_mode w now a
  end.

(** ** The workers *)
(** The [select] of a worker: it ends with the context or its deadline, else sends a request. *)
Inductive workerTurn := WtDone | WtDeadline | WtWork (now : Z) (answer : stressAnswer).

(** The delay before the first turn; [None] when the run was cancelled before it ended. *)
Definition poolSize (cfg : stressConfig) : Z := if sg_workers cfg <=? 0 then sg_concurrency cfg else sg_workers cfg.
Definition worker_delay (cfg : stressConfig) (w : Z) : Z :=
  if sg_rampUp cfg <=? 0 then 0
  else int_of_float (fdiv (fmul (float_of_Z (sg_rampUp cfg)) (float_of_Z w)) (float_of_Z (poolSize cfg))).

(** The requests a worker sends and the calls it records; [Panic] ends the process. *)
Fixpoint worker_loop (cfg : stressConfig) (m : stressMode) (nat_mode : bool) (w : Z) (turns : list workerTurn)
    : result (list stressReq * list recCall) :=
  match turns with
  | WtWork now a :: turns =>
      let! one := stress_turn cfg m nat_mode w now a in
      let! rest := worker_loop cfg m nat_mode w turns in
      Ok (one.1 :: rest.1, option_list one.2 ++ rest.2)
  | _ => Ok ([], [])
  end.

Definition start_worker (cfg : stressConfig) (m : stressMode) (nat_mode : bool) (w : Z) (cancelled : bool)
    (turns : list workerTurn) : result (list stressReq * list recCall) :=
  if (0 <? sg_rampUp cfg) && cancelled then Ok ([], []) else worker_loop cfg m nat_mode w turns.

(** The goroutines of a run; a panic in one ends all. *)
Fixpoint run_workers (cfg : stressConfig) (m : stressMode) (nat_mode : bool) (cancelled : Z → bool)
    (turns : Z → list workerTurn) (ws : list Z) : result (list (list stressReq * list recCall)) :=
  match ws with
  | [] => Ok []
  | w :: ws =>
      let! one := start_worker cfg m nat_mode w (cancelled w) (turns w) in
      let! rest := run_workers cfg m nat_mode cancelled turns ws in
      Ok (one :: rest)
  end.
Definition runWorkers (cfg : stressConfig) (m : stressMode) (nat_mode : bool) (cancelled : Z → bool)
    (turns : Z → list workerTurn) : result (list (list stressReq * list recCall)) :=
  run_workers cfg m nat_mode cancelled turns (seqZ 0 (poolSize cfg)).

(** ** Tokens *)
Definition stress_payload (key : string) (now : Z) : TokenPayload := mkTokenPayload key ((now + 3600 * sec) / sec) "".

Lemma signToken_is_Sign secret key now :
  secret ≠ "" → (now + 3600 * sec) / sec ≠ 0 →
  Signer_Sign (bytes_of_string secret) now (stress_payload key now) = Ok (signToken secret key now).
Proof.
  intros Hs He. unfold Signer_Sign, signToken. rewrite (proj2 (String.eqb_neq secret "") Hs).
  cbn [stress_payload tp_Exp]. by rewrite (proj2 (Z.eqb_neq _ 0) He).
Qed.

Lemma numbered_text prefix i : Forall (λ c, is_rune [c] = true) (to_chars prefix) → text_ok (numbered prefix i).
Proof.
  intros Hp. unfold numbered, text_ok. rewrite !to_chars_app, to_of_chars. apply ascii_utf8.
  apply Forall_app. split; [done|]. apply Forall_app. split; [|by repeat constructor].
  apply Forall_forall. intros c Hc. apply format_int_pad_chars in Hc as [->|Hc]; [done|].
  apply is_digit_code in Hc. unfold is_rune. cbn. unfold between in *. lia.
Qed.

(** A token the load generator signs with the secret of an edge is accepted by
    that edge for an hour, from every address, and names the object that is asked for; but
    when a bearer token is configured too, the edge looks at that one and never at the
    signature. *)
Theorem stress_token_accepted cfg nat_mode w now now' ip key a req c r :
  sg_signKey cfg ≠ "" → worker_key cfg "video/stress-" w = Ok key →
  0 ≤ now → now' / sec ≤ (now + 3600 * sec) / sec → is_i64 ((now + 3600 * sec) / sec) →
  runBenchEdge cfg nat_mode w now a = Ok (req, c) →
  er_Authorization r = sr_Authorization req → er_QueryToken r = signToken (sg_signKey cfg) key now →
  if String.eqb (sg_authToken cfg) ""
  then Signer_VerifyWithIP (bytes_of_string (sg_signKey cfg)) now' (request_token r) ip = Ok (stress_payload key now)
  else request_token r = sg_authToken cfg.
Proof.
  intros Hsec Hkey Hnow Hexp Hrange Hreq Hauth Hq. unfold runBenchEdge in Hreq. rewrite Hkey in Hreq.
  cbn [mbind] in Hreq. injection Hreq as <- _.
  assert (Htext : text_ok key).
  { unfold worker_key in Hkey. destruct (_ <=? 0); [done|]. injection Hkey as <-. apply numbered_text. by repeat constructor. } cbn [sr_Authorization] in Hauth. unfold request_token. rewrite Hauth, Hq.
  unfold bearer_of. destruct (String.eqb_spec (sg_authToken cfg) "") as [Ha|Ha].
  - cbn [String.eqb negb andb].
    assert (He : (now + 3600 * sec) / sec ≠ 0).
    { unfold sec. assert (3600 ≤ (now + 3600 * 1000000000) / 1000000000); [|lia]. apply Z.div_le_lower_bound; lia. }
    pose proof (signToken_is_Sign (sg_signKey cfg) key now Hsec He) as Hsign.
    unfold Signer_VerifyWithIP. assert (Hst : stamped now (stress_payload key now) = stress_payload key now).
    { unfold stamped. cbn [stress_payload tp_Exp]. by rewrite (proj2 (Z.eqb_neq _ 0) He). }
    rewrite (sign_verifies _ now now' (stress_payload key now) _ Htext (ascii_text "" eq_refl)); [|by rewrite Hst|exact Hsign].
    rewrite Hst. cbn [stress_payload tp_Exp]. by rewrite (proj2 (Z.ltb_ge _ _) Hexp).
  - change (String.eqb ("Bearer " +:+ sg_authToken cfg) "") with false. cbn [negb andb].
    assert (Hto : to_chars ("Bearer " +:+ sg_authToken cfg) = to_chars "Bearer " ++ to_chars (sg_authToken cfg)) by done.
    rewrite Hto. rewrite has_prefix_app, trim_prefix_app. apply of_to_chars.
Qed.

(** ** What a run asks for *)
Lemma worker_loop_requests cfg m nat_mode w turns reqs calls :
  worker_loop cfg m nat_mode w turns = Ok (reqs, calls) →
  ∀ req, req ∈ reqs → ∃ now a c, stress_turn cfg m nat_mode w now a = Ok (req, c).
Proof.
  revert reqs calls. induction turns as [|[| |now a] turns IH]; intros reqs calls; cbn; try (intros [= <- <-]; set_solver).
  destruct (stress_turn cfg m nat_mode w now a) as [[req' c]| |] eqn:Hr; try done. cbn.
  destruct (worker_loop cfg m nat_mode w turns) as [[reqs' calls']| |]; try done. cbn.
  intros [= <- <-] req [->|Hin]%elem_of_cons; [by exists now, a, c|]. by eapply IH.
Qed.

(** The requests of these modes do not depend on the clock. *)
Definition clockless (cfg : stressConfig) (m : stressMode) : bool :=
  match m with
  | MBenchOrigin => negb (String.eqb (sg_key cfg) "")
  | MBenchEdge => String.eqb (sg_signKey cfg) ""
  | _ => true
  end.

Lemma clockless_turn cfg m nat_mode w now a req c now' a' req' c' :
  clockless cfg m = true → stress_turn cfg m nat_mode w now a = Ok (req, c) →
  stress_turn cfg m nat_mode w now' a' = Ok (req', c') → req = req'.
Proof.
  destruct m; cbn [clockless stress_turn]; unfold runDirect, runDispatch, runBenchDispatch, runBenchOrigin, runBenchEdge.
  1-3: intros _; destruct (worker_key _ _ _); cbn [mbind]; [by intros [= <- _] [= <- _]|done..].
  - intros ->. by intros [= <- _] [= <- _].
  - intros ->. destruct (worker_key _ _ _); cbn [mbind]; [by intros [= <- _] [= <- _]|done..].
Qed.

Lemma run_workers_requests cfg m nat_mode cancelled turns ws out :
  clockless cfg m = true → run_workers cfg m nat_mode cancelled turns ws = Ok out →
  ∃ kinds, (length kinds ≤ length ws)%nat ∧ ∀ req, req ∈ concat out.*1 → req ∈ kinds.
Proof.
  intros Hc. revert out. induction ws as [|w ws IH]; intros out; cbn; [intros [= <-]; exists []; split; [done|set_solver]|].
  destruct (start_worker cfg m nat_mode w (cancelled w) (turns w)) as [[reqs calls]| |] eqn:Hw; try done. cbn.
  destruct (run_workers cfg m nat_mode cancelled turns ws) as [rest| |]; try done. cbn. intros [= <-].
  destruct (IH rest eq_refl) as (kinds & Hlen & Hin). exists (option_list (head reqs) ++ kinds). split.
  - rewrite length_app. destruct reqs; cbn; lia.
  - cbn. intros req [Hr|Hr]%elem_of_app; apply elem_of_app; [left|right; by apply Hin].
    assert (Hl : worker_loop cfg m nat_mode w (turns w) = Ok (reqs, calls)).
    { unfold start_worker in Hw. destruct (_ && _); [|done]. injection Hw as <- <-. set_solver. }
    pose proof (worker_loop_requests _ _ _ _ _ _ _ Hl) as Hall. destruct (Hall req Hr) as (now & a & c & Hreq).
    destruct reqs as [|req0 reqs]; [set_solver|]. destruct (Hall req0 ltac:(by left)) as (now0 & a0 & c0 & Hreq0).
    rewrite (clockless_turn _ _ _ _ _ _ _ _ _ _ _ _ Hc Hreq Hreq0). cbn. by left.
Qed.

(** A worker asks for one object for the whole run: however long it lasts and
    however many objects are configured, a run sends no more different requests than it has
    workers (except where they carry the clock). *)
Theorem stress_asks_few_objects cfg m nat_mode cancelled turns out :
  clockless cfg m = true → runWorkers cfg m nat_mode cancelled turns = Ok out →
  ∃ kinds, Z.of_nat (length kinds) ≤ Z.max 0 (poolSize cfg) ∧ ∀ req, req ∈ concat out.*1 → req ∈ kinds.
Proof.
  intros Hc Hrun. destruct (run_workers_requests _ _ _ _ _ _ _ Hc Hrun) as (kinds & Hlen & Hin).
  exists kinds. split; [|done]. rewrite length_seqZ in Hlen. lia.
Qed.

(** Without objects the first request of a worker ends the process, except with
    a key of its own or, for a negative number, in the mode for the origin. *)
Theorem stress_without_objects_panics cfg m nat_mode w now a turns :
  sg_objects cfg ≤ 0 → m ≠ MBenchOrigin ∨ sg_key cfg = "" ∧ sg_objects cfg = 0 →
  worker_loop cfg m nat_mode w (WtWork now a :: turns) = Panic.
Proof.
  intros Ho Hm. assert (Hk : ∀ prefix, worker_key cfg prefix w = Panic).
  { intros prefix. unfold worker_key. by rewrite (proj2 (Z.leb_le _ _) Ho). }
  cbn [worker_loop]. destruct m; cbn [stress_turn]; unfold runDirect, runDispatch, runBenchDispatch, runBenchEdge; rewrite ?Hk; try done.
  destruct Hm as [|[Hkey H0]]; [done|]. unfold runBenchOrigin. by rewrite Hkey, H0.
Qed.

(** ** Concrete runs *)
Definition demo_stress : stressConfig :=
  mkStressConfig "http://cp" "http://origin" "http://edge" 2 0 0 100 false "" "secret" "" false.
Definition demo_stress_key : string := "video/stress-0001.mp4".
Definition demo_edge_request : edgeRequest :=
  mkEdgeRequest "GET" "/obj/video/stress-0001.mp4" "" (signToken "secret" demo_stress_key (1000 * sec)) "" "" "" "10.0.0.9:5" 0 "" "" "".

Lemma stress_token_accepted_witness :
  Signer_VerifyWithIP (bytes_of_string "secret") (2000 * sec) (request_token demo_edge_request) "10.0.0.9" =
    Ok (stress_payload demo_stress_key (1000 * sec)).
Proof.
  destruct (runBenchEdge demo_stress false 1 (1000 * sec) (AnAnswer 200 1 1)) as [[req c]| |] eqn:Hreq; [|discriminate Hreq..].
  assert (Hauth : sr_Authorization req = "").
  { unfold runBenchEdge in Hreq. cbn [mbind] in Hreq. injection Hreq as <- _. reflexivity. }
  assert (Hrange : is_i64 ((1000 * sec + 3600 * sec) / sec)).
  { change ((1000 * sec + 3600 * sec) / sec) with 4600. unfold is_i64. lia. }
  apply (stress_token_accepted demo_stress false 1 (1000 * sec) (2000 * sec) "10.0.0.9" demo_stress_key (AnAnswer 200 1 1) req c demo_edge_request);
    [discriminate|vm_compute; reflexivity|discriminate|discriminate|exact Hrange|exact Hreq|by rewrite Hauth|reflexivity].
Defined.

Definition demo_turns (w : Z) : list workerTurn := [WtWork 1 (AnAnswer 200 5 10); WtWork 2 (AnAnswer 200 6 10); WtDeadline].

Lemma stress_asks_few_objects_witness :
  ∃ out kinds, runWorkers demo_stress MDispatch false (λ _, false) demo_turns = Ok out ∧
    length (concat out.*1) = 4%nat ∧ (length kinds ≤ 2)%nat ∧ ∀ req, req ∈ concat out.*1 → req ∈ kinds.
Proof.
  destruct (runWorkers demo_stress MDispatch false (λ _, false) demo_turns) as [out| |] eqn:Hrun; [|discriminate Hrun..].
  destruct (stress_asks_few_objects demo_stress MDispatch false (λ _, false) demo_turns out eq_refl Hrun) as (kinds & Hlen & Hin).
  exists out, kinds. split; [reflexivity|]. split; [|split; [cbn in Hlen; lia|exact Hin]].
  revert Hrun. vm_compute. by intros [= <-].
Defined.

Lemma stress_without_objects_panics_witness :
  worker_loop (mkStressConfig "" "" "" 1 0 0 0 false "" "" "" false) MDirect false 0 [WtWork 1 (AnAnswer 200 1 0)] = Panic.
Proof. apply stress_without_objects_panics; [cbn; lia|by left]. Defined.
