(* ===== verification/TunnelRun.v ===== *)
(** * The life of a tunnel client ([Run] and [Stop] in [internal/tunnel/client.go]) and the
      HTTP front of the tunnel server ([HTTPHandler] in [internal/tunnel/server.go])

    [Run] connects, serves the connection until its message loop ends, waits and connects
    again, until the context of the client is cancelled; [Stop] cancels it and closes the
    connection the client holds at that moment.  [run_step] interleaves the two and the
    network; the messages themselves are in [TunnelClient], the other end in
    [TunnelAccept].

    The theorems: once the client is cancelled [Run] ends after six more steps, and does not
    wait for a connection that nobody closes; but every connection whose message loop ended
    by an error stays open, as does one that was established while [Stop] ran; the gateway
    then keeps the node's tunnel and refuses each of its new connections. *)

From stdpp Require Import gmap strings list.
From S2P Require Import Prelude TunnelCodec TunnelServer Gateway TunnelClient TunnelAccept.

(** ** The loop of [Run] *)
Inductive runPhase :=
| RnTop                  (* the select at the head of the loop *)
| RnDial                 (* [Connect], before the connection is there *)
| RnRegister (k : nat)   (* [Connect], the handshake on connection [k] *)
| RnLoop                 (* [messageLoop], before its select *)
| RnRead                 (* in [ReadMessage] *)
| RnPause                (* waiting to connect again *)
| RnReturned.

Record runState := mkRunState {
  ru_phase : runPhase;
  ru_cancelled : bool;
  ru_stopped : bool;           (* [Stop] has returned *)
  ru_conn : option nat;        (* [c.conn] *)
  ru_open : gset nat;          (* connections nobody closed *)
  ru_next : nat
}.
Definition NewClient : runState := mkRunState RnTop false false None ∅ 0.

Definition at_phase (u : runState) (ph : runPhase) : runState :=
  mkRunState ph (ru_cancelled u) (ru_stopped u) (ru_conn u) (ru_open u) (ru_next u).
Definition close_conn (u : runState) (k : option nat) : runState :=
  mkRunState (ru_phase u) (ru_cancelled u) (ru_stopped u) (ru_conn u)
    (match k with Some k => ru_open u ∖ {[k]} | None => ru_open u end) (ru_next u).

(** [Connect]: a connection is stored in the client before the handshake. *)
Definition dialled (u : runState) : runState :=
  mkRunState (RnRegister (ru_next u)) (ru_cancelled u) (ru_stopped u) (Some (ru_next u))
    ({[ru_next u]} ∪ ru_open u) (S (ru_next u)).

(** The steps of [Run]. *)
Inductive client_step (u : runState) : runState → Prop :=
| cs_top : ru_phase u = RnTop →
    client_step u (at_phase u (if ru_cancelled u then RnReturned else RnDial))
| cs_dial_fails : ru_phase u = RnDial → client_step u (at_phase u RnPause)
| cs_dial : ru_phase u = RnDial → client_step u (dialled u)
| cs_rejected k : ru_phase u = RnRegister k → client_step u (at_phase (close_conn u (Some k)) RnPause)
| cs_accepted k : ru_phase u = RnRegister k → client_step u (at_phase u RnLoop)
| cs_loop : ru_phase u = RnLoop → client_step u (at_phase u (if ru_cancelled u then RnPause else RnRead))
| cs_message : ru_phase u = RnRead → client_step u (at_phase u RnLoop)
| cs_read_fails : ru_phase u = RnRead → client_step u (at_phase u RnPause)
| cs_pause_over : ru_phase u = RnPause → client_step u (at_phase u RnTop)
| cs_pause_cancelled : ru_phase u = RnPause → ru_cancelled u = true → client_step u (at_phase u RnReturned).

(** [Stop]: the context first, then the connection. *)
Inductive stop_step (u : runState) : runState → Prop :=
| ss_cancel : ru_cancelled u = false →
    stop_step u (mkRunState (ru_phase u) true (ru_stopped u) (ru_conn u) (ru_open u) (ru_next u))
| ss_close : ru_cancelled u = true → ru_stopped u = false →
    stop_step u (close_conn (mkRunState (ru_phase u) true true (ru_conn u) (ru_open u) (ru_next u)) (ru_conn u)).

Definition run_step (u u' : runState) : Prop := client_step u u' ∨ stop_step u u'.

(** ** [Run] ends *)
Definition phase_rank (ph : runPhase) : nat :=
  match ph with
  | RnDial => 6 | RnRegister _ => 5 | RnRead => 4 | RnLoop => 3 | RnPause => 2 | RnTop => 1 | RnReturned => 0
  end.

Lemma cancelled_step u u' :
  ru_cancelled u = true → client_step u u' → ru_cancelled u' = true ∧ (phase_rank (ru_phase u') < phase_rank (ru_phase u))%nat.
Proof. intros Hc Hs. destruct Hs as [H|H|H|k H|k H|H|H|H|H|H Hd]; cbn; rewrite ?H, ?Hc; cbn; (split; [done|lia]). Qed.

Lemma stop_step_rank u u' :
  stop_step u u' → ru_cancelled u' = true ∧ ru_phase u' = ru_phase u.
Proof. by destruct 1. Qed.

(** A state after the client was created. *)
Record run_inv (u : runState) : Prop := {
  rn_fresh : ∀ k, k ∈ ru_open u → (k < ru_next u)%nat;
  rn_register : ∀ k, ru_phase u = RnRegister k → ru_conn u = Some k;
  rn_stopped : ru_stopped u = true → ru_cancelled u = true;
  rn_read : ru_stopped u = true → ru_phase u = RnRead → ∀ k, ru_conn u = Some k → k ∉ ru_open u;
  rn_conn : (ru_phase u = RnLoop ∨ ru_phase u = RnRead) → is_Some (ru_conn u)
}.

Lemma run_step_inv u u' : run_inv u → run_step u u' → run_inv u'.
Proof.
  intros [H1 H2 H3 H4 H5] [Hs|Hs].
  - destruct Hs as [H|H|H|k H|k H|H|H|H|H|H Hd]; split; cbn; try done; try (by destruct (ru_cancelled u));
      try (by intros ? [=]); try (by intros [[=]|[=]]); try (by intros _ [=]).
    + by destruct (ru_cancelled u); intros [[=]|[=]].
    + intros k0 [->%elem_of_singleton|Hin]%elem_of_union; [lia|]. specialize (H1 _ Hin). lia.
    + by intros k [= ->].
    + intros k0 [Hin _]%elem_of_difference. by apply H1.
    + intros _. rewrite (H2 k H). by eexists.
    + intros Hst. by rewrite (H3 Hst).
    + intros _. apply H5. by left.
    + intros _. apply H5. by right.
  - destruct Hs as [Hc|Hc Hst]; split; cbn; try done.
    + intros k. destruct (ru_conn u); [intros [Hin _]%elem_of_difference|intros Hin]; by apply H1.
    + intros _ _ k Hk. rewrite Hk. set_solver.
Qed.

Lemma run_reachable u : rtc run_step NewClient u → run_inv u.
Proof.
  apply rtc_ind_r; [|intros v w _ Hs Hi; by eapply run_step_inv].
  split; cbn; try done; set_solver.
Qed.

(** Once the client is cancelled its [Run] takes at most six more steps, whatever
    the network does and whatever [Stop] does meanwhile; and after [Stop] it never waits in a
    read for a connection that is still open. *)
Theorem cancelled_run_returns u n u' :
  rtc run_step NewClient u → ru_cancelled u = true →
  nsteps client_step n u u' →
  (n ≤ phase_rank (ru_phase u))%nat ∧ (phase_rank (ru_phase u) ≤ 6)%nat ∧
  (ru_phase u' ≠ RnReturned → ∃ u2, client_step u' u2) ∧
  (ru_stopped u = true → ru_phase u = RnRead → ∃ k, ru_conn u = Some k ∧ k ∉ ru_open u).
Proof.
  intros Hr Hc Hn. apply run_reachable in Hr as [_ _ _ H4 H5]. split_and!.
  - assert (Hgen : ru_cancelled u' = true ∧ (n + phase_rank (ru_phase u') ≤ phase_rank (ru_phase u))%nat); [|lia].
    clear H4 H5. induction Hn as [u|n u v w Hs Hn IH]; [split; [done|lia]|].
    destruct (cancelled_step u v Hc Hs) as [Hv Hlt]. destruct (IH Hv) as [Hw Hle]. split; [done|lia].
  - destruct (ru_phase u); cbn; lia.
  - intros Hne. destruct (ru_phase u') eqn:Hp; try done; eexists.
    + by apply cs_top.
    + by apply cs_dial_fails.
    + by eapply cs_rejected.
    + by apply cs_loop.
    + by apply cs_message.
    + by apply cs_pause_over.
  - intros Hst Hph. destruct (H5 (or_intror Hph)) as [k Hk]. exists k. split; [done|]. by apply H4.
Qed.

(** A run through the loop that ends with a failed read leaves its connection open. *)
Lemma lost_connection u :
  ru_phase u = RnTop → ru_cancelled u = false →
  rtc run_step u (mkRunState RnTop false (ru_stopped u) (Some (ru_next u)) ({[ru_next u]} ∪ ru_open u) (S (ru_next u))).
Proof.
  intros Hph Hc. destruct u as [ph c st conn op nx]. cbn in Hph, Hc |- *. subst ph c.
  eapply rtc_l; [left; by apply cs_top|]. eapply rtc_l; [left; by apply cs_dial|]. cbn.
  eapply rtc_l; [left; by eapply cs_accepted|]. eapply rtc_l; [left; by apply cs_loop|].
  eapply rtc_l; [left; by apply cs_read_fails|]. eapply rtc_l; [left; by apply cs_pause_over|]. done.
Qed.

(** Nothing but [Stop] and a refused handshake closes a connection, and [Stop]
    closes the last one only: a client whose reads have failed [n] times holds [n] open
    connections; a client that was stopped while it connected has returned and holds one. *)
Theorem client_leaks_connections n :
  (∃ u, rtc run_step NewClient u ∧ ru_phase u = RnTop ∧ ru_cancelled u = false ∧ size (ru_open u) = n) ∧
  (∃ u, rtc run_step NewClient u ∧ ru_phase u = RnReturned ∧ ru_stopped u = true ∧ size (ru_open u) = 1%nat).
Proof.
  split.
  - assert (H : ∃ u, rtc run_step NewClient u ∧ ru_phase u = RnTop ∧ ru_cancelled u = false ∧ size (ru_open u) = n ∧ run_inv u).
    { induction n as [|n (u & Hr & Hp & Hc & Hs & Hi)].
      - exists NewClient. split_and!; try done. by apply run_reachable.
      - eexists. split; [etrans; [exact Hr|by apply lost_connection]|]. cbn. split_and!; [done|done| |].
        + rewrite size_union, size_singleton, Hs; [done|]. apply disjoint_singleton_l. intros Hin.
          pose proof (rn_fresh u Hi _ Hin). lia.
        + apply run_reachable. etrans; [exact Hr|by apply lost_connection]. }
    destruct H as (u & ? & ? & ? & ? & _). by exists u.
  - eexists. split.
    + eapply rtc_l; [left; by apply cs_top|]. cbn.
      eapply rtc_l; [right; by apply ss_cancel|]. eapply rtc_l; [right; by apply ss_close|]. cbn.
      eapply rtc_l; [left; by apply cs_dial|]. cbn. eapply rtc_l; [left; by eapply cs_accepted|]. cbn.
      eapply rtc_l; [left; by apply cs_loop|]. cbn. eapply rtc_l; [left; by apply cs_pause_cancelled|]. cbn. apply rtc_refl.
    + cbn. by rewrite (right_id_L ∅ _), size_singleton.
Qed.

(** A connection the client gave up but did not close keeps its node out: as long
    as the gateway serves it, whatever other connections do, each new attempt of the client is
    answered by an error, and its [Connect] fails. *)
Theorem lost_connection_keeps_node_out authToken maxTunnels v c cfg sref v' tunnelID remote hs decode_ok ok_json err_json rest :
  rtc (any_step authToken maxTunnels) start_acceptor v → av_conns v !! c = Some (CnServing (tcf_NodeID cfg) sref) →
  rtc (λ v1 v2, ∃ c', c' ≠ c ∧ accept_step authToken maxTunnels v1 c' v2) v v' →
  Z.of_nat (length err_json) < 2 ^ 32 →
  (enter (av_manager v') (register_payload cfg) tunnelID remote).1 = CnDone hs →
  ∃ reply, handshake_reply hs ok_json err_json = Some reply ∧
    Client_Connect true true (message_bytes reply ++ rest) decode_ok = Err "register rejected".
Proof.
  intros Hr Hc Hrun Hlen He.
  destruct (dead_connection_locks_out _ _ _ _ _ _ _ (register_payload cfg) tunnelID remote Hr Hc Hrun eq_refl) as [_ Hx].
  rewrite Hx in He. injection He as <-. eexists. split; [reflexivity|].
  unfold Client_Connect, message_bytes. cbn [negb]. rewrite <- app_assoc, read_wf; [done|].
  by apply (NewDataMessage_wf MsgTypeError).
Qed.

(** ** The HTTP front ([HTTPHandler]) *)
Record frontRequest := mkFrontRequest {
  fr_Method : string; fr_URL : string; fr_header : gmap string (list string); fr_node_id : string; fr_ContentLength : Z
}.
(** [http.Error], or the response of the node. *)
Inductive frontReply :=
| FrontError (message : string) (status : Z)
| FrontAnswer (status : Z) (header : gmap string string) (body : bytes).

Definition front_node (r : frontRequest) : string :=
  let named := default "" (fr_header r !! "X-Tunnel-Node-Id" ≫= head) in
  if String.eqb named "" then fr_node_id r else named.

(** The first value of every header, all of them, and the whole URL. *)
Definition front_forward (sid : Z) (r : frontRequest) : HTTPRequestHeader :=
  mkHTTPRequestHeader sid (fr_Method r) (fr_URL r) (omap head (fr_header r)) (fr_ContentLength r).

(** [forward] is [ForwardRequest]: the header of the response with what its body yields. *)
Definition HTTPHandler (forward : string → HTTPRequestHeader → result (Z * gmap string string * bytes)) (r : frontRequest)
    : frontReply :=
  if String.eqb (front_node r) "" then FrontError "missing node_id" 400
  else match forward (front_node r) (front_forward 0 r) with
       | Ok (status, header, body) => FrontAnswer status header body
       | _ => FrontError "tunnel request failed" 502
       end.

(** ** Concrete runs *)
Definition demo_cancelled : runState := mkRunState RnDial true true None ∅ 0.

Lemma demo_cancelled_reachable : rtc run_step NewClient demo_cancelled.
Proof.
  eapply rtc_l; [left; by apply cs_top|]. eapply rtc_l; [right; by apply ss_cancel|].
  eapply rtc_l; [right; by apply ss_close|]. apply rtc_refl.
Qed.

Lemma cancelled_run_returns_witness : ∃ u, client_step demo_cancelled u ∧ (1 ≤ phase_rank (ru_phase demo_cancelled))%nat.
Proof.
  assert (Hs : client_step demo_cancelled (at_phase demo_cancelled RnPause)) by by apply cs_dial_fails.
  exists (at_phase demo_cancelled RnPause). split; [exact Hs|].
  apply (cancelled_run_returns demo_cancelled 1 _ demo_cancelled_reachable eq_refl (nsteps_once _ _ Hs)).
Defined.

Definition demo_client_cfg : ClientConfig := mkClientConfig "n1" "s" "127.0.0.1:9090".
Lemma lost_connection_keeps_node_out_witness :
  ∃ reply, handshake_reply (HsRejected "tunnel already exists for node") [] (bytes_of_string "no") = Some reply ∧
    Client_Connect true true (message_bytes reply ++ []) demo_tunnel_id = Err "register rejected".
Proof.
  assert (Hc : av_conns demo_acceptor !! 7%nat = Some (CnServing "n1" 0)) by (vm_compute; reflexivity).
  assert (He : (enter (av_manager demo_acceptor) (register_payload demo_client_cfg) "t2" "y").1 =
    CnDone (HsRejected "tunnel already exists for node")) by (vm_compute; reflexivity).
  apply (lost_connection_keeps_node_out "s" 100 demo_acceptor 7 demo_client_cfg 0 demo_acceptor "t2" "y"
    (HsRejected "tunnel already exists for node") demo_tunnel_id [] (bytes_of_string "no") []
    demo_acceptor_runs Hc (rtc_refl _ _)); [vm_compute; reflexivity|exact He].
Defined.
