(* ===== verification/StoreTasks.v ===== *)
(** * Background work and single queries of the stores ([internal/contentindex/store.go] and
      [internal/store/pg.go])

    The clean-up of the content index and the maintenance of the probe results as loops over
    the events of their [select], the queries for the hot keys and the filter of a node, the
    batch of status changes and the two values the console keeps in Redis.

    The theorems: what an upsert announced is what the queries answer; the maintenance never
    changes a score; the clean-up removes the stale hot rows and no other; a batch of status
    changes is the changes one by one, or nothing at all. *)

From stdpp Require Import gmap strings list sorting.
From S2P Require Import Prelude GoFloat GoHash Bloom ContentIndex Models NodeLifecycle Prober.

(** ** Queries of the content index *)
Definition hot_entries (s : Store) (nodeID : string) : list (string * ContentRow) :=
  (λ '(nk, r), (nk.2, r)) <$>
    map_to_list (filter (λ '(nk, c), nk.1 = nodeID ∧ cr_is_hot c = true) (st_content_index s)).

(** [ORDER BY last_seen_at DESC LIMIT 1000]; rows of the same time stay in the order [scan]
    the data base met them in. *)
Definition seen_later (a b : string * ContentRow) : Prop := cr_last_seen_at b.2 ≤ cr_last_seen_at a.2.
#[export] Instance seen_later_dec a b : Decision (seen_later a b).
Proof. unfold seen_later. apply _. Defined.
#[export] Instance seen_later_total : Total seen_later.
Proof. intros a b. unfold seen_later. lia. Qed.
#[export] Instance seen_later_trans : Transitive seen_later.
Proof. intros a b c. unfold seen_later. lia. Qed.

Definition Store_GetHotKeys (query_ok : bool) (scan : list (string * ContentRow)) : result (list string) :=
  if negb query_ok then Err "get hot keys"
  else Ok ((take 1000 (merge_sort seen_later scan)).*1).

Definition Store_LoadBloom (query_ok : bool) (s : Store) (nodeID : string) : result BloomFilter :=
  if negb query_ok then Err "load bloom"
  else match st_content_bloom s !! nodeID with
       | None => Err "no rows in result set"
       | Some r => Ok (NewBloomFilterFromBytes (br_bloom_data r) (br_bloom_k r))
       end.

(** ** The clean-up of the content index *)
Inductive cleanupEvent := CeDone | CeStop | CeTick (delete_ok query_ok : bool) (now : Z).

(** [ttl] is [HotKeyTTL], in nanoseconds. *)
Definition cleanup_interval (ttl : Z) : Z := if ttl <=? 0 then 300 * second else ttl.

Fixpoint cleanupLoop (scan : list string → option (option (list string))) (ttl : Z) (evs : list cleanupEvent) (s : Store) : Store :=
  match evs with
  | CeTick delete_ok query_ok now :: evs =>
      cleanupLoop scan ttl evs (Store_expireStaleHotKeys scan delete_ok query_ok now (Z.quot ttl second) s)
  | _ => s
  end.

(** ** Status changes in a batch *)
(** The statements of a batch are one transaction: [fails] is the one that fails. *)
Definition PGStore_BatchUpdateNodeStatus (fails : option nat) (s : PGStore) (updates : list (string * NodeStatus)) (now : Z)
    : result unit * PGStore :=
  match fails with
  | Some i =>
      if (i <? length updates)%nat
      then (Err "batch update node status", foldl (λ s u, PGStore_InvalidateNodeCache s u.1) s (take i updates))
      else (Ok tt, foldl (λ s u, update_row s u.1 (set_status u.2 now)) s updates)
  | None => (Ok tt, foldl (λ s u, update_row s u.1 (set_status u.2 now)) s updates)
  end.

(** ** Probe results *)
Definition PGStore_SaveProbeResult (db_ok : bool) (rows : list ProbeResult) (pr : ProbeResult) : result unit * list ProbeResult :=
  if db_ok then (Ok tt, rows ++ [pr]) else (Err "save probe result", rows).

Inductive maintenanceEvent := MeDone | MeVacuum (db_ok : bool) | MeArchive (db_ok : bool) (now : Z).
Definition probe_retention : Z := 7 * 24 * 3600 * second.

Fixpoint startMaintenance (evs : list maintenanceEvent) (rows : list ProbeResult) : list ProbeResult :=
  match evs with
  | MeVacuum _ :: evs => startMaintenance evs rows
  | MeArchive db_ok now :: evs =>
      startMaintenance evs (PGStore_CleanupOldProbeResults db_ok rows probe_retention now).2
  | _ => rows
  end.

(** ** Values in Redis *)
Definition settingsKey : string := "edf:admin:settings".
Definition globalConfigKey : string := "edf:global:config".

Definition redis_Save (ok : bool) (m : gmap string bytes) (key : string) (data : bytes) : result unit * gmap string bytes :=
  if ok then (Ok tt, <[key := data]> m) else (Err "redis", m).
(** A key that does not exist is no error. *)
Definition redis_Load (ok : bool) (m : gmap string bytes) (key : string) : result (option bytes) :=
  if ok then Ok (m !! key) else Err "redis".

Definition RedisStore_SaveSettings ok m data := redis_Save ok m settingsKey data.
Definition RedisStore_LoadSettings ok m := redis_Load ok m settingsKey.
Definition RedisStore_SaveGlobalConfig ok m data := redis_Save ok m globalConfigKey data.
Definition RedisStore_LoadGlobalConfig ok m := redis_Load ok m globalConfigKey.

(** ** Properties *)
Lemma elem_of_hot_entries s nodeID key r :
  (key, r) ∈ hot_entries s nodeID ↔ st_content_index s !! (nodeID, key) = Some r ∧ cr_is_hot r = true.
Proof.
  unfold hot_entries. rewrite list_elem_of_fmap. split.
  - intros ([[n k] r'] & [= -> ->] & Hin). apply elem_of_map_to_list, map_lookup_filter_Some in Hin as [Hin [Hn Hh]].
    cbn in Hn. by subst.
  - intros [Hr Hh]. exists ((nodeID, key), r). split; [done|]. by apply elem_of_map_to_list, map_lookup_filter_Some.
Qed.

Lemma hot_keys_answer scan s nodeID :
  scan ≡ₚ hot_entries s nodeID → (length scan ≤ 1000)%nat →
  ∃ keys, Store_GetHotKeys true scan = Ok keys ∧ keys ≡ₚ (hot_entries s nodeID).*1.
Proof.
  intros Hp Hl. exists (merge_sort seen_later scan).*1. unfold Store_GetHotKeys. cbn [negb].
  rewrite take_ge by (by rewrite merge_sort_Permutation). split; [done|]. by rewrite merge_sort_Permutation, Hp.
Qed.

(** What a node announced is what the queries about it answer: after an upsert
    without failures the hot keys of the node are exactly those of its summary, in whatever
    order the data base scans them, as long as they are at most a thousand, and the filter
    that is loaded is the one the index in memory uses. *)
Theorem announced_is_queried s now summary hk data scan :
  coherent s → cs_HotKeys summary = Some hk → cs_BloomFilter summary = Some data → (0 < length data)%nat →
  0 < accepted_k (cs_BloomK summary) →
  let s' := (Store_UpsertSummary s db_all_ok now summary).2 in
  scan ≡ₚ hot_entries s' (cs_NodeID summary) → (length scan ≤ 1000)%nat →
  (∃ keys, Store_GetHotKeys true scan = Ok keys ∧ ∀ key, key ∈ keys ↔ key ∈ hk) ∧
  ∃ bf, Store_LoadBloom true s' (cs_NodeID summary) = Ok bf ∧ blooms (st_index s') !! cs_NodeID summary = Some bf.
Proof.
  intros [Hrows _] Hhk Hdata Hlen Hk. unfold Store_UpsertSummary. rewrite Hhk, Hdata. cbn [db_all_ok db_upsert_ok db_delete_ok db_insert_ok negb].
  rewrite (proj2 (Nat.ltb_lt 0 (length data)) Hlen). cbv zeta. cbn [default snd].
  set (ti0 := filter _ (st_content_index s)). intros Hscan Hl.
  assert (Hhot0 : rows_hot ti0) by by apply filter_rows_hot.
  destruct (insert_hot_keys_spec (cs_NodeID summary) now hk ti0 Hhot0) as [Hhot Hdom]. split.
  - destruct (hot_keys_answer _ _ _ Hscan Hl) as (keys & Hkeys & Hp). exists keys. split; [done|]. intros key. rewrite Hp.
    rewrite list_elem_of_fmap. split.
    + intros ([k r] & -> & [Hr _]%elem_of_hot_entries). cbn in Hr |- *.
      destruct (proj1 (Hdom (cs_NodeID summary, k)) (ex_intro _ r Hr)) as [[r0 H0]|[_ ?]]; [|done].
      apply map_lookup_filter_Some in H0 as [H0 Hn]. exfalso. apply Hn. split; [done|]. by apply (Hrows _ _ H0).
    + intros Hin. destruct (proj2 (Hdom (cs_NodeID summary, key))) as [r Hr]; [by right|].
      exists (key, r). split; [done|]. apply elem_of_hot_entries. split; [done|]. by apply (Hhot _ _ Hr).
  - eexists. unfold Store_LoadBloom. cbn [negb st_content_bloom]. rewrite lookup_insert_eq. split; [done|].
    cbn [st_index br_bloom_data br_bloom_k]. unfold ContentIndex_Update. cbn.
    rewrite (proj2 (Z.ltb_lt _ _) Hk). by rewrite lookup_insert_eq.
Qed.

(** The maintenance never changes a score: as long as no archive runs ahead of the
    clock, the scores of every node are computed from the same rows with and without it. *)
Theorem maintenance_keeps_scores evs rows nodeID now :
  Forall (λ e, match e with MeArchive _ t => t ≤ now | _ => True end) evs →
  Prober_computeScores true (startMaintenance evs rows) nodeID now = Prober_computeScores true rows nodeID now.
Proof.
  intros Hall. unfold Prober_computeScores, PGStore_GetProbeScores. cbn [negb].
  assert (Hf : filter (λ r, pr_NodeID r = nodeID ∧ now - 5 * minute_ns < pr_ProbedAt r) (startMaintenance evs rows) =
    filter (λ r, pr_NodeID r = nodeID ∧ now - 5 * minute_ns < pr_ProbedAt r) rows); [|by rewrite Hf].
  revert rows. induction Hall as [|[|ok|ok t] evs Ht _ IH]; intros rows; cbn; [done|done|apply IH|].
  rewrite IH. unfold PGStore_CleanupOldProbeResults. destruct ok; cbn [negb snd]; [|done].
  rewrite list_filter_filter. apply list_filter_iff. intros r. unfold minute_ns, probe_retention, second.
  assert (Z.quot (7 * 24 * 3600 * 1000000000) 1000000000 = 604800) as -> by done. cbn in Ht.
  split; intros; repeat split; try tauto; lia.
Qed.

(** A tick of the clean-up that the data base carries out leaves exactly the rows
    that are not both hot and older than the retention; the loop ends with its context or the
    stop of the store, and then touches nothing. *)
Theorem cleanup_removes_stale scan ttl query_ok now s evs nk r :
  0 < now - Z.quot ttl second →
  cleanupLoop scan ttl (CeDone :: evs) s = s ∧ cleanupLoop scan ttl (CeStop :: evs) s = s ∧
  (st_content_index (cleanupLoop scan ttl [CeTick true query_ok now] s) !! nk = Some r ↔
    st_content_index s !! nk = Some r ∧ (cr_is_hot r = true → now - Z.quot ttl second ≤ cr_last_seen_at r)).
Proof.
  intros Hc. split; [done|]. split; [done|]. cbn. unfold Store_expireStaleHotKeys. rewrite (proj2 (Z.leb_gt _ _)) by lia. cbn [negb].
  assert (Hti : ∀ ti s1, st_content_index s1 = ti → st_content_index (if (size ti <? size (st_content_index s))%nat
      then (Store_LoadAll scan query_ok s1).2 else s1) = ti).
  { intros ti s1 <-. destruct (_ <? _)%nat; [|done]. unfold Store_LoadAll. by destruct query_ok. }
  rewrite Hti by done. rewrite map_lookup_filter_Some. split.
  - intros [Hr Hn]. split; [done|]. intros Hh. destruct (Z.le_gt_cases (now - Z.quot ttl second) (cr_last_seen_at r)); [done|].
    exfalso. apply Hn. split; [done|lia].
  - intros [Hr Hk]. split; [done|]. intros [Hh Hlt]. specialize (Hk Hh). lia.
Qed.

(** A batch of status changes that succeeds is the changes one after the other,
    those of unknown nodes left out; one that fails changes no row. *)
Theorem batch_status_all_or_nothing fails s updates now :
  let '(r, s') := PGStore_BatchUpdateNodeStatus fails s updates now in
  match r with
  | Ok _ => s' = foldl (λ s u, (PGStore_UpdateNodeStatus true
                     (PGStore_InvalidateNodeCache s u.1) u.1 u.2 now).2) s updates ∧
            (∀ i, fails = Some i → (length updates ≤ i)%nat)
  | _ => pg_nodes s' = pg_nodes s
  end.
Proof.
  assert (Hone : ∀ s u, update_row s u.1 (set_status u.2 now) =
    (PGStore_UpdateNodeStatus true (PGStore_InvalidateNodeCache s u.1) u.1 u.2 now).2).
  { intros s0 [id st]. unfold PGStore_UpdateNodeStatus, update_row, PGStore_InvalidateNodeCache, set_nodes. cbn.
    destruct (pg_nodes s0 !! id) as [n|] eqn:Hn; cbn.
    - by rewrite delete_delete_eq.
    - by rewrite alter_id' by done. }
  assert (Hall : ∀ l s0, foldl (λ s u, update_row s u.1 (set_status u.2 now)) s0 l =
    foldl (λ s u, (PGStore_UpdateNodeStatus true (PGStore_InvalidateNodeCache s u.1) u.1 u.2 now).2) s0 l).
  { induction l as [|u l IH]; intros s0; cbn; [done|]. by rewrite IH, Hone. }
  unfold PGStore_BatchUpdateNodeStatus. destruct fails as [i|]; [destruct (Nat.ltb_spec i (length updates)) as [Hi|Hi]|].
  - clear. revert s. induction (take i updates) as [|u l IH]; intros s; cbn; [done|]. by rewrite IH.
  - split; [apply Hall|]. by intros ? [= <-].
  - split; [apply Hall|done].
Qed.

(** What was saved in Redis is loaded, the settings and the configuration apart from
    each other; what was never saved is absent, which is no error. *)
Theorem redis_values_roundtrip m data :
  RedisStore_LoadSettings true (RedisStore_SaveSettings true m data).2 = Ok (Some data) ∧
  RedisStore_LoadGlobalConfig true (RedisStore_SaveSettings true m data).2 = RedisStore_LoadGlobalConfig true m ∧
  RedisStore_LoadGlobalConfig true (RedisStore_SaveGlobalConfig true m data).2 = Ok (Some data) ∧
  RedisStore_LoadSettings true (RedisStore_SaveGlobalConfig true m data).2 = RedisStore_LoadSettings true m.
Proof.
  unfold RedisStore_LoadSettings, RedisStore_SaveSettings, RedisStore_LoadGlobalConfig, RedisStore_SaveGlobalConfig, redis_Load, redis_Save.
  cbn [snd]. by rewrite !lookup_insert_eq, !lookup_insert_ne by done.
Qed.
