(* ===== verification/Quic.v ===== *)
(** * HTTP/3 ([internal/quic]), its start by the edge and the gateway ([startQUICServer] in
      [internal/edgeagent/server.go] and [internal/gateway/gateway.go]) and the certificates
      an edge makes for itself ([internal/autotls])

    The package exists twice: built with the tag [quic] it wraps the server and the transport
    of a library, without it both do nothing; [built] chooses.  What the library and the
    network answer are arguments.

    The theorems: without a certificate, and in a build without the tag, nothing ever listens;
    a server that was closed before it began to listen opens its socket all the same; the timeouts of
    a client change nothing; the address announced to clients is never a port; a certificate
    that was made once is used for ever, also after it has expired. *)

From stdpp Require Import gmap strings list.
From S2P Require Import Prelude GoStrings.

(** ** The server *)
Definition DefaultListenAddr : string := ":9443".

(** [qv_srv]: the server of the library was made, which needs a TLS configuration;
    [qv_closed]: it was closed. *)
Record quicServer := mkQuicServer { qv_addr : string; qv_srv : bool; qv_closed : bool; qv_ln : option string; qv_ln_closed : bool }.

Definition quic_NewServer (built has_tls : bool) (addr : string) : quicServer :=
  if built then mkQuicServer addr has_tls false None false else mkQuicServer "" false false None false.

(** What the steps of listening answer: the address, the socket, the listener with the
    address it got. *)
Record listenIO := mkListenIO { lq_resolve : bool; lq_udp : bool; lq_listen : option string }.

(** The result up to [ServeListener], which is the library's, and whether the socket was left
    open. *)
Definition quic_ListenAndServe (built : bool) (io : listenIO) (q : quicServer) : result unit * quicServer * bool :=
  if negb built then (Err "quic: not available (build with -tags quic)", q, false)
  else if negb (qv_srv q) then (Err "quic: server not initialized (missing TLS config)", q, false)
  else if negb (lq_resolve io) then (Err "quic: resolve udp addr", q, false)
  else if negb (lq_udp io) then (Err "quic: listen udp", q, false)
  else match lq_listen io with
       | None => (Err "quic: create listener", q, false)
       | Some a => (Ok tt, mkQuicServer (qv_addr q) (qv_srv q) (qv_closed q) (Some a) false, true)
       end.

Definition quic_Close (q : quicServer) : quicServer :=
  match qv_ln q with
  | Some _ => mkQuicServer (qv_addr q) (qv_srv q) (qv_closed q) (qv_ln q) true
  | None => if qv_srv q then mkQuicServer (qv_addr q) true true None (qv_ln_closed q) else q
  end.

(** The address of the listener, where it has one, else the configured one. *)
Definition quic_Addr (q : quicServer) : string :=
  match qv_ln q with
  | Some a => if String.eqb a "" then qv_addr q else a
  | None => qv_addr q
  end.

(** ** The start by the edge and by the gateway *)
(** The edge takes the TLS configuration of its other listener. *)
Definition edge_startQUICServer (built enabled has_tls : bool) (listenAddr : string) : option quicServer :=
  if negb (enabled && built) then None
  else if negb has_tls then None
  else Some (quic_NewServer built true (if String.eqb listenAddr "" then DefaultListenAddr else listenAddr)).

Definition loadTLSConfig (certFile keyFile : string) (pair_ok : bool) : result unit :=
  if String.eqb certFile "" || String.eqb keyFile "" then Err "TLS cert/key files not configured"
  else if pair_ok then Ok tt else Err "load TLS cert".
Definition gateway_startQUICServer (built enabled : bool) (certFile keyFile : string) (pair_ok : bool) (listenAddr : string)
    : option quicServer :=
  if negb (enabled && built) then None
  else match loadTLSConfig certFile keyFile pair_ok with
       | Ok _ => Some (quic_NewServer built true (if String.eqb listenAddr "" then DefaultListenAddr else listenAddr))
       | _ => None
       end.

(** ** The client *)
Record quicClientConfig := mkQuicClientConfig {
  qcc_tls : option bool;            (* a configuration, and whether it skips verification *)
  qcc_HandshakeTimeout : Z; qcc_MaxIdleTimeout : Z; qcc_KeepAlivePeriod : Z
}.
Record quicClient := mkQuicClient { qcl_skip_verify : bool; qcl_datagrams : bool }.

(** The defaults are stored in the configuration, of which only [TLSConfig] is used. *)
Definition with_timeouts (cfg : quicClientConfig) : quicClientConfig :=
  let or_default (d v : Z) := if v =? 0 then d * 1000000000 else v in
  mkQuicClientConfig (qcc_tls cfg) (or_default 10 (qcc_HandshakeTimeout cfg)) (or_default 30 (qcc_MaxIdleTimeout cfg))
    (or_default 15 (qcc_KeepAlivePeriod cfg)).
Definition quic_NewClient (cfg : quicClientConfig) : quicClient :=
  let cfg := with_timeouts (match qcc_tls cfg with
                            | Some _ => cfg
                            | None => mkQuicClientConfig (Some true) (qcc_HandshakeTimeout cfg) (qcc_MaxIdleTimeout cfg) (qcc_KeepAlivePeriod cfg)
                            end) in
  mkQuicClient (default true (qcc_tls cfg)) true.

(** ** Announcing HTTP/3 *)
Definition AltSvcHeader : string := "Alt-Svc".
Definition double_quote : string := of_chars [Ascii.ascii_of_nat 34].
Definition AltSvcMiddleware (quicAddr : string) (is_tls : bool) (header : gmap string string) : gmap string string :=
  if is_tls && negb (String.eqb quicAddr "")
  then <[AltSvcHeader := "h3=" +:+ double_quote +:+ ":" +:+ quicAddr +:+ double_quote]> header else header.

(** ** Certificates ([LoadOrGenerate]) *)
(** What a file holds of a key pair: which pair, and for a certificate its end. *)
Record pemFile := mkPemFile { pf_pair : nat; pf_notAfter : option Z }.
Abbreviation cert_files := (gmap string pemFile).

(** [tls.LoadX509KeyPair]: a certificate and the key that belongs to it. *)
Definition LoadX509KeyPair (files : cert_files) (certFile keyFile : string) : option pemFile :=
  c ← files !! certFile; k ← files !! keyFile;
  match pf_notAfter c, pf_notAfter k with
  | Some _, None => if decide (pf_pair c = pf_pair k) then Some c else None
  | _, _ => None
  end.

Definition year : Z := 365 * 24 * 3600 * 1000000000.

(** [pair] is the new key pair; the errors of the two writes are not looked at. *)
Definition LoadOrGenerate (made write_cert write_key : bool) (pair : nat) (files : cert_files) (certFile keyFile : string) (now : Z)
    : result pemFile * cert_files :=
  match LoadX509KeyPair files certFile keyFile with
  | Some c => (Ok c, files)
  | None =>
      if negb made then (Err "generate", files)
      else
        let c := mkPemFile pair (Some (now + year)) in
        let files := if write_cert then <[certFile := c]> files else files in
        let files := if write_key then <[keyFile := mkPemFile pair None]> files else files in
        (Ok c, files)
  end.

(** ** Properties *)
(** Nothing listens without a certificate, or in a build without the tag: neither
    the edge nor the gateway makes a server, and one made without a TLS configuration refuses
    to listen and opens no socket. *)
Theorem quic_needs_certificate built enabled listenAddr certFile keyFile pair_ok io addr :
  (built = false ∨ enabled = false → edge_startQUICServer built enabled true listenAddr = None ∧
     gateway_startQUICServer built enabled certFile keyFile pair_ok listenAddr = None) ∧
  edge_startQUICServer built enabled false listenAddr = None ∧
  (certFile = "" ∨ keyFile = "" ∨ pair_ok = false →
     gateway_startQUICServer built enabled certFile keyFile pair_ok listenAddr = None) ∧
  (∃ e, quic_ListenAndServe built io (quic_NewServer built false addr) = (Err e, quic_NewServer built false addr, false)).
Proof.
  unfold edge_startQUICServer, gateway_startQUICServer, loadTLSConfig. split_and!.
  - intros [-> | ->]; [by rewrite andb_false_r|done].
  - by destruct (negb _).
  - intros H. destruct (negb _); [done|]. destruct H as [->|[->| ->]]; [done|by rewrite orb_true_r|by destruct (_ || _)].
  - destruct built; by eexists.
Qed.

(** A server that is closed before its goroutine has begun to listen is not told:
    it opens its socket and a listener afterwards, which nobody closes. *)
Theorem quic_closed_early_listens io addr a :
  lq_resolve io = true → lq_udp io = true → lq_listen io = Some a →
  let q := quic_Close (quic_NewServer true true addr) in
  qv_closed q = true ∧
  ∃ q', quic_ListenAndServe true io q = (Ok tt, q', true) ∧ qv_ln q' = Some a ∧ qv_ln_closed q' = false.
Proof.
  intros Hr Hu Hl. cbn. split; [done|]. unfold quic_ListenAndServe. cbn. rewrite Hr, Hu, Hl. cbn. by eexists.
Qed.

(** The timeouts of a client have no effect, and without a TLS configuration it
    accepts any certificate. *)
Theorem quic_client_ignores_timeouts tls h1 i1 k1 h2 i2 k2 :
  quic_NewClient (mkQuicClientConfig tls h1 i1 k1) = quic_NewClient (mkQuicClientConfig tls h2 i2 k2) ∧
  qcl_skip_verify (quic_NewClient (mkQuicClientConfig None h1 i1 k1)) = true.
Proof. by destruct tls. Qed.

(** The header announces the listen address after a colon, so that for the default
    address, as for every other one that begins with a colon, it names no port. *)
Theorem alt_svc_has_two_colons port header :
  AltSvcMiddleware (":" +:+ port) true header !! AltSvcHeader =
    Some ("h3=" +:+ double_quote +:+ "::" +:+ port +:+ double_quote).
Proof. unfold AltSvcMiddleware. cbn [andb]. change (String.eqb (":" +:+ port) "") with false. cbn [negb]. by rewrite lookup_insert_eq. Qed.

(** A certificate that was written with its key is the one of every later start,
    whenever that is: it is valid for a year and never replaced. *)
Theorem certificate_made_once pair files certFile keyFile now io1 io2 io3 pair' later :
  certFile ≠ keyFile → LoadX509KeyPair files certFile keyFile = None →
  let '(r, files') := LoadOrGenerate true true true pair files certFile keyFile now in
  r = Ok (mkPemFile pair (Some (now + year))) ∧
  LoadOrGenerate io1 io2 io3 pair' files' certFile keyFile later = (r, files').
Proof.
  intros Hne Hl. unfold LoadOrGenerate. rewrite Hl. cbn [negb]. split; [done|]. unfold LoadX509KeyPair.
  rewrite (lookup_insert_ne _ keyFile certFile) by congruence. rewrite !lookup_insert_eq. cbn. by rewrite decide_True.
Qed.
