(* ===== verification/ApiHeaders.v ===== *)
(** * The headers of the control plane ([withRateLimit], [withAPICOMmonHeaders] and
      [deprecationMiddleware] in [internal/controlplane/api.go], [WithTraceContext] in
      [internal/controlplane/trace.go])

    The middlewares that set headers, in the order [NewAPI] installs them around the routes
    of [ApiRoutes]; [serve_headers] are the headers of the answer [serve_api] gives, before
    its handler adds those of the content.

    The theorem: every answer can be traced; every answer except the refusals of the rate
    limiter carries the security headers. *)

From S2P Require Import Prelude GoStrings ContentIndex Scheduler Api RateLimiter AdminAuth ConfigManager ApiRoutes.
From Stdlib Require Import Ascii.

Abbreviation headers := (gmap string string).

(** ** The middlewares *)
Definition HeaderTraceID : string := "X-Trace-Id".
Definition HeaderSpanID : string := "X-Span-Id".

(** The trace identifier of the request or a fresh one, on the request for the handlers
    behind and on the answer. *)
Definition trace_id (given fresh : string) : string := if String.eqb given "" then fresh else given.
Definition WithTraceContext (given fresh : string) (h : headers) : headers := <[HeaderTraceID := trace_id given fresh]> h.
Definition traced_request (given fresh span : string) (h : headers) : headers :=
  <[HeaderSpanID := String.substring 0 8 span]> (<[HeaderTraceID := trace_id given fresh]> h).

Definition withRateLimit (allowed : bool) (h : headers) (next : headers → headers) : headers :=
  if allowed then next h
  else <["Retry-After" := "1"]> (<["Content-Type" := "application/json"]> h).

Definition quoted (s : string) : string := of_chars [ascii_of_nat 39] +:+ s +:+ of_chars [ascii_of_nat 39].
Definition content_policy : string :=
  "default-src " +:+ quoted "self" +:+ "; script-src " +:+ quoted "self" +:+ " " +:+ quoted "unsafe-inline" +:+
  "; style-src " +:+ quoted "self" +:+ " " +:+ quoted "unsafe-inline" +:+ "; img-src " +:+ quoted "self" +:+
  " data:; connect-src " +:+ quoted "self".

Definition security_headers : list (string * string) :=
  [("X-Content-Type-Options", "nosniff"); ("X-Frame-Options", "DENY"); ("X-XSS-Protection", "1; mode=block");
   ("Referrer-Policy", "strict-origin-when-cross-origin"); ("Content-Security-Policy", content_policy)].
Definition withAPICOMmonHeaders (is_tls : bool) (h : headers) : headers :=
  let h := foldl (λ h '(k, v), <[k := v]> h) h security_headers in
  if is_tls then <["Strict-Transport-Security" := "max-age=63072000; includeSubDomains"]> h else h.

Definition double_quoted (s : string) : string := of_chars [ascii_of_nat 34] +:+ s +:+ of_chars [ascii_of_nat 34].
Definition deprecationMiddleware (h : headers) : headers :=
  <["Link" := "</internal/admin/v1>; rel=" +:+ double_quoted "successor-version"]>
    (<["Sunset" := "2026-12-31"]> (<["Deprecation" := "true"]> h)).

(** ** Around the routes *)
Definition serve_headers (now : Z) (q : apiRequest) (rt : apiRoute) (is_tls : bool) (given fresh : string) (st : apiServer)
    : headers :=
  let '(allowed, _) := rateLimiter_Allow (as_limiter st) now in
  withRateLimit allowed (WithTraceContext given fresh ∅) (λ h,
    let h := withAPICOMmonHeaders is_tls h in
    match rt, as_admin st with
    | RtSigned _, Some a =>
        match (internalAuth_middleware a now (aq_signed q)).1 with Ok _ => deprecationMiddleware h | _ => h end
    | _, _ => h
    end).

(** ** Properties *)
Lemma security_set is_tls h k v : (k, v) ∈ security_headers → withAPICOMmonHeaders is_tls h !! k = Some v.
Proof.
  intros Hin. unfold withAPICOMmonHeaders.
  assert (Hfold : foldl (λ h '(k, v), <[k := v]> h) h security_headers !! k = Some v).
  { unfold security_headers in *. rewrite !elem_of_cons in Hin.
    destruct Hin as [[= -> ->]|[[= -> ->]|[[= -> ->]|[[= -> ->]|[[= -> ->]|?%elem_of_nil]]]]]; [| | | | |done];
      cbn; rewrite ?lookup_insert_ne by done; by rewrite lookup_insert_eq. }
  destruct is_tls; [|done]. rewrite lookup_insert_ne; [done|]. intros <-. unfold security_headers in Hin.
  rewrite !elem_of_cons in Hin. by destruct Hin as [[=]|[[=]|[[=]|[[=]|[[=]|?%elem_of_nil]]]]].
Qed.

Definition set_by_middleware : list string :=
  HeaderTraceID :: "Retry-After" :: "Strict-Transport-Security" :: security_headers.*1.

(** The middlewares do not overwrite each other. *)
Lemma deprecation_keeps h k : k ∈ set_by_middleware → deprecationMiddleware h !! k = h !! k.
Proof.
  intros Hin. unfold deprecationMiddleware. unfold set_by_middleware, security_headers in Hin. cbn in Hin.
  rewrite !elem_of_cons, elem_of_nil in Hin.
  rewrite !lookup_insert_ne; [done|intros <-..]; naive_solver.
Qed.

Lemma common_other is_tls h k :
  k ∈ [HeaderTraceID; "Retry-After"] → withAPICOMmonHeaders is_tls h !! k = h !! k.
Proof.
  rewrite !elem_of_cons, elem_of_nil. unfold withAPICOMmonHeaders, security_headers. cbn.
  intros [->|[->|[]]]; destruct is_tls; by rewrite !lookup_insert_ne by done.
Qed.

Lemma common_sts is_tls h :
  h !! "Strict-Transport-Security" = None →
  is_Some (withAPICOMmonHeaders is_tls h !! "Strict-Transport-Security") ↔ is_tls = true.
Proof.
  intros Hh. unfold withAPICOMmonHeaders, security_headers. cbn. destruct is_tls.
  - rewrite lookup_insert_eq. split; [done|by eexists].
  - rewrite !lookup_insert_ne by done. rewrite Hh. split; [by intros [? ?]|done].
Qed.

(** Every answer of the API carries the trace identifier of its request, or a fresh
    one; if the limiter lets the request pass the answer has all security headers, those for
    transport exactly on TLS, whatever route it takes and however it ends; a refusal of the
    limiter says when to come back and has none of them. *)
Theorem api_headers_complete {CI SG : Type} `{ContentIndexLookup CI} `{TokenSigner SG} (auth : apiKeyAuth)
    (s : Scheduler CI SG) now q rt is_tls given fresh st :
  let allowed := (rateLimiter_Allow (as_limiter st) now).1 in
  let h := serve_headers now q rt is_tls given fresh st in
  h !! HeaderTraceID = Some (trace_id given fresh) ∧
  (if allowed
   then (∀ k v, (k, v) ∈ security_headers → h !! k = Some v) ∧ h !! "Retry-After" = None ∧
        (is_Some (h !! "Strict-Transport-Security") ↔ is_tls = true)
   else (serve_api auth s now q rt st).1 = Ok (AReply (RError 429 "RATE_LIMITED")) ∧ h !! "Retry-After" = Some "1" ∧
        ∀ k, k ∈ security_headers.*1 → h !! k = None).
Proof.
  cbv zeta. unfold serve_headers, serve_api. destruct (rateLimiter_Allow (as_limiter st) now) as [[] rl]; cbn [fst negb withRateLimit].
  - set (h0 := WithTraceContext given fresh ∅). set (h := withAPICOMmonHeaders is_tls h0).
    set (h' := match rt, as_admin st with RtSigned _, Some a => _ | _, _ => _ end).
    assert (Hk : ∀ k, k ∈ set_by_middleware → h' !! k = h !! k).
    { intros k Hk. unfold h'. destruct rt; try done. destruct (as_admin st); [|done].
      destruct (internalAuth_middleware _ _ _).1; try done. by apply deprecation_keeps. }
    rewrite !Hk by (unfold set_by_middleware; set_solver). unfold h. rewrite !common_other by set_solver.
    split; [unfold h0, WithTraceContext; by rewrite lookup_insert_eq|]. split_and!.
    + intros k v Hin. rewrite Hk; [by apply security_set|]. unfold set_by_middleware.
      do 3 right. apply list_elem_of_fmap. by exists (k, v).
    + done.
    + apply common_sts. done.
  - unfold WithTraceContext. rewrite !lookup_insert_ne by done. rewrite lookup_insert_eq. split; [done|].
    split; [done|]. rewrite lookup_insert_eq. split; [done|]. intros k. unfold security_headers. cbn.
    rewrite !elem_of_cons, elem_of_nil. by intros [->|[->|[->|[->|[->|[]]]]]].
Qed.
