(* ===== verification/StoreRaces.v ===== *)
(** * The node table under concurrent requests ([internal/store/pg.go],
      [internal/controlplane/heartbeat.go])

    [NodeLifecycle] runs every operation of the node table to its end.  Here each operation
    is a goroutine that takes one access at a time: a load, a store or a deletion of
    [nodeCache], a statement, a command of Redis.  A [goroutine] is what is left to do,
    [go_step] does the next access, and [world_step] interleaves any number of goroutines
    and the clock.

    The theorems: a goroutine that is not disturbed does what the operation of
    [NodeLifecycle] does; once the goroutines that were under way have returned and the
    time to live of the cache has passed, reads answer the row of the table; a disabled node
    of which nobody holds an older row stays disabled; but a heartbeat that has read the row
    before an administrator disables the node makes it active again, and a read that has
    queried the row before it puts the old row back into the cache. *)

From S2P Require Import Prelude GoFloat Models ContentIndex NodeLifecycle.

(** ** Goroutines *)

(** What a call of [GetNode] is made for: an answer, [processOne], [CheckNodeHealth]. *)
Inductive getFor :=
| ForCaller
| ForHeartbeat (io : hbIO) (summary : option ContentSummary)
| ForCheck (update_ok : bool).

Record getCall := mkGetCall { gc_id : string; gc_ok : bool; gc_for : getFor }.

(** The statements that write a row. *)
Inductive rowWrite :=
| WStatus (st : NodeStatus)
| WScores (sc : NodeScores)
| WSeen
| WDisable (reason : string) (until : option Z)
| WEnable
| WRevoke.

(** What is left to do; [k] is what follows. *)
Inductive goroutine :=
| PSave (id : string) (ts : Z) (io : hbIO) (summary : option ContentSummary)
| PAlive (id : string) (script_ok exists_ok get_ok update_ok : bool)
| PLoad (q : getCall)                               (* nodeCache.Load *)
| PFresh (q : getCall) (n : Node) (expiresAt : Z)   (* time.Now().Before *)
| PDrop (q : getCall)                               (* nodeCache.Delete *)
| PQuery (q : getCall)                              (* pool.QueryRow *)
| PStore (q : getCall) (n : Node)                   (* nodeCache.Store *)
| PWrite (id : string) (ok : bool) (w : rowWrite) (err : option string) (k : goroutine)
| PInval (id : string) (k : goroutine)
| PEvent (event id : string) (k : goroutine)
| PContent (id : string) (io : hbIO) (c : ContentSummary)
| PReturn (r : result (option Node)).

Definition returned (g : goroutine) : bool := match g with PReturn _ => true | _ => false end.

(** One statement on the table, without the cache. *)
Definition write_node (w : rowWrite) (now : Z) (n : Node) : Node :=
  match w with
  | WStatus st => set_status st now n
  | WScores sc => set_scores sc now n
  | WSeen => set_seen now n
  | WDisable reason None => set_admin NodeStatusDisabled reason (n_MaintainUntil n) now n
  | WDisable reason until => set_admin NodeStatusDisabled reason until now n
  | WEnable => set_admin NodeStatusActive "" None now n
  | WRevoke => n
  end.
Definition write_fails (w : rowWrite) : string :=
  match w with
  | WStatus _ => "update status"
  | WScores _ => "update scores"
  | WSeen => "update last seen"
  | WDisable _ _ => "disable node"
  | WEnable => "enable node"
  | WRevoke => "delete node"
  end.
(** [UpdateNodeStatus] and [RevokeNode] look at the number of rows. *)
Definition counts_rows (w : rowWrite) : bool := match w with WStatus _ | WRevoke => true | _ => false end.

Definition exec_write (ok : bool) (w : rowWrite) (s : PGStore) (id : string) (now : Z) : result PGStore :=
  if negb ok then Err (write_fails w)
  else
    match pg_nodes s !! id with
    | None => if counts_rows w then Err "no rows in result set" else Ok s
    | Some _ =>
        match w with
        | WRevoke => Ok (mkPGStore (delete id (pg_nodes s)) (delete id (pg_tokens s)) (pg_cache s) (pg_cacheTTL s))
        | _ => Ok (set_nodes s (alter (write_node w now) id (pg_nodes s)))
        end
    end.

Definition cache_row (s : PGStore) (id : string) (n : Node) (now : Z) : PGStore :=
  mkPGStore (pg_nodes s) (pg_tokens s) (<[id := (n, now + pg_cacheTTL s)]> (pg_cache s)) (pg_cacheTTL s).

(** What a caller of [GetNode] does with the answer. *)
Definition after_content (id : string) (io : hbIO) (summary : option ContentSummary) : goroutine :=
  match summary with Some c => PContent id io c | None => PReturn (Ok None) end.
Definition got (q : getCall) (r : result Node) : goroutine :=
  match gc_for q, r with
  | ForCaller, Ok n => PReturn (Ok (Some n))
  | ForCaller, _ => PReturn (Err "get node")
  | ForHeartbeat io summary, Ok n =>
      if bool_decide (n_Status n = NodeStatusDisabled) || bool_decide (n_Status n = NodeStatusMaintenance)
      then PReturn (Ok None)
      else if bool_decide (n_Status n = NodeStatusRegistered)
      then PWrite (gc_id q) (io_activate io) (WStatus NodeStatusActive) (Some "activate node")
             (PEvent "node.online" (gc_id q) (after_content (gc_id q) io summary))
      else after_content (gc_id q) io summary
  | ForCheck upd, Ok n =>
      match n_Status n with
      | NodeStatusActive =>
          PWrite (gc_id q) upd (WStatus NodeStatusDegraded) (Some "degrade node")
            (PEvent "node.degraded" (gc_id q) (PReturn (Ok None)))
      | NodeStatusDegraded =>
          PWrite (gc_id q) upd (WStatus NodeStatusOffline) (Some "offline node")
            (PEvent "node.offline" (gc_id q) (PReturn (Ok None)))
      | _ => PReturn (Ok None)
      end
  | _, _ => PReturn (Err "get node")
  end.

(** The next access of a goroutine. *)
Definition go_step (now : Z) (g : goroutine) (h : ControlPlane) : goroutine * ControlPlane :=
  let pg := cp_pg h in
  match g with
  | PSave id ts io summary =>
      match RedisStore_SaveHeartbeat (io_save io) (cp_redis h) id ts (cp_HeartbeatTTL h) now with
      | (Ok _, r) => (PWrite id (io_seen io) WSeen None (PLoad (mkGetCall id (io_get io) (ForHeartbeat io summary))), with_redis h r)
      | (_, r) => (PReturn (Err "save heartbeat"), with_redis h r)
      end
  | PAlive id script_ok exists_ok get_ok update_ok =>
      let '(alive, r) := RedisStore_HasHeartbeat script_ok exists_ok (cp_redis h) id now in
      (if alive : bool then PReturn (Ok None) else PLoad (mkGetCall id get_ok (ForCheck update_ok)), with_redis h r)
  | PLoad q => (match pg_cache pg !! gc_id q with Some (n, e) => PFresh q n e | None => PQuery q end, h)
  | PFresh q n e => (if now <? e then got q (Ok n) else PDrop q, h)
  | PDrop q => (PQuery q, with_pg h (PGStore_InvalidateNodeCache pg (gc_id q)))
  | PQuery q =>
      (if negb (gc_ok q) then got q (Err "get node")
       else match pg_nodes pg !! gc_id q with Some n => PStore q n | None => got q (Err "get node") end, h)
  | PStore q n => (got q (Ok n), with_pg h (cache_row pg (gc_id q) n now))
  | PWrite id ok w err k =>
      match exec_write ok w pg id now with
      | Ok pg => (PInval id k, with_pg h pg)
      | Err e => (PReturn (Err (default e err)), h)
      | Panic => (PReturn Panic, h)
      end
  | PInval id k => (k, with_pg h (PGStore_InvalidateNodeCache pg id))
  | PEvent event id k => (k, Heartbeat_emit h event id)
  | PContent id io c =>
      (PReturn (Ok None),
       match cp_content h with
       | Some cs => with_content h (Store_UpsertSummary cs (io_upsert io) now (with_node_id id c)).2
       | None => h
       end)
  | PReturn _ => (g, h)
  end.

(** The operations as goroutines. *)
Definition processOne_go (io : hbIO) (id : string) (ts : Z) (summary : option ContentSummary) : goroutine := PSave id ts io summary.
Definition CheckNodeHealth_go (script_ok exists_ok get_ok update_ok : bool) (id : string) : goroutine :=
  PAlive id script_ok exists_ok get_ok update_ok.
Definition GetNode_go (db_ok : bool) (id : string) : goroutine := PLoad (mkGetCall id db_ok ForCaller).
Definition write_go (db_ok : bool) (id : string) (w : rowWrite) : goroutine := PWrite id db_ok w None (PReturn (Ok None)).

(** What a request or a task starts as. *)
Definition starting (g : goroutine) : Prop :=
  match g with
  | PSave _ _ _ _ | PAlive _ _ _ _ _ => True
  | PLoad q => gc_for q = ForCaller
  | PWrite _ _ _ None (PReturn (Ok None)) => True
  | _ => False
  end.

(** ** The machine *)
Record world := mkWorld { w_cp : ControlPlane; w_now : Z; w_go : list goroutine }.

Definition take_step (i : nat) (w : world) : world :=
  match w_go w !! i with
  | Some g => let '(g, h) := go_step (w_now w) g (w_cp w) in mkWorld h (w_now w) (<[i := g]> (w_go w))
  | None => w
  end.

Section steps.
(** Which goroutines may begin. *)
Context (may_begin : goroutine → Prop).

Inductive world_step (w : world) : world → Prop :=
| ws_tick now : w_now w ≤ now → world_step w (mkWorld (w_cp w) now (w_go w))
| ws_begin g : may_begin g → starting g → world_step w (mkWorld (w_cp w) (w_now w) (w_go w ++ [g]))
| ws_access i g : w_go w !! i = Some g → returned g = false → world_step w (take_step i w).
End steps.

(** The row of a node does not change in a step. *)
Definition row_kept (id : string) (w w' : world) : Prop :=
  world_step (λ _, True) w w' ∧ pg_nodes (cp_pg (w_cp w')) !! id = pg_nodes (cp_pg (w_cp w)) !! id.

(** ** A goroutine that is not disturbed *)
Fixpoint alone (fuel : nat) (now : Z) (g : goroutine) (h : ControlPlane) : goroutine * ControlPlane :=
  match fuel with O => (g, h) | S fuel => let '(g, h) := go_step now g h in alone fuel now g h end.

Definition no_node {A} (r : result A) : result (option Node) :=
  match r with Ok _ => Ok None | Err e => Err e | Panic => Panic end.

Lemma alone_return n now r h : alone n now (PReturn r) h = (PReturn r, h).
Proof. induction n as [|n IH]; [done|]. exact IH. Qed.

Lemma alone_more n m now g h r h' : alone n now g h = (PReturn r, h') → (n ≤ m)%nat → alone m now g h = (PReturn r, h').
Proof.
  revert m g h. induction n as [|n IH]; intros m g h H Hm.
  - cbn in H. injection H as -> ->. apply alone_return.
  - destruct m as [|m]; [lia|]. cbn [alone] in *. destruct (go_step now g h) as [g1 h1]. apply IH; [done|lia].
Qed.

Lemma alone_step n now g h : alone (S n) now g h = alone n now (go_step now g h).1 (go_step now g h).2.
Proof. cbn [alone]. by destruct (go_step now g h). Qed.

Lemma alter_absent (f : Node → Node) (m : gmap string Node) id : m !! id = None → alter f id m = m.
Proof. intros H. apply alter_id. intros n Hn. congruence. Qed.

(** The call of [GetNode], up to its answer. *)
Lemma alone_get q now h :
  ∃ n, (n ≤ 5)%nat ∧ ∀ k,
    alone (n + k) now (PLoad q) h =
    let '(r, pg) := PGStore_GetNode (gc_ok q) (cp_pg h) (gc_id q) now in alone k now (got q r) (with_pg h pg).
Proof.
  assert (Hq : ∀ h, ∃ n, (n ≤ 2)%nat ∧ ∀ k, alone (n + k) now (PQuery q) h =
    let '(r, pg) := query_node (gc_ok q) (cp_pg h) (gc_id q) now in alone k now (got q r) (with_pg h pg)).
  { intros h0. unfold query_node. destruct (gc_ok q) eqn:Hok; cbn [negb].
    - destruct (pg_nodes (cp_pg h0) !! gc_id q) as [n|] eqn:Hn.
      + exists 2%nat. split; [lia|]. intros k. cbn [Nat.add]. rewrite alone_step. cbn [go_step]. rewrite Hok, Hn. cbn [negb fst snd].
        rewrite alone_step. done.
      + exists 1%nat. split; [lia|]. intros k. cbn [Nat.add]. rewrite alone_step. cbn [go_step]. rewrite Hok, Hn. cbn [negb fst snd].
        by destruct h0.
    - exists 1%nat. split; [lia|]. intros k. cbn [Nat.add]. rewrite alone_step. cbn [go_step]. rewrite Hok. cbn [negb fst snd].
      by destruct h0. }
  unfold PGStore_GetNode. destruct (pg_cache (cp_pg h) !! gc_id q) as [[n e]|] eqn:Hc.
  - destruct (now <? e) eqn:He.
    + exists 2%nat. split; [lia|]. intros k. cbn [Nat.add]. rewrite alone_step. cbn [go_step]. rewrite Hc. cbn [fst snd].
      rewrite alone_step. cbn [go_step]. rewrite He. by destruct h.
    + destruct (Hq (with_pg h (PGStore_InvalidateNodeCache (cp_pg h) (gc_id q)))) as (m & Hm & Hk).
      exists (3 + m)%nat. split; [lia|]. intros k. cbn [Nat.add]. rewrite alone_step. cbn [go_step]. rewrite Hc. cbn [fst snd].
      rewrite alone_step. cbn [go_step]. rewrite He. cbn [fst snd]. rewrite alone_step. cbn [go_step fst snd]. rewrite Hk.
      cbn [cp_pg with_pg]. by destruct (query_node _ _ _ _).
  - destruct (Hq h) as (m & Hm & Hk). exists (1 + m)%nat. split; [lia|]. intros k. cbn [Nat.add]. rewrite alone_step.
    cbn [go_step]. rewrite Hc. apply Hk.
Qed.

(** The update of a status, and an event. *)
Lemma alone_status id ok st err event k m now h :
  alone (3 + m) now (PWrite id ok (WStatus st) (Some err) (PEvent event id k)) h =
  match PGStore_UpdateNodeStatus ok (cp_pg h) id st now with
  | (Ok _, pg) => alone m now k (Heartbeat_emit (with_pg h pg) event id)
  | (_, pg) => (PReturn (Err err), with_pg h pg)
  end.
Proof.
  cbn [Nat.add]. rewrite alone_step. cbn [go_step]. unfold exec_write, PGStore_UpdateNodeStatus. destruct ok; cbn [negb].
  - destruct (pg_nodes (cp_pg h) !! id) as [n|] eqn:Hn; cbn [fst snd counts_rows default].
    + rewrite !alone_step. done.
    + rewrite alone_return. by destruct h.
  - cbn [fst snd default]. rewrite alone_return. by destruct h.
Qed.

(** The write of a row by itself. *)
Definition sequential_write (w : rowWrite) (ok : bool) (s : PGStore) (id : string) (now : Z) : result unit * PGStore :=
  match w with
  | WStatus st => PGStore_UpdateNodeStatus ok s id st now
  | WScores sc => PGStore_UpdateNodeScores ok s id sc now
  | WSeen => PGStore_UpdateNodeLastSeen ok s id now
  | WDisable reason until => PGStore_NodeDisable ok s id reason until now
  | WEnable => PGStore_NodeEnable ok s id now
  | WRevoke => PGStore_RevokeNode ok s id
  end.

Lemma write_apart w ok s id now :
  match exec_write ok w s id now with
  | Ok s' => sequential_write w ok s id now = (Ok tt, PGStore_InvalidateNodeCache s' id)
  | Err e => sequential_write w ok s id now = (Err e, s)
  | Panic => False
  end.
Proof.
  unfold exec_write, sequential_write, PGStore_UpdateNodeStatus, PGStore_UpdateNodeScores, PGStore_UpdateNodeLastSeen,
    PGStore_NodeDisable, PGStore_NodeEnable, PGStore_RevokeNode, update_row.
  destruct ok; cbn [negb]; [|by destruct w].
  destruct (pg_nodes s !! id) as [n|] eqn:Hn; destruct w as [| | |reason [until|]| |]; cbn [counts_rows]; try done;
    rewrite alter_absent by done; by destruct s.
Qed.

Lemma alone_write w ok err k m now h id :
  alone (2 + m) now (PWrite id ok w err k) h =
  match sequential_write w ok (cp_pg h) id now with
  | (Ok _, pg) => alone m now k (with_pg h pg)
  | (Err e, pg) => (PReturn (Err (default e err)), with_pg h pg)
  | (Panic, pg) => (PReturn Panic, with_pg h pg)
  end.
Proof.
  cbn [Nat.add]. rewrite alone_step. cbn [go_step]. pose proof (write_apart w ok (cp_pg h) id now) as Hw.
  destruct (exec_write ok w (cp_pg h) id now) as [s|e|]; [| |done]; rewrite Hw; cbn [fst snd].
  - by rewrite alone_step.
  - rewrite alone_return. by destruct h.
Qed.

Lemma alone_content n now id io summary h :
  (1 ≤ n)%nat →
  alone n now (after_content id io summary) h =
  (PReturn (Ok None),
   match cp_content h, summary with
   | Some cs, Some c => with_content h (Store_UpsertSummary cs (io_upsert io) now (with_node_id id c)).2
   | _, _ => h
   end).
Proof.
  intros Hn. destruct n as [|n]; [lia|]. destruct summary as [c|]; cbn [after_content].
  - rewrite alone_step. cbn [go_step fst snd]. apply alone_return.
  - rewrite alone_return. by destruct (cp_content h).
Qed.

Lemma processOne_alone now h io id ts summary :
  let '(r, h') := Heartbeat_processOne io h id ts now summary in
  alone 16 now (processOne_go io id ts summary) h = (PReturn (no_node r), h').
Proof.
  unfold processOne_go, Heartbeat_processOne. rewrite (alone_step 15). cbn [go_step].
  destruct (RedisStore_SaveHeartbeat _ _ _ _ _ _) as [[u|e|] r] eqn:Es; cbn [fst snd].
  2,3: unfold RedisStore_SaveHeartbeat in Es; destruct (io_save io); cbn [negb] in Es; simplify_eq; apply alone_return.
  rewrite (alone_write WSeen _ _ _ 13). cbn [sequential_write with_redis cp_pg].
  destruct (PGStore_UpdateNodeLastSeen _ _ _ _) as [[v|e|] pg] eqn:Ew; cbn [default].
  2,3: unfold PGStore_UpdateNodeLastSeen in Ew; destruct (io_seen io); cbn [negb] in Ew; simplify_eq; by destruct h.
  destruct (alone_get (mkGetCall id (io_get io) (ForHeartbeat io summary)) now (with_pg (with_redis h r) pg)) as (n & Hn & Hk).
  replace 13%nat with (n + (13 - n))%nat by lia. rewrite Hk. cbn [gc_ok gc_id with_pg cp_pg].
  destruct (PGStore_GetNode (io_get io) pg id now) as [[node|e|] pg1] eqn:Eg; cbn [got gc_for gc_id].
  2: apply alone_return.
  2: { unfold PGStore_GetNode, query_node in Eg. repeat case_match; simplify_eq. }
  destruct (bool_decide (n_Status node = NodeStatusDisabled) || bool_decide (n_Status node = NodeStatusMaintenance));
    [by rewrite alone_return|].
  destruct (bool_decide (n_Status node = NodeStatusRegistered)).
  - replace (13 - n)%nat with (3 + (10 - n))%nat by lia. rewrite alone_status. cbn [with_pg cp_pg].
    destruct (PGStore_UpdateNodeStatus _ _ _ _ _) as [[w|e|] pg2]; [|done..].
    rewrite alone_content by lia. cbn [Heartbeat_emit with_pg cp_content]. by destruct (cp_content _), summary.
  - rewrite alone_content by lia. cbn [with_pg cp_content]. by destruct (cp_content _), summary.
Qed.

Lemma check_alone now h a b c d id :
  let '(r, h') := Heartbeat_CheckNodeHealth a b c d h id now in
  alone 16 now (CheckNodeHealth_go a b c d id) h = (PReturn (no_node r), h').
Proof.
  unfold CheckNodeHealth_go, Heartbeat_CheckNodeHealth. rewrite (alone_step 15). cbn [go_step].
  destruct (RedisStore_HasHeartbeat a b (cp_redis h) id now) as [[] r]; cbn [fst snd]; [by rewrite alone_return|].
  destruct (alone_get (mkGetCall id c (ForCheck d)) now (with_redis h r)) as (n & Hn & Hk).
  replace 15%nat with (n + (15 - n))%nat by lia. rewrite Hk. cbn [gc_ok gc_id with_redis cp_pg].
  destruct (PGStore_GetNode c (cp_pg h) id now) as [[node|e|] pg1] eqn:Eg; cbn [got gc_for gc_id].
  2: apply alone_return.
  2: { unfold PGStore_GetNode, query_node in Eg. repeat case_match; simplify_eq. }
  destruct (n_Status node); try (by rewrite alone_return); replace (15 - n)%nat with (3 + (12 - n))%nat by lia;
    rewrite alone_status; cbn [with_pg cp_pg]; destruct (PGStore_UpdateNodeStatus _ _ _ _ _) as [[w|e|] pg2]; try done;
    by rewrite alone_return.
Qed.

(** The goroutines and the operations of [NodeLifecycle]: a heartbeat, a health
    check, a read or a write of a row that runs without another goroutine between its accesses
    returns within sixteen of them, with the answer and the effect of the operation, whatever
    fails. *)
Theorem handlers_alone now h id :
  (∀ io ts summary,
     alone 16 now (processOne_go io id ts summary) h =
     let '(r, h') := Heartbeat_processOne io h id ts now summary in (PReturn (no_node r), h')) ∧
  (∀ a b c d,
     alone 16 now (CheckNodeHealth_go a b c d id) h =
     let '(r, h') := Heartbeat_CheckNodeHealth a b c d h id now in (PReturn (no_node r), h')) ∧
  (∀ ok,
     alone 16 now (GetNode_go ok id) h =
     let '(r, pg) := PGStore_GetNode ok (cp_pg h) id now in
     (PReturn (match r with Ok n => Ok (Some n) | _ => Err "get node" end), with_pg h pg)) ∧
  (∀ ok w,
     alone 16 now (write_go ok id w) h =
     let '(r, pg) := sequential_write w ok (cp_pg h) id now in (PReturn (no_node r), with_pg h pg)).
Proof.
  split_and!.
  - intros io ts summary. pose proof (processOne_alone now h io id ts summary) as H.
    by destruct (Heartbeat_processOne io h id ts now summary).
  - intros a b c d. pose proof (check_alone now h a b c d id) as H. by destruct (Heartbeat_CheckNodeHealth a b c d h id now).
  - intros ok. unfold GetNode_go. destruct (alone_get (mkGetCall id ok ForCaller) now h) as (n & Hn & Hk).
    replace 16%nat with (n + (16 - n))%nat by lia. rewrite Hk. cbn [gc_ok gc_id].
    destruct (PGStore_GetNode ok (cp_pg h) id now) as [[node|e|] pg]; cbn [got gc_for]; by rewrite alone_return.
  - intros ok w. unfold write_go. rewrite (alone_write w ok None _ 14).
    destruct (sequential_write w ok (cp_pg h) id now) as [[u|e|] pg]; [by rewrite alone_return|done..].
Qed.

(** ** What a goroutine holds *)

(** The predicates hold of a goroutine and of what it continues with. *)
Section holds.
Context (fresh : getCall → Node → Z → Prop) (stored : getCall → Node → Prop) (writes : string → rowWrite → Prop).

Fixpoint holds (g : goroutine) : Prop :=
  match g with
  | PFresh q n e => fresh q n e
  | PStore q n => stored q n
  | PWrite id _ w _ k => writes id w ∧ holds k
  | PInval _ k | PEvent _ _ k => holds k
  | _ => True
  end.

Lemma holds_content id io summary : holds (after_content id io summary).
Proof. by destruct summary. Qed.

Lemma holds_got q r :
  (∀ n, r = Ok n → (∀ io s, gc_for q = ForHeartbeat io s → n_Status n = NodeStatusRegistered → writes (gc_id q) (WStatus NodeStatusActive)) ∧
     (∀ b, gc_for q = ForCheck b → n_Status n = NodeStatusActive → writes (gc_id q) (WStatus NodeStatusDegraded)) ∧
     (∀ b, gc_for q = ForCheck b → n_Status n = NodeStatusDegraded → writes (gc_id q) (WStatus NodeStatusOffline))) →
  holds (got q r).
Proof.
  intros H. unfold got. destruct (gc_for q) as [|io s|b] eqn:Hf, r as [n|e|]; try done; destruct (H n eq_refl) as (H1 & H2 & H3).
  - destruct (_ || _); [done|]. case_bool_decide as Hs; [|apply holds_content]. split; [by eapply H1|apply holds_content].
  - destruct (n_Status n) eqn:Hs; try done; (split; [|done]); [by eapply H2|by eapply H3].
Qed.

Lemma holds_starting g : starting g → (∀ id ok w err k, g = PWrite id ok w err k → writes id w) → holds g.
Proof. destruct g as [| | | | | | |id ok w err k| | | |]; try done. intros Hs Hw. destruct err; [done|].
  destruct k as [| | | | | | | | | | |r]; try done. split; [by eapply Hw|done].
Qed.
End holds.

Lemma take_step_go i w g :
  w_go w !! i = Some g →
  w_now (take_step i w) = w_now w ∧
  w_cp (take_step i w) = (go_step (w_now w) g (w_cp w)).2 ∧
  w_go (take_step i w) = <[i := (go_step (w_now w) g (w_cp w)).1]> (w_go w).
Proof. intros Hg. unfold take_step. rewrite Hg. by destruct (go_step (w_now w) g (w_cp w)). Qed.

(** An access changes the cache by one entry at most. *)
Lemma go_step_cache now g h id n e :
  pg_cache (cp_pg (go_step now g h).2) !! id = Some (n, e) →
  pg_cache (cp_pg h) !! id = Some (n, e) ∨
  ∃ q, g = PStore q n ∧ gc_id q = id ∧ e = now + pg_cacheTTL (cp_pg h).
Proof.
  destruct g as [i ts io s|i a b c d|q|q m x|q|q|q m|i ok w err k|i k|ev i k|i io c|r]; cbn [go_step].
  - destruct (RedisStore_SaveHeartbeat _ _ _ _ _ _) as [[] ?]; by left.
  - destruct (RedisStore_HasHeartbeat _ _ _ _ _). by left.
  - by left.
  - by left.
  - cbn. intros [_ H]%lookup_delete_Some. by left.
  - by left.
  - cbn. rewrite lookup_insert. case_decide as Hid; [|by left]. intros [= <- <-]. right. by exists q.
  - unfold exec_write. destruct ok; [|by left]. cbn [negb]. destruct (pg_nodes (cp_pg h) !! i).
    + destruct w; by left.
    + destruct (counts_rows w); by left.
  - cbn. intros [_ H]%lookup_delete_Some. by left.
  - by left.
  - cbn. destruct (cp_content h); by left.
  - by left.
Qed.

Lemma go_step_ttl now g h : pg_cacheTTL (cp_pg (go_step now g h).2) = pg_cacheTTL (cp_pg h).
Proof.
  destruct g as [i ts io s|i a b c d|q|q m x|q|q|q m|i ok w err k|i k|ev i k|i io c|r]; cbn [go_step]; try done.
  - by destruct (RedisStore_SaveHeartbeat _ _ _ _ _ _) as [[] ?].
  - by destruct (RedisStore_HasHeartbeat _ _ _ _ _).
  - unfold exec_write. destruct ok; [|done]. cbn [negb]. destruct (pg_nodes (cp_pg h) !! i); [by destruct w|by destruct (counts_rows w)].
  - cbn. by destruct (cp_content h).
Qed.

(** The goroutine keeps its kind of rows: an entry comes from the cache, a row from the table. *)
Lemma go_step_holds fresh stored writes now g h :
  holds fresh stored writes g →
  (∀ q n e, pg_cache (cp_pg h) !! gc_id q = Some (n, e) → fresh q n e) →
  (∀ q n, pg_nodes (cp_pg h) !! gc_id q = Some n → stored q n) →
  (∀ id, writes id WSeen) →
  (∀ q n, ((∃ e, fresh q n e ∧ now < e) ∨ stored q n) → holds fresh stored writes (got q (Ok n))) →
  holds fresh stored writes (go_step now g h).1.
Proof.
  intros Hg Hf Hs Hwseen Hgot.
  assert (Herr : ∀ q e, holds fresh stored writes (got q (Err e))) by (intros q e; by apply holds_got).
  destruct g as [i ts io s|i a b c d|q|q m x|q|q|q m|i ok w err k|i k|ev i k|i io c|r]; cbn [go_step]; try done.
  - destruct (RedisStore_SaveHeartbeat _ _ _ _ _ _) as [[] ?]; done.
  - destruct (RedisStore_HasHeartbeat _ _ _ _ _) as [[] ?]; done.
  - destruct (pg_cache (cp_pg h) !! gc_id q) as [[n e]|] eqn:E; [|done]. by apply Hf.
  - cbn [fst]. destruct (now <? x) eqn:E; [|done]. apply Hgot. left. exists x. split; [done|lia].
  - cbn [fst]. destruct (negb _); [done|]. destruct (pg_nodes (cp_pg h) !! gc_id q) as [n|] eqn:E; [|done]. by apply Hs.
  - apply Hgot. by right.
  - destruct Hg as [_ Hk]. destruct (exec_write _ _ _ _ _); done.
Qed.

(** A row changes by a write of it alone. *)
Lemma go_step_row now g h id :
  pg_nodes (cp_pg (go_step now g h).2) !! id = pg_nodes (cp_pg h) !! id ∨
  ∃ ok w err k, g = PWrite id ok w err k ∧
    pg_nodes (cp_pg (go_step now g h).2) !! id =
    match w with WRevoke => None | _ => write_node w now <$> pg_nodes (cp_pg h) !! id end.
Proof.
  destruct g as [i ts io s|i a b c d|q|q m x|q|q|q m|i ok w err k|i k|ev i k|i io c|r]; cbn [go_step]; try by left.
  - left. by destruct (RedisStore_SaveHeartbeat _ _ _ _ _ _) as [[] ?].
  - left. by destruct (RedisStore_HasHeartbeat _ _ _ _ _).
  - unfold exec_write. destruct ok; [|by left]. cbn [negb]. destruct (pg_nodes (cp_pg h) !! i) as [n|] eqn:Hn.
    + destruct (decide (i = id)) as [->|Hne].
      * right. exists true, w, err, k. split; [done|]. destruct w; cbn; rewrite ?lookup_alter_eq, ?lookup_delete_eq, ?Hn; done.
      * left. destruct w; cbn; by rewrite ?lookup_alter_ne, ?lookup_delete_ne by done.
    + left. by destruct (counts_rows w).
  - left. cbn. by destruct (cp_content h).
Qed.

Lemma forall_insert {A} (P : A → Prop) (l : list A) i x : Forall P l → P x → Forall P (<[i := x]> l).
Proof. intros Hl Hx. by apply Forall_insert. Qed.

(** ** A disabled node of which nobody holds an older row *)
Definition disabled (n : Node) : Prop := n_Status n = NodeStatusDisabled.
Definition keeps_disabled (w : rowWrite) : Prop :=
  match w with WStatus st => st = NodeStatusDisabled | WEnable => False | _ => True end.
Definition tame (id : string) : goroutine → Prop :=
  holds (λ q n _, gc_id q = id → disabled n) (λ q n, gc_id q = id → disabled n) (λ i w, i = id → keeps_disabled w).

Record disabled_settled (id : string) (w : world) : Prop := {
  st_row : ∀ n, pg_nodes (cp_pg (w_cp w)) !! id = Some n → disabled n;
  st_cache : ∀ n e, pg_cache (cp_pg (w_cp w)) !! id = Some (n, e) → disabled n;
  st_go : Forall (tame id) (w_go w)
}.

Lemma tame_got id q n : (gc_id q = id → disabled n) → tame id (got q (Ok n)).
Proof.
  intros H. apply holds_got. intros m [= <-]. unfold disabled in H.
  split_and!; [intros ? ? _ Hs Hq|intros ? _ Hs Hq..]; specialize (H Hq); congruence.
Qed.

Lemma settled_step id w w' : disabled_settled id w → world_step (tame id) w w' → disabled_settled id w'.
Proof.
  intros [Hr Hc Hg] Hs. destruct Hs as [now Hn|g Hg' Hst|i g Hi Hret].
  - by split.
  - split; [done|done|]. cbn. apply Forall_app. split; [done|]. by constructor.
  - destruct (take_step_go i w g Hi) as (_ & Hcp & Hgo).
    assert (Hgt : tame id g) by (by eapply Forall_lookup_1).
    split; rewrite ?Hcp, ?Hgo.
    + intros n. destruct (go_step_row (w_now w) g (w_cp w) id) as [->|(ok & wr & err & k & -> & ->)]; [apply Hr|].
      destruct Hgt as [Hw _]. specialize (Hw eq_refl). destruct (pg_nodes (cp_pg (w_cp w)) !! id) as [m|] eqn:Hm; [|by destruct wr].
      specialize (Hr _ eq_refl). unfold disabled in *.
      destruct wr as [| | |reason [until|]| |]; cbn in Hw |- *; try done; intros [= <-]; done.
    + intros n e Hl. apply go_step_cache in Hl as [Hl|(q & -> & Hq & _)]; [by eapply Hc|]. by apply Hgt.
    + apply forall_insert; [done|]. apply go_step_holds; [done| | |done|].
      * intros q n e Hl Hq. rewrite Hq in Hl. by eapply Hc.
      * intros q n Hl Hq. rewrite Hq in Hl. by apply Hr.
      * intros q n [(e & H & _)|H]; by apply tame_got.
Qed.

(** Disabled nodes under concurrency: from a moment at which the row is DISABLED,
    the cache has no other row of the node and no goroutine holds one or is about to write
    another status, the node stays disabled and is never listed, whatever heartbeats, health
    checks, probes, reads and administrators interleave and whatever fails, until somebody
    enables it. *)
Theorem settled_disabled_stays id w w' :
  disabled_settled id w → rtc (world_step (tame id)) w w' →
  ∀ n, pg_nodes (cp_pg (w_cp w')) !! id = Some n → n_Status n = NodeStatusDisabled ∧ listed n = false.
Proof.
  intros Hset Hs. assert (Hset' : disabled_settled id w') by (clear -Hset Hs; induction Hs; eauto using settled_step).
  intros n Hn. pose proof (st_row _ _ Hset' n Hn) as H. split; [done|]. unfold listed. by rewrite H.
Qed.

(** ** Reads settle *)

(** The answer a goroutine gives to [GetNode] with its next access. *)
Definition answering (now : Z) (g : goroutine) : option (string * Node) :=
  match g with
  | PFresh q n e => if now <? e then Some (gc_id q, n) else None
  | PStore q n => Some (gc_id q, n)
  | _ => None
  end.

Definition w_ttl (w : world) : Z := pg_cacheTTL (cp_pg (w_cp w)).

Section settle.
Context (id : string) (m : option Node) (B : Z).

Definition current : goroutine → Prop :=
  holds (λ q n e, gc_id q = id → m = Some n ∨ e ≤ B) (λ q n, gc_id q = id → m = Some n) (λ _ _, True).

(** The goroutines from the [k]th on have begun after the last change of the row. *)
Record settling (k : nat) (w : world) : Prop := {
  sl_row : pg_nodes (cp_pg (w_cp w)) !! id = m;
  sl_cache : ∀ n e, pg_cache (cp_pg (w_cp w)) !! id = Some (n, e) → m = Some n ∨ e ≤ B;
  sl_len : (k ≤ length (w_go w))%nat;
  sl_go : ∀ i g, (k ≤ i)%nat → w_go w !! i = Some g → current g
}.

Lemma current_starting g : starting g → current g.
Proof. intros H. by apply holds_starting. Qed.

Lemma settling_step k w w' :
  settling k w → row_kept id w w' → k = 0%nat ∨ w_now w + w_ttl w ≤ B → settling k w'.
Proof.
  intros [Hr Hc Hl Hg] [Hs Hkept] Hk. destruct Hs as [now Hn|g _ Hst|i g Hi Hret].
  - by split.
  - split; [done|done|cbn; rewrite length_app; cbn; lia|]. intros i g' Hi Hl'. cbn in Hl'.
    apply lookup_app_Some in Hl' as [Hl'|[_ Hl']]; [by eapply Hg|]. apply list_lookup_singleton_Some in Hl' as [_ <-].
    by apply current_starting.
  - rewrite Hr in Hkept. destruct (take_step_go i w g Hi) as (_ & Hcp & Hgo). split; [done| | |].
    + rewrite Hcp. intros n e Hl'. apply go_step_cache in Hl' as [Hl'|(q & -> & Hq & ->)]; [by apply Hc|].
      destruct Hk as [->|Hk]; [|by right]. left. by apply (Hg i (PStore q n) ltac:(lia) Hi).
    + rewrite Hgo, length_insert. done.
    + rewrite Hgo. intros j g' Hj Hl'. destruct (decide (j = i)) as [->|Hne].
      * rewrite list_lookup_insert_eq in Hl' by (by eapply lookup_lt_Some). injection Hl' as <-.
        specialize (Hg i g Hj Hi). apply go_step_holds; [done| | |done|].
        -- intros q n e Hq He. rewrite He in Hq. by apply Hc.
        -- intros q n Hq He. rewrite He in Hq. congruence.
        -- intros q n _. by apply holds_got.
      * rewrite list_lookup_insert_ne in Hl' by done. by eapply Hg.
Qed.
End settle.

Lemma world_step_clock P w w' : world_step P w w' → w_now w ≤ w_now w' ∧ w_ttl w' = w_ttl w.
Proof.
  destruct 1 as [now Hn|g _ _|i g Hi _]; [split; [done|done]|split; [cbn; lia|done]|].
  destruct (take_step_go i w g Hi) as (Hn & Hcp & _). rewrite Hn. split; [lia|]. unfold w_ttl. by rewrite Hcp, go_step_ttl.
Qed.

Lemma kept_clock id w w' : rtc (row_kept id) w w' → w_now w ≤ w_now w' ∧ w_ttl w' = w_ttl w.
Proof.
  induction 1 as [|w v w' [Hs _] _ [IH1 IH2]]; [split; [lia|done]|]. apply world_step_clock in Hs as [H1 H2]. split; [lia|congruence].
Qed.

(** No entry of the cache outlives its time to live. *)
Definition entries_bounded (w : world) : Prop :=
  ∀ id n e, pg_cache (cp_pg (w_cp w)) !! id = Some (n, e) → e ≤ w_now w + w_ttl w.

Lemma entries_bounded_step P w w' : entries_bounded w → world_step P w w' → entries_bounded w'.
Proof.
  intros Hb Hs. destruct (world_step_clock P w w' Hs) as [Hn Ht]. intros id n e Hl. rewrite Ht.
  destruct Hs as [now _|g _ _|i g Hi _]; [specialize (Hb _ _ _ Hl); lia|specialize (Hb _ _ _ Hl); cbn; lia|].
  destruct (take_step_go i w g Hi) as (Hn' & Hcp & _). rewrite Hcp in Hl.
  apply go_step_cache in Hl as [Hl|(q & _ & _ & ->)]; [specialize (Hb _ _ _ Hl); lia|]. rewrite Hn'. unfold w_ttl. lia.
Qed.

Lemma settling_run id m B k w w' :
  rtc (row_kept id) w w' → settling id m B k w → k = 0%nat ∨ w_now w' + w_ttl w ≤ B → settling id m B k w'.
Proof.
  induction 1 as [|w v w' Hs Hr IH]; intros Hi Hk; [done|].
  destruct (kept_clock _ _ _ Hr) as [Hv _]. pose proof (world_step_clock _ _ _ (proj1 Hs)) as [Hw Ht].
  apply IH; [|by rewrite Ht]. eapply settling_step; [done|done|]. destruct Hk as [->|Hk]; [by left|right]. lia.
Qed.

(** C20 (liveness): Reads under concurrency: after the last change of a node's row, when the
    goroutines that were under way have returned and then the time to live of the cache has
    passed, every answer of [GetNode] for the node is the row of the table, for a new call as
    for those in progress, whatever else interleaves and whatever fails. *)
Theorem reads_settle id w w0 w1 w2 :
  pg_cache (cp_pg (w_cp w)) = ∅ → rtc (world_step (λ _, True)) w w0 →
  rtc (row_kept id) w0 w1 → (∀ i g, (i < length (w_go w0))%nat → w_go w1 !! i = Some g → returned g = true) →
  rtc (row_kept id) w1 w2 → w_now w1 + w_ttl w0 ≤ w_now w2 →
  let row := pg_nodes (cp_pg (w_cp w2)) !! id in
  row = pg_nodes (cp_pg (w_cp w0)) !! id ∧
  (∀ ok n, (PGStore_GetNode ok (cp_pg (w_cp w2)) id (w_now w2)).1 = Ok n → row = Some n) ∧
  (∀ i g n, w_go w2 !! i = Some g → answering (w_now w2) g = Some (id, n) → row = Some n).
Proof.
  intros Hempty H0 H1 Hret H2 Httl row.
  assert (Hb : entries_bounded w0).
  { assert (Hb : entries_bounded w) by (intros i n e; by rewrite Hempty).
    clear -Hb H0. induction H0; eauto using entries_bounded_step. }
  set (m := pg_nodes (cp_pg (w_cp w0)) !! id). set (B := w_now w1 + w_ttl w0).
  assert (Hs0 : settling id m B (length (w_go w0)) w0).
  { split; [done| |done|].
    - intros n e Hl. right. apply Hb in Hl. destruct (kept_clock _ _ _ H1). unfold B. lia.
    - intros i g Hi Hl. apply lookup_lt_Some in Hl. lia. }
  destruct (settling_run _ _ _ _ _ _ H1 Hs0) as [Hr1 Hc1 _ Hg1]; [by right|].
  assert (Hs1 : settling id m B 0 w1).
  { split; [done|done|lia|]. intros i g _ Hl. destruct (decide (i < length (w_go w0))%nat) as [Hi|Hi].
    - specialize (Hret i g Hi Hl). by destruct g.
    - apply (Hg1 i g); [lia|done]. }
  destruct (settling_run _ _ _ _ _ _ H2 Hs1) as [Hr2 Hc2 _ Hg2]; [by left|].
  split_and!; [done| |].
  - intros ok n. subst row. rewrite Hr2. unfold PGStore_GetNode, query_node. cbn [pg_nodes PGStore_InvalidateNodeCache].
    rewrite Hr2. destruct (pg_cache (cp_pg (w_cp w2)) !! id) as [[n' e]|] eqn:E.
    + destruct (w_now w2 <? e) eqn:He; cbn [fst].
      * intros [= <-]. destruct (Hc2 _ _ eq_refl) as [|Hle]; [done|]. unfold B in Hle. bool_to_prop. lia.
      * destruct ok; cbn; [|done]. destruct m; [|done]. by intros [= <-].
    + destruct ok; cbn; [|done]. destruct m; [|done]. by intros [= <-].
  - intros i g n Hl Ha. subst row. rewrite Hr2. specialize (Hg2 i g (Nat.le_0_l _) Hl).
    destruct g as [| | |q n' e| | |q n'| | | | |]; try done; cbn in Ha, Hg2.
    + destruct (w_now w2 <? e) eqn:He; [|done]. injection Ha as Hq <-. bool_to_prop.
      destruct (Hg2 Hq) as [|Hle]; [done|]. unfold B in Hle. lia.
    + injection Ha as Hq <-. by apply Hg2.
Qed.

(** ** What concurrency breaks *)

(** A goroutine takes several accesses in a row. *)
Lemma alone_run P i n w g h' :
  w_go w !! i = Some g → rtc (world_step P) (mkWorld (alone n (w_now w) g (w_cp w)).2 (w_now w) (<[i := (alone n (w_now w) g (w_cp w)).1]> (w_go w))) h' →
  rtc (world_step P) w h'.
Proof.
  revert w g. induction n as [|n IH]; intros w g Hi Hr.
  - cbn [alone fst snd] in Hr. rewrite list_insert_id in Hr by done. by destruct w.
  - rewrite alone_step in Hr. destruct (returned g) eqn:Hret.
    + destruct g; try done. cbn [go_step fst snd] in Hr. rewrite alone_return in Hr. cbn [fst snd] in Hr.
      rewrite list_insert_id in Hr by done. by destruct w.
    + eapply rtc_l; [by apply (ws_access P w i g)|]. destruct (take_step_go i w g Hi) as (H1 & H2 & H3).
      eapply (IH _ (go_step (w_now w) g (w_cp w)).1); rewrite ?H3; [apply list_lookup_insert_eq; by eapply lookup_lt_Some|].
      rewrite H1, H2, list_insert_insert_eq. exact Hr.
Qed.

(** A read whose row is not cached queries the table. *)
Lemma alone_miss q now h n :
  pg_cache (cp_pg h) !! gc_id q = None → gc_ok q = true → pg_nodes (cp_pg h) !! gc_id q = Some n →
  alone 2 now (PLoad q) h = (PStore q n, h).
Proof. intros Hc Ho Hn. rewrite !alone_step. cbn [go_step fst snd]. rewrite Hc. cbn [go_step fst snd]. by rewrite Ho, Hn. Qed.

(** The accesses of a first heartbeat up to the update of the status. *)
Lemma alone_activating now h id ts n :
  pg_nodes (cp_pg h) !! id = Some n → n_Status n = NodeStatusRegistered →
  ∃ h', alone 6 now (processOne_go hb_fine id ts None) h =
      (PWrite id true (WStatus NodeStatusActive) (Some "activate node") (PEvent "node.online" id (PReturn (Ok None))), h') ∧
    pg_nodes (cp_pg h') !! id = Some (set_seen now n).
Proof.
  intros Hn Hst. unfold processOne_go. rewrite (alone_step 5). cbn [go_step hb_fine io_save io_seen io_get RedisStore_SaveHeartbeat negb fst snd].
  rewrite (alone_write WSeen true None _ 3). cbn [sequential_write PGStore_UpdateNodeLastSeen negb].
  set (h1 := with_pg _ _). set (q := mkGetCall _ _ _).
  assert (Hn1 : pg_nodes (cp_pg h1) !! id = Some (set_seen now n)).
  { subst h1. cbn. by rewrite lookup_alter_eq, Hn. }
  rewrite !alone_step. cbn [go_step fst snd]. assert (pg_cache (cp_pg h1) !! gc_id q = None) as -> by (cbn; apply lookup_delete_eq).
  cbn [go_step fst snd]. cbn [q gc_ok gc_id negb]. rewrite Hn1. cbn [go_step fst snd alone].
  unfold got. cbn [q gc_for gc_id n_Status set_seen]. rewrite Hst. eexists. split; [reflexivity|exact Hn1].
Qed.

(** C21 (error): A heartbeat overtakes an administrator: whenever a node's row is REGISTERED, the
    accesses of its first heartbeat and of a [NodeDisable] can interleave so that both
    succeed and the row is then ACTIVE, with the reason of the disabling, and listed. *)
Theorem disable_overtaken h now id ts reason until n :
  pg_nodes (cp_pg h) !! id = Some n → n_Status n = NodeStatusRegistered →
  ∃ w', rtc (world_step (λ _, True))
          (mkWorld h now [processOne_go hb_fine id ts None; write_go true id (WDisable reason until)]) w' ∧
    w_go w' = [PReturn (Ok None); PReturn (Ok None)] ∧
    ∃ n', pg_nodes (cp_pg (w_cp w')) !! id = Some n' ∧
      n_Status n' = NodeStatusActive ∧ listed n' = true ∧ n_DisableReason n' = reason.
Proof.
  intros Hn Hst. destruct (alone_activating now h id ts n Hn Hst) as (h1 & Ha & Hn1).
  set (f := write_node (WDisable reason until) now). set (n2 := f (set_seen now n)).
  assert (Hf : pg_nodes (PGStore_NodeDisable true (cp_pg h1) id reason until now).2 !! id = Some n2).
  { cbn. rewrite lookup_alter_eq, Hn1. subst n2 f. by destruct until. }
  eexists. split; [|split].
  - eapply (alone_run _ 0 6); [done|]. cbn [w_now w_cp w_go]. rewrite Ha.
    eapply (alone_run _ 1 2); [done|]. cbn [w_now w_cp w_go fst snd]. unfold write_go.
    rewrite (alone_write (WDisable reason until) true None _ 0). cbn [sequential_write PGStore_NodeDisable negb alone fst snd].
    eapply (alone_run _ 0 3); [done|]. cbn [w_now w_cp w_go fst snd].
    rewrite (alone_status id true NodeStatusActive "activate node" "node.online" (PReturn (Ok None)) 0). unfold PGStore_UpdateNodeStatus.
    cbn [negb with_pg cp_pg]. change (pg_nodes (update_row (cp_pg h1) id _)) with (pg_nodes (PGStore_NodeDisable true (cp_pg h1) id reason until now).2).
    rewrite Hf. cbn [alone fst snd]. reflexivity.
  - done.
  - exists (set_status NodeStatusActive now n2). cbn [w_cp Heartbeat_emit with_pg cp_pg].
    split; [|split_and!; [done|done|subst n2 f; by destruct until]].
    cbn [update_row PGStore_InvalidateNodeCache set_nodes pg_nodes]. rewrite lookup_alter_eq. cbn in Hf. by rewrite Hf.
Qed.

(** A read caches a row that is gone: the query of a read may precede a [NodeDisable]
    and its store follow it; for a whole time to live [GetNode] then answers the row as it
    was before. *)
Theorem stale_row_cached h now id reason until n :
  pg_nodes (cp_pg h) !! id = Some n → pg_cache (cp_pg h) !! id = None →
  ∃ w' n', rtc (world_step (λ _, True)) (mkWorld h now [GetNode_go true id; write_go true id (WDisable reason until)]) w' ∧
    w_go w' = [PReturn (Ok (Some n)); PReturn (Ok None)] ∧
    pg_nodes (cp_pg (w_cp w')) !! id = Some n' ∧ n_Status n' = NodeStatusDisabled ∧
    ∀ ok t, t < now + pg_cacheTTL (cp_pg h) → (PGStore_GetNode ok (cp_pg (w_cp w')) id t).1 = Ok n.
Proof.
  intros Hn Hc. eexists _, (write_node (WDisable reason until) now n). split; [|split; [|split; [|split]]].
  - eapply (alone_run _ 0 2); [done|]. cbn [w_now w_cp w_go]. unfold GetNode_go. erewrite alone_miss by done. cbn [fst snd].
    eapply (alone_run _ 1 2); [done|]. cbn [w_now w_cp w_go]. unfold write_go.
    rewrite (alone_write (WDisable reason until) true None _ 0). cbn [sequential_write PGStore_NodeDisable negb alone fst snd].
    eapply (alone_run _ 0 1); [done|]. cbn [w_now w_cp w_go alone go_step fst snd got gc_for]. reflexivity.
  - done.
  - cbn. rewrite lookup_alter_eq, Hn. by destruct until.
  - by destruct until.
  - intros ok t Ht. unfold PGStore_GetNode. cbn. rewrite lookup_insert_eq. by rewrite (proj2 (Z.ltb_lt t _) Ht).
Qed.

(** ** Concrete goroutines *)
Definition demo_reader : goroutine := GetNode_go true "n1".
Definition demo_disable : goroutine := write_go true "n1" (WDisable "broken" None).
Definition demo_beat : goroutine := processOne_go hb_fine "n1" 5 None.

(** The query of the read, the whole disabling; the store of the read; half a minute later. *)
Definition race_start : world := mkWorld (demo_cp NodeStatusActive) 5 [demo_reader; demo_disable].
Definition race_query : world := take_step 1 (take_step 1 (take_step 0 (take_step 0 race_start))).
Definition race_stored : world := take_step 0 race_query.
Definition race_later : world := mkWorld (w_cp race_stored) 35 (w_go race_stored).

Definition race_answer (w : world) (id : string) : option NodeStatus :=
  match (PGStore_GetNode true (cp_pg (w_cp w)) id (w_now w)).1 with Ok n => Some (n_Status n) | _ => None end.

Example race_answers :
  race_answer race_stored "n1" = Some NodeStatusActive ∧ race_answer race_later "n1" = Some NodeStatusDisabled.
Proof. vm_compute. done. Qed.

(** A heartbeat of a disabled node, up to its first statement. *)
Definition race_beaten : world := take_step 0 (take_step 0 (mkWorld (demo_cp NodeStatusDisabled) 5 [demo_beat])).
Definition disabled_row : Node := write_node (WDisable "broken" None) 5 (demo_row "n1" NodeStatusActive).

Ltac run_access i := eapply (ws_access _ _ i); [vm_compute; reflexivity|reflexivity].

Lemma reads_settle_witness :
  (PGStore_GetNode true (cp_pg (w_cp race_later)) "n1" 35).1 = Ok disabled_row ∧
  pg_nodes (cp_pg (w_cp race_later)) !! "n1" = Some disabled_row.
Proof.
  destruct (reads_settle "n1" race_start race_query race_stored race_later) as (_ & H & _).
  - reflexivity.
  - do 2 (eapply rtc_l; [run_access 0%nat|]). do 2 (eapply rtc_l; [run_access 1%nat|]). apply rtc_refl.
  - apply rtc_once. split; [run_access 0%nat|vm_compute; reflexivity].
  - intros i g Hi Hl. destruct i as [|[|i]]; vm_compute in Hl; [injection Hl as <-; reflexivity..|discriminate Hl].
  - apply rtc_once. split; [apply ws_tick; vm_compute; discriminate|reflexivity].
  - vm_compute. discriminate.
  - split; [vm_compute; reflexivity|]. apply (H true). vm_compute. reflexivity.
Defined.

Lemma settled_disabled_stays_witness :
  n_Status (set_seen 5 (demo_row "n1" NodeStatusDisabled)) = NodeStatusDisabled ∧
  pg_nodes (cp_pg (w_cp race_beaten)) !! "n1" = Some (set_seen 5 (demo_row "n1" NodeStatusDisabled)).
Proof.
  split; [|vm_compute; reflexivity].
  apply (settled_disabled_stays "n1" (mkWorld (demo_cp NodeStatusDisabled) 5 [demo_beat]) race_beaten).
  - split.
    + intros n Hn. vm_compute in Hn. injection Hn as <-. reflexivity.
    + intros n e Hl. vm_compute in Hl. discriminate Hl.
    + repeat constructor.
  - eapply rtc_l; [run_access 0%nat|]. apply rtc_once. run_access 0%nat.
  - vm_compute. reflexivity.
Defined.

Lemma disable_overtaken_witness :
  ∃ w', rtc (world_step (λ _, True)) (mkWorld (demo_cp NodeStatusRegistered) 5 [demo_beat; demo_disable]) w' ∧
    w_go w' = [PReturn (Ok None); PReturn (Ok None)] ∧
    ∃ n', pg_nodes (cp_pg (w_cp w')) !! "n1" = Some n' ∧
      n_Status n' = NodeStatusActive ∧ listed n' = true ∧ n_DisableReason n' = "broken".
Proof.
  apply (disable_overtaken (demo_cp NodeStatusRegistered) 5 "n1" 5 "broken" None (demo_row "n1" NodeStatusRegistered)); reflexivity.
Defined.

Lemma stale_row_cached_witness :
  ∃ w' n', rtc (world_step (λ _, True)) race_start w' ∧
    w_go w' = [PReturn (Ok (Some (demo_row "n1" NodeStatusActive))); PReturn (Ok None)] ∧
    pg_nodes (cp_pg (w_cp w')) !! "n1" = Some n' ∧ n_Status n' = NodeStatusDisabled ∧
    ∀ ok t, t < 5 + 30 → (PGStore_GetNode ok (cp_pg (w_cp w')) "n1" t).1 = Ok (demo_row "n1" NodeStatusActive).
Proof.
  apply (stale_row_cached (demo_cp NodeStatusActive) 5 "n1" "broken" None (demo_row "n1" NodeStatusActive)); reflexivity.
Defined.
