(* ===== verification/OriginServer.v ===== *)
(** * The origin server as a process ([main] in [cmd/origin/main.go])

    [main] creates the data directory, puts a sample file into it when it finds it empty,
    and serves "/obj/*" and "/healthz" until a signal arrives.  The data directory is a tree
    of directories and files ([dataTree]); the failures of the system calls and the random
    bytes are arguments of the start; which route a path takes is decided by the router of
    the chi library.  The handler of "/obj/*" is [Origin.serveOrigin]; [tree_fs] is the file
    system it sees.

    The theorems: an origin that finds its directory empty serves the random bytes under
    "video/sample.mp4", whole and by range; one that finds anything in it changes nothing,
    so that a first start that fails after it has created the directory "video" leaves an
    origin that never has a sample. *)

From stdpp Require Import gmap strings list.
From S2P Require Import Prelude GoStrings GoHash GoJson StreamKeys SlidingWindow EdgeCache Fetcher EdgeServer Config Origin.
From Stdlib Require Import Ascii ZifyBool.

(** ** The start *)

(** What lies below the data directory, by the segments of the paths. *)
Record dataTree := mkDataTree {
  dt_dirs : gset (list chars);
  dt_files : gmap (list chars) bytes
}.
Definition no_entries (t : dataTree) : bool := bool_decide (dt_dirs t = ∅) && bool_decide (dt_files t = ∅).

(** What [os.WriteFile] leaves. *)
Inductive writeOutcome := WriteDone | WriteNothing | WritePart (n : nat).

(** The outcomes of the system calls of a start; [os_rand]: the megabyte of
    random bytes, if it could be read. *)
Record startIO := mkStartIO {
  os_mkdir : bool;
  os_readdir : bool;
  os_mkdir_sample : bool;
  os_rand : option bytes;
  os_write : writeOutcome
}.

Definition sample_dir : list chars := [to_chars "video"].
Definition sample_file : list chars := [to_chars "video"; to_chars "sample.mp4"].

Definition put_file (p : list chars) (data : bytes) (t : dataTree) : dataTree :=
  mkDataTree (dt_dirs t) (<[p := data]> (dt_files t)).
Definition add_dir (p : list chars) (t : dataTree) : dataTree := mkDataTree ({[p]} ∪ dt_dirs t) (dt_files t).

(** [main] before the router; an error ends the process with status 1. *)
Definition start_origin (io : startIO) (t : dataTree) : result unit * dataTree :=
  if negb (os_mkdir io) then (Err "failed to create data directory", t)
  else if negb (os_readdir io) then (Err "failed to read data directory", t)
  else if negb (no_entries t) then (Ok tt, t)
  else if negb (os_mkdir_sample io) then (Err "failed to create sample directory", t)
  else
    let t := add_dir sample_dir t in
    match os_rand io with
    | None => (Err "failed to generate random data", t)
    | Some data =>
        match os_write io with
        | WriteDone => (Ok tt, put_file sample_file data t)
        | WriteNothing => (Err "failed to write sample file", t)
        | WritePart n => (Err "failed to write sample file", put_file sample_file (take n data) t)
        end
    end.

(** ** The routes *)

(** Where the router sends a request; [OrNone]: its own answer. *)
Inductive originRoute := OrObject (key : string) | OrHealthz | OrNone (status : Z).

Definition origin_health : response :=
  mkResponse 200 {["Content-Type" := "application/json"]}
    (bytes_of_string (of_chars (to_chars "{" ++ [ascii_of_nat 34] ++ to_chars "status" ++ [ascii_of_nat 34] ++ to_chars ":" ++
       [ascii_of_nat 34] ++ to_chars "ok" ++ [ascii_of_nat 34] ++ to_chars "}"))).

Definition serve_route (fs : originFS) (dataDir : chars) (open_ok : bool) (path range : string) (rt : originRoute) : response :=
  match rt with
  | OrObject key => serveOrigin fs dataDir open_ok key path range
  | OrHealthz => origin_health
  | OrNone status => mkResponse status ∅ []
  end.

(** The listener: with both files it speaks TLS. *)
Definition origin_tls (cfg : OriginConfig) : bool :=
  negb (String.eqb (orc_TLSCertFile cfg) "") && negb (String.eqb (orc_TLSKeyFile cfg) "").

(** How the process ends: the listener returns an error (other than [http.ErrServerClosed])
    or a signal arrives; an error of [Shutdown] is only logged. *)
Inductive originEvent := EvListenError (server_closed : bool) | EvSignal (drained : bool).
Definition exit_status (ev : originEvent) : option Z :=
  match ev with
  | EvListenError true => None
  | EvListenError false => Some 1
  | EvSignal _ => Some 0
  end.

(** ** The file system of a tree *)
Definition below (dir segs : list chars) : option (list chars) :=
  if bool_decide (take (length dir) segs = dir) then Some (drop (length dir) segs) else None.

(** [fs_stat] of the paths below the data directory; [sys] is the rest of the system. *)
Definition tree_stat (dataDir : chars) (t : dataTree) (sys : originFS) (p : chars) : fileEntry :=
  match below (base_segments dataDir) (base_segments p) with
  | Some rel =>
      match dt_files t !! rel with
      | Some data => EntryFile data
      | None => if bool_decide (rel = [] ∨ rel ∈ dt_dirs t)
                then EntryDir 4096 (dt_files t !! (rel ++ [to_chars "index.html"])) [] else EntryMissing
      end
  | None => fs_stat sys p
  end.
Definition tree_fs (dataDir : chars) (t : dataTree) (sys : originFS) : originFS :=
  mkOriginFS (tree_stat dataDir t sys) (fs_cwd sys) (fs_type sys) (fs_sniff sys).

Lemma base_segments_rooted segs : Forall plain_segment segs → base_segments (rooted segs) = segs.
Proof.
  intros Hs. unfold base_segments. cbn [head rooted]. rewrite bool_decide_eq_true_2 by done.
  destruct segs as [|s segs]; [reflexivity|]. rewrite split_rooted by done. rewrite clean_no_dots.
  - rewrite filter_cons_False by (by intros [? _]). rewrite app_nil_r, rev_involutive. apply filter_all.
    intros p Hp. eapply Forall_forall in Hs; [|exact Hp]. split; apply Hs.
  - constructor; [done|]. eapply Forall_impl; [exact Hs|]. intros p Hp. apply Hp.
Qed.

Lemma below_app dir rel : below dir (dir ++ rel) = Some rel.
Proof. unfold below. rewrite take_app_length, drop_app_length. by rewrite bool_decide_eq_true_2. Qed.

Lemma tree_file dataDir t sys rel data :
  Forall plain_segment (base_segments dataDir ++ rel) → dt_files t !! rel = Some data →
  tree_stat dataDir t sys (rooted (base_segments dataDir ++ rel)) = EntryFile data.
Proof. intros Hp Hl. unfold tree_stat. by rewrite base_segments_rooted, below_app, Hl. Qed.

(** A start leaves a tree with entries alone. *)
Lemma start_nonempty io t : no_entries t = false → (start_origin io t).2 = t.
Proof. intros H. unfold start_origin. rewrite H. by destruct (os_mkdir io), (os_readdir io). Qed.

Lemma start_sample io t data :
  no_entries t = true → os_mkdir io = true → os_readdir io = true → os_mkdir_sample io = true →
  os_rand io = Some data → os_write io = WriteDone →
  start_origin io t = (Ok tt, put_file sample_file data (add_dir sample_dir t)).
Proof. intros H1 H2 H3 H4 H5 H6. unfold start_origin. by rewrite H1, H2, H3, H4, H5, H6. Qed.

Definition sample_key : string := "video/sample.mp4".

(** The answer to a request of the sample. *)
Definition sample_answer (sys : originFS) (dataDir : chars) (data : bytes) (open_ok : bool) (range : string) : response :=
  if String.eqb range "" then serve_content sys (rooted (base_segments dataDir ++ sample_file)) data
  else
    let size := Z.of_nat (length data) in
    match parseHTTPRange range size with
    | Ok (start, end_) =>
        mkResponse 206 (<["Content-Length" := decimal (end_ - start + 1)]>
            (<["Content-Range" := content_range start end_ size]> accept_ranges))
          (if open_ok then take (Z.to_nat (end_ - start + 1)) (drop (Z.to_nat start) data) else [])
    | _ => error_with (<["Content-Range" := of_chars (to_chars "bytes */" ++ format_int 10 size)]> accept_ranges) "invalid range" 416
    end.

(** A first start: an origin whose (absolute) data directory is not the root and is
    empty starts, when no call fails, and then answers a request of "video/sample.mp4" with
    the random bytes, or with the range of them that is asked for; every later start leaves
    the tree alone, so it answers the same. *)
Theorem fresh_origin_serves_sample io io' t dataDir sys data open_ok range :
  head dataDir = Some slash → base_segments dataDir ≠ [] →
  no_entries t = true → os_mkdir io = true → os_readdir io = true → os_mkdir_sample io = true →
  os_rand io = Some data → os_write io = WriteDone →
  let '(r, t1) := start_origin io t in
  r = Ok tt ∧ (start_origin io' t1).2 = t1 ∧
  serve_route (tree_fs dataDir t1 sys) dataDir open_ok (origin_path sample_key) range (OrObject sample_key) =
    sample_answer sys dataDir data open_ok range.
Proof.
  intros Hd Hdir He H1 H2 H3 H4 H5. rewrite (start_sample io t data) by done. set (t1 := put_file _ _ _).
  split; [done|]. split.
  { apply start_nonempty. unfold no_entries. rewrite (bool_decide_eq_false_2 (dt_files t1 = ∅)), andb_false_r; [done|].
    subst t1. cbn. apply insert_non_empty. }
  cbn [serve_route].
  destruct (origin_serves (tree_fs dataDir t1 sys) dataDir open_ok sample_key range) as [Hp ->]; [done|done|done|reflexivity|].
  change (key_segments (to_chars sample_key)) with sample_file in *. rewrite bool_decide_eq_false_2 by tauto.
  unfold serve_entry. cbn [fs_stat tree_fs]. rewrite (tree_file _ _ _ _ data) by (done || apply lookup_insert_eq).
  unfold sample_answer. cbn [info_Size file_data]. by destruct (String.eqb range "").
Qed.

(** A start that fails: when the random bytes or the write fail after "video" has been
    created, the origin ends with status 1, and every later start finds the tree not empty
    and leaves it as it is; unless the failed write left a part of it, the sample is never
    found. *)
Theorem failed_start_loses_sample io t dataDir sys open_ok range :
  head dataDir = Some slash → base_segments dataDir ≠ [] →
  no_entries t = true → os_mkdir io = true → os_readdir io = true → os_mkdir_sample io = true →
  os_rand io = None ∨ os_write io = WriteNothing →
  let '(r, t1) := start_origin io t in
  r ≠ Ok tt ∧
  (∀ ios, foldl (λ t io, (start_origin io t).2) t1 ios = t1) ∧
  serve_route (tree_fs dataDir t1 sys) dataDir open_ok (origin_path sample_key) range (OrObject sample_key) =
    http_Error "not found" 404.
Proof.
  intros Hd Hdir He H1 H2 H3 Hf. set (t1 := add_dir sample_dir t).
  assert (dt_dirs t = ∅ ∧ dt_files t = ∅) as [Hdirs Hempty].
  { apply andb_true_iff in He as [Ha Hb]. by apply bool_decide_eq_true in Ha, Hb. }
  assert (∃ e, start_origin io t = (Err e, t1)) as [e ->].
  { unfold start_origin. rewrite He, H1, H2, H3. cbn [negb]. destruct Hf as [-> | ->]; [by eexists|].
    destruct (os_rand io); by eexists. }
  assert (Hne : no_entries t1 = false).
  { unfold no_entries. rewrite (bool_decide_eq_false_2 (dt_dirs t1 = ∅)); [done|]. subst t1. cbn. set_solver. }
  split; [done|]. split.
  { intros ios. induction ios as [|io' ios IH]; [done|]. cbn [foldl]. by rewrite start_nonempty. }
  cbn [serve_route].
  destruct (origin_serves (tree_fs dataDir t1 sys) dataDir open_ok sample_key range) as [Hp ->]; [done|done|done|reflexivity|].
  change (key_segments (to_chars sample_key)) with sample_file in *. rewrite bool_decide_eq_false_2 by tauto.
  unfold serve_entry. cbn [fs_stat tree_fs]. unfold tree_stat. rewrite base_segments_rooted, below_app by done.
  subst t1. cbn [dt_files dt_dirs add_dir]. rewrite Hempty, lookup_empty, bool_decide_eq_false_2; [done|].
  rewrite Hdirs. intros [H|H]; [done|].
  apply elem_of_union in H as [H|H]; [|set_solver]. by apply elem_of_singleton in H.
Qed.

(** ** Concrete starts *)
Definition demo_sys : originFS := demo_fs.
Definition demo_tree : dataTree := mkDataTree ∅ ∅.
Definition fine_start (rand : option bytes) : startIO := mkStartIO true true true rand WriteDone.

Lemma fresh_origin_serves_sample_witness :
  rs_body (serve_route (tree_fs demo_dir (start_origin (fine_start (Some demo_body)) demo_tree).2 demo_sys) demo_dir true
    (origin_path sample_key) "" (OrObject sample_key)) = demo_body.
Proof.
  destruct (fresh_origin_serves_sample (fine_start (Some demo_body)) (fine_start None) demo_tree demo_dir demo_sys demo_body true "")
    as (_ & _ & H).
  - reflexivity.
  - vm_compute. discriminate.
  - reflexivity.
  - reflexivity.
  - reflexivity.
  - reflexivity.
  - reflexivity.
  - reflexivity.
  - exact (f_equal rs_body H).
Defined.

Lemma failed_start_loses_sample_witness :
  rs_status (serve_route (tree_fs demo_dir (start_origin (fine_start None) demo_tree).2 demo_sys) demo_dir true
    (origin_path sample_key) "" (OrObject sample_key)) = 404.
Proof.
  destruct (failed_start_loses_sample (fine_start None) demo_tree demo_dir demo_sys true "") as (_ & _ & H).
  - reflexivity.
  - vm_compute. discriminate.
  - reflexivity.
  - reflexivity.
  - reflexivity.
  - reflexivity.
  - left. reflexivity.
  - exact (f_equal rs_status H).
Defined.
