(* ===== verification/AdminPages.v ===== *)
(** * The pages of the admin console ([internal/controlplane/adminui/spa.go])

    The console is an application of one page: files embedded in the program, and
    "index.html" for every path that names none of them, so that the application can route
    by itself.  [SPAHandler] removes "/admin" from the path and hands the request to
    [http.FileServer], whose [serveFile] is modelled here for requests without conditional
    headers; the embedded file system is an argument.  [browse] follows the redirects as a
    browser does, and [combined_target] (of [ApiRoutes]) says which handler of the process a
    path reaches.

    The theorems: every path below "/admin/" ends, after at most two redirects for each of
    its segments and one more, at a file of the console or at "index.html"; but "/admin"
    itself is redirected to "/", which is not a path of the console. *)

From S2P Require Import Prelude GoStrings GoHash GoJson StreamKeys Fetcher Config Origin ApiRoutes.
From Stdlib Require Import Ascii ZifyBool.

(** ** The embedded files *)
Inductive spaFile :=
| SpFile (data : bytes)
| SpDir
| SpMissing    (* an error for which [os.IsNotExist] holds *)
| SpError.

(** [http.FS]: the name without its leading slash, and "." for the root. *)
Definition fs_name (name : chars) : chars := if bool_decide (name = [slash]) then [dot] else trim_prefix [slash] name.
Definition index_name : chars := to_chars "index.html".

Section pages.
Context (webui : chars → spaFile).

(** [spaFileSystem.Open]. *)
Definition spa_Open (name : chars) : spaFile :=
  match webui (fs_name name) with SpMissing => webui (fs_name index_name) | f => f end.

(** ** [http.FileServer] *)
Inductive pageAnswer :=
| PaFile (data : bytes)
| PaRedirect (location : chars)
| PaListing
| PaError (status : Z).

(** [path.Base]. *)
Fixpoint drop_slashes (l : chars) : chars :=
  match l with c :: l' => if bool_decide (c = slash) then drop_slashes l' else l | [] => [] end.
Definition path_base (p : chars) : chars :=
  match p with
  | [] => [dot]
  | _ =>
      let p := rev (drop_slashes (rev p)) in
      let b := match last_index [slash] p with Some i => drop (S i) p | None => p end in
      if bool_decide (b = []) then [slash] else b
  end.

Definition index_page : chars := to_chars "/index.html".

(** [serveFile] with [redirect] set; [url] is the path of the request, [name] the cleaned one. *)
Definition serveFile (url name : chars) : pageAnswer :=
  if has_suffix index_page url then PaRedirect (to_chars "./")
  else
    let slashed := has_suffix [slash] url in
    match spa_Open name with
    | SpMissing => PaError 404
    | SpError => PaError 500
    | SpFile data =>
        if slashed then
          let base := path_base url in
          if bool_decide (base = [slash]) || bool_decide (base = [dot]) then PaError 500
          else PaRedirect (to_chars "../" ++ base)
        else PaFile data
    | SpDir =>
        if negb slashed then PaRedirect (path_base url ++ [slash])
        else match spa_Open (trim_suffix [slash] name ++ index_page) with
             | SpFile data => PaFile data
             | _ => PaListing
             end
    end.

Definition FileServer (path : chars) : pageAnswer :=
  let upath := if has_prefix [slash] path then path else slash :: path in
  serveFile upath (path_Clean upath).

Definition admin_prefix : chars := to_chars "/admin".

(** The handler of [SPAHandler]. *)
Definition SPAHandler (path : chars) : pageAnswer :=
  let p := trim_prefix admin_prefix path in
  FileServer (if bool_decide (p = []) then index_page else p).

(** ** A browser *)

(** The path a relative reference names (RFC 3986, for paths without empty segments). *)
Definition resolve (path ref : chars) : chars :=
  let p := match last_index [slash] path with Some i => take (S i) path | None => [slash] end ++ ref in
  let c := path_Clean p in
  if has_suffix [slash] p && negb (bool_decide (c = [slash])) then c ++ [slash] else c.

(** The console as the process serves it ([combinedHandler]): [None] when the path is not
    one of the console's. *)
Definition console_page (console : bool) (path : chars) : option pageAnswer :=
  match combined_target console (of_chars path) with ToPages => Some (SPAHandler path) | _ => None end.

(** Following redirects. *)
Inductive visit := VisitPage (data : bytes) | VisitLost (path : chars) | VisitError | VisitMore.
Fixpoint browse (fuel : nat) (console : bool) (path : chars) : visit :=
  match console_page console path with
  | None => VisitLost path
  | Some (PaFile data) => VisitPage data
  | Some (PaRedirect ref) => match fuel with O => VisitMore | S fuel => browse fuel console (resolve path ref) end
  | Some _ => VisitError
  end.

(** ** Paths below "/admin" *)
Definition adm : chars := to_chars "admin".
Definition file_path (segs : list chars) : chars := rooted (adm :: segs).
Definition dir_path (segs : list chars) : chars := file_path segs ++ [slash].

Lemma rooted_snoc segs b : segs ≠ [] → rooted (segs ++ [b]) = rooted segs ++ slash :: b.
Proof. intros H. unfold rooted. by rewrite join_app. Qed.
Lemma file_path_snoc segs b : file_path (segs ++ [b]) = dir_path segs ++ b.
Proof. unfold dir_path, file_path. change (adm :: segs ++ [b]) with ((adm :: segs) ++ [b]). rewrite rooted_snoc by done. by rewrite <- app_assoc. Qed.
Lemma file_path_prefix segs : segs ≠ [] → file_path segs = admin_prefix ++ rooted segs.
Proof. intros H. destruct segs as [|s segs]; [done|]. reflexivity. Qed.

Lemma adm_plain segs : Forall plain_segment segs → Forall plain_segment (adm :: segs).
Proof. intros H. constructor; [|done]. split_and!; try done. cbn. set_solver. Qed.

Lemma tail_split segs ref :
  Forall plain_segment segs → split_on slash (dir_path segs ++ ref) = [] :: (adm :: segs) ++ split_on slash ref.
Proof.
  intros Hs. unfold dir_path. rewrite <- app_assoc. cbn [app]. rewrite split_on_app. unfold file_path.
  by rewrite split_rooted by (done || by apply adm_plain).
Qed.

(** A reference against the directory of a path. *)
Lemma clean_ref segs ref :
  Forall plain_segment segs →
  path_Clean (dir_path segs ++ ref) = rooted (rev (clean_path true (rev (adm :: segs)) (split_on slash ref))).
Proof.
  intros Hs. rewrite clean_of_rooted by done. f_equal. unfold base_segments. cbn [head dir_path file_path rooted app].
  rewrite bool_decide_eq_true_2 by done. change (slash :: (join_with slash (adm :: segs) ++ [slash]) ++ ref) with (dir_path segs ++ ref).
  rewrite tail_split by done. change ([] :: (adm :: segs) ++ split_on slash ref) with (([] :: adm :: segs) ++ split_on slash ref).
  rewrite clean_path_app. pose proof (adm_plain _ Hs) as Ha. f_equal. f_equal. rewrite clean_no_dots.
  - rewrite app_nil_r, filter_cons_False by (by intros [? _]). f_equal. apply filter_all.
    intros p Hp. eapply Forall_forall in Ha; [|exact Hp]. split; apply Ha.
  - constructor; [done|]. eapply Forall_impl; [exact Ha|]. intros p Hp. apply Hp.
Qed.

Lemma resolve_dir segs ref :
  resolve (dir_path segs) ref =
  let p := dir_path segs ++ ref in
  let c := path_Clean p in if has_suffix [slash] p && negb (bool_decide (c = [slash])) then c ++ [slash] else c.
Proof.
  unfold resolve, dir_path. assert (last_index [slash] (file_path segs ++ [slash]) = Some (length (file_path segs))) as ->.
  { apply (last_index_app [] slash (file_path segs) []). by apply not_elem_of_nil. }
  rewrite take_ge; [done|]. rewrite length_app. cbn. lia.
Qed.

Lemma resolve_file segs b ref : plain_segment b → resolve (file_path (segs ++ [b])) ref = resolve (dir_path segs) ref.
Proof.
  intros (Hb & _ & _ & Hsl). rewrite resolve_dir. unfold resolve. rewrite file_path_snoc.
  assert (last_index [slash] (dir_path segs ++ b) = Some (length (file_path segs))) as ->.
  { unfold dir_path. rewrite <- app_assoc. by apply (last_index_app [] slash (file_path segs) b). }
  assert (S (length (file_path segs)) = length (dir_path segs)) as -> by (unfold dir_path; rewrite length_app; cbn; lia).
  by rewrite take_app_length.
Qed.

Lemma ends_slash l : has_suffix [slash] (l ++ [slash]) = true.
Proof. unfold has_suffix. rewrite rev_app_distr. cbn. by rewrite bool_decide_eq_true_2. Qed.
Lemma ends_plain l b : b ≠ [] → slash ∉ b → has_suffix [slash] (l ++ b) = false.
Proof.
  intros Hb Hsl. unfold has_suffix. rewrite rev_app_distr. destruct (rev b) as [|c r] eqn:E.
  - apply (f_equal (@rev _)) in E. rewrite rev_involutive in E. done.
  - cbn. rewrite bool_decide_eq_false_2; [done|]. intros <-. apply Hsl. rewrite <- (rev_involutive b), E. cbn [rev]. set_solver.
Qed.

Lemma rooted_adm segs : bool_decide (rooted (adm :: segs) = [slash]) = false.
Proof. apply bool_decide_eq_false_2. by destruct segs. Qed.

(** The three redirects of [serveFile]. *)
Lemma resolve_here segs : Forall plain_segment segs → resolve (dir_path segs) (to_chars "./") = dir_path segs.
Proof.
  intros Hs. rewrite resolve_dir. cbv zeta. rewrite clean_ref by done.
  change (clean_path true (rev (adm :: segs)) (split_on slash (to_chars "./"))) with (rev (adm :: segs)).
  rewrite rev_involutive, rooted_adm. change (to_chars "./") with ([dot] ++ [slash]). by rewrite app_assoc, ends_slash.
Qed.

Lemma resolve_up segs b :
  Forall plain_segment (segs ++ [b]) → resolve (dir_path (segs ++ [b])) (to_chars "../" ++ b) = file_path (segs ++ [b]).
Proof.
  intros Hs. pose proof Hs as Hs'. apply Forall_app in Hs' as [_ Hb]. apply (proj1 (Forall_singleton _ _)) in Hb.
  pose proof Hb as (Hne & Hdot & Hdd & Hsl). rewrite resolve_dir. cbv zeta. rewrite clean_ref by done.
  change (to_chars "../" ++ b) with ([dot; dot] ++ slash :: b). rewrite split_on_app.
  change (split_on slash [dot; dot]) with [[dot; dot]]. rewrite (split_on_no_occ slash b) by done. cbn [app].
  change (adm :: segs ++ [b]) with ((adm :: segs) ++ [b]). rewrite rev_app_distr. cbn [rev app clean_path].
  rewrite (bool_decide_eq_false_2 ([dot; dot] = [])), (bool_decide_eq_false_2 ([dot; dot] = [dot])) by done. cbn [orb].
  rewrite (bool_decide_eq_true_2 ([dot; dot] = [dot; dot])) by done. cbn [clean_path].
  rewrite !(bool_decide_eq_false_2 (b = [dot; dot])) by done. cbn [clean_path].
  rewrite (bool_decide_eq_false_2 (b = [])), (bool_decide_eq_false_2 (b = [dot])) by done. cbn [orb rev].
  rewrite rev_app_distr, rev_involutive. cbn [rev app].
  assert (has_suffix [slash] (dir_path (segs ++ [b]) ++ dot :: dot :: slash :: b) = false) as ->; [|done].
  change (dot :: dot :: slash :: b) with ([dot; dot; slash] ++ b). rewrite app_assoc. by apply ends_plain.
Qed.

Lemma resolve_into segs b :
  Forall plain_segment (segs ++ [b]) → resolve (dir_path segs) (b ++ [slash]) = dir_path (segs ++ [b]).
Proof.
  intros Hs. pose proof Hs as Hs'. apply Forall_app in Hs' as [Hi Hb]. apply (proj1 (Forall_singleton _ _)) in Hb.
  destruct Hb as (Hne & Hdot & Hdd & Hsl). rewrite resolve_dir. cbv zeta. rewrite clean_ref by done.
  change (b ++ [slash]) with (b ++ slash :: []). rewrite split_on_app_no_sep by done. cbn [split_on clean_path].
  rewrite (bool_decide_eq_false_2 (b = [])), (bool_decide_eq_false_2 (b = [dot])), (bool_decide_eq_false_2 (b = [dot; dot])) by done.
  cbn [orb]. rewrite (bool_decide_eq_true_2 (([] : chars) = [])) by done. cbn [orb rev app].
  rewrite rev_app_distr, rev_involutive. cbn [rev app].
  change (adm :: segs ++ [b]) with ((adm :: segs) ++ [b]).
  change (adm :: segs) with ([adm] ++ segs) at 1. rewrite app_assoc, ends_slash. cbn [app]. by rewrite rooted_adm.
Qed.

(** ** What a path below "/admin/" is answered *)

(** The path of the request as the file server sees it. *)
Definition url_file (segs : list chars) : chars := rooted segs.
Definition url_dir (segs : list chars) : chars := match segs with [] => [slash] | _ => rooted segs ++ [slash] end.

Lemma url_dir_admin segs : dir_path segs = admin_prefix ++ url_dir segs.
Proof. destruct segs as [|s segs]; [reflexivity|]. unfold dir_path. rewrite file_path_prefix by done. by rewrite <- app_assoc. Qed.

Lemma clean_url_dir segs : Forall plain_segment segs → path_Clean (url_dir segs) = rooted segs.
Proof.
  intros Hs. destruct segs as [|s segs]; [reflexivity|]. cbn [url_dir]. set (l := s :: segs) in *.
  rewrite clean_of_rooted by done. f_equal. unfold base_segments. cbn [head rooted app]. rewrite bool_decide_eq_true_2 by done.
  change (slash :: join_with slash l ++ [slash]) with (rooted l ++ slash :: []). rewrite split_on_app, split_rooted by done.
  rewrite clean_path_app. cbn [split_on clean_path]. rewrite !(bool_decide_eq_true_2 (([] : chars) = [])) by done. cbn [orb].
  rewrite clean_no_dots.
  - rewrite app_nil_r, rev_involutive. apply filter_all.
    intros p Hp. eapply Forall_forall in Hs; [|exact Hp]. split; apply Hs.
  - eapply Forall_impl; [exact Hs|]. intros p Hp. apply Hp.
Qed.

Lemma console_dir console segs :
  Forall plain_segment segs → console_page console (dir_path segs) = Some (serveFile (url_dir segs) (rooted segs)).
Proof.
  intros Hs. unfold console_page, combined_target. rewrite to_of_chars, url_dir_admin.
  assert (∃ l, url_dir segs = slash :: l) as [l Hl] by (destruct segs; by eexists).
  assert (has_prefix (to_chars "/internal/admin/v1") (admin_prefix ++ url_dir segs) = false) as -> by reflexivity. cbn [andb].
  rewrite Hl. assert (has_prefix (to_chars "/admin/") (admin_prefix ++ slash :: l) = true) as -> by apply (has_prefix_app (to_chars "/admin/") l).
  cbn [orb]. f_equal. unfold SPAHandler. rewrite trim_prefix_app, <- Hl.
  rewrite bool_decide_eq_false_2 by (by rewrite Hl). unfold FileServer.
  assert (has_prefix [slash] (url_dir segs) = true) as -> by (rewrite Hl; apply (has_prefix_app [slash])). by rewrite clean_url_dir.
Qed.

Lemma console_file console segs :
  Forall plain_segment segs → segs ≠ [] → console_page console (file_path segs) = Some (serveFile (rooted segs) (rooted segs)).
Proof.
  intros Hs Hne. unfold console_page, combined_target. rewrite to_of_chars, file_path_prefix by done.
  assert (has_prefix (to_chars "/internal/admin/v1") (admin_prefix ++ rooted segs) = false) as -> by reflexivity. cbn [andb].
  assert (has_prefix (to_chars "/admin/") (admin_prefix ++ rooted segs) = true) as ->
    by apply (has_prefix_app (to_chars "/admin/") (join_with slash segs)).
  cbn [orb]. f_equal. unfold SPAHandler. rewrite trim_prefix_app. rewrite bool_decide_eq_false_2 by done. unfold FileServer.
  assert (has_prefix [slash] (rooted segs) = true) as -> by apply (has_prefix_app [slash] (join_with slash segs)).
  by rewrite clean_rooted.
Qed.

(** The end of a path and its last segment. *)
Lemma prefix_of_segment x a b c : slash ∉ x → slash ∉ a → has_prefix (x ++ [slash]) (a ++ slash :: b) = true → c = a → x = c.
Proof.
  intros Hx Ha H ->. apply has_prefix_spec in H as [l Hl]. rewrite <- app_assoc in Hl. cbn [app] in Hl.
  revert a Ha Hl. induction x as [|y x IH]; intros a Ha Hl; destruct a as [|z a]; cbn [app] in Hl; [done| | |].
  - injection Hl as Hz _. exfalso. apply Ha. rewrite Hz. left.
  - injection Hl as Hz _. exfalso. apply Hx. rewrite <- Hz. left.
  - injection Hl as -> Hl. f_equal. apply IH; [set_solver..|done].
Qed.

Lemma ends_index l b : slash ∉ b → has_suffix index_page (l ++ slash :: b) = bool_decide (b = index_name).
Proof.
  intros Hb. unfold has_suffix. change index_page with (slash :: index_name). cbn [rev]. rewrite rev_app_distr. cbn [rev].
  rewrite <- app_assoc. cbn [app]. case_bool_decide as E.
  - subst b. apply has_prefix_spec. exists (rev l). by rewrite <- app_assoc.
  - destruct (has_prefix _ _) eqn:Hp; [|done]. exfalso. apply E. rewrite <- (rev_involutive b), <- (rev_involutive index_name). f_equal.
    symmetry. eapply prefix_of_segment; [| |exact Hp|done]; [by vm_compute; set_solver|].
    intros H. apply Hb. rewrite <- (rev_involutive b). by apply elem_of_rev.
Qed.

Lemma drop_slashes_plain l : head l ≠ Some slash → drop_slashes l = l.
Proof. destruct l as [|c l]; intros H; [done|]. cbn. rewrite bool_decide_eq_false_2; [done|]. intros ->. by apply H. Qed.

Lemma base_of l b : b ≠ [] → slash ∉ b → path_base (l ++ slash :: b) = b ∧ path_base (l ++ slash :: b ++ [slash]) = b.
Proof.
  intros Hb Hsl.
  assert (Hrev : ∀ m, drop_slashes (rev b ++ m) = rev b ++ m).
  { intros m. apply drop_slashes_plain. destruct (rev b) as [|c r] eqn:E.
    - apply (f_equal (@rev _)) in E. by rewrite rev_involutive in E.
    - cbn. intros [= ->]. apply Hsl. rewrite <- (rev_involutive b), E. cbn [rev]. set_solver. }
  assert (Hlast : ∀ p, p = l ++ slash :: b →
    (let b' := match last_index [slash] p with Some i => drop (S i) p | None => p end in if bool_decide (b' = []) then [slash] else b') = b).
  { intros p ->. assert (last_index [slash] (l ++ slash :: b) = Some (length l)) as -> by (by apply (last_index_app [] slash l b)).
    change (l ++ slash :: b) with (l ++ [slash] ++ b). rewrite app_assoc.
    replace (S (length l)) with (length (l ++ [slash])) by (rewrite length_app; cbn; lia).
    rewrite drop_app_length. cbv zeta. by rewrite bool_decide_eq_false_2. }
  split.
  - unfold path_base. destruct (l ++ slash :: b) as [|c p] eqn:E; [by destruct l|]. rewrite <- E. apply Hlast.
    rewrite rev_app_distr. cbn [rev]. rewrite <- app_assoc, Hrev. cbn [app].
    rewrite rev_app_distr. cbn [rev]. by rewrite !rev_involutive, <- app_assoc.
  - unfold path_base. destruct (l ++ slash :: b ++ [slash]) as [|c p] eqn:E; [by destruct l|]. rewrite <- E. apply Hlast.
    rewrite rev_app_distr. cbn [rev]. rewrite rev_app_distr. cbn [rev app drop_slashes]. rewrite bool_decide_eq_true_2 by done.
    rewrite <- app_assoc, Hrev. rewrite rev_app_distr. cbn [rev app]. by rewrite !rev_involutive, <- app_assoc.
Qed.

(** The embedded files: a directory with the file "index.html", where no "index.html" is a
    directory and reading does not fail. *)
Record webui_fine (index : bytes) : Prop := {
  wf_root : webui [dot] = SpDir;
  wf_index : webui index_name = SpFile index;
  wf_pages name : webui (fs_name (name ++ index_page)) ≠ SpDir;
  wf_errors name : webui name ≠ SpError
}.

(** The end of a visit at a file of the console. *)
Definition at_page (v : visit) : Prop := ∃ data name, v = VisitPage data ∧ webui name = SpFile data.

Lemma open_cases index name :
  webui_fine index → (spa_Open name = SpDir ∧ webui (fs_name name) = SpDir) ∨ ∃ data n, spa_Open name = SpFile data ∧ webui n = SpFile data.
Proof.
  intros [_ Hi _ He]. unfold spa_Open. specialize (He (fs_name name)). destruct (webui (fs_name name)) as [data| | |] eqn:E; try done.
  - right. by exists data, (fs_name name).
  - by left.
  - right. exists index, index_name. by split.
Qed.

(** A directory with a slash at the end is answered at once. *)
Lemma dir_served index url name :
  webui_fine index → has_suffix index_page url = false → has_suffix [slash] url = true → spa_Open name = SpDir →
  ∃ data n, serveFile url name = PaFile data ∧ webui n = SpFile data.
Proof.
  intros Hw H1 H2 H3. unfold serveFile. rewrite H1, H2, H3. cbn [negb].
  destruct (open_cases index (trim_suffix [slash] name ++ index_page) Hw) as [[_ H]|(data & n & -> & H)]; [|by exists data, n].
  by destruct (wf_pages _ Hw (trim_suffix [slash] name)).
Qed.

Lemma not_index_dir url : has_suffix index_page (url ++ [slash]) = false.
Proof. unfold has_suffix. rewrite rev_app_distr. reflexivity. Qed.

Definition reaches (console : bool) (n : nat) (path : chars) : Prop := ∀ m, (n ≤ m)%nat → at_page (browse m console path).

Lemma reaches_page console path data name :
  console_page console path = Some (PaFile data) → webui name = SpFile data → reaches console 0 path.
Proof. intros H Hn m _. destruct m; cbn [browse]; rewrite H; by exists data, name. Qed.

Lemma reaches_redirect console path ref n :
  console_page console path = Some (PaRedirect ref) → reaches console n (resolve path ref) → reaches console (S n) path.
Proof. intros H Hr m Hm. destruct m as [|m]; [lia|]. cbn [browse]. rewrite H. apply Hr. lia. Qed.

Lemma reaches_more console n m path : reaches console n path → (n ≤ m)%nat → reaches console m path.
Proof. intros H Hn k Hk. apply H. lia. Qed.

Lemma reaches_dir console index segs :
  webui_fine index → Forall plain_segment segs → spa_Open (rooted segs) = SpDir → reaches console 0 (dir_path segs).
Proof.
  intros Hw Hs Hd. pose proof (console_dir console segs Hs) as Hc.
  destruct (dir_served index (url_dir segs) (rooted segs) Hw) as (data & n & Hf & Hn); [| |done|].
  - destruct segs; [reflexivity|]. apply not_index_dir.
  - destruct segs; [reflexivity|]. apply ends_slash.
  - rewrite Hf in Hc. by eapply reaches_page.
Qed.

Lemma pages_reached console index segs :
  webui_fine index → Forall plain_segment segs →
  (segs ≠ [] → reaches console (2 * length segs) (file_path segs)) ∧ reaches console (2 * length segs + 1) (dir_path segs).
Proof.
  intros Hw. induction segs as [|b segs IH] using rev_ind; intros Hs.
  - split; [done|]. eapply reaches_more; [eapply reaches_dir; [done|done|]|lia].
    unfold spa_Open. change (fs_name (rooted [])) with [dot]. by rewrite (wf_root _ Hw).
  - pose proof Hs as Hs'. apply Forall_app in Hs' as [Hi Hb]. apply (proj1 (Forall_singleton _ _)) in Hb.
    specialize (IH Hi). destruct IH as [_ IHd]. pose proof Hb as (Hne & Hdot & _ & Hsl).
    assert (Hn : segs ++ [b] ≠ []) by (by destruct segs). rewrite length_app. cbn [length].
    assert (∃ l, rooted (segs ++ [b]) = l ++ slash :: b) as [l Hl].
    { destruct segs as [|s segs]; [by exists []|]. rewrite rooted_snoc by done. by eexists. }
    assert (Hfile : reaches console (2 * (length segs + 1)) (file_path (segs ++ [b]))).
    { pose proof (console_file console _ Hs Hn) as Hc. unfold serveFile in Hc. rewrite Hl, ends_index in Hc by done.
      case_bool_decide as Hix.
      - replace (2 * (length segs + 1))%nat with (S (2 * length segs + 1)) by lia.
        eapply reaches_redirect; [exact Hc|]. by rewrite resolve_file, resolve_here.
      - change (l ++ slash :: b) with (l ++ [slash] ++ b) in Hc. rewrite app_assoc, ends_plain, <- app_assoc in Hc by done. cbn [app] in Hc.
        destruct (open_cases index (l ++ slash :: b) Hw) as [[Ho _]|(data & n & Ho & Hdata)]; rewrite Ho in Hc; cbn [negb] in Hc.
        + eapply reaches_more; [eapply (reaches_redirect _ _ _ 0); [exact Hc|]|lia].
          rewrite (proj1 (base_of l b Hne Hsl)), resolve_file, resolve_into by done.
          eapply reaches_dir; [done|done|]. by rewrite Hl.
        + eapply reaches_more; [by eapply reaches_page|lia]. }
    split; [done|].
    destruct (open_cases index (rooted (segs ++ [b])) Hw) as [[Ho _]|(data & n & Ho & Hdata)].
    + eapply reaches_more; [by eapply reaches_dir|lia].
    + replace (2 * (length segs + 1) + 1)%nat with (S (2 * (length segs + 1))) by lia.
      pose proof (console_dir console _ Hs) as Hc. unfold serveFile in Hc.
      assert (Hu : url_dir (segs ++ [b]) = rooted (segs ++ [b]) ++ [slash]) by (by destruct segs).
      rewrite Hu, not_index_dir, ends_slash, Ho, Hl in Hc. rewrite <- app_assoc in Hc. cbn [app] in Hc.
      rewrite (proj2 (base_of l b Hne Hsl)) in Hc.
      rewrite (bool_decide_eq_false_2 (b = [slash])), (bool_decide_eq_false_2 (b = [dot])) in Hc; [|done|intros ->; apply Hsl; left].
      cbn [orb] in Hc. eapply reaches_redirect; [exact Hc|]. by rewrite resolve_up.
Qed.

(** The pages of the console: every path below "/admin/" whose segments are neither
    empty nor dots, with or without a slash at its end, leads a browser to a file of the
    console, "index.html" if nothing else, after at most two redirects for each segment and
    one more; no such path ends in an error or shows the files of a directory. *)
Theorem admin_pages_reached console index segs slashed m :
  webui_fine index → Forall plain_segment segs → slashed = true ∨ segs ≠ [] → (2 * length segs + 1 ≤ m)%nat →
  at_page (browse m console (if slashed : bool then dir_path segs else file_path segs)).
Proof.
  intros Hw Hs Hsl Hm. destruct (pages_reached console index segs Hw Hs) as [Hf Hd]. destruct slashed.
  - by apply Hd.
  - destruct Hsl as [?|Hne]; [done|]. apply (Hf Hne). lia.
Qed.

(** The address of the console: "/admin", which the process hands to the console, is
    answered with a redirect to the directory of the path "/index.html", which a browser
    takes for "/": the visit ends outside of the console. *)
Theorem admin_without_slash_lost console m : browse (S m) console admin_prefix = VisitLost [slash].
Proof. destruct console, m; reflexivity. Qed.
End pages.

(** ** Concrete files *)
Definition demo_webui (name : chars) : spaFile :=
  if bool_decide (name = [dot]) || bool_decide (name = to_chars "assets") then SpDir
  else if bool_decide (name = index_name) then SpFile (bytes_of_string "<html>")
  else if bool_decide (name = to_chars "assets/app.js") then SpFile (bytes_of_string "run()")
  else SpMissing.

Lemma demo_webui_fine : webui_fine demo_webui (bytes_of_string "<html>").
Proof.
  split; [reflexivity|reflexivity| |].
  - intros name. unfold demo_webui. destruct (bool_decide _ || bool_decide _) eqn:E; [|by repeat case_match]. exfalso.
    assert (Hl : ∀ l, last (l ++ index_page) = Some (ascii_of_nat 108)) by (intros l; by rewrite last_app).
    assert (Hend : ∀ l, last (fs_name (l ++ index_page)) = Some (ascii_of_nat 108)).
    { intros l. unfold fs_name. rewrite bool_decide_eq_false_2.
      - unfold trim_prefix. destruct (has_prefix [slash] (l ++ index_page)); [|apply Hl].
        destruct l as [|c l]; [reflexivity|]. apply (Hl l).
      - intros H. specialize (Hl l). rewrite H in Hl. done. }
    specialize (Hend name). apply orb_true_iff in E as [E|E]; apply bool_decide_eq_true in E; rewrite E in Hend; done.
  - intros name. unfold demo_webui. by repeat case_match.
Qed.

Lemma admin_pages_reached_witness :
  browse demo_webui 3 true (to_chars "/admin/nodes") = VisitPage (bytes_of_string "<html>").
Proof.
  destruct (admin_pages_reached demo_webui true (bytes_of_string "<html>") [to_chars "nodes"] false 3 demo_webui_fine)
    as (data & name & H & _).
  - constructor; [|constructor]. split_and!; try discriminate. apply (bool_decide_unpack _). vm_compute. exact I.
  - right. discriminate.
  - repeat constructor.
  - vm_compute. reflexivity.
Defined.
